(* ===== verification/_CoqProject ===== *)
-Q . S2P
Prelude.v
PyStr.v
Effects.v
Json.v
PyFloat.v
PyRegex.v
JsonText.v
JsonParse.v
JsonUnique.v
JsonRound.v
Sha256.v
Utf8.v
FileSystem.v
FileLogic.v
EnvReconcile.v
EnvProofs.v
EnvSafety.v
SecureReceipt.v
SecureReceiptProofs.v
HoldRelease.v
HoldProofs.v
WebArchive.v
SearchCore.v
SearchProofs.v
JsonContract.v
ClaimRegistry.v
AgentGuard.v
Handoff.v
HandoffProofs.v
TaskRun.v
Evidence.v
Publish.v
PublishProofs.v
DryRun.v
DryRunProofs.v
ReleaseVerify.v
LiveState.v
AlertIssue.v
AlertStore.v
Dispatch.v
Watch.v
WatchJournal.v
WatchOutbox.v
WatchRecord.v
WatchRecordProofs.v
WatchVerdict.v
ReviewMarkers.v
ReviewDiff.v
ReviewDiffProofs.v
ReviewGate.v
ReviewProofs.v
