(* ===== verification/Prelude.v ===== *)
(** * commonthing: the programs that decide

    The repository (a Rust API and a web frontend, operated by Python programs) keeps its decisions
    in those programs: what counts as a production incident, which pull request may be merged, which
    release is live, what may be written to a server.  This development models the ones below and
    proves what they promise.  Names of definitions are those of the sources where Rocq allows it;
    each file says which module it models, and the definitions come in the order of the source.

    ** The programs and how they interact

    - The watcher, [src/scripts/ops/independent_production_watch.py], observes production and records
      incidents: [Watch] (fetch, evaluate, the persisted main observation and its merge),
      [WatchJournal] (append_durable_events), [WatchOutbox] (pending_transition_entries,
      observation_admitted, record_unverifiable_prior_state), [WatchRecord] (record, persist_cycle,
      run_cycle), with the theorems on recording in [WatchRecordProofs] and on verdicts in
      [WatchVerdict].  The rows it appends to its journal are what the transport,
      [src/scripts/ops/independent_production_watch_dispatch.py], publishes: [Dispatch].
    - The release verifier, [src/scripts/ops/verify_public_release_commit.py], writes a receipt
      ([ReleaseVerify]); the classifier, [src/scripts/ops/classify_production_live_state.py], judges
      it against main ([LiveState], which calls [ReleaseVerify.evaluate] again on the stored
      readings); the alert job, [src/scripts/ops/production_alert_issue.py], turns classifications
      into one GitHub issue ([AlertIssue]; [AlertStore] is the repository it works on).
    - The review gate, [src/scripts/quality/review_governance.py] with
      [src/scripts/quality/attention_impact_contract.py], decides whether a pull request has the
      reviews its diff calls for: [ReviewMarkers] (markers in texts, the attention contract),
      [ReviewDiff] (numstat, risk classes, pinned fonts, the bundle), [ReviewGate] (evidence and its
      evaluation), with [ReviewDiffProofs] and [ReviewProofs].
    - Programs that write to a server: the environment reconciler,
      [src/scripts/ops/reconcile_public_login_smtp_env.py] ([EnvReconcile], [EnvProofs] for the text,
      [EnvSafety] for the transaction), the receipts of
      [src/scripts/ops/weltgewebe_secure_receipt_io.py] ([SecureReceipt], [SecureReceiptProofs]) and
      the check that precedes a release, [src/scripts/ops/verify_production_hold_release.py]
      ([HoldRelease], [HoldProofs]).
    - The admission of an uploaded frontend, [src/scripts/ops/validate_web_deploy_archive.py]:
      [WebArchive].
    - What an agent may be given and may hand over: the JSON contract,
      [src/scripts/agent/json_contract.py] ([JsonContract]); the registry of claims,
      [src/scripts/docmeta/validate_claim_registry.py] ([ClaimRegistry]); the guard on a task,
      [src/scripts/agent/check_non_ideal_task.py] ([AgentGuard]), built on both; the validator of a
      handoff, [src/scripts/agent/validate_handoff.py] ([Handoff], [HandoffProofs]), which runs them
      again on the task a handoff is bound to; and the dry run, [src/scripts/agent/run_task.py], which
      runs all of them, fingerprints the repository before and after and publishes a bundle of
      evidence: [TaskRun] (what it reads), [Evidence] (files and targets), [Publish] (the bundle),
      [DryRun] (the run), with [PublishProofs] and [DryRunProofs].
    - The ranking of the semantic search, [src/scripts/search/hybrid_ranking_core.py]: [SearchCore],
      [SearchProofs].

    Below them: [Prelude] (exceptions as values, the error monad, sorting, lists), [PyStr] (strings and
    the class [PyHost]), [Effects] (calls that may be refused or lose their answer), [Json] (values,
    dictionaries, [json.dumps]), [JsonText] (canonical text identifies the value), [JsonParse]
    ([json.loads]), [JsonUnique] (readers that refuse repeated keys), [JsonRound] (what is written is
    read back), [PyFloat] (binary64 arithmetic), [PyRegex] (constant patterns), [Sha256], [Utf8],
    [FileSystem] and [FileLogic] (files and assertions on them).

    ** State and steps

    A program that only computes is a function into [result exn], whose errors are exceptions with
    their class and message, so that [except] clauses select them by class as in Python.  A program
    that acts is a computation [eff S] on an explicit state: the journal, the cursor and what was sent
    ([Dispatch.world]), the snapshots, the journal and the report being changed in place
    ([WatchRecord]), the issues of the repository ([AlertStore.Store]), the files ([FileSystem.fs]), the
    directories of the evidence ([Evidence.disk]).
    Every system or network call consumes one item of a script of faults: it passes, is refused before
    it acts, or acts and loses its answer; theorems quantify over the script, so a crash between any
    two calls is covered.  Files may also be changed by others before each call.

    ** The groups of theorems

    - Nothing is lost, nothing is invented: [Dispatch.alarms_never_lost], [Dispatch.backlog_drains],
      [WatchRecordProofs.anchored_forever], [WatchRecordProofs.intent_survives],
      [WatchOutbox.nothing_forgotten], [WatchOutbox.admitted_room], [WatchJournal.append_whole_rows].
    - Verdicts mean what they say: [WatchVerdict.exit_zero_sound], [Watch.cycle_alarm_exact],
      [Watch.observation_refines], [Watch.stale_clock_persists],
      [ReleaseVerify.poll_exact], [LiveState.receipt_current_iff_released],
      [HoldProofs.release_verified_exact].
    - The alert refines an abstract machine: [AlertStore.reconcile_refines],
      [AlertStore.history_refines], [AlertStore.reconcile_faults_safe].
    - The gate: [ReviewProofs.pass_sound], [ReviewProofs.outsiders_change_nothing],
      [ReviewProofs.evidence_bound],
      [ReviewDiffProofs.minimum_risk_exact], [ReviewDiffProofs.verified_fonts_pinned].
    - Files: [EnvSafety.approved_or_untouched], [EnvSafety.dry_run_writes_nothing],
      [EnvProofs.reconciled_reads_back],
      [EnvProofs.plan_digest_binds], [SecureReceiptProofs.receipt_old_or_new],
      [SecureReceiptProofs.receipt_roundtrip], [SecureReceiptProofs.read_accepts_exactly],
      [SecureReceiptProofs.payload_as_written], [WebArchive.archive_admitted_exactly],
      [WebArchive.archive_confined], [PublishProofs.bundle_all_or_nothing].
    - Tasks of agents: [HandoffProofs.handoff_judged], [DryRunProofs.planned_run_sound],
      [DryRunProofs.dry_run_watches_repository], [DryRunProofs.own_handoff_exact].
    - Validation and ranking: [JsonContract.validate_instance_decides],
      [SearchProofs.hybrid_extends_lexical], [SearchProofs.fallback_only_when_unavailable].

    ** Bounds and fuel

    [JsonContract] recurses on Python's call stack: its fuel is the depth left, and running out is
    [RecursionError], as in Python; [validate_instance_decides] names the depth that is enough.
    [JsonParse] is bounded by the recursion limit ([host_json_depth], again an outcome) and its loops
    by the length of the text.  The read and write loops of [SecureReceipt] take as many turns as
    there are bytes, and every turn moves on; [Evidence.ensure_no_symlink] has a turn for every part
    of the path.  The polling loop of [ReleaseVerify] takes its clock
    readings as a list; [poll_exact] shows that it ends before the list does once the clock moves.
    Sizes and counts the programs limit (queues, journals, response bodies, receipts) are the
    constants of the sources.  Integers are unbounded, as in Python; SHA-256 keeps its words at 32
    bits and floats are binary64.

    ** What is a parameter

    [PyHost] answers what CPython takes from elsewhere: the Unicode database off ASCII, the text of a
    float, the engine behind a pattern that is data, dates, the recursion limit and the texts of some
    errors; on ASCII texts every string operation is computed.  [SearchCore.Provider] is the embedding
    service, [PyFloat.ListSort] what the language promises of [list.sort].  Network exchanges, the
    answers of Git and of the operating system to a read ([HoldRelease.auth_view],
    [HoldRelease.repo_view]), the working tree as the command-line tools ask it
    ([ClaimRegistry.repo]), the members a tar reader yields, the clock and, in the files written
    before [JsonParse], [json.loads] are arguments; hypotheses on them are stated where they are used.
    The dry run takes Git, the files and the clock from the class [TaskRun.Surroundings] and its paths
    and random names from [Evidence.Disks], whose answers may change at every call; [strptime] is a
    parameter of [Publish].

    ** Not modelled

    Argument parsing, printing, exclusive locks (a run that holds one is alone), SIGALRM except as an
    exception a read may raise, the command lines and environments of subprocesses, closing
    descriptors (but for those of the cursor in [Dispatch]).  Whole programs left out: the orchestration of clusters and virtual machines under
    [src/scripts/platform], the measurements under [src/scripts/performance], the map pipeline under
    [src/scripts/basemap], and the repository validators under [src/scripts/ci], [src/scripts/docmeta],
    [src/scripts/guard] and [src/scripts/preflight], which are sequences of subprocess calls or
    comparisons of files with fixed texts; the agents' preflight check and the validators of their own
    configuration; and the API and the frontend, which are not Python. *)

From stdpp Require Export base list strings option numbers gmap sets sorting.
From Stdlib Require Export ZArith Lia.

Declare Scope py_scope.
Delimit Scope py_scope with py.
Open Scope py_scope.

(** ** Exceptions and the error monad *)

(** An exception class is [Exception], a named class outside it (a direct [BaseException]) or a
    named subclass of another. *)
Inductive exc_class : Type :=
  | Exception
  | Outside (name : string)
  | Sub (name : string) (base : exc_class).

Definition OSError : exc_class := Sub "OSError" Exception.
Definition FileNotFoundError : exc_class := Sub "FileNotFoundError" OSError.
Definition ValueError : exc_class := Sub "ValueError" Exception.
Definition TypeError : exc_class := Sub "TypeError" Exception.
Definition AttributeError : exc_class := Sub "AttributeError" Exception.
Definition RuntimeError : exc_class := Sub "RuntimeError" Exception.
Definition LookupError : exc_class := Sub "LookupError" Exception.
Definition KeyError : exc_class := Sub "KeyError" LookupError.
Definition IndexError : exc_class := Sub "IndexError" LookupError.
Definition OverflowError : exc_class := Sub "OverflowError" Exception.
Definition RecursionError : exc_class := Sub "RecursionError" RuntimeError.
Definition UnicodeEncodeError : exc_class := Sub "UnicodeEncodeError" ValueError.
Definition HTTPError : exc_class := Sub "HTTPError" OSError.

Definition exc_name (c : exc_class) : string :=
  match c with Exception => "Exception" | Outside n | Sub n _ => n end.

(** [issubclass c b], by name, along the chain of bases. *)
Fixpoint issubclass (c b : exc_class) : bool :=
  String.eqb (exc_name c) (exc_name b) ||
  match c with Exception | Outside _ => false | Sub _ c' => issubclass c' b end.

Inductive result (E A : Type) : Type :=
  | Ok (a : A)
  | Err (e : E).
Arguments Ok {E A} a.
Arguments Err {E A} e.

#[global] Instance result_ret E : MRet (result E) := fun _ a => Ok a.
#[global] Instance result_bind E : MBind (result E) :=
  fun _ _ f m => match m with Ok a => f a | Err e => Err e end.
#[global] Instance result_fmap E : FMap (result E) :=
  fun _ _ f m => match m with Ok a => Ok (f a) | Err e => Err e end.

Definition is_ok {E A} (r : result E A) : bool :=
  match r with Ok _ => true | Err _ => false end.

(** A [for] loop threading a state through a body that may raise. *)
Fixpoint foldM {E S A} (f : S -> A -> result E S) (s : S) (l : list A) : result E S :=
  match l with
  | [] => Ok s
  | x :: l' => s' ← f s x; foldM f s' l'
  end.

(** A [for] loop whose body only raises or falls through. *)
Fixpoint forM_ {E A} (f : A -> result E unit) (l : list A) : result E unit :=
  match l with
  | [] => Ok tt
  | x :: l' => match f x with Ok _ => forM_ f l' | Err e => Err e end
  end.

(** ** Sorting: Python's [sorted] is a stable sort by a total preorder *)

Fixpoint insert_by {A} (leb : A -> A -> bool) (x : A) (l : list A) : list A :=
  match l with
  | [] => [x]
  | y :: l' => if leb x y then x :: y :: l' else y :: insert_by leb x l'
  end.

Definition sort_by {A} (leb : A -> A -> bool) (l : list A) : list A :=
  foldr (insert_by leb) [] l.

(** First element satisfying a test, with its index. *)
Fixpoint find_index {A} (p : A -> bool) (l : list A) : option nat :=
  match l with
  | [] => None
  | x :: l' => if p x then Some 0 else S <$> find_index p l'
  end.

Fixpoint number_from {A} (i : nat) (l : list A) : list (nat * A) :=
  match l with
  | [] => []
  | x :: l' => (i, x) :: number_from (S i) l'
  end.
(** Python's [enumerate]. *)
Definition enumerate {A} (l : list A) : list (nat * A) := number_from 0 l.

(** ** Automation *)

(** Case analysis on the innermost scrutinee of the goal. *)
Ltac destr_match :=
  match goal with
  | |- context [match ?x with _ => _ end] =>
      lazymatch x with context [match _ with _ => _ end] => fail | _ => destruct x eqn:? end
  end.

(** The same in a hypothesis. *)
Ltac destr_match_in H :=
  match type of H with
  | context [match ?x with _ => _ end] =>
      lazymatch x with context [match _ with _ => _ end] => fail | _ => destruct x eqn:? end
  end.

(** Split the guards of a monadic computation known to return [Ok]. *)
Ltac inv_ok H :=
  repeat (destr_match_in H; try discriminate H); try (injection H as H); subst.

(** A decidable statement about constants, by evaluating its decision. *)
Ltac by_compute := apply (bool_decide_unpack _); vm_compute; exact I.

Create HintDb py discriminated.

(** ** Lemmas on the error monad *)

Lemma bind_ok {E A B} (m : result E A) (f : A -> result E B) b :
  (m ≫= f) = Ok b <-> exists a, m = Ok a /\ f a = Ok b.
Proof. destruct m; cbn; naive_solver. Qed.

Lemma bind_err {E A B} (m : result E A) (f : A -> result E B) e :
  (m ≫= f) = Err e <-> m = Err e \/ exists a, m = Ok a /\ f a = Err e.
Proof. destruct m; cbn; naive_solver. Qed.

(** Take the first computation off a successful bind. *)
Ltac peel H := let Hx := fresh "Hx" in apply bind_ok in H as (? & Hx & H).

Lemma foldM_app {E S A} (f : S -> A -> result E S) s l1 l2 :
  foldM f s (l1 ++ l2) = (s' ← foldM f s l1; foldM f s' l2).
Proof.
  revert s; induction l1 as [|x l1 IH]; intros s; cbn; [done|].
  destruct (f s x); cbn; [apply IH|done].
Qed.

Lemma forM_ok {E A} (f : A -> result E unit) l :
  forM_ f l = Ok tt <-> Forall (fun x => f x = Ok tt) l.
Proof.
  induction l as [|x l IH]; cbn; [by split; [constructor|]|].
  rewrite Forall_cons, <-IH. destruct (f x) as [[]|]; naive_solver.
Qed.

Lemma mapM_ok {Er A B} (f : A -> result Er B) l k :
  mapM f l = Ok k <-> Forall2 (fun x y => f x = Ok y) l k.
Proof.
  revert k. induction l as [|x l IH]; intros k; cbn.
  - split; [by intros [= <-]|by inversion 1].
  - unfold mbind, result_bind. destruct (f x) as [y|e] eqn:E.
    + destruct (mapM f l) as [ys|e'].
      * split; [intros [= <-]; constructor; [done|by apply IH]|].
        inversion 1 as [|? y' ? ys' Hy Hys]; subst. apply IH in Hys as [= ->].
        rewrite E in Hy. by injection Hy as ->.
      * split; [done|]. inversion 1 as [|? y' ? ys' Hy Hys]; subst. by apply IH in Hys.
    + split; [done|]. inversion 1; congruence.
Qed.

Lemma foldM_inv {E S A} (P : S -> Prop) (f : S -> A -> result E S) s l s' :
  P s -> (forall s x s', x ∈ l -> P s -> f s x = Ok s' -> P s') -> foldM f s l = Ok s' -> P s'.
Proof.
  revert s; induction l as [|x l IH]; intros s Hs Hstep; cbn; [congruence|].
  intros (s1 & H1 & H2)%bind_ok.
  eapply IH; [|intros ??? Hin; apply Hstep; by right|exact H2].
  eapply Hstep; [by left|exact Hs|exact H1].
Qed.

(** A loop whose body reads an item and then adds what it read. *)
Lemma foldM_collect {E S A B} (f : A -> result E B) (g : S -> B -> S) s l s' :
  foldM (fun s x => r ← f x; Ok (g s r)) s l = Ok s' <->
  exists rs, Forall2 (fun x r => f x = Ok r) l rs /\ s' = foldl g s rs.
Proof.
  revert s; induction l as [|x l IH]; intros s; cbn [foldM].
  { split; [intros [= <-]; by exists []|]. by intros (rs & ->%Forall2_nil_inv_l & ->). }
  destruct (f x) as [r|e] eqn:Ef; cbn [mbind result_bind].
  - rewrite IH. split.
    + intros (rs & Hrs & ->). exists (r :: rs). split; [by constructor|done].
    + intros (rs & (r' & rs' & Hr & Hrs & ->)%Forall2_cons_inv_l & ->). exists rs'.
      rewrite Ef in Hr. injection Hr as ->. done.
  - split; [done|]. intros (rs & (r' & rs' & Hr & _)%Forall2_cons_inv_l & _). congruence.
Qed.

(** ** Lemmas on sorting *)

Section sort.
Context {A : Type} (leb : A -> A -> bool).

Lemma insert_by_perm x l : insert_by leb x l ≡ₚ x :: l.
Proof.
  induction l as [|y l IH]; cbn; [done|]. destruct (leb x y); [done|].
  rewrite IH. by rewrite Permutation_swap.
Qed.

Lemma sort_by_perm l : sort_by leb l ≡ₚ l.
Proof. induction l as [|x l IH]; cbn; [done|]. by rewrite insert_by_perm, IH. Qed.

Lemma elem_of_sort_by x l : x ∈ sort_by leb l <-> x ∈ l.
Proof. by rewrite (sort_by_perm l). Qed.

Lemma length_sort_by l : length (sort_by leb l) = length l.
Proof. by rewrite (sort_by_perm l). Qed.

Lemma NoDup_sort_by l : NoDup (sort_by leb l) <-> NoDup l.
Proof. by rewrite (sort_by_perm l). Qed.

Definition sorted_by : list A -> Prop := StronglySorted (fun x y => leb x y = true).

Context (leb_total : forall x y, leb x y = true \/ leb y x = true).
Context (leb_trans : forall x y z, leb x y = true -> leb y z = true -> leb x z = true).

Lemma insert_by_sorted x l : sorted_by l -> sorted_by (insert_by leb x l).
Proof.
  induction 1 as [|y l Hl IH Hy]; cbn; [by repeat constructor|].
  destruct (leb x y) eqn:E.
  - constructor; [by constructor|]. constructor; [done|].
    eapply Forall_impl; [exact Hy|]. eauto.
  - constructor; [done|]. rewrite insert_by_perm. constructor; [|done].
    destruct (leb_total x y); congruence.
Qed.

Lemma sort_by_sorted l : sorted_by (sort_by leb l).
Proof. induction l; cbn; [constructor|by apply insert_by_sorted]. Qed.

(** A list already in order is left alone: the sort is stable and idempotent. *)
Lemma sort_by_id l : sorted_by l -> sort_by leb l = l.
Proof.
  induction 1 as [|x l Hl IH Hx]; [done|].
  change (insert_by leb x (sort_by leb l) = x :: l). rewrite IH.
  destruct l as [|y l]; cbn; [done|]. inversion Hx; subst. by rewrite H1.
Qed.

(** With an antisymmetric order the sorted arrangement is unique. *)
Lemma sorted_by_unique l1 l2 :
  (forall x y, leb x y = true -> leb y x = true -> x = y) ->
  sorted_by l1 -> sorted_by l2 -> l1 ≡ₚ l2 -> l1 = l2.
Proof.
  intros Hanti H1. revert l2. induction H1 as [|x l1 H1 IH Hx]; intros l2 H2 Hp.
  - by apply Permutation_nil_l in Hp.
  - destruct H2 as [|y l2 H2 Hy]; [by apply Permutation_nil_r in Hp|].
    assert (x = y) as ->.
    { assert (x ∈ y :: l2) as Hin by (rewrite <-Hp; by left).
      assert (y ∈ x :: l1) as Hin' by (rewrite Hp; by left).
      apply elem_of_cons in Hin as [->|Hin]; [done|].
      apply elem_of_cons in Hin' as [->|Hin']; [done|].
      rewrite Forall_forall in Hx, Hy. auto. }
    f_equal. apply IH; [done|]. by apply Permutation_cons_inv in Hp.
Qed.
End sort.

Lemma length_number_from {A} i (l : list A) : length (number_from i l) = length l.
Proof. revert i; induction l; intros; cbn; auto. Qed.

Lemma lookup_number_from {A} i (l : list A) k :
  number_from i l !! k = (fun x => (i + k, x)) <$> (l !! k).
Proof.
  revert i k; induction l as [|x l IH]; intros i [|k]; cbn; try done.
  - by rewrite Nat.add_0_r.
  - rewrite IH. destruct (l !! k); cbn; [|done]. do 2 f_equal. lia.
Qed.

Lemma find_index_Some {A} (p : A -> bool) l i :
  find_index p l = Some i <->
  exists x, l !! i = Some x /\ p x = true /\ forall j y, j < i -> l !! j = Some y -> p y = false.
Proof.
  revert i; induction l as [|x l IH]; intros i; cbn.
  { split; [done|]. intros (y & H & _). by rewrite lookup_nil in H. }
  destruct (p x) eqn:E; split.
  - intros [= <-]. exists x; split_and!; auto. intros; lia.
  - intros (y & H & Hy & Hj). destruct i as [|i]; [done|].
    specialize (Hj 0 x). rewrite Hj in E; [done|lia|done].
  - destruct (find_index p l) as [k|] eqn:F; cbn; [intros [= <-]|done].
    destruct (proj1 (IH k) eq_refl) as (y & H & Hy & Hj).
    exists y; split_and!; auto. intros [|j] z Hlt Hz; cbn in *; [congruence|].
    eapply Hj; [|done]. lia.
  - intros (y & H & Hy & Hj). destruct i as [|i]; cbn in *; [congruence|].
    rewrite (proj2 (IH i)); [done|].
    exists y; split_and!; auto. intros j z Hlt Hz. apply (Hj (S j)); [lia|done].
Qed.

Lemma find_index_None {A} (p : A -> bool) l :
  find_index p l = None <-> Forall (fun x => p x = false) l.
Proof.
  induction l as [|x l IH]; cbn; [by split; [constructor|]|].
  rewrite Forall_cons, <-IH. destruct (p x), (find_index p l); cbn; naive_solver.
Qed.

#[export] Hint Resolve sort_by_perm sort_by_sorted : py.
