(* ===== verification/PyStr.v ===== *)
(** * Python strings

    A [str] is the sequence of its code points; literals of the sources are written as Rocq
    strings and decoded from UTF-8.  The operations are those of the [str] methods the sources
    call.  What CPython answers from the Unicode database, and the two library services whose
    code is not in reach (the text of a float, the engine behind a pattern that is data), are the
    fields of the class [PyHost]; on ASCII text every operation is computed here. *)

From S2P Require Import Prelude.
From Stdlib Require Ascii String DecimalString.
From Stdlib Require SpecFloat.

Definition pystr : Type := list N.

#[global] Instance pystr_eq_dec : EqDecision pystr := list_eq_dec.
#[global] Instance pystr_countable : Countable pystr := list_countable.

(** ** Literals: UTF-8 decoding of a Rocq string *)

Fixpoint utf8_decode (l : list N) : pystr :=
  match l with
  | [] => []
  | b :: l1 =>
      if (b <? 128)%N then b :: utf8_decode l1
      else if (b <? 224)%N then
        match l1 with
        | c1 :: l2 => (N.land b 31 * 64 + N.land c1 63)%N :: utf8_decode l2
        | _ => []
        end
      else if (b <? 240)%N then
        match l1 with
        | c1 :: c2 :: l3 =>
            (N.land b 15 * 4096 + N.land c1 63 * 64 + N.land c2 63)%N :: utf8_decode l3
        | _ => []
        end
      else
        match l1 with
        | c1 :: c2 :: c3 :: l4 =>
            (N.land b 7 * 262144 + N.land c1 63 * 4096 + N.land c2 63 * 64 + N.land c3 63)%N
              :: utf8_decode l4
        | _ => []
        end
  end.

Definition lit (s : string) : pystr := utf8_decode (Ascii.N_of_ascii <$> String.list_ascii_of_string s).
Coercion lit : string >-> pystr.
Arguments lit : simpl never.

(** [s.encode("utf-8")]: surrogates have no encoding. *)
Definition utf8_encode1 (c : N) : result exc_class (list N) :=
  (if c <? 128 then Ok [c]
   else if c <? 2048 then Ok [192 + N.shiftr c 6; 128 + N.land c 63]
   else if (55296 <=? c) && (c <=? 57343) then Err UnicodeEncodeError
   else if c <? 65536 then
     Ok [224 + N.shiftr c 12; 128 + N.land (N.shiftr c 6) 63; 128 + N.land c 63]
   else
     Ok [240 + N.shiftr c 18; 128 + N.land (N.shiftr c 12) 63;
         128 + N.land (N.shiftr c 6) 63; 128 + N.land c 63])%N.

Fixpoint utf8_encode (s : pystr) : result exc_class (list N) :=
  match s with
  | [] => Ok []
  | c :: s' => b ← utf8_encode1 c; r ← utf8_encode s'; Ok (b ++ r)
  end.

(** ** Exceptions carry a message *)

Record exn : Type := Exn { exn_class : exc_class; exn_msg : pystr }.
Definition raise {A} (c : exc_class) (m : pystr) : result exn A := Err (Exn c m).

(** [s.encode("utf-8")] with the exception's text; a run of surrogates is reported as a whole. *)
Definition is_surrogate (c : N) : bool := ((55296 <=? c) && (c <=? 57343))%N.
Fixpoint run_length (p : N -> bool) (s : pystr) : nat :=
  match s with c :: s' => if p c then S (run_length p s') else O | [] => O end.
Definition hex_digit (d : N) : N := (if d <? 10 then 48 + d else 87 + d)%N.
Definition hex_pad (n : nat) (c : N) : pystr :=
  (fun i => hex_digit (N.land (N.shiftr c (4 * N.of_nat i)) 15)) <$> rev (seq 0 n).
Definition show_Z (z : Z) : pystr := lit (DecimalString.NilZero.string_of_int (Z.to_int z)).
Definition show_nat (n : nat) : pystr := show_Z (Z.of_nat n).
Definition encode_error (s : pystr) : pystr :=
  let i := run_length (fun c => negb (is_surrogate c)) s in
  let bad := drop i s in
  let n := run_length is_surrogate bad in
  lit "'utf-8' codec can't encode " ++
  (if (n =? 1)%nat
   then lit "character '" ++ [92; 117]%N ++ hex_pad 4 (default 0%N (head bad)) ++ lit "' in position " ++ show_nat i
   else lit "characters in position " ++ show_nat i ++ lit "-" ++ show_nat (i + n - 1)) ++
  lit ": surrogates not allowed".
Definition encode (s : pystr) : result exn (list N) :=
  match utf8_encode s with Ok b => Ok b | Err c => raise c (encode_error s) end.

(** Computations that change a store and may raise; the store survives the exception. *)
Definition eff (S A : Type) : Type := S -> result exn A * S.
#[global] Instance eff_ret S : MRet (eff S) := fun _ a s => (Ok a, s).
#[global] Instance eff_bind S : MBind (eff S) := fun _ _ f m s =>
  match m s with (Ok a, s') => f a s' | (Err e, s') => (Err e, s') end.

Definition throw {S A} (c : exc_class) (m : pystr) : eff S A := fun s => (raise c m, s).
(** A pure computation inside an effectful one. *)
Definition pure {S A} (r : result exn A) : eff S A := fun s => (r, s).
(** [try: m  except <classes>: handler] *)
Definition try_except {S A} (classes : list exc_class) (m : eff S A) (handler : exn -> eff S A)
    : eff S A := fun s =>
  match m s with
  | (Ok a, s') => (Ok a, s')
  | (Err e, s') =>
      if existsb (issubclass (exn_class e)) classes then handler e s' else (Err e, s')
  end.
(** [try: m  finally: cleanup]: an exception of the clean-up replaces that of the body. *)
Definition try_finally {S A} (m : eff S A) (cleanup : eff S unit) : eff S A := fun s =>
  let '(r, s') := m s in
  match cleanup s' with
  | (Ok _, s'') => (r, s'')
  | (Err e, s'') => (Err e, s'')
  end.

(** ** Comparison *)

Fixpoint str_eqb (a b : pystr) : bool :=
  match a, b with
  | [], [] => true
  | x :: a', y :: b' => (x =? y)%N && str_eqb a' b'
  | _, _ => false
  end.

(** [a <= b]: lexicographic by code point. *)
Fixpoint str_leb (a b : pystr) : bool :=
  match a, b with
  | [], _ => true
  | _ :: _, [] => false
  | x :: a', y :: b' => (x <? y)%N || (x =? y)%N && str_leb a' b'
  end.
Definition str_ltb (a b : pystr) : bool := negb (str_leb b a).

(** [sorted(strings)] and membership in a list of strings. *)
Definition sort_str : list pystr -> list pystr := sort_by str_leb.
Definition str_in (x : pystr) (l : list pystr) : bool := existsb (str_eqb x) l.
Arguments str_in : simpl never.

(** ** Searching *)

Fixpoint startswith (p s : pystr) : bool :=
  match p, s with
  | [], _ => true
  | _ :: _, [] => false
  | x :: p', y :: s' => (x =? y)%N && startswith p' s'
  end.
Definition endswith (p s : pystr) : bool := startswith (rev p) (rev s).

(** [p in s] *)
Fixpoint contains (p s : pystr) : bool :=
  startswith p s || match s with [] => false | _ :: s' => contains p s' end.

(** [s.removeprefix(p)] when [p] is known to be a prefix. *)
Definition strip_prefix (p s : pystr) : option pystr :=
  if startswith p s then Some (drop (length p) s) else None.

(** ** Splitting, joining, replacing *)

(** [str.isspace] / the class [\s] for [str] patterns. *)
Definition is_space (c : N) : bool :=
  (((9 <=? c) && (c <=? 13)) || ((28 <=? c) && (c <=? 32)) || (c =? 133) || (c =? 160)
   || (c =? 5760) || ((8192 <=? c) && (c <=? 8202)) || (c =? 8232) || (c =? 8233)
   || (c =? 8239) || (c =? 8287) || (c =? 12288))%N.

Fixpoint lstrip (p : N -> bool) (s : pystr) : pystr :=
  match s with
  | [] => []
  | c :: s' => if p c then lstrip p s' else s
  end.
Definition rstrip (p : N -> bool) (s : pystr) : pystr := rev (lstrip p (rev s)).
(** [s.strip()] *)
Definition strip (s : pystr) : pystr := rstrip is_space (lstrip is_space s).

(** [s.split(c)] for a one-character separator: [n] separators give [n + 1] fields. *)
Fixpoint split_on (c : N) (s : pystr) : list pystr :=
  match s with
  | [] => [[]]
  | x :: s' =>
      if (x =? c)%N then [] :: split_on c s'
      else match split_on c s' with
           | [] => [[x]]
           | f :: fs => (x :: f) :: fs
           end
  end.

(** [s.split()]: maximal runs without white space. *)
Definition ws_runs (s : pystr) : list pystr :=
  foldr (fun x acc =>
           if is_space x then [] :: acc
           else match acc with [] => [[x]] | f :: fs => (x :: f) :: fs end) [[]] s.
Definition split_ws (s : pystr) : list pystr := filter (fun f => f <> []) (ws_runs s).

(** [sep.join(l)] *)
Fixpoint join (sep : pystr) (l : list pystr) : pystr :=
  match l with
  | [] => []
  | [x] => x
  | x :: l' => x ++ sep ++ join sep l'
  end.

(** [s.replace(old, new)] for a non-empty [old]; the fuel bounds the scan by the length. *)
Fixpoint replace_fuel (n : nat) (old new s : pystr) : pystr :=
  match n, s with
  | O, _ => s
  | S n', [] => []
  | S n', c :: s' =>
      if startswith old s then new ++ replace_fuel n' old new (drop (length old) s)
      else c :: replace_fuel n' old new s'
  end.
Definition replace (old new s : pystr) : pystr := replace_fuel (S (length s)) old new s.

(** ** Character classes *)

Definition in_range (lo hi c : N) : bool := ((lo <=? c) && (c <=? hi))%N.
Definition is_ascii (c : N) : bool := (c <? 128)%N.
Definition ascii_digit (c : N) : bool := in_range 48 57 c.
Definition ascii_upper (c : N) : bool := in_range 65 90 c.
Definition ascii_lower_p (c : N) : bool := in_range 97 122 c.
Definition lower_hex (c : N) : bool := ascii_digit c || in_range 97 102 c.
Definition ascii_word (c : N) : bool :=
  ascii_digit c || ascii_upper c || ascii_lower_p c || (c =? 95)%N.
Definition ascii_tolower (c : N) : N := if ascii_upper c then (c + 32)%N else c.

(** [COMMIT_RE] of the release tooling: [^[0-9a-f]{40}$] under [fullmatch]. *)
Definition all_hex_of_length (n : nat) (s : pystr) : bool :=
  (length s =? n)%nat && forallb lower_hex s.

(** ** What CPython answers from outside the sources *)

Class PyHost : Type := {
  (** [s.lower()], [s.casefold()] and NFKC followed by [casefold], off ASCII *)
  host_lower : pystr -> pystr;
  host_casefold : pystr -> pystr;
  host_nfkc_casefold : pystr -> pystr;
  (** the classes [\w] and [\d] of [re] and [str.isprintable], off ASCII *)
  host_word : N -> bool;
  host_digit : N -> bool;
  host_printable : N -> bool;
  (** [repr] of a float *)
  host_float_repr : SpecFloat.spec_float -> pystr;
  (** [re.compile(p)]: the text of the [re.error], or [fun s => re.search(p, s) is not None] *)
  host_re : pystr -> result pystr (pystr -> bool);
  (** [datetime.fromisoformat(s)]: microseconds since the epoch (of the UTC instant when the text
      carries an offset) and whether it carries one; [None] for a [ValueError] *)
  host_fromisoformat : pystr -> option (Z * bool);
  (** [t.isoformat()] of an aware UTC [datetime], and [t.astimezone(UTC)] of a naive one (local
      time to UTC); times are microseconds since the epoch *)
  host_isoformat : Z -> pystr;
  host_local : Z -> option Z;
  (** [s.upper()], NFC and the Unicode categories that begin with [C], off ASCII *)
  host_upper : pystr -> pystr;
  host_nfc : pystr -> pystr;
  host_control : N -> bool;
  (** [json]: how deep values may nest before [RecursionError], and the text of the
      [JSONDecodeError] for a text that is no JSON document *)
  host_json_depth : nat;
  host_json_error : pystr -> pystr;
  (** [int(s)], off ASCII; [None] for a [ValueError] *)
  host_int : pystr -> option Z;
}.

(** [str.splitlines()] *)
Definition line_break (c : N) : bool :=
  (in_range 10 13 c || in_range 28 30 c || (c =? 133) || (c =? 8232) || (c =? 8233))%N.
Fixpoint splitlines_from (line s : pystr) : list pystr :=
  match s with
  | [] => match line with [] => [] | _ => [line] end
  | c :: s' =>
      if line_break c then
        line :: match c, s' with
                | 13%N, 10%N :: s'' => splitlines_from [] s''
                | _, _ => splitlines_from [] s'
                end
      else splitlines_from (line ++ [c]) s'
  end.
Definition splitlines (s : pystr) : list pystr := splitlines_from [] s.

Section host.
Context `{PyHost}.

Definition lower (s : pystr) : pystr :=
  if forallb is_ascii s then ascii_tolower <$> s else host_lower s.
Definition casefold (s : pystr) : pystr :=
  if forallb is_ascii s then ascii_tolower <$> s else host_casefold s.
(** [unicodedata.normalize("NFKC", s).casefold()] *)
Definition nfkc_casefold (s : pystr) : pystr :=
  if forallb is_ascii s then ascii_tolower <$> s else host_nfkc_casefold s.

Definition upper (s : pystr) : pystr :=
  if forallb is_ascii s then (fun c => if ascii_lower_p c then (c - 32)%N else c) <$> s else host_upper s.
(** [unicodedata.normalize("NFC", s)] *)
Definition nfc (s : pystr) : pystr := if forallb is_ascii s then s else host_nfc s.
(** [unicodedata.category(c).startswith("C")] *)
Definition is_control (c : N) : bool :=
  if is_ascii c then (c <? 32)%N || (c =? 127)%N else host_control c.

Definition is_word (c : N) : bool := if is_ascii c then ascii_word c else host_word c.
Definition is_digit (c : N) : bool := if is_ascii c then ascii_digit c else host_digit c.
Definition is_printable (c : N) : bool :=
  if is_ascii c then in_range 32 126 c else host_printable c.

(** [repr(s)] *)
Definition repr_char (quote c : N) : pystr :=
  (if (c =? quote) || (c =? 92) then [92; c]
   else if c =? 10 then [92; 110] else if c =? 13 then [92; 114] else if c =? 9 then [92; 116]
   else if is_printable c then [c]
   else if c <? 256 then [92; 120] ++ hex_pad 2 c
   else if c <? 65536 then [92; 117] ++ hex_pad 4 c
   else [92; 85] ++ hex_pad 8 c)%N.
Definition repr_str (s : pystr) : pystr :=
  let quote := (if existsb (N.eqb 39) s && negb (existsb (N.eqb 34) s) then 34 else 39)%N in
  [quote] ++ flat_map (repr_char quote) s ++ [quote].
End host.

(** A host that knows ASCII only and takes every pattern for the literal text it is, on which the
    examples run. *)
Definition ascii_host : PyHost := {|
  host_lower := id; host_casefold := id; host_nfkc_casefold := id;
  host_word := fun _ => false; host_digit := fun _ => false; host_printable := fun _ => true;
  host_float_repr := fun _ => lit "0.0";
  host_re := fun p => Ok (contains p);
  host_fromisoformat := fun s => Some (0%Z, contains (lit "+") s);
  host_isoformat := fun _ => lit "1970-01-01T00:00:00+00:00"; host_local := Some;
  host_upper := id; host_nfc := id; host_control := fun _ => false;
  host_json_depth := 100; host_json_error := fun _ => lit "Expecting value: line 1 column 1 (char 0)";
  host_int := fun _ => None;
|}.

(** ** Lemmas *)

Lemma str_eqb_spec a b : reflect (a = b) (str_eqb a b).
Proof.
  revert b; induction a as [|x a IH]; intros [|y b]; cbn; try (constructor; congruence).
  destruct (N.eqb_spec x y); cbn; [|constructor; congruence].
  destruct (IH b); constructor; congruence.
Qed.

Lemma str_eqb_eq a b : str_eqb a b = true <-> a = b.
Proof. destruct (str_eqb_spec a b); naive_solver. Qed.
Lemma str_eqb_neq a b : str_eqb a b = false <-> a <> b.
Proof. destruct (str_eqb_spec a b); naive_solver. Qed.
Lemma str_eqb_refl a : str_eqb a a = true.
Proof. by apply str_eqb_eq. Qed.
Lemma str_eqb_sym a b : str_eqb a b = str_eqb b a.
Proof. destruct (str_eqb_spec a b), (str_eqb_spec b a); congruence. Qed.

Lemma str_in_elem x l : str_in x l = true <-> x ∈ l.
Proof.
  unfold str_in. rewrite existsb_exists, list_elem_of_In. split.
  - by intros (y & Hy & ->%str_eqb_eq).
  - intros Hx. exists x. by rewrite str_eqb_refl.
Qed.
Lemma str_in_not x l : str_in x l = false <-> x ∉ l.
Proof. rewrite <-str_in_elem. destruct (str_in x l); naive_solver. Qed.

Lemma str_leb_refl a : str_leb a a = true.
Proof. induction a; cbn; [done|]. by rewrite N.eqb_refl, IHa, orb_true_r. Qed.
Lemma str_leb_total a b : str_leb a b = true \/ str_leb b a = true.
Proof.
  revert b; induction a as [|x a IH]; intros [|y b]; cbn; auto.
  destruct (N.ltb_spec x y), (N.ltb_spec y x), (N.eqb_spec x y), (N.eqb_spec y x);
    cbn; auto; lia.
Qed.
Lemma str_leb_trans a b c : str_leb a b = true -> str_leb b c = true -> str_leb a c = true.
Proof.
  revert b c; induction a as [|x a IH]; intros [|y b] [|z c]; cbn; try done.
  destruct (N.ltb_spec x y), (N.ltb_spec y z), (N.ltb_spec x z), (N.eqb_spec x y),
    (N.eqb_spec y z), (N.eqb_spec x z); cbn; try done; try lia; eauto.
Qed.
Lemma str_leb_antisym a b : str_leb a b = true -> str_leb b a = true -> a = b.
Proof.
  revert b; induction a as [|x a IH]; intros [|y b]; cbn; try done.
  destruct (N.ltb_spec x y), (N.ltb_spec y x), (N.eqb_spec x y), (N.eqb_spec y x);
    cbn; try done; try lia. intros; f_equal; auto.
Qed.

#[export] Hint Resolve str_leb_refl str_leb_total str_leb_trans str_leb_antisym str_eqb_refl : py.

Lemma sort_str_perm l1 l2 : l1 ≡ₚ l2 -> sort_str l1 = sort_str l2.
Proof.
  intros Hp. eapply (sorted_by_unique str_leb); eauto with py.
  unfold sort_str. by rewrite !sort_by_perm.
Qed.

Lemma startswith_spec p s : startswith p s = true <-> exists t, s = p ++ t.
Proof.
  revert s; induction p as [|x p IH]; intros s; cbn; [naive_solver|].
  destruct s as [|y s]; [naive_solver|]. destruct (N.eqb_spec x y); cbn; [|naive_solver].
  rewrite IH. naive_solver.
Qed.

Lemma contains_spec p s : contains p s = true <-> exists a b, s = a ++ p ++ b.
Proof.
  induction s as [|y s IH]; cbn; rewrite orb_true_iff, startswith_spec.
  - split; [intros [[t ->]|]; [by exists [], t|done]|].
    intros ([|] & b & E); [left; by exists b|done].
  - rewrite IH. split.
    + intros [[t ->]|(a & b & ->)]; [by exists [], t|by exists (y :: a), b].
    + intros ([|z a] & b & E); [left; by exists b|right]. exists a, b. by injection E.
Qed.

Lemma all_hex_spec n s :
  all_hex_of_length n s = true <-> length s = n /\ Forall (fun c => lower_hex c = true) s.
Proof.
  unfold all_hex_of_length. rewrite andb_true_iff, Nat.eqb_eq, forallb_forall, Forall_forall.
  by setoid_rewrite list_elem_of_In.
Qed.

Lemma split_on_nonnil c s : split_on c s <> [].
Proof. induction s; cbn; repeat case_match; done. Qed.

(** Joining the fields of a split gives the string back. *)
Lemma join_cons_nonnil sep x l : l <> [] -> join sep (x :: l) = x ++ sep ++ join sep l.
Proof. by destruct l. Qed.

Lemma join_split_on c s : join [c] (split_on c s) = s.
Proof.
  induction s as [|x s IH]; [done|]. cbn [split_on]. destruct (N.eqb_spec x c) as [->|].
  - rewrite join_cons_nonnil by apply split_on_nonnil. cbn. by rewrite IH.
  - pose proof (split_on_nonnil c s). destruct (split_on c s) as [|f [|g fs]]; [done| |];
      cbn in *; by rewrite IH.
Qed.

Lemma split_on_no_sep c s f : f ∈ split_on c s -> c ∉ f.
Proof.
  revert f; induction s as [|x s IH]; cbn; intros f.
  { intros ->%list_elem_of_singleton. apply not_elem_of_nil. }
  destruct (N.eqb_spec x c) as [->|Hne].
  - intros [->|]%elem_of_cons; [apply not_elem_of_nil|auto].
  - pose proof (split_on_nonnil c s). destruct (split_on c s) as [|g fs]; [done|].
    intros [->|Hin]%elem_of_cons.
    + intros [?|Hc]%elem_of_cons; [congruence|]. eapply IH; [by left|done].
    + apply IH. by right.
Qed.

Lemma split_on_app c a b : split_on c (a ++ c :: b) = split_on c a ++ split_on c b.
Proof.
  induction a as [|x a IH]; cbn [app split_on]; [by rewrite N.eqb_refl|]. rewrite IH. destruct (x =? c)%N; [done|].
  pose proof (split_on_nonnil c a). by destruct (split_on c a).
Qed.
Lemma split_on_alone c s : c ∉ s -> split_on c s = [s].
Proof.
  induction s as [|x s IH]; intros Hs; cbn; [done|]. apply not_elem_of_cons in Hs as [Hx Hs].
  destruct (N.eqb_spec x c); [congruence|]. by rewrite IH.
Qed.
Lemma split_on_field c f s : c ∉ f -> split_on c (f ++ c :: s) = f :: split_on c s.
Proof. intros Hf. by rewrite split_on_app, (split_on_alone c f). Qed.
(** Splitting a join gives the fields back. *)
Lemma split_on_join c ls : ls <> [] -> Forall (fun l => c ∉ l) ls -> split_on c (join [c] ls) = ls.
Proof.
  intros Hne. induction 1 as [|l ls Hl Hls IH]; [done|]. destruct ls as [|l' ls]; [by apply split_on_alone|].
  rewrite join_cons_nonnil by done. cbn [app]. rewrite split_on_field by done. by rewrite IH.
Qed.

(** The texts of tokens: no white space inside. *)
Definition no_space (s : pystr) : bool := forallb (fun c => negb (is_space c)) s.

Lemma ws_runs_nonspace s f fs t :
  no_space s = true -> ws_runs t = f :: fs -> ws_runs (s ++ t) = (s ++ f) :: fs.
Proof.
  intros Hs Ht. induction s as [|c s IH]; cbn in *; [done|].
  apply andb_true_iff in Hs as [Hc Hs]. fold (ws_runs (s ++ t)). rewrite (IH Hs).
  by apply negb_true_iff in Hc as ->.
Qed.

Lemma split_ws_first s x t :
  s <> [] -> no_space s = true -> is_space x = true ->
  split_ws (s ++ x :: t) = s :: split_ws t.
Proof.
  intros Hne Hs Hx. unfold split_ws. rewrite (ws_runs_nonspace s [] (ws_runs t)); [|done|].
  - rewrite app_nil_r, filter_cons_True by done. done.
  - cbn. by rewrite Hx.
Qed.

Lemma forallb_weaken {A} (p q : A -> bool) l :
  (forall x, p x = true -> q x = true) -> forallb p l = true -> forallb q l = true.
Proof. rewrite !forallb_forall. auto. Qed.

Lemma lower_hex_no_space c : lower_hex c = true -> negb (is_space c) = true.
Proof.
  unfold lower_hex, ascii_digit, in_range, is_space. rewrite orb_true_iff, !andb_true_iff, !N.leb_le.
  intros Hc. apply negb_true_iff.
  repeat match goal with
  | |- _ || _ = false => apply orb_false_iff; split
  | |- (_ && _) = false => apply andb_false_iff; rewrite !N.leb_gt; lia
  | |- (_ =? _)%N = false => apply N.eqb_neq; lia
  end.
Qed.

Lemma hex_no_space n s : all_hex_of_length n s = true -> no_space s = true /\ length s = n.
Proof.
  unfold all_hex_of_length. rewrite andb_true_iff, Nat.eqb_eq. intros [? Hs]. split; [|done].
  by eapply forallb_weaken; [apply lower_hex_no_space|].
Qed.

(** The longest run of a class of characters is determined by the text. *)
Definition stops (p : N -> bool) (s : pystr) : Prop :=
  match s with [] => True | c :: _ => p c = false end.

Lemma run_unique (p : N -> bool) a b x y :
  forallb p a = true -> forallb p b = true -> stops p x -> stops p y ->
  a ++ x = b ++ y -> a = b /\ x = y.
Proof.
  revert b; induction a as [|c a IH]; intros [|d b] Ha Hb Hx Hy E; cbn in *.
  - done.
  - subst x. cbn in Hx. by rewrite Hx in Hb.
  - subst y. cbn in Hy. by rewrite Hy in Ha.
  - injection E as <- E. apply andb_true_iff in Ha as [_ Ha], Hb as [_ Hb].
    by destruct (IH b Ha Hb Hx Hy E) as [-> ->].
Qed.

(** ** Stripping and replacing *)

Definition edge_free (s : pystr) : Prop :=
  match head s with Some c => is_space c = false | None => True end /\
  match last s with Some c => is_space c = false | None => True end.

Lemma lstrip_head p s : match head (lstrip p s) with Some c => p c = false | None => True end.
Proof. induction s as [|c s IH]; cbn; [done|]. by destruct (p c) eqn:E; [|cbn]. Qed.
Lemma lstrip_id p s : match head s with Some c => p c = false | None => True end -> lstrip p s = s.
Proof. destruct s as [|c s]; cbn; [done|]. by intros ->. Qed.
Lemma lstrip_suffix p s : exists u, s = u ++ lstrip p s.
Proof.
  induction s as [|c s [u IH]]; cbn; [by exists []|]. destruct (p c); [|by exists []].
  exists (c :: u). by rewrite IH at 1.
Qed.
Lemma head_rev {A} (l : list A) : head (rev l) = last l.
Proof. rewrite <-(rev_involutive l) at 2. destruct (rev l) as [|x k]; [done|]. cbn. by rewrite last_snoc. Qed.

Lemma rstrip_prefix p s : exists u, s = rstrip p s ++ u.
Proof.
  unfold rstrip. destruct (lstrip_suffix p (rev s)) as [u Hu]. exists (rev u).
  by rewrite <-rev_app_distr, <-Hu, rev_involutive.
Qed.
Lemma strip_edge_free s : edge_free (strip s).
Proof.
  unfold strip. split.
  - pose proof (lstrip_head is_space s) as Hh. destruct (rstrip_prefix is_space (lstrip is_space s)) as [u Hu].
    destruct (rstrip is_space (lstrip is_space s)) as [|c t]; [done|]. by rewrite Hu in Hh.
  - unfold rstrip. rewrite <-head_rev, rev_involutive. apply lstrip_head.
Qed.
Lemma strip_id s : edge_free s -> strip s = s.
Proof.
  intros [Hh Hl]. unfold strip. rewrite (lstrip_id _ s Hh). unfold rstrip.
  rewrite lstrip_id; [by rewrite rev_involutive|]. by rewrite head_rev.
Qed.
Lemma strip_idem s : strip (strip s) = strip s.
Proof. apply strip_id, strip_edge_free. Qed.
Lemma strip_sub s c : c ∈ strip s -> c ∈ s.
Proof.
  unfold strip. intros Hc. destruct (lstrip_suffix is_space s) as [u Hu]. rewrite Hu. apply elem_of_app. right.
  destruct (rstrip_prefix is_space (lstrip is_space s)) as [v Hv]. rewrite Hv. apply elem_of_app. by left.
Qed.

Lemma replace_absent x old new s : Forall (fun c => c <> x) s -> replace (x :: old) new s = s.
Proof.
  intros Hs. unfold replace. generalize (S (length s)). intros n. revert n.
  induction Hs as [|c s Hc Hs IH]; intros [|n]; try done. cbn [replace_fuel startswith].
  rewrite (proj2 (N.eqb_neq x c)) by congruence. cbn [andb]. by rewrite IH.
Qed.

Lemma replace_char x y s : replace [x] [y] s = (fun c => if (c =? x)%N then y else c) <$> s.
Proof.
  assert (forall n s, (length s < n)%nat -> replace_fuel n [x] [y] s = (fun c => if (c =? x)%N then y else c) <$> s) as H.
  { induction n as [|n IH]; intros [|c t] Hn; cbn in *; try done; [lia|]. rewrite (N.eqb_sym x c).
    destruct (c =? x)%N; cbn; [rewrite drop_0|]; by rewrite IH by lia. }
  unfold replace. apply H. lia.
Qed.
Lemma startswith_refl s : startswith s s = true.
Proof. apply startswith_spec. exists []. by rewrite app_nil_r. Qed.
Lemma endswith_char c s : endswith [c] s = true <-> exists t, s = t ++ [c].
Proof.
  unfold endswith. rewrite startswith_spec. split; intros [t E].
  - exists (rev t). rewrite <-(rev_involutive s), E. by rewrite rev_app_distr.
  - exists (rev t). by rewrite E, rev_app_distr.
Qed.
Lemma endswith_slash s : endswith (lit "/") s = true <-> exists t, s = t ++ [47%N].
Proof. apply (endswith_char 47). Qed.
