(* ===== verification/Effects.v ===== *)
(** * Effects under faults

    A computation of type [eff S A] talks to the outside through calls.  A state with a script of
    faults ([Faulty]) says for each call whether it passes, is refused before it acts, or acts and
    loses its answer (a crash between the effect and the next line is the last case); [call] runs
    one.  [hoare] collects the rules for assertions that survive every outcome. *)

From S2P Require Import Prelude PyStr.

Inductive fault : Type := passes | refused (e : exn) | lost (e : exn).

Class Faulty (S : Type) : Type := {
  faults : S -> list fault;
  with_faults : S -> list fault -> S;
  faults_with s fs : faults (with_faults s fs) = fs;
  with_with s fs fs' : with_faults (with_faults s fs) fs' = with_faults s fs';
  with_same s : with_faults s (faults s) = s;
}.

Section effects.
Context {S : Type} `{Faulty S}.

(** One call under the script. *)
Definition call {A} (m : eff S A) : eff S A := fun s =>
  match faults s with
  | [] => m s
  | f :: fs =>
      let s1 := with_faults s fs in
      match f with
      | passes => m s1
      | refused e => (Err e, s1)
      | lost e => (Err e, snd (m s1))
      end
  end.

(** No fault left. *)
Definition calm (s : S) : Prop := faults s = [].

Lemma call_calm {A} (m : eff S A) s : calm s -> call m s = m s.
Proof. unfold call. by intros ->. Qed.

(** An assertion that does not depend on the script. *)
Class Steady (P : S -> Prop) : Prop := steady s fs : P s -> P (with_faults s fs).

Definition hoare {A} (P : S -> Prop) (m : eff S A) (Q : S -> Prop) : Prop :=
  forall s, P s -> Q (snd (m s)).

Section hoare.
Context (P : S -> Prop) `{!Steady P}.

Lemma hoare_pure {A} (r : result exn A) : hoare P (pure r) P.
Proof. by intros s. Qed.
Lemma hoare_ret {A} (a : A) : hoare P (mret a) P.
Proof. by intros s. Qed.
Lemma hoare_throw {A} c m : hoare P (throw (A := A) c m) P.
Proof. by intros s. Qed.

Lemma hoare_bind {A B} (m : eff S A) (f : A -> eff S B) :
  hoare P m P -> (forall a, hoare P (f a) P) -> hoare P (m ≫= f) P.
Proof.
  intros Hm Hf s Hs. unfold mbind, eff_bind. specialize (Hm s Hs).
  destruct (m s) as [[a|e] s1]; [by apply Hf|done].
Qed.

Lemma hoare_try {A} classes (m : eff S A) h :
  hoare P m P -> (forall e, hoare P (h e) P) -> hoare P (try_except classes m h) P.
Proof.
  intros Hm Hh s Hs. unfold try_except. specialize (Hm s Hs).
  destruct (m s) as [[a|e] s1]; [done|]. destruct (existsb _ _); [by apply Hh|done].
Qed.

Lemma hoare_call {A} (m : eff S A) (Q : S -> Prop) :
  (forall s, P s -> Q s) -> hoare P m Q -> hoare P (call m) Q.
Proof.
  intros Hpq Hm s Hs. unfold call. destruct (faults s) as [|[]fs]; [by apply Hm|..].
  - by apply Hm, steady.
  - by apply Hpq, steady.
  - by apply Hm, steady.
Qed.
End hoare.
End effects.

Lemma eff_bind_ok {S A B} (m : eff S A) (f : A -> eff S B) s a s' :
  m s = (Ok a, s') -> (m ≫= f) s = f a s'.
Proof. intros E. unfold mbind, eff_bind. by rewrite E. Qed.

Lemma eff_bind_err {S A B} (m : eff S A) (f : A -> eff S B) s e s' :
  m s = (Err e, s') -> (m ≫= f) s = (Err e, s').
Proof. intros E. unfold mbind, eff_bind. by rewrite E. Qed.

Lemma eff_bind_inv {S A B} (m : eff S A) (f : A -> eff S B) s b s' :
  (m ≫= f) s = (Ok b, s') -> exists a s1, m s = (Ok a, s1) /\ f a s1 = (Ok b, s').
Proof. unfold mbind, eff_bind. destruct (m s) as [[a|e] s1]; [by eexists _, _|done]. Qed.

Lemma pair_snd {A B} (p : A * B) a : fst p = a -> p = (a, snd p).
Proof. intros <-. by destruct p. Qed.
