(* ===== verification/Json.v ===== *)
(** * Python values as read from JSON, and the canonical text of [json.dumps]

    [json] is what [json.loads] returns.  A [dict] is an association list in insertion order,
    with the operations of [dict]; equality is Python's [==], which identifies [True], [1] and
    [1.0].  [canonical_json] is
    [json.dumps(value, ensure_ascii=False, sort_keys=True, separators=(",", ":"))], used under
    several names in the sources. *)

From S2P Require Import Prelude PyStr.
From Stdlib Require Import SpecFloat.
From Stdlib Require DecimalString DecimalZ.

(** ** Dictionaries *)

Abbreviation dict V := (list (pystr * V)).

Section dict.
Context {V : Type}.

(** [d.get(k)] *)
Fixpoint dget (d : dict V) (k : pystr) : option V :=
  match d with
  | [] => None
  | (k', v) :: d' => if str_eqb k k' then Some v else dget d' k
  end.

(** [d[k] = v]: replace in place, or append. *)
Fixpoint dset (d : dict V) (k : pystr) (v : V) : dict V :=
  match d with
  | [] => [(k, v)]
  | (k', v') :: d' => if str_eqb k k' then (k', v) :: d' else (k', v') :: dset d' k v
  end.

Definition dmem (d : dict V) (k : pystr) : bool :=
  match dget d k with Some _ => true | None => false end.
Definition dkeys (d : dict V) : list pystr := fst <$> d.

Definition key_leb (x y : pystr * V) : bool := str_leb (fst x) (fst y).
Definition sort_items (d : dict V) : dict V := sort_by key_leb d.
End dict.

(** ** Values *)

Unset Elimination Schemes.
Inductive json : Type :=
  | JNull
  | JBool (b : bool)
  | JInt (z : Z)
  | JFloat (f : spec_float)
  | JStr (s : pystr)
  | JList (l : list json)
  | JObj (d : list (pystr * json)).
Set Elimination Schemes.

Lemma json_ind (P : json -> Prop) :
  P JNull -> (forall b, P (JBool b)) -> (forall z, P (JInt z)) -> (forall f, P (JFloat f)) ->
  (forall s, P (JStr s)) ->
  (forall l, Forall P l -> P (JList l)) ->
  (forall d, Forall (fun kv => P (snd kv)) d -> P (JObj d)) ->
  forall v, P v.
Proof.
  intros Hn Hb Hi Hf Hs Hl Ho.
  fix go 1. intros [|b|z|f|s|l|d].
  - exact Hn.
  - exact (Hb b).
  - exact (Hi z).
  - exact (Hf f).
  - exact (Hs s).
  - apply Hl. induction l; constructor; auto.
  - apply Ho. induction d as [|[k v] d]; constructor; cbn; auto.
Qed.

Definition is_none (v : json) : bool := match v with JNull => true | _ => false end.
Definition is_dict (v : json) : bool := match v with JObj _ => true | _ => false end.
Definition is_list (v : json) : bool := match v with JList _ => true | _ => false end.
Definition is_str (v : json) : bool := match v with JStr _ => true | _ => false end.
Definition is_bool (v : json) : bool := match v with JBool _ => true | _ => false end.
(** [isinstance(v, int)]: [bool] is a subclass of [int]. *)
Definition is_int (v : json) : bool := match v with JInt _ | JBool _ => true | _ => false end.
(** [isinstance(v, int) and not isinstance(v, bool)], or [type(v) is int]. *)
Definition is_strict_int (v : json) : bool := match v with JInt _ => true | _ => false end.

(** Truth value. *)
Definition truthy (v : json) : bool :=
  match v with
  | JNull => false
  | JBool b => b
  | JInt z => negb (z =? 0)%Z
  | JFloat (S754_zero _) => false
  | JFloat _ => true
  | JStr s => match s with [] => false | _ => true end
  | JList l => match l with [] => false | _ => true end
  | JObj d => match d with [] => false | _ => true end
  end.

(** [v.get(k)] on a value known to be a [dict]; [None] when the key is absent. *)
Definition get (v : json) (k : pystr) : json :=
  match v with JObj d => default JNull (dget d k) | _ => JNull end.

(** ** Equality *)

Definition num_eqb_float (z : Z) (f : spec_float) : bool :=
  match f with
  | S754_zero _ => (z =? 0)%Z
  | S754_finite s m e =>
      let v := if s then Zneg m else Zpos m in
      (if (0 <=? e) then z =? v * 2 ^ e else z * 2 ^ (- e) =? v)%Z
  | _ => false
  end.

Definition int_of (v : json) : option Z :=
  match v with JInt z => Some z | JBool b => Some (if b then 1 else 0)%Z | _ => None end.

Definition num_eqb (a b : json) : bool :=
  match int_of a, int_of b, a, b with
  | Some x, Some y, _, _ => (x =? y)%Z
  | Some x, None, _, JFloat g => num_eqb_float x g
  | None, Some y, JFloat f, _ => num_eqb_float y f
  | None, None, JFloat f, JFloat g => match SFcompare f g with Some Eq => true | _ => false end
  | _, _, _, _ => false
  end.

(** Python's [==]. *)
Fixpoint py_eq (a b : json) {struct a} : bool :=
  match a, b with
  | JNull, JNull => true
  | JStr s, JStr t => str_eqb s t
  | JList l, JList m =>
      (fix go (l m : list json) {struct l} : bool :=
         match l, m with
         | [], [] => true
         | x :: l', y :: m' => py_eq x y && go l' m'
         | _, _ => false
         end) l m
  | JObj d, JObj e =>
      (length d =? length e)%nat &&
      (fix all (d : list (pystr * json)) : bool :=
         match d with
         | [] => true
         | (k, v) :: d' => match dget e k with Some w => py_eq v w | None => false end && all d'
         end) d
  | _, _ => num_eqb a b
  end.

(** [v in l] *)
Definition py_in (v : json) (l : list json) : bool := existsb (py_eq v) l.

(** ** Canonical text *)

(** The escapes of [json.encoder] with [ensure_ascii=False]. *)
Definition esc_char (c : N) : pystr :=
  (if c =? 34 then [92; 34]
   else if c =? 92 then [92; 92]
   else if c =? 10 then [92; 110]
   else if c =? 13 then [92; 114]
   else if c =? 9 then [92; 116]
   else if c =? 12 then [92; 102]
   else if c =? 8 then [92; 98]
   else if c <? 32 then
     [92; 117; 48; 48; hex_digit (N.shiftr c 4); hex_digit (N.land c 15)]
   else [c])%N.

Definition quote (s : pystr) : pystr := [34%N] ++ flat_map esc_char s ++ [34%N].

Section dumps.
Context `{PyHost}.

Definition float_text (f : spec_float) : pystr :=
  match f with
  | S754_nan => "NaN"
  | S754_infinity false => "Infinity"
  | S754_infinity true => "-Infinity"
  | _ => host_float_repr f
  end.

Fixpoint canonical_json (v : json) : pystr :=
  match v with
  | JNull => "null"
  | JBool true => "true"
  | JBool false => "false"
  | JInt z => show_Z z
  | JFloat f => float_text f
  | JStr s => quote s
  | JList l => [91%N] ++ join [44%N] (canonical_json <$> l) ++ [93%N]
  | JObj d =>
      [123%N] ++
      join [44%N] ((fun kt => quote (fst kt) ++ [58%N] ++ snd kt) <$>
                     sort_items ((fun kv => (fst kv, canonical_json (snd kv))) <$> d))
      ++ [125%N]
  end.

(** [json.dumps(value, sort_keys=True, separators=(",", ":"))]: the default [ensure_ascii] writes
    what is not printable ASCII as UTF-16 escapes. *)
Definition escape_unit (u : N) : pystr := ([92; 117] ++ hex_pad 4 u)%N.
Definition ascii_escape (c : N) : pystr :=
  (if in_range 32 126 c then [c]
   else if c <? 65536 then escape_unit c
   else escape_unit (55296 + N.shiftr (c - 65536) 10) ++ escape_unit (56320 + N.land (c - 65536) 1023))%N.
Definition ascii_json (v : json) : pystr := flat_map ascii_escape (canonical_json v).

(** [json.dumps(value, sort_keys=True, indent=2)] at a depth; [q] writes a string, with or without
    [ensure_ascii]. *)
Definition newline (depth : nat) : pystr := [10%N] ++ repeat 32%N (2 * depth).
Definition bracketed (depth : nat) (left right : N) (parts : list pystr) : pystr :=
  match parts with
  | [] => [left; right]
  | _ => [left] ++ newline (S depth) ++ join ([44%N] ++ newline (S depth)) parts ++ newline depth ++ [right]
  end.
Fixpoint indented_with (q : pystr -> pystr) (depth : nat) (v : json) : pystr :=
  match v with
  | JStr s => q s
  | JList l => bracketed depth 91 93 (indented_with q (S depth) <$> l)
  | JObj d => bracketed depth 123 125
      ((fun kt => q (fst kt) ++ [58%N; 32%N] ++ snd kt) <$>
        sort_items ((fun kv => (fst kv, indented_with q (S depth) (snd kv))) <$> d))
  | _ => canonical_json v
  end.
Definition indented_json : nat -> json -> pystr := indented_with quote.
Definition ascii_quote (s : pystr) : pystr := flat_map ascii_escape (quote s).
End dumps.

(** The canonical form: every [dict] in key order. *)
Fixpoint norm (v : json) : json :=
  match v with
  | JList l => JList (norm <$> l)
  | JObj d => JObj (sort_items ((fun kv => (fst kv, norm (snd kv))) <$> d))
  | _ => v
  end.

(** Values whose text does not depend on [repr] of a float. *)
Fixpoint float_free (v : json) : bool :=
  match v with
  | JFloat _ => false
  | JList l => forallb float_free l
  | JObj d => forallb (fun kv => float_free (snd kv)) d
  | _ => true
  end.

(** Well-formed values: no [dict] repeats a key. *)
Fixpoint json_wf (v : json) : bool :=
  match v with
  | JList l => forallb json_wf l
  | JObj d => bool_decide (NoDup (dkeys d)) && forallb (fun kv => json_wf (snd kv)) d
  | _ => true
  end.

(** ** [repr] of a value *)

Section repr.
Context `{PyHost}.
Fixpoint repr (v : json) : pystr :=
  match v with
  | JNull => "None"
  | JBool true => "True"
  | JBool false => "False"
  | JInt z => show_Z z
  | JFloat S754_nan => "nan"
  | JFloat (S754_infinity false) => "inf"
  | JFloat (S754_infinity true) => "-inf"
  | JFloat f => host_float_repr f
  | JStr s => repr_str s
  | JList l => lit "[" ++ join ", " (repr <$> l) ++ lit "]"
  | JObj d =>
      lit "{" ++ join ", " ((fun kv => repr_str (fst kv) ++ lit ": " ++ repr (snd kv)) <$> d)
      ++ lit "}"
  end.

(** [type(v).__name__] *)
Definition type_name (v : json) : pystr :=
  match v with
  | JNull => lit "NoneType" | JBool _ => lit "bool" | JInt _ => lit "int"
  | JFloat _ => lit "float" | JStr _ => lit "str" | JList _ => lit "list" | JObj _ => lit "dict"
  end.
(** [v[k]] *)
Definition item (v : json) (k : pystr) : result exn json :=
  match v with
  | JObj d => match dget d k with Some x => Ok x | None => raise KeyError (repr_str k) end
  | JList _ => raise TypeError "list indices must be integers or slices, not str"
  | JStr _ => raise TypeError "string indices must be integers, not 'str'"
  | _ => raise TypeError (lit "'" ++ type_name v ++ lit "' object is not subscriptable")
  end.

(** [str(v)] and the default formatting of an f-string *)
Definition to_str (v : json) : pystr := match v with JStr s => s | _ => repr v end.
End repr.

(** ** Lemmas: dictionaries *)

Section dict_lemmas.
Context {V : Type}.
Implicit Types (d : dict V) (k : pystr) (v : V).

Lemma dget_in d k v : dget d k = Some v -> (k, v) ∈ d.
Proof.
  induction d as [|[k' w] d IH]; cbn; [done|].
  destruct (str_eqb_spec k k') as [->|]; [intros [= ->]; by left|right; auto].
Qed.
Lemma dget_None d k : dget d k = None <-> k ∉ dkeys d.
Proof.
  induction d as [|[k' w] d IH]; cbn; [split; [intros; apply not_elem_of_nil|done]|].
  rewrite not_elem_of_cons, <-IH. destruct (str_eqb_spec k k'); naive_solver.
Qed.
Lemma dget_Some_keys d k v : dget d k = Some v -> k ∈ dkeys d.
Proof. intros H%dget_in. by apply (list_elem_of_fmap_2 fst) in H. Qed.
Lemma dget_nodup d k v : NoDup (dkeys d) -> (k, v) ∈ d -> dget d k = Some v.
Proof.
  induction d as [|[k' w] d IH]; cbn; [by intros _ ?%not_elem_of_nil|].
  intros [Hn Hd]%NoDup_cons [[= -> ->]|Hin]%elem_of_cons; [by rewrite str_eqb_refl|].
  destruct (str_eqb_spec k k') as [->|]; [|auto].
  destruct Hn. by apply (list_elem_of_fmap_2 fst) in Hin.
Qed.
Lemma dmem_spec d k : dmem d k = true <-> k ∈ dkeys d.
Proof.
  unfold dmem. destruct (dget d k) eqn:E.
  - split; [|done]. intros _. by eapply dget_Some_keys.
  - apply dget_None in E. by split.
Qed.
Lemma dget_dset d k k' v : dget (dset d k v) k' = if str_eqb k' k then Some v else dget d k'.
Proof.
  induction d as [|[k1 w] d IH]; cbn.
  - done.
  - destruct (str_eqb_spec k k1) as [->|]; cbn.
    + by destruct (str_eqb_spec k' k1).
    + rewrite IH. destruct (str_eqb_spec k' k1) as [->|], (str_eqb_spec k1 k); congruence.
Qed.
Lemma dkeys_dset d k v : dkeys (dset d k v) = if dmem d k then dkeys d else dkeys d ++ [k].
Proof.
  unfold dmem, dkeys. induction d as [|[k1 w] d IH]; cbn; [done|].
  destruct (str_eqb_spec k k1) as [->|]; cbn in *; [done|]. rewrite IH. by destruct (dget d k).
Qed.
Lemma dset_fresh d k v : k ∉ dkeys d -> dset d k v = d ++ [(k, v)].
Proof.
  induction d as [|[k1 w] d IH]; cbn; [done|]. rewrite not_elem_of_cons. intros [Hne Hin].
  apply str_eqb_neq in Hne as ->. by rewrite IH.
Qed.
Lemma NoDup_dset d k v : NoDup (dkeys d) -> NoDup (dkeys (dset d k v)).
Proof.
  intros Hd. rewrite dkeys_dset. destruct (dmem d k) eqn:E; [done|].
  apply NoDup_app; split_and!; [done| |apply NoDup_singleton].
  intros x Hx ->%list_elem_of_singleton. apply dmem_spec in Hx. congruence.
Qed.

Lemma dkeys_sort_items d : dkeys (sort_items d) ≡ₚ dkeys d.
Proof. unfold dkeys, sort_items. by rewrite (sort_by_perm key_leb d). Qed.

Lemma dget_perm d1 d2 k : NoDup (dkeys d1) -> d1 ≡ₚ d2 -> dget d1 k = dget d2 k.
Proof.
  intros Hd Hp. destruct (dget d1 k) as [v|] eqn:E.
  - symmetry. apply dget_nodup; [unfold dkeys; by rewrite <-Hp|]. rewrite <-Hp. by apply dget_in.
  - symmetry. apply dget_None in E. apply dget_None. unfold dkeys in *. by rewrite <-Hp.
Qed.
Lemma dget_sort_items d k : NoDup (dkeys d) -> dget (sort_items d) k = dget d k.
Proof.
  intros Hd. symmetry. apply dget_perm; [done|]. symmetry. apply sort_by_perm.
Qed.
End dict_lemmas.

Lemma key_leb_total {V} (x y : pystr * V) : key_leb x y = true \/ key_leb y x = true.
Proof. apply str_leb_total. Qed.
Lemma key_leb_trans {V} (x y z : pystr * V) :
  key_leb x y = true -> key_leb y z = true -> key_leb x z = true.
Proof. apply str_leb_trans. Qed.
#[export] Hint Resolve key_leb_total key_leb_trans dget_in dget_Some_keys NoDup_dset : py.

Lemma sort_items_idemp {V} (d : dict V) : sort_items (sort_items d) = sort_items d.
Proof. unfold sort_items. apply sort_by_id, sort_by_sorted; eauto with py. Qed.

Lemma insert_by_fmap {A B} (f : A -> B) leA leB x l :
  (forall a b, leB (f a) (f b) = leA a b) ->
  insert_by leB (f x) (f <$> l) = f <$> insert_by leA x l.
Proof.
  intros Hf. induction l as [|y l IH]; cbn; [done|]. rewrite Hf.
  destruct (leA x y); cbn; [done|]. by rewrite <-IH.
Qed.
Lemma sort_by_fmap {A B} (f : A -> B) leA leB l :
  (forall a b, leB (f a) (f b) = leA a b) -> sort_by leB (f <$> l) = f <$> sort_by leA l.
Proof.
  intros Hf. induction l as [|x l IH]; [done|].
  change (insert_by leB (f x) (sort_by leB (f <$> l)) = f <$> insert_by leA x (sort_by leA l)).
  rewrite IH. by apply insert_by_fmap.
Qed.

Lemma py_eq_str v s : py_eq v (JStr s) = true <-> v = JStr s.
Proof.
  destruct v as [| | |f|t| |]; cbn; try (split; [done|by intros [=]]).
  rewrite str_eqb_eq. split; [by intros ->|by intros [= ->]].
Qed.
