(* ===== verification/PyFloat.v ===== *)
(** * Python floats and [list.sort]

    A [float] is a binary64 number, computed with the specification of IEEE 754 arithmetic in the
    Standard Library ([SpecFloat]).  [f_sum] is the compensated summation of [sum] from
    Python 3.12 on (the version the repository pins).  [list_sort] is the interface of
    [list.sort]: what the language promises of it, for any comparison; [insertion_sort] is one
    sort that keeps the promise. *)

From S2P Require Import Prelude PyStr Json.
From Stdlib Require Import SpecFloat.

Abbreviation float := spec_float.

Definition prec : Z := 53.
Definition emax : Z := 1024.

Definition f_add : float -> float -> float := SFadd prec emax.
Definition f_sub : float -> float -> float := SFsub prec emax.
Definition f_mul : float -> float -> float := SFmul prec emax.
Definition f_sqrt : float -> float := SFsqrt prec emax.
Definition f_neg : float -> float := SFopp.
Definition f_zero : float := S754_zero false.
(** An [int] as the nearest float. *)
Definition f_of_Z (z : Z) : float := binary_normalize prec emax z 0 false.
Definition ZeroDivisionError : exc_class := Sub "ZeroDivisionError" (Sub "ArithmeticError" Exception).
(** [x / y] on floats *)
Definition f_div (x y : float) : result exn float :=
  match y with
  | S754_zero _ => raise ZeroDivisionError "float division by zero"
  | _ => Ok (SFdiv prec emax x y)
  end.
(** [a / b] on natural numbers: the correctly rounded quotient. *)
Definition nat_div (a b : nat) : float :=
  match Z.of_nat a, Z.of_nat b with
  | Zpos p, Zpos q => SFdiv prec emax (S754_finite false p 0) (S754_finite false q 0)
  | _, _ => f_zero
  end.

Definition f_eq (x y : float) : bool := SFeqb x y.
Definition f_lt (x y : float) : bool := SFltb x y.
Definition f_le (x y : float) : bool := SFleb x y.
Definition is_nan (x : float) : bool := match x with S754_nan => true | _ => false end.
(** [math.isfinite] *)
Definition f_finite (x : float) : bool :=
  match x with S754_nan | S754_infinity _ => false | _ => true end.

(** [float(v)] of a number. *)
Definition float_of_number (v : json) : result exn float :=
  match v with
  | JFloat f => Ok f
  | JInt z =>
      match f_of_Z z with
      | S754_infinity _ => raise OverflowError "int too large to convert to float"
      | f => Ok f
      end
  | JBool b => Ok (f_of_Z (if b then 1 else 0))
  | _ => raise TypeError (lit "float() argument must be a string or a real number, not '" ++ type_name v ++ lit "'")
  end.

(** [sum] over floats: the integer start 0 takes the first element, the others go through
    Neumaier's compensated loop; a compensation that is zero or not finite is not added. *)
Definition sum_step (st : float * float) (x : float) : float * float :=
  let '(s, c) := st in
  let t := f_add s x in
  let lost :=
    if f_le (SFabs x) (SFabs s) then f_add (f_sub s t) x else f_add (f_sub x t) s in
  (t, f_add c lost).
Definition f_sum (l : list float) : float :=
  match l with
  | [] => f_zero
  | x :: l' =>
      let '(s, c) := foldl sum_step (f_add f_zero x, f_zero) l' in
      if negb (f_eq c f_zero) && f_finite c then f_add s c else s
  end.

(** [max(x, *l)]: the first of the greatest. *)
Definition f_max (x : float) (l : list float) : float :=
  foldl (fun m y => if f_lt m y then y else m) x l.

(** ** Order *)

Lemma SFcompare_swap x y : SFcompare y x = CompOpp <$> SFcompare x y.
Proof.
  destruct x as [|[]| |[] m e], y as [|[]| |[] n f]; cbn; try done;
    rewrite (Z.compare_antisym e f); destruct (e ?= f)%Z; cbn; try done;
    change (Pos.compare_cont Eq) with Pos.compare; rewrite (Pos.compare_antisym m n);
    by destruct (m ?= n)%positive.
Qed.

Lemma f_lt_le x y : is_nan x = false -> is_nan y = false -> f_le x y = negb (f_lt y x).
Proof.
  intros Hx Hy. unfold f_le, f_lt, SFleb, SFltb. rewrite (SFcompare_swap x y).
  destruct (SFcompare x y) as [[]|] eqn:E; try done.
  by destruct x as [|[]| |[]], y as [|[]| |[]].
Qed.

Lemma f_le_total x y : is_nan x = false -> is_nan y = false -> f_le x y = true \/ f_le y x = true.
Proof.
  intros Hx Hy. rewrite (f_lt_le y x) by done. unfold f_le, f_lt, SFleb, SFltb.
  destruct (SFcompare x y) as [[]|]; auto.
Qed.

(** The comparison of finite floats is lexicographic in sign, exponent and mantissa. *)
Definition signed_key (x : float) : Z * Z * Z :=
  match x with
  | S754_nan => (0, 0, 0)
  | S754_infinity s => (if s then -2 else 2, 0, 0)
  | S754_zero _ => (0, 0, 0)
  | S754_finite s m e => if s then (-1, - e, Zneg m) else (1, e, Zpos m)
  end%Z.
Definition key_le (a b : Z * Z * Z) : Prop :=
  let '(a1, a2, a3) := a in let '(b1, b2, b3) := b in
  (a1 < b1 \/ a1 = b1 /\ (a2 < b2 \/ a2 = b2 /\ a3 <= b3))%Z.

Lemma f_le_key x y :
  f_le x y = true <-> is_nan x = false /\ is_nan y = false /\ key_le (signed_key x) (signed_key y).
Proof.
  unfold f_le, SFleb. destruct x as [|[]| |[] m e], y as [|[]| |[] n f]; cbn;
    try (split; [intros; split_and!; first [done|lia]|intros (?&?&?); first [done|lia]]);
    change (Pos.compare_cont Eq) with Pos.compare;
    destruct (Z.compare_spec e f); try destruct (Pos.compare_spec m n); cbn;
    (split; [intros; split_and!; first [done|lia]|intros (?&?&?); first [done|lia]]).
Qed.

Lemma f_le_trans x y z : f_le x y = true -> f_le y z = true -> f_le x z = true.
Proof.
  rewrite !f_le_key. intros (Hx&Hy&H1) (_&Hz&H2). split_and!; [done..|].
  destruct (signed_key x) as [[]], (signed_key y) as [[]], (signed_key z) as [[]]. cbn in *. lia.
Qed.

Lemma f_eq_le x y : f_eq x y = f_le x y && f_le y x.
Proof.
  unfold f_eq, f_le, SFeqb, SFleb. rewrite (SFcompare_swap x y).
  by destruct (SFcompare x y) as [[]|].
Qed.
Lemma f_lt_irrefl x : f_lt x x = false.
Proof.
  unfold f_lt, SFltb. destruct (SFcompare x x) as [[]|] eqn:E; try done.
  pose proof (SFcompare_swap x x) as Hs. rewrite E in Hs. done.
Qed.
Lemma SFcompare_opp x y : SFcompare (f_neg x) (f_neg y) = SFcompare y x.
Proof.
  destruct x as [|[]| |[] m e], y as [|[]| |[] n f]; cbn; try done;
    rewrite (Z.compare_antisym f e); destruct (f ?= e)%Z; cbn; try done;
    change (Pos.compare_cont Eq) with Pos.compare; rewrite (Pos.compare_antisym n m);
    by destruct (n ?= m)%positive.
Qed.
Lemma f_neg_le x y : f_le (f_neg x) (f_neg y) = f_le y x.
Proof. unfold f_le, SFleb. by rewrite SFcompare_opp. Qed.
Lemma f_neg_lt x y : f_lt (f_neg x) (f_neg y) = f_lt y x.
Proof. unfold f_lt, SFltb. by rewrite SFcompare_opp. Qed.
Lemma f_neg_eq x y : f_eq (f_neg x) (f_neg y) = f_eq y x.
Proof. unfold f_eq, SFeqb. by rewrite SFcompare_opp. Qed.
Lemma is_nan_neg x : is_nan (f_neg x) = is_nan x.
Proof. by destruct x. Qed.

(** ** Rounding never makes a NaN out of a magnitude *)

Lemma shr_1_nonneg r : (0 <= shr_m r)%Z -> (0 <= shr_m (shr_1 r))%Z.
Proof. destruct r as [[|[]|] ??]; cbn; lia. Qed.

Lemma iter_pos_inv {A} (P : A -> Prop) f n : (forall a, P a -> P (f a)) -> forall a, P a -> P (iter_pos f n a).
Proof. intros Hf. induction n; cbn; auto. Qed.

Lemma shr_fexp_nonneg m e l : (0 <= m)%Z -> (0 <= shr_m (fst (shr_fexp prec emax m e l)))%Z.
Proof.
  intros Hm. unfold shr_fexp, shr. assert (0 <= shr_m (shr_record_of_loc m l))%Z by (by destruct l as [|[]]).
  destruct (fexp _ _ _ - e)%Z; cbn; [done|by apply iter_pos_inv; auto using shr_1_nonneg|done].
Qed.

Lemma round_nan s m e l : (0 <= m)%Z -> is_nan (binary_round_aux prec emax s m e l) = false.
Proof.
  intros Hm. unfold binary_round_aux. pose proof (shr_fexp_nonneg m e l Hm) as H1.
  destruct (shr_fexp prec emax m e l) as [r1 e1]. cbn in H1.
  assert (0 <= round_nearest_even (shr_m r1) (loc_of_shr_record r1))%Z as H2.
  { unfold round_nearest_even. destruct (loc_of_shr_record r1) as [|[]]; repeat case_match; lia. }
  pose proof (shr_fexp_nonneg _ e1 loc_Exact H2) as H3.
  destruct (shr_fexp prec emax (round_nearest_even _ _) e1 loc_Exact) as [r2 e2]. cbn in H3.
  destruct (shr_m r2); [done|by case_match|lia].
Qed.

Lemma f_of_Z_nan z : is_nan (f_of_Z z) = false.
Proof.
  unfold f_of_Z, binary_normalize, binary_round. destruct z; [done|..];
    destruct (shl_align _ _ _); apply round_nan; lia.
Qed.

Lemma SFdiv_nan s1 m1 e1 s2 m2 e2 :
  is_nan (SFdiv prec emax (S754_finite s1 m1 e1) (S754_finite s2 m2 e2)) = false.
Proof.
  unfold SFdiv, SFdiv_core_binary. set (m' := match _ with Z0 => _ | _ => _ end).
  assert (0 <= m')%Z as Hm.
  { unfold m'. destruct (_ - _ - _)%Z; [lia|rewrite Z.shiftl_nonneg; lia|lia]. }
  pose proof (Z.div_pos m' (Zpos m2) Hm eq_refl) as Hq. unfold Z.div in Hq.
  destruct (Z.div_eucl m' (Zpos m2)) as [q r]. by apply round_nan.
Qed.

(** ** Magnitudes: what rounding cannot lose

    [at_least k x]: [x] is not zero, and when it is finite its leading bit stands for [2^k] or
    more.  Rounding keeps this for every [k] down to the subnormal bound, so a product of two norms
    is zero only when one of them is. *)

Definition at_least (k : Z) (x : float) : Prop :=
  match x with
  | S754_zero _ => False
  | S754_finite _ m e => (k <= Z.log2 (Zpos m) + e)%Z
  | _ => True
  end.
Definition EMIN : Z := -1074.

Lemma digits_log2 m : Zpos (digits2_pos m) = (Z.log2 (Zpos m) + 1)%Z.
Proof.
  induction m as [m IH|m IH|]; [| |done]; cbn [digits2_pos].
  - change (Zpos m~1) with (2 * Zpos m + 1)%Z. rewrite Z.log2_succ_double; lia.
  - change (Zpos m~0) with (2 * Zpos m)%Z. rewrite Z.log2_double; lia.
Qed.

Lemma shr_1_half r : (0 <= shr_m r)%Z -> shr_m (shr_1 r) = Z.div2 (shr_m r).
Proof. destruct r as [[|[]|] ??]; cbn; first [done|lia]. Qed.

Lemma iter_pos_iter {A} (f : A -> A) n a : iter_pos f n a = Pos.iter f a n.
Proof.
  revert a. induction n as [n IH|n IH|]; intros a; cbn; [|by rewrite !IH|done].
  rewrite !IH. by rewrite <-!Pos.iter_swap.
Qed.

Lemma shr_iter n r : (0 <= shr_m r)%Z -> shr_m (iter_pos shr_1 n r) = Z.shiftr (shr_m r) (Zpos n).
Proof.
  intros Hr. rewrite iter_pos_iter. change (Z.shiftr (shr_m r) (Zpos n)) with (Pos.iter Z.div2 (shr_m r) n).
  enough (shr_m (Pos.iter shr_1 r n) = Pos.iter Z.div2 (shr_m r) n /\ (0 <= shr_m (Pos.iter shr_1 r n))%Z) by tauto.
  induction n as [|n [IH1 IH2]] using Pos.peano_ind.
  - cbn. split; [by apply shr_1_half|by apply shr_1_nonneg].
  - rewrite !Pos.iter_succ. split; [by rewrite shr_1_half, IH1|by apply shr_1_nonneg].
Qed.

(** Shifting to the exponent of the format loses no leading bit. *)
Lemma shr_fexp_at_least m e l k :
  (0 < m)%Z -> (EMIN <= k)%Z -> (k <= Z.log2 m + e)%Z ->
  let '(r, e') := shr_fexp prec emax m e l in
  (0 < shr_m r)%Z /\ (k <= Z.log2 (shr_m r) + e')%Z.
Proof.
  intros Hm Hk Hl. unfold shr_fexp, shr. assert (shr_m (shr_record_of_loc m l) = m) as Hr by (by destruct l as [|[]]).
  destruct (fexp prec emax (Zdigits2 m + e) - e)%Z as [|n|n] eqn:En; cbn; rewrite ?Hr; [done| |done].
  rewrite shr_iter, Hr by lia. destruct m as [|m|m]; try lia. cbn [Zdigits2] in En. rewrite digits_log2 in En.
  assert (Zpos n <= Z.log2 (Zpos m))%Z as Hn by (unfold fexp, emin, prec, emax, EMIN in *; lia).
  rewrite Z.log2_shiftr by done. rewrite Z.max_r by lia. split; [|lia].
  rewrite Z.shiftr_div_pow2 by lia. apply Z.div_str_pos. split; [lia|].
  apply Z.log2_le_pow2; lia.
Qed.

Lemma round_at_least s m e l k :
  (0 < m)%Z -> (EMIN <= k)%Z -> (k <= Z.log2 m + e)%Z -> at_least k (binary_round_aux prec emax s m e l).
Proof.
  intros Hm Hk Hl. unfold binary_round_aux. pose proof (shr_fexp_at_least m e l k Hm Hk Hl) as H1.
  destruct (shr_fexp prec emax m e l) as [r1 e1]. destruct H1 as [Hp1 Hb1].
  assert (shr_m r1 <= round_nearest_even (shr_m r1) (loc_of_shr_record r1))%Z as Hle.
  { unfold round_nearest_even. destruct (loc_of_shr_record r1) as [|[]]; repeat case_match; lia. }
  pose proof (Z.log2_le_mono _ _ Hle).
  pose proof (shr_fexp_at_least (round_nearest_even (shr_m r1) (loc_of_shr_record r1)) e1 loc_Exact k) as H2.
  destruct (shr_fexp prec emax (round_nearest_even _ _) e1 loc_Exact) as [r2 e2].
  destruct H2 as [Hp2 Hb2]; [lia..|]. destruct (shr_m r2); [lia|by case_match|lia].
Qed.

(** What an operation returns is zero, not finite, or no smaller than the least subnormal. *)
Definition representable (x : float) : Prop := (exists s, x = S754_zero s) \/ at_least EMIN x.

Lemma shr_fexp_emin m e l : (EMIN <= snd (shr_fexp prec emax m e l))%Z.
Proof.
  unfold shr_fexp, shr. destruct (fexp prec emax (Zdigits2 m + e) - e)%Z as [|n|n] eqn:En; cbn;
    unfold fexp, emin, prec, emax, EMIN in *; lia.
Qed.

Lemma round_representable s m e l : (0 <= m)%Z -> representable (binary_round_aux prec emax s m e l).
Proof.
  intros Hm. pose proof (round_nan s m e l Hm) as Hn. unfold binary_round_aux in *.
  destruct (shr_fexp prec emax m e l) as [r1 e1].
  pose proof (shr_fexp_emin (round_nearest_even (shr_m r1) (loc_of_shr_record r1)) e1 loc_Exact) as He.
  destruct (shr_fexp prec emax (round_nearest_even _ _) e1 loc_Exact) as [r2 e2]. cbn in He.
  destruct (shr_m r2) as [|q|q]; [left; by eexists| |done]. right. pose proof (Z.log2_nonneg (Zpos q)).
  destruct (e2 <=? _)%Z; [unfold at_least; lia|done].
Qed.

Lemma binary_round_representable s m e : representable (binary_round prec emax s m e).
Proof. unfold binary_round. destruct (shl_align _ _ _). by apply round_representable. Qed.
Lemma normalize_representable m e s : representable (binary_normalize prec emax m e s).
Proof. destruct m; [left; by eexists|apply binary_round_representable..]. Qed.

Lemma f_mul_representable x y : representable (f_mul x y).
Proof.
  destruct x, y; cbn; try (by right); try (left; by eexists). by apply round_representable.
Qed.
Lemma f_add_representable x y : representable x -> representable y -> representable (f_add x y).
Proof.
  destruct x as [[]|[]| |], y as [[]|[]| |]; cbn; intros Hx Hy;
    first [done|by right|left; by eexists|apply normalize_representable].
Qed.
Lemma f_sub_representable x y : representable x -> representable y -> representable (f_sub x y).
Proof.
  destruct x as [[]|[]| |], y as [[]|[]| |]; cbn; intros Hx Hy;
    first [done|by right|left; by eexists|apply normalize_representable|destruct Hy as [[? [=]]|Hy]; by right].
Qed.

Lemma foldl_sum_representable l st :
  Forall representable l -> representable (fst st) -> representable (snd st) ->
  representable (fst (foldl sum_step st l)) /\ representable (snd (foldl sum_step st l)).
Proof.
  intros Hl. revert st. induction Hl as [|x l Hx _ IH]; intros [s c]; cbn; [done|]. intros Hs Hc. apply IH; cbn.
  - by apply f_add_representable.
  - apply f_add_representable; [done|].
    case_match; apply f_add_representable; try apply f_sub_representable; auto using f_add_representable.
Qed.

Lemma f_sum_representable l : Forall representable l -> representable (f_sum l).
Proof.
  destruct 1 as [|x l Hx Hl]; [left; by eexists|]. unfold f_sum.
  assert (representable f_zero) as Hz by (left; by eexists).
  pose proof (foldl_sum_representable l (f_add f_zero x, f_zero) Hl (f_add_representable _ _ Hz Hx) Hz) as [Hs Hc].
  destruct (foldl sum_step _ l) as [s c]. cbn in *. case_match; [by apply f_add_representable|done].
Qed.

Lemma log2_sqrt m : (0 < m)%Z -> (Z.log2 m <= 2 * Z.log2 (Z.sqrt m) + 1)%Z.
Proof.
  intros Hm. assert (0 < Z.sqrt m)%Z as Hq by by apply Z.sqrt_pos.
  pose proof (Z.sqrt_spec m ltac:(lia)) as [_ Hs]. pose proof (Z.log2_spec _ Hq) as [_ Hl].
  pose proof (Z.log2_nonneg (Z.sqrt m)). apply Z.lt_succ_r, Z.log2_lt_pow2; [done|].
  replace (Z.succ (2 * Z.log2 (Z.sqrt m) + 1))%Z with (Z.succ (Z.log2 (Z.sqrt m)) + Z.succ (Z.log2 (Z.sqrt m)))%Z by lia.
  rewrite Z.pow_add_r by lia. nia.
Qed.

(** A square root halves the exponent. *)
Lemma f_sqrt_at_least x k :
  (EMIN <= k <= 0)%Z -> at_least (2 * k) x -> at_least k (f_sqrt x).
Proof.
  intros Hk. destruct x as [|[]| |[] m e]; try done.
  unfold f_sqrt, SFsqrt, SFsqrt_core_binary. unfold at_least at 1. intros Hx.
  set (e' := Z.min _ _). assert (2 * e' <= e)%Z as He.
  { pose proof (Z.div2_div e). pose proof (Z.mul_div_le e 2 eq_refl). unfold e'. lia. }
  set (m' := match _ with Z0 => _ | _ => _ end).
  assert (0 < m' /\ Z.log2 m' = Z.log2 (Zpos m) + (e - 2 * e'))%Z as [Hm' Hl'].
  { unfold m'. destruct (e - 2 * e')%Z as [|p|p] eqn:Es; [lia| |lia].
    rewrite Z.log2_shiftl by lia. split; [|lia]. rewrite Z.shiftl_mul_pow2 by lia. apply Z.mul_pos_pos; lia. }
  destruct (Z.sqrtrem m') as [q r] eqn:Eq. pose proof (Z.sqrtrem_sqrt m') as Hs. rewrite Eq in Hs. cbn in Hs. subst q.
  assert (0 < Z.sqrt m')%Z as Hq by by apply Z.sqrt_pos.
  pose proof (log2_sqrt m' Hm'). apply round_at_least; [done|unfold EMIN in *; lia|]. lia.
Qed.

Lemma f_mul_at_least x y j k :
  (EMIN <= j + k)%Z -> at_least j x -> at_least k y -> at_least (j + k) (f_mul x y).
Proof.
  intros Hjk. destruct x as [|s| |s m e], y as [|t| |t n f]; try done.
  unfold at_least at 1 2. intros Hx Hy.
  apply round_at_least; [lia|done|]. pose proof (Z.log2_mul_below (Zpos m) (Zpos n) ltac:(lia) ltac:(lia)).
  change (Zpos (m * n)) with (Zpos m * Zpos n)%Z. lia.
Qed.

Lemma at_least_nonzero k x : at_least k x -> f_eq x f_zero = false.
Proof. by destruct x as [|[]| |[]]. Qed.
Lemma f_div_total x y : f_eq y f_zero = false -> exists z, f_div x y = Ok z.
Proof. destruct y; [done|intros _; by eexists..]. Qed.

Lemma nat_div_nan a b : is_nan (nat_div a b) = false.
Proof. unfold nat_div. destruct (Z.of_nat a), (Z.of_nat b); try done. apply SFdiv_nan. Qed.

Lemma f_max_elem x l : f_max x l ∈ x :: l.
Proof.
  unfold f_max. revert x. induction l as [|y l IH]; intros x; cbn; [by left|].
  specialize (IH (if f_lt x y then y else x)). destruct (f_lt x y); set_solver.
Qed.

Lemma f_max_nan x l : Forall (fun y => is_nan y = false) (x :: l) -> is_nan (f_max x l) = false.
Proof. rewrite Forall_forall. intros H. apply H, f_max_elem. Qed.

(** ** [list.sort] *)

Definition preorder_on {A} (le : A -> A -> bool) (l : list A) : Prop :=
  (forall x y, x ∈ l -> y ∈ l -> le x y = true \/ le y x = true) /\
  (forall x y z, x ∈ l -> y ∈ l -> z ∈ l -> le x y = true -> le y z = true -> le x z = true).
(** What [lt] leaves in order: [x] may stand before [y] unless [y < x]. *)
Definition not_after {A} (lt : A -> A -> bool) (x y : A) : bool := negb (lt y x).

(** [l.sort()] of a list whose elements compare by [lt]: a rearrangement for any [lt]; in order
    where [lt] is the strict part of a total preorder. *)
Class ListSort : Type := {
  list_sort {A} (lt : A -> A -> bool) (l : list A) : list A;
  list_sort_perm {A} (lt : A -> A -> bool) l : list_sort lt l ≡ₚ l;
  list_sort_sorted {A} (lt : A -> A -> bool) l :
    preorder_on (not_after lt) l -> sorted_by (not_after lt) (list_sort lt l);
}.

Lemma sort_by_sorted_on {A} (le : A -> A -> bool) l : preorder_on le l -> sorted_by le (sort_by le l).
Proof.
  induction l as [|x l IH]; intros [Ht Htr]; [constructor|].
  change (sorted_by le (insert_by le x (sort_by le l))).
  assert (sorted_by le (sort_by le l)) as Hs by (apply IH; split; intros; [apply Ht|eapply Htr]; eauto; by right).
  assert (forall y, y ∈ sort_by le l -> y ∈ l) as Hin by (intros y; by rewrite elem_of_sort_by).
  clear IH. induction Hs as [|y m Hm IH Hy]; cbn; [by repeat constructor|].
  destruct (le x y) eqn:E.
  - constructor; [by constructor|]. constructor; [done|].
    rewrite Forall_forall in Hy |- *. intros z Hz. eapply (Htr x y z); [by left|right|right|..]; auto;
      apply Hin; set_solver.
  - constructor; [apply IH; set_solver|]. rewrite insert_by_perm. constructor; [|done].
    destruct (Ht x y); [by left|right; apply Hin; by left|congruence|done].
Qed.

Definition insertion_sort : ListSort := {|
  list_sort A lt l := sort_by (not_after lt) l;
  list_sort_perm A lt l := sort_by_perm _ l;
  list_sort_sorted A lt l := sort_by_sorted_on _ l |}.
