(* ===== verification/PyRegex.v ===== *)
(** * The fragment of [re] used by constant patterns

    A compiled pattern is an abstract syntax tree; [ends] lists the places where a match begun at
    a place of the text can end, and [search] is [pattern.search(text) is not None].  Which of
    several matches the engine prefers does not matter to a caller that only asks whether there
    is one.  [matches] says when a match exists, and [ends_matches] that [ends] finds it. *)

From S2P Require Import Prelude PyStr.
From stdpp Require Import relations.

(** A place of the text: the character before it, if any, and the text after it. *)
Record spot : Type := Spot { behind : option N; ahead : pystr }.

Inductive regex : Type :=
  | One (p : N -> bool)                       (* a character of a class *)
  | Cat (r s : regex)
  | Or (r s : regex)
  | Times (lo hi : nat) (r : regex)           (* [r{lo,hi}] *)
  | Some_of (r : regex)                       (* [r+] *)
  | Edge                                      (* [\b] *)
  | Not_behind (p : N -> bool)                (* [(?<![p])] *)
  | Not_ahead (p : N -> bool).                (* [(?![p])] *)

(** A literal text. *)
Definition Text (s : pystr) : regex := foldr (fun c r => Cat (One (N.eqb c)) r) (Times 0 0 (One (fun _ => false))) s.

Section regex.
Context {host : PyHost}.

Definition word_at (c : option N) : bool := match c with Some c => is_word c | None => false end.

(** At most [n] further rounds. *)
Fixpoint up_to (step : spot -> list spot) (n : nat) (a : spot) : list spot :=
  a :: match n with O => [] | S n' => step a ≫= up_to step n' end.
Fixpoint exactly (step : spot -> list spot) (n : nat) (a : spot) : list spot :=
  match n with O => [a] | S n' => step a ≫= exactly step n' end.

(** [r+] needs no more rounds than there are characters left: a pattern under [Some_of] consumes
    (the sources repeat no other). *)
Fixpoint ends (r : regex) (a : spot) : list spot :=
  match r with
  | One p =>
      match ahead a with c :: t => if p c then [Spot (Some c) t] else [] | [] => [] end
  | Cat r s => ends r a ≫= ends s
  | Or r s => ends r a ++ ends s a
  | Times lo hi r => exactly (ends r) lo a ≫= up_to (ends r) (hi - lo)
  | Some_of r => ends r a ≫= up_to (ends r) (length (ahead a))
  | Edge => if Bool.eqb (word_at (behind a)) (word_at (head (ahead a))) then [] else [a]
  | Not_behind p => match behind a with Some c => if p c then [] else [a] | None => [a] end
  | Not_ahead p => match ahead a with c :: _ => if p c then [] else [a] | [] => [a] end
  end.

Fixpoint search_from (r : regex) (b : option N) (s : pystr) : bool :=
  match ends r (Spot b s) with _ :: _ => true | [] => false end ||
  match s with [] => false | c :: t => search_from r (Some c) t end.
Definition search (r : regex) (s : pystr) : bool := search_from r None s.

(** ** What a match is *)

Fixpoint matches (r : regex) (a b : spot) : Prop :=
  match r with
  | One p => exists c t, ahead a = c :: t /\ p c = true /\ b = Spot (Some c) t
  | Cat r s => exists m, matches r a m /\ matches s m b
  | Or r s => matches r a b \/ matches s a b
  | Times lo hi r => exists n, (lo <= n <= lo + (hi - lo))%nat /\ nsteps (matches r) n a b
  | Some_of r => exists n, nsteps (matches r) (S n) a b
  | Edge => word_at (behind a) <> word_at (head (ahead a)) /\ b = a
  | Not_behind p => (forall c, behind a = Some c -> p c = false) /\ b = a
  | Not_ahead p => (forall c, head (ahead a) = Some c -> p c = false) /\ b = a
  end.

(** Patterns whose repeated parts consume. *)
Fixpoint consumes (r : regex) : bool :=
  match r with
  | One _ => true
  | Cat r s => consumes r || consumes s
  | Or r s => consumes r && consumes s
  | Times lo _ r => (0 <? lo)%nat && consumes r
  | Some_of r => consumes r
  | _ => false
  end.
Fixpoint well_founded_re (r : regex) : bool :=
  match r with
  | Cat r s | Or r s => well_founded_re r && well_founded_re s
  | Times _ _ r => well_founded_re r
  | Some_of r => consumes r && well_founded_re r
  | _ => true
  end.

(** ** The search finds exactly the matches *)

Lemma in_exactly step (R : spot -> spot -> Prop) n a b :
  (forall a b, b ∈ step a <-> R a b) -> b ∈ exactly step n a <-> nsteps R n a b.
Proof.
  intros HR. revert a. induction n as [|n IH]; intros a; cbn.
  - rewrite list_elem_of_singleton. split; [intros ->; constructor|by inversion 1].
  - rewrite list_elem_of_bind. split.
    + intros (m & Hm & Ha). econstructor; [by apply HR|by apply IH].
    + inversion 1; subst. eexists. by rewrite IH, HR.
Qed.

Lemma in_up_to step (R : spot -> spot -> Prop) n a b :
  (forall a b, b ∈ step a <-> R a b) -> b ∈ up_to step n a <-> exists k, (k <= n)%nat /\ nsteps R k a b.
Proof.
  intros HR. revert a. induction n as [|n IH]; intros a; cbn.
  - rewrite list_elem_of_singleton. split; [intros ->; eexists; split; [done|constructor]|].
    intros (k & Hk & Hs). assert (k = 0)%nat as -> by lia. by inversion Hs.
  - rewrite elem_of_cons, list_elem_of_bind. split.
    + intros [->|(m & (k & Hk & Hs)%IH & Ha%HR)]; [exists 0%nat; split; [lia|constructor]|].
      exists (S k). split; [lia|by econstructor].
    + intros ([|k] & Hk & Hs); [left; by inversion Hs|right]. inversion Hs; subst.
      eexists. rewrite IH, HR. split; [exists k; split; [lia|done]|done].
Qed.

Lemma nsteps_shrink (R : spot -> spot -> Prop) (d : nat) n a b :
  (forall a b, R a b -> (length (ahead b) + d <= length (ahead a))%nat) ->
  nsteps R n a b -> (length (ahead b) + n * d <= length (ahead a))%nat.
Proof. intros HR. induction 1 as [|n a m b Ha _ IH]; [lia|]. apply HR in Ha. lia. Qed.

Lemma matches_shrink r a b :
  matches r a b -> (length (ahead b) + (if consumes r then 1 else 0) <= length (ahead a))%nat.
Proof.
  revert a b. induction r as [p|r IHr s IHs|r IHr s IHs|lo hi r IH|r IH| |p|p]; intros a b; cbn.
  - intros (c & t & -> & _ & ->). cbn. lia.
  - intros (m & Hr%IHr & Hs%IHs). destruct (consumes r), (consumes s); cbn; lia.
  - intros [Hr%IHr|Hs%IHs]; destruct (consumes r), (consumes s); cbn; lia.
  - intros (n & Hn & Hs%(nsteps_shrink _ _ _ _ _ IH)). destruct lo, (consumes r); cbn; lia.
  - intros (n & Hs%(nsteps_shrink _ _ _ _ _ IH)). destruct (consumes r); lia.
  - intros [_ ->]. lia.
  - intros [_ ->]. lia.
  - intros [_ ->]. lia.
Qed.

Lemma guard_ends (p : N -> bool) (o : option N) (a b : spot) :
  b ∈ match o with Some c => if p c then [] else [a] | None => [a] end <->
  (forall c, o = Some c -> p c = false) /\ b = a.
Proof.
  destruct o as [c|]; [destruct (p c) eqn:E|]; rewrite ?list_elem_of_singleton, ?elem_of_nil.
  - split; [done|]. intros [H _]. specialize (H c eq_refl). congruence.
  - split; [intros ->; split; [by intros ? [= <-]|done]|by intros [_ ->]].
  - split; [by intros ->|by intros [_ ->]].
Qed.

Lemma ends_matches r : well_founded_re r = true -> forall a b, b ∈ ends r a <-> matches r a b.
Proof.
  induction r as [p|r IHr s IHs|r IHr s IHs|lo hi r IH|r IH| |p|p]; cbn; intros Hwf a b.
  - destruct (ahead a) as [|c t]; [|destruct (p c) eqn:E]; rewrite ?list_elem_of_singleton, ?elem_of_nil.
    + split; [done|by intros (?&?&[=]&_)].
    + split; [by intros ->; exists c, t|by intros (?&?&[= <- <-]&_&->)].
    + split; [done|intros (?&?&[= <- <-]&?&_); congruence].
  - apply andb_true_iff in Hwf as [? ?]. rewrite list_elem_of_bind. setoid_rewrite IHr; [|done].
    setoid_rewrite IHs; [|done]. naive_solver.
  - apply andb_true_iff in Hwf as [? ?]. by rewrite elem_of_app, IHr, IHs.
  - rewrite list_elem_of_bind. setoid_rewrite (in_exactly _ (matches r)); [|by auto].
    setoid_rewrite (in_up_to _ (matches r)); [|by auto]. split.
    + intros (m & (k & Hk & H2) & H1). exists (lo + k)%nat. split; [lia|by eapply nsteps_trans].
    + intros (n & Hn & H). replace n with (lo + (n - lo))%nat in H by lia.
      apply nsteps_add_inv in H as (m & H1 & H2). eexists; split; [|exact H1]. exists (n - lo)%nat.
      split; [lia|done].
  - apply andb_true_iff in Hwf as [Hc Hwf]. rewrite list_elem_of_bind. setoid_rewrite IH; [|done].
    setoid_rewrite (in_up_to _ (matches r)); [|by auto]. split.
    + intros (m & (k & Hk & H2) & H1). exists k. by econstructor.
    + intros (n & H). inversion H as [|? ? m ? H1 H2]; subst. exists m. split; [|done]. exists n.
      split; [|done]. pose proof (matches_shrink _ _ _ H1).
      pose proof (nsteps_shrink _ _ _ _ _ (matches_shrink r) H2). rewrite Hc in *. lia.
  - destruct (Bool.eqb _ _) eqn:E.
    + apply eqb_prop in E. rewrite elem_of_nil. split; [done|by intros [[] _]].
    + apply eqb_false_iff in E. rewrite list_elem_of_singleton. split; [done|by intros [_ ->]].
  - apply guard_ends.
  - rewrite <-guard_ends. by destruct (ahead a).
Qed.

Lemma search_from_spec r o s :
  well_founded_re r = true ->
  search_from r o s = true <->
  exists a t b, s = a ++ t /\ matches r (Spot (match last a with Some c => Some c | None => o end) t) b.
Proof.
  intros Hwf. revert o. induction s as [|c s IH]; intros o; cbn [search_from]; rewrite orb_true_iff.
  - split.
    + intros [H|[=]]. destruct (ends r (Spot o [])) as [|b l] eqn:E; [done|].
      exists [], [], b. split; [done|]. apply ends_matches; [done|]. cbn. rewrite E. by left.
    + intros (a & t & b & Hs & H). symmetry in Hs. apply app_nil in Hs as [-> ->]. cbn in H.
      apply ends_matches in H; [|done]. left. by destruct (ends r (Spot o [])); [apply not_elem_of_nil in H|].
  - rewrite IH. split.
    + intros [H|(a & t & b & -> & H)].
      * destruct (ends r (Spot o (c :: s))) as [|b l] eqn:E; [done|].
        exists [], (c :: s), b. split; [done|]. apply ends_matches; [done|]. cbn. rewrite E. by left.
      * exists (c :: a), t, b. split; [done|]. rewrite last_cons. by destruct (last a).
    + intros ([|x a] & t & b & Hs & H); cbn in Hs.
      * subst t. cbn in H. apply ends_matches in H; [|done]. left.
        by destruct (ends r (Spot o (c :: s))); [apply not_elem_of_nil in H|].
      * injection Hs as <- ->. right. exists a, t, b. split; [done|]. rewrite last_cons in H.
        by destruct (last a).
Qed.

Lemma search_spec r s :
  well_founded_re r = true ->
  search r s = true <-> exists a t b, s = a ++ t /\ matches r (Spot (last a) t) b.
Proof.
  intros Hwf. unfold search. rewrite (search_from_spec _ _ _ Hwf).
  split; intros (a & t & b & H1 & H2); exists a, t, b; (split; [done|]); by destruct (last a).
Qed.

(** ** Building matches *)

Lemma nsteps_class (p : N -> bool) l o t :
  Forall (fun c => p c = true) l ->
  nsteps (matches (One p)) (length l) (Spot o (l ++ t)) (Spot (match last l with Some c => Some c | None => o end) t).
Proof.
  intros H. revert o. induction H as [|c l Hc _ IH]; intros o; [constructor|].
  econstructor; [by exists c, (l ++ t)|]. rewrite last_cons. specialize (IH (Some c)).
  by destruct (last l).
Qed.

Lemma some_class (p : N -> bool) l o t :
  l <> [] -> Forall (fun c => p c = true) l -> matches (Some_of (One p)) (Spot o (l ++ t)) (Spot (last l) t).
Proof.
  intros Hne Hl. pose proof (nsteps_class p l o t Hl) as H. destruct (last l) as [c|] eqn:El.
  - destruct l as [|x l]; [done|]. by exists (length l).
  - by apply last_None in El.
Qed.
Lemma one_char (p : N -> bool) c o t : p c = true -> matches (One p) (Spot o (c :: t)) (Spot (Some c) t).
Proof. intros Hc. by exists c, t. Qed.
Lemma times_zero r a hi : matches (Times 0 hi r) a a.
Proof. exists 0%nat. split; [lia|constructor]. Qed.
Lemma times_one r a b : matches r a b -> matches (Times 0 1 r) a b.
Proof. intros H. exists 1%nat. split; [lia|]. by apply nsteps_once. Qed.
End regex.
