(* ===== verification/JsonText.v ===== *)
(** * The canonical JSON text identifies the value

    [canonical_json] is used as a set key, a hash input and a comparison key.  The lemmas below
    show that it is a function of the canonical form [norm] and that it is injective on it: two
    float-free values have the same text exactly when they differ at most in the order of the
    keys of their objects. *)

From S2P Require Import Prelude PyStr Json.
From Stdlib Require DecimalString DecimalZ.

(** ** Decimal numerals *)

Definition num_char (c : N) : bool := ascii_digit c || (c =? 45)%N.

(** What may follow a value inside a canonical text. *)
Definition terminates (r : pystr) : Prop :=
  match r with [] => True | c :: _ => c = 44%N \/ c = 93%N \/ c = 125%N end.

Lemma utf8_decode_ascii l : Forall (fun c => (c < 128)%N) l -> utf8_decode l = l.
Proof.
  induction 1 as [|c l Hc _ IH]; [done|].
  cbn. rewrite (proj2 (N.ltb_lt _ _) Hc). by rewrite IH.
Qed.

Lemma string_of_uint_chars d :
  Forall (fun c => num_char c = true)
    (Ascii.N_of_ascii <$> String.list_ascii_of_string (DecimalString.NilEmpty.string_of_uint d)).
Proof. induction d; cbn; constructor; done. Qed.

Lemma show_bytes_chars z :
  Forall (fun c => num_char c = true)
    (Ascii.N_of_ascii <$>
       String.list_ascii_of_string (DecimalString.NilZero.string_of_int (Z.to_int z))).
Proof.
  destruct (Z.to_int z) as [d|d]; cbn;
    [|constructor; [done|]]; destruct d; cbn; repeat constructor; try apply string_of_uint_chars.
Qed.

Lemma num_char_ascii c : num_char c = true -> (c < 128)%N.
Proof.
  unfold num_char, ascii_digit, in_range.
  rewrite orb_true_iff, andb_true_iff, !N.leb_le, N.eqb_eq. lia.
Qed.

Lemma show_Z_bytes z :
  show_Z z = Ascii.N_of_ascii <$>
    String.list_ascii_of_string (DecimalString.NilZero.string_of_int (Z.to_int z)).
Proof.
  unfold show_Z, lit. apply utf8_decode_ascii.
  eapply Forall_impl; [apply show_bytes_chars|]. apply num_char_ascii.
Qed.

Lemma show_Z_chars z : Forall (fun c => num_char c = true) (show_Z z).
Proof. rewrite show_Z_bytes. apply show_bytes_chars. Qed.

Lemma N_of_ascii_list_inj (l1 l2 : list Ascii.ascii) : Ascii.N_of_ascii <$> l1 = Ascii.N_of_ascii <$> l2 -> l1 = l2.
Proof.
  revert l2; induction l1 as [|a l1 IH]; intros [|b l2]; cbn; try done.
  intros [= H1 H2]. f_equal; [|auto].
  by rewrite <-(Ascii.ascii_N_embedding a), H1, Ascii.ascii_N_embedding.
Qed.

Lemma list_ascii_inj s t :
  String.list_ascii_of_string s = String.list_ascii_of_string t -> s = t.
Proof.
  intros H. rewrite <-(String.string_of_list_ascii_of_string s), H.
  apply String.string_of_list_ascii_of_string.
Qed.

Lemma to_int_not_nil z : Z.to_int z <> Decimal.Pos Decimal.Nil /\ Z.to_int z <> Decimal.Neg Decimal.Nil.
Proof.
  destruct z as [|p|p]; cbn; split; try done; intros [= H].
  - by apply (DecimalPos.Unsigned.to_uint_nonnil p).
  - by apply (DecimalPos.Unsigned.to_uint_nonnil p).
Qed.

Lemma show_Z_inj z1 z2 : show_Z z1 = show_Z z2 -> z1 = z2.
Proof.
  rewrite !show_Z_bytes. intros H%N_of_ascii_list_inj%list_ascii_inj.
  apply (f_equal DecimalString.NilZero.int_of_string) in H.
  destruct (to_int_not_nil z1), (to_int_not_nil z2).
  rewrite !DecimalString.NilZero.isi in H by done. injection H as H.
  rewrite <-(DecimalZ.of_to z1), <-(DecimalZ.of_to z2). by f_equal.
Qed.

Lemma show_Z_nonempty z : exists c t, show_Z z = c :: t /\ num_char c = true.
Proof.
  pose proof (show_Z_chars z) as H. destruct (show_Z z) as [|c t] eqn:E.
  - exfalso. rewrite show_Z_bytes in E. destruct (Z.to_int z) as [d|d]; [|done].
    destruct d; done.
  - exists c, t. split; [done|]. by inversion H.
Qed.

Lemma num_prefix l1 l2 r1 r2 :
  Forall (fun c => num_char c = true) l1 -> Forall (fun c => num_char c = true) l2 ->
  terminates r1 -> terminates r2 -> l1 ++ r1 = l2 ++ r2 -> l1 = l2 /\ r1 = r2.
Proof.
  intros H1; revert l2; induction H1 as [|c l1 Hc H1 IH]; intros l2 H2 T1 T2 E.
  - destruct H2 as [|d l2 Hd]; [done|]. cbn in E. subst r1. cbn in T1.
    destruct T1 as [->|[->| ->]]; done.
  - destruct H2 as [|d l2 Hd H2]; cbn in E.
    + subst r2. cbn in T2. destruct T2 as [->|[->| ->]]; done.
    + injection E as -> E. destruct (IH l2) as [-> ->]; auto.
Qed.

(** ** Quoted strings *)

Lemma esc_char_cases c :
  (esc_char c = [c] /\ c <> 34%N /\ c <> 92%N) \/
  (exists e r, esc_char c = 92%N :: e :: r /\ (c < 32 \/ c = 34 \/ c = 92)%N).
Proof.
  unfold esc_char.
  repeat match goal with
         | |- context [(c =? ?k)%N] => destruct (N.eqb_spec c k);
           [right; eexists _, _; split; [reflexivity|lia]|]
         end.
  destruct (N.ltb_spec c 32); [right|left; auto].
  eexists _, _. split; [reflexivity|auto].
Qed.

(** Escapes of the characters that need one, as a finite table. *)
Definition special_chars : list N := 34%N :: 92%N :: (N.of_nat <$> seq 0 32).

Lemma special_chars_spec c : (c < 32 \/ c = 34 \/ c = 92)%N -> c ∈ special_chars.
Proof.
  intros H. unfold special_chars. rewrite !elem_of_cons, list_elem_of_fmap.
  destruct H as [H|[->| ->]]; auto. right; right. exists (N.to_nat c).
  rewrite N2Nat.id. split; [done|]. apply elem_of_seq. lia.
Qed.

Definition esc_table_ok : bool :=
  forallb (fun c => forallb (fun d =>
    (c =? d)%N ||
    negb (startswith (esc_char c) (esc_char d) || startswith (esc_char d) (esc_char c)))
    special_chars) special_chars.
Lemma esc_table_check : esc_table_ok = true.
Proof. by vm_compute. Qed.

Lemma app_prefix_cases (l1 l2 r1 r2 : pystr) :
  l1 ++ r1 = l2 ++ r2 -> startswith l1 l2 = true \/ startswith l2 l1 = true.
Proof.
  revert l2; induction l1 as [|x l1 IH]; intros [|y l2]; cbn; auto.
  intros [= -> H]. rewrite !N.eqb_refl. cbn. eauto.
Qed.

Lemma esc_char_inj c d x y : esc_char c ++ x = esc_char d ++ y -> c = d /\ x = y.
Proof.
  intros E. assert (c = d) as ->; [|split; [done|by apply app_inv_head in E]].
  destruct (esc_char_cases c) as [(Hc & Hc1 & Hc2)|(e & r & Hc & Sc)],
    (esc_char_cases d) as [(Hd & Hd1 & Hd2)|(e' & r' & Hd & Sd)].
  - rewrite Hc, Hd in E. by injection E.
  - rewrite Hc, Hd in E. by injection E.
  - rewrite Hc, Hd in E. by injection E.
  - apply special_chars_spec in Sc, Sd. pose proof esc_table_check as T.
    unfold esc_table_ok in T. rewrite forallb_forall in T.
    rewrite list_elem_of_In in Sc, Sd. specialize (T _ Sc). rewrite forallb_forall in T.
    specialize (T _ Sd). apply orb_true_iff in T as [T|T]; [by apply N.eqb_eq|].
    apply negb_true_iff, orb_false_iff in T as [T1 T2].
    apply app_prefix_cases in E. destruct E; congruence.
Qed.

Lemma esc_head c x : exists h t, esc_char c ++ x = h :: t /\ h <> 34%N.
Proof.
  destruct (esc_char_cases c) as [(-> & ? & ?)|(e & r & -> & _)]; cbn;
    eexists _, _; (split; [reflexivity|done]).
Qed.

Lemma flat_esc_inj s t r1 r2 :
  flat_map esc_char s ++ 34%N :: r1 = flat_map esc_char t ++ 34%N :: r2 -> s = t /\ r1 = r2.
Proof.
  revert t; induction s as [|c s IH]; intros [|d t]; cbn; rewrite <-?app_assoc; intros E.
  - by injection E.
  - destruct (esc_head d (flat_map esc_char t ++ 34%N :: r2)) as (h & u & Eh & ?).
    rewrite Eh in E. injection E. congruence.
  - destruct (esc_head c (flat_map esc_char s ++ 34%N :: r1)) as (h & u & Eh & ?).
    rewrite Eh in E. injection E. congruence.
  - apply esc_char_inj in E as [-> E]. apply IH in E as [-> ->]. done.
Qed.

Lemma quote_inj s t r1 r2 : quote s ++ r1 = quote t ++ r2 -> s = t /\ r1 = r2.
Proof.
  unfold quote. cbn. rewrite <-!app_assoc. intros E. injection E as E.
  by apply flat_esc_inj.
Qed.

(** ** Sequences of values *)

Section join.
Context {X Y : Type} (e : X -> pystr) (g : X -> Y) (close : N).
Context (close_ok : close = 93%N \/ close = 125%N).

Definition separates (x y : X) : Prop := forall r1 r2,
  terminates r1 -> terminates r2 -> e x ++ r1 = e y ++ r2 -> g x = g y /\ r1 = r2.
Definition opens (x : X) : Prop := exists c t, e x = c :: t /\ c <> close.

Definition tail_of (l : list X) (r : pystr) : pystr :=
  match l with [] => close :: r | _ => 44%N :: join [44%N] (e <$> l) ++ close :: r end.

Lemma join_tail x l r : join [44%N] (e <$> x :: l) ++ close :: r = e x ++ tail_of l r.
Proof. destruct l as [|y l]; [done|]. cbn. by rewrite <-app_assoc. Qed.

Lemma tail_terminates l r : terminates (tail_of l r).
Proof. destruct l; cbn; [destruct close_ok; auto|by left]. Qed.

Lemma join_inj l1 l2 r1 r2 :
  Forall (fun x => Forall (separates x) l2) l1 -> Forall opens l1 -> Forall opens l2 ->
  join [44%N] (e <$> l1) ++ close :: r1 = join [44%N] (e <$> l2) ++ close :: r2 ->
  g <$> l1 = g <$> l2 /\ r1 = r2.
Proof.
  revert l2; induction l1 as [|x l1 IH]; intros l2 Hsep Ho1 Ho2.
  - destruct l2 as [|y l2]; [by intros [=]|]. rewrite join_tail. cbn.
    apply Forall_cons in Ho2 as [(c & t & Hy & Hc) _]. rewrite Hy. cbn. intros [=]. congruence.
  - apply Forall_cons in Hsep as [Hx Hsep]. apply Forall_cons in Ho1 as [Ox Ho1].
    destruct l2 as [|y l2].
    + rewrite join_tail. destruct Ox as (c & t & Ex & Hc). rewrite Ex. cbn. intros [=]. congruence.
    + rewrite !join_tail. apply Forall_cons in Hx as [Hxy _].
      intros [Hg E]%Hxy; [|apply tail_terminates..].
      apply Forall_cons in Ho2 as [_ Ho2].
      assert (g <$> l1 = g <$> l2 /\ r1 = r2) as [Hl ->]; [|split; [cbn; congruence|done]].
      destruct l1 as [|x' l1], l2 as [|y' l2].
      * cbn in E. injection E as E. done.
      * exfalso. cbn [tail_of] in E. destruct close_ok; congruence.
      * exfalso. cbn [tail_of] in E. destruct close_ok; congruence.
      * cbn [tail_of] in E. injection E as E. apply IH; auto.
        eapply Forall_impl; [exact Hsep|]. by intros z [_ Hz]%Forall_cons.
Qed.
End join.

(** ** Values *)

Section canonical.
Context `{PyHost}.

(** Items of an object in key order, before and after printing. *)
Lemma sort_items_fmap {A B} (f : A -> B) (d : dict A) :
  sort_items ((fun kv => (fst kv, f (snd kv))) <$> d) =
  (fun kv => (fst kv, f (snd kv))) <$> sort_items d.
Proof. by apply sort_by_fmap. Qed.

Definition item_text (kv : pystr * json) : pystr :=
  quote (fst kv) ++ [58%N] ++ canonical_json (snd kv).

Lemma canonical_obj d :
  canonical_json (JObj d) = [123%N] ++ join [44%N] (item_text <$> sort_items d) ++ [125%N].
Proof.
  cbn [canonical_json]. rewrite sort_items_fmap, <-list_fmap_compose. done.
Qed.

Lemma norm_obj d :
  norm (JObj d) = JObj ((fun kv => (fst kv, norm (snd kv))) <$> sort_items d).
Proof. cbn [norm]. by rewrite sort_items_fmap. Qed.

Lemma canonical_opens v close :
  float_free v = true -> close = 93%N \/ close = 125%N ->
  exists c t, canonical_json v = c :: t /\ c <> close.
Proof.
  intros Hf Hc. destruct v as [|[]|z|f|s|l|d]; try done;
    try (eexists _, _; split; [reflexivity|destruct Hc; subst; discriminate]).
  destruct (show_Z_nonempty z) as (c & t & E & Hn). exists c, t. split; [done|].
  intros ->. destruct Hc; subst; done.
Qed.

(** The first character of a text determines the kind of the value. *)
Lemma num_text_head z c t r (x : Prop) :
  show_Z z ++ r = c :: t -> num_char c = false -> x.
Proof.
  destruct (show_Z_nonempty z) as (c' & t' & -> & Hn). cbn. intros [= -> _]. congruence.
Qed.

Definition unambiguous (a : json) : Prop := forall b r1 r2,
  float_free a = true -> float_free b = true -> terminates r1 -> terminates r2 ->
  canonical_json a ++ r1 = canonical_json b ++ r2 -> norm a = norm b /\ r1 = r2.

Ltac by_head_of :=
  intros b r1 r2 Hb T1 T2 E; destruct b as [|[]|z'|f'|s'|l'|d']; try discriminate Hb;
  try (exfalso; cbn in E; discriminate E);
  try (exfalso; cbn [canonical_json] in E; symmetry in E; eapply num_text_head; [exact E|done]);
  try (injection E as ->; done).
Ltac by_head := intros b r1 r2 _; revert b r1 r2; by_head_of.

Lemma unambiguous_int z : unambiguous (JInt z).
Proof.
  intros b r1 r2 _ Hb T1 T2 E. destruct b as [|[]|z'|f'|s'|l'|d']; try discriminate Hb;
    cbn [canonical_json] in E; try (exfalso; eapply num_text_head; [exact E|done]).
  apply num_prefix in E as [->%show_Z_inj ->]; auto using show_Z_chars.
Qed.

Lemma unambiguous_str s : unambiguous (JStr s).
Proof. by_head. cbn [canonical_json] in E. by apply quote_inj in E as [-> ->]. Qed.

Lemma opens_all {A} (f : A -> json) (l : list A) close :
  close = 93%N \/ close = 125%N -> Forall (fun x => float_free (f x) = true) l ->
  Forall (opens (fun x => canonical_json (f x)) close) l.
Proof.
  intros Hc Hl. eapply Forall_impl; [exact Hl|]. intros x Hx. by apply canonical_opens.
Qed.

Lemma forallb_Forall {A} (p : A -> bool) l : forallb p l = true <-> Forall (fun x => p x = true) l.
Proof. rewrite forallb_forall, Forall_forall. by setoid_rewrite list_elem_of_In. Qed.

Lemma unambiguous_list l : Forall unambiguous l -> unambiguous (JList l).
Proof.
  intros IH b r1 r2 Ha. revert b r1 r2. cbn in Ha. apply forallb_Forall in Ha.
  by_head_of. cbn [canonical_json] in E. rewrite <-!app_assoc in E. cbn [app] in E.
  injection E as E. cbn in Hb. apply forallb_Forall in Hb.
  eapply (join_inj canonical_json norm 93%N) in E as [El ->]; auto.
  - cbn. by rewrite El.
  - rewrite Forall_forall in IH, Ha, Hb |- *. intros x Hx. apply Forall_forall.
    intros y Hy s1 s2 S1 S2 Es. eapply IH; eauto.
  - by apply (opens_all id); auto.
  - by apply (opens_all id); auto.
Qed.

Lemma unambiguous_obj d : Forall (fun kv => unambiguous (snd kv)) d -> unambiguous (JObj d).
Proof.
  intros IH b r1 r2 Ha. revert b r1 r2. cbn in Ha. apply forallb_Forall in Ha.
  by_head_of. rewrite !canonical_obj, <-!app_assoc in E. cbn [app] in E.
  injection E as E. cbn in Hb. apply forallb_Forall in Hb.
  eapply (join_inj item_text (fun kv => (fst kv, norm (snd kv))) 125%N) in E as [El ->]; auto.
  - rewrite !norm_obj. by rewrite El.
  - rewrite Forall_forall in IH, Ha, Hb |- *. intros [k x] Hx. apply Forall_forall.
    intros [k' y] Hy s1 s2 S1 S2 Es. apply elem_of_sort_by in Hx, Hy.
    unfold item_text in Es. cbn [fst snd] in Es. rewrite <-!app_assoc in Es.
    apply quote_inj in Es as [-> Es]. cbn [app] in Es. injection Es as Es.
    destruct (IH (k', x) Hx y s1 s2 (Ha _ Hx) (Hb _ Hy) S1 S2 Es) as [Ev ->].
    cbn in Ev |- *. by rewrite Ev.
  - apply Forall_forall. intros kv _. unfold opens, item_text, quote.
    eexists _, _. split; [reflexivity|done].
  - apply Forall_forall. intros kv _. unfold opens, item_text, quote.
    eexists _, _. split; [reflexivity|done].
Qed.

Lemma canonical_unambiguous a : unambiguous a.
Proof.
  induction a using json_ind.
  - by_head.
  - destruct b; by_head.
  - apply unambiguous_int.
  - by intros ??? [=].
  - apply unambiguous_str.
  - by apply unambiguous_list.
  - by apply unambiguous_obj.
Qed.

Lemma canonical_json_inj a b :
  float_free a = true -> float_free b = true ->
  canonical_json a = canonical_json b -> norm a = norm b.
Proof.
  intros Ha Hb E. destruct (canonical_unambiguous a b [] []) as [? _]; auto; try exact I.
  by rewrite !app_nil_r.
Qed.

(** The text is that of the canonical form. *)
Lemma canonical_json_norm a : canonical_json (norm a) = canonical_json a.
Proof.
  induction a as [| | | | |l IH|d IH] using json_ind; try done.
  - cbn [norm canonical_json]. do 3 f_equal. rewrite <-list_fmap_compose.
    apply list_fmap_ext. intros i x Hx. eapply Forall_lookup_1 in IH; eauto.
  - rewrite norm_obj, !canonical_obj. do 3 f_equal.
    rewrite sort_items_fmap, sort_items_idemp.
    rewrite <-list_fmap_compose. apply list_fmap_ext. intros i [k x] Hx.
    unfold compose, item_text. cbn. do 3 f_equal.
    assert ((k, x) ∈ d) as Hin.
    { apply (elem_of_sort_by key_leb). by apply list_elem_of_lookup_2 in Hx. }
    rewrite Forall_forall in IH. apply (IH (k, x) Hin).
Qed.

Lemma canonical_json_iff a b :
  float_free a = true -> float_free b = true ->
  canonical_json a = canonical_json b <-> norm a = norm b.
Proof.
  intros Ha Hb. split; [by apply canonical_json_inj|].
  intros E. by rewrite <-(canonical_json_norm a), E, canonical_json_norm.
Qed.
End canonical.

(** ** Sizes of texts *)

(** Characters written as they are. *)
Definition plain_char (c : N) : bool := (negb (c =? 34) && negb (c =? 92) && in_range 32 126 c)%N.

Lemma plain_esc c : plain_char c = true -> esc_char c = [c].
Proof.
  unfold plain_char, in_range.
  rewrite !andb_true_iff, !negb_true_iff, !N.eqb_neq, !N.leb_le. intros Hc.
  destruct (esc_char_cases c) as [(-> & _)|(e & r & _ & Hx)]; [done|lia].
Qed.

Lemma length_quote s : forallb plain_char s = true -> length (quote s) = (length s + 2)%nat.
Proof.
  intros Hs. unfold quote. rewrite !length_app. cbn [length].
  assert (flat_map esc_char s = s) as ->; [|lia].
  induction s as [|c s IH]; [done|]. cbn [forallb flat_map] in *.
  apply andb_true_iff in Hs as [Hc Hs]. by rewrite IH, plain_esc.
Qed.

Lemma list_sum_cons x l : list_sum (x :: l) = (x + list_sum l)%nat.
Proof. reflexivity. Qed.

Lemma length_join sep l :
  (length (join sep l) <= list_sum ((fun s => length s + length sep) <$> l))%nat.
Proof.
  induction l as [|x [|y l] IH]; [done|rewrite fmap_cons, list_sum_cons; cbn [join]; lia|].
  change (join sep (x :: y :: l)) with (x ++ sep ++ join sep (y :: l)).
  rewrite fmap_cons, list_sum_cons.
  rewrite !length_app. lia.
Qed.

Lemma list_sum_perm l1 l2 : l1 ≡ₚ l2 -> list_sum l1 = list_sum l2.
Proof. induction 1; rewrite ?list_sum_cons; lia. Qed.

Lemma length_canonical_obj `{PyHost} d :
  (length (canonical_json (JObj d)) <=
   2 + list_sum ((fun kv => length (quote (fst kv)) + length (canonical_json (snd kv)) + 2) <$> d))%nat.
Proof.
  cbn [canonical_json]. rewrite !length_app. cbn [length].
  etransitivity; [apply Nat.add_le_mono_l, Nat.add_le_mono_r, length_join|].
  rewrite <-list_fmap_compose.
  rewrite (list_sum_perm _ ((fun kv => length (quote (fst kv)) + length (canonical_json (snd kv)) + 2)%nat <$> d)).
  { cbn. lia. }
  unfold sort_items. rewrite (sort_by_perm key_leb _), <-list_fmap_compose.
  apply Permutation_refl', list_fmap_ext. intros _ [k v] _. cbn.
  rewrite length_app. cbn. lia.
Qed.

Lemma length_canonical_list `{PyHost} l :
  (length (canonical_json (JList l)) <= 2 + list_sum ((fun v => length (canonical_json v) + 1) <$> l))%nat.
Proof.
  cbn [canonical_json]. rewrite !length_app. cbn [length].
  etransitivity; [apply Nat.add_le_mono_l, Nat.add_le_mono_r, length_join|].
  rewrite <-list_fmap_compose. unfold compose. cbn [length]. lia.
Qed.

Lemma length_chars (s : string) : length (String.list_ascii_of_string s) = String.length s.
Proof. induction s; cbn; auto. Qed.

Lemma length_string_of_uint d :
  String.length (DecimalString.NilEmpty.string_of_uint d) = Decimal.nb_digits d.
Proof. induction d; cbn; auto. Qed.

Lemma nb_digits_double d :
  (Decimal.nb_digits (Decimal.Little.double d) <= S (Decimal.nb_digits d) /\
   Decimal.nb_digits (Decimal.Little.succ_double d) <= S (Decimal.nb_digits d))%nat.
Proof. induction d as [|d IH|d IH|d IH|d IH|d IH|d IH|d IH|d IH|d IH|d IH]; cbn; lia. Qed.

Lemma nb_digits_little p : (Decimal.nb_digits (Pos.to_little_uint p) <= Pos.size_nat p)%nat.
Proof.
  induction p as [p IH|p IH|]; cbn; [| |done].
  - destruct (nb_digits_double (Pos.to_little_uint p)). lia.
  - destruct (nb_digits_double (Pos.to_little_uint p)). lia.
Qed.

Lemma nb_digits_revapp a b :
  Decimal.nb_digits (Decimal.revapp a b) = (Decimal.nb_digits a + Decimal.nb_digits b)%nat.
Proof. revert b; induction a; intros b; cbn; [done|..]; rewrite IHa; cbn; lia. Qed.

Lemma nb_digits_pos p : (Decimal.nb_digits (Pos.to_uint p) <= Pos.size_nat p)%nat.
Proof.
  unfold Pos.to_uint, Decimal.rev. rewrite nb_digits_revapp. cbn.
  pose proof (nb_digits_little p). lia.
Qed.

(** A decimal text is no longer than the binary one, sign included. *)
Lemma length_show_Z z k : (Z.abs z < 2 ^ Z.of_nat k)%Z -> (length (show_Z z) <= k + 1)%nat.
Proof.
  intros Hz. rewrite show_Z_bytes, length_fmap, length_chars.
  assert (forall p, (Z.pos p < 2 ^ Z.of_nat k)%Z -> (Pos.size_nat p <= k)%nat) as Hp.
  { intros p Hp. destruct (Nat.le_gt_cases (Pos.size_nat p) k) as [|Hlt]; [done|exfalso].
    assert (2 ^ Z.of_nat k <= Z.pos p)%Z; [|lia]. clear Hp Hz. revert k Hlt.
    induction p as [p IH|p IH|]; intros k Hlt; cbn in Hlt.
    - destruct k as [|k]; [cbn; lia|]. rewrite Nat2Z.inj_succ, Z.pow_succ_r by lia.
      specialize (IH k). lia.
    - destruct k as [|k]; [cbn; lia|]. rewrite Nat2Z.inj_succ, Z.pow_succ_r by lia.
      specialize (IH k). lia.
    - destruct k; [cbn; lia|lia]. }
  assert (forall d, (String.length (DecimalString.NilZero.string_of_uint d) <= Nat.max 1 (Decimal.nb_digits d))%nat)
    as Hd by (intros d; destruct d; cbn; rewrite ?length_string_of_uint; lia).
  destruct z as [|p|p]; cbn [Z.to_int Z.abs] in *.
  - cbn. lia.
  - pose proof (Hd (Pos.to_uint p)). pose proof (nb_digits_pos p). pose proof (Hp p Hz).
    cbn [DecimalString.NilZero.string_of_int]. lia.
  - pose proof (Hd (Pos.to_uint p)). pose proof (nb_digits_pos p). pose proof (Hp p Hz).
    assert (1 <= Pos.size_nat p)%nat by (destruct p; cbn; lia).
    cbn [DecimalString.NilZero.string_of_int String.length]. lia.
Qed.

(** ** Values of plain text *)

Fixpoint plain_json (v : json) : bool :=
  match v with
  | JFloat _ => false
  | JStr s => forallb plain_char s
  | JList l => forallb plain_json l
  | JObj d => forallb (fun kv => forallb plain_char (fst kv) && plain_json (snd kv)) d
  | _ => true
  end.

Section plain.
Context `{PyHost}.

Definition printable (s : pystr) : Prop := Forall (fun c => in_range 32 126 c = true) s.

Lemma printable_app a b : printable (a ++ b) <-> printable a /\ printable b.
Proof. apply Forall_app. Qed.
Lemma printable_dec s : forallb (in_range 32 126) s = true -> printable s.
Proof. apply forallb_Forall. Qed.

Lemma printable_join sep l : printable sep -> Forall printable l -> printable (join sep l).
Proof.
  intros Hs. induction 1 as [|x l Hx Hl IH]; [constructor|].
  destruct l as [|y l]; [done|].
  change (join sep (x :: y :: l)) with (x ++ sep ++ join sep (y :: l)).
  by rewrite !printable_app.
Qed.

Lemma printable_quote s : forallb plain_char s = true -> printable (quote s).
Proof.
  intros Hs%forallb_Forall. unfold quote. rewrite !printable_app.
  split_and!; [by apply printable_dec| |by apply printable_dec].
  induction Hs as [|c s Hc Hs IH]; [constructor|]. cbn [flat_map].
  rewrite plain_esc by done. constructor; [|done].
  unfold plain_char in Hc. by apply andb_true_iff in Hc as [_ Hc].
Qed.

Lemma printable_show_Z z : printable (show_Z z).
Proof.
  eapply Forall_impl; [apply show_Z_chars|]. intros c. unfold num_char, ascii_digit, in_range.
  rewrite orb_true_iff, !andb_true_iff, !N.leb_le, N.eqb_eq. lia.
Qed.

Lemma printable_canonical v : plain_json v = true -> printable (canonical_json v).
Proof.
  induction v as [|[]|z|f|s|l IH|d IH] using json_ind; intros Hv; try done;
    try (by apply printable_dec).
  - apply printable_show_Z.
  - by apply printable_quote.
  - cbn [canonical_json]. rewrite !printable_app.
    split_and!; [by apply printable_dec|apply printable_join; [by apply printable_dec|]|by apply printable_dec].
    cbn in Hv. apply forallb_Forall in Hv. apply Forall_fmap.
    eapply Forall_impl; [apply Forall_and; split; [exact IH|exact Hv]|]. naive_solver.
  - cbn [canonical_json]. rewrite !printable_app.
    split_and!; [by apply printable_dec|apply printable_join; [by apply printable_dec|]|by apply printable_dec].
    cbn in Hv. apply forallb_Forall in Hv. apply Forall_fmap.
    unfold sort_items. rewrite (sort_by_perm key_leb _). apply Forall_fmap.
    eapply Forall_impl; [apply Forall_and; split; [exact IH|exact Hv]|].
    intros [k v] [Hk [Hp Hw]%andb_true_iff]. unfold compose. cbn [fst snd] in *. rewrite printable_app.
    split; [by apply printable_quote|]. constructor; [done|]. by apply Hk.
Qed.

Lemma ascii_json_plain v : plain_json v = true -> ascii_json v = canonical_json v.
Proof.
  intros Hv%printable_canonical. unfold ascii_json.
  induction Hv as [|c s Hc Hs IH]; [done|]. cbn [flat_map]. rewrite IH.
  unfold ascii_escape. by rewrite Hc.
Qed.
End plain.

(** ** UTF-8 is injective *)

Lemma join6 c d : N.shiftr c 6 = N.shiftr d 6 -> N.land c 63 = N.land d 63 -> c = d.
Proof.
  rewrite !N.shiftr_div_pow2. change 63%N with (N.ones 6). rewrite !N.land_ones. intros H1 H2.
  rewrite (N.div_mod c (2 ^ 6)), (N.div_mod d (2 ^ 6)) by done. congruence.
Qed.

Lemma shiftr_small c k n : (c < n * 2 ^ k)%N -> (N.shiftr c k < n)%N.
Proof. intros H. rewrite N.shiftr_div_pow2. apply N.Div0.div_lt_upper_bound. lia. Qed.

Lemma utf8_encode1_inj c d b b' x y :
  utf8_encode1 c = Ok b -> utf8_encode1 d = Ok b' -> b ++ x = b' ++ y -> c = d /\ x = y.
Proof.
  unfold utf8_encode1.
  pose proof (shiftr_small c 6 32) as C1. pose proof (shiftr_small c 12 16) as C2.
  pose proof (shiftr_small d 6 32) as D1. pose proof (shiftr_small d 12 16) as D2. cbn in C1, C2, D1, D2.
  assert (forall a, N.shiftr (N.shiftr a 6) 6 = N.shiftr a 12) as S6 by (intros; apply N.shiftr_shiftr).
  assert (forall a, N.shiftr (N.shiftr a 12) 6 = N.shiftr a 18) as S12 by (intros; apply N.shiftr_shiftr).
  destruct (N.ltb_spec c 128); [|destruct (N.ltb_spec c 2048); [|destruct (_ && _); [done|destruct (N.ltb_spec c 65536)]]];
    (destruct (N.ltb_spec d 128); [|destruct (N.ltb_spec d 2048); [|destruct (_ && _); [done|destruct (N.ltb_spec d 65536)]]]);
    intros [= <-] [= <-]; cbn [app]; intros E; injection E as E; try lia; (split; [|done]).
  - done.
  - apply join6; lia.
  - apply join6; [|lia]. apply join6; [|lia]. rewrite !S6. lia.
  - apply join6; [|lia]. apply join6; [|lia]. rewrite !S6. apply join6; [|lia]. rewrite !S12. lia.
Qed.

Lemma utf8_encode1_nonempty c b : utf8_encode1 c = Ok b -> b <> [].
Proof. unfold utf8_encode1. repeat case_match; by intros [= <-]. Qed.

Lemma utf8_encode_inj s t b : utf8_encode s = Ok b -> utf8_encode t = Ok b -> s = t.
Proof.
  revert t b. induction s as [|c s IH]; intros [|d t] b; cbn [utf8_encode].
  - done.
  - intros [= <-] (b1 & H1 & (b2 & _ & [= E])%bind_ok)%bind_ok.
    apply app_nil in E as [-> _]. by apply utf8_encode1_nonempty in H1.
  - intros (b1 & H1 & (b2 & _ & [= <-])%bind_ok)%bind_ok [= E]. symmetry in E.
    apply app_nil in E as [-> _]. by apply utf8_encode1_nonempty in H1.
  - intros (b1 & H1 & (b2 & H2 & [= <-])%bind_ok)%bind_ok (b3 & H3 & (b4 & H4 & [= E])%bind_ok)%bind_ok.
    symmetry in E. destruct (utf8_encode1_inj _ _ _ _ _ _ H1 H3 E) as [-> ->]. f_equal. by eapply IH.
Qed.

Lemma encode_inj s t b : encode s = Ok b -> encode t = Ok b -> s = t.
Proof.
  unfold encode. destruct (utf8_encode s) eqn:Es; [|done]. destruct (utf8_encode t) eqn:Et; [|done].
  intros [= ->] [= ->]. by eapply utf8_encode_inj.
Qed.
