(* ===== verification/JsonParse.v ===== *)
(** * JSON texts read: [json.loads]

    The scanner of the [json] module with the hooks [object_pairs_hook] and [parse_constant].  A
    reader takes a text and returns a value and the text behind it; nesting is bounded by the
    recursion limit, and the loops over the items of a container by the length of the text.  The
    readers are total: every text is a value, an exception of a hook, an integer beyond
    [sys.get_int_max_str_digits], a nesting too deep, or malformed. *)

From S2P Require Import Prelude PyStr Json PyFloat.
From Stdlib Require Import SpecFloat.
Open Scope Z_scope.

Definition JSONDecodeError : exc_class := Sub "JSONDecodeError" ValueError.

Definition json_space (c : N) : bool := ((c =? 32) || (c =? 9) || (c =? 10) || (c =? 13))%N.
Definition skip_space : pystr -> pystr := lstrip json_space.

(** ** Strings *)

Definition hex_value (c : N) : option N :=
  (if in_range 48 57 c then Some (c - 48)
   else if in_range 97 102 c then Some (c - 87)
   else if in_range 65 70 c then Some (c - 55)
   else None)%N.
(** The unit of [\uXXXX], behind the [u]. *)
Definition unit_of (a b c d : N) : option N :=
  match hex_value a, hex_value b, hex_value c, hex_value d with
  | Some a, Some b, Some c, Some d => Some (4096 * a + 256 * b + 16 * c + d)%N
  | _, _, _, _ => None
  end.
Definition simple_escape (c : N) : option N :=
  (if c =? 34 then Some 34 else if c =? 92 then Some 92 else if c =? 47 then Some 47
   else if c =? 98 then Some 8 else if c =? 102 then Some 12 else if c =? 110 then Some 10
   else if c =? 114 then Some 13 else if c =? 116 then Some 9 else None)%N.
Definition join_units (hi lo : N) : N := (65536 + 1024 * (hi - 55296) + (lo - 56320))%N.

Definition put (c : N) (r : option (pystr * pystr)) : option (pystr * pystr) :=
  match r with Some (s, t) => Some (c :: s, t) | None => None end.

(** [scanstring] in strict mode, behind the opening quote. *)
Fixpoint scan_string (s : pystr) : option (pystr * pystr) :=
  match s with
  | [] => None
  | c :: t =>
      if (c =? 34)%N then Some ([], t)
      else if (c <? 32)%N then None
      else if negb (c =? 92)%N then put c (scan_string t)
      else
        match t with
        | [] => None
        | e :: t1 =>
            match simple_escape e with
            | Some x => put x (scan_string t1)
            | None =>
                if negb (e =? 117)%N then None
                else
                  match t1 with
                  | a :: b :: c :: d :: t2 =>
                      match unit_of a b c d with
                      | None => None
                      | Some u =>
                          if in_range 55296 56319 u then
                            match t2 with
                            | f :: g :: a' :: b' :: c' :: d' :: t3 =>
                                if (f =? 92)%N && (g =? 117)%N then
                                  match unit_of a' b' c' d' with
                                  | None => None
                                  | Some u' =>
                                      if in_range 56320 57343 u' then put (join_units u u') (scan_string t3)
                                      else put u (scan_string t2)
                                  end
                                else put u (scan_string t2)
                            | _ => put u (scan_string t2)
                            end
                          else put u (scan_string t2)
                      end
                  | _ => None
                  end
            end
        end
  end.

(** ** Numbers *)

Fixpoint span (p : N -> bool) (s : pystr) : pystr * pystr :=
  match s with
  | [] => ([], [])
  | c :: t => if p c then let '(a, b) := span p t in (c :: a, b) else ([], s)
  end.
Definition digits_value (s : pystr) : Z := foldl (fun n c => n * 10 + (Z.of_N c - 48)) 0 s.

(** [m * 10 ^ e], rounded once. *)
Definition f_of_decimal (negative : bool) (m e : Z) : float :=
  match m with
  | Zpos p =>
      if 0 <=? e then binary_normalize prec emax ((if negative then -1 else 1) * (m * 10 ^ e)) 0 negative
      else SFdiv prec emax (S754_finite negative p 0) (S754_finite false (Z.to_pos (10 ^ (- e))) 0)
  | _ => S754_zero negative
  end.

(** [".[0-9]+"] and ["[eE][-+]?[0-9]+"], when they are there. *)
Definition fraction (s : pystr) : pystr * pystr :=
  match s with
  | c :: t => if (c =? 46)%N then match span ascii_digit t with ([], _) => ([], s) | r => r end else ([], s)
  | [] => ([], s)
  end.
Definition exponent (s : pystr) : option Z * pystr :=
  match s with
  | c :: t =>
      if (c =? 101)%N || (c =? 69)%N then
        let '(sign, t1) := match t with
                           | x :: t1 => if (x =? 45)%N then (-1, t1) else if (x =? 43)%N then (1, t1) else (1, t)
                           | [] => (1, t)
                           end in
        match span ascii_digit t1 with
        | ([], _) => (None, s)
        | (ds, r) => (Some (sign * digits_value ds), r)
        end
      else (None, s)
  | [] => (None, s)
  end.

Definition INT_MAX_STR_DIGITS : nat := 4300.
(** [int.__repr__] gives no more digits than that either. *)
Definition printable (z : Z) : bool := (length (show_Z (Z.abs z)) <=? INT_MAX_STR_DIGITS)%nat.
Fixpoint printable_ints (v : json) : bool :=
  match v with
  | JInt z => printable z
  | JList l => forallb printable_ints l
  | JObj d => forallb (fun kv => printable_ints (snd kv)) d
  | _ => true
  end.
(** [int(s)] of decimal digits. *)
Definition int_of_digits (negative : bool) (ds : pystr) : result exn json :=
  if (INT_MAX_STR_DIGITS <? length ds)%nat then
    raise ValueError (lit "Exceeds the limit (4300 digits) for integer string conversion: value has "
      ++ show_nat (length ds) ++ lit " digits; use sys.set_int_max_str_digits() to increase the limit")
  else Ok (JInt (if negative then - digits_value ds else digits_value ds)).

(** [int(s)]: blanks around, a sign, digits with single underscores between them. *)
Fixpoint underscored (s : pystr) : option pystr :=
  match s with
  | [] => None
  | c :: t =>
      if negb (ascii_digit c) then None
      else match t with
           | [] => Some [c]
           | x :: t' => if (x =? 95)%N then (r ← underscored t'; Some (c :: r)) else (r ← underscored t; Some (c :: r))
           end
  end.
Definition ascii_int (s : pystr) : option Z :=
  let s := strip s in
  let '(sign, t) := match s with
                    | c :: t => if (c =? 45)%N then (-1, t) else if (c =? 43)%N then (1, t) else (1, s)
                    | [] => (1, s)
                    end in
  ds ← underscored t;
  if (INT_MAX_STR_DIGITS <? length ds)%nat then None else Some (sign * digits_value ds).
Definition parse_int `{PyHost} (s : pystr) : option Z := if forallb is_ascii s then ascii_int s else host_int s.

(** ** Values *)

(** Malformed ([None]) or an exception of its own. *)
Definition read (A : Type) : Type := result (option exn) (A * pystr).
Definition malformed {A} : result (option exn) A := Err None.
Definition hooked {A B} (r : result exn A) (k : A -> result (option exn) B) : result (option exn) B :=
  match r with Ok a => k a | Err e => Err (Some e) end.

Definition scan_unsigned (negative : bool) (s : pystr) : read json :=
  match s with
  | [] => malformed
  | c :: t =>
      if negb (ascii_digit c) then malformed
      else
        let '(ds, r) := if (c =? 48)%N then ([c], t) else span ascii_digit s in
        let '(fs, r1) := fraction r in
        let '(e, r2) := exponent r1 in
        match fs, e with
        | [], None => hooked (int_of_digits negative ds) (fun v => Ok (v, r2))
        | _, _ => Ok (JFloat (f_of_decimal negative (digits_value (ds ++ fs)) (default 0 e - Z.of_nat (length fs))), r2)
        end
  end.
Definition scan_number (s : pystr) : read json :=
  match s with
  | c :: t => if (c =? 45)%N then scan_unsigned true t else scan_unsigned false s
  | [] => malformed
  end.

Section loads.
Context `{PyHost}.
(** [object_pairs_hook] and [parse_constant] *)
Variable hook : list (pystr * json) -> result exn json.
Variable constant : pystr -> result exn json.

Definition literals : list (pystr * result exn json) :=
  [(lit "null", Ok JNull); (lit "true", Ok (JBool true)); (lit "false", Ok (JBool false));
   (lit "NaN", constant "NaN"); (lit "Infinity", constant "Infinity"); (lit "-Infinity", constant "-Infinity")].
Definition scan_atom (s : pystr) : read json :=
  match find (fun p => startswith (fst p) s) literals with
  | Some (w, v) => hooked v (fun v => Ok (v, drop (length w) s))
  | None => scan_number s
  end.

(** The items of an array, at a value; and of an object, at the quote of a key. *)
Fixpoint array_items (item : pystr -> read json) (fuel : nat) (s : pystr) : read (list json) :=
  match fuel with
  | O => malformed
  | S fuel' =>
      '(v, r) ← item s;
      match skip_space r with
      | c :: r1 =>
          if (c =? 93)%N then Ok ([v], r1)
          else if (c =? 44)%N then
            '(vs, r2) ← array_items item fuel' (skip_space r1); Ok (v :: vs, r2)
          else malformed
      | [] => malformed
      end
  end.
Fixpoint object_items (item : pystr -> read json) (fuel : nat) (s : pystr) : read (list (pystr * json)) :=
  match fuel, s with
  | S fuel', q :: s1 =>
      if negb (q =? 34)%N then malformed
      else
        match scan_string s1 with
        | None => malformed
        | Some (k, r) =>
            match skip_space r with
            | c :: r1 =>
                if negb (c =? 58)%N then malformed
                else
                  '(v, r2) ← item (skip_space r1);
                  match skip_space r2 with
                  | c :: r3 =>
                      if (c =? 125)%N then Ok ([(k, v)], r3)
                      else if (c =? 44)%N then
                        '(kvs, r4) ← object_items item fuel' (skip_space r3); Ok ((k, v) :: kvs, r4)
                      else malformed
                  | [] => malformed
                  end
            | [] => malformed
            end
        end
  | _, _ => malformed
  end.

(** [scan_once], with the reader of the values inside a container, if one may still open. *)
Definition scan_value (inside : option (pystr -> read json)) (s : pystr) : read json :=
  match s with
  | [] => malformed
  | c :: t =>
      if (c =? 34)%N then
        match scan_string t with Some (x, r) => Ok (JStr x, r) | None => malformed end
      else if (c =? 123)%N || (c =? 91)%N then
        match inside with
        | None => Err (Some (Exn RecursionError "maximum recursion depth exceeded while decoding a JSON document"))
        | Some item =>
            let t1 := skip_space t in
            if (c =? 91)%N then
              match t1 with
              | x :: r => if (x =? 93)%N then Ok (JList [], r)
                          else '(vs, r) ← array_items item (length t1) t1; Ok (JList vs, r)
              | [] => malformed
              end
            else
              match t1 with
              | x :: r =>
                  if (x =? 125)%N then hooked (hook []) (fun v => Ok (v, r))
                  else '(kvs, r) ← object_items item (length t1) t1; hooked (hook kvs) (fun v => Ok (v, r))
              | [] => malformed
              end
        end
      else scan_atom s
  end.
Fixpoint scan_once (depth : nat) (s : pystr) : read json :=
  scan_value (match depth with O => None | S d => Some (scan_once d) end) s.

(** [json.loads(text)] *)
Definition loads (text : pystr) : result exn json :=
  let no := raise JSONDecodeError (host_json_error text) in
  if startswith [65279%N] text then no
  else
    match scan_once host_json_depth (skip_space text) with
    | Ok (v, r) => match skip_space r with [] => Ok v | _ => no end
    | Err None => no
    | Err (Some e) => Err e
    end.
End loads.

(** The defaults: a [dict] of the pairs, later ones winning, and the non-finite numbers. *)
Definition plain_object (pairs : list (pystr * json)) : result exn json :=
  Ok (JObj (foldl (fun d kv => dset d (fst kv) (snd kv)) [] pairs)).
Definition plain_constant (name : pystr) : result exn json :=
  Ok (JFloat (if str_eqb name "NaN" then S754_nan else S754_infinity (startswith "-" name))).
