(* ===== verification/JsonUnique.v ===== *)
(** * Readers that refuse repeated keys

    Several programs give [json.loads] an [object_pairs_hook] that builds the [dict] of the pairs and
    raises when a key comes again.  Such a reader accepts exactly the documents in which no object,
    at any depth, repeats a key, and gives them as they are written. *)

From S2P Require Import Prelude PyStr Json JsonParse.
Open Scope Z_scope.

(** The hook that keeps the pairs as they are written. *)
Definition as_written (pairs : list (pystr * json)) : result exn json := Ok (JObj pairs).

(** ** The hook *)

Section hook.
Context (keep : dict json -> list (pystr * json) -> result exn (dict json)).
Hypothesis keep_nil : forall d, keep d [] = Ok d.
Hypothesis keep_known : forall (d : dict json) k v pairs, dmem d k = true -> exists e, keep d ((k, v) :: pairs) = Err e.
Hypothesis keep_new : forall (d : dict json) k v pairs, dmem d k = false -> keep d ((k, v) :: pairs) = keep (dset d k v) pairs.

Lemma keep_exact_from pairs acc d : NoDup (dkeys acc) ->
  keep acc pairs = Ok d <-> d = acc ++ pairs /\ NoDup (dkeys (acc ++ pairs)).
Proof.
  revert acc. induction pairs as [|[k v] pairs IH]; intros acc Hn.
  { rewrite keep_nil, app_nil_r. naive_solver. }
  destruct (dmem acc k) eqn:E.
  - destruct (keep_known _ k v pairs E) as [e ->]. split; [done|]. intros [_ H]. apply dmem_spec in E.
    unfold dkeys in H. rewrite fmap_app in H. apply NoDup_app in H as (_ & H & _). destruct (H k E). cbn. by left.
  - rewrite keep_new by done. assert (k ∉ dkeys acc) as Hk by (rewrite <-dmem_spec; congruence).
    rewrite IH by (by apply NoDup_dset). by rewrite dset_fresh, <-app_assoc.
Qed.
Lemma keep_exact pairs d : keep [] pairs = Ok d <-> d = pairs /\ NoDup (dkeys pairs).
Proof. apply (keep_exact_from pairs []). constructor. Qed.
End hook.

(** ** The reader *)

Section loads.
Context {host : PyHost} (strict : list (pystr * json) -> result exn json) (constant : pystr -> result exn json).
Hypothesis strict_exact : forall pairs v, strict pairs = Ok v <-> v = JObj pairs /\ NoDup (dkeys pairs).
Hypothesis constant_wf : forall name v, constant name = Ok v -> json_wf v = true.

(** The reader on the left is the one on the right where no key repeats. *)
Definition refuses (left right : pystr -> read json) : Prop :=
  forall s v r, left s = Ok (v, r) <-> right s = Ok (v, r) /\ json_wf v = true.

Lemma scan_unsigned_wf b s v r : scan_unsigned b s = Ok (v, r) -> json_wf v = true.
Proof.
  unfold scan_unsigned. destruct s as [|c t]; [done|]. destruct (negb _); [done|].
  destruct (if (c =? 48)%N then _ else _) as [ds r0], (fraction r0) as [fs r1], (exponent r1) as [e r2].
  assert (forall x, hooked (int_of_digits b ds) (fun v => Ok (v, r2)) = Ok (v, x) -> json_wf v = true) as Hi.
  { intros x. unfold int_of_digits. destruct (_ <? _)%nat; [done|]. by intros [= <- _]. }
  destruct fs, e; try (by intros [= <- _]); apply Hi.
Qed.
Lemma scan_atom_wf s v r : scan_atom constant s = Ok (v, r) -> json_wf v = true.
Proof.
  unfold scan_atom. destruct (find _ _) as [[w x]|] eqn:Ef.
  - apply find_some in Ef as [Hin _]. destruct x as [x|]; [|done]. cbn [hooked]. intros [= -> _].
    unfold literals in Hin. cbn [In] in Hin.
    destruct Hin as [[= _ <-]|[[= _ <-]|[[= _ <-]|[[= _ H]|[[= _ H]|[[= _ H]|[]]]]]]]; try done; by eapply constant_wf.
  - unfold scan_number. destruct s as [|c t]; [done|]. destruct (c =? 45)%N; apply scan_unsigned_wf.
Qed.

Section items.
Context (left right : pystr -> read json) (agree : refuses left right).
Lemma array_items_refuse fuel s l r :
  array_items left fuel s = Ok (l, r) <-> array_items right fuel s = Ok (l, r) /\ forallb json_wf l = true.
Proof.
  revert s l r. induction fuel as [|fuel IH]; intros s l r; cbn [array_items]; [naive_solver|]. split.
  - intros ([v r1] & [Hv Hw]%agree & H)%bind_ok. rewrite Hv. cbn [mbind result_bind].
    destruct (skip_space r1) as [|c r2]; [done|]. destruct (c =? 93)%N; [injection H as <- <-; cbn; by rewrite Hw|].
    destruct (c =? 44)%N; [|done]. apply bind_ok in H as ([vs r3] & [Hvs Hws]%IH & [= <- <-]). rewrite Hvs. cbn. by rewrite Hw.
  - intros [([v r1] & Hv & H)%bind_ok Hl]. destruct (skip_space r1) as [|c r2] eqn:E; [done|].
    destruct (c =? 93)%N eqn:Ec.
    + injection H as <- <-. apply bind_ok. exists (v, r1). cbn in Hl. rewrite andb_true_r in Hl. split; [by apply agree|]. by rewrite E, Ec.
    + destruct (c =? 44)%N eqn:Ed; [|done]. apply bind_ok in H as ([vs r3] & Hvs & [= <- <-]).
      cbn in Hl. apply andb_true_iff in Hl as [Hw Hws]. apply bind_ok. exists (v, r1).
      split; [by apply agree|]. rewrite E, Ec, Ed. apply bind_ok. exists (vs, r3). by rewrite IH.
Qed.
Lemma object_items_refuse fuel s (l : list (pystr * json)) r :
  object_items left fuel s = Ok (l, r) <->
  object_items right fuel s = Ok (l, r) /\ forallb (fun kv => json_wf (snd kv)) l = true.
Proof.
  revert s l r. induction fuel as [|fuel IH]; intros s l r; cbn [object_items]; [naive_solver|].
  destruct s as [|q s]; [naive_solver|]. destruct (negb _); [naive_solver|].
  destruct (scan_string s) as [[k r1]|]; [|naive_solver]. destruct (skip_space r1) as [|x r2]; [naive_solver|].
  destruct (negb _); [naive_solver|]. split.
  - intros ([v r3] & [Hv Hw]%agree & H)%bind_ok. rewrite Hv. cbn [mbind result_bind].
    destruct (skip_space r3) as [|c r4]; [done|]. destruct (c =? 125)%N; [injection H as <- <-; cbn; by rewrite Hw|].
    destruct (c =? 44)%N; [|done]. apply bind_ok in H as ([vs r5] & [Hvs Hws]%IH & [= <- <-]). rewrite Hvs. cbn. by rewrite Hw.
  - intros [([v r3] & Hv & H)%bind_ok Hl]. destruct (skip_space r3) as [|c r4] eqn:E; [done|].
    destruct (c =? 125)%N eqn:Ec.
    + injection H as <- <-. apply bind_ok. exists (v, r3). cbn in Hl. rewrite andb_true_r in Hl. split; [by apply agree|]. by rewrite E, Ec.
    + destruct (c =? 44)%N eqn:Ed; [|done]. apply bind_ok in H as ([vs r5] & Hvs & [= <- <-]).
      cbn in Hl. apply andb_true_iff in Hl as [Hw Hws]. apply bind_ok. exists (v, r3).
      split; [by apply agree|]. rewrite E, Ec, Ed. apply bind_ok. exists (vs, r5). by rewrite IH.
Qed.
End items.

Lemma hooked_ok {A B : Type} (r : result exn A) (k : A -> result (option exn) B) b :
  hooked r k = Ok b <-> exists a, r = Ok a /\ k a = Ok b.
Proof. unfold hooked. destruct r; naive_solver. Qed.
(** An object whose items are read. *)
Lemma object_refuses (kvs : list (pystr * json)) (r0 : pystr) v (r : pystr) : forallb (fun kv => json_wf (snd kv)) kvs = true ->
  hooked (strict kvs) (fun v => Ok (v, r0)) = Ok (v, r) <->
  hooked (as_written kvs) (fun v => Ok (v, r0)) = Ok (v, r) /\ json_wf v = true.
Proof.
  intros Hk. rewrite hooked_ok. unfold as_written. cbn [hooked]. setoid_rewrite strict_exact. split.
  - intros (x & [-> Hn] & [= <- <-]). split; [done|]. cbn. rewrite Hk, andb_true_r. by apply bool_decide_eq_true.
  - intros [[= <- <-] Hw]. exists (JObj kvs). cbn in Hw. apply andb_true_iff in Hw as [Hw _].
    split; [|done]. split; [done|]. by apply bool_decide_eq_true in Hw.
Qed.

Lemma scan_value_refuses left right :
  match left, right with Some l, Some r => refuses l r | None, None => True | _, _ => False end ->
  refuses (scan_value strict constant left) (scan_value as_written constant right).
Proof.
  intros Hi s v r. unfold scan_value. destruct s as [|c t]; [naive_solver|].
  destruct (c =? 34)%N; [destruct (scan_string t) as [[x y]|]; [|naive_solver]; split; [by intros [= <- <-]|by intros [? _]]|].
  destruct ((c =? 123) || (c =? 91))%N; [|split; [|by intros [? _]]; intros H; split; [done|by eapply scan_atom_wf]].
  destruct left as [l|], right as [r'|]; try done; [|naive_solver]. destruct (c =? 91)%N.
  - destruct (skip_space t) as [|x y]; [naive_solver|]. destruct (x =? 93)%N; [split; [by intros [= <- <-]|by intros [? _]]|].
    split.
    + intros ([vs z] & [Hvs Hw]%(array_items_refuse _ _ Hi) & [= <- <-])%bind_ok. by rewrite Hvs.
    + intros [([vs z] & Hvs & [= <- <-])%bind_ok Hw]. apply bind_ok. exists (vs, z). split; [|done].
      by apply (array_items_refuse _ _ Hi).
  - destruct (skip_space t) as [|x y]; [naive_solver|]. destruct (x =? 125)%N; [by apply object_refuses|].
    split.
    + intros ([kvs z] & [Hkvs Hw]%(object_items_refuse _ _ Hi) & H)%bind_ok. rewrite Hkvs. by apply object_refuses.
    + intros [([kvs z] & Hkvs & H)%bind_ok Hv]. assert (forallb (fun kv => json_wf (snd kv)) kvs = true) as Hw.
      { unfold as_written in H. cbn [hooked] in H. injection H as <- <-. cbn in Hv. by apply andb_true_iff in Hv as [_ ?]. }
      apply bind_ok. exists (kvs, z). split; [by apply (object_items_refuse _ _ Hi)|]. by apply object_refuses.
Qed.
Lemma scan_once_refuses depth : refuses (scan_once strict constant depth) (scan_once as_written constant depth).
Proof.
  induction depth as [|depth IH]; [exact (scan_value_refuses None None I)|].
  exact (scan_value_refuses (Some _) (Some _) IH).
Qed.
(** The document as it is written, where no object in it repeats a key; and nothing else. *)
Lemma loads_strict text v :
  loads strict constant text = Ok v <-> loads as_written constant text = Ok v /\ json_wf v = true.
Proof.
  unfold loads. destruct (startswith _ _); [naive_solver|].
  pose proof (scan_once_refuses host_json_depth (skip_space text)) as Hs. split.
  - destruct (scan_once strict constant _ _) as [[w r]|[]]; try done. destruct (proj1 (Hs w r) eq_refl) as [-> Hw].
    destruct (skip_space r); [|done]. by intros [= <-].
  - intros [H Hw]. destruct (scan_once as_written constant _ _) as [[w r]|[]]; try done.
    destruct (skip_space r) eqn:Er; [|done]. injection H as <-. rewrite (proj2 (Hs w r)) by done. by rewrite Er.
Qed.
End loads.

Lemma plain_constant_wf name v : plain_constant name = Ok v -> json_wf v = true.
Proof. by intros [= <-]. Qed.
