(* ===== verification/JsonRound.v ===== *)
(** * JSON texts written and read back

    [loads] of what [json.dumps] writes, compact or indented, with or without [ensure_ascii], is the
    value in canonical form: strings, numbers and containers, under every hook that keeps the pairs
    of an object without repeated keys. *)

From S2P Require Import Prelude PyStr Json JsonText PyFloat JsonParse.
From Stdlib Require DecimalString DecimalZ DecimalPos.
Open Scope Z_scope.

(** ** Strings *)

(** No surrogate, and below [sys.maxunicode]. *)
Definition code_char (c : N) : bool := (c <? 1114112)%N && negb (is_surrogate c).
Definition code_text (s : pystr) : bool := forallb code_char s.

Lemma scan_plain c t : (c =? 34)%N = false -> (c =? 92)%N = false -> (c <? 32)%N = false ->
  scan_string (c :: t) = put c (scan_string t).
Proof. intros H1 H2 H3. cbn [scan_string]. by rewrite H1, H2, H3. Qed.

Definition hex_checks : bool :=
  forallb (fun c => match hex_value (hex_digit c) with Some x => (x =? c)%N | None => false end) (N.of_nat <$> seq 0 16).
Lemma hex_value_digit c : (c < 16)%N -> hex_value (hex_digit c) = Some c.
Proof.
  intros Hc. assert (hex_checks = true) as H by (vm_compute; reflexivity). unfold hex_checks in H.
  rewrite forallb_forall in H. specialize (H c). destruct (hex_value (hex_digit c)) as [x|].
  - f_equal. apply N.eqb_eq, H. apply list_elem_of_In, list_elem_of_fmap. exists (N.to_nat c). split; [lia|]. apply elem_of_seq. lia.
  - exfalso. discriminate H. apply list_elem_of_In, list_elem_of_fmap. exists (N.to_nat c). split; [lia|]. apply elem_of_seq. lia.
Qed.

Lemma unit_escape u : (u < 65536)%N ->
  exists a b c d, escape_unit u = [92; 117; a; b; c; d]%N /\ unit_of a b c d = Some u.
Proof.
  intros Hu. unfold escape_unit, hex_pad. cbn [rev seq app fmap list_fmap].
  eexists _, _, _, _. split; [reflexivity|].
  assert (forall k, (N.land (N.shiftr u k) 15 < 16)%N) as Hb
    by (intros k; change 15%N with (N.ones 4); rewrite N.land_ones; by apply N.mod_lt).
  unfold unit_of. rewrite !hex_value_digit by apply Hb. f_equal.
  change 15%N with (N.ones 4). rewrite !N.land_ones, !N.shiftr_div_pow2. cbn [N.of_nat N.mul N.pow Pos.pow].
  change (2 ^ 0)%N with 1%N. cbn. zify; Z.to_euclidean_division_equations; lia.
Qed.

Lemma scan_unit u t : (u < 65536)%N -> in_range 55296 56319 u = false ->
  scan_string (escape_unit u ++ t) = put u (scan_string t).
Proof.
  intros Hu Hs. destruct (unit_escape u Hu) as (a & b & c & d & -> & E). cbn [app scan_string].
  change (simple_escape 117) with (@None N). cbn. by rewrite E, Hs.
Qed.
Lemma scan_pair hi lo t : in_range 55296 56319 hi = true -> in_range 56320 57343 lo = true ->
  scan_string (escape_unit hi ++ escape_unit lo ++ t) = put (join_units hi lo) (scan_string t).
Proof.
  intros Hh Hl. assert (forall x, in_range 55296 57343 x = true -> (x < 65536)%N) as Hr
    by (unfold in_range; intros x; rewrite andb_true_iff, !N.leb_le; lia).
  destruct (unit_escape hi) as (a & b & c & d & -> & E);
    [apply Hr; unfold in_range in *; rewrite andb_true_iff, !N.leb_le in *; lia|].
  destruct (unit_escape lo) as (a' & b' & c' & d' & -> & E');
    [apply Hr; unfold in_range in *; rewrite andb_true_iff, !N.leb_le in *; lia|].
  cbn [app scan_string]. change (simple_escape 117) with (@None N). cbn. by rewrite E, Hh, E', Hl.
Qed.

(** One character, escaped as [quote] does, and escaped to ASCII. *)
Lemma scan_esc c t : scan_string (esc_char c ++ t) = put c (scan_string t).
Proof.
  destruct (esc_char_cases c) as [(E & H34 & H92)|(e & r & E & Hc)].
  - rewrite E. apply scan_plain; [by apply N.eqb_neq..|]. apply N.ltb_ge. destruct (N.lt_ge_cases c 32) as [Hlt|]; [|done].
    exfalso. revert E. clear -Hlt. unfold esc_char. repeat case_match; try done.
    rewrite N.ltb_ge in *. lia.
  - clear E e r. assert (c ∈ N.of_nat <$> (seq 0 32 ++ [34; 92])%nat) as Hin.
    { apply list_elem_of_fmap. exists (N.to_nat c). split; [lia|]. rewrite elem_of_app, elem_of_seq, !elem_of_cons. lia. }
    clear Hc. revert c Hin. apply Forall_forall. cbn [seq app fmap list_fmap].
    repeat (apply Forall_cons; split; [reflexivity|]). by apply Forall_nil.
Qed.

Definition ascii_checks : bool :=
  forallb (fun c => str_eqb (flat_map ascii_escape (esc_char c)) (esc_char c)) (N.of_nat <$> seq 0 127).
Lemma ascii_esc_low c : (c < 127)%N -> flat_map ascii_escape (esc_char c) = esc_char c.
Proof.
  intros Hc. assert (ascii_checks = true) as H by (vm_compute; reflexivity). unfold ascii_checks in H.
  rewrite forallb_forall in H. apply str_eqb_eq, H. apply list_elem_of_In, list_elem_of_fmap.
  exists (N.to_nat c). split; [lia|]. apply elem_of_seq. lia.
Qed.
Lemma scan_ascii_esc c t : code_char c = true ->
  scan_string (flat_map ascii_escape (esc_char c) ++ t) = put c (scan_string t).
Proof.
  unfold code_char, is_surrogate. rewrite andb_true_iff, negb_true_iff, N.ltb_lt. intros [Hm Hs].
  destruct (N.lt_ge_cases c 127) as [Hlt|Hge]; [rewrite ascii_esc_low by done; apply scan_esc|].
  destruct (esc_char_cases c) as [(-> & _)|(e & r & _ & Hc)]; [|lia]. cbn [flat_map]. rewrite app_nil_r.
  unfold ascii_escape. destruct (in_range 32 126 c) eqn:Er; [unfold in_range in Er; rewrite andb_true_iff, !N.leb_le in Er; lia|].
  destruct (N.ltb_spec c 65536).
  { apply scan_unit; [done|]. unfold in_range. apply andb_false_iff in Hs as [Hs|Hs]; rewrite N.leb_gt in Hs;
      apply andb_false_iff; rewrite !N.leb_gt; lia. }
  rewrite <-app_assoc. set (d := (c - 65536)%N). assert (d < 1048576)%N as Hd by (unfold d; lia).
  assert (N.land d 1023 < 1024)%N as Hlo by (change 1023%N with (N.ones 10); rewrite N.land_ones; by apply N.mod_lt).
  assert (N.shiftr d 10 < 1024)%N as Hhi by (rewrite N.shiftr_div_pow2; apply N.Div0.div_lt_upper_bound; done).
  rewrite scan_pair by (unfold in_range; rewrite andb_true_iff, !N.leb_le; lia). f_equal. unfold join_units.
  change 1023%N with (N.ones 10). rewrite N.land_ones, N.shiftr_div_pow2. change (2 ^ 10)%N with 1024%N. unfold d in *.
  zify; Z.to_euclidean_division_equations; lia.
Qed.

Lemma scan_quote s r : scan_string (flat_map esc_char s ++ 34%N :: r) = Some (s, r).
Proof. induction s as [|c s IH]; cbn [flat_map app]; [done|]. by rewrite <-app_assoc, scan_esc, IH. Qed.
Lemma scan_ascii_quote s r : code_text s = true ->
  scan_string (flat_map ascii_escape (flat_map esc_char s) ++ 34%N :: r) = Some (s, r).
Proof.
  induction s as [|c s IH]; cbn [flat_map code_text forallb]; [done|]. intros [Hc Hs]%andb_true_iff.
  by rewrite flat_map_app, <-app_assoc, scan_ascii_esc, IH.
Qed.

(** A way to write strings that [scan_string] undoes. *)
Definition quoting (q : pystr -> pystr) : Prop :=
  forall s, code_text s = true -> exists body, q s = 34%N :: body /\ forall r, scan_string (body ++ r) = Some (s, r).
Lemma quoting_quote : quoting quote.
Proof.
  intros s _. eexists. split; [reflexivity|]. intros r. rewrite <-app_assoc. apply scan_quote.
Qed.
Lemma quoting_ascii : quoting ascii_quote.
Proof.
  intros s Hs. exists (flat_map ascii_escape (flat_map esc_char s) ++ [34%N]). split.
  - unfold ascii_quote, quote. rewrite !flat_map_app. done.
  - intros r. rewrite <-app_assoc. by apply scan_ascii_quote.
Qed.

(** ** Integers *)

Definition uint_chars (d : Decimal.uint) : pystr :=
  Ascii.N_of_ascii <$> String.list_ascii_of_string (DecimalString.NilEmpty.string_of_uint d).
Lemma uint_chars_digits d : forallb ascii_digit (uint_chars d) = true.
Proof. induction d; cbn; done. Qed.
Definition digits_from (n : Z) (s : pystr) : Z := foldl (fun n c => n * 10 + (Z.of_N c - 48)) n s.
Lemma digits_from_acc d p : digits_from (Zpos p) (uint_chars d) = Zpos (Pos.of_uint_acc d p).
Proof.
  revert p. unfold digits_from. induction d as [|d IH|d IH|d IH|d IH|d IH|d IH|d IH|d IH|d IH|d IH]; intros p; [done|..];
    cbn [Pos.of_uint_acc]; rewrite <-IH; cbn [uint_chars DecimalString.NilEmpty.string_of_uint String.list_ascii_of_string fmap list_fmap foldl];
    fold (uint_chars d); f_equal; cbn; lia.
Qed.
Lemma digits_value_uint d : digits_value (uint_chars d) = Z.of_N (Pos.of_uint d).
Proof.
  change (digits_value (uint_chars d)) with (digits_from 0 (uint_chars d)).
  induction d as [|d IH|d IH|d IH|d IH|d IH|d IH|d IH|d IH|d IH|d IH]; [done|exact IH|..];
    cbn [Pos.of_uint Z.of_N]; rewrite <-digits_from_acc; done.
Qed.

Lemma head_not_zero d : match Decimal.nzhead d with Decimal.D0 _ => False | _ => True end.
Proof. induction d; cbn; done. Qed.
Lemma to_uint_head p : match Pos.to_uint p with Decimal.D0 _ | Decimal.Nil => False | _ => True end.
Proof.
  pose proof (DecimalPos.Unsigned.to_of (Pos.to_uint p)) as H. rewrite DecimalPos.Unsigned.of_to in H. cbn in H.
  pose proof (DecimalPos.Unsigned.to_uint_nonnil p) as Hn. pose proof (DecimalPos.Unsigned.to_uint_nonzero p) as Hz.
  pose proof (head_not_zero (Pos.to_uint p)) as Hh. unfold Decimal.unorm in H.
  destruct (Decimal.nzhead (Pos.to_uint p)) eqn:E; rewrite H; done.
Qed.

(** The text behind a number does not go on with it. *)
Definition stops (r : pystr) : Prop :=
  match r with [] => True | c :: _ => ascii_digit c = false /\ c <> 46%N /\ c <> 101%N /\ c <> 69%N end.
Lemma span_all p s r : forallb p s = true -> match r with [] => True | c :: _ => p c = false end -> span p (s ++ r) = (s, r).
Proof.
  intros Hs Hr. induction s as [|c s IH].
  - destruct r as [|c r]; [done|]. cbn. by rewrite Hr.
  - cbn in Hs. apply andb_true_iff in Hs as [Hc Hs]. cbn [app span]. by rewrite Hc, IH.
Qed.
Lemma no_fraction r : stops r -> fraction r = ([], r).
Proof. destruct r as [|c r]; [done|]. intros (_ & H & _). cbn. by rewrite (proj2 (N.eqb_neq _ _) H). Qed.
Lemma no_exponent r : stops r -> exponent r = (None, r).
Proof.
  destruct r as [|c r]; [done|]. intros (_ & _ & H1 & H2). cbn.
  by rewrite (proj2 (N.eqb_neq _ _) H1), (proj2 (N.eqb_neq _ _) H2).
Qed.

(** The digits of a natural number, without a leading zero. *)
Definition nat_digits (n : N) : pystr := match n with N0 => [48%N] | Npos p => uint_chars (Pos.to_uint p) end.
Lemma show_Z_digits z : show_Z z = (if z <? 0 then [45%N] else []) ++ nat_digits (Z.abs_N z).
Proof.
  rewrite show_Z_bytes. destruct z as [|p|p]; [done|..]; cbn [Z.to_int Z.ltb Z.compare Z.abs_N nat_digits];
    unfold DecimalString.NilZero.string_of_int, DecimalString.NilZero.string_of_uint, uint_chars;
    pose proof (to_uint_head p); by destruct (Pos.to_uint p).
Qed.
Lemma nat_digits_value n : digits_value (nat_digits n) = Z.of_N n.
Proof. destruct n as [|p]; [done|]. unfold nat_digits. by rewrite digits_value_uint, DecimalPos.Unsigned.of_to. Qed.
Lemma nat_digits_head n :
  exists c t, nat_digits n = c :: t /\ ascii_digit c = true /\ forallb ascii_digit t = true /\ (c = 48%N -> t = []).
Proof.
  destruct n as [|p]; [by exists 48%N, []|]. unfold nat_digits. pose proof (to_uint_head p) as Hh.
  pose proof (uint_chars_digits (Pos.to_uint p)) as Hd.
  destruct (Pos.to_uint p); try done; eexists _, (uint_chars _); (split; [reflexivity|split; [done|split; [|done]]]);
    apply uint_chars_digits.
Qed.

Lemma scan_digits b n r : (length (nat_digits n) <= INT_MAX_STR_DIGITS)%nat -> stops r ->
  scan_unsigned b (nat_digits n ++ r) = Ok (JInt (if b then - Z.of_N n else Z.of_N n), r).
Proof.
  intros Hlen Hr. destruct (nat_digits_head n) as (c & t & E & Hc & Ht & H0).
  assert ((if (c =? 48)%N then ([c], t ++ r) else span ascii_digit (c :: t ++ r)) = (nat_digits n, r)) as Hspan.
  { rewrite E. destruct (N.eqb_spec c 48) as [E48|]; [by rewrite (H0 E48)|]. apply (span_all ascii_digit (c :: t) r).
    - cbn. by rewrite Hc.
    - destruct r; [done|]. by destruct Hr. }
  replace (nat_digits n ++ r) with (c :: t ++ r) by (by rewrite E). unfold scan_unsigned. rewrite Hc. cbn [negb]. rewrite Hspan, no_fraction, no_exponent by done.
  unfold int_of_digits. rewrite (proj2 (Nat.ltb_ge _ _) Hlen). by rewrite nat_digits_value.
Qed.
Lemma scan_show_Z z r : printable z = true -> stops r -> scan_number (show_Z z ++ r) = Ok (JInt z, r).
Proof.
  unfold printable. rewrite !show_Z_digits. destruct (Z.ltb_spec (Z.abs z) 0) as [?|_]; [lia|].
  replace (Z.abs_N (Z.abs z)) with (Z.abs_N z) by lia. cbn [app]. intros Hlen%Nat.leb_le Hr. destruct (nat_digits_head (Z.abs_N z)) as (c & t & E & Hc & _).
  assert (scan_number ((if z <? 0 then [45%N] else []) ++ nat_digits (Z.abs_N z) ++ r)
    = scan_unsigned (z <? 0) (nat_digits (Z.abs_N z) ++ r)) as H.
  { destruct (z <? 0); [done|]. rewrite E. unfold scan_number. cbn [app]. destruct (N.eqb_spec c 45) as [->|]; done. }
  rewrite <-app_assoc, H, scan_digits by (done || lia). do 3 f_equal. destruct (Z.ltb_spec z 0); lia.
Qed.

(** ** Values *)

Section loads.
Context {host : PyHost} (hook : list (pystr * json) -> result exn json) (constant : pystr -> result exn json).
(** The hook keeps an object without repeated keys. *)
Hypothesis keeps : forall d, NoDup (dkeys d) -> hook d = Ok (JObj d).
Context (q : pystr -> pystr) (Hq : quoting q).
Abbreviation scan := (scan_once hook constant).

(** [s] is the text of [v] for a reader [item]. *)
Definition reads (item : pystr -> read json) (s : pystr) (v : json) : Prop :=
  (exists c t, s = c :: t /\ json_space c = false /\ c <> 93%N /\ (c < 128)%N) /\ forall r, stops r -> item (s ++ r) = Ok (v, r).

Definition blank (s : pystr) : Prop := forallb json_space s = true.
Lemma skip_blank b s : blank b -> match s with [] => True | c :: _ => json_space c = false end -> skip_space (b ++ s) = s.
Proof.
  unfold blank, skip_space. intros Hb Hs. induction b as [|c b IH].
  - destruct s as [|c s]; [done|]. cbn. by rewrite Hs.
  - cbn in Hb. apply andb_true_iff in Hb as [Hc Hb]. cbn. by rewrite Hc, IH.
Qed.
Lemma skip_first c s : json_space c = false -> skip_space (c :: s) = c :: s.
Proof. intros H. unfold skip_space. cbn. by rewrite H. Qed.
Lemma stops_blank b c s : blank b -> json_space c = false -> ascii_digit c = false -> c <> 46%N -> c <> 101%N -> c <> 69%N ->
  stops (b ++ c :: s).
Proof.
  destruct b as [|x b]; [intros; cbn; by split_and!|]. unfold blank. cbn [forallb app]. intros [Hx _]%andb_true_iff _ _ _ _ _.
  cbn. unfold json_space in Hx. rewrite !orb_true_iff, !N.eqb_eq in Hx. destruct Hx as [[[->| ->]| ->]| ->]; done.
Qed.

Ltac stop_mark := (apply stops_blank; [assumption|reflexivity|reflexivity|discriminate..]).

Lemma array_reads item texts values b1 b2 fuel r :
  Forall2 (reads item) texts values -> texts <> [] -> blank b1 -> blank b2 -> (length texts <= fuel)%nat ->
  array_items item fuel (join (44%N :: b1) texts ++ b2 ++ 93%N :: r) = Ok (values, r).
Proof.
  intros H Hne Hb1 Hb2. revert fuel. induction H as [|s v texts values [(c & t & -> & Hsp & _) Hs] H IH]; [done|].
  intros [|fuel] Hf; [cbn in Hf; lia|]. cbn [length] in Hf. cbn [array_items]. destruct H as [|s' v' texts values Hs' H].
  - cbn [join]. rewrite Hs by stop_mark. cbn. by rewrite skip_blank.
  - rewrite join_cons_nonnil by done. rewrite <-app_assoc, Hs by (cbn; done). cbn [mbind result_bind].
    pose proof Hs' as [(c' & t' & Et & Hsp' & _) _].
    assert (skip_space (b1 ++ join (44%N :: b1) (s' :: texts) ++ b2 ++ 93%N :: r)
      = join (44%N :: b1) (s' :: texts) ++ b2 ++ 93%N :: r) as Hskip.
    { apply skip_blank; [done|]. rewrite Et. by destruct texts. }
    cbn [app]. rewrite <-app_assoc, skip_first by done. cbn [N.eqb Pos.eqb]. rewrite Hskip, IH by (done || lia). done.
Qed.

(** A member: the key, a colon and blanks, the value. *)
Definition member (b : pystr) (k s : pystr) : pystr := q k ++ 58%N :: b ++ s.
Lemma object_reads item (kts : list (pystr * pystr)) values b b1 b2 fuel r :
  Forall2 (fun kt v => code_text (fst kt) = true /\ reads item (snd kt) v) kts values -> kts <> [] ->
  blank b -> blank b1 -> blank b2 -> (length kts <= fuel)%nat ->
  object_items item fuel (join (44%N :: b1) ((fun kt => member b (fst kt) (snd kt)) <$> kts) ++ b2 ++ 125%N :: r)
  = Ok (zip (fst <$> kts) values, r).
Proof.
  intros H Hne Hb Hb1 Hb2. revert fuel. induction H as [|[k s] v kts values [Hk [(c & t & Hcs & Hsp & _) Hs]] H IH]; [done|].
  intros [|fuel] Hf; [cbn in Hf; lia|]. cbn [length fst snd] in *. destruct (Hq k Hk) as (body & Ek & Hbody).
  assert (forall rest, object_items item (S fuel) (member b k s ++ rest) =
    ('(v, r2) ← item (s ++ rest);
     match skip_space r2 with
     | c :: r3 => if (c =? 125)%N then Ok ([(k, v)], r3)
                  else if (c =? 44)%N then '(kvs, r4) ← object_items item fuel (skip_space r3); Ok ((k, v) :: kvs, r4)
                  else malformed
     | [] => malformed
     end)) as Hfirst.
  { intros rest. unfold member. rewrite Ek, <-!app_assoc. cbn [app object_items N.eqb Pos.eqb negb]. rewrite Hbody.
    rewrite skip_first by done. cbn [N.eqb Pos.eqb negb]. rewrite <-app_assoc, skip_blank; [done..|]. by rewrite Hcs. }
  destruct H as [|[k' s'] v' kts values [Hk' Hs'] H].
  - cbn [fmap list_fmap join fst snd]. rewrite Hfirst, Hs by stop_mark. cbn [mbind result_bind]. by rewrite skip_blank.
  - rewrite (fmap_cons _ (k, s)), join_cons_nonnil by done. cbn [fst snd]. rewrite <-app_assoc, Hfirst, Hs by (cbn; done).
    cbn [mbind result_bind app]. rewrite <-app_assoc, skip_first by done. cbn [N.eqb Pos.eqb].
    destruct (Hq k' Hk') as (body' & Ek' & _). rewrite skip_blank; [|done|].
    + rewrite IH by (done || lia). done.
    + rewrite fmap_cons. unfold member at 1. cbn [fst snd]. rewrite Ek'. by destruct kts.
Qed.

Lemma length_join_le sep l : Forall (fun s : pystr => s <> []) l -> (length l <= length (join sep l))%nat.
Proof.
  induction 1 as [|s l Hs Hl IH]; [done|]. assert (1 <= length s)%nat by (destruct s; [done|cbn; lia]).
  destruct l as [|s' l]; [cbn; lia|]. rewrite join_cons_nonnil, !length_app by done. cbn [length] in *. lia.
Qed.

Lemma reads_array depth texts values b0 b1 b2 :
  Forall2 (reads (scan depth)) texts values -> texts <> [] -> blank b0 -> blank b1 -> blank b2 ->
  reads (scan (S depth)) ([91%N] ++ b0 ++ join (44%N :: b1) texts ++ b2 ++ [93%N]) (JList values).
Proof.
  intros H Hne Hb0 Hb1 Hb2. split; [by eexists _, _|]. intros r _. cbn [app scan_once scan_value N.eqb Pos.eqb orb].
  rewrite <-!app_assoc. cbn [app].
  assert (exists x y, join (44%N :: b1) texts = x :: y /\ json_space x = false /\ x <> 93%N) as (x & y & Ej & Hx & Hx93).
  { destruct H as [|s v texts values [(x & y & -> & Hx & Hx93 & _) _] H]; [done|].
    destruct texts as [|s' texts]; [by exists x, y|]. rewrite join_cons_nonnil by done. by eexists x, _. }
  rewrite skip_blank; [|done|by rewrite Ej].
  assert (forall A (f : N -> pystr -> A) (g : A), match join (44%N :: b1) texts ++ b2 ++ 93%N :: r with
    | [] => g | c :: t => f c t end = f x (y ++ b2 ++ 93%N :: r)) as -> by (intros; by rewrite Ej).
  rewrite (proj2 (N.eqb_neq _ _) Hx93). rewrite (array_reads _ _ values); try done.
  rewrite length_app. etrans; [apply length_join_le|apply Nat.le_add_r].
  eapply Forall2_Forall_l; [exact H|]. apply Forall_forall. intros v _ s [(c & t & -> & _) _]. done.
Qed.

Lemma reads_object depth (kts : list (pystr * pystr)) values b b0 b1 b2 :
  Forall2 (fun kt v => code_text (fst kt) = true /\ reads (scan depth) (snd kt) v) kts values -> kts <> [] ->
  NoDup (fst <$> kts) -> blank b -> blank b0 -> blank b1 -> blank b2 ->
  reads (scan (S depth))
    ([123%N] ++ b0 ++ join (44%N :: b1) ((fun kt => member b (fst kt) (snd kt)) <$> kts) ++ b2 ++ [125%N])
    (JObj (zip (fst <$> kts) values)).
Proof.
  intros H Hne Hn Hb Hb0 Hb1 Hb2. split; [by eexists _, _|]. intros r _. cbn [app scan_once scan_value N.eqb Pos.eqb orb].
  rewrite <-!app_assoc. cbn [app]. set (ms := (fun kt => member b (fst kt) (snd kt)) <$> kts).
  assert (exists y, join (44%N :: b1) ms = 34%N :: y) as (y & Ej).
  { unfold ms. destruct H as [|[k s] v kts values [Hk _] H]; [done|]. destruct (Hq k Hk) as (body & Ek & _).
    destruct kts as [|kt kts]; cbn [fmap list_fmap join fst snd]; unfold member at 1; rewrite Ek; by eexists. }
  rewrite skip_blank; [|done|by rewrite Ej].
  assert (forall A (f : N -> pystr -> A) (g : A), match join (44%N :: b1) ms ++ b2 ++ 125%N :: r with
    | [] => g | c :: t => f c t end = f 34%N (y ++ b2 ++ 125%N :: r)) as -> by (intros; by rewrite Ej).
  cbn [N.eqb Pos.eqb]. unfold ms. rewrite (object_reads _ _ values); try done.
  - cbn [mbind result_bind]. rewrite keeps; [done|]. unfold dkeys. rewrite fst_zip; [done|].
    rewrite length_fmap. by rewrite (Forall2_length _ _ _ H).
  - rewrite length_app, <-(length_fmap (fun kt => member b (fst kt) (snd kt)) kts).
    etrans; [apply length_join_le|apply Nat.le_add_r]. apply Forall_fmap, Forall_forall. intros kt _. cbn.
    unfold member. intros [_ ?]%app_nil. done.
Qed.

(** Values that come back: no float, strings of characters, keys that differ, and integers that can be
    printed. *)
Fixpoint storable (v : json) : bool :=
  match v with
  | JNull | JBool _ => true
  | JInt z => printable z
  | JFloat _ => false
  | JStr s => code_text s
  | JList l => forallb storable l
  | JObj d => bool_decide (NoDup (dkeys d)) && forallb (fun kv => code_text (fst kv) && storable (snd kv)) d
  end.
Fixpoint nesting (v : json) : nat :=
  match v with
  | JList l => S (list_max (nesting <$> l))
  | JObj d => S (list_max ((fun kv => nesting (snd kv)) <$> d))
  | _ => O
  end.
Lemma list_max_elem n l : n ∈ l -> (n <= list_max l)%nat.
Proof. induction l as [|m l IH]; [by intros ?%not_elem_of_nil|].
  change (list_max (m :: l)) with (Nat.max m (list_max l)). intros [->|H]%elem_of_cons; [lia|]. apply IH in H. lia.
Qed.

(** Atoms are read at any depth, a string included. *)
Lemma scan_atoms depth c s : (c =? 34)%N = false -> (c =? 123)%N = false -> (c =? 91)%N = false ->
  scan depth (c :: s) = scan_atom constant (c :: s).
Proof. intros H1 H2 H3. destruct depth; cbn [scan_once scan_value]; by rewrite H1, H2, H3. Qed.

Lemma scan_atom_int z r : stops r -> printable z = true ->
  scan_atom constant (show_Z z ++ r) = Ok (JInt z, r).
Proof.
  intros Hr Hl. rewrite <-(scan_show_Z z r) by done. unfold scan_atom.
  destruct (find _ _) as [p|] eqn:Ef; [exfalso|done]. apply find_some in Ef as [Hin [u Hu]%startswith_spec].
  destruct (nat_digits_head (Z.abs_N z)) as (c & t & E & Hc & _). rewrite show_Z_digits, E in Hu. clear E Hl.
  apply (f_equal (fun s => (head s, head (tail s)))) in Hu.
  unfold literals in Hin. cbn [In] in Hin.
  destruct (z <? 0); destruct Hin as [<-|[<-|[<-|[<-|[<-|[<-|[]]]]]]]; vm_compute in Hu; try discriminate Hu;
    injection Hu; intros; subst; discriminate Hc.
Qed.

Lemma blank_newline n : blank (newline n).
Proof. unfold blank, newline. generalize (2 * n)%nat. intros m. induction m as [|m IH]; [done|]. exact IH. Qed.

Lemma int_head z : exists c t, show_Z z = c :: t /\ json_space c = false /\ c <> 93%N /\ (c < 128)%N /\
  (c =? 34)%N = false /\ (c =? 123)%N = false /\ (c =? 91)%N = false.
Proof.
  destruct (show_Z_nonempty z) as (c & t & E & Hc). exists c, t. split; [done|]. unfold num_char, ascii_digit, in_range in Hc.
  unfold json_space. rewrite orb_true_iff, andb_true_iff, !N.leb_le, N.eqb_eq in Hc.
  split_and!; [repeat (apply orb_false_iff; split); apply N.eqb_neq; lia|lia|lia|apply N.eqb_neq; lia..].
Qed.
Lemma reads_int depth z : printable z = true -> reads (scan depth) (show_Z z) (JInt z).
Proof.
  intros Hl. destruct (int_head z) as (c & t & E & Hs & H93 & H128 & H34 & H123 & H91). split; [by exists c, t|].
  intros r Hr. rewrite <-(scan_atom_int z r) by done. rewrite E. by apply scan_atoms.
Qed.
Lemma reads_string depth s : code_text s = true -> reads (scan depth) (q s) (JStr s).
Proof.
  intros Hs. destruct (Hq s Hs) as (body & E & Hb). split; [rewrite E; by eexists _, _|]. intros r _. rewrite E.
  destruct depth; cbn [app scan_once scan_value N.eqb Pos.eqb]; by rewrite Hb.
Qed.

(** The value, written at any depth of indentation. *)
Lemma reads_indented v : storable v = true -> forall level depth, (nesting v <= depth)%nat ->
  reads (scan depth) (indented_with q level v) (norm v).
Proof.
  induction v as [|[]|z|f|s|l IH|d IH] using json_ind; intros Hp level depth Hd.
  1-3: split; [by eexists _, _|]; intros r _; destruct depth; reflexivity.
  - by apply reads_int.
  - done.
  - by apply reads_string.
  - destruct depth as [|depth]; [cbn in Hd; lia|]. cbn [storable] in Hp. rewrite forallb_forall in Hp.
    assert (Forall2 (reads (scan depth)) (indented_with q (S level) <$> l) (norm <$> l)) as HF.
    { apply Forall2_fmap, Forall_Forall2_diag. rewrite Forall_forall in IH |- *. intros v Hv.
      apply IH; [done|by apply Hp, list_elem_of_In|]. cbn [nesting] in Hd.
      pose proof (list_max_elem (nesting v) (nesting <$> l) (list_elem_of_fmap_2 _ _ _ Hv)). lia. }
    cbn [indented_with norm]. destruct l as [|v l].
    { split; [by eexists _, _|]. intros r _. reflexivity. }
    apply (reads_array depth _ _ (newline (S level)) (newline (S level)) (newline level) HF); done || apply blank_newline.
  - destruct depth as [|depth]; [cbn in Hd; lia|]. cbn [storable] in Hp. apply andb_true_iff in Hp as [Hn Hp].
    apply bool_decide_eq_true in Hn. rewrite forallb_forall in Hp. rewrite norm_obj. cbn [indented_with].
    rewrite sort_items_fmap. set (ds := sort_items d). assert (ds ≡ₚ d) as Hperm by apply sort_by_perm.
    set (kts := (fun kv => (fst kv, indented_with q (S level) (snd kv))) <$> ds).
    assert (Forall2 (fun kt v => code_text (fst kt) = true /\ reads (scan depth) (snd kt) v) kts (norm ∘ snd <$> ds)) as HF.
    { apply Forall2_fmap, Forall_Forall2_diag. rewrite Forall_forall in IH |- *. intros kv Hkv. rewrite Hperm in Hkv.
      pose proof (Hp kv ltac:(by apply list_elem_of_In)) as [Hk Hv]%andb_true_iff. split; [done|].
      apply IH; [done..|]. cbn [nesting] in Hd.
      pose proof (list_max_elem _ _ (list_elem_of_fmap_2 (fun kv => nesting (snd kv)) _ _ Hkv)). cbn beta in *. lia. }
    assert (NoDup (fst <$> kts)) as Hkeys.
    { unfold kts. rewrite <-list_fmap_compose. change (NoDup (dkeys ds)). unfold dkeys. by rewrite Hperm. }
    assert (JObj ((fun kv => (fst kv, norm (snd kv))) <$> ds) = JObj (zip (fst <$> kts) (norm ∘ snd <$> ds))) as ->.
    { f_equal. unfold kts. rewrite <-list_fmap_compose. clear. induction ds as [|kv ds IH]; [done|]. cbn. by rewrite IH. }
    destruct ds as [|kv ds].
    { split; [by eexists _, _|]. intros r _. cbn. by rewrite keeps by constructor. }
    apply (reads_object depth kts _ [32%N] (newline (S level)) (newline (S level)) (newline level) HF); done || apply blank_newline.
Qed.

(** A whole document, a newline behind it. *)
Lemma loads_indented v : storable v = true -> (nesting v <= host_json_depth)%nat ->
  loads hook constant (indented_with q 0 v ++ [10%N]) = Ok (norm v).
Proof.
  intros Hp Hn. destruct (reads_indented v Hp 0 _ Hn) as [(c & t & E & Hs & _ & Hc) Hr]. unfold loads.
  assert (startswith [65279%N] (indented_with q 0 v ++ [10%N]) = false) as ->.
  { rewrite E. apply not_true_iff_false. intros [u [= -> _]]%startswith_spec. done. }
  assert (skip_space (indented_with q 0 v ++ [10%N]) = indented_with q 0 v ++ [10%N]) as ->
    by (rewrite E; by apply skip_first).
  by rewrite Hr.
Qed.
End loads.

(** The default hook keeps what has no repeated key. *)
Lemma plain_object_keeps d : NoDup (dkeys d) -> plain_object d = Ok (JObj d).
Proof.
  intros Hd. unfold plain_object. do 2 f_equal. change d with ([] ++ d) at 2.
  assert (NoDup (dkeys ([] ++ d))) as Hn by done. clear Hd. revert Hn. generalize (@nil (pystr * json)) as acc.
  induction d as [|[k v] d IH]; intros acc Hn; cbn; [by rewrite app_nil_r|].
  rewrite dset_fresh.
  - rewrite IH, <-app_assoc; [done|]. by rewrite <-app_assoc.
  - unfold dkeys in Hn. rewrite fmap_app in Hn. apply NoDup_app in Hn as (_ & Hn & _).
    intros Hin. destruct (Hn k Hin). cbn. by left.
Qed.

(** ** The text is text *)

Lemma plain_app a b : code_text (a ++ b) = code_text a && code_text b.
Proof. apply forallb_app. Qed.
Lemma plain_join sep l : code_text sep = true -> Forall (fun s => code_text s = true) l -> code_text (join sep l) = true.
Proof.
  intros Hs. induction 1 as [|s l Hx Hl IH]; [done|]. destruct l as [|y l]; [done|].
  rewrite join_cons_nonnil, !plain_app by done. by rewrite Hx, Hs, IH.
Qed.
Lemma plain_newline n : code_text (newline n) = true.
Proof. unfold newline. generalize (2 * n)%nat. intros m. rewrite plain_app. cbn. induction m as [|m IH]; [done|]. exact IH. Qed.
Lemma plain_bracketed n l r parts : code_char l = true -> code_char r = true ->
  Forall (fun s => code_text s = true) parts -> code_text (bracketed n l r parts) = true.
Proof.
  intros Hl Hr Hp. unfold bracketed. assert (code_text [l] = true) as El by (cbn; by rewrite Hl).
  assert (code_text [r] = true) as Er by (cbn; by rewrite Hr).
  destruct parts as [|s parts]; [cbn; by rewrite Hl, Hr|]. rewrite !plain_app, El, Er, !plain_newline.
  rewrite plain_join; [done| |done]. by rewrite plain_app, plain_newline.
Qed.

Definition esc_checks : bool := forallb (fun c => code_text (esc_char c)) (N.of_nat <$> seq 0 128).
Definition digit_checks : bool := forallb (fun n => code_char (hex_digit n)) (N.of_nat <$> seq 0 16).
Lemma code_esc_char c : code_char c = true -> code_text (esc_char c) = true.
Proof.
  intros Hc. destruct (N.lt_ge_cases c 128) as [Hlt|Hge].
  - assert (esc_checks = true) as H by (vm_compute; reflexivity). unfold esc_checks in H. rewrite forallb_forall in H.
    apply H, list_elem_of_In, list_elem_of_fmap. exists (N.to_nat c). split; [lia|]. apply elem_of_seq. lia.
  - destruct (esc_char_cases c) as [(-> & _)|(e & r & _ & ?)]; [|lia]. cbn. by rewrite Hc.
Qed.
Lemma code_hex_digit n : (n < 16)%N -> code_char (hex_digit n) = true.
Proof.
  intros Hn. assert (digit_checks = true) as H by (vm_compute; reflexivity). unfold digit_checks in H. rewrite forallb_forall in H.
  apply H, list_elem_of_In, list_elem_of_fmap. exists (N.to_nat n). split; [lia|]. apply elem_of_seq. lia.
Qed.
Lemma code_escape_unit u : code_text (escape_unit u) = true.
Proof.
  unfold escape_unit, hex_pad. cbn [rev seq app fmap list_fmap code_text forallb].
  rewrite !code_hex_digit; [done|..]; change 15%N with (N.ones 4); rewrite N.land_ones; by apply N.mod_lt.
Qed.
Lemma code_ascii_escape c : code_text (ascii_escape c) = true.
Proof.
  unfold ascii_escape. destruct (in_range 32 126 c) eqn:E.
  - unfold in_range in E. rewrite andb_true_iff, !N.leb_le in E. cbn. rewrite andb_true_r. unfold code_char, is_surrogate.
    rewrite andb_true_iff, negb_true_iff, andb_false_iff, N.ltb_lt, !N.leb_gt. lia.
  - destruct (c <? 65536)%N; [apply code_escape_unit|]. by rewrite plain_app, !code_escape_unit.
Qed.
Lemma code_flat_map (f : N -> pystr) s : (forall c, c ∈ s -> code_text (f c) = true) -> code_text (flat_map f s) = true.
Proof.
  induction s as [|c s IH]; intros Hf; [done|]. cbn [flat_map]. rewrite plain_app, Hf by (by left). apply IH.
  intros; apply Hf. by right.
Qed.
Lemma code_quote s : code_text s = true -> code_text (quote s) = true.
Proof.
  intros Hs. unfold quote. rewrite !plain_app, code_flat_map; [done|]. intros c Hc%list_elem_of_In. apply code_esc_char.
  unfold code_text in Hs. rewrite forallb_forall in Hs. by apply Hs.
Qed.
Lemma code_ascii_quote s : code_text (ascii_quote s) = true.
Proof. apply code_flat_map. intros c _. apply code_ascii_escape. Qed.
Lemma code_show_Z z : code_text (show_Z z) = true.
Proof.
  apply forallb_forall. intros c Hc. pose proof (show_Z_chars z) as H. rewrite Forall_forall in H.
  apply list_elem_of_In, H in Hc. unfold num_char, ascii_digit, in_range in Hc.
  rewrite orb_true_iff, andb_true_iff, !N.leb_le, N.eqb_eq in Hc. unfold code_char, is_surrogate.
  rewrite andb_true_iff, negb_true_iff, andb_false_iff, N.ltb_lt, !N.leb_gt. lia.
Qed.

Lemma code_indented {host : PyHost} q v : (forall s, code_text s = true -> code_text (q s) = true) -> storable v = true ->
  forall level, code_text (indented_with q level v) = true.
Proof.
  intros Hq. induction v as [|[]|z|f|s|l IH|d IH] using json_ind; intros Hv level; try done.
  - apply code_show_Z.
  - by apply Hq.
  - cbn [indented_with]. apply plain_bracketed; [done..|]. apply Forall_fmap. cbn in Hv. rewrite forallb_forall in Hv.
    rewrite Forall_forall in IH |- *. intros v Hin. apply IH; [done|]. by apply Hv, list_elem_of_In.
  - cbn [indented_with]. rewrite sort_items_fmap, <-list_fmap_compose. apply plain_bracketed; [done..|].
    apply Forall_fmap, Forall_forall. intros kv Hin. apply elem_of_sort_by in Hin. cbn in Hv. apply andb_true_iff in Hv as [_ Hv].
    rewrite forallb_forall in Hv. specialize (Hv kv ltac:(by apply list_elem_of_In)). apply andb_true_iff in Hv as [Hk Hv].
    rewrite Forall_forall in IH. cbn. rewrite !plain_app, Hq by done. cbn. apply (IH kv); done.
Qed.
