(* ===== verification/Sha256.v ===== *)
(** * [hashlib.sha256] and [hmac]

    FIPS 180-4 SHA-256 on lists of bytes, with its 32-bit words kept at their width, the
    lower-case hexadecimal digest, and HMAC (RFC 2104).  Fingerprints, event identities, the
    journal cursor and the generation identity of the sources are such digests. *)

From S2P Require Import Prelude PyStr.
Open Scope N_scope.

Definition bytes : Type := list N.

(** ** 32-bit words *)

Definition mask32 : N := 0xffffffff.
Definition add32 (x y : N) : N := N.land (x + y) mask32.
Definition rotr (n x : N) : N :=
  N.land (N.lor (N.shiftr x n) (N.shiftl x (32 - n))) mask32.
Definition not32 (x : N) : N := N.lxor x mask32.
Definition ch (x y z : N) : N := N.lxor (N.land x y) (N.land (not32 x) z).
Definition maj (x y z : N) : N := N.lxor (N.lxor (N.land x y) (N.land x z)) (N.land y z).
Definition bsig0 (x : N) : N := N.lxor (N.lxor (rotr 2 x) (rotr 13 x)) (rotr 22 x).
Definition bsig1 (x : N) : N := N.lxor (N.lxor (rotr 6 x) (rotr 11 x)) (rotr 25 x).
Definition ssig0 (x : N) : N := N.lxor (N.lxor (rotr 7 x) (rotr 18 x)) (N.shiftr x 3).
Definition ssig1 (x : N) : N := N.lxor (N.lxor (rotr 17 x) (rotr 19 x)) (N.shiftr x 10).

(** The constants are the first 32 bits of the fractional parts of the cube roots and square
    roots of the first primes (FIPS 180-4, 4.2.2 and 5.3.3), computed here. *)
Definition is_prime (p : N) : bool :=
  (1 <? p) && forallb (fun d => negb (p mod (2 + N.of_nat d) =? 0)) (seq 0 (N.to_nat (N.sqrt p) - 1)).
Definition primes : list N := List.filter is_prime (N.of_nat <$> seq 0 312).

(** Integer cube root, from its highest bit down. *)
Fixpoint cbrt_bits (bits : nat) (acc x : N) : N :=
  match bits with
  | O => acc
  | S k =>
      let t := acc + N.shiftl 1 (N.of_nat k) in
      cbrt_bits k (if t * t * t <=? x then t else acc) x
  end.
Definition round_constants : list N :=
  Eval vm_compute in (fun p => N.land (cbrt_bits 36 0 (N.shiftl p 96)) mask32) <$> primes.
Definition initial_hash : list N :=
  Eval vm_compute in (fun p => N.land (N.sqrt (N.shiftl p 64)) mask32) <$> take 8 primes.

(** ** Padding and blocks *)

Definition be_bytes (n : nat) (x : N) : bytes :=
  (fun i => N.land (N.shiftr x (8 * N.of_nat i)) 255) <$> rev (seq 0 n).
Definition be_word (l : bytes) : N := foldl (fun acc b => acc * 256 + b) 0 l.

Definition pad (m : bytes) : bytes :=
  let len := length m in
  m ++ [128] ++ replicate ((119 - len mod 64) mod 64) 0 ++ be_bytes 8 (8 * N.of_nat len).

Fixpoint chunks (fuel : nat) (n : nat) (l : bytes) : list bytes :=
  match fuel, l with
  | O, _ | _, [] => []
  | S f, _ => take n l :: chunks f n (drop n l)
  end.

(** The message schedule, newest word first. *)
Fixpoint schedule (n : nat) (w : list N) : list N :=
  match n with
  | O => w
  | S n' =>
      let t i := nth i w 0 in
      schedule n' (add32 (add32 (ssig1 (t 1%nat)) (t 6%nat)) (add32 (ssig0 (t 14%nat)) (t 15%nat)) :: w)
  end.

Definition round (st : list N) (kw : N * N) : list N :=
  match st with
  | [a; b; c; d; e; f; g; h] =>
      let t1 := add32 (add32 (add32 h (bsig1 e)) (add32 (ch e f g) (fst kw))) (snd kw) in
      let t2 := add32 (bsig0 a) (maj a b c) in
      [add32 t1 t2; a; b; c; add32 d t1; e; f; g]
  | _ => st
  end.

Definition compress (st : list N) (block : bytes) : list N :=
  let w := rev (schedule 48 (rev (be_word <$> chunks 16 4 block))) in
  zip_with add32 st (foldl round st (zip round_constants w)).

Definition sha256 (m : bytes) : bytes :=
  let p := pad m in
  concat (be_bytes 4 <$> foldl compress initial_hash (chunks (length p) 64 p)).

(** [hexdigest()] *)
Definition hex_of_bytes (l : bytes) : pystr :=
  flat_map (fun b => [hex_digit (N.shiftr b 4); hex_digit (N.land b 15)]) l.
Definition sha256_hex (m : bytes) : pystr := hex_of_bytes (sha256 m).

(** [hmac.new(key, message, hashlib.sha256).digest()] *)
Definition hmac_sha256 (key message : bytes) : bytes :=
  let k0 := if (64 <? N.of_nat (length key)) then sha256 key else key in
  let k := k0 ++ replicate (64 - length k0) 0 in
  sha256 ((N.lxor 0x5c <$> k) ++ sha256 ((N.lxor 0x36 <$> k) ++ message)).

(** ** Lemmas *)

Lemma hex_digit_lower n : n < 16 -> lower_hex (hex_digit n) = true.
Proof.
  intros H. unfold lower_hex, hex_digit, ascii_digit, in_range.
  destruct (N.ltb_spec n 10); rewrite orb_true_iff, !andb_true_iff, !N.leb_le; lia.
Qed.

Lemma length_hex_of_bytes l : length (hex_of_bytes l) = (2 * length l)%nat.
Proof. unfold hex_of_bytes. induction l; cbn; lia. Qed.

Lemma hex_of_bytes_lower l :
  Forall (fun b => b < 256) l -> Forall (fun c => lower_hex c = true) (hex_of_bytes l).
Proof.
  induction 1 as [|b l Hb _ IH]; cbn; [done|]. repeat constructor; [| |done].
  - apply hex_digit_lower. rewrite N.shiftr_div_pow2. apply N.Div0.div_lt_upper_bound. cbn. lia.
  - apply hex_digit_lower. change 15 with (N.ones 4). rewrite N.land_ones.
    apply N.mod_lt. done.
Qed.

Lemma be_bytes_bound n x : Forall (fun b => b < 256) (be_bytes n x).
Proof.
  unfold be_bytes. apply Forall_fmap, Forall_forall. intros i _. cbn.
  change 255 with (N.ones 8). rewrite N.land_ones. by apply N.mod_lt.
Qed.

Lemma length_round st kw : length (round st kw) = length st.
Proof. unfold round. by repeat (destruct st as [|? st]; try done). Qed.

Lemma length_round_all l st : length (foldl round st l) = length st.
Proof. revert st; induction l as [|x l IH]; intros st; cbn; [done|]. by rewrite IH, length_round. Qed.

Lemma length_compress st b : length (compress st b) = length st.
Proof. unfold compress. rewrite length_zip_with, length_round_all. lia. Qed.

Lemma length_compress_all l st : length (foldl compress st l) = length st.
Proof. revert st; induction l as [|x l IH]; intros st; cbn; [done|]. by rewrite IH, length_compress. Qed.

Lemma length_concat_const {A} (l : list (list A)) n :
  Forall (fun x => length x = n) l -> length (concat l) = (n * length l)%nat.
Proof. induction 1; cbn; [lia|]. rewrite length_app. lia. Qed.

Lemma length_be_bytes n x : length (be_bytes n x) = n.
Proof. unfold be_bytes. by rewrite length_fmap, length_rev, length_seq. Qed.

Lemma length_sha256 m : length (sha256 m) = 32%nat.
Proof.
  unfold sha256. rewrite (length_concat_const _ 4).
  - by rewrite length_fmap, length_compress_all.
  - apply Forall_fmap, Forall_forall. intros. apply length_be_bytes.
Qed.

Lemma sha256_bytes m : Forall (fun b => b < 256) (sha256 m).
Proof.
  unfold sha256. apply Forall_concat, Forall_fmap, Forall_forall. intros. apply be_bytes_bound.
Qed.

(** The bytes of a number that fits give it back. *)
Lemma be_bytes_inj k x y : (x < 2 ^ (8 * N.of_nat k))%N -> (y < 2 ^ (8 * N.of_nat k))%N -> be_bytes k x = be_bytes k y -> x = y.
Proof.
  unfold be_bytes. intros Hx Hy E. apply N.bits_inj. intros i.
  assert (forall j, (j < k)%nat -> N.land (N.shiftr x (8 * N.of_nat j)) 255 = N.land (N.shiftr y (8 * N.of_nat j)) 255) as Hj.
  { intros j Hj. apply (proj1 map_ext_in_iff E). apply in_rev. rewrite rev_involutive. apply in_seq. lia. }
  destruct (N.lt_ge_cases i (8 * N.of_nat k)) as [Hi|Hi].
  - set (j := N.to_nat (i / 8)). specialize (Hj j ltac:(unfold j; zify; Z.to_euclidean_division_equations; lia)).
    apply (f_equal (fun z => N.testbit z (i mod 8))) in Hj. change 255%N with (N.ones 8) in Hj.
    rewrite !N.land_spec, !N.shiftr_spec', N.ones_spec_low, !andb_true_r in Hj by (zify; Z.to_euclidean_division_equations; lia).
    assert ((i mod 8 + 8 * N.of_nat j)%N = i) as Ei by (unfold j; zify; Z.to_euclidean_division_equations; lia).
    by rewrite Ei in Hj.
  - assert (forall z, (z < 2 ^ (8 * N.of_nat k))%N -> N.testbit z i = false) as Hz; [|by rewrite !Hz].
    intros z Hz. destruct (N.eq_dec z 0) as [->|Hz0]; [apply N.bits_0|]. apply N.bits_above_log2.
    apply N.log2_lt_pow2 in Hz; lia.
Qed.

(** A digest is 64 lower-case hexadecimal characters. *)
Lemma sha256_hex_shape m : all_hex_of_length 64 (sha256_hex m) = true.
Proof.
  apply all_hex_spec. unfold sha256_hex.
  rewrite length_hex_of_bytes, length_sha256. split; [done|].
  apply hex_of_bytes_lower, sha256_bytes.
Qed.

(** The test vectors of FIPS 180-4 and RFC 4231. *)
Example sha256_empty :
  sha256_hex [] = lit "e3b0c44298fc1c149afbf4c8996fb92427ae41e4649b934ca495991b7852b855".
Proof. by vm_compute. Qed.
Example sha256_abc :
  sha256_hex (lit "abc") = lit "ba7816bf8f01cfea414140de5dae2223b00361a396177a9cb410ff61f20015ad".
Proof. by vm_compute. Qed.
Example sha256_two_blocks :
  sha256_hex (lit "abcdbcdecdefdefgefghfghighijhijkijkljklmklmnlmnomnopnopq") =
  lit "248d6a61d20638b8e5c026930c3e6039a33ce45964ff2167f6ecedd419db06c1".
Proof. by vm_compute. Qed.
Example hmac_rfc4231_2 :
  hex_of_bytes (hmac_sha256 (lit "Jefe") (lit "what do ya want for nothing?")) =
  lit "5bdcc146bf60754e6a042426089575c75a003f089d2739839dec58b964ec3843".
Proof. by vm_compute. Qed.
