(* ===== verification/Utf8.v ===== *)
(** * Bytes and text: the UTF-8 codecs

    [bytes.decode] with the handlers [surrogateescape] and [strict], and [os.fsencode].  Encoding
    is [encode] of [PyStr]; a text of code points that are no surrogates is decoded from its bytes
    as itself. *)

From S2P Require Import Prelude PyStr Sha256 JsonText.

Definition UnicodeDecodeError : exc_class := Sub "UnicodeDecodeError" ValueError.

Definition cont (lo hi c : N) : bool := in_range lo hi c.
(** [raw.decode("utf-8", "surrogateescape")]: a byte of no well-formed sequence becomes a lone
    surrogate. *)
Fixpoint decode_escaped (l : bytes) : pystr :=
  match l with
  | [] => []
  | b :: l1 =>
      let escaped (_ : unit) := (56320 + b)%N :: decode_escaped l1 in
      if (b <? 128)%N then b :: decode_escaped l1
      else if in_range 194 223 b then
        match l1 with
        | c1 :: l2 =>
            if cont 128 191 c1 then (N.land b 31 * 64 + N.land c1 63)%N :: decode_escaped l2 else escaped tt
        | _ => escaped tt
        end
      else if in_range 224 239 b then
        match l1 with
        | c1 :: c2 :: l3 =>
            if cont (if b =? 224 then 160 else 128)%N (if b =? 237 then 159 else 191)%N c1 && cont 128 191 c2
            then (N.land b 15 * 4096 + N.land c1 63 * 64 + N.land c2 63)%N :: decode_escaped l3
            else escaped tt
        | _ => escaped tt
        end
      else if in_range 240 244 b then
        match l1 with
        | c1 :: c2 :: c3 :: l4 =>
            if cont (if b =? 240 then 144 else 128)%N (if b =? 244 then 143 else 191)%N c1
               && cont 128 191 c2 && cont 128 191 c3
            then (N.land b 7 * 262144 + N.land c1 63 * 4096 + N.land c2 63 * 64 + N.land c3 63)%N
                   :: decode_escaped l4
            else escaped tt
        | _ => escaped tt
        end
      else escaped tt
  end.


(** [raw.decode("utf-8")]: only well-formed sequences, none of which is a surrogate. *)
Definition decode_strict (l : bytes) : result exn pystr :=
  let s := decode_escaped l in
  if existsb is_surrogate s then raise UnicodeDecodeError "'utf-8' codec can't decode bytes"
  else Ok s.

(** [os.fsencode]: an escaped byte stands for itself. *)
Definition fsencode1 (c : N) : result exc_class bytes :=
  if in_range 56448 56575 c then Ok [(c - 56320)%N] else utf8_encode1 c.
Fixpoint fsencode (s : pystr) : result exn bytes :=
  match s with
  | [] => Ok []
  | c :: s' =>
      match fsencode1 c with
      | Ok b => r ← fsencode s'; Ok (b ++ r)
      | Err e => raise e (encode_error s)
      end
  end.

(** ** Round trip *)

Definition valid_text (s : pystr) : Prop := Forall (fun c => (c < 1114112)%N /\ is_surrogate c = false) s.

(** Masks undo the tags. *)
Lemma untag (k t m : N) (x : N) :
  forallb (fun x => (N.land (t + x) m =? x)%N) (N.of_nat <$> seq 0 (N.to_nat k)) = true ->
  (x < k)%N -> N.land (t + x) m = x.
Proof.
  intros H Hx. rewrite forallb_forall in H. apply N.eqb_eq, H, list_elem_of_In, list_elem_of_fmap.
  exists (N.to_nat x). split; [lia|]. apply elem_of_seq. lia.
Qed.

Ltac utf8_bits :=
  rewrite ?N.shiftr_div_pow2 in *; change 63%N with (N.ones 6) in *; rewrite ?N.land_ones in *;
  change (2 ^ 6)%N with 64%N in *; change (2 ^ 12)%N with 4096%N in *; change (2 ^ 18)%N with 262144%N in *.
Ltac byte_case b :=
  match goal with |- context [if ?c then _ else _] => let E := fresh in assert (c = b) as E; [|rewrite E; clear E] end.
Ltac range := unfold cont, in_range; rewrite ?andb_true_iff, ?andb_false_iff, ?N.leb_le, ?N.leb_gt, ?N.ltb_lt, ?N.ltb_ge;
  zify; Z.to_euclidean_division_equations; lia.

Lemma decode_encode1 c b rest :
  (c < 1114112)%N -> is_surrogate c = false -> utf8_encode1 c = Ok b ->
  decode_escaped (b ++ rest) = c :: decode_escaped rest.
Proof.
  intros Hc Hs. unfold utf8_encode1.
  pose proof (untag 32 192 31) as U2. pose proof (untag 64 128 63) as U1.
  pose proof (untag 16 224 15) as U3. pose proof (untag 8 240 7) as U4.
  specialize (fun x => U2 x eq_refl). specialize (fun x => U1 x eq_refl).
  specialize (fun x => U3 x eq_refl). specialize (fun x => U4 x eq_refl).
  destruct (N.ltb_spec c 128).
  { intros [= <-]. cbn [app decode_escaped]. destruct (N.ltb_spec c 128); [done|lia]. }
  destruct (N.ltb_spec c 2048).
  { intros [= <-]. cbn [app decode_escaped].
    byte_case false; [utf8_bits; range|]. byte_case true; [utf8_bits; range|]. byte_case true; [utf8_bits; range|].
    rewrite U2, U1 by (utf8_bits; zify; Z.to_euclidean_division_equations; lia).
    f_equal. utf8_bits. zify; Z.to_euclidean_division_equations; lia. }
  destruct ((55296 <=? c)%N && (c <=? 57343)%N) eqn:Es; [done|].
  destruct (N.ltb_spec c 65536).
  { intros [= <-]. cbn [app decode_escaped].
    byte_case false; [utf8_bits; range|]. byte_case false; [utf8_bits; range|]. byte_case true; [utf8_bits; range|].
    apply andb_false_iff in Es. rewrite !N.leb_gt in Es.
    match goal with |- context [cont (if ?e then _ else _) (if ?f then _ else _) ?x] =>
      assert (cont (if e then 160 else 128)%N (if f then 159 else 191)%N x = true) as -> end.
    { destruct (N.eqb_spec (224 + N.shiftr c 12) 224), (N.eqb_spec (224 + N.shiftr c 12) 237); utf8_bits; range. }
    byte_case true; [utf8_bits; range|]. cbn [andb].
    rewrite U3, !U1 by (utf8_bits; zify; Z.to_euclidean_division_equations; lia).
    f_equal. utf8_bits. zify; Z.to_euclidean_division_equations; lia. }
  intros [= <-]. cbn [app decode_escaped].
  byte_case false; [utf8_bits; range|]. byte_case false; [utf8_bits; range|]. byte_case false; [utf8_bits; range|].
  byte_case true; [utf8_bits; range|].
  match goal with |- context [cont (if ?e then _ else _) (if ?f then _ else _) ?x] =>
    assert (cont (if e then 144 else 128)%N (if f then 143 else 191)%N x = true) as -> end.
  { destruct (N.eqb_spec (240 + N.shiftr c 18) 240), (N.eqb_spec (240 + N.shiftr c 18) 244); utf8_bits; range. }
  byte_case true; [utf8_bits; range|]. cbn [andb].
  rewrite U4, !U1 by (utf8_bits; zify; Z.to_euclidean_division_equations; lia).
  f_equal. utf8_bits. zify; Z.to_euclidean_division_equations; lia.
Qed.

Lemma encode_valid s : valid_text s -> exists b, encode s = Ok b /\ decode_strict b = Ok s.
Proof.
  intros Hs. assert (exists b, utf8_encode s = Ok b /\ decode_escaped b = s) as (b & Hb & Hd).
  { induction Hs as [|c s [Hc Hn] Hs (b & Hb & Hd)]; [by exists []|].
    assert (exists x, utf8_encode1 c = Ok x) as [x Hx].
    { unfold utf8_encode1. unfold is_surrogate in Hn. rewrite Hn. repeat case_match; by eexists. }
    exists (x ++ b). cbn [utf8_encode]. rewrite Hx. cbn. rewrite Hb. split; [done|].
    rewrite (decode_encode1 c x b) by done. by rewrite Hd. }
  exists b. unfold encode, decode_strict. rewrite Hb, Hd. split; [done|].
  assert (existsb is_surrogate s = false) as ->; [|done]. apply not_true_iff_false.
  rewrite existsb_exists. intros (c & Hin & Hc). unfold valid_text in Hs. rewrite Forall_forall in Hs.
  apply list_elem_of_In in Hin. destruct (Hs c Hin). congruence.
Qed.

Lemma land_low (x k : N) : (N.land x (N.ones k) < 2 ^ k)%N.
Proof. rewrite N.land_ones. apply N.mod_lt. by apply N.pow_nonzero. Qed.

Lemma decode_escaped_bound l : Forall (fun b => (b < 256)%N) l -> Forall (fun c => (c < 1114112)%N) (decode_escaped l).
Proof.
  remember (length l) as n eqn:En. revert l En. induction (lt_wf n) as [n _ IH]. intros l -> Hl.
  assert (forall m, (length m < length l)%nat -> Forall (fun b => (b < 256)%N) m ->
    Forall (fun c => (c < 1114112)%N) (decode_escaped m)) as IHm by (intros m Hm; by eapply IH). clear IH.
  destruct l as [|b l]; [constructor|]. apply Forall_cons in Hl as [Hb Hl]. cbn [length] in IHm.
  assert (Forall (fun c => (c < 1114112)%N) ((56320 + b)%N :: decode_escaped l)) as Hesc
    by (constructor; [lia|apply IHm; [lia|done]]).
  cbn [decode_escaped]. destruct (b <? 128)%N; [constructor; [lia|apply IHm; [lia|done]]|].
  pose proof (fun x => land_low x 6) as L6. change (N.ones 6) with 63%N in L6. change (2 ^ 6)%N with 64%N in L6.
  destruct (in_range 194 223 b).
  { destruct l as [|c1 l]; [done|]. destruct (cont _ _ c1); [|done]. apply Forall_cons in Hl as [_ Hl].
    constructor; [|apply IHm; [cbn; lia|done]]. pose proof (land_low b 5 : (N.land b 31 < 32)%N) as L5. pose proof (L6 c1). lia. }
  destruct (in_range 224 239 b).
  { destruct l as [|c1 [|c2 l]]; try done. destruct (_ && _); [|done].
    rewrite !Forall_cons in Hl. destruct Hl as (_ & _ & Hl). constructor; [|apply IHm; [cbn; lia|done]].
    pose proof (land_low b 4 : (N.land b 15 < 16)%N) as L4. pose proof (L6 c1). pose proof (L6 c2). lia. }
  destruct (in_range 240 244 b) eqn:E4; [|done].
  destruct l as [|c1 [|c2 [|c3 l]]]; try done. destruct (_ && _) eqn:Ec; [|done].
  rewrite !Forall_cons in Hl. destruct Hl as (_ & _ & _ & Hl). constructor; [|apply IHm; [cbn; lia|done]].
  apply andb_true_iff in Ec as [Ec _]. apply andb_true_iff in Ec as [Ec _].
  unfold in_range in E4. apply andb_true_iff in E4 as [E4 E4']. apply N.leb_le in E4, E4'.
  assert (N.land b 7 = b - 240)%N as -> by (replace b with (240 + (b - 240))%N at 1 by lia; apply (untag 8); [done|lia]).
  pose proof (L6 c1). pose proof (L6 c2). pose proof (L6 c3).
  destruct (N.eqb_spec b 244) as [->|]; [|lia].
  unfold cont, in_range in Ec. apply andb_true_iff in Ec as [Ec Ec']. apply N.leb_le in Ec, Ec'. cbn in Ec.
  assert (N.land c1 63 = c1 - 128)%N as -> by (replace c1 with (128 + (c1 - 128))%N at 1 by lia; apply (untag 64); [done|lia]).
  lia.
Qed.

Lemma decode_valid l s : Forall (fun b => (b < 256)%N) l -> decode_strict l = Ok s -> valid_text s.
Proof.
  intros Hl%decode_escaped_bound. unfold decode_strict. destruct (existsb _ _) eqn:E; [done|]. intros [= <-].
  unfold valid_text. rewrite Forall_forall in Hl |- *. intros c Hc. split; [by apply Hl|].
  apply not_true_iff_false. intros Hs. apply not_true_iff_false in E. apply E, existsb_exists. exists c.
  split; [by apply list_elem_of_In|done].
Qed.
