(* ===== verification/FileSystem.v ===== *)
(** * Files

    The operating system as the programs that write files see it: a map of directories and files;
    every system call runs under the script of faults of [Effects], and before it others may change
    the files ([fs_others]).  A write is two calls, so that a crash can leave a prefix of the
    content.  Descriptors are the names they were opened under; closing them is not modelled. *)

From S2P Require Import Prelude PyStr Effects Sha256.
Open Scope Z_scope.

Definition FileExistsError : exc_class := Sub "FileExistsError" OSError.

(** ** Files and directories *)

Record fstat : Type := Stat { st_dev : Z; st_ino : Z; st_uid : Z; st_gid : Z; st_mode : Z; st_nlink : Z }.
Record file : Type := File { f_stat : fstat; f_bytes : bytes }.

Definition S_IFMT (mode : Z) : Z := Z.land mode 61440.
Definition S_ISREG (mode : Z) : bool := S_IFMT mode =? 32768.
Definition S_ISDIR (mode : Z) : bool := S_IFMT mode =? 16384.
Definition S_ISLNK (mode : Z) : bool := S_IFMT mode =? 40960.
Definition S_IMODE (mode : Z) : Z := Z.land mode 4095.

(** [pathlib] paths: the parts behind the root, or of a relative path. *)
Record path : Type := Path { absolute : bool; parts : list pystr }.
Definition path_str (p : path) : pystr :=
  match absolute p, parts p with
  | false, [] => "."
  | a, ps => (if a then lit "/" else []) ++ join (lit "/") ps
  end.
Definition path_name (p : path) : pystr := default [] (last (parts p)).
Definition path_parent (p : path) : path := Path (absolute p) (take (length (parts p) - 1) (parts p)).
Definition path_child (p : path) (name : pystr) : path := Path (absolute p) (parts p ++ [name]).

(** A directory is named by its parts below the root; a file by its directory and its name. *)
Definition dir : Type := list pystr.
#[global] Instance key_eq_dec : EqDecision (dir * pystr) := _.
#[global] Instance key_countable : Countable (dir * pystr) := _.
Abbreviation files_map := (@gmap (dir * pystr) key_eq_dec key_countable file).

Record fs : Type := Fs {
  fs_dirs : gmap dir fstat;
  fs_files : files_map;
  fs_next : Z;                               (* the next inode *)
  fs_others : list (files_map -> files_map); (* what others do before each call *)
  fs_short : list nat;                       (* how much the first half of each write takes *)
  fs_faults : list fault;
}.
#[export] Program Instance fs_faulty : Faulty fs := {|
  faults := fs_faults;
  with_faults s f := Fs (fs_dirs s) (fs_files s) (fs_next s) (fs_others s) (fs_short s) f;
|}.
Solve Obligations with by intros [].

Definition set_files (s : fs) (m : files_map) : fs :=
  Fs (fs_dirs s) m (fs_next s) (fs_others s) (fs_short s) (fs_faults s).
Definition interfere (s : fs) : fs :=
  match fs_others s with
  | [] => s
  | f :: rest => Fs (fs_dirs s) (f (fs_files s)) (fs_next s) rest (fs_short s) (fs_faults s)
  end.
(** One system call. *)
Definition sys {A} (m : eff fs A) : eff fs A := fun s => call m (interfere s).

(** What the process has of its surroundings: its ids, the time and the random text in the names it
    makes, and how the lock answers: busy or not, and the clock after that. *)
Record process : Type := Process {
  p_euid : Z;
  p_egid : Z;
  p_stamp : pystr;      (* [strftime("%Y%m%dT%H%M%S.%fZ")] *)
  p_pid : Z;
  p_token : pystr;      (* [secrets.token_hex(12)] *)
  p_started : Z;
  p_lock : list (bool * Z);
}.

Definition no_entry {A} (name : pystr) : result exn A :=
  raise FileNotFoundError (lit "[Errno 2] No such file or directory: " ++ repr_str (H := ascii_host) name).
Definition bad_open {A} (name : pystr) : result exn A :=
  raise OSError (lit "cannot be opened this way: " ++ name).

(** [os.open(part, O_RDONLY | O_DIRECTORY | O_NOFOLLOW)] and [fstat]. *)
Definition open_dir (d : dir) : eff fs fstat := sys (fun s =>
  (match fs_dirs s !! d with
   | Some st => if S_ISDIR (st_mode st) then Ok st else bad_open (path_str (Path true d))
   | None => no_entry (path_str (Path true d))
   end, s)).
(** [os.open(name, O_RDONLY | O_NOFOLLOW, dir_fd=d)]: the file behind the descriptor. *)
Definition open_file (d : dir) (name : pystr) : eff fs file := sys (fun s =>
  (match fs_files s !! (d, name) with
   | Some f => if S_ISLNK (st_mode (f_stat f)) then bad_open name else Ok f
   | None => no_entry name
   end, s)).
Definition read_bytes (f : file) : eff fs bytes := sys (fun s => (Ok (f_bytes f), s)).
Definition fsync_fd : eff fs unit := sys (fun s => (Ok tt, s)).
(** [os.fstat] of an open directory, and of the file just created, [None] when others have taken its
    name. *)
Definition fstat_dir (d : dir) : eff fs fstat := sys (fun s =>
  (match fs_dirs s !! d with Some st => Ok st | None => no_entry (path_str (Path true d)) end, s)).
Definition fstat_fd (d : dir) (name : pystr) : eff fs (option fstat) := sys (fun s =>
  (Ok (f_stat <$> fs_files s !! (d, name)), s)).
Definition unlink (d : dir) (name : pystr) : eff fs unit := sys (fun s =>
  match fs_files s !! (d, name) with
  | Some _ => (Ok tt, set_files s (delete (d, name) (fs_files s)))
  | None => (no_entry name, s)
  end).
(** [os.replace] within one directory. *)
Definition replace_file (d : dir) (old new : pystr) : eff fs unit := sys (fun s =>
  match fs_files s !! (d, old) with
  | Some f => (Ok tt, set_files s (<[(d, new) := f]> (delete (d, old) (fs_files s))))
  | None => (no_entry old, s)
  end).
Definition new_file (pr : process) (d : dir) (name : pystr) (s : fs) : fs :=
  let dev := match fs_dirs s !! d with Some st => st_dev st | None => 0 end in
  let st := Stat dev (fs_next s) (p_euid pr) (p_egid pr) (32768 + 384) 1 in
  Fs (fs_dirs s) (<[(d, name) := File st []]> (fs_files s)) (fs_next s + 1) (fs_others s) (fs_short s) (fs_faults s).
(** [os.open(name, O_WRONLY | O_CREAT | O_EXCL | O_NOFOLLOW, 0o600)] *)
Definition create_exclusive (pr : process) (d : dir) (name : pystr) : eff fs unit := sys (fun s =>
  match fs_files s !! (d, name) with
  | Some _ => (raise FileExistsError (lit "[Errno 17] File exists: " ++ name), s)
  | None => (Ok tt, new_file pr d name s)
  end).
(** A change of the file just created, through its descriptor. *)
Definition alter_file (d : dir) (name : pystr) (f : file -> file) : eff fs unit := sys (fun s =>
  (Ok tt, set_files s (alter f (d, name) (fs_files s)))).
Definition append_bytes (b : bytes) (f : file) : file := File (f_stat f) (f_bytes f ++ b).
Definition set_owner (uid gid : Z) (f : file) : file :=
  File (Stat (st_dev (f_stat f)) (st_ino (f_stat f)) uid gid (st_mode (f_stat f)) (st_nlink (f_stat f))) (f_bytes f).
Definition set_mode (mode : Z) (f : file) : file :=
  File (Stat (st_dev (f_stat f)) (st_ino (f_stat f)) (st_uid (f_stat f)) (st_gid (f_stat f))
          (S_IFMT (st_mode (f_stat f)) + mode) (st_nlink (f_stat f))) (f_bytes f).
(** [os.read(fd, n)] at an offset and [os.write(fd, content)]: the script says how much one call
    takes; without a script, everything. *)
Definition next_size : eff fs (option nat) := fun s =>
  (Ok (head (fs_short s)),
   Fs (fs_dirs s) (fs_files s) (fs_next s) (fs_others s) (tail (fs_short s)) (fs_faults s)).
Definition read_some (f : file) (offset n : nat) : eff fs bytes :=
  size ← next_size;
  sys (fun s => (Ok (take (match size with Some k => Nat.min (S k) n | None => n end) (drop offset (f_bytes f))), s)).
Definition write_some (d : dir) (name : pystr) (content : bytes) : eff fs nat :=
  size ← next_size;
  let n := match size with Some k => Nat.min k (length content) | None => length content end in
  alter_file d name (append_bytes (take n content)) ;;
  mret n.

(** [handle.write(content); handle.flush()] *)
Definition next_short : eff fs nat := fun s =>
  (Ok (default O (head (fs_short s))),
   Fs (fs_dirs s) (fs_files s) (fs_next s) (fs_others s) (tail (fs_short s)) (fs_faults s)).
Definition write_content (d : dir) (name : pystr) (content : bytes) : eff fs unit :=
  k ← next_short;
  alter_file d name (append_bytes (take k content)) ;;
  alter_file d name (append_bytes (drop k content)).

(** [except BaseException: handler; raise] *)
Definition on_error {A} (m : eff fs A) (handler : eff fs unit) : eff fs A := fun s =>
  match m s with
  | (Ok a, s') => (Ok a, s')
  | (Err e, s') => match handler s' with (Ok _, s'') => (Err e, s'') | (Err e', s'') => (Err e', s'') end
  end.

(** The names of a directory, in the order of the map. *)
Definition names_in (d : dir) (m : files_map) : list pystr :=
  omap (fun kv => if bool_decide (fst (fst kv) = d) then Some (snd (fst kv)) else None) (map_to_list m).
Definition listdir (d : dir) : eff fs (list pystr) := sys (fun s => (Ok (names_in d (fs_files s)), s)).

Fixpoint for_each {A} (f : A -> eff fs unit) (l : list A) : eff fs unit :=
  match l with [] => mret tt | x :: l' => f x ;; for_each f l' end.
