(* ===== verification/FileLogic.v ===== *)
(** * Assertions on files

    [ens] for computations of which every system call may fail before or after its effect: from one
    assertion on the files a success ends in a second and a failure in a third.  [silent]
    computations write nothing; an assertion is [stable] at a file of which it says nothing. *)

From S2P Require Import Prelude PyStr Effects Sha256 FileSystem.
Open Scope Z_scope.

(** ** Assertions on the files *)

Section ens.
Context (dirs : gmap dir fstat).

(** Nobody else writes, and the directories are [dirs]. *)
Definition alone (s : fs) : Prop := fs_others s = [] /\ fs_dirs s = dirs.
Definition after {A : Type} (Q : A -> files_map -> Prop) (R : files_map -> Prop) (o : result exn A * fs) : Prop :=
  alone (snd o) /\ match fst o with Ok a => Q a (fs_files (snd o)) | Err _ => R (fs_files (snd o)) end.
(** From [P], a success ends in [Q] and a failure, at any call, in [R]. *)
Definition ens {A : Type} (P : files_map -> Prop) (m : eff fs A) (Q : A -> files_map -> Prop) (R : files_map -> Prop) : Prop :=
  forall s, alone s -> P (fs_files s) -> after Q R (m s).

Lemma ens_weaken {A : Type} (P P' : files_map -> Prop) (m : eff fs A) Q Q' (R R' : files_map -> Prop) :
  ens P m Q R -> (forall x, P' x -> P x) -> (forall a x, Q a x -> Q' a x) -> (forall x, R x -> R' x) -> ens P' m Q' R'.
Proof.
  intros H HP HQ HR s Hs Hp. destruct (H s Hs (HP _ Hp)) as [Ha Ho]. split; [done|].
  destruct (fst (m s)); [by apply HQ|by apply HR].
Qed.
Lemma ens_pure {A : Type} (P R : files_map -> Prop) (r : result exn A) Q :
  (forall a x, r = Ok a -> P x -> Q a x) -> (forall x, P x -> R x) -> ens P (pure r) Q R.
Proof. intros HQ HR s Hs Hp. split; [done|]. unfold pure. cbn. destruct r; [by apply HQ|by apply HR]. Qed.
Lemma ens_ret {A : Type} (P : files_map -> Prop) (a : A) Q R : (forall x, P x -> Q a x) -> ens P (mret a) Q R.
Proof. intros HQ s Hs Hp. split; [done|]. by apply HQ. Qed.
Lemma ens_throw {A : Type} (P R : files_map -> Prop) c msg (Q : A -> files_map -> Prop) :
  (forall x, P x -> R x) -> ens P (throw c msg) Q R.
Proof. intros HR s Hs Hp. split; [done|]. by apply HR. Qed.
Lemma ens_bind {A B : Type} P (m : eff fs A) (f : A -> eff fs B) Q' Q R :
  ens P m Q' R -> (forall a, ens (Q' a) (f a) Q R) -> ens P (m ≫= f) Q R.
Proof.
  intros Hm Hf s Hs Hp. specialize (Hm s Hs Hp). unfold mbind, eff_bind. destruct (m s) as [[a|e] s'], Hm as [Ha Hq]; [|done].
  by apply Hf.
Qed.
Lemma ens_try {A : Type} P classes (m : eff fs A) h Q R :
  ens P m Q R -> (forall e, ens R (h e) Q R) -> ens P (try_except classes m h) Q R.
Proof.
  intros Hm Hh s Hs Hp. specialize (Hm s Hs Hp). unfold try_except. destruct (m s) as [[a|e] s'], Hm as [Ha Hq]; [done|].
  destruct (existsb _ _); [by apply Hh|done].
Qed.
Lemma ens_on_error {A : Type} P (m : eff fs A) h Q R R' :
  ens P m Q R' -> ens R' h (fun _ => R) R -> ens P (on_error m h) Q R.
Proof.
  intros Hm Hh s Hs Hp. specialize (Hm s Hs Hp). unfold on_error. destruct (m s) as [[a|e] s'], Hm as [Ha Hq]; [done|].
  specialize (Hh s' Ha Hq). destruct (h s') as [[u|e'] s''], Hh as [Ha' Hq']; by split.
Qed.
(** A system call: refused, done, or done and its answer lost. *)
Lemma ens_sys {A : Type} (P R : files_map -> Prop) (m : eff fs A) Q :
  ens P m Q R -> (forall x, P x -> R x) -> (forall a x, Q a x -> R x) -> ens P (sys m) Q R.
Proof.
  intros Hm HR HQ s [Ho Hd] Hp. unfold sys, interfere. rewrite Ho. unfold call. cbn [faults fs_faulty].
  destruct (fs_faults s) as [|[|e|e] fl]; [by apply Hm|..].
  - by apply Hm.
  - split; [done|]. by apply HR.
  - specialize (Hm (with_faults s fl) (conj Ho Hd) Hp).
    destruct (m (with_faults s fl)) as [[a|e'] s'], Hm as [Ha Hq]; split; try done. cbn in *. by eapply HQ.
Qed.

(** A fact that the assertion holds is known at once. *)
Lemma ens_exists {A B : Type} (P : B -> files_map -> Prop) (m : eff fs A) Q R :
  (forall b, ens (P b) m Q R) -> ens (fun x => exists b, P b x) m Q R.
Proof. intros H s Hs [b Hp]. by apply (H b). Qed.
Lemma ens_fact {A : Type} (F : Prop) (P : files_map -> Prop) (m : eff fs A) Q R :
  (F -> ens P m Q R) -> ens (fun x => F /\ P x) m Q R.
Proof. intros H s Hs [Hf Hp]. by apply H. Qed.

(** Computations that leave the files alone. *)
Definition silent {A : Type} (m : eff fs A) : Prop := forall P, ens P m (fun _ => P) P.

Lemma silent_pure {A : Type} (r : result exn A) : silent (pure r).
Proof. intros P. by apply ens_pure. Qed.
Lemma silent_ret {A : Type} (a : A) : silent (mret a).
Proof. intros P. by apply ens_ret. Qed.
Lemma silent_throw {A : Type} c msg : silent (A := A) (throw c msg).
Proof. intros P. by apply ens_throw. Qed.
Lemma silent_bind {A B : Type} (m : eff fs A) (f : A -> eff fs B) : silent m -> (forall a, silent (f a)) -> silent (m ≫= f).
Proof. intros Hm Hf P. eapply ens_bind; [apply Hm|]. intros a. apply Hf. Qed.
Lemma silent_try {A : Type} classes (m : eff fs A) h : silent m -> (forall e, silent (h e)) -> silent (try_except classes m h).
Proof. intros Hm Hh P. apply ens_try; [apply Hm|]. intros e. apply Hh. Qed.
Lemma silent_sys {A : Type} (f : fs -> result exn A) : silent (sys (fun s => (f s, s))).
Proof.
  intros P. apply ens_sys; [|done..]. intros s Hs Hp. split; [done|]. cbn. by destruct (f s).
Qed.
Lemma ens_quiet {A : Type} (P R : files_map -> Prop) (m : eff fs A) : silent m -> (forall x, P x -> R x) -> ens P m (fun _ => P) R.
Proof. intros Hm HR. by eapply ens_weaken; [apply (Hm P)|..]. Qed.
(** A computation that leaves the files alone, of which the value is used. *)
Lemma ens_known {A B : Type} (F : A -> Prop) P (m : eff fs A) (f : A -> eff fs B) Q R :
  ens P m (fun a x => F a /\ P x) R -> (forall a, F a -> ens P (f a) Q R) -> ens P (m ≫= f) Q R.
Proof. intros Hm Hf. eapply ens_bind; [apply Hm|]. intros a. cbn beta. apply ens_fact, Hf. Qed.
Lemma ens_known_pure {A B : Type} P (v : result exn A) (f : A -> eff fs B) Q (R : files_map -> Prop) :
  (forall x, P x -> R x) -> (forall a, v = Ok a -> ens P (f a) Q R) -> ens P (pure v ≫= f) Q R.
Proof. intros HR Hf. apply ens_known with (F := fun a => v = Ok a); [by apply ens_pure|done]. Qed.
Lemma ens_skip {A B : Type} P (m : eff fs A) (f : A -> eff fs B) Q (R : files_map -> Prop) :
  silent m -> (forall x, P x -> R x) -> (forall a, ens P (f a) Q R) -> ens P (m ≫= f) Q R.
Proof. intros Hm HR Hf. eapply ens_bind; [by apply ens_quiet|]. done. Qed.
End ens.

Create HintDb silent discriminated.
#[export] Hint Resolve silent_pure silent_ret silent_throw silent_bind silent_try : silent.

(** ** The calls *)

Section calls.
Context (dirs : gmap dir fstat).
Abbreviation ens := (ens dirs).
Abbreviation silent := (silent dirs).

Lemma silent_open_dir d : silent (open_dir d).
Proof. apply silent_sys. Qed.
Lemma silent_open_file d name : silent (open_file d name).
Proof. apply silent_sys. Qed.
Lemma silent_read_bytes f : silent (read_bytes f).
Proof. apply silent_sys. Qed.
Lemma silent_fstat_dir d : silent (fstat_dir d).
Proof. apply silent_sys. Qed.
Lemma silent_fstat_fd d name : silent (fstat_fd d name).
Proof. apply silent_sys. Qed.
Lemma silent_fsync : silent fsync_fd.
Proof. apply silent_sys. Qed.
Lemma silent_listdir d : silent (listdir d).
Proof. apply silent_sys. Qed.
Lemma silent_next_short : silent next_short.
Proof. intros P s [Ho Hd] Hp. by split. Qed.
Lemma ens_open_file P d name : ens P (open_file d name) (fun f x => P x /\ x !! (d, name) = Some f) P.
Proof.
  apply ens_sys; [|done|by intros ? ? []]. intros s Hs Hp. split; [done|]. cbn.
  destruct (fs_files s !! (d, name)) eqn:E; [|done]. by destruct (S_ISLNK _).
Qed.
(** [P] says nothing of [k]. *)
Definition stable (P : files_map -> Prop) (k : dir * pystr) : Prop :=
  forall x, P x -> P (delete k x) /\ forall v, P (<[k := v]> x).

Lemma stable_lookup k k' (P : option file -> Prop) : k <> k' -> stable (fun x => P (x !! k')) k.
Proof. intros Hn x Hx. split; [by rewrite lookup_delete_ne|]. intros v. by rewrite lookup_insert_ne. Qed.
Lemma stable_found k k' (q : file -> Prop) : k <> k' -> stable (fun x => exists f, x !! k' = Some f /\ q f) k.
Proof. intros Hn x Hx. split; [by rewrite lookup_delete_ne|]. intros v. by rewrite lookup_insert_ne. Qed.
Lemma stable_and (P Q : files_map -> Prop) k : stable P k -> stable Q k -> stable (fun x => P x /\ Q x) k.
Proof. intros HP HQ x [Hp Hq]. split; [split; [by apply HP|by apply HQ]|]. intros v. split; [by apply HP|by apply HQ]. Qed.
Lemma stable_or (P Q : files_map -> Prop) k : stable P k -> stable Q k -> stable (fun x => P x \/ Q x) k.
Proof.
  intros HP HQ x [Hp|Hq].
  - split; [left; by apply HP|]. intros v. left. by apply HP.
  - split; [right; by apply HQ|]. intros v. right. by apply HQ.
Qed.

(** A change of one file, by a call. *)
Lemma ens_alter (P : files_map -> Prop) (p q : file -> Prop) d n g :
  stable P (d, n) -> (forall f, p f -> q (g f)) ->
  ens (fun x => P x /\ exists f, x !! (d, n) = Some f /\ p f) (alter_file d n g)
    (fun _ x => P x /\ exists f, x !! (d, n) = Some f /\ q f) P.
Proof.
  intros HP Hg. apply ens_sys; [|by intros x []|by intros ? x []]. intros s Hs (Hp & f & Hf & Hpf). split; [done|]. cbn.
  assert (alter g (d, n) (fs_files s) = <[(d, n) := g f]> (fs_files s)) as ->.
  { apply map_eq. intros k. destruct (decide (k = (d, n))) as [->|Hk].
    - by rewrite lookup_alter_eq, Hf, lookup_insert_eq.
    - by rewrite lookup_alter_ne, lookup_insert_ne. }
  split; [by apply HP|]. exists (g f). rewrite lookup_insert_eq. auto.
Qed.
Lemma ens_unlink (P : files_map -> Prop) d n : stable P (d, n) -> ens P (unlink d n) (fun _ => P) P.
Proof.
  intros HP. apply ens_sys; [|done..]. intros s Hs Hp. cbn. destruct (fs_files s !! (d, n)); split; try done. by apply HP.
Qed.
Lemma ens_create pr (P : files_map -> Prop) d n : stable P (d, n) ->
  ens P (create_exclusive pr d n)
    (fun _ x => P x /\ exists f, x !! (d, n) = Some f /\ f_bytes f = [] /\ st_mode (f_stat f) = 32768 + 384 /\ st_nlink (f_stat f) = 1) P.
Proof.
  intros HP. apply ens_sys; [|done|by intros ? x []]. intros s Hs Hp. destruct (fs_files s !! (d, n)); split; try done.
  cbn. split; [by apply HP|]. eexists. by rewrite lookup_insert_eq.
Qed.

Definition filled (content : bytes) (f : file) : Prop :=
  f_bytes f = content /\ st_mode (f_stat f) = 32768 + 384 /\ st_nlink (f_stat f) = 1.
Lemma ens_write_content (P : files_map -> Prop) d n content : stable P (d, n) ->
  ens (fun x => P x /\ exists f, x !! (d, n) = Some f /\ filled [] f) (write_content d n content)
    (fun _ x => P x /\ exists f, x !! (d, n) = Some f /\ filled content f) P.
Proof.
  intros HP. eapply ens_bind; [apply ens_quiet; [apply silent_next_short|by intros x []]|]. cbn beta. intros k.
  eapply ens_bind; [apply ens_alter with (q := filled (take k content)); [done|]|].
  { intros f [Hf Hm]. split; [cbn; by rewrite Hf|done]. }
  cbn beta. intros _. apply ens_alter; [done|]. intros f [Hf Hm]. split; [cbn; by rewrite Hf, take_drop|done].
Qed.

Lemma ens_for_each {A : Type} (P : files_map -> Prop) (f : A -> eff fs unit) l :
  (forall a, ens P (f a) (fun _ => P) P) -> ens P (for_each f l) (fun _ => P) P.
Proof.
  intros Hf. induction l as [|a l IH]; cbn; [by apply ens_ret|]. eapply ens_bind; [apply Hf|]. cbn beta. by intros _.
Qed.
End calls.
#[export] Hint Resolve silent_open_dir silent_open_file silent_read_bytes silent_fsync silent_fstat_dir silent_fstat_fd
  silent_listdir silent_next_short : silent.
