(* ===== verification/EnvReconcile.v ===== *)
(** * The environment reconciler

    [src/scripts/ops/reconcile_public_login_smtp_env.py]: the settings of the public login and of
    SMTP are carried from a legacy environment file into the canonical one.  First the text layer
    (parsing, validation, the planned content, the plan digest), then the transaction on the file
    system: trusted directories, the lock, the second reading, the backup, the atomic replacement. *)

From S2P Require Import Prelude PyStr Effects Json Sha256 Utf8 FileSystem.
Open Scope Z_scope.

Definition APPROVED_KEYS : list pystr := lit <$>
  ["APP_BASE_URL"; "AUTH_PUBLIC_LOGIN"; "AUTH_LOG_MAGIC_TOKEN"; "SMTP_HOST"; "SMTP_PORT"; "SMTP_AUTH";
   "SMTP_USER"; "SMTP_PASS"; "SMTP_FROM"]%string.
Definition REQUIRED_SOURCE_KEYS : list pystr := lit <$>
  ["AUTH_PUBLIC_LOGIN"; "SMTP_HOST"; "SMTP_PORT"; "SMTP_AUTH"; "SMTP_USER"; "SMTP_PASS"; "SMTP_FROM"]%string.
Definition TLS_PORTS : list Z := [465; 587; 2525].
Definition CANONICAL_APP_BASE_URL : pystr := "https://commonthing.net".
Definition ALLOWED_SMTP_FROM_OVERRIDES : list pystr :=
  [lit "noreply@login.commonthing.net"; lit "noreply@login.weltgewebe.net"].
Definition RECONCILE_MARKER : pystr := "# Reconciled canonical app-base, public-login and SMTP keys.".
Definition PLAN_DOMAIN : pystr := lit "weltgewebe-public-login-smtp-env-plan-v2" ++ [0%N].
Definition INVALID_LINE_CHARS : list N := [13; 11; 12; 28; 29; 30; 133; 8232; 8233]%N.
Definition LOCK_TIMEOUT : Z := 15 * 1000000.

Definition ReconcileError : exc_class := Sub "ReconcileError" RuntimeError.

(** ** Parsing *)

Section text.
Context `{PyHost}.

(** [s.split("=", 1)]: what stands before and after the first sign. *)
Fixpoint split_eq (s : pystr) : option (pystr * pystr) :=
  match s with
  | [] => None
  | c :: t => if (c =? 61)%N then Some ([], t) else
                match split_eq t with Some (l, r) => Some (c :: l, r) | None => None end
  end.

Definition key_from_line (raw : pystr) : option pystr :=
  let stripped := strip raw in
  if startswith "#" stripped then None
  else
    match split_eq stripped with
    | None => None
    | Some (before, _) =>
        let left := strip before in
        let left := if startswith "export " left then strip (drop 7 left) else left in
        match left with [] => None | _ => Some left end
    end.
(** [raw.strip().split("=", 1)[1].strip()] on a line with a key. *)
Definition value_from_line (raw : pystr) : pystr :=
  match split_eq (strip raw) with Some (_, after) => strip after | None => [] end.

Record EnvDocument : Type := { lines : list pystr; values : dict pystr }.

Definition parse_line (label : pystr) (vs : dict pystr) (raw : pystr) : result exn (dict pystr) :=
  match key_from_line raw with
  | None => Ok vs
  | Some key =>
      if dmem vs key then
        raise ReconcileError (lit "duplicate key in " ++ label ++ lit ": " ++ key)
      else Ok (dset vs key (value_from_line raw))
  end.

Definition parse_env (text label : pystr) : result exn EnvDocument :=
  if existsb (fun c => existsb (N.eqb c) text) INVALID_LINE_CHARS then
    raise ReconcileError (label ++ lit " contains an unsupported line separator")
  else
    let ls := split_on 10 text in
    vs ← foldM (parse_line label) [] ls;
    Ok {| lines := ls; values := vs |}.

(** ** Validation *)

Definition is_quote (c : N) : bool := ((c =? 39) || (c =? 34))%N.
Definition logical_scalar (raw key : pystr) : result exn pystr :=
  let value := strip raw in
  let malformed := raise ReconcileError (lit "malformed quoted value for key: " ++ key) in
  match value with
  | [] => Ok []
  | first :: _ =>
      let last_char := List.last value first in
      if is_quote first then
        if (length value <? 2)%nat || negb (last_char =? first)%N then malformed
        else Ok (strip (drop 1 (take (length value - 1) value)))
      else if is_quote last_char then malformed
      else Ok value
  end.

(** [re.fullmatch(r"[0-9]{1,5}", s)] and [int(s)] of such a text. *)
Definition ascii_port (s : pystr) : bool :=
  (1 <=? length s)%nat && (length s <=? 5)%nat && forallb ascii_digit s.
Definition port_number (s : pystr) : Z := foldl (fun n c => n * 10 + (Z.of_N c - 48)) 0 s.

Definition required (vs : dict pystr) (key : pystr) : pystr := default [] (dget vs key).

(** [SMTP_HOST], [SMTP_USER], [SMTP_PASS] and [SMTP_FROM]: the raw text, not empty. *)
Definition raw_setting (vs : dict pystr) (key : pystr) : result exn pystr :=
  let raw_value := strip (required vs key) in
  scalar ← logical_scalar raw_value key;
  match scalar with
  | [] => raise ReconcileError (key ++ lit " is empty in the source")
  | _ => Ok raw_value
  end.

Definition check_public_login (vs : dict pystr) : result exn unit :=
  public_login ← logical_scalar (required vs "AUTH_PUBLIC_LOGIN") "AUTH_PUBLIC_LOGIN";
  if str_eqb public_login "1" || str_eqb (lower public_login) "true" then Ok tt
  else raise ReconcileError "AUTH_PUBLIC_LOGIN is not enabled in the source".
Definition check_magic_log (vs : dict pystr) : result exn unit :=
  magic_log ← logical_scalar (default (lit "0") (dget vs "AUTH_LOG_MAGIC_TOKEN")) "AUTH_LOG_MAGIC_TOKEN";
  if str_eqb magic_log "0" || str_eqb (lower magic_log) "false" then Ok tt
  else raise ReconcileError "AUTH_LOG_MAGIC_TOKEN is not disabled in the source".
Definition check_smtp_auth (vs : dict pystr) : result exn unit :=
  smtp_auth ← logical_scalar (required vs "SMTP_AUTH") "SMTP_AUTH";
  if str_eqb (lower smtp_auth) "on" then Ok tt
  else raise ReconcileError "SMTP_AUTH must be exactly 'on' in the source".
Definition check_port (vs : dict pystr) : result exn Z :=
  port_text ← logical_scalar (required vs "SMTP_PORT") "SMTP_PORT";
  if negb (ascii_port port_text) then raise ReconcileError "SMTP_PORT must contain ASCII digits only"
  else
    let smtp_port := port_number port_text in
    if existsb (Z.eqb smtp_port) TLS_PORTS then Ok smtp_port
    else raise ReconcileError "SMTP_PORT is not an approved TLS submission port".

(** The selected values, in the order of [APPROVED_KEYS]. *)
Definition validate_source (vs : dict pystr) (smtp_from_override : option pystr) : result exn (dict pystr) :=
  let missing := List.filter (fun key => negb (dmem vs key)) REQUIRED_SOURCE_KEYS in
  if negb (length missing =? 0)%nat then
    raise ReconcileError (lit "required approved source keys missing: " ++ join (lit ", ") missing)
  else
    _ ← check_public_login vs;
    _ ← check_magic_log vs;
    _ ← check_smtp_auth vs;
    smtp_port ← check_port vs;
    host ← raw_setting vs "SMTP_HOST";
    user ← raw_setting vs "SMTP_USER";
    pass ← raw_setting vs "SMTP_PASS";
    from ← raw_setting vs "SMTP_FROM";
    sender ← match smtp_from_override with
             | None => Ok from
             | Some override =>
                 if str_in override ALLOWED_SMTP_FROM_OVERRIDES then Ok override
                 else raise ReconcileError "SMTP_FROM override is not an approved sender"
             end;
    Ok [(lit "APP_BASE_URL", CANONICAL_APP_BASE_URL); (lit "AUTH_PUBLIC_LOGIN", lit "1");
        (lit "AUTH_LOG_MAGIC_TOKEN", lit "0"); (lit "SMTP_HOST", host);
        (lit "SMTP_PORT", show_Z smtp_port); (lit "SMTP_AUTH", lit "on"); (lit "SMTP_USER", user);
        (lit "SMTP_PASS", pass); (lit "SMTP_FROM", sender)].

(** ** The planned content *)

Definition changed_keys (vs selected : dict pystr) : list pystr :=
  List.filter (fun key => negb (bool_decide (dget vs key = dget selected key))) APPROVED_KEYS.

Definition keep_line (selected : dict pystr) (line : pystr) : bool :=
  match key_from_line line with Some key => negb (dmem selected key) | None => true end
  && negb (str_eqb (strip line) RECONCILE_MARKER).
(** [while kept and kept[-1] == "": kept.pop()] *)
Fixpoint drop_blank (reversed : list pystr) : list pystr :=
  match reversed with [] :: l => drop_blank l | _ => reversed end.

Definition setting_line (selected : dict pystr) (key : pystr) : pystr :=
  key ++ lit "=" ++ default [] (dget selected key).
Definition reconciled_lines (ls : list pystr) (selected : dict pystr) : list pystr :=
  rev (drop_blank (rev (List.filter (keep_line selected) ls)))
  ++ [[]; RECONCILE_MARKER] ++ (setting_line selected <$> APPROVED_KEYS).

Definition build_reconciled_content (destination_text : pystr) (selected : dict pystr) : result exn pystr :=
  destination ← parse_env destination_text "destination";
  Ok (join [10%N] (reconciled_lines (lines destination) selected) ++ [10%N]).
End text.

(** ** Writing *)

Definition GROUP_OR_OTHERS_WRITE : Z := 18.   (* [S_IWGRP | S_IWOTH] *)

Definition remove_quietly (d : dir) (name : pystr) : eff fs unit :=
  try_except [FileNotFoundError] (unlink d name ;; fsync_fd) (fun _ => mret tt).

Definition write_file_exclusive_at (pr : process) (d : dir) (name : pystr) (content : bytes) (uid gid : Z)
    : eff fs (option fstat) :=
  create_exclusive pr d name ;;
  on_error
    (write_content d name content ;;
     alter_file d name (set_owner uid gid) ;;
     alter_file d name (set_mode 384) ;;
     fsync_fd ;;
     fstat_fd d name)
    (remove_quietly d name).

(** ** Trusted reading *)

Definition refuse {A} (m : pystr) : eff fs A := throw ReconcileError m.
Definition require {A} (b : bool) (m : pystr) (k : eff fs A) : eff fs A := if b then k else refuse m.

Definition normalize_absolute_path (p : path) (label : pystr) : result exn path :=
  if negb (absolute p) then raise ReconcileError (label ++ lit " path must be absolute")
  else if existsb (fun part => str_eqb part "." || str_eqb part "..") (parts p) then
    raise ReconcileError (label ++ lit " path must be normalized")
  else Ok p.

Definition validate_root_owned_stat (st : fstat) (label : pystr) : result exn unit :=
  if negb (st_uid st =? 0) then raise ReconcileError (label ++ lit " must be root-owned")
  else if negb (Z.land (S_IMODE (st_mode st)) GROUP_OR_OTHERS_WRITE =? 0) then
    raise ReconcileError (label ++ lit " must not be writable by group or others")
  else Ok tt.
Definition when_root (require_root : bool) (st : fstat) (label : pystr) : eff fs unit :=
  if require_root then pure (validate_root_owned_stat st label) else mret tt.

(** The walk from the root, part by part, each opened relative to the one before. *)
Fixpoint walk (p : path) (label : pystr) (require_root : bool) (here : dir) (rest : list pystr)
    : eff fs unit :=
  match rest with
  | [] => mret tt
  | part :: rest' =>
      let next := here ++ [part] in
      st' ← try_except [OSError] (open_dir next)
              (fun _ => refuse (lit "unable to open " ++ label ++ lit " safely: " ++ path_str p));
      require (S_ISDIR (st_mode st')) (label ++ lit " is not a directory: " ++ path_str p)
        (when_root require_root st' label ;; walk p label require_root next rest')
  end.

Definition open_trusted_directory (p : path) (label : pystr) (require_root : bool) (exact_mode : option Z)
    : eff fs dir :=
  normalized ← pure (normalize_absolute_path p label);
  root ← open_dir [];
  require (S_ISDIR (st_mode root)) "filesystem root is not a directory" (
    when_root require_root root "filesystem root" ;;
    walk p label require_root [] (parts normalized) ;;
    final ← fstat_dir (parts normalized);
    match exact_mode with
    | Some mode =>
        require (S_IMODE (st_mode final) =? mode) (label ++ lit " must have mode 0700")
          (mret (parts normalized))
    | None => mret (parts normalized)
    end).

Record OpenedEnv : Type := { raw_bytes : bytes; env_text : pystr; file_stat : fstat }.

Definition read_regular_at (d : dir) (name label : pystr) (require_root : bool) : eff fs OpenedEnv :=
  require (negb ((length name =? 0)%nat || existsb (N.eqb 47) name || str_eqb name "." || str_eqb name ".."))
    (lit "invalid " ++ label ++ lit " filename") (
  f ← try_except [OSError] (open_file d name) (fun _ => refuse (lit "unable to open " ++ label ++ lit " safely"));
  require (S_ISREG (st_mode (f_stat f))) (label ++ lit " is not a regular file") (
    when_root require_root (f_stat f) label ;;
    raw ← read_bytes f;
    match decode_strict raw with
    | Ok text => mret {| raw_bytes := raw; env_text := text; file_stat := f_stat f |}
    | Err _ => refuse (label ++ lit " is not valid UTF-8")
    end)).

Definition same_file (a b : fstat) : bool := (st_dev a =? st_dev b) && (st_ino a =? st_ino b).

(** ** The plan *)

(** [n.to_bytes(k, "big")] *)
Definition to_bytes_big (k : nat) (n : nat) : result exn bytes :=
  if (N.of_nat n <? 2 ^ (8 * N.of_nat k))%N then Ok (be_bytes k (N.of_nat n))
  else raise OverflowError "int too big to convert".
(** What [_update_plan_field] adds to the digest. *)
Definition update_plan_field (label : pystr) (value : bytes) : result exn bytes :=
  label_bytes ← encode label;
  label_length ← to_bytes_big 4 (length label_bytes);
  value_length ← to_bytes_big 8 (length value);
  Ok (label_length ++ label_bytes ++ value_length ++ value).

Definition stat_plan_fields (prefix : pystr) (st : fstat) : list (pystr * bytes) :=
  (fun nv => (prefix ++ lit "_" ++ lit (fst nv), show_Z (snd nv))) <$>
    [("device"%string, st_dev st); ("inode"%string, st_ino st); ("uid"%string, st_uid st);
     ("gid"%string, st_gid st); ("mode"%string, S_IMODE (st_mode st))].

Record plan : Type := Plan {
  pl_source_path : path; pl_destination_path : path; pl_backup_dir : path;
  pl_source_stat : fstat; pl_destination_stat : fstat; pl_backup_stat : fstat;
  pl_source_text : pystr; pl_destination_text : pystr; pl_content : pystr;
}.

Definition plan_fields (p : plan) : result exn (list (pystr * bytes)) :=
  source ← fsencode (path_str (pl_source_path p));
  destination ← fsencode (path_str (pl_destination_path p));
  backup ← fsencode (path_str (pl_backup_dir p));
  source_text ← encode (pl_source_text p);
  destination_text ← encode (pl_destination_text p);
  content ← encode (pl_content p);
  Ok ([(lit "source_path", source); (lit "destination_path", destination); (lit "backup_dir", backup);
       (lit "source_text", source_text); (lit "destination_text", destination_text);
       (lit "planned_content", content)]
      ++ stat_plan_fields "source" (pl_source_stat p)
      ++ stat_plan_fields "destination" (pl_destination_stat p)
      ++ stat_plan_fields "backup_dir" (pl_backup_stat p)).

Definition plan_bytes (fields : list (pystr * bytes)) : result exn bytes :=
  chunks ← mapM (fun f => update_plan_field (fst f) (snd f)) fields;
  Ok (PLAN_DOMAIN ++ concat chunks).
Definition plan_sha256 (p : plan) : result exn pystr :=
  fields ← plan_fields p;
  data ← plan_bytes fields;
  Ok (sha256_hex data).

(** ** The transaction *)

Section transaction.
Context `{PyHost} (pr : process).

Definition lock_name (name : pystr) : pystr := lit "." ++ name ++ lit ".reconcile.lock".
Definition temp_prefix (name : pystr) : pystr := lit "." ++ name ++ lit ".reconcile-".

(** [os.open(name, O_RDWR | O_CREAT | O_NOFOLLOW, 0o600)] and [fstat]. *)
Definition open_lock (d : dir) (name : pystr) : eff fs fstat := sys (fun s =>
  match fs_files s !! (d, name) with
  | Some f => (if S_ISLNK (st_mode (f_stat f)) then bad_open name else Ok (f_stat f), s)
  | None =>
      let s' := new_file pr d name s in
      (match fs_files s' !! (d, name) with Some f => Ok (f_stat f) | None => no_entry name end, s')
  end).

(** The attempts to lock until one succeeds or the deadline has passed; when the script of the
    process ends the lock is free. *)
Fixpoint acquire_exclusive_lock (attempts : list (bool * Z)) (deadline : Z) : eff fs unit :=
  match attempts with
  | (true, now) :: attempts' =>
      if (deadline - now <=? 0) then refuse "timed out waiting for reconciliation lock"
      else acquire_exclusive_lock attempts' deadline
  | _ => sys (fun s => (Ok tt, s))
  end.

Definition cleanup_orphan (d : dir) (prefix : pystr) (uid gid : Z) (name : pystr) : eff fs unit :=
  if negb (startswith prefix name) then mret tt
  else
    found ← try_except [OSError] (f ← open_file d name; mret (Some f)) (fun _ => mret None);
    match found with
    | None => mret tt
    | Some f =>
        let st := f_stat f in
        if S_ISREG (st_mode st) && (st_uid st =? uid) && (st_gid st =? gid) && (S_IMODE (st_mode st) =? 384)
        then unlink d name else mret tt
    end.
Definition cleanup_orphan_temps (d : dir) (prefix : pystr) (uid gid : Z) : eff fs unit :=
  names ← listdir d;
  for_each (cleanup_orphan d prefix uid gid) names ;;
  fsync_fd.

Definition validate_expected_plan (expected : option pystr) : result exn pystr :=
  match expected with
  | None => raise ReconcileError "--apply requires --expected-plan-sha256 from dry-run"
  | Some e =>
      let normalized := lower (strip e) in
      if all_hex_of_length 64 normalized then Ok normalized
      else raise ReconcileError "expected plan SHA-256 is invalid"
  end.

(** The backup: written, read back and compared; a backup that does not compare is removed. *)
Definition make_backup (d : dir) (name : pystr) (require_root : bool) (opened : OpenedEnv) : eff fs unit :=
  let st := file_stat opened in
  write_file_exclusive_at pr d name (raw_bytes opened) (st_uid st) (st_gid st) ;;
  fsync_fd ;;
  on_error
    (verified ← read_regular_at d name "backup" require_root;
     let bst := file_stat verified in
     require (bool_decide (raw_bytes verified = raw_bytes opened) && (st_uid bst =? st_uid st)
              && (st_gid bst =? st_gid st) && (S_IMODE (st_mode bst) =? 384))
       "backup verification failed before destination replace" (mret tt))
    (remove_quietly d name).

(** The new content: a temporary file beside the destination, renamed over it. *)
Definition replace_destination (d : dir) (name : pystr) (content : bytes) (st : fstat) : eff fs unit :=
  let temp := temp_prefix name ++ p_token pr in
  write_file_exclusive_at pr d temp content (st_uid st) (st_gid st) ;;
  on_error (replace_file d temp name) (unlink d temp) ;;
  fsync_fd.

Definition octal_digit (n : Z) : N := Z.to_N (48 + Z.land n 7).
(** [f"{mode:04o}"] of a mode with at most four octal digits. *)
Definition octal4 (mode : Z) : pystr :=
  [octal_digit (Z.shiftr mode 9); octal_digit (Z.shiftr mode 6); octal_digit (Z.shiftr mode 3); octal_digit mode].

Record request : Type := Request {
  r_source : path; r_destination : path; r_backup_dir : path;
  r_apply : bool; r_expected : option pystr; r_override : option pystr; r_require_root : bool;
}.

Definition base_result (destination : path) (keys : list pystr) (sha : pystr) : dict json :=
  [(lit "destination", JStr (path_str destination)); (lit "updated_keys", JList (JStr <$> keys));
   (lit "values_redacted", JBool true); (lit "plan_sha256", JStr sha)].

(** What the two readings have in common: validate, plan and hash. *)
Definition planned_content (r : request) (source destination : OpenedEnv) : result exn (list pystr * pystr) :=
  source_document ← parse_env (env_text source) "source";
  selected ← validate_source (values source_document) (r_override r);
  destination_document ← parse_env (env_text destination) "destination";
  content ← build_reconciled_content (env_text destination) selected;
  Ok (changed_keys (values destination_document) selected, content).
Definition planned_sha (r : request) (source destination : OpenedEnv) (backup_stat : fstat) (content : pystr)
    : result exn pystr :=
  plan_sha256 (Plan (r_source r) (r_destination r) (r_backup_dir r) (file_stat source)
                 (file_stat destination) backup_stat (env_text source) (env_text destination) content).

(** From the lock to the receipt. *)
Definition apply_locked (r : request) (source_dir destination_dir backup_dir : dir)
    (initial_source initial_destination : OpenedEnv) (current_sha expected : pystr) : eff fs json :=
  let source_name := path_name (r_source r) in
  let name := path_name (r_destination r) in
  lock_stat ← open_lock destination_dir (lock_name name);
  require (S_ISREG (st_mode lock_stat)) "reconciliation lock is not a regular file" (
  when_root (r_require_root r) lock_stat "reconciliation lock" ;;
  acquire_exclusive_lock (p_lock pr) (p_started pr + LOCK_TIMEOUT) ;;
  source ← read_regular_at source_dir source_name "source" (r_require_root r);
  destination ← read_regular_at destination_dir name "destination" (r_require_root r);
  require (same_file (file_stat initial_source) (file_stat source))
    "source file identity changed during reconciliation" (
  require (same_file (file_stat initial_destination) (file_stat destination))
    "destination file identity changed during reconciliation" (
  require (negb (same_file (file_stat source) (file_stat destination)))
    "source and destination must be different files" (
  require (str_eqb (env_text initial_source) (env_text source))
    "source content changed during reconciliation" (
  require (str_eqb (env_text initial_destination) (env_text destination))
    "destination content changed during reconciliation" (
  '(updated_keys, content) ← pure (planned_content r source destination);
  backup_stat ← fstat_dir backup_dir;
  locked_sha ← pure (planned_sha r source destination backup_stat content);
  require (str_eqb locked_sha current_sha) "reconciliation plan changed after lock" (
  require (str_eqb expected locked_sha) "expected plan SHA-256 changed after lock" (
  let backup_name := name ++ lit ".bak-" ++ p_stamp pr ++ lit "-" ++ show_Z (p_pid pr) in
  make_backup backup_dir backup_name (r_require_root r) destination ;;
  cleanup_orphan_temps destination_dir (temp_prefix name) (st_uid (file_stat destination))
    (st_gid (file_stat destination)) ;;
  encoded ← pure (encode content);
  replace_destination destination_dir name encoded (file_stat destination) ;;
  final ← read_regular_at destination_dir name "destination" (r_require_root r);
  require (str_eqb (env_text final) content) "destination verification failed after atomic replace" (
  let st := file_stat final in
  mret (JObj (base_result (r_destination r) updated_keys locked_sha ++
    [(lit "status", JStr "reconciled"); (lit "applied", JBool true);
     (lit "backup", JStr (path_str (path_child (r_backup_dir r) backup_name)));
     (lit "mode", JStr (octal4 (S_IMODE (st_mode st)))); (lit "owner_uid", JInt (st_uid st));
     (lit "owner_gid", JInt (st_gid st))]))))))))))).

Definition reconcile (r : request) : eff fs json :=
  source ← pure (normalize_absolute_path (r_source r) "source");
  destination ← pure (normalize_absolute_path (r_destination r) "destination");
  backup ← pure (normalize_absolute_path (r_backup_dir r) "backup directory");
  require (negb ((length (path_name source) =? 0)%nat || (length (path_name destination) =? 0)%nat))
    "source and destination must name regular files" (
  require (negb (r_require_root r && negb (p_euid pr =? 0))) "dry-run and apply require root" (
  source_dir ← open_trusted_directory (path_parent source) "source parent directory" (r_require_root r) None;
  destination_dir ← open_trusted_directory (path_parent destination) "destination parent directory"
                       (r_require_root r) None;
  initial_source ← read_regular_at source_dir (path_name source) "source" (r_require_root r);
  initial_destination ← read_regular_at destination_dir (path_name destination) "destination" (r_require_root r);
  require (negb (same_file (file_stat initial_source) (file_stat initial_destination)))
    "source and destination must be different files" (
  backup_dir ← open_trusted_directory backup "backup directory" (r_require_root r) (Some 448);
  backup_stat ← fstat_dir backup_dir;
  '(initial_changed_keys, content) ← pure (planned_content r initial_source initial_destination);
  current_sha ← pure (planned_sha r initial_source initial_destination backup_stat content);
  expected ← pure (if r_apply r then
                     expected ← validate_expected_plan (r_expected r);
                     if str_eqb expected current_sha then Ok expected
                     else raise ReconcileError "expected plan SHA-256 does not match current inputs"
                   else Ok []);
  let base := base_result destination initial_changed_keys current_sha in
  if str_eqb content (env_text initial_destination) then
    mret (JObj (base ++ [(lit "status", JStr "already_reconciled"); (lit "applied", JBool false)]))
  else if negb (r_apply r) then
    mret (JObj (base ++ [(lit "status", JStr "planned"); (lit "applied", JBool false)]))
  else
    apply_locked r source_dir destination_dir backup_dir initial_source initial_destination
      current_sha expected))).

(** [main]: the exit code, and what is printed without [--json]. *)
Definition report_lines (result : json) : list pystr :=
  [lit "Status: " ++ to_str (get result "status"); lit "Destination: " ++ to_str (get result "destination");
   lit "Updated keys: " ++ match get result "updated_keys" with JList l => join (lit ", ") (to_str <$> l) | _ => [] end;
   lit "Plan SHA-256: " ++ to_str (get result "plan_sha256")]
  ++ (if truthy (get result "backup") then [lit "Backup: " ++ to_str (get result "backup")] else []).
Definition main (r : request) : eff fs (Z * list pystr) :=
  try_except [OSError; ReconcileError] (result ← reconcile r; mret (0, report_lines result))
    (fun exc => mret (2, [lit "ERROR: " ++ exn_msg exc])).
End transaction.
