(* ===== verification/EnvProofs.v ===== *)
(** * Proofs of the environment reconciler: the text

    What the planned content says when it is read back, that planning it again changes nothing, and
    that a plan digest binds what was planned. *)

From S2P Require Import Prelude PyStr Effects Json JsonText Sha256 Utf8 FileSystem EnvReconcile.
Open Scope Z_scope.

(** ** Lines *)


Lemma content_lines ls : ls <> [] -> Forall (fun l => 10%N ∉ l) ls ->
  split_on 10 (join [10%N] ls ++ [10%N]) = ls ++ [[]].
Proof.
  intros Hne Hls. rewrite <-(split_on_join 10 (ls ++ [[]])).
  - f_equal. clear Hls. induction ls as [|l ls IH]; [done|]. destruct ls as [|l' ls]; [done|].
    rewrite (join_cons_nonnil _ l (l' :: ls)) by done. change ((l :: l' :: ls) ++ [[]]) with (l :: ((l' :: ls) ++ [[]])).
    rewrite (join_cons_nonnil _ l ((l' :: ls) ++ [[]])) by done. rewrite <-IH by done. by rewrite <-!app_assoc.
  - by destruct ls.
  - apply Forall_app. split; [done|]. repeat constructor. by apply not_elem_of_nil.
Qed.

(** ** Settings *)

(** A value that a line can carry as it is. *)
Definition clean (v : pystr) : Prop :=
  edge_free v /\ (10%N ∉ v) /\ Forall (fun c => c ∉ v) INVALID_LINE_CHARS.

Section text.
Context {host : PyHost}.

Lemma split_eq_spec s : split_eq s = None <-> 61%N ∉ s.
Proof.
  induction s as [|c s IH]; cbn; [split; [intros _; apply not_elem_of_nil|done]|].
  rewrite not_elem_of_cons, <-IH. destruct (N.eqb_spec c 61) as [->|Hc].
  - split; [done|by intros [? _]].
  - destruct (split_eq s) as [[]|]; naive_solver.
Qed.
Lemma split_eq_app k v : 61%N ∉ k -> split_eq (k ++ 61%N :: v) = Some (k, v).
Proof.
  induction k as [|c k IH]; cbn; [done|]. intros [Hc Hk]%not_elem_of_cons.
  destruct (N.eqb_spec c 61); [congruence|]. by rewrite IH.
Qed.
Lemma split_eq_Some s l r : split_eq s = Some (l, r) -> s = l ++ 61%N :: r.
Proof.
  revert l. induction s as [|c s IH]; intros l; cbn; [done|]. destruct (N.eqb_spec c 61) as [->|]; [by intros [= <- <-]|].
  destruct (split_eq s) as [[l' r']|]; [|done]. intros [= <- <-]. by rewrite (IH l').
Qed.

(** What makes a name an environment key of its own line. *)
Definition plain_key (k : pystr) : bool :=
  negb (length k =? 0)%nat && forallb (fun c => ascii_upper c || (c =? 95)%N) k.

Lemma plain_key_chars k c : plain_key k = true -> c ∈ k -> ascii_upper c = true \/ c = 95%N.
Proof.
  unfold plain_key. rewrite andb_true_iff, forallb_forall. intros [_ H] Hc%list_elem_of_In.
  apply H, orb_true_iff in Hc as [?|?%N.eqb_eq]; auto.
Qed.
Lemma plain_char_facts c : ascii_upper c = true \/ c = 95%N -> is_space c = false /\ (65 <= c < 128)%N.
Proof.
  intros [H| ->]; [|done]. unfold ascii_upper, in_range in H. apply andb_true_iff in H as [?%N.leb_le ?%N.leb_le].
  split; [|lia]. unfold is_space. repeat (apply orb_false_iff; split); try apply andb_false_iff; rewrite ?N.leb_gt, ?N.eqb_neq; lia.
Qed.

Lemma plain_key_edge k : plain_key k = true -> edge_free k /\ k <> [] /\ (61%N ∉ k).
Proof.
  intros Hk. assert (forall c, c ∈ k -> is_space c = false /\ (65 <= c < 128)%N) as Hc
    by (intros c Hc; by eapply plain_char_facts, plain_key_chars).
  split_and!; [split| |].
  - destruct k as [|c k]; [done|]. apply Hc. by left.
  - destruct (last k) as [c|] eqn:El; [|done]. apply Hc. apply last_Some in El as [l ->]. apply elem_of_app. right. by left.
  - by destruct k.
  - intros [_ ?]%Hc. lia.
Qed.

Definition approved_plain : bool := forallb plain_key APPROVED_KEYS.
Lemma approved_plain_keys k : k ∈ APPROVED_KEYS -> plain_key k = true.
Proof.
  assert (approved_plain = true) as H by (vm_compute; reflexivity). unfold approved_plain in H.
  rewrite forallb_forall in H. intros Hk. by apply H, list_elem_of_In.
Qed.

Lemma setting_edge_free k v : plain_key k = true -> edge_free v -> edge_free (k ++ 61%N :: v).
Proof.
  intros Hk [_ Hv]. destruct (plain_key_edge k Hk) as ([Hh _] & Hne & _). split.
  - by destruct k.
  - rewrite last_app, last_cons. destruct (last v) as [c|] eqn:El; [done|]. done.
Qed.

Lemma setting_key k v : plain_key k = true -> edge_free v -> key_from_line (k ++ 61%N :: v) = Some k.
Proof.
  intros Hk Hv. destruct (plain_key_edge k Hk) as (He & Hne & Heq). unfold key_from_line.
  rewrite (strip_id _ (setting_edge_free k v Hk Hv)).
  assert (startswith "#" (k ++ 61%N :: v) = false) as ->.
  { destruct (startswith "#" (k ++ 61%N :: v)) eqn:E; [|done]. apply startswith_spec in E as [t Ht].
    destruct k as [|c k]; [done|]. injection Ht as -> _.
    destruct (plain_key_chars _ 35 Hk ltac:(by left)) as [E'|E']; vm_compute in E'; congruence. }
  rewrite split_eq_app by done. rewrite (strip_id k He).
  assert (startswith "export " k = false) as ->.
  { destruct (startswith "export " k) eqn:E; [|done]. apply startswith_spec in E as [t ->].
    destruct (plain_key_chars _ 101 Hk ltac:(by left)) as [E'|E']; vm_compute in E'; congruence. }
  by destruct k.
Qed.
Lemma setting_value k v : plain_key k = true -> edge_free v -> value_from_line (k ++ 61%N :: v) = v.
Proof.
  intros Hk Hv. destruct (plain_key_edge k Hk) as (He & Hne & Heq). unfold value_from_line.
  rewrite (strip_id _ (setting_edge_free k v Hk Hv)), split_eq_app by done. by apply strip_id.
Qed.

(** ** Documents *)

Definition line_entry (l : pystr) : option (pystr * pystr) :=
  match key_from_line l with Some k => Some (k, value_from_line l) | None => None end.
(** The settings of the lines, in order. *)
Definition entries (ls : list pystr) : dict pystr := omap line_entry ls.

Lemma entries_app l1 l2 : entries (l1 ++ l2) = entries l1 ++ entries l2.
Proof. apply omap_app. Qed.

Lemma entries_cons l ls :
  entries (l :: ls) = match key_from_line l with Some k => (k, value_from_line l) :: entries ls | None => entries ls end.
Proof. cbn. unfold line_entry. by destruct (key_from_line l). Qed.

Lemma parse_lines label d ls vs :
  foldM (parse_line label) d ls = Ok vs -> NoDup (dkeys d) -> vs = d ++ entries ls /\ NoDup (dkeys vs).
Proof.
  revert d. induction ls as [|l ls IH]; intros d; cbn [foldM].
  { intros [= <-] Hd. by rewrite app_nil_r. }
  rewrite entries_cons. intros (d' & Hl & Hr)%bind_ok Hd. unfold parse_line in Hl. destruct (key_from_line l) as [k|]; [|injection Hl as <-; by apply IH].
  destruct (dmem d k) eqn:Em; [done|]. injection Hl as <-.
  assert (k ∉ dkeys d) as Hk by (rewrite <-dmem_spec; congruence).
  destruct (IH _ Hr) as [-> Hn]; [by apply NoDup_dset|]. split; [|done].
  by rewrite dset_fresh, <-app_assoc by done.
Qed.
Lemma parse_lines_ok label d ls :
  NoDup (dkeys (d ++ entries ls)) -> foldM (parse_line label) d ls = Ok (d ++ entries ls).
Proof.
  revert d. induction ls as [|l ls IH]; intros d; cbn [foldM].
  { intros _. cbn. by rewrite app_nil_r. }
  rewrite entries_cons. unfold parse_line. destruct (key_from_line l) as [k|]; [|apply IH]. intros Hn.
  assert (k ∉ dkeys d) as Hk.
  { unfold dkeys in *. rewrite fmap_app in Hn. apply NoDup_app in Hn as (_ & Hn & _). intros Hin.
    destruct (Hn k Hin). cbn. by left. }
  destruct (dmem d k) eqn:Em; [by apply dmem_spec in Em|]. cbn. rewrite dset_fresh by done.
  change ((k, value_from_line l) :: entries ls) with ([(k, value_from_line l)] ++ entries ls) in *.
  rewrite app_assoc in Hn |- *. by apply IH.
Qed.

Definition unsupported (text : pystr) : bool := existsb (fun c => existsb (N.eqb c) text) INVALID_LINE_CHARS.
Lemma unsupported_false text : unsupported text = false <-> Forall (fun c => c ∉ text) INVALID_LINE_CHARS.
Proof.
  unfold unsupported. rewrite Forall_forall, <-not_true_iff_false, existsb_exists. split.
  - intros H c Hc Hin. apply H. exists c. split; [by apply list_elem_of_In|]. apply existsb_exists.
    exists c. split; [by apply list_elem_of_In|apply N.eqb_refl].
  - intros H (c & Hc%list_elem_of_In & (x & Hx%list_elem_of_In & ->%N.eqb_eq)%existsb_exists). by apply (H x).
Qed.

Lemma parse_env_exact text label doc :
  parse_env text label = Ok doc <->
  Forall (fun c => c ∉ text) INVALID_LINE_CHARS /\ NoDup (dkeys (entries (split_on 10 text))) /\
  doc = {| lines := split_on 10 text; values := entries (split_on 10 text) |}.
Proof.
  rewrite <-unsupported_false. unfold parse_env. fold (unsupported text). destruct (unsupported text); [naive_solver|].
  rewrite bind_ok. split.
  - intros (vs & Hvs & [= <-]). destruct (parse_lines _ _ _ _ Hvs) as [-> Hn]; [constructor|]. by cbn.
  - intros (_ & Hn & ->). exists (entries (split_on 10 text)). split; [|done]. by apply (parse_lines_ok label []).
Qed.

Lemma elem_of_join c sep l x : x ∈ l -> c ∈ x -> c ∈ join sep l.
Proof.
  induction l as [|y l IH]; [by intros ?%not_elem_of_nil|]. intros Hx Hc. destruct l as [|z l].
  { by apply list_elem_of_singleton in Hx as ->. }
  rewrite join_cons_nonnil by done. rewrite !elem_of_app. apply elem_of_cons in Hx as [->|Hx]; auto.
Qed.
Lemma elem_of_split c s x l : l ∈ split_on c s -> x ∈ l -> x ∈ s.
Proof. intros Hl Hx. rewrite <-(join_split_on c s). by eapply elem_of_join. Qed.

Lemma value_clean text l : Forall (fun c => c ∉ text) INVALID_LINE_CHARS -> l ∈ split_on 10 text -> clean (value_from_line l).
Proof.
  intros Hi Hl. assert (edge_free (value_from_line l)) as He.
  { unfold value_from_line. destruct (split_eq (strip l)) as [[]|]; [apply strip_edge_free|done]. }
  assert (forall c, c ∈ value_from_line l -> c ∈ l) as Hs.
  { intros c. unfold value_from_line. destruct (split_eq (strip l)) as [[a b]|] eqn:E; [|by intros ?%not_elem_of_nil].
    intros Hc%strip_sub. apply strip_sub. apply split_eq_Some in E as ->. rewrite elem_of_app, elem_of_cons. auto. }
  split_and!; [done| |].
  - intros Hc%Hs. by apply (split_on_no_sep 10 text l).
  - eapply Forall_impl; [apply Hi|]. intros c Hc Hin%Hs. apply Hc. by eapply elem_of_split.
Qed.
Lemma values_clean text label doc k v : parse_env text label = Ok doc -> dget (values doc) k = Some v -> clean v.
Proof.
  intros (Hi & _ & ->)%parse_env_exact Hv%dget_in. cbn in Hv. unfold entries in Hv.
  apply list_elem_of_omap in Hv as (l & Hl & He). unfold line_entry in He.
  destruct (key_from_line l); [|done]. injection He as _ <-. by eapply value_clean.
Qed.
Lemma clean_strip v : clean v -> clean (strip v).
Proof. intros [He Hv]. rewrite strip_id; done. Qed.

(** ** The selected values *)

Definition selection (selected : dict pystr) : Prop :=
  dkeys selected = APPROVED_KEYS /\ Forall (fun kv => clean (snd kv)) selected.

Lemma no_space_clean v : no_space v = true -> clean v.
Proof.
  unfold no_space. rewrite forallb_forall. intros Hv.
  assert (forall c, c ∈ v -> is_space c = false) as Hs by (intros c Hc%list_elem_of_In; by apply negb_true_iff, Hv).
  split_and!; [split| |].
  - destruct v; [done|]. apply Hs. by left.
  - destruct (last v) eqn:El; [|done]. apply Hs. apply last_Some in El as [l ->]. apply elem_of_app. right. by left.
  - by intros ?%Hs.
  - apply Forall_forall. intros c Hc Hin%Hs.
    assert (forallb is_space INVALID_LINE_CHARS = true) as Hi by (vm_compute; reflexivity).
    rewrite forallb_forall in Hi. rewrite Hi in Hin; [done|by apply list_elem_of_In].
Qed.

Lemma raw_setting_clean vs k v :
  (forall k v, dget vs k = Some v -> clean v) -> raw_setting vs k = Ok v -> clean v.
Proof.
  unfold raw_setting. intros Hvs (sc & _ & Hv)%bind_ok. destruct sc; [done|]. injection Hv as <-.
  unfold required. destruct (dget vs k) as [v|] eqn:E; [by eapply clean_strip, Hvs|]. by apply no_space_clean.
Qed.
Lemma check_port_approved vs p : check_port vs = Ok p -> p ∈ TLS_PORTS.
Proof.
  unfold check_port. intros (t & _ & Hp)%bind_ok. destruct (ascii_port t); [|done]. cbn [negb] in Hp.
  destruct (existsb _ TLS_PORTS) eqn:E; [|done]. injection Hp as <-.
  apply existsb_exists in E as (x & Hx & ->%Z.eqb_eq). by apply list_elem_of_In.
Qed.
Definition override_clean : bool := forallb no_space ALLOWED_SMTP_FROM_OVERRIDES.
Lemma override_is_clean v : str_in v ALLOWED_SMTP_FROM_OVERRIDES = true -> clean v.
Proof.
  intros Hv%str_in_elem%list_elem_of_In. apply no_space_clean.
  assert (override_clean = true) as H by (vm_compute; reflexivity). unfold override_clean in H.
  rewrite forallb_forall in H. by apply H.
Qed.

Lemma validate_source_selection text label doc override selected :
  parse_env text label = Ok doc -> validate_source (values doc) override = Ok selected -> selection selected.
Proof.
  intros Hdoc. assert (forall k v, dget (values doc) k = Some v -> clean v) as Hvs by (intros; by eapply values_clean).
  unfold validate_source. destruct (negb _); [done|]. intros H.
  do 3 peel H. peel H. apply check_port_approved in Hx2. do 5 peel H. injection H as <-.
  split; [reflexivity|]. repeat (apply Forall_cons; split); [..|constructor]; cbn [snd].
  all: try (by eapply raw_setting_clean; [apply Hvs|eassumption]).
  all: try (apply no_space_clean; vm_compute; reflexivity).
  - apply no_space_clean. unfold TLS_PORTS in Hx2.
    rewrite !elem_of_cons, elem_of_nil in Hx2. destruct Hx2 as [->|[->|[->|[]]]]; vm_compute; reflexivity.
  - destruct override as [o|]; [|injection Hx7 as <-; by eapply raw_setting_clean; [apply Hvs|eassumption]].
    destruct (str_in o ALLOWED_SMTP_FROM_OVERRIDES) eqn:Eo; [|done]. injection Hx7 as <-. by apply override_is_clean.
Qed.

(** ** The planned content *)

Lemma drop_blank_spec l : exists n, l = replicate n [] ++ drop_blank l.
Proof.
  induction l as [|x l [n IH]]; [by exists O|]. destruct x as [|c x]; [|by exists O].
  exists (S n). cbn. by rewrite <-IH.
Qed.
Lemma trim_blank_spec l : exists n, l = rev (drop_blank (rev l)) ++ replicate n [].
Proof.
  destruct (drop_blank_spec (rev l)) as [n Hn]. exists n. rewrite <-(rev_involutive l) at 1. rewrite Hn at 1.
  rewrite rev_app_distr. f_equal. clear. induction n as [|n IH]; [done|]. cbn [replicate rev]. rewrite IH.
  symmetry. apply (replicate_cons_app n (@nil N)).
Qed.
Lemma entries_blank n : entries (replicate n []) = [].
Proof. induction n as [|n IH]; [done|]. cbn [replicate]. by rewrite entries_cons. Qed.
Lemma entries_trim l : entries (rev (drop_blank (rev l))) = entries l.
Proof.
  destruct (trim_blank_spec l) as [n Hn]. rewrite Hn at 2. by rewrite entries_app, entries_blank, app_nil_r.
Qed.
Lemma entries_keep selected ls :
  entries (List.filter (keep_line selected) ls) = List.filter (fun kv => negb (dmem selected (fst kv))) (entries ls).
Proof.
  induction ls as [|l ls IH]; [done|]. cbn [List.filter]. rewrite entries_cons. unfold keep_line at 1.
  destruct (key_from_line l) as [k|] eqn:Ek.
  - assert (str_eqb (strip l) RECONCILE_MARKER = false) as ->.
    { apply str_eqb_neq. intros Hm. unfold key_from_line in Ek. by rewrite Hm in Ek. }
    rewrite andb_true_r. cbn [List.filter fst]. destruct (dmem selected k); cbn [negb]; [done|].
    by rewrite entries_cons, Ek, IH.
  - destruct (negb (str_eqb _ _)); cbn [andb]; [by rewrite entries_cons, Ek|done].
Qed.

Lemma approved_nodup : NoDup APPROVED_KEYS.
Proof. by_compute. Qed.
Lemma selection_get selected k : selection selected -> k ∈ APPROVED_KEYS -> exists v, dget selected k = Some v /\ clean v.
Proof.
  intros [Hk Hc] Hin. destruct (dget selected k) as [v|] eqn:E; [|apply dget_None in E; by rewrite Hk in E].
  exists v. split; [done|]. apply dget_in in E. rewrite Forall_forall in Hc. by apply (Hc (k, v)).
Qed.
Lemma selection_dmem selected k : selection selected -> dmem selected k = str_in k APPROVED_KEYS.
Proof.
  intros [Hk _]. apply eq_bool_prop_intro. by rewrite !Is_true_true, dmem_spec, str_in_elem, Hk.
Qed.
Lemma entries_settings selected : selection selected -> entries (setting_line selected <$> APPROVED_KEYS) = selected.
Proof.
  intros Hs. assert (entries (setting_line selected <$> APPROVED_KEYS)
    = (fun k => (k, default [] (dget selected k))) <$> APPROVED_KEYS) as ->.
  { assert (forall k, k ∈ APPROVED_KEYS -> plain_key k = true /\ clean (default [] (dget selected k))) as Hall.
    { intros k Hk. split; [by apply approved_plain_keys|]. by destruct (selection_get _ _ Hs Hk) as (v & -> & Hv). }
    induction APPROVED_KEYS as [|k ks IH]; [done|]. rewrite !fmap_cons, entries_cons.
    destruct (Hall k ltac:(by left)) as [Hp [Hv _]]. unfold setting_line at 1 2. change (lit "=") with [61%N]. cbn [app].
    rewrite setting_key, setting_value by done. f_equal. apply IH. intros; apply Hall. by right. }
  destruct Hs as [Hk _]. rewrite <-Hk. assert (NoDup (dkeys selected)) as Hn by (rewrite Hk; apply approved_nodup).
  clear Hk. unfold dkeys. rewrite <-list_fmap_compose. rewrite <-(list_fmap_id selected) at 2.
  apply list_fmap_ext. intros i [k v] Hi. cbn. by rewrite (dget_nodup selected k v Hn) by (by eapply list_elem_of_lookup_2).
Qed.

(** What the planned content is made of. *)
Record content_shape (ls : list pystr) (selected : dict pystr) (content : pystr) : Prop := {
  cs_lines : split_on 10 content = reconciled_lines ls selected ++ [[]];
  cs_entries : entries (split_on 10 content)
    = List.filter (fun kv => negb (dmem selected (fst kv))) (entries ls) ++ selected;
  cs_chars : Forall (fun c => c ∉ content) INVALID_LINE_CHARS;
}.

Lemma setting_line_chars selected k c :
  selection selected -> k ∈ APPROVED_KEYS -> c ∈ 10%N :: INVALID_LINE_CHARS -> c ∉ setting_line selected k.
Proof.
  intros Hs Hk Hc Hin. destruct (selection_get _ _ Hs Hk) as (v & Ev & _ & Hv10 & Hvi).
  unfold setting_line in Hin. rewrite Ev in Hin. cbn [from_option id] in Hin. rewrite !elem_of_app in Hin. destruct Hin as [Hin|[Hin|Hin]].
  - apply (plain_key_chars _ _ (approved_plain_keys _ Hk)), plain_char_facts in Hin as [Hsp _].
    assert (forallb is_space (10%N :: INVALID_LINE_CHARS) = true) as Hi by (vm_compute; reflexivity).
    rewrite forallb_forall in Hi. rewrite Hi in Hsp; [done|by apply list_elem_of_In].
  - change (lit "=") with [61%N] in Hin. apply list_elem_of_singleton in Hin as ->. revert Hc. by_compute.
  - apply elem_of_cons in Hc as [->|Hc]; [done|]. rewrite Forall_forall in Hvi. by apply (Hvi c).
Qed.
Lemma reconciled_line_chars ls selected l c :
  selection selected -> l ∈ reconciled_lines ls selected -> c ∈ 10%N :: INVALID_LINE_CHARS ->
  (forall l, l ∈ ls -> c ∉ l) -> c ∉ l.
Proof.
  intros Hs Hl Hc Hls. unfold reconciled_lines in Hl. rewrite !elem_of_app in Hl. destruct Hl as [Hl|[Hl|Hl]].
  - apply Hls. destruct (trim_blank_spec (List.filter (keep_line selected) ls)) as [n Hn].
    assert (l ∈ List.filter (keep_line selected) ls) as Hin by (rewrite Hn; apply elem_of_app; by left).
    apply list_elem_of_In, filter_In in Hin as [Hin _]. by apply list_elem_of_In.
  - apply elem_of_cons in Hl as [->|Hl]; [apply not_elem_of_nil|]. apply list_elem_of_singleton in Hl as ->.
    assert (forallb (fun c => negb (existsb (N.eqb c) RECONCILE_MARKER)) (10%N :: INVALID_LINE_CHARS) = true) as Hi
      by (vm_compute; reflexivity).
    rewrite forallb_forall in Hi. intros Hin. apply list_elem_of_In, Hi, negb_true_iff in Hc.
    apply not_true_iff_false in Hc. apply Hc, existsb_exists. exists c. split; [by apply list_elem_of_In|apply N.eqb_refl].
  - apply list_elem_of_fmap in Hl as (k & -> & Hk). by apply setting_line_chars.
Qed.

Lemma elem_of_join_inv c sep l : c ∈ join [sep] l -> c = sep \/ exists x, (x ∈ l) /\ c ∈ x.
Proof.
  induction l as [|x l IH]; [by intros ?%not_elem_of_nil|]. destruct l as [|y l].
  { intros Hc. right. exists x. split; [by left|done]. }
  rewrite join_cons_nonnil by done. rewrite !elem_of_app, list_elem_of_singleton. intros [Hc|[->|Hc]]; [|by left|].
  - right. exists x. split; [by left|done].
  - destruct (IH Hc) as [->|(z & Hz & Hcz)]; [by left|]. right. exists z. split; [by right|done].
Qed.

Lemma built_shape text doc selected content label :
  parse_env text label = Ok doc -> selection selected -> build_reconciled_content text selected = Ok content ->
  content_shape (lines doc) selected content.
Proof.
  intros (Hi & _ & ->)%parse_env_exact Hs (d & (_ & _ & ->)%parse_env_exact & [= <-])%bind_ok. cbn [lines].
  set (ls := split_on 10 text).
  assert (forall c, c ∈ 10%N :: INVALID_LINE_CHARS -> forall l, l ∈ ls -> c ∉ l) as Hls.
  { intros c [->|Hc]%elem_of_cons l Hl; [by apply (split_on_no_sep 10 text)|]. intros Hin.
    rewrite Forall_forall in Hi. apply (Hi c Hc). by eapply elem_of_split. }
  assert (forall c l, c ∈ 10%N :: INVALID_LINE_CHARS -> l ∈ reconciled_lines ls selected -> c ∉ l) as Hrl
    by (intros c l Hc Hl; eapply reconciled_line_chars; eauto).
  assert (split_on 10 (join [10%N] (reconciled_lines ls selected) ++ [10%N]) = reconciled_lines ls selected ++ [[]]) as Hsp.
  { apply content_lines; [by intros [? ?]%app_nil|]. apply Forall_forall. intros l. apply Hrl. by left. }
  split; [done| |].
  - rewrite Hsp. unfold reconciled_lines. rewrite !entries_app, entries_trim, entries_keep, entries_settings by done.
    by rewrite app_nil_r.
  - apply Forall_forall. intros c Hc. rewrite elem_of_app, list_elem_of_singleton. intros [Hin|E10].
    + apply elem_of_join_inv in Hin as [E10|(l & Hl & Hin)]; [revert Hc; rewrite E10; by_compute|].
      eapply Hrl; [by right|done..].
    + revert Hc. rewrite E10. by_compute.
Qed.

Lemma dget_app (a b : dict pystr) k : dget (a ++ b) k = match dget a k with Some v => Some v | None => dget b k end.
Proof. induction a as [|[k' v] a IH]; cbn; [done|]. by destruct (str_eqb k k'). Qed.
Lemma dget_filter (p : pystr -> bool) (d : dict pystr) k :
  dget (List.filter (fun kv => p (fst kv)) d) k = if p k then dget d k else None.
Proof.
  induction d as [|[k' v] d IH]; cbn; [by destruct (p k)|]. destruct (p k') eqn:Ep; cbn; rewrite IH.
  - destruct (str_eqb_spec k k') as [->|]; [by rewrite Ep|done].
  - destruct (str_eqb_spec k k') as [->|]; [by rewrite Ep|done].
Qed.

(** The planned content is read back as the selected values and the destination's other settings. *)
Lemma content_reads_back text doc selected content label label' :
  parse_env text label = Ok doc -> selection selected -> build_reconciled_content text selected = Ok content ->
  exists doc', parse_env content label' = Ok doc' /\
    forall k, dget (values doc') k = if str_in k APPROVED_KEYS then dget selected k else dget (values doc) k.
Proof.
  intros Hd Hs Hb. destruct (built_shape _ _ _ _ _ Hd Hs Hb) as [_ He Hc].
  apply parse_env_exact in Hd as (_ & Hn & ->). cbn [lines values] in *.
  eexists. split; [apply parse_env_exact; split_and!; [done| |reflexivity]|].
  - rewrite He. unfold dkeys. rewrite fmap_app. apply NoDup_app. split_and!.
    + eapply sublist_NoDup; [exact Hn|]. unfold dkeys. clear. induction (entries _) as [|kv d IH]; cbn; [done|].
      destruct (negb _); cbn; by constructor.
    + intros k (kv & -> & Hin)%list_elem_of_fmap Hk. apply list_elem_of_In, filter_In in Hin as [_ Hin].
      apply negb_true_iff, not_true_iff_false in Hin. by apply Hin, dmem_spec.
    + destruct Hs as [Hk _]. unfold dkeys in Hk. rewrite Hk. apply approved_nodup.
  - intros k. cbn [values]. rewrite He, dget_app, (dget_filter (fun k => negb (dmem selected k))).
    rewrite (selection_dmem _ _ Hs). destruct (str_in k APPROVED_KEYS) eqn:Ek; cbn [negb]; [done|].
    destruct (dget (entries _) k); [done|]. apply dget_None. destruct Hs as [-> _]. by apply str_in_not.
Qed.

Lemma drop_blank_idem l : drop_blank (drop_blank l) = drop_blank l.
Proof. induction l as [|[|c x] l IH]; [done| |done]. cbn. apply IH. Qed.
Lemma keep_kept selected ls l : l ∈ rev (drop_blank (rev (List.filter (keep_line selected) ls))) -> keep_line selected l = true.
Proof.
  intros Hl. destruct (trim_blank_spec (List.filter (keep_line selected) ls)) as [n Hn].
  assert (l ∈ List.filter (keep_line selected) ls) as Hin by (rewrite Hn; apply elem_of_app; by left).
  by apply list_elem_of_In, filter_In in Hin as [_ ?].
Qed.
Lemma filter_all {A} (p : A -> bool) l : (forall x, x ∈ l -> p x = true) -> List.filter p l = l.
Proof.
  induction l as [|x l IH]; intros Hl; cbn; [done|]. rewrite Hl by (by left). f_equal. apply IH. intros; apply Hl. by right.
Qed.
Lemma filter_none {A} (p : A -> bool) l : (forall x, x ∈ l -> p x = false) -> List.filter p l = [].
Proof.
  induction l as [|x l IH]; intros Hl; cbn; [done|]. rewrite Hl by (by left). apply IH. intros; apply Hl. by right.
Qed.

Lemma reconciled_lines_again ls selected :
  selection selected -> reconciled_lines (reconciled_lines ls selected ++ [[]]) selected = reconciled_lines ls selected.
Proof.
  intros Hs. unfold reconciled_lines at 1. unfold reconciled_lines at 2. f_equal.
  unfold reconciled_lines. set (K := rev (drop_blank (rev (List.filter (keep_line selected) ls)))).
  rewrite !List.filter_app, (filter_all _ K) by (apply keep_kept).
  rewrite (filter_none (A := list N) _ (setting_line selected <$> APPROVED_KEYS)).
  - change (rev (drop_blank (rev ((K ++ [[]]) ++ [[]]))) = K). rewrite !rev_app_distr. cbn [rev app drop_blank]. unfold K.
    by rewrite rev_involutive, drop_blank_idem.
  - intros l (k & -> & Hk)%list_elem_of_fmap. destruct (selection_get _ _ Hs Hk) as (v & Ev & Hv & _).
    unfold keep_line, setting_line. rewrite Ev. cbn [from_option id]. change (lit "=") with [61%N]. cbn [app].
    rewrite setting_key by (done || by apply approved_plain_keys). rewrite (selection_dmem _ _ Hs).
    by apply str_in_elem in Hk as ->.
Qed.

(** ** The source again *)

Lemma raw_setting_self vs vs' key v : raw_setting vs key = Ok v -> dget vs' key = Some v -> raw_setting vs' key = Ok v.
Proof.
  unfold raw_setting. intros (sc & Hsc & Hv)%bind_ok Hd. destruct sc as [|c sc]; [done|]. injection Hv as <-.
  assert (required vs' key = strip (required vs key)) as -> by (unfold required at 1; by rewrite Hd).
  rewrite strip_idem, Hsc. done.
Qed.

Lemma validate_ext a b override :
  (forall k, k ∈ APPROVED_KEYS -> dget a k = dget b k) -> validate_source a override = validate_source b override.
Proof.
  intros Hab. assert (forall k, k ∈ APPROVED_KEYS -> required a k = required b k) as Hr
    by (intros k Hk; unfold required; by rewrite Hab).
  assert (forall k, k ∈ APPROVED_KEYS -> raw_setting a k = raw_setting b k) as Hs
    by (intros k Hk; unfold raw_setting; by rewrite Hr).
  unfold validate_source.
  rewrite (List.filter_ext_in (fun key => negb (dmem a key)) (fun key => negb (dmem b key))).
  - unfold check_public_login, check_magic_log, check_smtp_auth, check_port.
    rewrite !Hs, !Hr, Hab by by_compute. done.
  - intros k Hk%list_elem_of_In. unfold dmem. rewrite Hab; [done|]. revert k Hk. apply Forall_forall. by_compute.
Qed.

Lemma override_raw vs v : str_in v ALLOWED_SMTP_FROM_OVERRIDES = true -> dget vs "SMTP_FROM" = Some v ->
  raw_setting vs "SMTP_FROM" = Ok v.
Proof.
  intros Hv%str_in_elem Hd. unfold raw_setting, required. rewrite Hd. cbn [from_option id]. revert Hv.
  unfold ALLOWED_SMTP_FROM_OVERRIDES. rewrite !elem_of_cons, elem_of_nil. intros [->|[->|[]]]; vm_compute; reflexivity.
Qed.

(** The selected values validate, and select themselves. *)
Lemma selection_validates vs override selected : validate_source vs override = Ok selected -> validate_source selected None = Ok selected.
Proof.
  unfold validate_source at 1. destruct (negb _); [done|]. intros H.
  do 3 peel H. peel H. rename x2 into port. apply check_port_approved in Hx2. do 5 peel H.
  injection H as <-. match goal with |- validate_source ?l None = _ => set (sel := l) end.
  assert (raw_setting sel "SMTP_HOST" = Ok x2) as Eh by (by eapply raw_setting_self; [exact Hx3|]).
  assert (raw_setting sel "SMTP_USER" = Ok x3) as Eu by (by eapply raw_setting_self; [exact Hx4|]).
  assert (raw_setting sel "SMTP_PASS" = Ok x4) as Ep by (by eapply raw_setting_self; [exact Hx5|]).
  assert (raw_setting sel "SMTP_FROM" = Ok x6) as Ef.
  { destruct override as [o|]; [|injection Hx7 as <-; by eapply raw_setting_self; [exact Hx6|]].
    destruct (str_in o ALLOWED_SMTP_FROM_OVERRIDES) eqn:Eo; [|done]. injection Hx7 as <-. by apply override_raw. }
  assert (check_port sel = Ok port) as Eport.
  { unfold TLS_PORTS in Hx2. rewrite !elem_of_cons, elem_of_nil in Hx2.
    destruct Hx2 as [->|[->|[->|[]]]]; vm_compute; reflexivity. }
  unfold validate_source.
  change (List.filter (fun key => negb (dmem sel key)) REQUIRED_SOURCE_KEYS) with (@nil pystr).
  change (check_public_login sel) with (@Ok exn unit tt). change (check_magic_log sel) with (@Ok exn unit tt).
  change (check_smtp_auth sel) with (@Ok exn unit tt).
  rewrite Eport, Eh, Eu, Ep, Ef. reflexivity.
Qed.
End text.

(** ** The plan digest *)

Lemma to_bytes_inj k n m r r' a b : to_bytes_big k n = Ok a -> to_bytes_big k m = Ok b -> a ++ r = b ++ r' -> n = m /\ r = r'.
Proof.
  unfold to_bytes_big. destruct (N.ltb_spec (N.of_nat n) (2 ^ (8 * N.of_nat k))); [|done].
  destruct (N.ltb_spec (N.of_nat m) (2 ^ (8 * N.of_nat k))); [|done]. intros [= <-] [= <-] E.
  apply app_inj_1 in E as [E ->]; [|by rewrite !length_be_bytes]. split; [|done].
  apply be_bytes_inj in E; [lia|done..].
Qed.

Lemma field_inj l1 v1 l2 v2 a b r r' : update_plan_field l1 v1 = Ok a -> update_plan_field l2 v2 = Ok b ->
  a ++ r = b ++ r' -> (l1, v1) = (l2, v2) /\ r = r'.
Proof.
  unfold update_plan_field. intros (b1 & Hb1 & (n1 & Hn1 & (m1 & Hm1 & [= <-])%bind_ok)%bind_ok)%bind_ok.
  intros (b2 & Hb2 & (n2 & Hn2 & (m2 & Hm2 & [= <-])%bind_ok)%bind_ok)%bind_ok. rewrite <-!app_assoc. intros E.
  destruct (to_bytes_inj 4 _ _ _ _ _ _ Hn1 Hn2 E) as [El E1]. apply app_inj_1 in E1 as [-> E1]; [|done].
  destruct (to_bytes_inj 8 _ _ _ _ _ _ Hm1 Hm2 E1) as [Ev E2]. apply app_inj_1 in E2 as [-> ->]; [|done].
  by rewrite (encode_inj l1 l2 b2 Hb1 Hb2).
Qed.
Lemma field_nonempty l v a : update_plan_field l v = Ok a -> a <> [].
Proof.
  unfold update_plan_field. intros (b1 & Hb1 & (n1 & Hn1 & (m1 & Hm1 & [= <-])%bind_ok)%bind_ok)%bind_ok.
  unfold to_bytes_big in Hn1. destruct (_ <? _)%N; [|done]. injection Hn1 as <-. done.
Qed.

Lemma plan_bytes_inj fs gs b : plan_bytes fs = Ok b -> plan_bytes gs = Ok b -> fs = gs.
Proof.
  unfold plan_bytes. intros (cs & Hcs%mapM_ok & [= <-])%bind_ok (ds & Hds%mapM_ok & [= E])%bind_ok.
  revert gs ds Hds E. induction Hcs as [|[l v] c fs cs Hc Hcs IH]; intros gs ds Hds E.
  - destruct Hds as [|[l' v'] d gs ds Hd Hds]; [done|]. cbn in E. apply field_nonempty in Hd.
    symmetry in E. destruct d; [|done]. by symmetry in E.
  - destruct Hds as [|[l' v'] d gs ds Hd Hds]; cbn in E.
    { apply field_nonempty in Hc. by destruct c. }
    symmetry in E. destruct (field_inj _ _ _ _ _ _ _ _ Hc Hd E) as [[= -> ->] E']. f_equal. by apply (IH _ ds).
Qed.

(** What a plan digest stands for: the paths as the operating system has them, the texts read, the
    text to be written, and the identity, the owner and the permissions of the three objects. *)
Record same_stat (a b : fstat) : Prop := {
  ss_dev : st_dev a = st_dev b; ss_ino : st_ino a = st_ino b;
  ss_uid : st_uid a = st_uid b; ss_gid : st_gid a = st_gid b;
  ss_mode : S_IMODE (st_mode a) = S_IMODE (st_mode b);
}.
Record same_plan (p q : plan) : Prop := {
  sp_source : fsencode (path_str (pl_source_path p)) = fsencode (path_str (pl_source_path q));
  sp_destination : fsencode (path_str (pl_destination_path p)) = fsencode (path_str (pl_destination_path q));
  sp_backup : fsencode (path_str (pl_backup_dir p)) = fsencode (path_str (pl_backup_dir q));
  sp_source_text : pl_source_text p = pl_source_text q;
  sp_destination_text : pl_destination_text p = pl_destination_text q;
  sp_content : pl_content p = pl_content q;
  sp_source_stat : same_stat (pl_source_stat p) (pl_source_stat q);
  sp_destination_stat : same_stat (pl_destination_stat p) (pl_destination_stat q);
  sp_backup_stat : same_stat (pl_backup_stat p) (pl_backup_stat q);
}.

Lemma plan_fields_inj p q fs : plan_fields p = Ok fs -> plan_fields q = Ok fs -> same_plan p q.
Proof.
  unfold plan_fields. intros H1 H2. do 6 peel H1. do 6 peel H2. injection H1 as <-. injection H2. clear H2. intros.
  repeat match goal with H : show_Z _ = show_Z _ |- _ => apply show_Z_inj in H end. subst.
  split; try (split; congruence); try congruence; by eapply encode_inj.
Qed.
Lemma same_plan_fields p q : same_plan p q -> plan_fields p = plan_fields q.
Proof.
  intros [E1 E2 E3 E4 E5 E6 [D1 I1 U1 G1 M1] [D2 I2 U2 G2 M2] [D3 I3 U3 G3 M3]].
  unfold plan_fields, stat_plan_fields. by rewrite E1, E2, E3, E4, E5, E6, D1, I1, U1, G1, M1, D2, I2, U2, G2, M2, D3, I3, U3, G3, M3.
Qed.

(** The byte string of a plan that its digest is taken of. *)
Definition plan_text (p : plan) (b : bytes) : Prop := exists fs, plan_fields p = Ok fs /\ plan_bytes fs = Ok b.

(** ** The planned content, read back *)

Section claims.
Context {host : PyHost}.

(** C27: the planned content is itself an environment file of which the approved settings are the
    validated ones and every other setting is the destination's; and it passes the validation of a
    source with exactly those values. *)
Theorem reconciled_reads_back source_text text override source destination selected content l1 l2 l3 :
  parse_env source_text l1 = Ok source -> validate_source (values source) override = Ok selected ->
  parse_env text l2 = Ok destination -> build_reconciled_content text selected = Ok content ->
  exists document, parse_env content l3 = Ok document /\
    (forall k, dget (values document) k
      = if str_in k APPROVED_KEYS then dget selected k else dget (values destination) k) /\
    (forall k, k ∈ APPROVED_KEYS -> exists v, dget selected k = Some v) /\
    validate_source (values document) None = Ok selected.
Proof.
  intros Hs Hv Hd Hb. pose proof (validate_source_selection _ _ _ _ _ Hs Hv) as Hsel.
  destruct (content_reads_back _ _ _ _ _ l3 Hd Hsel Hb) as (doc & Hdoc & Hk). exists doc. split_and!; [done..| |].
  - intros k Hin. destruct (selection_get _ _ Hsel Hin) as (v & ? & _). by exists v.
  - rewrite (validate_ext _ selected); [by eapply selection_validates|]. intros k Hin. rewrite Hk.
    by apply str_in_elem in Hin as ->.
Qed.

(** Reconciling is idempotent: the content planned from a reconciled destination is that
    destination, character by character, and no approved key would change. *)
Theorem reconcile_idempotent source_text text override source selected content l1 l2 destination :
  parse_env source_text l1 = Ok source -> validate_source (values source) override = Ok selected ->
  build_reconciled_content text selected = Ok content -> parse_env content l2 = Ok destination ->
  build_reconciled_content content selected = Ok content /\ changed_keys (values destination) selected = [].
Proof.
  intros Hs Hv Hb Hd. pose proof (validate_source_selection _ _ _ _ _ Hs Hv) as Hsel.
  pose proof Hb as (doc & Hdoc & _)%bind_ok. pose proof (built_shape _ _ _ _ _ Hdoc Hsel Hb) as [Hl _ Hc].
  destruct (content_reads_back _ _ _ _ _ l2 Hdoc Hsel Hb) as (doc' & Hdoc' & Hk).
  rewrite Hd in Hdoc'. injection Hdoc' as <-. split.
  - unfold build_reconciled_content. apply bind_ok. apply parse_env_exact in Hd as (_ & Hn & _).
    eexists. split; [apply parse_env_exact; split_and!; [done..|reflexivity]|]. cbn [lines].
    rewrite Hl, reconciled_lines_again by done. unfold build_reconciled_content in Hb. rewrite Hdoc in Hb. exact Hb.
  - apply filter_none. intros k Hin. rewrite Hk. apply str_in_elem in Hin as ->.
    apply negb_false_iff. by apply bool_decide_eq_true.
Qed.

(** C28: a plan digest stands for its plan: the digests of two plans are the SHA-256 of their own byte
    strings, and these two byte strings are the same exactly when the plans agree on the paths, the
    texts read, the text to be written and the identity, owner and permissions of the source, the
    destination and the backup directory.  So two plans that differ in any of these have one digest
    only if their two byte strings collide under SHA-256. *)
Theorem plan_digest_binds p q h h' :
  plan_sha256 p = Ok h -> plan_sha256 q = Ok h' ->
  exists b b', plan_text p b /\ plan_text q b' /\ h = sha256_hex b /\ h' = sha256_hex b' /\
    (b = b' <-> same_plan p q).
Proof.
  unfold plan_sha256. intros (fs & Hfs & (b & Hb & [= <-])%bind_ok)%bind_ok.
  intros (gs & Hgs & (b' & Hb' & [= <-])%bind_ok)%bind_ok.
  exists b, b'. split_and!; [by exists fs|by exists gs|done|done|]. split.
  - intros <-. rewrite (plan_bytes_inj _ _ _ Hb Hb') in Hfs. by eapply plan_fields_inj.
  - intros Hs%same_plan_fields. rewrite Hfs, Hgs in Hs. injection Hs as ->. congruence.
Qed.
End claims.
