(* ===== verification/EnvSafety.v ===== *)
(** * Proofs of the environment reconciler: the transaction

    What the assertions of [FileLogic] give for the reconciler, of which every system call may fail
    before or after its effect: a dry run writes nothing, and whatever fails, the
    destination is the old file, or the whole content of the approved plan beside a backup of the
    old bytes. *)

From S2P Require Import Prelude PyStr Effects Json JsonText Sha256 Utf8 FileSystem FileLogic EnvReconcile EnvProofs.
Open Scope Z_scope.

(** ** Refusals *)

Section refusals.
Context (dirs : gmap dir fstat).
Abbreviation ens := (ens dirs).
Abbreviation silent := (silent dirs).
Lemma ens_refuse {A : Type} (P R : files_map -> Prop) msg (Q : A -> files_map -> Prop) : (forall x, P x -> R x) -> ens P (refuse msg) Q R.
Proof. intros HR s Hs Hp. split; [done|]. by apply HR. Qed.
Lemma ens_require {A : Type} (P R : files_map -> Prop) b msg (k : eff fs A) Q :
  (b = true -> ens P k Q R) -> (forall x, P x -> R x) -> ens P (require b msg k) Q R.
Proof. intros Hk HR. unfold require. destruct b; [by apply Hk|by apply ens_refuse]. Qed.
Lemma silent_refuse {A : Type} msg : silent (refuse (A := A) msg).
Proof. intros P. by apply ens_refuse. Qed.
Lemma silent_require {A : Type} b msg (k : eff fs A) : silent k -> silent (require b msg k).
Proof. intros Hk P. apply ens_require; [|done]. intros _. apply Hk. Qed.
End refusals.
#[export] Hint Resolve silent_refuse silent_require : silent.

(** What a call leaves to read: the file behind a name, unchanged. *)
Section calls.
Context (dirs : gmap dir fstat).
Abbreviation ens := (ens dirs).
Abbreviation silent := (silent dirs).

Lemma silent_when_root b st label : silent (when_root b st label).
Proof. unfold when_root. destruct b; auto with silent. Qed.
#[local] Hint Resolve silent_open_dir silent_open_file silent_read_bytes silent_fsync silent_listdir silent_next_short
  silent_when_root : silent.

Lemma silent_acquire attempts deadline : silent (acquire_exclusive_lock attempts deadline).
Proof.
  induction attempts as [|[[] now] attempts IH]; cbn; [apply silent_sys| |apply silent_sys].
  destruct (_ <=? 0); auto with silent.
Qed.
Lemma silent_walk p label root here rest : silent (walk p label root here rest).
Proof.
  revert here. induction rest as [|part rest IH]; intros here; cbn; [auto with silent|].
  apply silent_bind; [auto with silent|]. intros st'. apply silent_require, silent_bind; auto with silent.
Qed.
#[local] Hint Resolve silent_acquire silent_walk : silent.
Lemma silent_open_trusted p label root mode : silent (open_trusted_directory p label root mode).
Proof.
  unfold open_trusted_directory. apply silent_bind; [auto with silent|]. intros n. apply silent_bind; [auto with silent|].
  intros st. apply silent_require, silent_bind; [auto with silent|]. intros _. apply silent_bind; [auto with silent|].
  intros _. apply silent_bind; [auto with silent|]. intros final. destruct mode; auto with silent.
Qed.

(** What a reading of a name returns. *)
Definition opened_as (f : file) (o : OpenedEnv) : Prop :=
  raw_bytes o = f_bytes f /\ file_stat o = f_stat f /\ decode_strict (f_bytes f) = Ok (env_text o) /\
  S_ISREG (st_mode (f_stat f)) = true.

Lemma ens_read P d name label root :
  ens P (read_regular_at d name label root)
    (fun o x => P x /\ exists f, x !! (d, name) = Some f /\ opened_as f o) P.
Proof.
  unfold read_regular_at. apply ens_require; [|done]. intros _. eapply ens_bind.
  { apply ens_try; [apply ens_open_file|]. intros e. by apply ens_refuse. }
  intros f. cbn beta. apply ens_require; [|by intros x []]. intros Hreg.
  eapply ens_bind; [apply ens_quiet; [apply silent_when_root|by intros x []]|]. cbn beta. intros _.
  eapply ens_bind with (Q' := fun raw x => (P x /\ x !! (d, name) = Some f) /\ raw = f_bytes f).
  { apply ens_sys; [|by intros x []|by intros a x [[] _]]. intros s Hs Hp. by split. }
  intros raw. cbn beta. destruct (decode_strict raw) as [text|e] eqn:E.
  - apply ens_ret. intros x [[Hp Hf] ->]. split; [done|]. by exists f.
  - apply ens_refuse. by intros x [[] _].
Qed.
Lemma silent_read d name label root : silent (read_regular_at d name label root).
Proof. intros P. eapply ens_weaken; [apply (ens_read P)|done|by intros a x []|done]. Qed.
End calls.
#[export] Hint Resolve silent_open_dir silent_open_file silent_read_bytes silent_fsync silent_listdir silent_next_short
  silent_when_root silent_acquire silent_walk silent_open_trusted silent_read : silent.

(** ** Names *)

Lemma rotate (c a : N) (n u w : pystr) : c :: n ++ u = n ++ a :: w -> a = c /\ u = w.
Proof.
  revert u. induction n as [|x n IH]; intros u; cbn; [by intros [= -> ->]|].
  intros [= <- E]. by eapply IH.
Qed.
(** Neither the destination nor its backup has the name of a temporary file, or of the lock. *)
Lemma dotted_name (name u w : pystr) : lit "." ++ name ++ u = name ++ lit "." ++ w -> u = w.
Proof. change (46%N :: name ++ u = name ++ 46%N :: w -> u = w). by intros [_ H]%rotate. Qed.
Lemma destination_not_temp name : startswith (temp_prefix name) name = false.
Proof.
  apply not_true_iff_false. intros [t Ht]%startswith_spec. apply (f_equal length) in Ht. unfold temp_prefix in Ht.
  rewrite !length_app in Ht. change (length (lit ".")) with 1%nat in Ht. lia.
Qed.
Lemma backup_not_temp name x : startswith (temp_prefix name) (name ++ lit ".bak-" ++ x) = false.
Proof.
  apply not_true_iff_false. intros [t Ht]%startswith_spec. unfold temp_prefix in Ht. rewrite <-!app_assoc in Ht.
  symmetry in Ht. apply (dotted_name name (lit ".reconcile-" ++ t) (lit "bak-" ++ x)) in Ht. discriminate Ht.
Qed.
Lemma backup_not_lock name x : name ++ lit ".bak-" ++ x <> lock_name name.
Proof.
  unfold lock_name. intros Ht. symmetry in Ht.
  apply (dotted_name name (lit ".reconcile.lock") (lit "bak-" ++ x)) in Ht. discriminate Ht.
Qed.
Lemma destination_not_lock name : name <> lock_name name.
Proof. unfold lock_name. intros Ht. apply (f_equal length) in Ht. rewrite !length_app in Ht. change (length (lit ".")) with 1%nat in Ht. lia. Qed.
Lemma backup_not_destination name x : name ++ lit ".bak-" ++ x <> name.
Proof. intros Ht. apply (f_equal length) in Ht. rewrite !length_app in Ht. change (length (lit ".bak-")) with 5%nat in Ht. lia. Qed.

(** ** Files written *)

Section writing.
Context (dirs : gmap dir fstat) (pr : process).
Abbreviation ens := (ens dirs).

Definition written (content : bytes) (uid gid : Z) (f : file) : Prop :=
  f_bytes f = content /\ st_uid (f_stat f) = uid /\ st_gid (f_stat f) = gid /\ st_mode (f_stat f) = 32768 + 384.

Lemma ens_remove_quietly (P : files_map -> Prop) d n : stable P (d, n) -> ens P (remove_quietly d n) (fun _ => P) P.
Proof.
  intros HP. apply ens_try; [|intros e; by apply ens_ret]. eapply ens_bind; [by apply ens_unlink|].
  cbn beta. intros _. apply silent_fsync.
Qed.
Lemma ens_write_exclusive (P : files_map -> Prop) d n content uid gid : stable P (d, n) ->
  ens P (write_file_exclusive_at pr d n content uid gid)
    (fun _ x => P x /\ exists f, x !! (d, n) = Some f /\ written content uid gid f) P.
Proof.
  intros HP. unfold write_file_exclusive_at. eapply ens_bind; [by apply ens_create|]. cbn beta. intros _.
  apply ens_on_error with (R' := P); [|by apply ens_remove_quietly].
  eapply ens_bind; [by apply ens_write_content|]. cbn beta. intros _. eapply ens_bind.
  { apply ens_alter with (q := fun f => filled content f /\ st_uid (f_stat f) = uid /\ st_gid (f_stat f) = gid); [done|].
    by intros f []. }
  cbn beta. intros _. eapply ens_bind.
  { apply ens_alter with (q := written content uid gid); [done|]. intros f ((? & Hm & _) & ? & ?). split_and!; try done.
    cbn. by rewrite Hm. }
  cbn beta. intros _. apply ens_quiet; [auto with silent|by intros x []].
Qed.

Lemma ens_cleanup (P : files_map -> Prop) d prefix uid gid :
  (forall n, startswith prefix n = true -> stable P (d, n)) -> ens P (cleanup_orphan_temps d prefix uid gid) (fun _ => P) P.
Proof.
  intros HP. unfold cleanup_orphan_temps. eapply ens_bind; [apply silent_listdir|]. cbn beta. intros names.
  eapply ens_bind; [|cbn beta; intros u; apply (silent_fsync dirs P)]. apply ens_for_each. intros n. unfold cleanup_orphan.
  destruct (startswith prefix n) eqn:En; cbn [negb]; [|by apply ens_ret].
  eapply ens_bind; [apply ens_quiet; [auto 6 with silent|done]|]. cbn beta.
  intros [f|]; [|by apply ens_ret]. destruct (_ && _); [|by apply ens_ret]. by apply ens_unlink, HP.
Qed.
End writing.

(** ** The transaction *)

Section transaction.
Context {host : PyHost} (dirs : gmap dir fstat) (pr : process) (r : request) (m0 : files_map).
Abbreviation ens := (ens dirs).
Abbreviation silent := (silent dirs).
Abbreviation name := (path_name (r_destination r)).
Abbreviation source_key := (parts (path_parent (r_source r)), path_name (r_source r)).
Abbreviation destination_key := (parts (path_parent (r_destination r)), path_name (r_destination r)).
Abbreviation backup_key := (parts (r_backup_dir r), path_name (r_destination r) ++ lit ".bak-" ++ p_stamp pr ++ lit "-" ++ show_Z (p_pid pr)).
Abbreviation lock_key := (parts (path_parent (r_destination r)), lock_name (path_name (r_destination r))).

(** The files the reconciler may touch besides the destination: its backup, its lock and the
    temporary files of this destination. *)
Definition ours (k : dir * pystr) : Prop :=
  k = backup_key \/ k = lock_key \/
  fst k = parts (path_parent (r_destination r)) /\ startswith (temp_prefix name) (snd k) = true.
Definition others_kept (x : files_map) : Prop := forall k, ~ ours k -> k <> destination_key -> x !! k = m0 !! k.
Definition untouched (x : files_map) : Prop := others_kept x /\ x !! destination_key = m0 !! destination_key.
(** A backup of [f]: its bytes and its owner, closed to everybody else. *)
Definition copy_of (f b : file) : Prop :=
  f_bytes b = f_bytes f /\ st_uid (f_stat b) = st_uid (f_stat f) /\ st_gid (f_stat b) = st_gid (f_stat f) /\
  S_IMODE (st_mode (f_stat b)) = 384.
Definition backup_of (f : file) (x : files_map) : Prop := exists b, x !! backup_key = Some b /\ copy_of f b.
(** The destination holds the approved plan: the content planned from the two files as they were
    read, whose digest is the expected one, written in full with the old owner, next to a backup. *)
Definition approved (x : files_map) : Prop :=
  exists fs fd source destination backup_stat keys content sha expected f1,
    m0 !! source_key = Some fs /\ opened_as fs source /\
    m0 !! destination_key = Some fd /\ opened_as fd destination /\
    planned_content r source destination = Ok (keys, content) /\
    planned_sha r source destination backup_stat content = Ok sha /\
    r_apply r = true /\ r_expected r = Some expected /\ lower (strip expected) = sha /\
    x !! destination_key = Some f1 /\
    (exists b, encode content = Ok b /\ written b (st_uid (f_stat fd)) (st_gid (f_stat fd)) f1) /\
    backup_of fd x.
Definition safe (x : files_map) : Prop := others_kept x /\ (x !! destination_key = m0 !! destination_key \/ approved x).

Lemma untouched_safe x : untouched x -> safe x.
Proof. intros [Ho Hd]. split; [done|by left]. Qed.

Lemma ours_not_destination k : ours k -> k <> destination_key.
Proof.
  intros [->|[->|[Hd Ht]]] E.
  - injection E as _ E. by apply backup_not_destination in E.
  - injection E as E. by apply (destination_not_lock name).
  - subst k. cbn in Ht. by rewrite destination_not_temp in Ht.
Qed.
Lemma stable_kept k : ours k -> stable others_kept k.
Proof.
  intros Hk x Hx. split; [|intros v]; intros k' Hn Hd.
  - rewrite lookup_delete_ne; [by apply Hx|]. by intros ->.
  - rewrite lookup_insert_ne; [by apply Hx|]. by intros ->.
Qed.
Lemma stable_untouched k : ours k -> stable untouched k.
Proof.
  intros Hk. apply stable_and; [by apply stable_kept|].
  apply (stable_lookup k destination_key (fun o => o = _)). by apply ours_not_destination.
Qed.
Lemma stable_backup k f : k <> backup_key -> stable (backup_of f) k.
Proof. intros Hk. by apply (stable_found k backup_key (copy_of f)). Qed.
Lemma temp_not_backup d n : ours (d, n) -> startswith (temp_prefix name) n = true -> (d, n) <> backup_key.
Proof. intros _ Ht E. injection E as _ ->. by pose proof (eq_trans (eq_sym Ht) (backup_not_temp name _)). Qed.
Lemma temp_ours n : startswith (temp_prefix name) n = true -> ours (parts (path_parent (r_destination r)), n).
Proof. intros Hn. right. right. done. Qed.
Lemma temp_name_prefix : startswith (temp_prefix name) (temp_prefix name ++ p_token pr) = true.
Proof. apply startswith_spec. by eexists. Qed.

Lemma ens_backup fd opened :
  opened_as fd opened ->
  ens untouched (make_backup pr (fst backup_key) (snd backup_key) (r_require_root r) opened)
    (fun _ x => untouched x /\ backup_of fd x) untouched.
Proof.
  intros (Hraw & Hst & _). unfold make_backup. assert (stable untouched backup_key) as Hb by (apply stable_untouched; by left).
  eapply ens_bind; [by apply ens_write_exclusive|]. cbn beta. intros _.
  eapply ens_bind; [apply ens_quiet; [apply silent_fsync|by intros x []]|]. cbn beta. intros _.
  apply ens_on_error with (R' := untouched); [|by apply ens_remove_quietly].
  eapply ens_bind; [eapply ens_weaken; [apply ens_read|intros x Hx; exact Hx|intros ? x Hx; exact Hx|by intros x []]|].
  cbn beta. intros v. apply ens_require; [|by intros x [[] _]]. intros H. apply ens_ret.
  intros x [[Hu _] (b & Hlook & Hvr & Hvs & _)]. split; [done|]. exists b. split; [done|].
  rewrite !andb_true_iff, !Z.eqb_eq, bool_decide_eq_true in H. rewrite Hvr, Hvs, Hraw, Hst in H. by destruct H as [[[? ?] ?] ?].
Qed.

(** The renaming of the temporary file over the destination. *)
Definition moved (content : bytes) (fd : file) (x : files_map) : Prop :=
  others_kept x /\ (exists f1, x !! destination_key = Some f1 /\
    written content (st_uid (f_stat fd)) (st_gid (f_stat fd)) f1) /\ backup_of fd x.
Lemma stable_moved content fd k : ours k -> k <> backup_key -> stable (moved content fd) k.
Proof.
  intros Hk Hb. apply stable_and; [by apply stable_kept|]. apply stable_and; [|by apply stable_backup].
  apply (stable_found k destination_key (written content _ _)). by apply ours_not_destination.
Qed.

Lemma ens_replace content fd :
  ens (fun x => untouched x /\ backup_of fd x)
    (replace_destination pr (fst destination_key) name content (f_stat fd))
    (fun _ => moved content fd) (fun x => untouched x \/ moved content fd x).
Proof.
  unfold replace_destination. set (T := temp_prefix name ++ p_token pr).
  assert (ours (fst destination_key, T)) as Ho by apply temp_ours, temp_name_prefix.
  assert ((fst destination_key, T) <> backup_key) as Hnb by (apply temp_not_backup; [done|apply temp_name_prefix]).
  eapply ens_bind.
  { eapply ens_weaken; [apply ens_write_exclusive with (P := fun x => untouched x /\ backup_of fd x)
      (content := content) (uid := st_uid (f_stat fd)) (gid := st_gid (f_stat fd))|done|done|intros x []; by left].
    apply stable_and; [by apply stable_untouched|by apply stable_backup]. }
  cbn beta. intros _. eapply ens_bind; [|cbn beta; intros u; apply ens_quiet; [apply silent_fsync|intros x Hx; by right]].
  apply ens_on_error with (R' := fun x => untouched x \/ moved content fd x).
  2:{ apply ens_unlink, stable_or; [by apply stable_untouched|by apply stable_moved]. }
  apply ens_sys; [|by intros x [[] _]; left|intros a x Hx; by right].
  intros s Hs [[[Hk Hd] Hb] (f & Hf & Hw)]. cbv beta. rewrite Hf. split; [exact Hs|]. cbn.
  split_and!.
  - intros k Hn Hne. rewrite lookup_insert_ne by done. rewrite lookup_delete_ne; [by apply Hk|]. intros <-. done.
  - exists f. by rewrite lookup_insert_eq.
  - destruct Hb as (b & Hlook & Hb). exists b. split; [|done].
    rewrite lookup_insert_ne; [by rewrite lookup_delete_ne|]. intros E. apply (ours_not_destination backup_key); [by left|done].
Qed.

(** Under the lock, before the backup: nothing but the lock is new. *)
Definition early (x : files_map) : Prop := x = m0 \/ exists f, m0 !! lock_key = None /\ x = <[lock_key := f]> m0.
Lemma lock_not_destination : lock_key <> destination_key.
Proof. intros [= E]. symmetry in E. by apply (destination_not_lock name). Qed.
Lemma early_untouched x : early x -> untouched x.
Proof.
  intros [->|(f & Hn & ->)]; [by split|]. split.
  - intros k Hk _. rewrite lookup_insert_ne; [done|]. intros <-. apply Hk. right. by left.
  - rewrite lookup_insert_ne; [done|]. apply lock_not_destination.
Qed.
Lemma early_lookup x k f : early x -> is_Some (m0 !! k) -> x !! k = Some f -> m0 !! k = Some f.
Proof.
  intros [->|(g & Hn & ->)] [h Hh]; [done|]. rewrite lookup_insert_ne; [done|]. intros E. subst k. by pose proof (eq_trans (eq_sym Hn) Hh).
Qed.

Lemma ens_lock : ens (fun x => x = m0) (open_lock pr (fst lock_key) (snd lock_key)) (fun _ => early) early.
Proof.
  apply ens_sys; [|by intros x ->; left|done]. intros s Hs Hx. cbv beta.
  destruct (fs_files s !! _) eqn:E; (split; [exact Hs|]).
  - cbn. rewrite Hx. destruct (S_ISLNK _); by left.
  - cbn [snd fst]. match goal with |- context [match ?o with Some _ => _ | None => no_entry _ end] => destruct o end;
      right; eexists; (split; [by rewrite <-Hx|cbn; by rewrite Hx]).
Qed.

(** The write, once the approved plan is known. *)
Lemma ens_write fs fd source destination backup_stat keys content sha expected (A : Type) (finish : OpenedEnv -> eff _ A) :
  m0 !! source_key = Some fs -> opened_as fs source -> m0 !! destination_key = Some fd -> opened_as fd destination ->
  planned_content r source destination = Ok (keys, content) ->
  planned_sha r source destination backup_stat content = Ok sha ->
  r_apply r = true -> r_expected r = Some expected -> lower (strip expected) = sha ->
  (forall o, silent (finish o)) ->
  ens untouched
    (make_backup pr (fst backup_key) (snd backup_key) (r_require_root r) destination ;;
     cleanup_orphan_temps (fst destination_key) (temp_prefix name) (st_uid (file_stat destination))
       (st_gid (file_stat destination)) ;;
     encoded ← pure (encode content);
     replace_destination pr (fst destination_key) name encoded (file_stat destination) ;;
     final ← read_regular_at (fst destination_key) name "destination" (r_require_root r);
     finish final)
    (fun _ => safe) safe.
Proof.
  intros Hfs Hs Hfd Hd Hp Hp' Hap Hex Hsha Hfin. eapply ens_bind.
  { eapply ens_weaken; [by apply (ens_backup fd)|done|intros a x Hx; exact Hx|apply untouched_safe]. }
  cbn beta. intros _. eapply ens_bind.
  { eapply ens_weaken; [apply ens_cleanup with (P := fun x => untouched x /\ backup_of fd x)|done
      |intros a x Hx; exact Hx|by intros x [Hx _]; apply untouched_safe].
    intros n Hn. apply stable_and; [by apply stable_untouched, temp_ours|apply stable_backup].
    apply temp_not_backup; [by apply temp_ours|done]. }
  cbn beta. intros _. eapply ens_bind with (Q' := fun b x => encode content = Ok b /\ (untouched x /\ backup_of fd x)).
  { apply ens_pure; [done|by intros x [Hx _]; apply untouched_safe]. }
  intros b. apply ens_fact. intros Hb.
  assert (forall x, moved b fd x -> safe x) as Hmoved.
  { intros x (Hk & (f1 & Hf1 & Hw) & Hbk). split; [done|]. right.
    exists fs, fd, source, destination, backup_stat, keys, content, sha, expected, f1. split_and!; try done. by exists b. }
  destruct Hd as (Hraw & Hst & Hd). rewrite Hst. eapply ens_bind.
  { eapply ens_weaken; [apply (ens_replace b fd)|done|intros a x Hx; exact Hx|].
    intros x [Hx|Hx]; [by apply untouched_safe|by apply Hmoved]. }
  cbn beta. intros _. eapply ens_bind; [apply ens_quiet; [apply silent_read|done]|]. cbn beta. intros o.
  eapply ens_weaken; [apply (Hfin o (moved b fd))|done|intros a; apply Hmoved|apply Hmoved].
Qed.

Lemma ens_apply_locked initial_source initial_destination current_sha approved_sha expected :
  r_apply r = true -> r_expected r = Some expected -> lower (strip expected) = approved_sha ->
  is_Some (m0 !! source_key) ->
  ens (fun x => x = m0)
    (apply_locked pr r (fst source_key) (fst destination_key) (fst backup_key)
       initial_source initial_destination current_sha approved_sha)
    (fun _ => safe) safe.
Proof.
  intros Hap Hex Hsha Hsrc. unfold apply_locked.
  assert (forall x, early x -> safe x) as Hes by (intros x Hx; by apply untouched_safe, early_untouched).
  eapply ens_bind; [eapply ens_weaken; [apply ens_lock|done|intros a x Hx; exact Hx|done]|]. cbn beta. intros st.
  apply ens_require; [intros _|done].
  eapply ens_bind; [apply ens_quiet; [apply silent_when_root|done]|]. cbn beta. intros _.
  eapply ens_bind; [apply ens_quiet; [apply silent_acquire|done]|]. cbn beta. intros _.
  eapply ens_bind; [eapply ens_weaken; [apply (ens_read dirs early (fst source_key) (snd source_key))|done|intros o x Hx; exact Hx|done]|].
  cbn beta. intros source.
  eapply ens_bind; [eapply ens_weaken; [apply ens_read|intros x Hx; exact Hx|intros o x Hx; exact Hx|by intros x [Hx _]; apply Hes]|].
  cbn beta. intros destination.
  apply ens_weaken with (R := safe) (Q := fun _ => safe)
    (P := fun x => (exists fs fd, m0 !! source_key = Some fs /\ opened_as fs source /\ m0 !! destination_key = Some fd
             /\ opened_as fd destination) /\ untouched x).
  2:{ intros x [[He (fs & Hfs & Hos)] (fd & Hfd & Hod)]. pose proof (early_untouched x He) as [Hk Hd].
      split; [|by split]. exists fs, fd. split_and!; try done; [by eapply early_lookup|]. by rewrite <-Hd. }
  2,3: done.
  apply ens_fact. intros (fs & fd & Hfs & Hos & Hfd & Hod).
  do 5 (apply ens_require; [intros _|apply untouched_safe]).
  eapply ens_bind with (Q' := fun p x => planned_content r source destination = Ok p /\ untouched x).
  { apply ens_pure; [done|apply untouched_safe]. }
  intros [keys content]. apply ens_fact. intros Hp.
  eapply ens_bind; [apply ens_quiet; [auto with silent|apply untouched_safe]|]. cbn beta. intros backup_stat.
  eapply ens_bind with (Q' := fun h x => planned_sha r source destination backup_stat content = Ok h /\ untouched x).
  { apply ens_pure; [done|apply untouched_safe]. }
  intros sha. apply ens_fact. intros Hp'.
  apply ens_require; [intros _|apply untouched_safe]. apply ens_require; [intros Hsame|apply untouched_safe].
  apply str_eqb_eq in Hsame. eapply ens_write; try done; [congruence|]. intros o. auto with silent.
Qed.

Lemma expected_plan e n : validate_expected_plan e = Ok n -> exists t, e = Some t /\ lower (strip t) = n.
Proof. destruct e as [t|]; [|done]. cbn. destruct (all_hex_of_length 64 _); [|done]. intros [= <-]. by exists t. Qed.
Lemma normalized_same p label q : normalize_absolute_path p label = Ok q -> q = p.
Proof. unfold normalize_absolute_path. destruct (absolute p), (existsb _ _); try done. by intros [= ->]. Qed.

Lemma trusted_dir P p label root mode :
  ens P (open_trusted_directory p label root mode) (fun o x => o = parts p /\ P x) P.
Proof.
  unfold open_trusted_directory. apply ens_known_pure; [done|]. intros n ->%normalized_same.
  apply ens_skip; [auto with silent|done|]. intros st. apply ens_require; [intros _|done].
  do 2 (apply ens_skip; [auto with silent|done|]; intros _). apply ens_skip; [auto with silent|done|]. intros final.
  destruct mode; [apply ens_require; [intros _|done]|]; by apply ens_ret.
Qed.

Lemma ens_trusted {B : Type} P p label root mode (f : dir -> eff fs B) Q (R : files_map -> Prop) :
  (forall x, P x -> R x) -> ens P (f (parts p)) Q R -> ens P (open_trusted_directory p label root mode ≫= f) Q R.
Proof.
  intros HR Hf. apply ens_known with (F := fun o => o = parts p).
  - eapply ens_weaken; [apply (trusted_dir P)|done..].
  - by intros d ->.
Qed.

Lemma ens_reconcile : ens (fun x => x = m0) (reconcile pr r) (fun _ => safe) safe.
Proof.
  unfold reconcile. assert (forall x, x = m0 -> safe x) as H0 by (intros x ->; by apply untouched_safe).
  do 3 (apply ens_known_pure; [done|]; intros ? ->%normalized_same).
  do 2 (apply ens_require; [intros _|done]).
  do 2 (apply ens_trusted; [done|]).
  eapply ens_known with (F := fun o => is_Some (m0 !! source_key)).
  { eapply ens_weaken; [apply (ens_read dirs (fun x => x = m0))|done| |done]. intros o x [-> (f & Hf & _)]. by split. }
  intros initial_source Hsrc. apply ens_skip; [auto with silent|done|]. intros initial_destination.
  apply ens_require; [intros _|done].
  apply ens_trusted; [done|]. apply ens_skip; [auto with silent|done|]. intros backup_stat.
  apply ens_known_pure; [done|]. intros [keys content] _.
  apply ens_known_pure; [done|]. intros sha _.
  apply ens_known_pure; [done|]. intros expected Hexp.
  cbv zeta. destruct (str_eqb content _); [apply ens_ret, H0|].
  destruct (r_apply r) eqn:Hap; cbn [negb]; [|apply ens_ret, H0].
  apply bind_ok in Hexp as (n & Hn & Hexp). destruct (str_eqb n sha); [|done]. injection Hexp as ->.
  apply expected_plan in Hn as (t & Ht & Hsha). by apply (ens_apply_locked _ _ _ _ t).
Qed.
End transaction.

Section claims.
Context {host : PyHost}.

(** C25: whatever system call fails, before its effect or after it, the reconciler leaves every file
    alone except the destination, its backup, its lock and its temporary files; and the destination
    is the file it was, or the content of the plan that the two files gave and whose digest the
    caller approved, written in full under the old owner with mode 0600, next to a backup with the
    bytes and the owner of the old file. *)
Theorem approved_or_untouched pr r s :
  fs_others s = [] -> safe pr r (fs_files s) (fs_files (snd (main pr r s))).
Proof.
  intros Hs. assert (ens (fs_dirs s) (fun x => x = fs_files s) (main pr r) (fun _ => safe pr r (fs_files s)) (safe pr r (fs_files s))) as H.
  { apply ens_try; [|intros e; by apply ens_ret]. eapply ens_bind; [apply ens_reconcile|]. cbn beta. intros j. by apply ens_ret. }
  destruct (H s (conj Hs eq_refl) eq_refl) as [_ Ho]. by destruct (fst (main pr r s)).
Qed.

Lemma silent_dry_run dirs pr r : r_apply r = false -> silent dirs (main pr r).
Proof.
  intros Hap. unfold main. apply silent_try; [|auto with silent]. apply silent_bind; [|auto with silent].
  unfold reconcile. rewrite Hap. do 3 (apply silent_bind; [auto with silent|]; intros ?). do 2 apply silent_require.
  do 4 (apply silent_bind; [auto with silent|]; intros ?).
  apply silent_require. do 2 (apply silent_bind; [auto with silent|]; intros ?).
  apply silent_bind; [auto with silent|]. intros [? ?]. do 2 (apply silent_bind; [auto with silent|]; intros ?).
  cbv zeta. cbn [negb]. destruct (str_eqb _ _); auto with silent.
Qed.

(** C26: without [--apply] nothing is written, whatever fails: the files are the same files. *)
Theorem dry_run_writes_nothing pr r s :
  r_apply r = false -> fs_others s = [] -> fs_files (snd (main pr r s)) = fs_files s.
Proof.
  intros Hap Hs. destruct (silent_dry_run (fs_dirs s) pr r Hap (fun x => x = fs_files s) s (conj Hs eq_refl) eq_refl) as [_ Ho].
  by destruct (fst (main pr r s)).
Qed.
End claims.

(** ** A run *)

Module Examples.
#[local] Existing Instance ascii_host.

Definition a_dir (ino mode : Z) : fstat := Stat 1 ino 0 0 (16384 + mode) 1.
Definition a_stat (ino : Z) : fstat := Stat 1 ino 0 0 (32768 + 384) 1.
Definition text_of (l : list pystr) : pystr := join [10%N] l.
Definition bytes_of (s : pystr) : bytes := match encode s with Ok b => b | Err _ => [] end.
Definition source_text : pystr := text_of
  [lit "AUTH_PUBLIC_LOGIN='true'"; lit "SMTP_HOST=h"; lit "SMTP_PORT=0465"; lit "SMTP_AUTH=On"; lit "SMTP_USER=u";
   lit "export SMTP_PASS = 'p w' "; lit "SMTP_FROM=a@b"; lit "X=1"; []].
Definition destination_text : pystr := text_of [lit "DATABASE_URL=x"; lit "AUTH_PUBLIC_LOGIN=0"; lit "# c"; []; []].
Definition etc : dir := [lit "etc"].
Definition source_key : dir * pystr := (etc, lit "old.env").
Definition destination_key : dir * pystr := (etc, lit "new.env").
Definition start (faults : list fault) : fs :=
  Fs (list_to_map [([] : dir, a_dir 2 493); (etc, a_dir 3 493); ([lit "etc"; lit "bak"], a_dir 4 448)])
     (list_to_map [(source_key, File (a_stat 10) (bytes_of source_text));
                   (destination_key, File (a_stat 11) (bytes_of destination_text))]) 100 [] [3%nat] faults.
Definition a_process : process := Process 0 0 "20260101T000000.000000Z" 7 "abcd" 0 [].
Definition a_request (expected : option pystr) : request :=
  Request (Path true [lit "etc"; lit "old.env"]) (Path true [lit "etc"; lit "new.env"]) (Path true [lit "etc"; lit "bak"])
    (match expected with Some _ => true | None => false end) expected None true.
Definition the_plan : pystr := lit "0b8e60d84c3121c51afe563bf984a86526283017a91f7d53e38d6b2c12cce183".
Definition planned_text : pystr := text_of
  [lit "DATABASE_URL=x"; lit "# c"; []; RECONCILE_MARKER; lit "APP_BASE_URL=https://commonthing.net"; lit "AUTH_PUBLIC_LOGIN=1";
   lit "AUTH_LOG_MAGIC_TOKEN=0"; lit "SMTP_HOST=h"; lit "SMTP_PORT=465"; lit "SMTP_AUTH=on"; lit "SMTP_USER=u";
   lit "SMTP_PASS='p w'"; lit "SMTP_FROM=a@b"; []].

(** The dry run names the digest; the approved run replaces the destination, keeps a backup and
    leaves no temporary file. *)
Example dry_run_names_the_plan :
  fst (main a_process (a_request None) (start [])) = Ok (0,
    [lit "Status: planned"; lit "Destination: /etc/new.env";
     lit "Updated keys: " ++ join (lit ", ") APPROVED_KEYS; lit "Plan SHA-256: " ++ the_plan]).
Proof. vm_compute. reflexivity. Qed.
Definition applied : result exn (Z * list pystr) * fs := main a_process (a_request (Some the_plan)) (start []).
Example apply_replaces :
  f_bytes <$> fs_files (snd applied) !! destination_key = Some (bytes_of planned_text) /\
  length (map_to_list (fs_files (snd applied))) = 4%nat /\
  match fst applied with Ok (0, _) => True | _ => False end.
Proof. vm_compute. split_and!; done. Qed.

(** The apply, crashing with its [k]-th call refused, or done and its answer lost. *)
Definition crash (lose : bool) (k : nat) : option bytes :=
  let e := Exn (Outside "KeyboardInterrupt") [] in
  f_bytes <$> fs_files (snd (main a_process (a_request (Some the_plan))
                               (start (replicate k passes ++ [if lose then lost e else refused e])))) !! destination_key.
Example crash_around_the_rename :
  crash false 41 = Some (bytes_of destination_text) /\ crash true 41 = Some (bytes_of planned_text).
Proof. vm_compute. split; reflexivity. Qed.

Lemma approved_or_untouched_witness :
  fs_others (start []) = [] /\
  safe a_process (a_request (Some the_plan)) (fs_files (start []))
    (fs_files (snd (main a_process (a_request (Some the_plan)) (start [])))).
Proof.
  split; [reflexivity|]. apply (approved_or_untouched a_process (a_request (Some the_plan)) (start [])). reflexivity.
Defined.
Lemma dry_run_writes_nothing_witness :
  r_apply (a_request None) = false /\
  fs_files (snd (main a_process (a_request None) (start []))) = fs_files (start []).
Proof.
  split; [reflexivity|]. apply (dry_run_writes_nothing a_process (a_request None) (start [])); reflexivity.
Defined.

(** The texts of the run. *)
Definition a_source : EnvDocument :=
  match parse_env source_text "source" with Ok d => d | Err _ => {| lines := []; values := [] |} end.
Definition a_destination : EnvDocument :=
  match parse_env destination_text "destination" with Ok d => d | Err _ => {| lines := []; values := [] |} end.
Definition the_selection : dict pystr :=
  match validate_source (values a_source) None with Ok d => d | Err _ => [] end.
Lemma reconciled_reads_back_witness :
  exists document, parse_env planned_text "again" = Ok document /\
    dget (values document) (lit "SMTP_HOST") = Some (lit "h") /\ dget (values document) (lit "DATABASE_URL") = Some (lit "x").
Proof.
  destruct (reconciled_reads_back source_text destination_text None a_source a_destination the_selection planned_text
    "source" "destination" "again") as (document & Hd & Hk & _); try (vm_compute; reflexivity).
  exists document. split; [exact Hd|]. split; rewrite Hk; vm_compute; reflexivity.
Defined.
Lemma reconcile_idempotent_witness :
  build_reconciled_content planned_text the_selection = Ok planned_text.
Proof.
  refine (proj1 (reconcile_idempotent source_text destination_text None a_source the_selection planned_text
    "source" "again" (match parse_env planned_text "again" with Ok d => d | Err _ => a_source end) _ _ _ _));
    vm_compute; reflexivity.
Defined.
Definition a_plan (content : pystr) : plan :=
  Plan (Path true [lit "a"]) (Path true [lit "b"]) (Path true [lit "c"]) (a_stat 10) (a_stat 11) (a_dir 4 448)
    source_text destination_text content.
Definition a_digest (content : pystr) : pystr := match plan_sha256 (a_plan content) with Ok h => h | Err _ => [] end.
(** Two plans that differ in one byte of the content. *)
Lemma plan_digest_binds_witness :
  a_digest (lit "A=1") <> a_digest (lit "A=2") /\
  exists b b', plan_text (a_plan (lit "A=1")) b /\ plan_text (a_plan (lit "A=2")) b' /\ b <> b'.
Proof.
  split; [vm_compute; discriminate|].
  destruct (plan_digest_binds (a_plan (lit "A=1")) (a_plan (lit "A=2")) (a_digest (lit "A=1")) (a_digest (lit "A=2")))
    as (b & b' & Hb & Hb' & _ & _ & H); [vm_compute; reflexivity|vm_compute; reflexivity|].
  exists b, b'. split; [exact Hb|]. split; [exact Hb'|]. intros E. apply H in E as [_ _ _ _ _ E _ _ _]. discriminate E.
Defined.
End Examples.
