(* ===== verification/SecureReceipt.v ===== *)
(** * Secure receipts

    [src/scripts/ops/weltgewebe_secure_receipt_io.py]: JSON receipts read and written through a
    directory descriptor, with checks of owner, mode, links and size before the content is used, and
    an atomic replacement.  The open flags the module insists on are there. *)

From S2P Require Import Prelude PyStr Effects Json JsonParse Sha256 Utf8 FileSystem.
Open Scope Z_scope.

Definition DEFAULT_MAX_BYTES : Z := 1024 * 1024.

Definition SecureReceiptError : exc_class := Sub "SecureReceiptError" ValueError.
Definition SecureMetadataError : exc_class := Sub "SecureMetadataError" SecureReceiptError.
Definition SecurePayloadError : exc_class := Sub "SecurePayloadError" SecureReceiptError.

(** The hook of the reader. *)
Fixpoint reject_duplicates_from (payload : dict json) (pairs : list (pystr * json)) : result exn (dict json) :=
  match pairs with
  | [] => Ok payload
  | (key, value) :: pairs' =>
      if dmem payload key then raise SecurePayloadError (lit "receipt payload contains duplicate key: " ++ key)
      else reject_duplicates_from (dset payload key value) pairs'
  end.
Definition reject_duplicate_json_keys (pairs : list (pystr * json)) : result exn json :=
  d ← reject_duplicates_from [] pairs; Ok (JObj d).

Definition untrusted {A} (m : pystr) : eff fs A := throw SecureMetadataError m.
Definition unless {A} (bad : bool) (m : pystr) (k : eff fs A) : eff fs A := if bad then untrusted m else k.

(** [_open_secure_directory]; [validate_secure_directory] opens and closes. *)
Definition open_secure_directory (p : path) (expected_uid forbidden : Z) : eff fs dir :=
  st ← try_except [OSError] (open_dir (parts p)) (fun exc =>
         untrusted (lit "receipt directory cannot be opened safely: " ++ path_str p ++ lit ": " ++ exn_msg exc));
  unless (negb (S_ISDIR (st_mode st))) (lit "receipt directory is not a directory: " ++ path_str p) (
  unless (negb (st_uid st =? expected_uid)) (lit "receipt directory has unexpected owner: " ++ path_str p) (
  unless (negb (Z.land (st_mode st) forbidden =? 0)) (lit "receipt directory has unsafe mode: " ++ path_str p)
    (mret (parts p)))).
Definition validate_secure_directory (p : path) (expected_uid forbidden : Z) : eff fs unit :=
  _ ← open_secure_directory p expected_uid forbidden; mret tt.

(** The loop that reads at most [remaining] bytes, in chunks of 64 KiB or less; every chunk that is
    not the last moves on, so the length of the file bounds it. *)
Fixpoint read_chunks (fuel : nat) (f : file) (offset : nat) (remaining : Z) : eff fs bytes :=
  match fuel with
  | O => mret []
  | S fuel' =>
      if remaining <=? 0 then mret []
      else
        chunk ← read_some f offset (Z.to_nat (Z.min 65536 remaining));
        match chunk with
        | [] => mret []
        | _ =>
            rest ← read_chunks fuel' f (offset + length chunk) (remaining - Z.of_nat (length chunk));
            mret (chunk ++ rest)
        end
  end.

Section receipts.
Context `{PyHost} (pr : process).

Definition check_receipt (p : path) (f : file) (expected_uid forbidden max_bytes : Z) {A} (k : eff fs A) : eff fs A :=
  let st := f_stat f in
  unless (negb (S_ISREG (st_mode st))) (lit "receipt is not a regular file: " ++ path_str p) (
  unless (negb (st_uid st =? expected_uid)) (lit "receipt has unexpected owner: " ++ path_str p) (
  unless (negb (Z.land (st_mode st) forbidden =? 0)) (lit "receipt has unsafe mode: " ++ path_str p) (
  unless (negb (st_nlink st =? 1)) (lit "receipt has unexpected link count: " ++ path_str p) (
  unless (max_bytes <? Z.of_nat (length (f_bytes f))) (lit "receipt exceeds the byte limit: " ++ path_str p) k)))).

(** What the bytes of a receipt say. *)
Definition receipt_payload (p : path) (raw : bytes) (require_object : bool) : result exn json :=
  let invalid (exc : exn) :=
    raise SecurePayloadError (lit "receipt payload is invalid: " ++ path_str p ++ lit ": " ++ exn_msg exc) in
  let parsed := text ← decode_strict raw; loads reject_duplicate_json_keys plain_constant text in
  match parsed with
  | Err exc =>
      if existsb (issubclass (exn_class exc)) [UnicodeDecodeError; JSONDecodeError] then invalid exc else Err exc
  | Ok payload =>
      if require_object && negb (match payload with JObj _ => true | _ => false end) then
        raise SecurePayloadError (lit "receipt payload is not an object: " ++ path_str p)
      else Ok payload
  end.

Definition read_secure_json (p : path) (expected_uid forbidden max_bytes : Z) (missing_ok require_object : bool)
    : eff fs json :=
  if max_bytes <=? 0 then throw ValueError "max_bytes must be positive"
  else
    d ← open_secure_directory (path_parent p) expected_uid forbidden;
    found ← try_except [OSError] (f ← open_file d (path_name p); mret (Some f)) (fun exc =>
      if issubclass (exn_class exc) FileNotFoundError then (if missing_ok then mret None else pure (Err exc))
      else untrusted (lit "receipt cannot be opened safely: " ++ path_str p ++ lit ": " ++ exn_msg exc));
    match found with
    | None => mret JNull
    | Some f =>
        check_receipt p f expected_uid forbidden max_bytes (
        raw ← read_chunks (S (length (f_bytes f))) f 0 (max_bytes + 1);
        unless (max_bytes <? Z.of_nat (length raw)) (lit "receipt exceeds the byte limit: " ++ path_str p)
          (pure (receipt_payload p raw require_object)))
    end.

(** The loop that writes everything: a call that takes nothing is an error. *)
Fixpoint write_all (fuel : nat) (d : dir) (name : pystr) (content : bytes) : eff fs unit :=
  match fuel, content with
  | _, [] => mret tt
  | O, _ => mret tt
  | S fuel', _ =>
      written ← write_some d name content;
      if (written =? 0)%nat then throw OSError "short write while storing receipt"
      else write_all fuel' d name (drop written content)
  end.

Definition fstat_of (d : dir) (name : pystr) : eff fs fstat := sys (fun s =>
  (match fs_files s !! (d, name) with Some f => Ok (f_stat f) | None => no_entry name end, s)).

(** [json.dumps(payload, ensure_ascii=..., sort_keys=True, indent=2)]; a payload so deep that the
    encoder's recursion ends it is not modelled. *)
Definition dumps_indented (payload : json) (ensure_ascii : bool) : result exn pystr :=
  if printable_ints payload then Ok (indented_with (if ensure_ascii then ascii_quote else quote) 0 payload)
  else raise ValueError "Exceeds the limit (4300 digits) for integer string conversion; use sys.set_int_max_str_digits() to increase the limit".
Definition encoded_receipt (payload : json) (ensure_ascii : bool) : result exn bytes :=
  match text ← dumps_indented payload ensure_ascii; encode (text ++ [10%N]) with
  | Ok b => Ok b
  | Err exc =>
      if existsb (issubclass (exn_class exc)) [TypeError; ValueError] then
        raise SecurePayloadError (lit "receipt payload is not serializable: " ++ exn_msg exc)
      else Err exc
  end.

Definition temporary_name (name : pystr) : pystr :=
  lit "." ++ name ++ lit "." ++ show_Z (p_pid pr) ++ lit "." ++ p_token pr ++ lit ".tmp".

Definition write_secure_json (p : path) (payload : json) (expected_uid forbidden mode max_bytes : Z) (ensure_ascii : bool)
    : eff fs unit :=
  if negb (mode =? 384) then throw ValueError "secure receipts require mode 0600"
  else if max_bytes <=? 0 then throw ValueError "max_bytes must be positive"
  else
    encoded ← pure (encoded_receipt payload ensure_ascii);
    if max_bytes <? Z.of_nat (length encoded) then throw SecurePayloadError "receipt payload exceeds the byte limit"
    else
      d ← open_secure_directory (path_parent p) expected_uid forbidden;
      let temp := temporary_name (path_name p) in
      create_exclusive pr d temp ;;
      on_error
        (alter_file d temp (set_mode mode) ;;
         write_all (length encoded) d temp encoded ;;
         fsync_fd ;;
         st ← fstat_of d temp;
         unless (negb (S_ISREG (st_mode st))) "temporary receipt is not a regular file" (
         unless (negb (st_uid st =? expected_uid)) "temporary receipt has unexpected owner" (
         unless (negb (st_nlink st =? 1)) "temporary receipt has unexpected link count" (
         unless (negb (Z.land (st_mode st) 511 =? mode)) "temporary receipt has unexpected mode"
           (replace_file d temp (path_name p))))))
        (try_except [FileNotFoundError] (unlink d temp) (fun _ => mret tt)) ;;
      fsync_fd.
End receipts.
