(* ===== verification/SecureReceiptProofs.v ===== *)
(** * Proofs of the secure receipts

    What a reader accepts, that chunking changes nothing, that a receipt that repeats a key is
    refused, that a crash leaves the old receipt or the whole new one, and that a receipt written is read
    back. *)

From S2P Require Import Prelude PyStr Effects Json JsonText JsonParse JsonUnique JsonRound Sha256 Utf8 FileSystem FileLogic SecureReceipt.
Open Scope Z_scope.

(** ** The hook *)

Lemma reject_exact (pairs : list (pystr * json)) v : reject_duplicate_json_keys pairs = Ok v <-> v = JObj pairs /\ NoDup (dkeys pairs).
Proof.
  unfold reject_duplicate_json_keys. rewrite bind_ok.
  assert (forall d, reject_duplicates_from [] pairs = Ok d <-> d = pairs /\ NoDup (dkeys pairs)) as He.
  { intros d. apply keep_exact; [done|..]; intros acc k w ps E; cbn [reject_duplicates_from]; rewrite E; [by eexists|done]. }
  setoid_rewrite He. naive_solver.
Qed.
Lemma reject_keeps (d : dict json) : NoDup (dkeys d) -> reject_duplicate_json_keys d = Ok (JObj d).
Proof. intros Hd. by apply reject_exact. Qed.

(** ** Loops *)

Section loops.
Context (dirs : gmap dir fstat).
Abbreviation ens := (ens dirs).
Abbreviation silent := (silent dirs).

Lemma silent_next_size : silent next_size.
Proof. intros P s [Ho Hd] Hp. by split. Qed.

(** A read takes a non-empty piece of what is left, if there is one. *)
Lemma ens_read_some P f offset n :
  ens P (read_some f offset n)
    (fun b x => (exists k, b = take k (drop offset (f_bytes f)) /\ (k <= n)%nat /\ ((1 <= n)%nat -> (1 <= k)%nat)) /\ P x) P.
Proof.
  unfold read_some. eapply ens_bind; [apply ens_quiet; [apply silent_next_size|done]|]. cbn beta. intros size.
  apply ens_sys; [|done|by intros a x []]. intros s Hs Hp. split; [done|]. cbn. split; [|done].
  destruct size as [k|]; [exists (Nat.min (S k) n)|exists n]; split_and!; try done; lia.
Qed.

Lemma ens_read_chunks P f fuel offset remaining :
  (length (f_bytes f) - offset < fuel)%nat ->
  ens P (read_chunks fuel f offset remaining)
    (fun b x => b = take (Z.to_nat remaining) (drop offset (f_bytes f)) /\ P x) P.
Proof.
  revert offset remaining. induction fuel as [|fuel IH]; intros offset remaining Hf; [lia|]. cbn [read_chunks].
  destruct (Z.leb_spec remaining 0) as [Hr|Hr].
  { apply ens_ret. intros x Hx. split; [|done]. by rewrite Z2Nat.nonpos. }
  eapply ens_known; [apply ens_read_some|]. intros chunk (k & -> & Hkn & Hk1). cbn beta.
  specialize (Hk1 ltac:(lia)). set (left := drop offset (f_bytes f)) in *.
  assert (length left = length (f_bytes f) - offset)%nat as Hleft by apply length_drop.
  destruct (take k left) as [|c t] eqn:E.
  { apply ens_ret. intros x Hx. split; [|done]. assert (length left = 0)%nat as Hz.
    { apply (f_equal length) in E. rewrite length_take in E. cbn in E. lia. }
    apply nil_length_inv in Hz. by rewrite Hz, take_nil. }
  rewrite <-E in *. assert (length (take k left) = Nat.min k (length left)) as Hl by apply length_take.
  assert (1 <= length (take k left))%nat by (rewrite E; cbn; lia).
  eapply ens_known with (F := fun rest => rest = take (Z.to_nat (remaining - Z.of_nat (length (take k left))))
                                (drop (offset + length (take k left)) (f_bytes f))).
  { apply IH. lia. }
  intros rest ->. apply ens_ret. intros x Hx. split; [|done].
  rewrite <-drop_drop. fold left. rewrite Hl.
  destruct (Nat.le_gt_cases k (length left)) as [Hle|Hgt].
  - rewrite Nat.min_l by done. replace (Z.to_nat remaining) with (k + Z.to_nat (remaining - Z.of_nat k))%nat by lia.
    rewrite <-(take_drop k left) at 3. rewrite take_app_add'; [done|]. rewrite length_take. lia.
  - rewrite Nat.min_r by lia. rewrite (drop_ge left) by lia. rewrite take_nil, app_nil_r, !take_ge by lia. done.
Qed.

Lemma ens_write_some (P : files_map -> Prop) (q : fstat -> Prop) d n before content : stable P (d, n) ->
  ens (fun x => P x /\ exists f, x !! (d, n) = Some f /\ f_bytes f = before /\ q (f_stat f)) (write_some d n content)
    (fun k x => (k <= length content)%nat /\ (P x /\ exists f, x !! (d, n) = Some f /\ f_bytes f = before ++ take k content /\ q (f_stat f))) P.
Proof.
  intros HP. unfold write_some. eapply ens_bind; [apply ens_quiet; [apply silent_next_size|by intros x []]|]. cbn beta.
  intros size. set (k := match size with Some k => Nat.min k (length content) | None => length content end).
  assert (k <= length content)%nat as Hk by (unfold k; destruct size; lia).
  eapply ens_bind.
  { apply ens_alter with (q := fun f => f_bytes f = before ++ take k content /\ q (f_stat f)); [done|].
    intros f [Hf Hq]. split; [cbn; by rewrite Hf|done]. }
  cbn beta. intros _. by apply ens_ret.
Qed.
Lemma ens_write_all (P : files_map -> Prop) (q : fstat -> Prop) d n fuel before content : stable P (d, n) ->
  (length content <= fuel)%nat ->
  ens (fun x => P x /\ exists f, x !! (d, n) = Some f /\ f_bytes f = before /\ q (f_stat f)) (write_all fuel d n content)
    (fun _ x => P x /\ exists f, x !! (d, n) = Some f /\ f_bytes f = before ++ content /\ q (f_stat f)) P.
Proof.
  intros HP. revert before content. induction fuel as [|fuel IH]; intros before content Hf.
  { destruct content; [|cbn in Hf; lia]. apply ens_ret. by rewrite app_nil_r. }
  cbn [write_all]. destruct content as [|c t] eqn:E; [apply ens_ret; by rewrite app_nil_r|]. rewrite <-E in *.
  eapply ens_bind; [by apply ens_write_some|]. cbn beta. intros k. apply ens_fact. intros Hk.
  destruct (Nat.eqb_spec k 0); [apply ens_throw; by intros x []|].
  eapply ens_weaken; [apply (IH (before ++ take k content) (drop k content)); rewrite length_drop; lia|done| |done].
  intros a x. by rewrite <-app_assoc, take_drop.
Qed.
End loops.

(** ** Reading in a settled state *)

(** No call fails, and nobody else writes. *)
Definition settled (s : fs) : Prop := fs_others s = [] /\ fs_faults s = [].
Lemma sys_settled {A} (m : eff fs A) s : settled s -> sys m s = m s.
Proof. intros [Ho Hf]. unfold sys, interfere. rewrite Ho. by apply call_calm. Qed.

Definition trusted_dir (dirs : gmap dir fstat) (d : dir) (uid forbidden : Z) : Prop :=
  exists st, dirs !! d = Some st /\ S_ISDIR (st_mode st) = true /\ st_uid st = uid /\ Z.land (st_mode st) forbidden = 0.
Definition trusted_file (f : file) (uid forbidden max_bytes : Z) : Prop :=
  S_ISREG (st_mode (f_stat f)) = true /\ st_uid (f_stat f) = uid /\ Z.land (st_mode (f_stat f)) forbidden = 0 /\
  st_nlink (f_stat f) = 1 /\ Z.of_nat (length (f_bytes f)) <= max_bytes.

Lemma open_secure_settled p uid forbidden s : settled s ->
  exists r, open_secure_directory p uid forbidden s = (r, s) /\
    forall d, r = Ok d <-> d = parts p /\ trusted_dir (fs_dirs s) (parts p) uid forbidden.
Proof.
  intros Hs. unfold open_secure_directory, open_dir, mbind, eff_bind, try_except. rewrite sys_settled by done.
  unfold trusted_dir. match goal with |- context [match ?o with Some _ => _ | None => no_entry _ end] => destruct o as [st|] eqn:E end.
  - destruct (S_ISDIR (st_mode st)) eqn:Ed.
    + rewrite Ed. cbn [negb unless]. destruct (Z.eqb_spec (st_uid st) uid) as [Hu|Hu]; cbn [negb unless].
      * destruct (Z.eqb_spec (Z.land (st_mode st) forbidden) 0) as [Hm|Hm]; cbn [negb unless].
        -- eexists. split; [reflexivity|]. intros d. split; [intros [= <-]; split; [done|by exists st]|by intros [-> _]].
        -- eexists. split; [reflexivity|]. intros d. split; [done|]. intros (_ & st' & [= <-] & _ & _ & ?). done.
      * eexists. split; [reflexivity|]. intros d. split; [done|]. intros (_ & st' & [= <-] & _ & ? & _). done.
    + eexists. split; [reflexivity|]. intros d. split; [done|]. intros (_ & st' & [= <-] & ? & _). congruence.
  - eexists. split; [reflexivity|]. intros d. split; [done|]. by intros (_ & st' & [=] & _).
Qed.

Lemma read_chunks_settled fuel f offset remaining s : settled s ->
  exists b s', read_chunks fuel f offset remaining s = (Ok b, s') /\ settled s'.
Proof.
  revert offset remaining s. induction fuel as [|fuel IH]; intros offset remaining s Hs; cbn [read_chunks]; [by eexists _, _|].
  destruct (remaining <=? 0); [by eexists _, _|]. unfold mbind at 1, eff_bind at 1, read_some, mbind at 1, eff_bind at 1.
  cbn [next_size]. rewrite sys_settled by done. destruct (take _ _) as [|c t]; [by eexists _, _|].
  match goal with |- context [read_chunks fuel f ?o ?n ≫= _] =>
    match goal with |- context [(read_chunks fuel f o n ≫= _) ?s1] =>
      destruct (IH o n s1 Hs) as (b & s' & E & Hs') end end.
  unfold mbind, eff_bind. rewrite E. by eexists _, _.
Qed.

Section receipts.
Context {host : PyHost}.

Lemma check_settled p f uid forbidden max_bytes {A} (k : eff fs A) s :
  (exists e, check_receipt p f uid forbidden max_bytes k s = (Err e, s) /\ ~ trusted_file f uid forbidden max_bytes) \/
  (check_receipt p f uid forbidden max_bytes k s = k s /\ trusted_file f uid forbidden max_bytes).
Proof.
  unfold check_receipt, trusted_file. destruct (S_ISREG _) eqn:E1; cbn [negb unless]; [|left; eexists; split; [reflexivity|]; naive_solver].
  destruct (Z.eqb_spec (st_uid (f_stat f)) uid); cbn [negb unless]; [|left; eexists; split; [reflexivity|]; naive_solver].
  destruct (Z.eqb_spec (Z.land (st_mode (f_stat f)) forbidden) 0); cbn [negb unless]; [|left; eexists; split; [reflexivity|]; naive_solver].
  destruct (Z.eqb_spec (st_nlink (f_stat f)) 1); cbn [negb unless]; [|left; eexists; split; [reflexivity|]; naive_solver].
  destruct (Z.ltb_spec max_bytes (Z.of_nat (length (f_bytes f)))); cbn [unless]; [left; eexists; split; [reflexivity|]; intros (_ & _ & _ & _ & ?); lia|].
  right. by split_and!.
Qed.

Lemma read_whole f max_bytes s : settled s -> Z.of_nat (length (f_bytes f)) <= max_bytes ->
  exists s', read_chunks (S (length (f_bytes f))) f 0 (max_bytes + 1) s = (Ok (f_bytes f), s').
Proof.
  intros Hs Hl. destruct (read_chunks_settled (S (length (f_bytes f))) f 0 (max_bytes + 1) s Hs) as (b & s' & E & _).
  exists s'. rewrite E. do 2 f_equal.
  destruct (ens_read_chunks (fs_dirs s) (fun _ => True) f (S (length (f_bytes f))) 0 (max_bytes + 1) ltac:(lia) s) as [_ H];
    [by split; [apply Hs|]|done|]. rewrite E in H. cbn in H. destruct H as [-> _]. apply take_ge. lia.
Qed.

(** C31: what a reader accepts, exactly: the directory and the file are the expected owner's and
    carry none of the forbidden mode bits, the file is regular, has one link and is within the
    limit, and its bytes, whole, however the kernel cuts the reads into chunks, are the receipt. *)
Theorem read_accepts_exactly p uid forbidden max_bytes missing_ok require_object s v :
  settled s ->
  fst (read_secure_json p uid forbidden max_bytes missing_ok require_object s) = Ok v <->
  0 < max_bytes /\ trusted_dir (fs_dirs s) (parts (path_parent p)) uid forbidden /\
  match fs_files s !! (parts (path_parent p), path_name p) with
  | None => missing_ok = true /\ v = JNull
  | Some f => S_ISLNK (st_mode (f_stat f)) = false /\ trusted_file f uid forbidden max_bytes /\
              receipt_payload p (f_bytes f) require_object = Ok v
  end.
Proof.
  intros Hs. unfold read_secure_json. destruct (Z.leb_spec max_bytes 0); [split; [done|lia]|].
  destruct (open_secure_settled (path_parent p) uid forbidden s Hs) as (r & Er & Hr).
  unfold mbind at 1, eff_bind at 1. rewrite Er. destruct r as [d|e].
  2:{ split; [done|]. intros (_ & Ht & _). by specialize (proj2 (Hr _) (conj eq_refl Ht)). }
  destruct (proj1 (Hr d) eq_refl) as [-> Ht]. unfold mbind at 1, eff_bind at 1, try_except, mbind at 1, eff_bind at 1, open_file.
  rewrite sys_settled by done. destruct (fs_files s !! _) as [f|] eqn:Ef.
  - destruct (S_ISLNK (st_mode (f_stat f))) eqn:El; [split; [done|naive_solver]|].
    unfold mret at 1, eff_ret at 1. cbv iota beta.
    match goal with |- context [check_receipt p f uid forbidden max_bytes ?k s] =>
      destruct (check_settled p f uid forbidden max_bytes k s) as [(e & -> & Hn)|[-> Hf]] end; [split; [done|naive_solver]|].
    destruct Hf as (Hf & Hf1 & Hf2 & Hf3 & Hl). destruct (read_whole f max_bytes s Hs Hl) as [s' E].
    unfold mbind at 1, eff_bind at 1. rewrite E. rewrite (proj2 (Z.ltb_ge _ _) Hl). cbn [unless pure fst].
    unfold trusted_file. naive_solver.
  - cbn [no_entry raise fst snd]. change (existsb _ _) with true. cbv iota. change (issubclass _ FileNotFoundError) with true.
    cbv iota. destruct missing_ok; cbn; [|split; [done|naive_solver]]. split; [by intros [= <-]|]. intros (_ & _ & _ & ->). done.
Qed.

(** C32: what the bytes of a receipt say: a receipt is accepted exactly when it is UTF-8 and one
    JSON document in which no object, at any depth, repeats a key (and an object, if one is
    required), and the value returned is that document as it is written. *)
Theorem payload_as_written p raw require_object v :
  receipt_payload p raw require_object = Ok v <->
  (exists text, decode_strict raw = Ok text /\ loads as_written plain_constant text = Ok v) /\
  json_wf v = true /\ (require_object = true -> exists d, v = JObj d).
Proof.
  assert ((exists text, decode_strict raw = Ok text /\ loads as_written plain_constant text = Ok v) /\ json_wf v = true <->
    (text ← decode_strict raw; loads reject_duplicate_json_keys plain_constant text) = Ok v) as He.
  { rewrite bind_ok. setoid_rewrite (loads_strict _ _ reject_exact plain_constant_wf). naive_solver. }
  enough (receipt_payload p raw require_object = Ok v <->
    (text ← decode_strict raw; loads reject_duplicate_json_keys plain_constant text) = Ok v /\
    (require_object = true -> exists d, v = JObj d)) by tauto.
  clear He. unfold receipt_payload. destruct (_ ≫= _) as [w|e].
  - destruct require_object, w; cbn; naive_solver.
  - destruct (existsb _ _); naive_solver.
Qed.

(** ** Writing *)

Section writing.
Context (dirs : gmap dir fstat) (pr : process) (p : path) (m0 : files_map).
Abbreviation ens := (ens dirs).
Abbreviation receipt_key := (parts (path_parent p), path_name p).
Abbreviation temp_key := (parts (path_parent p), temporary_name pr (path_name p)).

Definition kept (x : files_map) : Prop := forall k, k <> receipt_key -> k <> temp_key -> x !! k = m0 !! k.
Definition old (x : files_map) : Prop := kept x /\ x !! receipt_key = m0 !! receipt_key.
(** The receipt is the whole text, a regular file of the expected owner, closed to everybody else. *)
Definition stored (encoded : bytes) (uid : Z) (x : files_map) : Prop :=
  kept x /\ exists f, x !! receipt_key = Some f /\ f_bytes f = encoded /\ st_mode (f_stat f) = 32768 + 384 /\
    st_uid (f_stat f) = uid /\ st_nlink (f_stat f) = 1.

Lemma temp_not_receipt : temp_key <> receipt_key.
Proof.
  intros [= E]. apply (f_equal length) in E. unfold temporary_name in E. rewrite !length_app in E.
  change (length (lit ".tmp")) with 4%nat in E. lia.
Qed.
Lemma stable_old : stable old temp_key.
Proof.
  apply stable_and; [|apply (stable_lookup temp_key receipt_key (fun o => o = _)), temp_not_receipt].
  intros x Hx. split; [|intros v]; intros k Hr Ht.
  - rewrite lookup_delete_ne; [by apply Hx|done].
  - rewrite lookup_insert_ne; [by apply Hx|done].
Qed.
Lemma stable_stored encoded uid : stable (stored encoded uid) temp_key.
Proof.
  apply stable_and; [|apply (stable_found temp_key receipt_key (fun f => _ /\ _ /\ _ /\ _)), temp_not_receipt].
  intros x Hx. split; [|intros v]; intros k Hr Ht.
  - rewrite lookup_delete_ne; [by apply Hx|done].
  - rewrite lookup_insert_ne; [by apply Hx|done].
Qed.

Lemma ens_fstat (P : files_map -> Prop) d n : ens P (fstat_of d n) (fun st x => P x /\ exists f, x !! (d, n) = Some f /\ f_stat f = st) P.
Proof.
  apply ens_sys; [|done|by intros a x []]. intros s Hs Hp. split; [done|]. cbn.
  destruct (fs_files s !! (d, n)) as [f|] eqn:E; [|done]. split; [done|]. by exists f.
Qed.
Lemma ens_unless {A : Type} (P R : files_map -> Prop) bad msg (k : eff fs A) Q :
  (bad = false -> ens P k Q R) -> (forall x, P x -> R x) -> ens P (unless bad msg k) Q R.
Proof. intros Hk HR. unfold unless. destruct bad; [by apply ens_throw|by apply Hk]. Qed.
Lemma ens_secure_dir P q uid forbidden :
  ens P (open_secure_directory q uid forbidden) (fun d x => (d = parts q /\ trusted_dir dirs (parts q) uid forbidden) /\ P x) P.
Proof.
  unfold open_secure_directory. eapply ens_bind with (Q' := fun st x => dirs !! (parts q : dir) = Some st /\ P x).
  - apply ens_try; [|intros e; by apply ens_throw]. apply ens_sys; [|done|by intros a x []]. intros s Hs Hp. split; [done|].
    cbn. rewrite (proj2 Hs). match goal with |- context [match ?o with Some _ => _ | None => no_entry _ end] => destruct o as [st|] eqn:E end; [|done].
    by destruct (S_ISDIR _).
  - intros st. apply ens_fact. intros Hst. apply ens_unless; [intros H1|done]. apply ens_unless; [intros H2|done].
    apply ens_unless; [intros H3|done]. apply ens_ret. intros x Hx. split; [|done]. split; [done|]. exists st.
    rewrite negb_false_iff in H1, H2, H3. by rewrite Z.eqb_eq in H2, H3.
Qed.

Lemma ens_store payload uid forbidden mode max_bytes ensure_ascii :
  ens (fun x => x = m0) (write_secure_json pr p payload uid forbidden mode max_bytes ensure_ascii)
    (fun _ x => exists encoded, encoded_receipt payload ensure_ascii = Ok encoded /\ Z.of_nat (length encoded) <= max_bytes /\
       trusted_dir dirs (parts (path_parent p)) uid forbidden /\ stored encoded uid x)
    (fun x => old x \/ exists encoded, encoded_receipt payload ensure_ascii = Ok encoded /\ stored encoded uid x).
Proof.
  assert (forall x, x = m0 -> old x) as H0 by (intros x ->; by split).
  assert (forall x, x = m0 -> old x \/ exists encoded, encoded_receipt payload ensure_ascii = Ok encoded /\ stored encoded uid x) as H0'
    by (intros x Hx; left; by apply H0).
  unfold write_secure_json. destruct (Z.eqb_spec mode 384) as [->|]; [|by apply ens_throw]. cbn [negb].
  destruct (max_bytes <=? 0); [by apply ens_throw|]. apply ens_known_pure; [done|]. intros encoded Henc.
  destruct (Z.ltb_spec max_bytes (Z.of_nat (length encoded))); [by apply ens_throw|].
  apply ens_known with (F := fun d => d = parts (path_parent p) /\ trusted_dir dirs (parts (path_parent p)) uid forbidden);
    [eapply ens_weaken; [apply (ens_secure_dir (fun x => x = m0))|done|done|done]|]. intros d [-> Ht].
  eapply ens_weaken with (P := old) (Q := fun _ => stored encoded uid) (R := fun x => old x \/ stored encoded uid x); [|done| |].
  2:{ intros _ x Hx. by exists encoded. }
  2:{ intros x [Hx|Hx]; [by left|right; by exists encoded]. }
  eapply ens_bind.
  { eapply ens_weaken; [apply ens_create, stable_old|done|intros a x Hx; exact Hx|intros x Hx; by left]. }
  cbn beta. intros _. eapply ens_bind with (Q' := fun _ => stored encoded uid);
    [|intros _; apply ens_quiet; [apply silent_fsync|intros x Hx; by right]].
  apply ens_on_error with (R' := fun x => old x \/ stored encoded uid x).
  2:{ apply ens_try; [apply ens_unlink, stable_or; [apply stable_old|apply stable_stored]|intros e; by apply ens_ret]. }
  set (T := (parts (path_parent p), temporary_name pr (path_name p))).
  set (good := fun st => st_mode st = 32768 + 384 /\ st_nlink st = 1).
  assert (forall x, old x -> old x \/ stored encoded uid x) as Hl by (intros; by left).
  eapply ens_bind.
  { eapply ens_weaken; [apply ens_alter with (p := fun f => f_bytes f = [] /\ good (f_stat f))
      (q := fun f => f_bytes f = [] /\ good (f_stat f)); [apply stable_old|]|done|intros a x Hx; exact Hx|done].
    intros f [Hf [Hm Hn]]. split; [done|]. split; [|done]. cbn. by rewrite Hm. }
  cbn beta. intros _. eapply ens_bind.
  { eapply ens_weaken; [apply (ens_write_all dirs old good (fst T) (snd T) (length encoded) [] encoded); [apply stable_old|done]|done
      |intros a x Hx; exact Hx|done]. }
  cbn beta. intros _. eapply ens_bind; [apply ens_quiet; [apply silent_fsync|intros x []; by left]|]. cbn beta. intros _.
  eapply ens_bind.
  { eapply ens_weaken; [apply ens_fstat|intros x Hx; exact Hx|intros a x Hx; exact Hx|intros x []; by left]. }
  cbn beta. intros st. apply ens_unless; [intros _|intros x [[] _]; by left].
  apply ens_unless; [intros Hu|intros x [[] _]; by left]. apply negb_false_iff, Z.eqb_eq in Hu.
  do 2 (apply ens_unless; [intros _|intros x [[] _]; by left]).
  apply ens_sys; [|intros x [[] _]; by left|intros a x Hx; by right].
  intros s Hs [[[Hk Hr] (f & Hf & Hb & Hm & Hn)] (f' & Hf' & Hst)].
  pose proof (eq_trans (eq_sym Hf) Hf') as [= <-]. cbv beta. replace (fs_files s !! _) with (Some f) by (symmetry; exact Hf). split; [exact Hs|]. cbn [fst snd]. split.
  - intros k Hk1 Hk2. cbn. rewrite lookup_insert_ne by done. rewrite lookup_delete_ne; [by apply Hk|done].
  - exists f. cbn. rewrite lookup_insert_eq. subst st. by split_and!.
Qed.
End writing.
End receipts.

Section claims.
Context {host : PyHost}.

(** C29: whatever call fails, before its effect or after it, a writer touches only the receipt and
    its own temporary file, and the receipt is the old one, or the whole new text in a regular file
    of the expected owner with mode 0600 and one link. *)
Theorem receipt_old_or_new pr p payload uid forbidden mode max_bytes ensure_ascii s :
  fs_others s = [] ->
  let x := fs_files (snd (write_secure_json pr p payload uid forbidden mode max_bytes ensure_ascii s)) in
  old pr p (fs_files s) x \/
  exists encoded, encoded_receipt payload ensure_ascii = Ok encoded /\ stored pr p (fs_files s) encoded uid x.
Proof.
  intros Ho. destruct (ens_store (fs_dirs s) pr p (fs_files s) payload uid forbidden mode max_bytes ensure_ascii s) as [_ H];
    [done..|]. destruct (fst (write_secure_json _ _ _ _ _ _ _ _ _)); [|exact H].
  destruct H as (encoded & He & _ & _ & H). right. by exists encoded.
Qed.

Lemma encoded_decodes payload ensure_ascii b : storable payload = true -> encoded_receipt payload ensure_ascii = Ok b ->
  decode_strict b = Ok (indented_with (if ensure_ascii then ascii_quote else quote) 0 payload ++ [10%N]).
Proof.
  intros Hp. unfold encoded_receipt, dumps_indented. destruct (printable_ints payload); [|done]. cbn [mbind result_bind].
  set (text := indented_with _ 0 payload ++ [10%N]).
  assert (valid_text text) as Hv.
  { assert (code_text text = true) as Hc.
    { unfold text. rewrite plain_app, code_indented; [done| |done]. intros x Hx. destruct ensure_ascii;
        [apply code_ascii_quote|by apply code_quote]. }
    apply Forall_forall. intros c Hin. unfold code_text in Hc. rewrite forallb_forall in Hc.
    specialize (Hc c ltac:(by apply list_elem_of_In)). unfold code_char in Hc.
    by rewrite andb_true_iff, negb_true_iff, N.ltb_lt in Hc. }
  destruct (encode_valid text Hv) as (b' & -> & Hd). by intros [= <-].
Qed.

Lemma norm_object payload : match norm payload with JObj _ => true | _ => false end = match payload with JObj _ => true | _ => false end.
Proof. by destruct payload. Qed.

(** C30: what a writer stored, a reader with the same limits returns, once nothing fails any more and
    nobody else has changed the files: the payload with its keys in order, with or without
    [ensure_ascii].  This is for every payload without floats whose texts are characters, whose keys
    differ, whose integers have at most 4300 digits (others are not stored) and that nests no deeper
    than the reader's parser; the payload is an object where the reader insists on one, as it does by
    default, and the bits the reader forbids are none of those of a regular file of mode 0600. *)
Theorem receipt_roundtrip pr p payload uid forbidden mode max_bytes ensure_ascii missing_ok require_object s s' short :
  fs_others s = [] ->
  write_secure_json pr p payload uid forbidden mode max_bytes ensure_ascii s = (Ok tt, s') ->
  storable payload = true -> (nesting payload <= host_json_depth)%nat ->
  (require_object = true -> match payload with JObj _ => true | _ => false end = true) ->
  Z.land (32768 + 384) forbidden = 0 ->
  fst (read_secure_json p uid forbidden max_bytes missing_ok require_object
         (Fs (fs_dirs s') (fs_files s') (fs_next s') [] short [])) = Ok (norm payload).
Proof.
  intros Ho Hw Hp Hn Hobj Hforb.
  destruct (ens_store (fs_dirs s) pr p (fs_files s) payload uid forbidden mode max_bytes ensure_ascii s) as [[_ Hdirs] H]; [done..|].
  rewrite Hw in Hdirs, H. cbn [fst snd] in Hdirs, H.
  destruct H as (encoded & He & Hlen & Ht & _ & f & Hf & Hb & Hm & Hu & Hl).
  apply read_accepts_exactly; [done|]. cbn [fs_dirs fs_files]. rewrite Hdirs.
  assert (0 < max_bytes) as Hmax.
  { revert Hw. unfold write_secure_json. destruct (negb _); [done|]. destruct (Z.leb_spec max_bytes 0); [done|lia]. }
  split; [done|]. split; [done|]. match goal with |- match ?o with _ => _ end => replace o with (Some f) by (symmetry; exact Hf) end.
  assert (S_ISLNK (st_mode (f_stat f)) = false /\ S_ISREG (st_mode (f_stat f)) = true) as [? ?] by (rewrite Hm; done).
  split; [done|]. split; [split_and!; try done; [by rewrite Hm|by rewrite Hb]|]. rewrite Hb.
  unfold receipt_payload. rewrite (encoded_decodes _ _ _ Hp He). cbn [mbind result_bind].
  rewrite (loads_indented _ _ reject_keeps (if ensure_ascii then ascii_quote else quote)); try done.
  - rewrite norm_object. destruct require_object; [|done]. by rewrite (Hobj eq_refl).
  - destruct ensure_ascii; [apply quoting_ascii|apply quoting_quote].
Qed.
End claims.

(** ** A run *)

Module Examples.
#[local] Existing Instance ascii_host.
Definition state_dir : dir := [lit "var"; lit "state"].
Definition receipt : path := Path true (state_dir ++ [lit "r.json"]).
Definition start (faults : list fault) (short : list nat) : fs :=
  Fs {[state_dir := Stat 1 3 0 0 (16384 + 448) 1]} ∅ 100 [] short faults.
Definition a_process : process := Process 0 0 [] 7 "ab" 0 [].
Definition a_payload : json :=
  JObj [(lit "status", JStr (lit "ok" ++ [233%N; 128512%N; 10%N])); (lit "checks", JList [JInt (-3); JNull; JObj []])].
Definition outcome : result exn unit * fs :=
  write_secure_json a_process receipt a_payload 0 18 384 DEFAULT_MAX_BYTES true (start [] [1%nat; 5%nat]).

Lemma receipt_old_or_new_witness :
  fs_others (start [] []) = [] /\
  (old a_process receipt ∅ (fs_files (snd outcome)) \/
   exists encoded, encoded_receipt a_payload true = Ok encoded /\ stored a_process receipt ∅ encoded 0 (fs_files (snd outcome))).
Proof.
  split; [reflexivity|].
  exact (receipt_old_or_new a_process receipt a_payload 0 18 384 DEFAULT_MAX_BYTES true (start [] [1%nat; 5%nat]) eq_refl).
Defined.
Lemma receipt_roundtrip_witness :
  fst (read_secure_json receipt 0 18 DEFAULT_MAX_BYTES false true
    (Fs (fs_dirs (snd outcome)) (fs_files (snd outcome)) (fs_next (snd outcome)) [] [3%nat] [])) = Ok (norm a_payload).
Proof.
  apply (receipt_roundtrip a_process receipt a_payload 0 18 384 DEFAULT_MAX_BYTES true false true
    (start [] [1%nat; 5%nat]) (snd outcome) [3%nat]).
  - reflexivity.
  - rewrite (surjective_pairing outcome). change (fst outcome, snd outcome) with (Ok (E := exn) tt, snd outcome) || idtac.
    vm_compute. reflexivity.
  - vm_compute. reflexivity.
  - vm_compute. lia.
  - intros _. reflexivity.
  - reflexivity.
Defined.
Lemma read_accepts_exactly_witness :
  settled (start [] []) /\
  fst (read_secure_json receipt 0 18 DEFAULT_MAX_BYTES true true (start [] [])) = Ok JNull.
Proof.
  split; [done|]. apply (read_accepts_exactly receipt 0 18 DEFAULT_MAX_BYTES true true (start [] []) JNull); [done|].
  split; [reflexivity|]. split; [|vm_compute; split; reflexivity].
  exists (Stat 1 3 0 0 (16384 + 448) 1). vm_compute. split_and!; reflexivity.
Defined.
Definition once : bytes := lit "[{" ++ quote "k" ++ lit ":1}]".
Definition twice : bytes := lit "[{" ++ quote "k" ++ lit ":1," ++ quote "k" ++ lit ":1}]".
Lemma payload_as_written_witness :
  receipt_payload receipt once false = Ok (JList [JObj [(lit "k", JInt 1)]]) /\
  forall v, receipt_payload receipt twice false <> Ok v.
Proof.
  split.
  - apply (payload_as_written receipt once false (JList [JObj [(lit "k", JInt 1)]])). split; [|split; [reflexivity|done]].
    exists once. split; vm_compute; reflexivity.
  - intros v H. apply payload_as_written in H as ((text & Hd & Hl) & Hw & _). vm_compute in Hd. injection Hd as <-.
    vm_compute in Hl. injection Hl as <-. vm_compute in Hw. discriminate Hw.
Defined.

(** Exceptions that are no [SecureReceiptError]: a number of more than 4300 digits and a deep nesting
    leave [read_secure_json] as a bare [ValueError] and [RecursionError]. *)
Definition escapes (text : pystr) : bool :=
  match receipt_payload receipt text true with
  | Err e => negb (issubclass (exn_class e) SecureReceiptError) && negb (issubclass (exn_class e) OSError)
  | Ok _ => false
  end.
Example long_number_escapes : escapes (repeat 49%N 4301) = true.
Proof. vm_compute. reflexivity. Qed.
Example deep_nesting_escapes : escapes (repeat 91%N 200) = true.
Proof. vm_compute. reflexivity. Qed.
End Examples.
