(* ===== verification/HoldRelease.v ===== *)
(** * The production hold release

    [src/scripts/ops/verify_production_hold_release.py]: the authorization under [/etc] is read
    through descriptors, checked field by field and bound to the commit and to the image digest,
    which itself is read from a Git object of that commit.  What the operating system and Git answer
    is given by [auth_view] and [repo_view]; each answer may be an exception. *)

From S2P Require Import Prelude PyStr Effects Json JsonParse Sha256 Utf8 FileSystem.
Open Scope Z_scope.

Definition KIND : pystr := "weltgewebe.production-hold-release.v1".
Definition REQUIRED_RECEIPTS : list pystr := [lit "offhost_age_recovery_sha256"; lit "restic_authority_sha256"].
Definition OPTIONAL_RECEIPTS : list pystr :=
  [lit "privacy_acceptance_sha256"; lit "alarm_delivery_sha256"; lit "human_acknowledgement_sha256"].
Definition RECEIPTS : list pystr := REQUIRED_RECEIPTS ++ OPTIONAL_RECEIPTS.
Definition FIELDS : list pystr :=
  (lit <$> ["schema_version"; "kind"; "environment"; "decision"; "commit"; "schaubild_image_digest"; "authorized_by";
            "approved_at"]%string) ++ RECEIPTS.
Definition REQUIRED_FIELDS : list pystr := List.filter (fun f => negb (str_in f OPTIONAL_RECEIPTS)) FIELDS.

Definition HoldReleaseError : exc_class := Sub "HoldReleaseError" ValueError.
Definition TimeoutExpired : exc_class := Sub "TimeoutExpired" (Sub "SubprocessError" Exception).
Definition blocked {A} (m : pystr) : result exn A := raise HoldReleaseError m.
Definition demand {A} (b : bool) (m : pystr) (k : result exn A) : result exn A := if b then k else blocked m.
(** [try: m  except classes: raise HoldReleaseError(msg)] *)
Definition translating {A} (classes : list exc_class) (m : pystr) (r : result exn A) : result exn A :=
  match r with
  | Ok a => Ok a
  | Err e => if existsb (issubclass (exn_class e)) classes then blocked m else Err e
  end.

(** [SHA40], [SHA256] and [DIGEST], with [fullmatch] *)
Definition is_sha40 (s : pystr) : bool := all_hex_of_length 40 s.
Definition is_sha256 (s : pystr) : bool := all_hex_of_length 64 s.
Definition is_digest (s : pystr) : bool := startswith "sha256:" s && all_hex_of_length 64 (drop 7 s).
Definition authorizer_char (c : N) : bool :=
  (in_range 65 90 c || in_range 97 122 c || ascii_digit c || (c =? 95) || (c =? 46) || (c =? 64) || (c =? 58) || (c =? 45))%N.
Definition is_authorizer (s : pystr) : bool :=
  (2 <=? length s)%nat && (length s <=? 128)%nat && forallb authorizer_char s.

(** A string of the given shape. *)
Definition text_of_shape (p : pystr -> bool) (v : json) : bool := match v with JStr s => p s | _ => false end.

Fixpoint unique_pairs_from (d : dict json) (pairs : list (pystr * json)) : result exn (dict json) :=
  match pairs with
  | [] => Ok d
  | (key, value) :: pairs' =>
      if dmem d key then blocked "duplicate authorization JSON key" else unique_pairs_from (dset d key value) pairs'
  end.
Definition unique_pairs (pairs : list (pystr * json)) : result exn json :=
  d ← unique_pairs_from [] pairs; Ok (JObj d).

(** ** The authorization *)

(** [os.fstat] with size and modification time. *)
Record full_stat : Type := FullStat { fs_stat : fstat; fs_size : Z; fs_mtime_ns : Z }.
Record auth_view : Type := AuthView {
  av_root : result exn fstat;           (* [/etc]: [os.open] and [fstat] *)
  av_parent : result exn fstat;         (* [weltgewebe] below it *)
  av_before : result exn full_stat;     (* the file, opened and examined *)
  av_raw : result exn bytes;            (* [os.read(fd, 4097)] *)
  av_after : result exn full_stat;
}.

Definition check_directory (st : fstat) (uid : Z) : result exn unit :=
  demand (S_ISDIR (st_mode st) && (st_uid st =? uid) && (Z.land (S_IMODE (st_mode st)) 18 =? 0))
    "authorization directory is not securely owned" (Ok tt).
Definition owner_only (before : full_stat) (uid : Z) : bool :=
  let st := fs_stat before in
  S_ISREG (st_mode st) && (st_uid st =? uid) && (st_nlink st =? 1) && (S_IMODE (st_mode st) =? 384)
  && (1 <=? fs_size before) && (fs_size before <=? 4096).
Definition unchanged (before after : full_stat) (raw : bytes) : bool :=
  (Z.of_nat (length raw) =? fs_size before) && (Z.of_nat (length raw) <=? 4096)
  && (st_dev (fs_stat after) =? st_dev (fs_stat before)) && (st_ino (fs_stat after) =? st_ino (fs_stat before))
  && (fs_size after =? fs_size before) && (fs_mtime_ns after =? fs_mtime_ns before).

Definition read_raw (v : auth_view) (uid : Z) : result exn bytes :=
  root ← av_root v; _ ← check_directory root uid;
  parent ← av_parent v; _ ← check_directory parent uid;
  before ← av_before v;
  demand (owner_only before uid) "authorization must be an owner-only regular file" (
  raw ← av_raw v;
  after ← av_after v;
  demand (unchanged before after raw) "authorization changed during read" (Ok raw)).

Section hold.
Context `{PyHost}.

Definition parse_record (invalid : pystr) (raw : bytes) : result exn json :=
  translating [UnicodeDecodeError; JSONDecodeError] invalid
    (text ← decode_strict raw; loads unique_pairs plain_constant text).

(** The first receipt that is present and no digest. *)
Fixpoint check_receipts (data : dict json) (names : list pystr) : result exn unit :=
  match names with
  | [] => Ok tt
  | name :: names' =>
      match dget data name with
      | None => check_receipts data names'
      | Some value => demand (text_of_shape is_sha256 value) (lit "release receipt invalid: " ++ name) (check_receipts data names')
      end
  end.
Definition field (data : dict json) (name : pystr) : json := default JNull (dget data name).
Definition differs (expected : option pystr) (value : json) : bool :=
  match expected with Some e => negb (py_eq value (JStr e)) | None => false end.
Definition approved_time (value : json) : result exn unit :=
  match value with
  | JStr s =>
      match host_fromisoformat (replace "Z" "+00:00" s) with
      | None => blocked "release authorization timestamp is invalid"
      | Some (_, aware) => demand aware "release authorization timestamp lacks timezone" (Ok tt)
      end
  | _ => blocked "release authorization timestamp missing"
  end.
Definition released (data : dict json) : bool :=
  match field data "schema_version" with JInt v => v =? 1 | _ => false end
  && py_eq (field data "kind") (JStr KIND) && py_eq (field data "environment") (JStr "production")
  && py_eq (field data "decision") (JStr "release").

Definition check_authorization (payload : json) (expected_commit expected_image : option pystr) : result exn (dict json) :=
  match payload with
  | JObj data =>
      demand (forallb (fun f => dmem data f) REQUIRED_FIELDS && forallb (fun f => str_in f FIELDS) (dkeys data))
        "authorization field matrix is incomplete or unexpected" (
      demand (released data) "production HOLD is not explicitly released" (
      let commit := field data "commit" in
      demand (text_of_shape is_sha40 commit) "approved commit is invalid" (
      demand (negb (differs expected_commit commit)) "requested commit differs from approved release" (
      let image := field data "schaubild_image_digest" in
      demand (text_of_shape is_digest image) "approved OCI digest is invalid" (
      demand (negb (differs expected_image image)) "Schaubild OCI digest differs from approved release" (
      _ ← check_receipts data RECEIPTS;
      demand (text_of_shape is_authorizer (field data "authorized_by")) "release authorizer is not identified" (
      _ ← approved_time (field data "approved_at");
      Ok data)))))))
  | _ => blocked "authorization field matrix is incomplete or unexpected"
  end.

Definition shape_or_none (p : pystr -> bool) (s : option pystr) : bool := match s with Some s => p s | None => true end.
Definition read_authorization (v : auth_view) (uid : Z) (expected_commit expected_image : option pystr)
    : result exn (dict json) :=
  demand (shape_or_none is_sha40 expected_commit) "expected commit must be a complete lowercase SHA" (
  demand (shape_or_none is_digest expected_image) "expected image digest must be an immutable SHA-256" (
  raw ← translating [OSError] "production HOLD authorization absent or unsafe" (read_raw v uid);
  payload ← parse_record "authorization JSON is invalid" raw;
  check_authorization payload expected_commit expected_image)).

(** ** The locked image *)

Definition LOCK_SOURCE_FIELDS : list pystr :=
  lit <$> ["schema_version"; "source_repository"; "source_commit"; "image_repository"; "image_digest"; "public_base_path"]%string.

(** A finished command: its return code and what it printed. *)
Record completed (A : Type) : Type := Completed { returncode : Z; stdout : A }.
#[global] Arguments Completed {A} _ _.
#[global] Arguments returncode {A} _.
#[global] Arguments stdout {A} _.
(** One step of [os.walk]: an entry it lists, with its [lstat], or a directory it cannot list. *)
Inductive walked : Type := Listed (r : result exn fstat) | Unlisted.
Record repo_view : Type := RepoView {
  rv_info : result exn fstat;                   (* [repository.lstat()] *)
  rv_common : result exn (completed pystr);     (* [git rev-parse --git-common-dir] *)
  rv_common_stat : result exn fstat;            (* of the directory it names, resolved *)
  rv_objects : result exn (bool * bool);        (* [objects]: [is_dir()] and [is_symlink()] *)
  rv_alternates : result exn (bool * bool);     (* [alternates]: [exists()] and [is_symlink()] *)
  rv_entries : list walked;                     (* [os.walk(objects)], in its order *)
  rv_size : result exn (completed pystr);       (* [git cat-file -s commit:path] *)
  rv_show : result exn (completed bytes);       (* [git show commit:path] *)
}.
Definition secure_dir (st : fstat) (uid : Z) : bool :=
  S_ISDIR (st_mode st) && (st_uid st =? uid) && (Z.land (S_IMODE (st_mode st)) 18 =? 0).
Fixpoint walk_objects (entries : list walked) (uid : Z) : result exn unit :=
  match entries with
  | [] => Ok tt
  | Unlisted :: _ => blocked "Git object store traversal failed"
  | Listed entry :: entries' =>
      st ← entry;
      demand (negb (S_ISLNK (st_mode st)) && (st_uid st =? uid) && (Z.land (S_IMODE (st_mode st)) 18 =? 0))
        "Git object store contains an untrusted entry" (walk_objects entries' uid)
  end.
Definition object_store (v : repo_view) (uid : Z) : result exn unit :=
  common ← rv_common v;
  demand ((returncode common =? 0) && negb (length (strip (stdout common)) =? 0)%nat)
    "Git common object directory is unavailable" (
  st ← rv_common_stat v;
  demand (secure_dir st uid) "Git common object directory is not securely owned" (
  objects ← rv_objects v;
  demand (fst objects && negb (snd objects)) "Git object directory is missing or redirected" (
  alternates ← rv_alternates v;
  demand (negb (fst alternates || snd alternates)) "Git alternate object stores are forbidden"
    (walk_objects (rv_entries v) uid)))).

Definition lock_bytes (v : repo_view) : result exn (Z * completed bytes) :=
  size ← rv_size v;
  demand (returncode size =? 0) "source commit lock is unavailable" (
  match parse_int (strip (stdout size)) with
  | None => blocked "source commit lock size is invalid"
  | Some n =>
      demand ((1 <=? n) && (n <=? 4096)) "source commit lock exceeds admission budget" (
      shown ← rv_show v; Ok (n, shown))
  end).

Definition lock_identity (record : dict json) : bool :=
  py_eq (field record "schema_version") (JStr "weltgewebe-schauwerk-runtime-lock.v1")
  && py_eq (field record "source_repository") (JStr "heimgewebe/schauwerk")
  && py_eq (field record "image_repository") (JStr "ghcr.io/heimgewebe/schauwerk-schaubild")
  && py_eq (field record "public_base_path") (JStr "/schaubild")
  && text_of_shape is_sha40 (field record "source_commit").
Definition check_lock (payload : json) : result exn pystr :=
  match payload with
  | JObj record =>
      demand (forallb (fun f => dmem record f) LOCK_SOURCE_FIELDS
              && forallb (fun f => str_in f LOCK_SOURCE_FIELDS) (dkeys record)) "source commit lock fields are invalid" (
      demand (lock_identity record) "source commit lock identity is invalid" (
      match field record "image_digest" with
      | JStr digest => demand (is_digest digest) "source commit lock OCI digest is invalid" (Ok digest)
      | _ => blocked "source commit lock OCI digest is invalid"
      end))
  | _ => blocked "source commit lock fields are invalid"
  end.

Definition read_locked_image_digest (v : repo_view) (repository : path) (commit : pystr) (uid : Z) : result exn pystr :=
  demand (is_sha40 commit) "source commit must be an exact lowercase SHA" (
  demand (absolute repository) "source repository must be an absolute directory" (
  info ← translating [OSError] "source repository is unavailable" (rv_info v);
  demand (secure_dir info uid) "source repository is not securely owned" (
  _ ← translating [OSError; TimeoutExpired] "Git object store inspection failed" (object_store v uid);
  '(size, shown) ← translating [OSError; TimeoutExpired] "source commit lock inspection failed" (lock_bytes v);
  demand ((returncode shown =? 0) && (Z.of_nat (length (stdout shown)) =? size)) "source commit lock bytes could not be verified" (
  payload ← parse_record "source commit lock JSON is invalid" (stdout shown);
  check_lock payload)))).

(** ** The command *)

(** [--preflight], or [--commit] with the two options that need it. *)
Record arguments : Type := Arguments { a_commit : option pystr; a_image : option pystr; a_repository : option path }.
Inductive outcome : Type := Usage (m : pystr) | Exit (code : Z) (line : pystr).

Definition authorize (a : arguments) (av : auth_view) (repository : path -> pystr -> repo_view) : result exn (dict json) :=
  locked ← match a_repository a, a_commit a with
           | Some p, Some commit => d ← read_locked_image_digest (repository p commit) p commit 0; Ok (Some d)
           | _, _ => Ok None
           end;
  demand (match locked, a_image a with Some d, Some i => str_eqb d i | _, _ => true end)
    "provided OCI digest differs from the exact source commit" (
  let expected_image := match locked with Some d => Some d | None => a_image a end in
  read_authorization av 0 (a_commit a) expected_image).
Definition main (a : arguments) (euid : Z) (av : auth_view) (repository : path -> pystr -> repo_view) : result exn outcome :=
  match a_commit a, a_image a, a_repository a with
  | None, Some _, _ => Ok (Usage "--image-digest requires --commit")
  | None, None, Some _ => Ok (Usage "--source-repository requires --commit")
  | _, _, _ =>
      if negb (euid =? 0) then Ok (Exit 1 "production HOLD release verifier must run as root")
      else
        match authorize a av repository with
        | Ok _ => Ok (Exit 0 "production_hold_release=verified")
        | Err e =>
            if issubclass (exn_class e) HoldReleaseError then
              Ok (Exit 1 (lit "production_hold_release=blocked: " ++ exn_msg e))
            else Err e
        end
  end.
End hold.
