(* ===== verification/HoldProofs.v ===== *)
(** * Proofs of the production hold release

    What an accepted authorization is, exactly, and what a verified release therefore binds. *)

From S2P Require Import Prelude PyStr Effects Json JsonParse JsonUnique Sha256 Utf8 FileSystem HoldRelease.
Open Scope Z_scope.

Lemma demand_ok {A} b m (k : result exn A) a : demand b m k = Ok a <-> b = true /\ k = Ok a.
Proof. unfold demand, blocked, raise. destruct b; naive_solver. Qed.
Lemma translating_ok {A} classes m (r : result exn A) a : translating classes m r = Ok a <-> r = Ok a.
Proof. unfold translating, blocked, raise. destruct r; [done|]. destruct (existsb _ _); naive_solver. Qed.
Lemma unit_bind_ok {A B} (m : result exn A) (k : result exn B) b : (_ ← m; k) = Ok b <-> (exists a, m = Ok a) /\ k = Ok b.
Proof. rewrite bind_ok. naive_solver. Qed.

Section hold.
Context {host : PyHost}.

(** ** The fields *)

Lemma shape_spec p v : text_of_shape p v = true <-> exists s, v = JStr s /\ p s = true.
Proof. destruct v; cbn; naive_solver. Qed.
Lemma field_str data name s : py_eq (field data name) (JStr s) = true <-> dget data name = Some (JStr s).
Proof.
  unfold field. destruct (dget data name) as [v|]; cbn [from_option id]; [|done]. split; [by intros ->%py_eq_str|].
  intros [= ->]. cbn. apply str_eqb_refl.
Qed.
Lemma field_shape data name p : text_of_shape p (field data name) = true <->
  exists s, dget data name = Some (JStr s) /\ p s = true.
Proof. rewrite shape_spec. unfold field. destruct (dget data name); cbn; naive_solver. Qed.
Lemma fields_present (data : dict json) names : forallb (fun f => dmem data f) names = true <-> forall f, f ∈ names -> f ∈ dkeys data.
Proof.
  rewrite forallb_forall. split; intros H f Hf.
  - apply dmem_spec, H. by apply list_elem_of_In.
  - apply dmem_spec, H. by apply list_elem_of_In.
Qed.
Lemma fields_known (data : dict json) names : forallb (fun f => str_in f names) (dkeys data) = true <-> forall f, f ∈ dkeys data -> f ∈ names.
Proof.
  rewrite forallb_forall. split; intros H f Hf.
  - apply str_in_elem, H. by apply list_elem_of_In.
  - apply str_in_elem, H. by apply list_elem_of_In.
Qed.
Lemma receipts_ok (data : dict json) names : (exists u, check_receipts data names = Ok u) <->
  forall name v, name ∈ names -> dget data name = Some v -> exists s, v = JStr s /\ is_sha256 s = true.
Proof.
  induction names as [|name names IH]; cbn [check_receipts].
  { split; [by intros _ ? ? ?%not_elem_of_nil|by exists tt]. }
  destruct (dget data name) as [v|] eqn:E.
  - split.
    + intros [u [Hs%shape_spec Hu]%demand_ok] n w [->|Hn]%elem_of_cons Hw; [rewrite E in Hw; by injection Hw as <-|].
      eapply (proj1 IH); eauto.
    + intros H. destruct (proj2 IH) as [u Hu]; [intros n w Hn; apply H; by right|]. exists u. apply demand_ok. split; [|done].
      apply shape_spec, (H name v); [by left|done].
  - rewrite IH. split; intros H n w.
    + intros [->|Hn]%elem_of_cons Hw; [by rewrite E in Hw|]. by eapply H.
    + intros Hn. apply H. by right.
Qed.

(** An authorization in force: every required field and no other, an explicit release of
    production, a whole commit and digest, receipts that are digests, an identified authorizer and a
    time with its zone. *)
Record in_force (data : dict json) (commit image : pystr) : Prop := {
  if_required : forall f, f ∈ REQUIRED_FIELDS -> f ∈ dkeys data;
  if_known : forall f, f ∈ dkeys data -> f ∈ FIELDS;
  if_schema : dget data "schema_version" = Some (JInt 1);
  if_kind : dget data "kind" = Some (JStr KIND);
  if_environment : dget data "environment" = Some (JStr "production");
  if_decision : dget data "decision" = Some (JStr "release");
  if_commit : dget data "commit" = Some (JStr commit) /\ is_sha40 commit = true;
  if_image : dget data "schaubild_image_digest" = Some (JStr image) /\ is_digest image = true;
  if_receipts : forall name v, name ∈ RECEIPTS -> dget data name = Some v -> exists s, v = JStr s /\ is_sha256 s = true;
  if_authorizer : exists who, dget data "authorized_by" = Some (JStr who) /\ is_authorizer who = true;
  if_approved : exists text t, dget data "approved_at" = Some (JStr text) /\
    host_fromisoformat (replace "Z" "+00:00" text) = Some (t, true);
}.

Lemma released_spec (data : dict json) : released data = true <->
  dget data "schema_version" = Some (JInt 1) /\ dget data "kind" = Some (JStr KIND) /\
  dget data "environment" = Some (JStr "production") /\ dget data "decision" = Some (JStr "release").
Proof.
  unfold released. rewrite !andb_true_iff, !field_str.
  assert (match field data "schema_version" with JInt v => v =? 1 | _ => false end = true
    <-> dget data "schema_version" = Some (JInt 1)) as ->; [|tauto].
  unfold field. destruct (dget data "schema_version") as [[| |z| | | |]|]; cbn; try naive_solver.
  rewrite Z.eqb_eq. naive_solver.
Qed.
Lemma approved_spec (data : dict json) : (exists u, approved_time (field data "approved_at") = Ok u) <->
  exists text t, dget data "approved_at" = Some (JStr text) /\ host_fromisoformat (replace "Z" "+00:00" text) = Some (t, true).
Proof.
  unfold field, approved_time. destruct (dget data "approved_at") as [[| | | |s| |]|]; cbn [from_option id];
    try (split; [by intros [u [=]]|by intros (text & t & [=] & _)]).
  destruct (host_fromisoformat _) as [[t aware]|] eqn:E.
  - setoid_rewrite demand_ok. split; [intros (u & -> & _); by exists s, t|].
    intros (text & t' & [= <-] & E'). rewrite E in E'. injection E' as -> ->. by exists tt.
  - split; [by intros [u [=]]|]. intros (text & t' & [= <-] & E'). congruence.
Qed.
Lemma differs_spec expected s : negb (differs expected (JStr s)) = true <-> forall e, expected = Some e -> s = e.
Proof.
  unfold differs. destruct expected as [e|]; [|naive_solver]. cbn. rewrite negb_involutive, str_eqb_eq. naive_solver.
Qed.

Lemma check_authorization_exact payload ec ei data : check_authorization payload ec ei = Ok data <->
  payload = JObj data /\ exists commit image, in_force data commit image /\
    (forall e, ec = Some e -> commit = e) /\ (forall e, ei = Some e -> image = e).
Proof.
  unfold check_authorization. split.
  - destruct payload as [| | | | | |d]; try done. intros [[Hr Hk]%andb_true_iff H]%demand_ok.
    apply demand_ok in H as [Hrel H]. apply demand_ok in H as [Hc H]. apply demand_ok in H as [Hec H].
    apply demand_ok in H as [Hi H]. apply demand_ok in H as [Hei H]. apply unit_bind_ok in H as [Hrec H].
    apply demand_ok in H as [Hw H]. apply unit_bind_ok in H as [Ht [= <-]]. split; [done|].
    apply field_shape in Hc as (commit & Ec & Hc), Hi as (image & Ei & Hi).
    assert (field d "commit" = JStr commit) as Fc by (unfold field; by rewrite Ec).
    assert (field d "schaubild_image_digest" = JStr image) as Fi by (unfold field; by rewrite Ei).
    rewrite Fc in Hec. rewrite Fi in Hei. apply released_spec in Hrel as (? & ? & ? & ?).
    exists commit, image. split; [|by rewrite <-!differs_spec].
    split; try done; [by apply fields_present|by apply fields_known|by apply receipts_ok|by apply field_shape|by apply approved_spec].
  - intros (-> & commit & image & Hf & Hec%differs_spec & Hei%differs_spec).
    destruct Hf as [Hr Hk H1 H2 H3 H4 [Ec Hc] [Ei Hi] Hrec Hw Ht].
    assert (field data "commit" = JStr commit) as Fc by (unfold field; by rewrite Ec).
    assert (field data "schaubild_image_digest" = JStr image) as Fi by (unfold field; by rewrite Ei).
    rewrite Fc, Fi. repeat (apply demand_ok; split).
    + rewrite andb_true_iff, fields_present, fields_known. done.
    + by apply released_spec.
    + done.
    + done.
    + done.
    + done.
    + apply unit_bind_ok. split; [by apply receipts_ok|]. apply demand_ok. split; [by apply field_shape|].
      apply unit_bind_ok. split; [by apply approved_spec|done].
Qed.

(** ** The file *)

(** The three descriptors are the owner's and closed to others, the file has the size it was opened
    with and did not change while it was read. *)
Record safely_read (v : auth_view) (uid : Z) (raw : bytes) : Prop := {
  sr_root : exists st, av_root v = Ok st /\ secure_dir st uid = true;
  sr_parent : exists st, av_parent v = Ok st /\ secure_dir st uid = true;
  sr_file : exists before after, av_before v = Ok before /\ av_after v = Ok after /\
    owner_only before uid = true /\ unchanged before after raw = true;
  sr_raw : av_raw v = Ok raw;
}.
Lemma check_directory_ok st uid u : check_directory st uid = Ok u <-> secure_dir st uid = true.
Proof. unfold check_directory, secure_dir. rewrite demand_ok. destruct u. naive_solver. Qed.
Lemma read_raw_exact v uid raw : read_raw v uid = Ok raw <-> safely_read v uid raw.
Proof.
  unfold read_raw. split.
  - intros (root & Hroot & H)%bind_ok. apply bind_ok in H as (u1 & Hd1 & H).
    apply bind_ok in H as (parent & Hparent & H). apply bind_ok in H as (u2 & Hd2 & H).
    apply bind_ok in H as (before & Hb & H). apply demand_ok in H as [Ho H].
    apply bind_ok in H as (raw' & Hr & H). apply bind_ok in H as (after & Ha & H). apply demand_ok in H as [Hu [= ->]].
    apply check_directory_ok in Hd1, Hd2. split; [by exists root|by exists parent|by exists before, after|done].
  - intros [(root & Hroot & Hd1) (parent & Hparent & Hd2) (before & after & Hb & Ha & Ho & Hu) Hr].
    rewrite Hroot. cbn. rewrite (proj2 (check_directory_ok root uid tt) Hd1). cbn. rewrite Hparent. cbn.
    rewrite (proj2 (check_directory_ok parent uid tt) Hd2). cbn. rewrite Hb. cbn. rewrite Ho. cbn. rewrite Hr. cbn. rewrite Ha.
    cbn. by rewrite Hu.
Qed.

(** The text is a record, as it is written, in which no object repeats a key. *)
Definition says (raw : bytes) (data : dict json) : Prop :=
  (exists text, decode_strict raw = Ok text /\ loads as_written plain_constant text = Ok (JObj data)) /\
  json_wf (JObj data) = true.
Lemma unique_exact (pairs : list (pystr * json)) v : unique_pairs pairs = Ok v <-> v = JObj pairs /\ NoDup (dkeys pairs).
Proof.
  unfold unique_pairs. rewrite bind_ok.
  assert (forall d, unique_pairs_from [] pairs = Ok d <-> d = pairs /\ NoDup (dkeys pairs)) as He.
  { intros d. apply keep_exact; [done|..]; intros acc k w ps E; cbn [unique_pairs_from]; rewrite E; [by eexists|done]. }
  setoid_rewrite He. naive_solver.
Qed.
Lemma parse_record_ok m raw data : parse_record m raw = Ok (JObj data) <-> says raw data.
Proof.
  unfold parse_record, says. rewrite translating_ok, bind_ok.
  setoid_rewrite (loads_strict _ _ unique_exact plain_constant_wf). naive_solver.
Qed.

(** An authorization that was read safely, says what it must and names what is expected. *)
Definition authorized (v : auth_view) (uid : Z) (ec ei : option pystr) (data : dict json) : Prop :=
  shape_or_none is_sha40 ec = true /\ shape_or_none is_digest ei = true /\
  exists raw commit image, safely_read v uid raw /\ says raw data /\ in_force data commit image /\
    (forall e, ec = Some e -> commit = e) /\ (forall e, ei = Some e -> image = e).
Lemma read_authorization_ok v uid ec ei data : read_authorization v uid ec ei = Ok data <-> authorized v uid ec ei data.
Proof.
  unfold read_authorization. rewrite !demand_ok. split.
  - intros (H1 & H2 & H). apply bind_ok in H as (raw & Hraw & H). apply bind_ok in H as (payload & Hp & H).
    apply translating_ok, read_raw_exact in Hraw. apply check_authorization_exact in H as (-> & commit & image & Hf & Hec & Hei).
    apply parse_record_ok in Hp. split_and!; try done. by exists raw, commit, image.
  - intros (H1 & H2 & raw & commit & image & Hraw & Hs & Hf & Hec & Hei). split_and!; try done.
    rewrite (proj2 (translating_ok _ _ _ raw)) by (by apply read_raw_exact). apply bind_ok. exists raw. split; [done|].
    apply bind_ok. exists (JObj data). split; [by apply parse_record_ok|]. apply check_authorization_exact. split; [done|].
    by exists commit, image.
Qed.

(** ** The locked image *)

Definition trusted_entry (w : walked) (uid : Z) : Prop :=
  exists st, w = Listed (Ok st) /\ S_ISLNK (st_mode st) = false /\ st_uid st = uid /\ Z.land (S_IMODE (st_mode st)) 18 = 0.
Lemma walk_ok entries uid u : walk_objects entries uid = Ok u <-> forall w, w ∈ entries -> trusted_entry w uid.
Proof.
  induction entries as [|[r|] entries IH]; cbn [walk_objects].
  - destruct u. split; [by intros _ w ?%not_elem_of_nil|done].
  - rewrite bind_ok. setoid_rewrite demand_ok. setoid_rewrite IH. split.
    + intros (st & -> & [[Hl Hu]%andb_true_iff Hm]%andb_true_iff & H) w [->|Hw]%elem_of_cons; [|by apply H].
      apply negb_true_iff in Hl. exists st. split_and!; [done|done|lia|lia].
    + intros H. destruct (H (Listed r)) as (st & [= ->] & Hl & Hu & Hm); [by left|]. exists st. rewrite Hl, Hu, Hm, Z.eqb_refl.
      split_and!; [done|done|]. intros w Hw. apply H. by right.
  - split; [done|]. intros H. assert (trusted_entry Unlisted uid) as (st & [=] & _) by (apply H; by left).
Qed.
(** The store of objects as it is checked: the common directory and every entry below [objects] can be
    written by their owner only, [objects] itself is a directory of any owner and mode, and no other
    store stands behind it. *)
Record trusted_store (v : repo_view) (uid : Z) : Prop := {
  ts_common : exists text, rv_common v = Ok (Completed 0 text) /\ strip text <> [];
  ts_owner : exists st, rv_common_stat v = Ok st /\ secure_dir st uid = true;
  ts_objects : rv_objects v = Ok (true, false);
  ts_alternates : rv_alternates v = Ok (false, false);
  ts_entries : forall w, w ∈ rv_entries v -> trusted_entry w uid;
}.
Lemma object_store_ok v uid u : object_store v uid = Ok u <-> trusted_store v uid.
Proof.
  unfold object_store. split.
  - intros ([c text] & Hc & [[Hz Hn]%andb_true_iff H]%demand_ok)%bind_ok. apply bind_ok in H as (st & Hst & H).
    apply demand_ok in H as [Hs H]. apply bind_ok in H as ([[] []] & Eo & H); apply demand_ok in H as [Ho H]; try done.
    apply bind_ok in H as ([[] []] & Ea & H); apply demand_ok in H as [Ha H]; try done. pose proof (proj1 (walk_ok _ _ _) H) as Hw. clear H. cbn [returncode stdout] in *.
    apply Z.eqb_eq in Hz as ->. split; [|by exists st|done..]. exists text. split; [done|]. intros E. by rewrite E in Hn.
  - intros [(text & Hc & Hn) (st & Hst & Hs) Ho Ha Hw]. rewrite Hc. apply demand_ok. cbn [returncode stdout]. split; [by destruct (strip text)|].
    rewrite Hst. apply demand_ok. split; [done|]. rewrite Ho, Ha. cbn [mbind result_bind fst snd andb orb negb demand]. by apply walk_ok.
Qed.
(** The lock of the commit, whole: its size and its bytes agree. *)
Definition lock_text (v : repo_view) (raw : bytes) : Prop :=
  exists text, rv_size v = Ok (Completed 0 text) /\ parse_int (strip text) = Some (Z.of_nat (length raw)) /\
    1 <= Z.of_nat (length raw) <= 4096 /\ rv_show v = Ok (Completed 0 raw).
Record names_image (record : dict json) (digest : pystr) : Prop := {
  ni_fields : forall f, f ∈ dkeys record <-> f ∈ LOCK_SOURCE_FIELDS;
  ni_identity : lock_identity record = true;
  ni_digest : dget record "image_digest" = Some (JStr digest) /\ is_digest digest = true;
}.
Lemma check_lock_ok payload digest : check_lock payload = Ok digest <-> exists record, payload = JObj record /\ names_image record digest.
Proof.
  unfold check_lock. destruct payload as [| | | | | |record]; try (split; [done|by intros (? & [=] & _)]).
  rewrite !demand_ok, andb_true_iff, fields_present, fields_known. split.
  - intros [[Hr Hk] [Hid H]]. exists record. split; [done|].
    destruct (dget record "image_digest") as [v|] eqn:E; unfold field in H; rewrite E in H; [|done]. cbn [from_option id] in H.
    destruct v; try done. apply demand_ok in H as [Hd [= ->]]. split; [|done|by rewrite E]. intros f. split; [apply Hk|apply Hr].
  - intros (r & [= <-] & [Hf Hid [E Hd]]). split; [split; intros f; apply Hf|]. split; [done|]. unfold field. rewrite E.
    cbn [from_option id]. by rewrite Hd.
Qed.
Lemma lock_bytes_ok v raw : (exists size, lock_bytes v = Ok (size, Completed 0 raw) /\ Z.of_nat (length raw) = size) <-> lock_text v raw.
Proof.
  unfold lock_bytes, lock_text. split.
  - intros (size & ([c text] & Hs & [Hz H]%demand_ok)%bind_ok & Hl). cbn [returncode stdout] in Hz, H. apply Z.eqb_eq in Hz as ->.
    destruct (parse_int (strip text)) as [n|] eqn:E; [|done]. apply demand_ok in H as [Hn H].
    apply bind_ok in H as (shown & Hsh & [= -> ->]). exists text. rewrite Hl. split_and!; try done; lia.
  - intros (text & Hs & Hp & Hn & Hsh). exists (Z.of_nat (length raw)). split; [|done]. rewrite Hs. cbn [mbind result_bind returncode stdout Z.eqb demand]. rewrite Hp.
    apply demand_ok. split; [lia|]. by rewrite Hsh.
Qed.

(** What the digest read from the lock of a commit rests on. *)
Record locked (v : repo_view) (repository : path) (commit : pystr) (uid : Z) (digest : pystr) : Prop := {
  l_commit : is_sha40 commit = true;
  l_absolute : absolute repository = true;
  l_owner : exists st, rv_info v = Ok st /\ secure_dir st uid = true;
  l_store : trusted_store v uid;
  l_record : exists raw record, lock_text v raw /\ says raw record /\ names_image record digest;
}.
Lemma says_object m raw payload : parse_record m raw = Ok payload ->
  forall record, payload = JObj record -> says raw record.
Proof. intros H record ->. by apply parse_record_ok in H. Qed.
Lemma read_locked_exact v repository commit uid digest :
  read_locked_image_digest v repository commit uid = Ok digest <-> locked v repository commit uid digest.
Proof.
  unfold read_locked_image_digest. rewrite !demand_ok. split.
  - intros (Hc & Ha & H). apply bind_ok in H as (st & Hst%translating_ok & H). apply demand_ok in H as [Hs H].
    apply unit_bind_ok in H as [[u Hu%translating_ok%object_store_ok] H].
    apply bind_ok in H as ([size [c raw]] & Hl%translating_ok & H). apply demand_ok in H as [[Hz Hn]%andb_true_iff H].
    cbn in Hz, Hn. apply Z.eqb_eq in Hz as ->. apply bind_ok in H as (payload & Hp & H).
    apply check_lock_ok in H as (record & Er & Hi). split; [done|done|by exists st|done|]. exists raw, record.
    split_and!; [|by eapply says_object|done]. apply lock_bytes_ok. exists size. split; [done|lia].
  - intros [Hc Ha (st & Hst & Hs) Hstore (raw & record & Hl & Hsays & Hi)]. split; [done|]. split; [done|].
    apply bind_ok. exists st. split; [by apply translating_ok|]. apply demand_ok. split; [done|].
    apply unit_bind_ok. split; [exists tt; by apply translating_ok, object_store_ok|].
    apply lock_bytes_ok in Hl as (size & Hl & Hn). apply bind_ok. exists (size, Completed 0 raw).
    split; [by apply translating_ok|]. cbn. rewrite Hn, Z.eqb_refl. cbn. apply bind_ok. exists (JObj record).
    split; [by apply parse_record_ok|]. apply check_lock_ok. by exists record.
Qed.
(** ** The command *)

(** The digest the authorization has to name: the one of the lock of the commit where a repository
    is given, which must be the one asked for, or else the one asked for. *)
Definition expected_digest (a : arguments) (repository : path -> pystr -> repo_view) (ei : option pystr) : Prop :=
  match a_repository a, a_commit a with
  | Some p, Some commit => exists d, ei = Some d /\ locked (repository p commit) p commit 0 d /\
      forall i, a_image a = Some i -> i = d
  | _, _ => ei = a_image a
  end.
Lemma authorize_ok a av repository data :
  authorize a av repository = Ok data <-> exists ei, expected_digest a repository ei /\ authorized av 0 (a_commit a) ei data.
Proof.
  unfold authorize, expected_digest.
  destruct (a_repository a) as [p|], (a_commit a) as [commit|]; cbn [mbind result_bind];
    [split|rewrite demand_ok, read_authorization_ok; naive_solver..].
  - intros H. apply bind_ok in H as (l & Hl & H). apply bind_ok in Hl as (d & Hd%read_locked_exact & [= <-]).
    apply demand_ok in H as [Hi H%read_authorization_ok]. exists (Some d). split; [|done]. exists d. split_and!; [done..|].
    intros i Ei. rewrite Ei in Hi. by apply str_eqb_eq in Hi.
  - intros (ei & (d & -> & Hd & Hi) & Ha). apply read_locked_exact in Hd. rewrite Hd. cbn [mbind result_bind].
    apply demand_ok. split; [|by apply read_authorization_ok]. destruct (a_image a) as [i|]; [|done].
    apply str_eqb_eq. symmetry. by apply Hi.
Qed.

(** C33: the verifier says that a release is verified, and exits with 0, exactly when it runs as root,
    its options fit together, and there is an authorization in force for the commit and the image
    asked for, where with a source repository the image is the one that the lock of this very commit
    names, read whole.  Of the repository that it is read from, the root directory, the common Git
    directory and every entry below [objects] belong to root and nobody else can write them, [objects]
    is a directory and no link, and there is no file of alternates; the owner and the mode of [objects]
    itself are not looked at. *)
Theorem release_verified_exact a euid av repository :
  (exists line, main a euid av repository = Ok (Exit 0 line)) <->
  euid = 0 /\ (a_commit a = None -> a_image a = None /\ a_repository a = None) /\
  exists ei data, expected_digest a repository ei /\ authorized av 0 (a_commit a) ei data.
Proof.
  assert ((exists line, main a euid av repository = Ok (Exit 0 line)) <->
    euid = 0 /\ (a_commit a = None -> a_image a = None /\ a_repository a = None) /\
    exists data, authorize a av repository = Ok data) as ->.
  - unfold main. destruct (a_commit a), (a_image a), (a_repository a);
      try (split; [by intros [? [=]]|intros (_ & H & _); by destruct (H eq_refl)]);
      destruct (Z.eqb_spec euid 0); cbn [negb]; try (split; [by intros [? [=]]|by intros [? _]]);
      (destruct (authorize a av repository) as [data|ex];
        [naive_solver
        |destruct (issubclass _ _); (split; [by intros [? [=]]|by intros (_ & _ & ? & [=])])]).
  - setoid_rewrite authorize_ok. naive_solver.
Qed.
End hold.

(** ** A run *)

Module Examples.
#[local] Existing Instance ascii_host.
Definition digest (c : N) : pystr := lit "sha256:" ++ repeat c 64.
Definition a_sha : pystr := repeat 97%N 40.
Definition authorization (kind : string) : bytes :=
  canonical_json (JObj [(lit "schema_version", JInt 1); (lit "kind", JStr (lit kind));
    (lit "environment", JStr "production"); (lit "decision", JStr "release"); (lit "commit", JStr a_sha);
    (lit "schaubild_image_digest", JStr (digest 98)); (lit "authorized_by", JStr "ops@heimgewebe");
    (lit "approved_at", JStr "2026-01-01T00:00:00Z"); (lit "offhost_age_recovery_sha256", JStr (repeat 99%N 64));
    (lit "restic_authority_sha256", JStr (repeat 100%N 64))]).
Definition lock (c : N) : bytes :=
  canonical_json (JObj [(lit "schema_version", JStr "weltgewebe-schauwerk-runtime-lock.v1");
    (lit "source_repository", JStr "heimgewebe/schauwerk"); (lit "source_commit", JStr (repeat 101%N 40));
    (lit "image_repository", JStr "ghcr.io/heimgewebe/schauwerk-schaubild"); (lit "image_digest", JStr (digest c));
    (lit "public_base_path", JStr "/schaubild")]).
Definition a_dir : fstat := Stat 1 2 0 0 (16384 + 493) 2.
Definition a_file (raw : bytes) : full_stat := FullStat (Stat 1 3 0 0 (32768 + 384) 1) (Z.of_nat (length raw)) 17.
Definition an_auth (kind : string) : auth_view :=
  let raw := authorization kind in AuthView (Ok a_dir) (Ok a_dir) (Ok (a_file raw)) (Ok raw) (Ok (a_file raw)).
Definition a_repo (c : N) (mode : Z) : repo_view :=
  let raw := lock c in
  RepoView (Ok a_dir) (Ok (Completed 0 (lit ".git"))) (Ok a_dir) (Ok (true, false)) (Ok (false, false))
    [Listed (Ok a_dir); Listed (Ok (Stat 1 4 0 0 mode 1))]
    (Ok (Completed 0 (show_Z (Z.of_nat (length raw)) ++ [10%N]))) (Ok (Completed 0 raw)).
Definition the_arguments : arguments := Arguments (Some a_sha) None (Some (Path true [lit "srv"; lit "repo"])).

Example wrong_kind_blocks : main the_arguments 0 (an_auth "weltgewebe.production-hold.v1") (fun _ _ => a_repo 98 (32768 + 292)) =
  Ok (Exit 1 "production_hold_release=blocked: production HOLD is not explicitly released").
Proof. vm_compute. reflexivity. Qed.
Example other_image_blocks : main the_arguments 0 (an_auth "weltgewebe.production-hold-release.v1") (fun _ _ => a_repo 99 (32768 + 292)) =
  Ok (Exit 1 "production_hold_release=blocked: Schaubild OCI digest differs from approved release").
Proof. vm_compute. reflexivity. Qed.
Example writable_object_blocks : main the_arguments 0 (an_auth "weltgewebe.production-hold-release.v1") (fun _ _ => a_repo 98 (32768 + 402)) =
  Ok (Exit 1 "production_hold_release=blocked: Git object store contains an untrusted entry").
Proof. vm_compute. reflexivity. Qed.

Lemma release_verified_exact_witness :
  exists ei data, expected_digest the_arguments (fun _ _ => a_repo 98 (32768 + 292)) ei /\
    authorized (an_auth "weltgewebe.production-hold-release.v1") 0 (Some a_sha) ei data.
Proof.
  apply (release_verified_exact the_arguments 0 (an_auth "weltgewebe.production-hold-release.v1")
    (fun _ _ => a_repo 98 (32768 + 292))).
  exists (lit "production_hold_release=verified"). vm_compute. reflexivity.
Defined.
End Examples.
