(* ===== verification/WebArchive.v ===== *)
(** * The web deploy archive

    [src/scripts/ops/validate_web_deploy_archive.py]: a [tar.gz] is admitted to the deployment only
    as a bounded tree of regular files and directories below [build].  What [tarfile] reads of the
    archive is data ([archive]): its members in order and what ended the reading. *)

From S2P Require Import Prelude PyStr Json FileSystem.
Open Scope Z_scope.

Definition DEFAULT_MAX_COMPRESSED_BYTES : Z := 256 * 1024 * 1024.
Definition DEFAULT_MAX_EXPANDED_BYTES : Z := 512 * 1024 * 1024.
Definition DEFAULT_MAX_FILE_BYTES : Z := 64 * 1024 * 1024.
Definition DEFAULT_MAX_MEMBERS : Z := 5000.
Definition DEFAULT_MAX_PATH_BYTES : Z := 1024.
Definition DEFAULT_MAX_COMPONENT_BYTES : Z := 255.
Definition DEFAULT_MAX_DEPTH : Z := 32.
Definition ALLOWED_MEMBER_PAX_HEADERS : list pystr := [lit "mtime"].
Definition REQUIRED_REGULAR_FILES : list pystr := [lit "build/_app/version.json"; lit "build/index.html"].

Definition ArchiveValidationError : exc_class := Sub "ArchiveValidationError" ValueError.
Definition TarError : exc_class := Sub "TarError" Exception.
Definition invalid {A} (m : pystr) : result exn A := raise ArchiveValidationError m.
Definition refuse_if {A} (b : bool) (m : pystr) (k : result exn A) : result exn A := if b then invalid m else k.

(** [tarfile.TarInfo]: [isreg()], [isdir()] or neither. *)
Inductive member_kind : Type := Regular | Directory | Special.
Record member : Type := Member {
  m_name : pystr;
  m_kind : member_kind;
  m_mode : Z;
  m_size : Z;
  m_pax : dict pystr;
}.
Definition isdir (m : member) : bool := match m_kind m with Directory => true | _ => false end.
Definition isreg (m : member) : bool := match m_kind m with Regular => true | _ => false end.
(** The file and what [tarfile.open] and the iteration over it give. *)
Record archive : Type := Archive {
  a_path : pystr;
  a_symlink : bool;
  a_is_file : bool;
  a_stat : result exn Z;                (* [path.stat().st_size] *)
  a_global : result exn (dict pystr);   (* opened: [bundle.pax_headers] *)
  a_members : list member;
  a_end : option exn;                   (* the exception that ends the iteration, if one does *)
}.
Record limits : Type := Limits { max_compressed_bytes : Z; max_expanded_bytes : Z; max_file_bytes : Z; max_members : Z }.
Definition default_limits : limits :=
  Limits DEFAULT_MAX_COMPRESSED_BYTES DEFAULT_MAX_EXPANDED_BYTES DEFAULT_MAX_FILE_BYTES DEFAULT_MAX_MEMBERS.
Record ArchiveSummary : Type := Summary {
  schema_version : Z; archive_name : pystr; compressed_bytes : Z; expanded_bytes : Z; member_count : Z; largest_file_bytes : Z }.

(** The parts of [PurePosixPath] of a relative path. *)
Definition pure_parts (s : pystr) : list pystr :=
  List.filter (fun part => negb (str_eqb part []) && negb (str_eqb part ".")) (split_on 47 s).

Section archive.
(** [format_char c]: [unicodedata.category(c)] is [Cf]. *)
Context `{PyHost} (format_char : N -> bool).

Definition unsafe_char (c : N) : bool := in_range 0 31 c || in_range 127 159 c || is_surrogate c || format_char c.

Definition component_fits (part : pystr) : result exn bool :=
  b ← encode part; Ok (Z.of_nat (length b) <=? DEFAULT_MAX_COMPONENT_BYTES).
Definition stripped (m : member) : pystr :=
  if isdir m && endswith "/" (m_name m) then take (length (m_name m) - 1) (m_name m) else m_name m.
Definition canonical_member_name (m : member) : result exn pystr :=
  let name := m_name m in
  refuse_if (str_eqb name []) "archive member has an empty name" (
  refuse_if (contains [92%N] name || existsb unsafe_char name) (lit "unsafe archive path characters: " ++ repr_str name) (
  path_bytes ← encode name;
  refuse_if (DEFAULT_MAX_PATH_BYTES <? Z.of_nat (length path_bytes)) (lit "archive path is too long: " ++ repr_str name) (
  let candidate := stripped m in
  refuse_if (str_eqb candidate [] || startswith "/" candidate) (lit "unexpected archive path: " ++ name) (
  refuse_if (contains "//" candidate || startswith "./" candidate || contains "/./" candidate)
    (lit "non-canonical archive path: " ++ name) (
  let parts := pure_parts candidate in
  let canonical := path_str (Path false parts) in
  refuse_if (negb (str_eqb canonical candidate)) (lit "non-canonical archive path: " ++ name) (
  refuse_if (negb (match parts with part :: _ => str_eqb part "build" | [] => false end))
    (lit "unexpected archive path: " ++ name) (
  refuse_if (DEFAULT_MAX_DEPTH <? Z.of_nat (length parts)) (lit "archive path is too deep: " ++ name) (
  refuse_if (existsb (fun part => str_in part [[]; lit "."; lit ".."]) parts) (lit "unsafe archive path: " ++ name) (
  fits ← mapM component_fits parts;
  refuse_if (negb (forallb id fits)) (lit "archive path component is too long: " ++ name)
    (Ok canonical)))))))))).

(** [PAX_TIME_RE.fullmatch] *)
Definition all_digits (s : pystr) : bool := negb (str_eqb s []) && forallb ascii_digit s.
Definition pax_time (s : pystr) : bool :=
  let s := match s with c :: t => if (c =? 45)%N then t else s | [] => s end in
  match split_on 46 s with
  | [whole] => all_digits whole
  | [whole; fraction] => all_digits whole && all_digits fraction
  | _ => false
  end.

(** The variables of the loop. *)
Record scan : Type := Scan {
  sc_seen : list pystr; sc_regular : list pystr; sc_expanded : Z; sc_largest : Z; sc_count : Z }.
Definition scan_start : scan := Scan [] [] 0 0 0.

Definition check_member (lim : limits) (s : scan) (m : member) : result exn scan :=
  let count := sc_count s + 1 in
  refuse_if (max_members lim <? count) "archive has too many members" (
  canonical ← canonical_member_name m;
  let unsupported := List.filter (fun k => negb (str_in k ALLOWED_MEMBER_PAX_HEADERS)) (dkeys (m_pax m)) in
  refuse_if (negb (length unsupported =? 0)%nat)
    (lit "archive member has unsupported pax headers: " ++ canonical ++ lit ": "
     ++ repr (JList (JStr <$> sort_str unsupported))) (
  refuse_if (match dget (m_pax m) "mtime" with
             | Some t => (64 <? length t)%nat || negb (pax_time t)
             | None => false
             end) (lit "archive member has invalid pax mtime: " ++ canonical) (
  refuse_if (str_in canonical (sc_seen s)) (lit "duplicate archive path: " ++ canonical) (
  refuse_if (negb (isdir m || isreg m)) (lit "unsupported archive member type: " ++ canonical) (
  refuse_if (negb (Z.land (m_mode m) 3602 =? 0)) (lit "elevated or writable permission bits in archive: " ++ canonical) (
  refuse_if (isdir m && negb (m_size m =? 0)) (lit "directory member has non-zero size: " ++ canonical) (
  let seen := sc_seen s ++ [canonical] in
  if isreg m then
    refuse_if (m_size m <? 0) (lit "archive member has negative size: " ++ canonical) (
    refuse_if (max_file_bytes lim <? m_size m) (lit "archive member exceeds per-file limit: " ++ canonical) (
    let expanded := sc_expanded s + m_size m in
    refuse_if (max_expanded_bytes lim <? expanded) "archive exceeds expanded limit"
      (Ok (Scan seen (sc_regular s ++ [canonical]) expanded (Z.max (sc_largest s) (m_size m)) count))))
  else Ok (Scan seen (sc_regular s) (sc_expanded s) (sc_largest s) count)))))))).

Fixpoint check_positive (l : list (pystr * Z)) : result exn unit :=
  match l with
  | [] => Ok tt
  | (name, value) :: l' => if value <=? 0 then raise ValueError (name ++ lit " must be positive") else check_positive l'
  end.
Definition read_members (a : archive) (lim : limits) : result exn scan :=
  global ← a_global a;
  refuse_if (negb (length global =? 0)%nat) "archive has unsupported global pax headers" (
  s ← foldM (check_member lim) scan_start (a_members a);
  match a_end a with Some exc => Err exc | None => Ok s end).

Definition validate_archive (a : archive) (lim : limits) : result exn ArchiveSummary :=
  _ ← check_positive [(lit "max_compressed_bytes", max_compressed_bytes lim); (lit "max_expanded_bytes", max_expanded_bytes lim);
                      (lit "max_file_bytes", max_file_bytes lim); (lit "max_members", max_members lim)];
  refuse_if (a_symlink a || negb (a_is_file a)) "archive must be a non-symlink regular file" (
  size ← a_stat a;
  refuse_if (size <=? 0) "archive is empty" (
  refuse_if (max_compressed_bytes lim <? size)
    (lit "archive exceeds compressed limit: " ++ show_Z size ++ lit " > " ++ show_Z (max_compressed_bytes lim)) (
  s ← match read_members a lim with
      | Err exc => if existsb (issubclass (exn_class exc)) [TarError; OSError]
                   then invalid (lit "archive cannot be read: " ++ exn_msg exc) else Err exc
      | Ok s => Ok s
      end;
  refuse_if (sc_count s =? 0) "archive has no members" (
  let missing := List.filter (fun f => negb (str_in f (sc_regular s))) REQUIRED_REGULAR_FILES in
  refuse_if (negb (length missing =? 0)%nat)
    (lit "archive is missing required regular files: " ++ join (lit ", ") missing)
    (Ok (Summary 2 (a_path a) size (sc_expanded s) (sc_count s) (sc_largest s))))))).

(** [main], without [--output]: the exit code and the line printed. *)
Definition main (a : archive) (lim : limits) : result exn (Z * pystr) :=
  match validate_archive a lim with
  | Ok s => Ok (0, lit "web_deploy_archive=ok members=" ++ show_Z (member_count s)
                   ++ lit " compressed_bytes=" ++ show_Z (compressed_bytes s)
                   ++ lit " expanded_bytes=" ++ show_Z (expanded_bytes s)
                   ++ lit " largest_file_bytes=" ++ show_Z (largest_file_bytes s))
  | Err exc => if issubclass (exn_class exc) ValueError then Ok (1, lit "ERROR: " ++ exn_msg exc) else Err exc
  end.
End archive.

(** ** Proofs: one name *)

Lemma refuse_if_ok {A : Type} b m (k : result exn A) a : refuse_if b m k = Ok a <-> b = false /\ k = Ok a.
Proof. unfold refuse_if, invalid, raise. destruct b; naive_solver. Qed.

Definition proper_part (part : pystr) : Prop :=
  part <> [] /\ part <> lit "." /\ part <> lit ".." /\ (47%N ∉ part) /\
  exists b, encode part = Ok b /\ Z.of_nat (length b) <= DEFAULT_MAX_COMPONENT_BYTES.

Lemma proper_split parts : parts <> [] -> Forall proper_part parts -> split_on 47 (join (lit "/") parts) = parts.
Proof. intros Hn Hp. apply split_on_join; [done|]. eapply Forall_impl; [exact Hp|]. by intros p (_ & _ & _ & ? & _). Qed.
Lemma kept_parts parts : Forall (fun part => part <> [] /\ part <> lit ".") parts ->
  List.filter (fun part => negb (str_eqb part []) && negb (str_eqb part ".")) parts = parts.
Proof.
  induction 1 as [|part parts [H1 H2] _ IH]; [done|]. cbn [List.filter].
  by rewrite (proj2 (str_eqb_neq _ _) H1), (proj2 (str_eqb_neq _ _) H2), IH.
Qed.
Lemma proper_pure parts : parts <> [] -> Forall proper_part parts -> pure_parts (join (lit "/") parts) = parts.
Proof.
  intros Hn Hp. unfold pure_parts. rewrite proper_split by done. apply kept_parts.
  eapply Forall_impl; [exact Hp|]. by intros p (? & ? & _).
Qed.
Lemma elem_split_head (x : pystr) t : 47%N ∉ x -> x ∈ split_on 47 (x ++ 47%N :: t).
Proof. intros Hx. rewrite split_on_field by done. by left. Qed.
Lemma proper_canonical parts : parts <> [] -> Forall proper_part parts ->
  let c := join (lit "/") parts in
  str_eqb c [] || startswith "/" c = false /\ contains "//" c || startswith "./" c || contains "/./" c = false /\
  ~ (exists t, c = t ++ [47%N]).
Proof.
  intros Hn Hp c. pose proof (proper_split parts Hn Hp) as Hs. fold c in Hs.
  assert (forall x, x ∈ split_on 47 c -> x <> [] /\ x <> lit ".") as Hpart.
  { intros x. rewrite Hs. intros Hx. rewrite Forall_forall in Hp. by destruct (Hp x Hx) as (? & ? & _). }
  assert (forall x t, 47%N ∉ x -> c = x ++ 47%N :: t -> x <> [] /\ x <> lit ".") as Hhead.
  { intros x t Hx E. apply Hpart. rewrite E. by apply elem_split_head. }
  assert (forall a x t, 47%N ∉ x -> c = a ++ 47%N :: x ++ 47%N :: t -> x <> [] /\ x <> lit ".") as Hmid.
  { intros a x t Hx E. apply Hpart. rewrite E, split_on_app. apply elem_of_app. right. by apply elem_split_head. }
  split_and!.
  - apply orb_false_iff. split.
    + apply str_eqb_neq. intros E. destruct (Hpart []) as [[] _]; [|done]. rewrite E. by left.
    + apply not_true_iff_false. intros [t E]%startswith_spec. by destruct (Hhead [] t (not_elem_of_nil _) E) as [[] _].
  - rewrite !orb_false_iff. split_and!; apply not_true_iff_false.
    + intros (a & b & E)%contains_spec. by destruct (Hmid a [] b (not_elem_of_nil _) E) as [[] _].
    + intros [t E]%startswith_spec. destruct (Hhead (lit ".") t) as [_ []]; [|done..].
      by intros [=]%list_elem_of_singleton.
    + intros (a & b & E)%contains_spec. destruct (Hmid a (lit ".") b) as [_ []]; [|done..].
      by intros [=]%list_elem_of_singleton.
  - intros [t E]. destruct (Hpart []) as [[] _]; [|done]. rewrite E, split_on_app. apply elem_of_app. right. by left.
Qed.

Section proofs.
Context {host : PyHost} (format_char : N -> bool).

(** A member is stored under the canonical name [c]; a directory may end in a slash. *)
Record proper_name (m : member) (c : pystr) : Prop := {
  pn_name : m_name m = c \/ (m_kind m = Directory /\ m_name m = c ++ [47%N]);
  pn_parts : exists rest, c = join (lit "/") (lit "build" :: rest) /\ Forall proper_part (lit "build" :: rest) /\
    Z.of_nat (length (lit "build" :: rest)) <= DEFAULT_MAX_DEPTH;
  pn_chars : forall x, x ∈ m_name m -> unsafe_char format_char x = false /\ x <> 92%N;
  pn_bytes : exists b, encode (m_name m) = Ok b /\ Z.of_nat (length b) <= DEFAULT_MAX_PATH_BYTES;
}.

Lemma components_fit parts fits : mapM component_fits parts = Ok fits -> forallb id fits = true ->
  Forall (fun part => exists b, encode part = Ok b /\ Z.of_nat (length b) <= DEFAULT_MAX_COMPONENT_BYTES) parts.
Proof.
  intros H%mapM_ok Hf. induction H as [|part x parts fits Hp H IH]; [constructor|]. cbn in Hf. apply andb_true_iff in Hf as [Hx Hf].
  constructor; [|by apply IH]. unfold component_fits in Hp. apply bind_ok in Hp as (b & Hb & [= <-]). exists b. split; [done|]. cbn in Hx. lia.
Qed.
Lemma all_fit parts : Forall (fun part => exists b, encode part = Ok b /\ Z.of_nat (length b) <= DEFAULT_MAX_COMPONENT_BYTES) parts ->
  exists fits, mapM component_fits parts = Ok fits /\ forallb id fits = true.
Proof.
  induction 1 as [|part parts (b & Hb & Hl) _ (fits & Hm & Hf)]; [by exists []|]. exists (true :: fits). split; [|done].
  apply mapM_ok. constructor; [|by apply mapM_ok]. unfold component_fits. rewrite Hb. cbn. f_equal. lia.
Qed.
Lemma stripped_name m : m_name m = stripped m \/ (m_kind m = Directory /\ m_name m = stripped m ++ [47%N]).
Proof.
  unfold stripped, isdir. destruct (m_kind m) eqn:Hd; [by left| |by left].
  destruct (endswith "/" (m_name m)) eqn:E; [|by left]. right. split; [done|].
  apply endswith_slash in E as [t ->]. rewrite length_app. cbn. by rewrite take_app_le, firstn_all2 by lia.
Qed.
Lemma stripped_canonical m c : ~ (exists t, c = t ++ [47%N]) ->
  m_name m = c \/ (m_kind m = Directory /\ m_name m = c ++ [47%N]) -> stripped m = c.
Proof.
  intros Hc. unfold stripped, isdir. intros [<-|[Hd ->]].
  - destruct (endswith "/" (m_name m)) eqn:E; [by apply endswith_slash in E|]. by rewrite andb_false_r.
  - rewrite Hd, (proj2 (endswith_slash _)) by eauto. cbn [andb].
    rewrite length_app. cbn. by rewrite take_app_le, firstn_all2 by lia.
Qed.
Lemma safe_name name : contains [92%N] name || existsb (unsafe_char format_char) name = false <->
  forall x, x ∈ name -> unsafe_char format_char x = false /\ x <> 92%N.
Proof.
  rewrite orb_false_iff. split.
  - intros [Hb He] x Hx. split.
    + apply not_true_iff_false. intros Hu. apply not_true_iff_false in He. apply He. apply existsb_exists. exists x.
      by rewrite <-list_elem_of_In.
    + intros ->. apply not_true_iff_false in Hb. apply Hb. apply contains_spec.
      apply list_elem_of_split in Hx as (a & b & ->). by exists a, b.
  - intros H. split; apply not_true_iff_false.
    + intros (a & b & ->)%contains_spec. destruct (H 92%N) as [_ []]; [|done]. rewrite !elem_of_app. right. left. by left.
    + intros (x & Hx%list_elem_of_In & Hu)%existsb_exists. destruct (H x Hx) as [Hf _]. congruence.
Qed.
Lemma parts_no_slash s part : part ∈ pure_parts s -> 47%N ∉ part.
Proof. unfold pure_parts. rewrite list_elem_of_In, filter_In, <-list_elem_of_In. intros [H _]. by eapply split_on_no_sep. Qed.

Lemma canonical_sound m c : canonical_member_name format_char m = Ok c -> proper_name m c.
Proof.
  unfold canonical_member_name. intros [Hne H]%refuse_if_ok. apply refuse_if_ok in H as [Hsafe H].
  apply bind_ok in H as (pb & Hpb & H). apply refuse_if_ok in H as [Hlen H]. apply refuse_if_ok in H as [_ H].
  apply refuse_if_ok in H as [_ H]. apply refuse_if_ok in H as [Hcan H]. apply refuse_if_ok in H as [Hbuild H].
  apply refuse_if_ok in H as [Hdepth H]. apply refuse_if_ok in H as [Hdots H]. apply bind_ok in H as (fits & Hfits & H).
  apply refuse_if_ok in H as [Hfit [= <-]]. apply negb_false_iff in Hcan, Hbuild, Hfit. apply str_eqb_eq in Hcan.
  rewrite Hcan. pose proof (components_fit _ _ Hfits Hfit) as Hbytes. pose proof (parts_no_slash (stripped m)) as Hslash.
  destruct (pure_parts (stripped m)) as [|part rest] eqn:E; [done|]. apply str_eqb_eq in Hbuild as ->.
  split; [apply stripped_name| |by apply safe_name|exists pb; split; [done|lia]].
  exists rest. split; [by rewrite <-Hcan|]. split; [|lia]. apply Forall_forall. intros part Hpart.
  rewrite Forall_forall in Hbytes. destruct (Hbytes part Hpart) as (b & Hb & Hl).
  assert (str_in part [[]; lit "."; lit ".."] = false) as Hd.
  { apply not_true_iff_false. intros Hd. apply not_true_iff_false in Hdots. apply Hdots. apply existsb_exists.
    exists part. by rewrite <-list_elem_of_In. }
  apply str_in_not in Hd. rewrite !not_elem_of_cons in Hd. destruct Hd as (H1 & H2 & H3 & _).
  split_and!; [done..|by apply Hslash|by exists b].
Qed.
Lemma canonical_complete m c : proper_name m c -> canonical_member_name format_char m = Ok c.
Proof.
  intros [Hn (rest & Hc & Hp & Hd) Hchars (pb & Hpb & Hl)]. set (parts := lit "build" :: rest) in *.
  destruct (proper_canonical parts) as (H1 & H2 & H3); [done..|]. rewrite <-Hc in H1, H2, H3.
  pose proof (stripped_canonical m c H3 Hn) as Hs. assert (pure_parts c = parts) as Hpure by (rewrite Hc; by apply proper_pure).
  unfold canonical_member_name. apply refuse_if_ok. split.
  { apply str_eqb_neq. intros E. rewrite E in Hn. apply orb_false_iff in H1 as [H1 _]. apply str_eqb_neq in H1.
    destruct Hn as [<-|[_ Hn]]; [done|]. by destruct c. }
  apply refuse_if_ok. split; [by apply safe_name|]. apply bind_ok. exists pb. split; [done|]. apply refuse_if_ok. split; [lia|].
  rewrite Hs, Hpure. apply refuse_if_ok. split; [done|]. apply refuse_if_ok. split; [done|].
  assert (path_str (Path false parts) = c) as -> by done. rewrite str_eqb_refl.
  apply refuse_if_ok. split; [done|]. apply refuse_if_ok. split; [done|]. apply refuse_if_ok. split; [lia|].
  apply refuse_if_ok. split.
  { apply not_true_iff_false. intros (part & Hpart%list_elem_of_In & Hin%str_in_elem)%existsb_exists.
    rewrite Forall_forall in Hp. destruct (Hp part Hpart) as (? & ? & ? & _).
    rewrite !elem_of_cons in Hin. naive_solver by by eapply not_elem_of_nil. }
  destruct (all_fit parts) as (fits & Hm & Hf).
  { eapply Forall_impl; [exact Hp|]. by intros part (_ & _ & _ & _ & ?). }
  apply bind_ok. exists fits. split; [done|]. by rewrite Hf.
Qed.
Lemma canonical_exact m c : canonical_member_name format_char m = Ok c <-> proper_name m c.
Proof. split; [apply canonical_sound|apply canonical_complete]. Qed.
End proofs.

(** ** Proofs: the archive *)

Definition weight (m : member) : Z := if isreg m then m_size m else 0.
Fixpoint total (ms : list member) : Z := match ms with [] => 0 | m :: ms' => weight m + total ms' end.
Fixpoint largest (ms : list member) : Z := match ms with [] => 0 | m :: ms' => Z.max (weight m) (largest ms') end.

Section archives.
Context {host : PyHost} (format_char : N -> bool).

(** A member that is admitted under the name [c]. *)
Record proper_member (lim : limits) (m : member) (c : pystr) : Prop := {
  pm_name : proper_name format_char m c;
  pm_pax : forall k, k ∈ dkeys (m_pax m) -> k = lit "mtime";
  pm_mtime : forall t, dget (m_pax m) "mtime" = Some t -> (length t <= 64)%nat /\ pax_time t = true;
  pm_mode : Z.land (m_mode m) 3602 = 0;
  pm_kind : (m_kind m = Directory /\ m_size m = 0) \/ (m_kind m = Regular /\ 0 <= m_size m <= max_file_bytes lim);
}.
Definition advance (s : scan) (m : member) (c : pystr) : scan :=
  Scan (sc_seen s ++ [c]) (if isreg m then sc_regular s ++ [c] else sc_regular s) (sc_expanded s + weight m)
    (Z.max (sc_largest s) (weight m)) (sc_count s + 1).
Definition fits (lim : limits) (s : scan) : Prop :=
  sc_expanded s <= max_expanded_bytes lim /\ sc_count s <= max_members lim /\ 0 <= sc_largest s.

Lemma kind_cases m : (m_kind m = Directory /\ isdir m = true /\ isreg m = false) \/
  (m_kind m = Regular /\ isdir m = false /\ isreg m = true) \/ (m_kind m = Special /\ isdir m = false /\ isreg m = false).
Proof. unfold isdir, isreg. destruct (m_kind m); naive_solver. Qed.
Lemma weight_nonneg lim m c : proper_member lim m c -> 0 <= weight m.
Proof.
  intros [_ _ _ _ Hk]. unfold weight, isreg. destruct Hk as [[-> _]|[-> ?]]; cbn; lia.
Qed.
Lemma unsupported_nil (d : dict pystr) :
  negb (length (List.filter (fun k => negb (str_in k ALLOWED_MEMBER_PAX_HEADERS)) (dkeys d)) =? 0)%nat = false <->
  forall k, k ∈ dkeys d -> k = lit "mtime".
Proof.
  rewrite negb_false_iff, Nat.eqb_eq, length_zero_iff_nil. split.
  - intros H k Hk. destruct (str_in k ALLOWED_MEMBER_PAX_HEADERS) eqn:E.
    + apply str_in_elem in E. by apply list_elem_of_singleton in E.
    + assert (k ∈ @nil pystr) as []%not_elem_of_nil. rewrite <-H. apply list_elem_of_In, filter_In. rewrite E. split; [|done].
      by apply list_elem_of_In.
  - intros H. destruct (List.filter _ _) as [|k l] eqn:E; [done|].
    assert (k ∈ k :: l) as Hk by (by left). rewrite <-E in Hk. apply list_elem_of_In, filter_In in Hk as [Hk Hn].
    apply list_elem_of_In in Hk. rewrite (H k Hk) in Hn. by vm_compute in Hn.
Qed.
Lemma mtime_ok (o : option pystr) :
  match o with Some t => (64 <? length t)%nat || negb (pax_time t) | None => false end = false <->
  forall t, o = Some t -> (length t <= 64)%nat /\ pax_time t = true.
Proof.
  destruct o as [t|]; [|naive_solver]. rewrite orb_false_iff, negb_false_iff, Nat.ltb_ge. naive_solver.
Qed.

Lemma check_member_exact lim s m s' : fits lim s ->
  check_member format_char lim s m = Ok s' <->
  exists c, proper_member lim m c /\ (c ∉ sc_seen s) /\ s' = advance s m c /\ fits lim s'.
Proof.
  intros (He & Hc & Hl). unfold check_member. rewrite refuse_if_ok. split.
  - intros [Hcount H]. apply bind_ok in H as (c & Hn%canonical_exact & H). apply refuse_if_ok in H as [Hpax H].
    apply refuse_if_ok in H as [Ht H]. apply refuse_if_ok in H as [Hseen%str_in_not H]. apply refuse_if_ok in H as [Hkind H].
    apply refuse_if_ok in H as [Hmode H]. apply refuse_if_ok in H as [Hdir H]. exists c.
    pose proof (proj1 (unsupported_nil _) Hpax) as Hkeys. pose proof (proj1 (mtime_ok _) Ht) as Hmt.
    unfold advance, fits, weight. destruct (kind_cases m) as [(Hk & Hd & Hr)|[(Hk & Hd & Hr)|(Hk & Hd & Hr)]]; rewrite Hd, Hr in *; clear Hpax Ht;
      [|apply refuse_if_ok in H as [H1 H]; apply refuse_if_ok in H as [H2 H]; apply refuse_if_ok in H as [H3 H]|done];
      cbn [andb] in Hdir; injection H as <-; cbn [sc_expanded sc_count sc_largest].
    + split_and!; [split; try done; [lia|left; split; [done|lia]]|done|f_equal; lia|lia..].
    + split_and!; [split; try done; [lia|right; split; [done|lia]]|done|f_equal; lia|lia..].
  - intros (c & [Hn Hpax Ht Hmode Hkind] & Hseen & -> & He' & Hc' & _). cbn [advance sc_expanded sc_count] in He', Hc'.
    split; [lia|]. apply bind_ok. exists c. split; [by apply canonical_exact|]. apply refuse_if_ok. split; [by apply unsupported_nil|].
    apply refuse_if_ok. split; [by apply mtime_ok|]. apply refuse_if_ok. split; [by apply str_in_not|].
    unfold advance, weight, isdir, isreg in *. destruct Hkind as [[Hk Hz]|[Hk Hz]]; rewrite Hk in *; cbn in *;
      rewrite ?Hmode, ?Hz; cbn; [do 2 f_equal; lia|].
    repeat (apply refuse_if_ok; split; [lia|]). done.
Qed.

Fixpoint advanced (s : scan) (ms : list member) (names : list pystr) : scan :=
  match ms, names with m :: ms', c :: names' => advanced (advance s m c) ms' names' | _, _ => s end.
Lemma advanced_fits lim ms names s : Forall2 (proper_member lim) ms names -> fits lim (advanced s ms names) ->
  0 <= sc_largest s -> fits lim s.
Proof.
  intros H. revert s. induction H as [|m c ms names Hm H IH]; intros s; cbn [advanced]; [done|]. intros Hf Hl.
  pose proof (weight_nonneg _ _ _ Hm). apply IH in Hf as (He & Hc & _); cbn [advance sc_expanded sc_count sc_largest] in *; [|lia].
  unfold fits. lia.
Qed.
Lemma scan_exact lim ms s s' : fits lim s ->
  foldM (check_member format_char lim) s ms = Ok s' <->
  exists names, Forall2 (proper_member lim) ms names /\ NoDup names /\ (forall c, c ∈ names -> (c ∉ sc_seen s)) /\
    s' = advanced s ms names /\ fits lim s'.
Proof.
  revert s. induction ms as [|m ms IH]; intros s Hs; cbn [foldM].
  - split; [intros [= <-]; exists []; split_and!; try done; [constructor|by intros c ?%not_elem_of_nil]|].
    intros (names & Hn & _ & _ & -> & _). by inversion Hn.
  - rewrite bind_ok. split.
    + intros (s1 & (c & Hm & Hc & -> & Hf)%check_member_exact & H); [|done]. apply IH in H as (names & Hall & Hnd & Hout & -> & Hf'); [|done].
      exists (c :: names). split_and!; [by constructor| |..|done|done].
      * constructor; [|done]. intros Hin. apply (Hout c Hin). cbn. apply elem_of_app. right. by left.
      * intros x [->|Hx]%elem_of_cons; [done|]. intros Hin. apply (Hout x Hx). cbn. apply elem_of_app. by left.
    + intros (names & Hall & Hnd & Hout & -> & Hf). inversion Hall as [|? c ? names' Hm Hall' E1 E2]; subst. cbn [advanced] in *.
      assert (fits lim (advance s m c)) as Hf1.
      { eapply advanced_fits; [done..|]. cbn. destruct Hs as (_ & _ & ?). pose proof (weight_nonneg _ _ _ Hm). lia. }
      exists (advance s m c). split.
      * apply check_member_exact; [done|]. exists c. split_and!; [done|apply Hout; by left|done|done].
      * apply IH; [done|]. inversion Hnd; subst. exists names'. split_and!; try done. intros x Hx. cbn.
        intros [Hin| ->%list_elem_of_singleton]%elem_of_app; [|done]. by apply (Hout x); [right|].
Qed.

Lemma advanced_fields ms names s : length ms = length names ->
  sc_expanded (advanced s ms names) = sc_expanded s + total ms /\
  sc_count (advanced s ms names) = sc_count s + Z.of_nat (length ms) /\
  (0 <= sc_largest s -> sc_largest (advanced s ms names) = Z.max (sc_largest s) (largest ms)) /\
  (forall f, f ∈ sc_regular (advanced s ms names) <->
     f ∈ sc_regular s \/ exists m, (m, f) ∈ zip ms names /\ m_kind m = Regular).
Proof.
  revert names s. induction ms as [|m ms IH]; intros [|c names] s; cbn [advanced length total largest zip zip_with]; try done.
  - intros _. split_and!; try lia. intros f. split; [by left|]. by intros [?|(m & ?%not_elem_of_nil & _)].
  - intros [= Hl]. destruct (IH names (advance s m c) Hl) as (H1 & H2 & H3 & H4). rewrite H1, H2. cbn [advance sc_expanded sc_count sc_largest sc_regular] in *.
    split_and!; [lia|lia|intros; rewrite H3; lia|]. intros f. rewrite H4. unfold isreg.
    destruct (m_kind m) eqn:Hr.
    1: { rewrite elem_of_app, list_elem_of_singleton. split.
      * intros [[?| ->]|(x & Hx & ?)]; [by left|right; exists m; split; [by left|done]|right; exists x; split; [by right|done]].
      * intros [?|(x & [[= -> ->]|Hx]%elem_of_cons & ?)]; [by left; left|by left; right|right; by exists x]. }
    all: split; [intros [?|(x & Hx & ?)]; [by left|right; exists x; split; [by right|done]]|].
    all: intros [?|(x & [[= -> ->]|Hx]%elem_of_cons & ?)]; [by left|congruence|right; by exists x].
Qed.

(** What an archive that is admitted is, and its summary. *)
Record admitted (lim : limits) (a : archive) (s : ArchiveSummary) : Prop := {
  ad_limits : 0 < max_compressed_bytes lim /\ 0 < max_expanded_bytes lim /\ 0 < max_file_bytes lim /\ 0 < max_members lim;
  ad_file : a_symlink a = false /\ a_is_file a = true;
  ad_size : a_stat a = Ok (compressed_bytes s) /\ 0 < compressed_bytes s <= max_compressed_bytes lim;
  ad_read : a_global a = Ok [] /\ a_end a = None;
  ad_members : exists names, Forall2 (proper_member lim) (a_members a) names /\ NoDup names /\
    forall f, f ∈ REQUIRED_REGULAR_FILES -> exists m, (m, f) ∈ zip (a_members a) names /\ m_kind m = Regular;
  ad_count : member_count s = Z.of_nat (length (a_members a)) /\ member_count s <= max_members lim;
  ad_expanded : expanded_bytes s = total (a_members a) /\ expanded_bytes s <= max_expanded_bytes lim;
  ad_largest : largest_file_bytes s = largest (a_members a);
  ad_name : schema_version s = 2 /\ archive_name s = a_path a;
}.

Lemma check_positive_ok l u : check_positive l = Ok u <-> Forall (fun p => 0 < snd p) l.
Proof.
  induction l as [|[name v] l IH]; cbn [check_positive]; [destruct u; by split|]. rewrite Forall_cons. cbn [snd].
  destruct (Z.leb_spec v 0); [split; [done|lia]|]. rewrite IH. naive_solver lia.
Qed.
Lemma read_members_ok a lim s : 0 < max_expanded_bytes lim -> 0 < max_members lim ->
  read_members format_char a lim = Ok s <->
  a_global a = Ok [] /\ a_end a = None /\ exists names, Forall2 (proper_member lim) (a_members a) names /\ NoDup names /\
    s = advanced scan_start (a_members a) names /\ fits lim s.
Proof.
  intros H1 H2. assert (fits lim scan_start) as Hs by (unfold fits; cbn; lia). unfold read_members. split.
  - intros (g & Hg & H)%bind_ok. apply refuse_if_ok in H as [Hl H]. apply bind_ok in H as (s1 & H & Hend).
    destruct (a_end a) eqn:Ee; [done|]. injection Hend as ->. apply scan_exact in H as (names & ? & ? & _ & ? & ?); [|done].
    split; [by destruct g|]. split; [done|]. by exists names.
  - intros (Hg & He & names & Ha & Hn & -> & Hf). rewrite Hg, He. cbn [mbind result_bind length negb Nat.eqb refuse_if].
    rewrite (proj2 (scan_exact lim (a_members a) scan_start (advanced scan_start (a_members a) names) Hs)); [done|]. exists names. split_and!; try done.
    by intros c _ ?%not_elem_of_nil.
Qed.
Lemma required_ok regular :
  negb (length (List.filter (fun f => negb (str_in f regular)) REQUIRED_REGULAR_FILES) =? 0)%nat = false <->
  forall f, f ∈ REQUIRED_REGULAR_FILES -> f ∈ regular.
Proof.
  rewrite negb_false_iff, Nat.eqb_eq, length_zero_iff_nil. split.
  - intros H f Hf. apply str_in_elem. apply not_false_iff_true. intros E.
    assert (f ∈ @nil pystr) as []%not_elem_of_nil. rewrite <-H. apply list_elem_of_In, filter_In. rewrite E.
    split; [by apply list_elem_of_In|done].
  - intros H. destruct (List.filter _ _) as [|k l] eqn:E; [done|].
    assert (k ∈ k :: l) as Hk by (by left). rewrite <-E in Hk. apply list_elem_of_In, filter_In in Hk as [Hk Hn].
    apply list_elem_of_In, H, str_in_elem in Hk. by rewrite Hk in Hn.
Qed.

Lemma validate_exact a lim s : validate_archive format_char a lim = Ok s <-> admitted lim a s.
Proof.
  unfold validate_archive. split.
  - intros (u & Hp%check_positive_ok & H)%bind_ok. rewrite !Forall_cons in Hp. cbn [snd] in Hp. destruct Hp as (P1 & P2 & P3 & P4 & _).
    apply refuse_if_ok in H as [[Hsym Hfile]%orb_false_iff H]. apply bind_ok in H as (size & Hsize & H).
    apply refuse_if_ok in H as [Hs1 H]. apply refuse_if_ok in H as [Hs2 H]. apply bind_ok in H as (sc & Hsc & H).
    assert (read_members format_char a lim = Ok sc) as Hread.
    { destruct (read_members _ a lim) as [x|e]; [done|]. by destruct (existsb _ _). }
    apply read_members_ok in Hread as (Hg & He & names & Ha & Hn & -> & Hf); [|done..].
    apply refuse_if_ok in H as [_ H]. apply refuse_if_ok in H as [Hreq [= <-]].
    destruct (advanced_fields (a_members a) names scan_start) as (F1 & F2 & F3 & F4); [by eapply Forall2_length|].
    rewrite F1, F2, F3 by done. destruct Hf as (B1 & B2 & _). rewrite F1 in B1. rewrite F2 in B2. cbn in B1, B2.
    pose proof (proj1 (required_ok _) Hreq) as Hr. apply negb_false_iff in Hfile.
    split; cbn [compressed_bytes member_count expanded_bytes largest_file_bytes archive_name scan_start sc_expanded sc_count sc_largest]; try done; try lia.
    + split; [done|lia].
    + exists names. split_and!; try done. intros f Hin%Hr%F4. destruct Hin as [?%not_elem_of_nil|?]; done.
    + assert (0 <= largest (a_members a)) by (destruct (a_members a); cbn; [done|]; clear; induction l; cbn; lia). lia.
  - intros [(P1 & P2 & P3 & P4) [Hsym Hfile] [Hsize Hs] [Hg He] (names & Ha & Hn & Hreq) [C1 C2] [E1 E2] Hlarge [Hv Hname]].
    apply bind_ok. exists tt. split; [by apply check_positive_ok; repeat constructor|]. rewrite Hsym, Hfile, Hsize.
    cbn [orb negb refuse_if mbind result_bind]. apply refuse_if_ok. split; [lia|]. apply refuse_if_ok. split; [lia|].
    destruct (advanced_fields (a_members a) names scan_start) as (F1 & F2 & F3 & F4); [by eapply Forall2_length|].
    cbn [scan_start sc_expanded sc_count sc_largest] in F1, F2, F3.
    assert (0 <= largest (a_members a)) as Hl by (destruct (a_members a); cbn; [done|]; clear; induction l; cbn; lia).
    rewrite (proj2 (read_members_ok a lim (advanced scan_start (a_members a) names) P2 P4)).
    2:{ split_and!; try done. exists names. split_and!; try done. unfold fits. rewrite F1, F2, F3 by done. lia. }
    assert (forall f, f ∈ REQUIRED_REGULAR_FILES -> f ∈ sc_regular (advanced scan_start (a_members a) names)) as Hr.
    { intros f Hf. apply F4. right. by apply Hreq. }
    cbn [mbind result_bind]. apply refuse_if_ok. split.
    { apply Z.eqb_neq. destruct (Hreq (lit "build/index.html")) as (m & Hm & _); [right; by left|].
      rewrite F2. destruct (a_members a); [by apply not_elem_of_nil in Hm|]. cbn [length]. lia. }
    apply refuse_if_ok. split; [by apply required_ok|]. rewrite F1, F2, F3 by done. destruct s; cbn in *. f_equal. subst. f_equal; lia.
Qed.

(** C35: an archive is admitted, with this summary, exactly when it is a regular file of a size within
    the limit whose members, all read, are regular files and directories with distinct canonical names
    of safe characters below [build], without special or shared write permissions and with no header
    but a time, within the limits of size and number, the two required files among them; and the
    summary counts them. *)
Theorem archive_admitted_exactly a lim s : validate_archive format_char a lim = Ok s <-> admitted lim a s.
Proof. apply validate_exact. Qed.

(** The place a member goes to when it is extracted into the directory [d]: the path walked part by
    part, where no part is a link. *)
Definition walk_part (d : dir) (part : pystr) : dir :=
  if str_eqb part [] || str_eqb part "." then d else if str_eqb part ".." then removelast d else d ++ [part].
Definition extracted (d : dir) (name : pystr) : dir :=
  foldl walk_part (if startswith "/" name then [] else d) (split_on 47 name).

Lemma walk_proper parts d : Forall proper_part parts -> foldl walk_part d parts = d ++ parts.
Proof.
  intros H. revert d. induction H as [|part parts (H1 & H2 & H3 & _) _ IH]; intros d; cbn [foldl]; [by rewrite app_nil_r|].
  rewrite IH. unfold walk_part. rewrite (proj2 (str_eqb_neq _ _) H1), (proj2 (str_eqb_neq _ _) H2), (proj2 (str_eqb_neq _ _) H3).
  cbn. by rewrite <-app_assoc.
Qed.
Lemma extracted_proper m c rest d : proper_name format_char m c ->
  c = join (lit "/") (lit "build" :: rest) -> Forall proper_part (lit "build" :: rest) ->
  extracted d (m_name m) = d ++ lit "build" :: rest.
Proof.
  intros Hm Hc Hp. destruct (proper_canonical (lit "build" :: rest)) as (H1 & _ & _); [done..|]. rewrite <-Hc in H1.
  apply orb_false_iff in H1 as [Hne Hs]. unfold extracted. destruct (pn_name _ _ _ Hm) as [->|[_ ->]].
  - rewrite Hs, Hc, proper_split by done. by apply walk_proper.
  - assert (startswith "/" (c ++ [47%N]) = false) as ->.
    { apply str_eqb_neq in Hne. by destruct c. }
    rewrite split_on_app, Hc, proper_split by done. cbn [split_on]. rewrite foldl_app, (walk_proper (lit "build" :: rest)) by done. reflexivity.
Qed.

(** C36: an archive that is admitted stays where it belongs: into whatever directory it is extracted,
    every member goes to a place below [build] in it, no two members to the same place, and every
    member is a regular file or a directory that no group or other may write and that carries no
    special bit. *)
Theorem archive_confined a lim s d : validate_archive format_char a lim = Ok s ->
  (exists places, Forall2 (fun m place => extracted d (m_name m) = d ++ lit "build" :: place) (a_members a) places /\
    NoDup places) /\
  forall m, m ∈ a_members a -> (m_kind m = Regular \/ m_kind m = Directory) /\ Z.land (m_mode m) 3602 = 0.
Proof.
  intros H%validate_exact. destruct (ad_members _ _ _ H) as (names & Ha & Hn & _). clear H. split.
  - assert (exists places, Forall2 (fun m place => extracted d (m_name m) = d ++ lit "build" :: place) (a_members a) places /\
      names = (fun place => join (lit "/") (lit "build" :: place)) <$> places) as (places & Hp & ->).
    + clear Hn. induction Ha as [|m c ms names [Hm _ _ _ _] _ (places & Hp & ->)]; [by exists []|].
      destruct (pn_parts _ _ _ Hm) as (rest & Hc & Hparts & _). exists (rest :: places). split; [|by rewrite Hc].
      constructor; [by eapply extracted_proper|done].
    + exists places. split; [done|]. by eapply NoDup_fmap_1.
  - intros m (i & Hi)%list_elem_of_lookup. destruct (Forall2_lookup_l _ _ _ _ _ Ha Hi) as (c & _ & [_ _ _ Hmode Hk]).
    split; [|done]. destruct Hk as [[? _]|[? _]]; auto.
Qed.
End archives.

(** ** A run *)

Module Examples.
#[local] Existing Instance ascii_host.
Definition no_format (c : N) : bool := (c =? 173)%N.
Definition a_file (name : string) (size : Z) : member := Member (lit name) Regular 420 size [(lit "mtime", lit "1700000000.25")].
Definition a_directory (name : string) : member := Member (lit name) Directory 493 0 [].
Definition an_archive (more : list member) (ending : option exn) : archive :=
  Archive (lit "web.tar.gz") false true (Ok 900) (Ok [])
    ([a_directory "build/"; a_file "build/index.html" 300; a_directory "build/_app/"; a_file "build/_app/version.json" 20] ++ more) ending.
Definition validated (more : list member) : result exn ArchiveSummary :=
  validate_archive no_format (an_archive more None) default_limits.

Example runs : validated [] = Ok (Summary 2 (lit "web.tar.gz") 900 320 4 300).
Proof. vm_compute. reflexivity. Qed.
Example refused :
  map (fun m => match validated [m] with Ok _ => lit "admitted" | Err e => exn_msg e end)
    [a_file "build/../x" 1; a_file "/build/x" 1; a_file "build//x" 1; a_file "build/index.html/" 1; a_file "build/index.html" 1;
     Member (lit "build/x") Special 420 0 []; Member (lit "build/x") Regular 2541 1 []; a_file "build/x" 67108865]
  = [lit "unsafe archive path: build/../x"; lit "unexpected archive path: /build/x"; lit "non-canonical archive path: build//x";
     lit "non-canonical archive path: build/index.html/"; lit "duplicate archive path: build/index.html";
     lit "unsupported archive member type: build/x"; lit "elevated or writable permission bits in archive: build/x";
     lit "archive member exceeds per-file limit: build/x"].
Proof. vm_compute. reflexivity. Qed.
(** A file and a member below it are both admitted: the members need not form a tree. *)
Example file_as_parent : is_ok (validated [a_file "build/a" 1; a_file "build/a/b" 1]) = true.
Proof. vm_compute. reflexivity. Qed.
(** An exception of the reader that is neither a [TarError] nor an [OSError] leaves [main] too. *)
Example truncated_escapes :
  main no_format (an_archive [] (Some (Exn (Sub "EOFError" Exception) "Compressed file ended before the end-of-stream marker was reached")))
    default_limits = Err (Exn (Sub "EOFError" Exception) "Compressed file ended before the end-of-stream marker was reached").
Proof. vm_compute. reflexivity. Qed.

Lemma archive_admitted_exactly_witness : exists s, admitted no_format default_limits (an_archive [] None) s.
Proof.
  exists (Summary 2 (lit "web.tar.gz") 900 320 4 300).
  apply (archive_admitted_exactly no_format (an_archive [] None) default_limits). vm_compute. reflexivity.
Defined.
Lemma archive_confined_witness :
  (exists places, Forall2 (fun m place => extracted [lit "srv"] (m_name m) = [lit "srv"; lit "build"] ++ place)
      (a_members (an_archive [] None)) places /\ NoDup places) /\
  forall m, m ∈ a_members (an_archive [] None) ->
    (m_kind m = Regular \/ m_kind m = Directory) /\ Z.land (m_mode m) 3602 = 0.
Proof.
  apply (archive_confined no_format (an_archive [] None) default_limits (Summary 2 (lit "web.tar.gz") 900 320 4 300) [lit "srv"]).
  vm_compute. reflexivity.
Defined.
End Examples.
