(* ===== verification/SearchCore.v ===== *)
(** * The hybrid ranking core of the semantic search

    [src/scripts/search/hybrid_ranking_core.py], function by function: the validated values
    (model and generation identities, documents, queries, bound vectors), the lexical signals,
    the hybrid ranking, and the entry point that embeds through a provider.  The provider is
    outside the repository: [Provider] is its interface, an effectful computation that may return
    anything or raise.  Arguments that Python does not check are typed; those the code checks
    itself are [json]. *)

From S2P Require Import Prelude PyStr Json Sha256 PyFloat PyRegex.
From Stdlib Require Import SpecFloat.

(** ** Constants *)

Definition NORMALIZATION_REVISION : pystr := "weltgewebe-search-normalization-v1".
Definition RANKING_REVISION : pystr := "weltgewebe-hybrid-ranking-v2".
Definition MAX_DIMENSIONS : Z := 8192.
Definition MAX_CANDIDATES : Z := 1000.
Definition MAX_TEXT_CHARACTERS : Z := 65536.
(** The doubles nearest to 0.55, 0.015 and 0.30. *)
Definition SEMANTIC_MINIMUM_COSINE : float := S754_finite false 4953959590107546 (-53).
Definition SEMANTIC_MINIMUM_MARGIN : float := S754_finite false 8646911284551352 (-59).
Definition TYPO_MINIMUM : float := S754_finite false 5404319552844595 (-54).
Definition SEMANTIC_APPEND_LIMIT : nat := 1.

Definition RANK_EXACT_TITLE : Z := 0.
Definition RANK_EXACT_TAG : Z := 1.
Definition RANK_TITLE_PREFIX : Z := 2.
Definition RANK_TYPO : Z := 3.
Definition RANK_FULL_TEXT : Z := 4.

Definition STOP_WORDS : list pystr := lit <$>
  ["aber"; "als"; "am"; "an"; "auch"; "auf"; "aus"; "bei"; "bin"; "bis"; "das"; "dass"; "dem"; "den";
   "der"; "des"; "die"; "ein"; "eine"; "einem"; "einen"; "einer"; "es"; "etwas"; "für"; "gegen";
   "gemeinsam"; "hat"; "ich"; "im"; "in"; "ist"; "kann"; "man"; "mein"; "meine"; "mit"; "möchte";
   "nach"; "nicht"; "nur"; "oder"; "ohne"; "sich"; "sie"; "soll"; "um"; "und"; "von"; "vor"; "was";
   "wenn"; "wer"; "wie"; "will"; "wir"; "wo"; "zu"; "zum"; "zur"]%string.

Definition SearchCoreError : exc_class := Sub "SearchCoreError" ValueError.
Definition ProviderBoundaryError : exc_class := Sub "ProviderBoundaryError" SearchCoreError.
Definition ProviderUnavailableError : exc_class := Sub "ProviderUnavailableError" SearchCoreError.
Definition VectorValidationError : exc_class := Sub "VectorValidationError" SearchCoreError.
Definition GenerationMismatchError : exc_class := Sub "GenerationMismatchError" SearchCoreError.
Definition PrivacyBoundaryError : exc_class := Sub "PrivacyBoundaryError" SearchCoreError.

(** ** Text *)

Section search.
Context `{PyHost}.

(** [[a-z]] under [(?i)]: besides the two cases, what lowers to a letter of the class. *)
Definition letter_any_case (c : N) : bool :=
  (ascii_lower_p (ascii_tolower c) || (c =? 304) || (c =? 305) || (c =? 383) || (c =? 8490))%N.
Definition label_char (c : N) : bool := letter_any_case c || ascii_digit c || (c =? 45)%N.
Definition local_char (c : N) : bool :=
  label_char c || existsb (N.eqb c) (lit ".!#$%&'*+/=?^_`{|}~").

(** [\b[a-z0-9.!#$%&'*+/=?^_`{|}~-]+@[a-z0-9-]+(?:\.[a-z0-9-]+)+\b] *)
Definition EMAIL_LIKE : regex :=
  Cat Edge (Cat (Some_of (One local_char)) (Cat (One (N.eqb 64)) (Cat (Some_of (One label_char))
    (Cat (Some_of (Cat (One (N.eqb 46)) (Some_of (One label_char)))) Edge)))).

Definition maybe (r : regex) : regex := Times 0 1 r.
Definition word_or_dash (c : N) : bool := is_word c || (c =? 45)%N.
(** [(?<![\w-])(?:\+49|0049|0[1-9]\d{1,4})(?:[ /-]?\d){6,14}(?![\w-])] *)
Definition PHONE_LIKE : regex :=
  Cat (Not_behind word_or_dash)
    (Cat (Or (Text "+49") (Or (Text "0049")
            (Cat (One (N.eqb 48)) (Cat (One (in_range 49 57)) (Times 1 4 (One is_digit))))))
      (Cat (Times 6 14 (Cat (maybe (One (fun c => existsb (N.eqb c) (lit " /-")))) (One is_digit)))
        (Not_ahead word_or_dash))).

(** [25[0-5]|2[0-4]\d|1?\d?\d] *)
Definition OCTET : regex :=
  Or (Cat (Text "25") (One (in_range 48 53)))
    (Or (Cat (Text "2") (Cat (One (in_range 48 52)) (One is_digit)))
      (Cat (maybe (One (N.eqb 49))) (Cat (maybe (One is_digit)) (One is_digit)))).
Definition digit_or_dot (c : N) : bool := is_digit c || (c =? 46)%N.
(** [(?<![\d.])OCTET(?:\.OCTET){3}(?![\d.])] *)
Definition IPV4_LIKE : regex :=
  Cat (Not_behind digit_or_dot)
    (Cat OCTET (Cat (Times 3 3 (Cat (One (N.eqb 46)) OCTET)) (Not_ahead digit_or_dot))).

(** [re.sub(r"[^\w]+", " ", s)] *)
Fixpoint blank_nonword (in_run : bool) (s : pystr) : pystr :=
  match s with
  | [] => []
  | c :: t =>
      if is_word c then c :: blank_nonword false t
      else if in_run then blank_nonword true t else 32%N :: blank_nonword true t
  end.

Definition normalize_text (text : pystr) : pystr :=
  join (lit " ") (split_ws (blank_nonword false (nfkc_casefold text))).
(** The same on a value that is not known to be a text. *)
Definition normalize_value (v : json) : result exn pystr :=
  match v with JStr s => Ok (normalize_text s) | _ => raise SearchCoreError "text must be a string" end.

Definition require_text (v : json) (label : pystr) (allow_empty : bool) : result exn pystr :=
  match v with
  | JStr s =>
      if negb allow_empty && (length (strip s) =? 0)%nat then
        raise SearchCoreError (label ++ lit " must not be empty")
      else if (MAX_TEXT_CHARACTERS <? Z.of_nat (length s))%Z then
        raise SearchCoreError
          (label ++ lit " exceeds " ++ show_Z MAX_TEXT_CHARACTERS ++ lit " characters")
      else Ok s
  | _ => raise SearchCoreError (label ++ lit " must be a string")
  end.

Definition reject_personal_data (texts : list pystr) (label : pystr) : result exn unit :=
  forM_ (fun text =>
    if search EMAIL_LIKE text then
      raise PrivacyBoundaryError (label ++ lit " contains an email-like value")
    else if search PHONE_LIKE text then
      raise PrivacyBoundaryError (label ++ lit " contains a phone-like value")
    else if search IPV4_LIKE text then
      raise PrivacyBoundaryError (label ++ lit " contains an IPv4-like value")
    else Ok tt) texts.

(** ** Identities *)

Record ModelIdentity : Type := {
  provider : pystr;
  model_id : pystr;
  model_revision : pystr;
  runtime_id : pystr;
  dimensions : Z;
}.
#[global] Instance ModelIdentity_eq_dec : EqDecision ModelIdentity.
Proof. solve_decision. Defined.

(** [ModelIdentity(...)] *)
Definition new_model (provider model_id model_revision runtime_id dimensions : json)
    : result exn ModelIdentity :=
  p ← require_text provider "provider" false;
  m ← require_text model_id "model_id" false;
  r ← require_text model_revision "model_revision" false;
  i ← require_text runtime_id "runtime_id" false;
  if negb (startswith "local:" p) then
    raise ProviderBoundaryError "embedding provider must use the local: namespace"
  else
    match dimensions with
    | JInt d =>
        if negb ((1 <=? d) && (d <=? MAX_DIMENSIONS))%Z then
          raise VectorValidationError
            (lit "embedding dimensions must be between 1 and " ++ show_Z MAX_DIMENSIONS)
        else Ok (Build_ModelIdentity p m r i d)
    | _ => raise VectorValidationError "embedding dimensions must be an integer"
    end.

Definition model_dict (m : ModelIdentity) : json :=
  JObj [(lit "provider", JStr (provider m)); (lit "model_id", JStr (model_id m));
        (lit "model_revision", JStr (model_revision m)); (lit "runtime_id", JStr (runtime_id m));
        (lit "dimensions", JInt (dimensions m))].

Record GenerationIdentity : Type := {
  generation_id : pystr;
  model : ModelIdentity;
  document_revision : pystr;
  normalization_revision : pystr;
  ranking_revision : pystr;
}.

Definition identity_payload (m : ModelIdentity) (document_revision : pystr) : json :=
  JObj [(lit "model", model_dict m); (lit "document_revision", JStr document_revision);
        (lit "normalization_revision", JStr NORMALIZATION_REVISION);
        (lit "ranking_revision", JStr RANKING_REVISION)].

Definition derive_id (m : ModelIdentity) (document_revision : json) : result exn pystr :=
  r ← require_text document_revision "document_revision" false;
  b ← encode (canonical_json (identity_payload m r));
  Ok (lit "search-gen-" ++ sha256_hex b).

(** [GenerationIdentity(...)] *)
Definition new_generation (gid : json) (m : ModelIdentity) (document_revision norm rank : json)
    : result exn GenerationIdentity :=
  r ← require_text document_revision "document_revision" false;
  if negb (py_eq norm (JStr NORMALIZATION_REVISION)) then
    raise GenerationMismatchError "normalization revision is not supported by this core"
  else if negb (py_eq rank (JStr RANKING_REVISION)) then
    raise GenerationMismatchError "ranking revision is not supported by this core"
  else
    expected ← derive_id m document_revision;
    if negb (py_eq gid (JStr expected)) then
      raise GenerationMismatchError "generation id does not match its immutable identity"
    else Ok (Build_GenerationIdentity expected m r NORMALIZATION_REVISION RANKING_REVISION).

(** [GenerationIdentity.build] *)
Definition build_generation (m : ModelIdentity) (document_revision : json)
    : result exn GenerationIdentity :=
  gid ← derive_id m document_revision;
  new_generation (JStr gid) m document_revision (JStr NORMALIZATION_REVISION) (JStr RANKING_REVISION).

Definition generation_dict (g : GenerationIdentity) : json :=
  JObj [(lit "generation_id", JStr (generation_id g)); (lit "model", model_dict (model g));
        (lit "document_revision", JStr (document_revision g));
        (lit "normalization_revision", JStr (normalization_revision g));
        (lit "ranking_revision", JStr (ranking_revision g))].

(** ** Documents and queries *)

(** A value given for [tags]: a tuple, or anything else. *)
Inductive tags_value : Type := Tuple (l : list json) | Not_tuple (v : json).

Record SearchDocument : Type := {
  node_id : pystr;
  title : pystr;
  summary : pystr;
  body : pystr;
  tags : list pystr;
  kind : pystr;
  language : pystr;
  doc_privacy_class : pystr;
  doc_personal_data : bool;
}.

(** [SearchDocument(...)] *)
Definition new_document (node_id title summary body : json) (tags : tags_value)
    (kind language privacy_class contains_personal_data : json) : result exn SearchDocument :=
  n ← require_text node_id "node_id" false;
  t ← require_text title "title" false;
  s ← require_text summary "summary" true;
  b ← require_text body "body" true;
  k ← require_text kind "kind" false;
  l ← require_text language "language" false;
  if negb (py_eq privacy_class (JStr "synthetic")) ||
     match contains_personal_data with JBool false => false | _ => true end
  then raise PrivacyBoundaryError "search document must be explicitly synthetic and PII-free"
  else
    match tags with
    | Not_tuple _ => raise SearchCoreError "search document tags must be an immutable tuple"
    | Tuple ts =>
        if (length ts =? 0)%nat || (32 <? length ts)%nat then
          raise SearchCoreError "search document must contain between 1 and 32 tags"
        else
          tl ← mapM (fun tag => require_text tag "tag" false) ts;
          _ ← reject_personal_data ([n; t; s; b] ++ tl ++ [k; l]) "search document";
          Ok (Build_SearchDocument n t s b tl k l "synthetic" false)
    end.

Definition document_fields : list pystr := lit <$>
  ["node_id"; "title"; "summary"; "body"; "tags"; "kind"; "language"; "privacy_class";
   "contains_personal_data"]%string.
(** [set(a) == set(b)] *)
Definition same_set (a b : list pystr) : bool :=
  forallb (fun x => str_in x b) a && forallb (fun x => str_in x a) b.

(** [SearchDocument.from_mapping]; the fields are read after all of them are known to be there. *)
Definition from_mapping (value : dict json) : result exn SearchDocument :=
  if negb (same_set (dkeys value) document_fields) then
    raise PrivacyBoundaryError "search document must contain exactly the authorized search fields"
  else
    let field k := default JNull (dget value (lit k)) in
    match field "tags"%string with
    | JList ts =>
        if (length ts =? 0)%nat || (32 <? length ts)%nat || existsb (fun tag => negb (is_str tag)) ts then
          raise SearchCoreError "search document tags are invalid"
        else
          new_document (field "node_id"%string) (field "title"%string) (field "summary"%string)
            (field "body"%string) (Tuple ts) (field "kind"%string) (field "language"%string)
            (field "privacy_class"%string) (field "contains_personal_data"%string)
    | _ => raise SearchCoreError "search document tags are invalid"
    end.

Definition embedding_text (d : SearchDocument) : pystr :=
  join [10%N]
    [lit "Titel: " ++ title d; lit "Kurzbeschreibung: " ++ summary d; lit "Information: " ++ body d;
     lit "Tags: " ++ join (lit ", ") (tags d); lit "Art: " ++ kind d; lit "Sprache: " ++ language d].

Definition content_payload (d : SearchDocument) : json :=
  JObj [(lit "normalization_revision", JStr NORMALIZATION_REVISION);
        (lit "node_id", JStr (node_id d));
        (lit "title", JStr (normalize_text (title d)));
        (lit "summary", JStr (normalize_text (summary d)));
        (lit "body", JStr (normalize_text (body d)));
        (lit "tags", JList ((fun tag => JStr (normalize_text tag)) <$> tags d));
        (lit "kind", JStr (normalize_text (kind d)));
        (lit "language", JStr (normalize_text (language d)))].
Definition content_sha256 (d : SearchDocument) : result exn pystr :=
  b ← encode (canonical_json (content_payload d)); Ok (sha256_hex b).

Record SearchQuery : Type := {
  text : pystr;
  query_privacy_class : pystr;
  query_personal_data : bool;
}.

(** [SearchQuery(...)] *)
Definition new_query (text privacy_class contains_personal_data : json) : result exn SearchQuery :=
  t ← require_text text "query" false;
  if negb (py_eq privacy_class (JStr "synthetic")) ||
     match contains_personal_data with JBool false => false | _ => true end
  then raise PrivacyBoundaryError "search query must be explicitly synthetic and PII-free"
  else
    _ ← reject_personal_data [t] "search query";
    Ok (Build_SearchQuery t "synthetic" false).

Definition query_embedding_text (q : SearchQuery) : pystr :=
  lit "Aufgabe: Finde den relevantesten sichtbaren Weltgewebe-Knoten." ++ [10%N] ++
  lit "Anfrage: " ++ text q.

(** ** Vectors *)

(** One component: [bool] is refused though it is an [int]. *)
Definition component (v : json) : result exn float :=
  match v with
  | JInt _ | JFloat _ =>
      x ← float_of_number v;
      if f_finite x then Ok x
      else raise VectorValidationError "embedding vector contains a non-finite value"
  | _ => raise VectorValidationError "embedding vector contains a non-number"
  end.

Definition norm_of (l : list float) : float := f_sqrt (f_sum ((fun x => f_mul x x) <$> l)).

Definition validate_vector (values : json) (expected_dimensions : json) : result exn (list float) :=
  match expected_dimensions with
  | JInt n =>
      if negb ((1 <=? n) && (n <=? MAX_DIMENSIONS))%Z then
        raise VectorValidationError "expected dimensions are outside the supported range"
      else
        match values with
        | JList l =>
            if negb (Z.of_nat (length l) =? n)%Z then
              raise VectorValidationError "embedding vector dimension mismatch"
            else
              converted ← mapM component l;
              if f_eq (norm_of converted) f_zero then
                raise VectorValidationError "embedding vector has zero norm"
              else Ok converted
        | _ => raise VectorValidationError "embedding vector must be a numeric sequence"
        end
  | _ => raise VectorValidationError "expected dimensions must be an integer"
  end.

(** [BoundVector(...)], which checks nothing, and [BoundVector.build]. *)
Record BoundVector : Type := { bound_to : pystr; vector_values : json }.

Definition build_vector (g : GenerationIdentity) (values : json) : result exn BoundVector :=
  v ← validate_vector values (JInt (dimensions (model g)));
  Ok (Build_BoundVector (generation_id g) (JList (JFloat <$> v))).

Definition cosine_similarity (left right : list float) : result exn float :=
  if negb (length left =? length right)%nat || (length left =? 0)%nat then
    raise VectorValidationError "cosine inputs have different or empty dimensions"
  else
    let numerator := f_sum (zip_with f_mul left right) in
    let left_norm := norm_of left in
    let right_norm := norm_of right in
    if f_eq left_norm f_zero || f_eq right_norm f_zero then
      raise VectorValidationError "cosine input has zero norm"
    else f_div numerator (f_mul left_norm right_norm).

(** ** Lexical signals *)

Definition tokens (s : pystr) : gset pystr :=
  list_to_set (List.filter (fun t => (2 <=? length t)%nat && negb (str_in t STOP_WORDS))
                 (split_ws (normalize_text s))).

Definition trigrams (s : pystr) : gset pystr :=
  let normalized := lit "  " ++ normalize_text s ++ lit " " in
  list_to_set ((fun i => take 3 (drop i normalized)) <$> seq 0 (length normalized - 2)).

Definition trigram_similarity (left right : pystr) : float :=
  let left_set := trigrams left in
  let right_set := trigrams right in
  if (size left_set =? 0)%nat || (size right_set =? 0)%nat then f_zero
  else nat_div (size (left_set ∩ right_set)) (size (left_set ∪ right_set)).

(** The field weights, all exact floats. *)
Definition weighted_fields (d : SearchDocument) : list (gset pystr * float) :=
  [(tokens (title d), f_of_Z 4); (tokens (join (lit " ") (tags d)), f_of_Z 3);
   (tokens (summary d), f_of_Z 2); (tokens (kind d), f_of_Z 2); (tokens (body d), f_of_Z 1)].

Definition full_text_score (query : pystr) (d : SearchDocument) : result exn (nat * float) :=
  let query_tokens := tokens query in
  if (size query_tokens =? 0)%nat then Ok (0%nat, f_zero)
  else
    let '(matched, weighted) :=
      foldl (fun acc field =>
               let common := query_tokens ∩ fst field in
               (fst acc ∪ common,
                f_add (snd acc) (f_mul (snd field) (f_of_Z (Z.of_nat (size common))))))
        (∅, f_zero) (weighted_fields d) in
    let required := if (size query_tokens <=? 3)%nat then 1%nat else 2%nat in
    if (size matched <? required)%nat then Ok (size matched, f_zero)
    else
      score ← f_div weighted (f_mul (f_of_Z 4) (f_of_Z (Z.of_nat (size query_tokens))));
      Ok (size matched, score).

Record LexicalSignal : Type := { rank_class : Z; label : pystr; score : float }.

Definition lexical_signal (q : SearchQuery) (d : SearchDocument) : result exn (option LexicalSignal) :=
  let normalized_query := normalize_text (text q) in
  let normalized_title := normalize_text (title d) in
  let normalized_tags := normalize_text <$> tags d in
  if str_eqb normalized_title normalized_query then
    Ok (Some (Build_LexicalSignal RANK_EXACT_TITLE "exact_title" (f_of_Z 1)))
  else if str_in normalized_query normalized_tags then
    Ok (Some (Build_LexicalSignal RANK_EXACT_TAG "exact_tag" (f_of_Z 1)))
  else if startswith normalized_query normalized_title then
    Ok (Some (Build_LexicalSignal RANK_TITLE_PREFIX "title_prefix"
                (nat_div (length normalized_query) (length normalized_title))))
  else
    let typo_score :=
      f_max (trigram_similarity (text q) (title d))
        (trigram_similarity (text q) (summary d) :: (trigram_similarity (text q) <$> tags d)) in
    if f_le TYPO_MINIMUM typo_score then
      Ok (Some (Build_LexicalSignal RANK_TYPO "typo" typo_score))
    else
      '(matched, full_text) ← full_text_score (text q) d;
      if negb (matched =? 0)%nat && f_lt f_zero full_text then
        Ok (Some (Build_LexicalSignal RANK_FULL_TEXT "full_text" full_text))
      else Ok None.

(** ** Ranking *)

Record RankingResult : Type := {
  ranked_node_ids : list pystr;
  mode : pystr;
  generation : option GenerationIdentity;
  fallback_reason : option pystr;
}.

Definition validate_candidates (candidates : list SearchDocument) : result exn unit :=
  if (MAX_CANDIDATES <? Z.of_nat (length candidates))%Z then
    raise SearchCoreError (lit "candidate set exceeds " ++ show_Z MAX_CANDIDATES)
  else if negb (bool_decide (NoDup (node_id <$> candidates))) then
    raise SearchCoreError "candidate node ids must be unique"
  else Ok tt.

(** [tuple(v)] and the hashes that [set] takes of its elements. *)
Definition elements_of (v : json) : result exn (list json) :=
  match v with
  | JList l => Ok l
  | JObj d => Ok (JStr <$> dkeys d)
  | _ => raise TypeError (lit "'" ++ type_name v ++ lit "' object is not iterable")
  end.
Definition hashable (v : json) : result exn unit :=
  match v with
  | JList _ | JObj _ => raise TypeError (lit "unhashable type: '" ++ type_name v ++ lit "'")
  | _ => Ok tt
  end.
Fixpoint repeats (l : list json) : bool :=
  match l with [] => false | v :: l' => py_in v l' || repeats l' end.

Definition as_candidate (candidate_ids : list pystr) (v : json) : option pystr :=
  match v with JStr s => if str_in s candidate_ids then Some s else None | _ => None end.

Definition validate_precomputed_lexical (candidates : list SearchDocument) (lexical : json)
    : result exn (list pystr) :=
  if is_str lexical then
    raise SearchCoreError "precomputed lexical ranking must be a node-id sequence"
  else
    ranked ← elements_of lexical;
    _ ← forM_ hashable ranked;
    if repeats ranked then
      raise SearchCoreError "precomputed lexical ranking contains duplicate node ids"
    else
      match mapM (as_candidate (node_id <$> candidates)) ranked with
      | Some ids => Ok ids
      | None => raise SearchCoreError "precomputed lexical ranking exceeds the authorized candidate set"
      end.

(** [l[:limit]] *)
Definition slice_to {A} (limit : Z) (l : list A) : list A :=
  take (Z.to_nat (if (limit <? 0)%Z then Z.of_nat (length l) + limit else limit)%Z) l.

Definition limit_ok (limit : Z) : bool := ((1 <=? limit) && (limit <=? 100))%Z.
Definition check_limit (limit : Z) : result exn unit :=
  if limit_ok limit then Ok tt else raise SearchCoreError "ranking limit must be between 1 and 100".

(** [<] on the tuples [(rank_class, -score, node_id)] and [(-score, node_id)]. *)
Definition pair_lt (a b : float * pystr) : bool :=
  if f_eq (fst a) (fst b) then str_ltb (snd a) (snd b) else f_lt (fst a) (fst b).
Definition triple_lt (a b : Z * (float * pystr)) : bool :=
  if (fst a =? fst b)%Z then pair_lt (snd a) (snd b) else (fst a <? fst b)%Z.

Context `{ListSort}.

(** The entry that one document adds to [scored]. *)
Definition lexical_entry (q : SearchQuery) (d : SearchDocument)
    : result exn (list (Z * (float * pystr))) :=
  signal ← lexical_signal q d;
  Ok match signal with
     | Some s => [(rank_class s, (f_neg (score s), node_id d))]
     | None => []
     end.

Definition rank_lexical (q : SearchQuery) (candidates : list SearchDocument) (limit : Z)
    : result exn RankingResult :=
  _ ← validate_candidates candidates;
  _ ← check_limit limit;
  scored ← foldM (fun acc d => entry ← lexical_entry q d; Ok (acc ++ entry)) [] candidates;
  Ok (Build_RankingResult
        ((fun e => snd (snd e)) <$> slice_to limit (list_sort triple_lt scored))
        "lexical" None None).

(** [semantic_minimum_cosine] and [semantic_minimum_margin] are any value. *)
Definition check_threshold (label : pystr) (value : json) (lower upper : Z) : result exn float :=
  match value with
  | JInt _ | JFloat _ =>
      v ← float_of_number value;
      if negb (f_finite v) || negb (f_le (f_of_Z lower) v && f_le v (f_of_Z upper)) then
        raise SearchCoreError (label ++ lit " is outside the supported finite range")
      else Ok v
  | _ => raise SearchCoreError (label ++ lit " must be numeric")
  end.

Definition check_candidate_vector (g : GenerationIdentity) (item : pystr * BoundVector)
    : result exn (pystr * list float) :=
  let '(nid, vector) := item in
  if negb (str_eqb (bound_to vector) (generation_id g)) then
    raise GenerationMismatchError
      (lit "candidate vector " ++ repr_str nid ++ lit " belongs to a different generation")
  else
    v ← validate_vector (vector_values vector) (JInt (dimensions (model g)));
    Ok (nid, v).

(** The scores of the candidates that the lexical ranking does not hold. *)
Definition semantic_entry (query_values : list float) (checked : dict (list float)) (d : SearchDocument)
    : result exn (float * pystr) :=
  match dget checked (node_id d) with
  | Some v => s ← cosine_similarity query_values v; Ok (s, node_id d)
  | None => raise KeyError (repr_str (node_id d))
  end.

(** [key=lambda item: (-item[0], item[1])] *)
Definition semantic_lt (a b : float * pystr) : bool :=
  pair_lt (f_neg (fst a), snd a) (f_neg (fst b), snd b).

Definition confident (minimum margin top_score runner_up : float) : bool :=
  f_le minimum top_score && f_le margin (f_sub top_score runner_up).

Definition semantic_choice (minimum margin : float) (semantic : list (float * pystr)) : list pystr :=
  match semantic with
  | [] => []
  | top :: rest =>
      let runner_up := match rest with second :: _ => fst second | [] => f_of_Z (-1) end in
      if confident minimum margin (fst top) runner_up then
        snd <$> take SEMANTIC_APPEND_LIMIT semantic
      else []
  end.

(** [ranked.extend(i for i in ids if i not in ranked)]: the generator sees the list grow. *)
Definition extend_new (ranked ids : list pystr) : list pystr :=
  foldl (fun acc i => if str_in i acc then acc else acc ++ [i]) ranked ids.

Definition rank_hybrid (q : SearchQuery) (candidates : list SearchDocument) (g : GenerationIdentity)
    (query_vector : BoundVector) (candidate_vectors : dict BoundVector) (lexical : json) (limit : Z)
    (semantic_minimum_cosine semantic_minimum_margin : json) : result exn RankingResult :=
  _ ← validate_candidates candidates;
  _ ← check_limit limit;
  minimum ← check_threshold "semantic_minimum_cosine" semantic_minimum_cosine (-1) 1;
  margin ← check_threshold "semantic_minimum_margin" semantic_minimum_margin 0 2;
  if negb (str_eqb (bound_to query_vector) (generation_id g)) then
    raise GenerationMismatchError "query vector belongs to a different generation"
  else
    query_values ← validate_vector (vector_values query_vector) (JInt (dimensions (model g)));
    if negb (same_set (dkeys candidate_vectors) (node_id <$> candidates)) then
      raise GenerationMismatchError
        "candidate vectors do not cover the exact authorized candidate set"
    else
      checked ← mapM (check_candidate_vector g) candidate_vectors;
      lexical_ids ← validate_precomputed_lexical candidates lexical;
      semantic ← mapM (semantic_entry query_values checked)
                   (List.filter (fun d => negb (str_in (node_id d) lexical_ids)) candidates);
      let semantic_ids := semantic_choice minimum margin (list_sort semantic_lt semantic) in
      Ok (Build_RankingResult (slice_to limit (extend_new lexical_ids semantic_ids))
            "hybrid" (Some g) None).

(** ** The provider *)

Class Provider (P : Type) : Type := {
  provider_identity : eff P ModelIdentity;
  provider_embed : list pystr -> eff P (list json);
}.

Section provider.
Context {P : Type} `{!Provider P}.

(** The document vectors, bound: a [dict] comprehension over the pairs. *)
Definition bind_documents (g : GenerationIdentity) (documents : list SearchDocument)
    (vectors : list json) : result exn (dict BoundVector) :=
  foldM (fun acc dv => v ← build_vector g (snd dv); Ok (dset acc (node_id (fst dv)) v)) []
    (zip documents vectors).

Definition embed_bound (documents : list SearchDocument) (queries : list SearchQuery)
    (document_revision : json)
    : eff P (GenerationIdentity * dict BoundVector * list BoundVector) :=
  _ ← pure (validate_candidates documents);
  before ← provider_identity;
  document_vectors ← provider_embed (embedding_text <$> documents);
  query_vectors ← provider_embed (query_embedding_text <$> queries);
  after ← provider_identity;
  if negb (bool_decide (before = after)) then
    throw ProviderBoundaryError "embedding provider identity changed during one measurement"
  else if negb (length document_vectors =? length documents)%nat ||
          negb (length query_vectors =? length queries)%nat then
    throw VectorValidationError "embedding provider returned an unexpected vector count"
  else
    pure (g ← build_generation before document_revision;
          bound_documents ← bind_documents g documents document_vectors;
          bound_queries ← mapM (build_vector g) query_vectors;
          Ok (g, bound_documents, bound_queries)).

Definition rank_with_provider (q : SearchQuery) (candidates : list SearchDocument)
    (document_revision lexical : json) (limit : Z) : eff P RankingResult :=
  outcome ← try_except [ProviderUnavailableError]
    (bound ← embed_bound candidates [q] document_revision; mret (inr bound))
    (fun error =>
       pure (lexical_ids ← validate_precomputed_lexical candidates lexical;
             Ok (inl (Build_RankingResult (slice_to limit lexical_ids) "lexical_fallback" None
                        (Some (exn_msg error))))));
  match outcome with
  | inl fallback => mret fallback
  | inr (g, document_vectors, query_vectors) =>
      match query_vectors with
      | query_vector :: _ =>
          pure (rank_hybrid q candidates g query_vector document_vectors lexical limit
                  (JFloat SEMANTIC_MINIMUM_COSINE) (JFloat SEMANTIC_MINIMUM_MARGIN))
      | [] => throw IndexError "tuple index out of range"
      end
  end.
End provider.
End search.
