(* ===== verification/SearchProofs.v ===== *)
(** * Proofs of the hybrid ranking core

    The order of the two sorts is total wherever no score is a NaN, so what [list.sort] promises
    fixes the arrangement; the hybrid result is the lexical ranking and at most one candidate more;
    vectors of one embedding pass every later check of the ranking. *)

From S2P Require Import Prelude PyStr Effects Json JsonText Sha256 PyFloat PyRegex SearchCore.
From Stdlib Require Import SpecFloat.

(** ** Error monad over lists *)

Lemma mapM_total {Er A B} (f : A -> result Er B) l : Forall (fun x => exists y, f x = Ok y) l -> exists k, mapM f l = Ok k.
Proof.
  induction 1 as [|x l [y Hy] _ [k Hk]]; [by eexists|]. exists (y :: k). cbn. by rewrite Hy, Hk.
Qed.

Lemma mapM_err {Er A B} (f : A -> result Er B) l e : mapM f l = Err e -> exists x, x ∈ l /\ f x = Err e.
Proof.
  induction l as [|x l IH]; cbn; [done|]. unfold mbind, result_bind. destruct (f x) as [y|e'] eqn:E.
  - destruct (mapM f l) as [ys|e'']; [done|]. intros H. destruct (IH H) as (z & Hz & Hf).
    exists z. split; [by right|done].
  - intros [= ->]. exists x. split; [by left|done].
Qed.

Ltac step_ok H x Hx := apply bind_ok in H as (x & Hx & H).

Lemma guard_ok {E} (b : bool) (e : E) : (if b then Ok tt else Err e) = Ok tt <-> b = true.
Proof. by destruct b. Qed.

(** ** The two orders *)

Definition comparable (a : float * pystr) : Prop := is_nan (fst a) = false.

Lemma not_after_pair a b : comparable a -> comparable b ->
  not_after pair_lt a b =
  (f_le (fst a) (fst b) && (negb (f_le (fst b) (fst a)) || str_leb (snd a) (snd b))).
Proof.
  intros Ha Hb. unfold not_after, pair_lt. rewrite f_eq_le, (f_lt_le (fst a) (fst b)) by done.
  unfold str_ltb. pose proof (f_le_total (fst a) (fst b) Ha Hb) as Ht.
  rewrite (f_lt_le (fst a) (fst b)), (f_lt_le (fst b) (fst a)) in * by done.
  destruct (f_lt (fst b) (fst a)), (f_lt (fst a) (fst b)); cbn in *; rewrite ?negb_involutive;
    first [done|naive_solver].
Qed.

Lemma pair_preorder l : Forall comparable l -> preorder_on (not_after pair_lt) l.
Proof.
  rewrite Forall_forall. intros Hl. split.
  - intros a b Ha%Hl Hb%Hl. rewrite !not_after_pair by done.
    pose proof (f_le_total (fst a) (fst b) Ha Hb).
    destruct (f_le (fst a) (fst b)), (f_le (fst b) (fst a)); cbn; auto using str_leb_total.
  - intros a b c Ha%Hl Hb%Hl Hc%Hl. rewrite !not_after_pair, !andb_true_iff, !orb_true_iff, !negb_true_iff by done.
    intros [H1 H1'] [H2 H2']. split; [by eapply f_le_trans|].
    destruct (f_le (fst c) (fst a)) eqn:E; [right|by left].
    destruct H1' as [H1'|H1'].
    { rewrite (f_le_trans (fst b) (fst c) (fst a)) in H1' by done. done. }
    destruct H2' as [H2'|H2'].
    { rewrite (f_le_trans (fst c) (fst a) (fst b)) in H2' by done. done. }
    by eapply str_leb_trans.
Qed.

(** [f_le] both ways is equality of finite floats up to the sign of zero; with the names distinct
    the order is strict. *)
Lemma pair_antisym a b : comparable a -> comparable b ->
  not_after pair_lt a b = true -> not_after pair_lt b a = true -> snd a = snd b.
Proof.
  intros Ha Hb. rewrite !not_after_pair by done. rewrite !andb_true_iff, !orb_true_iff, !negb_true_iff.
  intros [H1 [?|H2]] [H3 [?|H4]]; try congruence. by apply str_leb_antisym.
Qed.

Lemma not_after_triple a b :
  not_after triple_lt a b =
  ((fst a <? fst b)%Z || (fst a =? fst b)%Z && not_after pair_lt (snd a) (snd b)).
Proof.
  unfold not_after, triple_lt.
  destruct (Z.eqb_spec (fst b) (fst a)), (Z.eqb_spec (fst a) (fst b)), (Z.ltb_spec (fst a) (fst b)),
    (Z.ltb_spec (fst b) (fst a)); cbn; try lia; done.
Qed.

Lemma triple_preorder l : Forall (fun a => comparable (snd a)) l -> preorder_on (not_after triple_lt) l.
Proof.
  intros Hl. destruct (pair_preorder (snd <$> l)) as [Ht Htr]; [by apply Forall_fmap|].
  assert (forall a, a ∈ l -> snd a ∈ snd <$> l) as Hin by (intros; by apply list_elem_of_fmap_2).
  split.
  - intros a b Ha%Hin Hb%Hin. rewrite !not_after_triple. specialize (Ht _ _ Ha Hb).
    rewrite !orb_true_iff, !andb_true_iff, !Z.ltb_lt, !Z.eqb_eq.
    destruct (Z.lt_trichotomy (fst a) (fst b)) as [|[|]]; [left; by left|naive_solver|right; by left].
  - intros a b c Ha%Hin Hb%Hin Hc%Hin. rewrite !not_after_triple.
    rewrite !orb_true_iff, !andb_true_iff, !Z.ltb_lt, !Z.eqb_eq.
    intros [?|[? H1]] [?|[? H2]]; first [left; lia|right; split; [lia|by apply (Htr _ (snd b))]].
Qed.

(** With ties excluded on the list itself the arrangement is unique. *)
Lemma sorted_by_unique_on {A} (le : A -> A -> bool) l1 l2 :
  (forall x y, x ∈ l1 -> y ∈ l1 -> le x y = true -> le y x = true -> x = y) ->
  sorted_by le l1 -> sorted_by le l2 -> l1 ≡ₚ l2 -> l1 = l2.
Proof.
  intros Hanti H1. revert l2. induction H1 as [|x l1 H1 IH Hx]; intros l2 H2 Hp.
  - by apply Permutation_nil_l in Hp.
  - destruct H2 as [|y l2 H2 Hy]; [by apply Permutation_nil_r in Hp|].
    assert (x = y) as ->.
    { assert (x ∈ y :: l2) as Hin by (rewrite <-Hp; by left).
      assert (y ∈ x :: l1) as Hin' by (rewrite Hp; by left).
      rewrite Forall_forall in Hx, Hy. apply elem_of_cons in Hin as [->|Hin]; [done|].
      pose proof Hin' as Hin''. apply elem_of_cons in Hin' as [->|Hin']; [done|].
      apply Hanti; [by left|done|auto..]. }
    f_equal. apply IH; [|done|by apply Permutation_cons_inv in Hp].
    intros a b Ha Hb. apply Hanti; by right.
Qed.

Lemma NoDup_fmap_inj_on {A B} (f : A -> B) l x y :
  NoDup (f <$> l) -> x ∈ l -> y ∈ l -> f x = f y -> x = y.
Proof.
  intros Hn Hx Hy Hf. apply list_elem_of_lookup in Hx as [i Hi], Hy as [j Hj].
  assert (i = j) as ->; [|congruence].
  eapply NoDup_lookup; [exact Hn|by rewrite list_lookup_fmap, Hi|].
  rewrite list_lookup_fmap, Hj. cbn. by rewrite Hf.
Qed.

Lemma concat_perm {A} (l k : list (list A)) : l ≡ₚ k -> concat l ≡ₚ concat k.
Proof.
  induction 1 as [|x l k _ IH|x y l|l k m _ IH1 _ IH2]; cbn; [done|by rewrite IH| |by rewrite IH1].
  by rewrite !app_assoc, (Permutation_app_comm x y).
Qed.

Section proofs.
Context {host : PyHost} {sort : ListSort}.

(** ** The lexical ranking *)

Lemma trigram_similarity_nan a b : is_nan (trigram_similarity a b) = false.
Proof. unfold trigram_similarity. case_match; [done|apply nat_div_nan]. Qed.

Lemma lexical_signal_nan q d s : lexical_signal q d = Ok (Some s) -> is_nan (score s) = false.
Proof.
  unfold lexical_signal.
  destruct (str_eqb _ _); [by intros [= <-]|]. destruct (str_in _ _); [by intros [= <-]|].
  destruct (startswith _ _); [intros [= <-]; apply nat_div_nan|].
  destruct (f_le TYPO_MINIMUM _).
  - intros [= <-]. apply (f_max_nan _ (_ :: _)). repeat constructor; try apply trigram_similarity_nan.
    apply Forall_fmap, Forall_forall. intros tag _. apply trigram_similarity_nan.
  - intros ([matched score] & _ & H)%bind_ok. destruct (negb _ && f_lt f_zero score) eqn:E; [|done].
    injection H as <-. apply andb_true_iff in E as [_ E]. by destruct score.
Qed.

(** The entry of a document with a signal. *)
Definition entry_of (q : SearchQuery) (e : Z * (float * pystr)) (d : SearchDocument) : Prop :=
  exists s, lexical_signal q d = Ok (Some s) /\ e = (rank_class s, (f_neg (score s), node_id d)).

Lemma foldl_app_concat {A} (acc : list A) ls : foldl (fun a x => a ++ x) acc ls = acc ++ concat ls.
Proof.
  revert acc. induction ls as [|l ls IH]; intros acc; cbn; [by rewrite app_nil_r|].
  by rewrite IH, <-app_assoc.
Qed.

Lemma scored_spec q candidates scored :
  foldM (fun acc d => entry ← lexical_entry q d; Ok (acc ++ entry)) [] candidates = Ok scored <->
  exists entries, Forall2 (fun d e => lexical_entry q d = Ok e) candidates entries /\ scored = concat entries.
Proof. rewrite foldM_collect. by setoid_rewrite foldl_app_concat. Qed.

Lemma lexical_entry_ok q d l : lexical_entry q d = Ok l -> forall e, e ∈ l <-> entry_of q e d.
Proof.
  unfold lexical_entry, entry_of. intros (s & Hs & [= <-])%bind_ok e. rewrite Hs. destruct s as [s|].
  - rewrite list_elem_of_singleton. split; [intros ->; by eexists|by intros (? & [= <-] & ->)].
  - split; [by intros ?%not_elem_of_nil|by intros (? & [=] & _)].
Qed.

Lemma lexical_entry_id q d l : lexical_entry q d = Ok l -> (snd ∘ snd) <$> l = [] \/ (snd ∘ snd) <$> l = [node_id d].
Proof. unfold lexical_entry. intros ([s|] & _ & [= <-])%bind_ok; [by right|by left]. Qed.

Lemma entries_elem q candidates entries :
  Forall2 (fun d e => lexical_entry q d = Ok e) candidates entries ->
  forall e, e ∈ concat entries <-> exists d, d ∈ candidates /\ entry_of q e d.
Proof.
  induction 1 as [|d l ds ls Hd _ IH]; intros e; cbn.
  - split; [by intros ?%not_elem_of_nil|by intros (? & ?%not_elem_of_nil & _)].
  - rewrite elem_of_app, IH, (lexical_entry_ok _ _ _ Hd). setoid_rewrite elem_of_cons. naive_solver.
Qed.

Lemma entries_ids q candidates entries :
  Forall2 (fun d e => lexical_entry q d = Ok e) candidates entries ->
  ((snd ∘ snd) <$> concat entries) `sublist_of` (node_id <$> candidates).
Proof.
  induction 1 as [|d l ds ls Hd _ IH]; [constructor|]. cbn [concat fmap list_fmap]. rewrite fmap_app.
  destruct (lexical_entry_id _ _ _ Hd) as [->| ->]; cbn; by constructor.
Qed.

Lemma entry_of_comparable q e d : entry_of q e d -> comparable (snd e).
Proof. intros (s & Hs & ->). unfold comparable. cbn. rewrite is_nan_neg. by eapply lexical_signal_nan. Qed.

Lemma entries_comparable q candidates entries :
  Forall2 (fun d e => lexical_entry q d = Ok e) candidates entries ->
  Forall (fun e => comparable (snd e)) (concat entries).
Proof.
  intros H. apply Forall_forall. intros e He. apply (entries_elem _ _ _ H) in He as (d & _ & He).
  by eapply entry_of_comparable.
Qed.

Lemma validate_candidates_ok candidates :
  validate_candidates candidates = Ok tt <->
  (Z.of_nat (length candidates) <= MAX_CANDIDATES)%Z /\ NoDup (node_id <$> candidates).
Proof.
  unfold validate_candidates. destruct (Z.ltb_spec MAX_CANDIDATES (Z.of_nat (length candidates))) as [H|H].
  - split; [done|]. intros [? _]. lia.
  - case_bool_decide; cbn; naive_solver.
Qed.

Lemma check_limit_ok limit : check_limit limit = Ok tt <-> (1 <= limit <= 100)%Z.
Proof.
  unfold check_limit, limit_ok. destruct (Z.leb_spec 1 limit), (Z.leb_spec limit 100); cbn;
    (split; [intros [=]; lia|try done; lia]).
Qed.

Definition entry_id (e : Z * (float * pystr)) : pystr := snd (snd e).

Lemma rank_lexical_inv q candidates limit r :
  rank_lexical q candidates limit = Ok r <->
  validate_candidates candidates = Ok tt /\ (1 <= limit <= 100)%Z /\
  exists entries, Forall2 (fun d e => lexical_entry q d = Ok e) candidates entries /\
    r = Build_RankingResult (take (Z.to_nat limit) (entry_id <$> list_sort triple_lt (concat entries)))
          "lexical" None None.
Proof.
  unfold rank_lexical. split.
  - intros ([] & Hv & ([] & Hl & (scored & Hs & [= <-])%bind_ok)%bind_ok)%bind_ok.
    apply check_limit_ok in Hl.
    split_and!; [done|lia..|]. apply scored_spec in Hs as (entries & He & ->). exists entries.
    split; [done|]. f_equal. unfold slice_to. destruct (Z.ltb_spec limit 0); [lia|]. by rewrite fmap_take.
  - intros (Hv & Hl & entries & He & ->). apply bind_ok. exists tt. split; [done|].
    apply bind_ok. exists tt. split; [by apply check_limit_ok|].
    apply bind_ok. exists (concat entries). split; [apply scored_spec; by eexists|].
    do 2 f_equal. unfold slice_to. destruct (Z.ltb_spec limit 0); [lia|]. by rewrite fmap_take.
Qed.

(** The lexical ranking is the first [limit] names of the documents that have a signal, each
    once, in the order of rank class, then descending score, then name. *)
Theorem rank_lexical_sorted q candidates limit r :
  rank_lexical q candidates limit = Ok r ->
  exists ordered,
    ranked_node_ids r = take (Z.to_nat limit) (entry_id <$> ordered) /\
    sorted_by (not_after triple_lt) ordered /\ NoDup (entry_id <$> ordered) /\
    (forall e, e ∈ ordered <-> exists d, d ∈ candidates /\ entry_of q e d) /\
    (length (ranked_node_ids r) <= 100)%nat.
Proof.
  intros (Hv & Hl & entries & He & ->)%rank_lexical_inv.
  exists (list_sort triple_lt (concat entries)). split_and!.
  - done.
  - apply list_sort_sorted, triple_preorder. by eapply entries_comparable.
  - rewrite list_sort_perm. eapply sublist_NoDup; [|by eapply entries_ids].
    by apply validate_candidates_ok in Hv as [_ ?].
  - intros e. rewrite list_sort_perm. by apply entries_elem.
  - cbn. rewrite length_take. lia.
Qed.

(** The lexical ranking does not depend on the order in which the candidates come. *)
Theorem rank_lexical_order_free q candidates candidates' limit r :
  candidates ≡ₚ candidates' ->
  rank_lexical q candidates limit = Ok r -> rank_lexical q candidates' limit = Ok r.
Proof.
  intros Hp (Hv & Hl & entries & He & ->)%rank_lexical_inv. apply rank_lexical_inv.
  pose proof (proj1 (validate_candidates_ok _) Hv) as [Hlen Hnd].
  split; [by apply validate_candidates_ok; rewrite <-Hp|]. split; [done|].
  destruct (Permutation_Forall2 Hp He) as (entries' & Hpe & He').
  exists entries'. split; [done|]. do 3 f_equal.
  apply (sorted_by_unique_on (not_after triple_lt)).
  - intros x y. rewrite !list_sort_perm. intros Hx Hy H1 H2.
    pose proof (sublist_NoDup _ _ Hnd (entries_ids _ _ _ He)) as Hids.
    apply (NoDup_fmap_inj_on _ _ _ _ Hids Hx Hy). cbn. rewrite not_after_triple in H1, H2.
    pose proof (entries_comparable _ _ _ He) as Hc. rewrite Forall_forall in Hc.
    rewrite !orb_true_iff, !andb_true_iff, !Z.ltb_lt, !Z.eqb_eq in H1, H2.
    apply pair_antisym; [by apply Hc|by apply Hc| |]; naive_solver lia.
  - apply list_sort_sorted, triple_preorder. by eapply entries_comparable.
  - apply list_sort_sorted, triple_preorder. by eapply entries_comparable.
  - rewrite !list_sort_perm. by apply concat_perm.
Qed.

(** ** Vectors *)

Lemma component_ok v x : component v = Ok x -> f_finite x = true.
Proof.
  unfold component. destruct v; try done.
  - intros (y & _ & H)%bind_ok. destruct (f_finite y) eqn:E; [by injection H as <-|done].
  - intros (y & _ & H)%bind_ok. destruct (f_finite y) eqn:E; [by injection H as <-|done].
Qed.

Lemma component_float x : f_finite x = true -> component (JFloat x) = Ok x.
Proof. intros H. cbn. by rewrite H. Qed.

Definition good_vector (n : Z) (v : list float) : Prop :=
  Z.of_nat (length v) = n /\ Forall (fun x => f_finite x = true) v /\ f_eq (norm_of v) f_zero = false.

Lemma validate_vector_inv values n v :
  validate_vector values (JInt n) = Ok v <->
  (1 <= n <= MAX_DIMENSIONS)%Z /\ good_vector n v /\
  exists l, values = JList l /\ mapM component l = Ok v.
Proof.
  unfold validate_vector, good_vector. split.
  - destruct (Z.leb_spec 1 n), (Z.leb_spec n MAX_DIMENSIONS); cbn; try done. destruct values; try done.
    destruct (Z.eqb_spec (Z.of_nat (length l)) n) as [Hl|]; cbn; [|done]. intros (c & Hc & Hr)%bind_ok.
    destruct (f_eq (norm_of c) f_zero) eqn:E; [done|]. injection Hr as ->.
    pose proof Hc as Hf. apply mapM_ok in Hf. split_and!; [lia..|by rewrite <-(Forall2_length _ _ _ Hf)| |done|by exists l].
    clear -Hf. induction Hf; constructor; [by eapply component_ok|done].
  - intros ([H1 H2] & (Hl & _ & Hn) & l & -> & Hc). apply Z.leb_le in H1 as ->, H2 as ->. cbn.
    pose proof Hc as Hf. apply mapM_ok in Hf. apply Forall2_length in Hf. rewrite Hf, Hl, Z.eqb_refl. cbn.
    rewrite Hc. cbn. by rewrite Hn.
Qed.

Lemma validate_again n v : (1 <= n <= MAX_DIMENSIONS)%Z -> good_vector n v ->
  validate_vector (JList (JFloat <$> v)) (JInt n) = Ok v.
Proof.
  intros Hn Hv. apply validate_vector_inv. split_and!; [lia..|done|]. eexists; split; [done|].
  apply mapM_ok. destruct Hv as (_ & Hf & _). clear -Hf. induction Hf; constructor; [by apply component_float|done].
Qed.

(** A vector that validation accepts has as many components as the model says, all finite, and
    a norm other than zero; and what validation returns passes it again unchanged. *)
Theorem validated_vector_stable values n v :
  validate_vector values (JInt n) = Ok v ->
  good_vector n v /\ validate_vector (JList (JFloat <$> v)) (JInt n) = Ok v.
Proof.
  intros (Hn & Hv & _)%validate_vector_inv. split; [done|by apply validate_again].
Qed.

(** ** The hybrid ranking *)

Lemma as_candidate_ok ids l k :
  mapM (as_candidate ids) l = Some k -> l = JStr <$> k /\ Forall (fun i => i ∈ ids) k.
Proof.
  intros H%mapM_Some. induction H as [|v s l k Hv _ [-> IH]]; [by split|].
  destruct v; try done. cbn in Hv. destruct (str_in s0 ids) eqn:Ei; [|done]. injection Hv as <-.
  split; [done|]. constructor; [by apply str_in_elem|done].
Qed.

Lemma py_in_strings s l : py_in (JStr s) (JStr <$> l) = str_in s l.
Proof. induction l as [|t l IH]; [done|].
  change (str_eqb s t || py_in (JStr s) (JStr <$> l) = str_eqb s t || str_in s l). by rewrite IH.
Qed.

Lemma repeats_strings l : repeats (JStr <$> l) = false <-> NoDup l.
Proof.
  induction l as [|s l IH]; [split; [constructor|done]|].
  change (py_in (JStr s) (JStr <$> l) || repeats (JStr <$> l) = false <-> NoDup (s :: l)).
  rewrite orb_false_iff, IH, NoDup_cons, py_in_strings. by rewrite str_in_not.
Qed.

(** The names a lexical ranking gives: a list of them, or the keys of an object. *)
Definition gives (lexical : json) (ids : list pystr) : Prop :=
  lexical = JList (JStr <$> ids) \/ exists d, lexical = JObj d /\ dkeys d = ids.

Lemma precomputed_ok candidates lexical ids :
  validate_precomputed_lexical candidates lexical = Ok ids ->
  gives lexical ids /\ NoDup ids /\ forall i, i ∈ ids -> i ∈ node_id <$> candidates.
Proof.
  unfold validate_precomputed_lexical. destruct (is_str lexical); [done|].
  intros (l & He & ([] & _ & H)%bind_ok)%bind_ok. destruct (repeats l) eqn:Er; [done|].
  destruct (mapM _ l) as [k|] eqn:Ek; [|done]. injection H as <-.
  apply as_candidate_ok in Ek as [-> Hk]. apply repeats_strings in Er. rewrite Forall_forall in Hk. split; [|done].
  destruct lexical as [| | | | |l'|d]; try done; injection He as He; [left; by rewrite He|right]. exists d. split; [done|].
  assert (Inj (=) (=) JStr) by (by intros ? ? [= ->]). apply (inj (fmap JStr)) in He. done.
Qed.

Lemma rank_hybrid_inv q candidates g query_vector vectors lexical limit cosine margin r :
  rank_hybrid q candidates g query_vector vectors lexical limit cosine margin = Ok r ->
  exists minimum least query_values checked ids semantic,
    validate_candidates candidates = Ok tt /\ (1 <= limit <= 100)%Z /\
    check_threshold "semantic_minimum_cosine" cosine (-1) 1 = Ok minimum /\
    check_threshold "semantic_minimum_margin" margin 0 2 = Ok least /\
    bound_to query_vector = generation_id g /\
    validate_vector (vector_values query_vector) (JInt (dimensions (model g))) = Ok query_values /\
    same_set (dkeys vectors) (node_id <$> candidates) = true /\
    mapM (check_candidate_vector g) vectors = Ok checked /\
    validate_precomputed_lexical candidates lexical = Ok ids /\
    mapM (semantic_entry query_values checked)
      (List.filter (fun d => negb (str_in (node_id d) ids)) candidates) = Ok semantic /\
    r = Build_RankingResult
          (slice_to limit (extend_new ids (semantic_choice minimum least (list_sort semantic_lt semantic))))
          "hybrid" (Some g) None.
Proof.
  unfold rank_hybrid.
  intros ([] & Hv & ([] & Hl & (minimum & Hc & (least & Hm & H)%bind_ok)%bind_ok)%bind_ok)%bind_ok.
  destruct (str_eqb (bound_to query_vector) _) eqn:Eq; [|done]. apply str_eqb_eq in Eq. cbn [negb] in H.
  apply bind_ok in H as (qv & Hq & H). destruct (same_set _ _) eqn:Es; [|done]. cbn [negb] in H.
  apply bind_ok in H as (checked & Hch & (ids & Hi & (semantic & Hs & [= <-])%bind_ok)%bind_ok).
  apply check_limit_ok in Hl. by exists minimum, least, qv, checked, ids, semantic.
Qed.

Lemma semantic_names query_values checked l semantic :
  mapM (semantic_entry query_values checked) l = Ok semantic -> snd <$> semantic = node_id <$> l.
Proof.
  rewrite mapM_ok. induction 1 as [|d [s i] l k Hd _ IH]; [done|]. cbn. rewrite IH. f_equal.
  unfold semantic_entry in Hd. destruct (dget checked (node_id d)); [|done].
  apply bind_ok in Hd as (x & _ & Hd). by injection Hd as _ <-.
Qed.

Lemma choice_short minimum least semantic :
  semantic_choice minimum least semantic = [] \/
  exists top rest, semantic = top :: rest /\ semantic_choice minimum least semantic = [snd top].
Proof.
  unfold semantic_choice. destruct semantic as [|top rest]; [by left|].
  case_match; [right; by exists top, rest|by left].
Qed.

Lemma extend_fresh ids extra : NoDup extra -> (forall i, i ∈ extra -> i ∉ ids) -> extend_new ids extra = ids ++ extra.
Proof.
  unfold extend_new. revert ids. induction extra as [|i extra IH]; intros ids; cbn; [by rewrite app_nil_r|].
  intros [Hi Hn]%NoDup_cons Hf. rewrite (proj2 (str_in_not i ids)) by (apply Hf; by left).
  rewrite IH; [by rewrite <-app_assoc|done|]. intros j Hj. rewrite elem_of_app, list_elem_of_singleton.
  intros [?| ->]; [by apply (Hf j); [right|]|done].
Qed.

Lemma filter_names ids candidates i :
  i ∈ node_id <$> List.filter (fun d => negb (str_in (node_id d) ids)) candidates ->
  i ∈ node_id <$> candidates /\ i ∉ ids.
Proof.
  intros (d & -> & Hd%list_elem_of_In%filter_In)%list_elem_of_fmap. destruct Hd as [Hin Hn].
  apply list_elem_of_In in Hin. apply negb_true_iff, str_in_not in Hn. split; [by apply list_elem_of_fmap_2|done].
Qed.

(** C23: the hybrid ranking is the lexical ranking it was given, a list of names or the keys of an
    object, in its order, with at most one further name behind it, cut at the limit; every name is
    that of an authorized candidate and none stands twice. *)
Theorem hybrid_extends_lexical q candidates g query_vector vectors lexical limit cosine margin r :
  rank_hybrid q candidates g query_vector vectors lexical limit cosine margin = Ok r ->
  exists ids extra,
    gives lexical ids /\ (length extra <= 1)%nat /\
    ranked_node_ids r = take (Z.to_nat limit) (ids ++ extra) /\ NoDup (ids ++ extra) /\
    (forall i, i ∈ ids ++ extra -> i ∈ node_id <$> candidates) /\
    (length (ranked_node_ids r) <= 100)%nat /\ generation r = Some g.
Proof.
  intros (minimum & least & qv & checked & ids & semantic & _ & Hl & _ & _ & _ & _ & _ & _ & Hi & Hs & ->)%rank_hybrid_inv.
  apply semantic_names in Hs. destruct (precomputed_ok _ _ _ Hi) as (Hgive & Hnd & Hin).
  set (extra := semantic_choice minimum least (list_sort semantic_lt semantic)).
  assert ((length extra <= 1)%nat /\ forall i, i ∈ extra -> (i ∈ node_id <$> candidates) /\ (i ∉ ids)) as [He Hx].
  { unfold extra. destruct (choice_short minimum least (list_sort semantic_lt semantic))
      as [->|(top & rest & Et & ->)]; [split; [cbn; lia|by intros i ?%not_elem_of_nil]|]. split; [done|].
    intros i ->%list_elem_of_singleton. apply filter_names. rewrite <-Hs. apply list_elem_of_fmap_2.
    rewrite <-(list_sort_perm semantic_lt), Et. by left. }
  assert (NoDup extra) as Hne by (destruct extra as [|? []]; [constructor|apply NoDup_singleton|cbn in He; lia]).
  exists ids, extra. cbn. rewrite extend_fresh by naive_solver.
  unfold slice_to. destruct (Z.ltb_spec limit 0); [lia|]. split_and!; try done.
  - apply NoDup_app. split_and!; [done| |done]. intros i Hi1 Hi2. by apply Hx in Hi2 as [_ ?].
  - intros i [?|?]%elem_of_app; [by apply Hin|by apply Hx].
  - rewrite length_take. lia.
Qed.

(** ** Which candidate is appended *)

(** [(s, i)] stands before every entry of [l]: a higher score, or the same and the smaller name. *)
Definition beats (s : float) (i : pystr) (l : list (float * pystr)) : Prop :=
  Forall (fun e => f_le (fst e) s = true /\ (f_le s (fst e) = true -> str_leb i (snd e) = true)) l.

Lemma semantic_not_after a b : comparable a -> comparable b ->
  not_after semantic_lt a b = true <->
  f_le (fst b) (fst a) = true /\ (f_le (fst a) (fst b) = true -> str_leb (snd a) (snd b) = true).
Proof.
  intros Ha Hb. change (not_after semantic_lt a b) with (not_after pair_lt (f_neg (fst a), snd a) (f_neg (fst b), snd b)).
  rewrite not_after_pair by (unfold comparable; cbn; by rewrite is_nan_neg). cbn. rewrite !f_neg_le.
  destruct (f_le (fst b) (fst a)), (f_le (fst a) (fst b)), (str_leb (snd a) (snd b)); cbn; naive_solver.
Qed.

Lemma semantic_preorder l : Forall comparable l -> preorder_on (not_after semantic_lt) l.
Proof.
  intros Hl. destruct (pair_preorder ((fun a => (f_neg (fst a), snd a)) <$> l)) as [Ht Htr].
  { apply Forall_fmap. eapply Forall_impl; [exact Hl|]. intros a Ha. unfold comparable in *. cbn. by rewrite is_nan_neg. }
  assert (forall a, a ∈ l -> (f_neg (fst a), snd a) ∈ (fun a => (f_neg (fst a), snd a)) <$> l) as Hin
    by (intros; by apply (list_elem_of_fmap_2 (fun a => (f_neg (fst a), snd a)))).
  split; [intros a b Ha%Hin Hb%Hin; by apply Ht|intros a b c Ha%Hin Hb%Hin Hc%Hin; by apply Htr].
Qed.

(** The head of a sorted list is the entry that beats the others. *)
Lemma sorted_head l h t s i rest :
  Forall comparable l -> NoDup (snd <$> l) -> l ≡ₚ h :: t -> sorted_by (not_after semantic_lt) (h :: t) ->
  l ≡ₚ (s, i) :: rest -> beats s i rest -> h = (s, i) /\ t ≡ₚ rest.
Proof.
  intros Hc Hn Hp Hs Hr Hb. rewrite Forall_forall in Hc.
  assert (h ∈ l) as Hh by (rewrite Hp; by left). assert ((s, i) ∈ l) as Hi by (rewrite Hr; by left).
  assert (h = (s, i)) as ->; [|split; [done|by rewrite Hp in Hr; apply Permutation_cons_inv in Hr]].
  pose proof Hh as Hh'. rewrite Hr in Hh'. apply elem_of_cons in Hh' as [->|Hh']; [done|].
  pose proof Hi as Hi'. rewrite Hp in Hi'. apply elem_of_cons in Hi' as [->|Hi']; [done|].
  unfold beats in Hb. rewrite Forall_forall in Hb. destruct (Hb _ Hh') as [H1 H2].
  apply StronglySorted_inv in Hs as [_ Hs]. rewrite Forall_forall in Hs. apply Hs in Hi'.
  apply semantic_not_after in Hi' as [H3 H4]; [|by apply Hc..]. cbn in *.
  apply (NoDup_fmap_inj_on snd l); [done..|]. cbn. apply str_leb_antisym; auto.
Qed.

(** The score the leader is measured against: the best of the others, or -1 when it is alone. *)
Definition runner_up (l : list (float * pystr)) (x : float) : Prop :=
  l = [] /\ x = f_of_Z (-1) \/ exists j rest, l ≡ₚ (x, j) :: rest /\ beats x j rest.

Lemma sorted_beats h t : Forall comparable (h :: t) -> sorted_by (not_after semantic_lt) (h :: t) -> beats (fst h) (snd h) t.
Proof.
  intros [Hh Ht]%Forall_cons [_ Hs]%StronglySorted_inv. unfold beats. rewrite Forall_forall in *.
  intros e He. apply semantic_not_after; auto.
Qed.

(** The ranking appends a candidate exactly when, among the candidates the lexical ranking
    lacks, it has the best score (the smaller name on a tie), that score reaches the minimum and
    leads the second best (or -1, when there is no other) by the margin. *)
Theorem semantic_choice_exact minimum least semantic i :
  Forall comparable semantic -> NoDup (snd <$> semantic) ->
  semantic_choice minimum least (list_sort semantic_lt semantic) = [i] <->
  exists s rest x, semantic ≡ₚ (s, i) :: rest /\ beats s i rest /\ runner_up rest x /\
    f_le minimum s = true /\ f_le least (f_sub s x) = true.
Proof.
  intros Hc Hn. pose proof (list_sort_perm semantic_lt semantic) as Hp.
  pose proof (list_sort_sorted semantic_lt semantic (semantic_preorder _ Hc)) as Hs.
  assert (Forall comparable (list_sort semantic_lt semantic)) as Hc' by by rewrite Hp.
  split.
  - destruct (list_sort semantic_lt semantic) as [|[s j] t] eqn:El; [done|]. cbn [semantic_choice fst].
    unfold confident. set (x := match t with [] => _ | _ => _ end).
    destruct (f_le minimum s && f_le least (f_sub s x)) eqn:Ec; [|done]. intros [= ->].
    apply andb_true_iff in Ec as [H1 H2]. exists s, t, x. split_and!; try done.
    { by apply (sorted_beats (s, i)). }
    destruct t as [|[y k] u]; [by left|]. right. exists k, u. split; [done|].
    apply Forall_cons in Hc' as [_ Hc']. apply StronglySorted_inv in Hs as [Hs _]. by apply (sorted_beats (y, k)).
  - intros (s & rest & x & Hr & Hb & Hx & H1 & H2).
    destruct (list_sort semantic_lt semantic) as [|h t] eqn:El.
    { rewrite <-Hp in Hr. by apply Permutation_nil_cons in Hr. }
    destruct (sorted_head _ _ _ _ _ _ Hc Hn (symmetry Hp) Hs Hr Hb) as [-> Ht].
    cbn [semantic_choice fst]. assert (x = match t with [] => f_of_Z (-1) | second :: _ => fst second end) as Ex.
    { destruct Hx as [[-> ->]|(j & rest' & Hj & Hb')].
      - by apply Permutation_nil_r in Ht as ->.
      - destruct t as [|h' t']; [rewrite <-Ht in Hj; by apply Permutation_nil_cons in Hj|].
        apply Forall_cons in Hc' as [_ Hc']. apply StronglySorted_inv in Hs as [Hs _].
        rewrite Hr, <-Ht in Hn. apply NoDup_cons in Hn as [_ Hn].
        destruct (sorted_head (h' :: t') h' t' x j rest' Hc' Hn) as [-> _]; by rewrite ?Ht. }
    unfold confident. by rewrite <-Ex, H1, H2.
Qed.

(** ** One generation *)

(** A hybrid ranking that succeeds used vectors of one generation only: the query's vector
    and those of exactly the candidates are bound to it and have its dimensions. *)
Theorem hybrid_one_generation q candidates g query_vector vectors lexical limit cosine margin r :
  rank_hybrid q candidates g query_vector vectors lexical limit cosine margin = Ok r ->
  (forall i, i ∈ dkeys vectors <-> i ∈ node_id <$> candidates) /\
  Forall (fun v => bound_to v = generation_id g /\
                   exists l, vector_values v = JList l /\ Z.of_nat (length l) = dimensions (model g))
    (query_vector :: (snd <$> vectors)).
Proof.
  intros (minimum & least & qv & checked & ids & semantic & _ & _ & _ & _ & Hb & Hq & Hs & Hc & _)%rank_hybrid_inv.
  assert (forall v x, validate_vector v (JInt (dimensions (model g))) = Ok x ->
            exists l, v = JList l /\ Z.of_nat (length l) = dimensions (model g)) as Hv.
  { intros v x (_ & (Hl & _) & l & -> & Hm%mapM_ok%Forall2_length)%validate_vector_inv.
    exists l. split; [done|]. by rewrite Hm. }
  split.
  - unfold same_set in Hs. rewrite andb_true_iff, !forallb_forall in Hs. destruct Hs as [H1 H2].
    intros i. split; intros Hi%list_elem_of_In; apply str_in_elem; auto.
  - constructor; [split; [done|by eapply Hv]|]. apply Forall_fmap. apply mapM_ok in Hc. clear -Hc Hv.
    induction Hc as [|[i v] y l k Hi _ IH]; constructor; [|done]. cbn in *.
    destruct (str_eqb (bound_to v) _) eqn:E; [|done]. apply str_eqb_eq in E. split; [done|].
    apply bind_ok in Hi as (x & Hx & _). by eapply Hv.
Qed.

(** ** The cosine of two accepted vectors *)

Lemma norm_at_least v : f_eq (norm_of v) f_zero = false -> at_least (-537) (norm_of v).
Proof.
  unfold norm_of. intros Hn. assert (representable (f_sum ((fun x => f_mul x x) <$> v))) as [[s Hs]|Hs].
  { apply f_sum_representable, Forall_fmap, Forall_forall. intros x _. apply f_mul_representable. }
  - rewrite Hs in Hn. by destruct s.
  - by apply f_sqrt_at_least.
Qed.

(** Two vectors of the same length, not empty and each with a norm other than zero, have a
    cosine: no square or product underflows so far that the division fails. *)
Theorem cosine_total left right :
  length left = length right -> left <> [] ->
  f_eq (norm_of left) f_zero = false -> f_eq (norm_of right) f_zero = false ->
  exists s, cosine_similarity left right = Ok s.
Proof.
  intros Hl Hne H1 H2. unfold cosine_similarity. rewrite Hl, Nat.eqb_refl, H1, H2. cbn [negb orb].
  destruct (Nat.eqb_spec (length right) 0) as [H0|_].
  { rewrite <-Hl in H0. by apply nil_length_inv in H0. }
  apply f_div_total, (at_least_nonzero (-537 + -537)), f_mul_at_least; [done|by apply norm_at_least..].
Qed.

Lemma good_cosine n left right : (1 <= n)%Z -> good_vector n left -> good_vector n right ->
  exists s, cosine_similarity left right = Ok s.
Proof.
  intros Hn (L1 & _ & N1) (L2 & _ & N2).
  apply cosine_total; [lia| |done..]. intros ->. cbn in L1. lia.
Qed.

(** ** Embeddings *)

Context {P : Type} {prov : Provider P}.

(** A vector as [build_vector] leaves it. *)
Definition bound_well (g : GenerationIdentity) (v : BoundVector) : Prop :=
  bound_to v = generation_id g /\
  exists x, vector_values v = JList (JFloat <$> x) /\ good_vector (dimensions (model g)) x /\
    validate_vector (vector_values v) (JInt (dimensions (model g))) = Ok x.

Lemma build_vector_ok g values v : build_vector g values = Ok v -> bound_well g v.
Proof.
  unfold build_vector. intros (x & Hx & [= <-])%bind_ok. split; [done|]. exists x. split; [done|].
  apply validate_vector_inv in Hx as (Hn & Hx & _). split; [done|by apply validate_again].
Qed.

Lemma bind_documents_ok g documents vectors bound :
  NoDup (node_id <$> documents) -> length vectors = length documents ->
  bind_documents g documents vectors = Ok bound ->
  dkeys bound = node_id <$> documents /\ Forall (bound_well g) (snd <$> bound).
Proof.
  unfold bind_documents. intros Hn Hl Hb.
  assert (foldM (fun acc dv => r ← (v ← build_vector g (snd dv); Ok (node_id (fst dv), v));
            Ok (dset acc (fst r) (snd r))) [] (zip documents vectors) = Ok bound) as Hb'.
  { rewrite <-Hb. clear. generalize (@nil (pystr * BoundVector)).
    induction (zip documents vectors) as [|dv l IH]; intros acc; cbn [foldM]; [done|].
    destruct (build_vector g (snd dv)); [apply IH|done]. }
  apply foldM_collect in Hb' as (rs & Hrs & ->).
  assert (fst <$> rs = node_id <$> documents /\ Forall (bound_well g) (snd <$> rs)) as [Hf Hs].
  { clear Hn Hb. revert vectors Hl Hrs. revert rs. induction documents as [|d ds IH]; intros rs [|v vs] Hl Hrs; try done.
    - by apply Forall2_nil_inv_l in Hrs as ->.
    - cbn in Hrs. apply Forall2_cons_inv_l in Hrs as ([i b] & rs' & Hb & Hrs' & ->).
      apply bind_ok in Hb as (b' & Hb & [= <- <-]). destruct (IH rs' vs) as [H1 H2]; [cbn in Hl; lia|done|].
      cbn. rewrite H1. split; [done|]. constructor; [by eapply build_vector_ok|done]. }
  assert (foldl (fun acc r => dset acc (fst r) (snd r)) [] rs = rs) as ->; [|done].
  rewrite <-Hf in Hn. clear -Hn. change rs with ([] ++ rs) at 2.
  assert (forall acc : dict BoundVector, NoDup (dkeys acc ++ (fst <$> rs)) ->
    foldl (fun acc r => dset acc (fst r) (snd r)) acc rs = acc ++ rs) as H; [|by apply H].
  clear Hn. induction rs as [|[i b] rs IH]; intros acc Ha; cbn; [by rewrite app_nil_r|].
  cbn in Ha. rewrite dset_fresh.
  - rewrite IH; [by rewrite <-app_assoc|]. unfold dkeys in *. by rewrite fmap_app, <-app_assoc.
  - apply NoDup_app in Ha as (_ & Ha & _). intros Hi. destruct (Ha _ Hi). by left.
Qed.

Lemma embed_bound_inv documents queries rev p g dv qv p' :
  embed_bound documents queries rev p = (Ok (g, dv, qv), p') ->
  validate_candidates documents = Ok tt /\
  exists m p1 p2 p3 vs ws,
    provider_identity p = (Ok m, p1) /\ provider_embed (embedding_text <$> documents) p1 = (Ok vs, p2) /\
    provider_embed (query_embedding_text <$> queries) p2 = (Ok ws, p3) /\
    provider_identity p3 = (Ok m, p') /\
    length vs = length documents /\ length ws = length queries /\
    build_generation m rev = Ok g /\ bind_documents g documents vs = Ok dv /\
    mapM (build_vector g) ws = Ok qv.
Proof.
  unfold embed_bound. intros ([] & p0 & [= Hv ->] & H)%eff_bind_inv. split; [done|].
  apply eff_bind_inv in H as (m & p1 & H1 & H). apply eff_bind_inv in H as (vs & p2 & H2 & H).
  apply eff_bind_inv in H as (ws & p3 & H3 & H). apply eff_bind_inv in H as (m' & p4 & H4 & H).
  case_bool_decide as Hm; cbn [negb] in H; [subst m'|done].
  destruct (Nat.eqb_spec (length vs) (length documents)) as [Hl1|]; [|done].
  destruct (Nat.eqb_spec (length ws) (length queries)) as [Hl2|]; [|done]. cbn [negb orb] in H.
  injection H as H <-. apply bind_ok in H as (g' & Hg & H). apply bind_ok in H as (dv' & Hd & H).
  apply bind_ok in H as (qv' & Hq & H). injection H as -> -> ->. by exists m, p1, p2, p3, vs, ws.
Qed.

(** An embedding that succeeds binds one accepted vector to each document, in the order of the
    documents, and one to each query, all to the generation of the model that the provider named
    before and after the measurement. *)
Theorem embed_bound_sound documents queries rev p g dv qv p' :
  embed_bound documents queries rev p = (Ok (g, dv, qv), p') ->
  dkeys dv = node_id <$> documents /\ length qv = length queries /\
  Forall (bound_well g) (qv ++ (snd <$> dv)) /\
  exists m p1 p3, provider_identity p = (Ok m, p1) /\ provider_identity p3 = (Ok m, p') /\
    build_generation m rev = Ok g.
Proof.
  intros (Hv & m & p1 & p2 & p3 & vs & ws & H1 & _ & _ & H4 & Hl1 & Hl2 & Hg & Hd & Hq)%embed_bound_inv.
  apply validate_candidates_ok in Hv as [_ Hn]. destruct (bind_documents_ok _ _ _ _ Hn Hl1 Hd) as [Hk Hw].
  apply mapM_ok in Hq. split_and!; [done|by rewrite <-(Forall2_length _ _ _ Hq)| |by exists m, p1, p3].
  apply Forall_app. split; [|done]. clear -Hq. induction Hq; constructor; [by eapply build_vector_ok|done].
Qed.

Lemma check_candidate_vectors g vectors :
  Forall (bound_well g) (snd <$> vectors) ->
  exists checked, mapM (check_candidate_vector g) vectors = Ok checked /\
    dkeys checked = dkeys vectors /\ Forall (good_vector (dimensions (model g))) (snd <$> checked).
Proof.
  induction vectors as [|[i v] vectors IH]; [by exists []; split_and!; [| |constructor]|].
  intros [[Hb (x & _ & Hg & Hx)] Hv]%Forall_cons. destruct (IH Hv) as (checked & Hc & Hk & Hf).
  exists ((i, x) :: checked). split_and!.
  - apply mapM_ok. constructor; [|by apply mapM_ok]. unfold check_candidate_vector. cbn [snd] in Hb.
    rewrite Hb, str_eqb_refl. cbn [negb]. cbn [snd] in Hx. by rewrite Hx.
  - unfold dkeys in *. cbn. by rewrite Hk.
  - by constructor.
Qed.

Lemma same_set_refl l : same_set l l = true.
Proof.
  unfold same_set. assert (forallb (fun x => str_in x l) l = true) as ->; [|done].
  apply forallb_forall. intros x Hx. apply str_in_elem. by apply list_elem_of_In.
Qed.

(** Vectors of one embedding pass every check of the ranking. *)
Lemma rank_hybrid_total q candidates g query_vector vectors lexical limit cosine margin minimum least ids :
  validate_candidates candidates = Ok tt -> (1 <= limit <= 100)%Z ->
  check_threshold "semantic_minimum_cosine" cosine (-1) 1 = Ok minimum ->
  check_threshold "semantic_minimum_margin" margin 0 2 = Ok least ->
  dkeys vectors = node_id <$> candidates -> Forall (bound_well g) (query_vector :: (snd <$> vectors)) ->
  validate_precomputed_lexical candidates lexical = Ok ids ->
  exists r, rank_hybrid q candidates g query_vector vectors lexical limit cosine margin = Ok r /\
    mode r = "hybrid".
Proof.
  intros Hv Hl Hc Hm Hk [[Hb (x & _ & Hx & Hq)] Hw]%Forall_cons Hi. unfold rank_hybrid. rewrite Hv. cbn [mbind result_bind].
  rewrite (proj2 (check_limit_ok limit) Hl). cbn [mbind result_bind]. rewrite Hc. cbn [mbind result_bind].
  rewrite Hm. cbn [mbind result_bind]. rewrite Hb, str_eqb_refl. cbn [negb]. rewrite Hq. cbn [mbind result_bind].
  rewrite Hk, same_set_refl. cbn [negb]. destruct (check_candidate_vectors _ _ Hw) as (checked & -> & Hck & Hg).
  cbn [mbind result_bind]. rewrite Hi. cbn [mbind result_bind].
  apply validate_vector_inv in Hq as ([Hd _] & _ & _).
  assert (exists semantic, mapM (semantic_entry x checked)
    (List.filter (fun d => negb (str_in (node_id d) ids)) candidates) = Ok semantic) as [semantic ->]; [|by eexists].
  apply mapM_total, Forall_forall. intros d [Hin _]%list_elem_of_In%filter_In.
  apply list_elem_of_In in Hin. unfold semantic_entry.
  assert (node_id d ∈ dkeys checked) as Hid by (rewrite Hck, Hk; by apply list_elem_of_fmap_2).
  destruct (dget checked (node_id d)) as [y|] eqn:Ey; [|by apply dget_None in Ey].
  apply dget_in, (list_elem_of_fmap_2 snd) in Ey. rewrite Forall_forall in Hg. apply Hg in Ey.
  destruct (good_cosine _ _ _ Hd Hx Ey) as [s Hs]. cbn [snd] in Hs. rewrite Hs. by eexists.
Qed.

(** Once the provider has embedded the query and the candidates, the ranking refuses nothing
    but the limit and the lexical ranking it was given. *)
Theorem embedding_always_ranks q candidates rev lexical limit p b p' ids :
  embed_bound candidates [q] rev p = (Ok b, p') -> (1 <= limit <= 100)%Z ->
  validate_precomputed_lexical candidates lexical = Ok ids ->
  exists r, rank_with_provider q candidates rev lexical limit p = (Ok r, p') /\ mode r = "hybrid".
Proof.
  intros He Hl Hi. destruct b as [[g dv] qv]. pose proof He as Hi'. apply embed_bound_inv in Hi'.
  destruct Hi' as (Hv & m & p1 & p2 & p3 & vs & ws & _ & _ & _ & _ & Hl1 & Hl2 & _ & Hd & Hq).
  pose proof (proj1 (validate_candidates_ok _) Hv) as [_ Hn].
  destruct (bind_documents_ok _ _ _ _ Hn Hl1 Hd) as [Hk Hw]. apply mapM_ok in Hq.
  destruct ws as [|w []]; try done. apply Forall2_cons_inv_l in Hq as (v & ? & Hv1 & ->%Forall2_nil_inv_l & ->).
  destruct (rank_hybrid_total q candidates g v dv lexical limit (JFloat SEMANTIC_MINIMUM_COSINE)
    (JFloat SEMANTIC_MINIMUM_MARGIN) SEMANTIC_MINIMUM_COSINE SEMANTIC_MINIMUM_MARGIN ids) as (r & Hr & Hmode);
    [done|lia|done|done|done|by constructor; [eapply build_vector_ok|]|done|].
  exists r. split; [|done]. unfold rank_with_provider.
  erewrite eff_bind_ok; [|unfold try_except; erewrite eff_bind_ok by exact He; done].
  cbn beta iota. unfold pure. by rewrite Hr.
Qed.

(** ** Who may call the provider unavailable *)

(** [e] is the exception of one of the four calls that an embedding makes of its provider, each made
    when those before it have answered. *)
Inductive provider_raised (documents : list SearchDocument) (queries : list SearchQuery) (p : P) (e : exn) (p' : P) : Prop :=
  | names_nobody : provider_identity p = (Err e, p') -> provider_raised documents queries p e p'
  | embeds_no_document m p1 : provider_identity p = (Ok m, p1) ->
      provider_embed (embedding_text <$> documents) p1 = (Err e, p') -> provider_raised documents queries p e p'
  | embeds_no_query m p1 vs p2 : provider_identity p = (Ok m, p1) ->
      provider_embed (embedding_text <$> documents) p1 = (Ok vs, p2) ->
      provider_embed (query_embedding_text <$> queries) p2 = (Err e, p') -> provider_raised documents queries p e p'
  | names_nobody_after m p1 vs p2 ws p3 : provider_identity p = (Ok m, p1) ->
      provider_embed (embedding_text <$> documents) p1 = (Ok vs, p2) ->
      provider_embed (query_embedding_text <$> queries) p2 = (Ok ws, p3) ->
      provider_identity p3 = (Err e, p') -> provider_raised documents queries p e p'.

(** The core itself raises no [ProviderUnavailableError]. *)
Definition never_unavailable {A} (r : result exn A) : Prop :=
  forall e, r = Err e -> issubclass (exn_class e) ProviderUnavailableError = false.
Lemma available_ok {A} (a : A) : never_unavailable (Ok a).
Proof. done. Qed.
Lemma available_raise {A} c m : issubclass c ProviderUnavailableError = false -> never_unavailable (raise (A := A) c m).
Proof. by intros Hc e [= <-]. Qed.
Lemma available_bind {A B} (r : result exn A) (f : A -> result exn B) :
  never_unavailable r -> (forall a, never_unavailable (f a)) -> never_unavailable (r ≫= f).
Proof. intros Hr Hf e. destruct r as [a|x]; [apply Hf|]. intros [= ->]. by apply Hr. Qed.
Lemma available_mapM {A B} (f : A -> result exn B) l : (forall a, never_unavailable (f a)) -> never_unavailable (mapM f l).
Proof. intros Hf e (x & _ & Hx)%mapM_err. by eapply Hf. Qed.
Lemma available_foldM {A B} (f : B -> A -> result exn B) l b :
  (forall b a, never_unavailable (f b a)) -> never_unavailable (foldM f b l).
Proof.
  intros Hf. revert b. induction l as [|a l IH]; intros b; cbn [foldM]; [apply available_ok|]. by apply available_bind.
Qed.

Ltac available :=
  repeat match goal with
  | |- never_unavailable (Ok _) => apply available_ok
  | |- never_unavailable (raise _ _) => by apply available_raise
  | |- never_unavailable (_ ≫= _) => apply available_bind; [|intros]
  | |- never_unavailable (mapM _ _) => apply available_mapM; intros
  | |- never_unavailable (foldM _ _ _) => apply available_foldM; intros
  | |- never_unavailable (match ?x with _ => _ end) => destruct x
  end.

Lemma encode_class s c : utf8_encode s = Err c -> c = UnicodeEncodeError.
Proof.
  induction s as [|x s IH]; cbn [utf8_encode]; [done|].
  destruct (utf8_encode1 x) as [b|c'] eqn:Ex; cbn [mbind result_bind].
  - destruct (utf8_encode s) as [r|c']; [done|]. intros [= ->]. by apply IH.
  - intros [= ->]. unfold utf8_encode1 in Ex. repeat case_match; try done. by injection Ex as <-.
Qed.
Lemma require_text_available v l b : never_unavailable (require_text v l b).
Proof. unfold require_text. available. Qed.
Lemma build_generation_available m rev : never_unavailable (build_generation m rev).
Proof.
  assert (forall s, never_unavailable (encode s)) as He.
  { intros s e. unfold encode. destruct (utf8_encode s) as [b|c] eqn:Es; [done|]. intros [= <-]. cbn [exn_class].
    by apply encode_class in Es as ->. }
  unfold build_generation, new_generation, derive_id.
  repeat ((apply require_text_available) || (apply He) || (progress available)).
Qed.
Lemma build_vector_available g v : never_unavailable (build_vector g v).
Proof.
  assert (forall n, never_unavailable (float_of_number n)) as Hf by (intros n; unfold float_of_number; available).
  assert (forall v, never_unavailable (component v)) as Hc
    by (intros x; unfold component; repeat ((apply Hf) || (progress available))).
  unfold build_vector, validate_vector. repeat ((apply Hc) || (progress available)).
Qed.
Lemma validate_candidates_available l : never_unavailable (validate_candidates l).
Proof. unfold validate_candidates. available. Qed.

Lemma embed_bound_raised documents queries rev p e p' :
  embed_bound documents queries rev p = (Err e, p') -> issubclass (exn_class e) ProviderUnavailableError = true ->
  provider_raised documents queries p e p'.
Proof.
  intros H He. unfold embed_bound in H.
  destruct (validate_candidates documents) as [[]|x] eqn:Hv.
  2:{ injection H as -> ->. pose proof (validate_candidates_available documents e Hv). congruence. }
  rewrite (eff_bind_ok _ _ p tt p) in H by done.
  destruct (provider_identity p) as [[m|x] p1] eqn:H1; [|rewrite (eff_bind_err _ _ _ _ _ H1) in H; injection H as -> ->; by constructor 1].
  rewrite (eff_bind_ok _ _ _ _ _ H1) in H.
  destruct (provider_embed (embedding_text <$> documents) p1) as [[vs|x] p2] eqn:H2;
    [|rewrite (eff_bind_err _ _ _ _ _ H2) in H; injection H as -> ->; by econstructor 2].
  rewrite (eff_bind_ok _ _ _ _ _ H2) in H.
  destruct (provider_embed (query_embedding_text <$> queries) p2) as [[ws|x] p3] eqn:H3;
    [|rewrite (eff_bind_err _ _ _ _ _ H3) in H; injection H as -> ->; by econstructor 3].
  rewrite (eff_bind_ok _ _ _ _ _ H3) in H.
  destruct (provider_identity p3) as [[m'|x] p4] eqn:H4;
    [|rewrite (eff_bind_err _ _ _ _ _ H4) in H; injection H as -> ->; by econstructor 4].
  rewrite (eff_bind_ok _ _ _ _ _ H4) in H. exfalso.
  destruct (negb (bool_decide (m = m'))); [injection H as <- _; discriminate He|].
  destruct (negb (length vs =? _)%nat || _); [injection H as <- _; discriminate He|].
  injection H as H _. revert He. apply not_true_iff_false. revert e H.
  apply available_bind; [apply build_generation_available|intros g].
  apply available_bind.
  - unfold bind_documents. apply available_foldM. intros acc dv. apply available_bind; [apply build_vector_available|done].
  - intros bound. apply available_bind; [|done]. apply available_mapM. apply build_vector_available.
Qed.

(** C24: a lexical fallback happens only when one of the calls of the provider itself raised
    [ProviderUnavailableError], and is then the given lexical ranking, in its order, cut by whatever
    limit was asked for; any other result is a hybrid ranking of a completed embedding under a limit
    from 1 to 100. *)
Theorem fallback_only_when_unavailable q candidates rev lexical limit p r p' :
  rank_with_provider q candidates rev lexical limit p = (Ok r, p') ->
  (exists e ids, provider_raised candidates [q] p e p' /\
     issubclass (exn_class e) ProviderUnavailableError = true /\
     gives lexical ids /\ NoDup ids /\ (forall i, i ∈ ids -> i ∈ node_id <$> candidates) /\
     r = Build_RankingResult (slice_to limit ids) "lexical_fallback" None (Some (exn_msg e))) \/
  (exists g dv v, embed_bound candidates [q] rev p = (Ok (g, dv, [v]), p') /\
     (1 <= limit <= 100)%Z /\ mode r = "hybrid" /\ generation r = Some g).
Proof.
  unfold rank_with_provider. intros (out & p1 & H1 & H2)%eff_bind_inv. unfold try_except in H1.
  destruct (embed_bound candidates [q] rev p) as [[[[g dv] qv]|e] p2] eqn:E.
  - erewrite eff_bind_ok in H1 by exact E. injection H1 as <- <-. right.
    pose proof E as Hi. apply embed_bound_inv in Hi.
    destruct Hi as (_ & m & ? & ? & ? & vs & ws & _ & _ & _ & _ & _ & Hl & _ & _ & Hq).
    apply mapM_ok, Forall2_length in Hq. destruct qv as [|v qv]; [done|]. unfold pure in H2. injection H2 as H2 <-.
    assert (qv = []) as -> by (cbn in *; destruct qv; [done|cbn in *; lia]).
    exists g, dv, v. split; [done|].
    apply rank_hybrid_inv in H2 as (? & ? & ? & ? & ? & ? & _ & Hl' & _ & _ & _ & _ & _ & _ & _ & _ & ->). done.
  - erewrite eff_bind_err in H1 by exact E. destruct (existsb _ _) eqn:Ex; [|done]. left.
    cbn [existsb] in Ex. rewrite orb_false_r in Ex. unfold pure in H1. injection H1 as H1 <-.
    apply bind_ok in H1 as (ids & Hi & [= <-]). injection H2 as <- <-. exists e, ids.
    split; [by eapply embed_bound_raised|]. split; [done|]. by destruct (precomputed_ok _ _ _ Hi) as (? & ? & ?).
Qed.

(** ** Generation identities *)

Lemma require_text_ok v l b s : require_text v l b = Ok s -> v = JStr s.
Proof. unfold require_text. destruct v; try done. repeat case_match; try done. by intros [= ->]. Qed.

Lemma payload_inj m m' r r' : norm (identity_payload m r) = norm (identity_payload m' r') -> m = m' /\ r = r'.
Proof.
  intros H. destruct m as [p1 p2 p3 p4 d], m' as [q1 q2 q3 q4 d']. vm_compute in H. by injection H as -> -> -> -> -> ->.
Qed.

(** A generation id names one model and one document revision: two different pairs under one
    id are two payload texts with the same SHA-256 digest. *)
Theorem generation_id_binds m m' rev rev' gid :
  derive_id m rev = Ok gid -> derive_id m' rev' = Ok gid ->
  m = m' /\ rev = rev' \/
  exists r r' b b', rev = JStr r /\ rev' = JStr r' /\ encode (canonical_json (identity_payload m r)) = Ok b /\
    encode (canonical_json (identity_payload m' r')) = Ok b' /\ b <> b' /\ sha256_hex b = sha256_hex b'.
Proof.
  unfold derive_id.
  intros (r & Hr & (b & Hb & [= <-])%bind_ok)%bind_ok (r' & Hr' & (b' & Hb' & [= E])%bind_ok)%bind_ok.
  apply require_text_ok in Hr as ->, Hr' as ->. symmetry in E.
  destruct (decide (b = b')) as [<-|Hne]; [left|right; by exists r, r', b, b'].
  pose proof (encode_inj _ _ _ Hb Hb') as Hc. apply canonical_json_inj in Hc; [|done..].
  by apply payload_inj in Hc as [-> ->].
Qed.

(** An accepted identity is tamper-evident: the id of a generation is the one derived from its
    model and revision, under the revisions of this core. *)
Theorem generation_id_derived gid m rev norm rank g :
  new_generation gid m rev norm rank = Ok g ->
  gid = JStr (generation_id g) /\ derive_id m rev = Ok (generation_id g) /\ model g = m /\
  rev = JStr (document_revision g) /\ norm = JStr NORMALIZATION_REVISION /\ rank = JStr RANKING_REVISION.
Proof.
  unfold new_generation. intros (r & Hr & H)%bind_ok. apply require_text_ok in Hr as ->.
  destruct (py_eq norm _) eqn:E1; [|done]. destruct (py_eq rank _) eqn:E2; [|done]. cbn [negb] in H.
  apply bind_ok in H as (x & Hx & H). destruct (py_eq gid (JStr x)) eqn:E3; [|done]. injection H as <-.
  apply py_eq_str in E1 as ->, E2 as ->, E3 as ->. done.
Qed.

(** ** A query without a word *)

(** A query whose text has no word character (say one exclamation mark) is not refused: it is a
    title prefix of every document, so that the lexical ranking returns them all. *)
Theorem wordless_query_matches_all q d :
  normalize_text (text q) = [] ->
  exists s, lexical_signal q d = Ok (Some s) /\ (rank_class s <= RANK_TITLE_PREFIX)%Z.
Proof.
  intros Hq. unfold lexical_signal. rewrite Hq. destruct (str_eqb _ _); [by eexists|].
  destruct (str_in _ _); [by eexists|]. by eexists.
Qed.

(** ** Personal data *)

(** [local@label.label], begun and ended at the edge of a word. *)
Definition email_shape (t : pystr) : Prop :=
  exists a l d e b, t = a ++ l ++ 64%N :: d ++ 46%N :: e ++ b /\
    l <> [] /\ d <> [] /\ e <> [] /\
    Forall (fun c => local_char c = true) l /\ Forall (fun c => label_char c = true) (d ++ e) /\
    word_at (last a) <> word_at (head l) /\ word_at (last e) <> word_at (head b).
(** Four decimal numbers below 256, with neither digit nor dot around them. *)
Definition ipv4_shape (t : pystr) : Prop :=
  exists a b w x y z, t = a ++ show_nat w ++ 46%N :: show_nat x ++ 46%N :: show_nat y ++ 46%N :: show_nat z ++ b /\
    Forall (fun n => (n < 256)%nat) [w; x; y; z] /\
    (forall c, last a = Some c -> digit_or_dot c = false) /\
    (forall c, head b = Some c -> digit_or_dot c = false).

Lemma email_found t : email_shape t -> search EMAIL_LIKE t = true.
Proof.
  intros (a & l & d & e & b & -> & Hl & Hd & He & Fl & [Fd Fe]%Forall_app & E1 & E2). apply search_spec; [done|].
  exists a, (l ++ 64%N :: d ++ 46%N :: e ++ b), (Spot (last e) b). split; [done|].
  eexists. split; [split; [|done]; by destruct l|]. eexists. split; [by apply some_class|].
  eexists. split; [by apply one_char|]. eexists. split; [by apply some_class|].
  exists (Spot (last e) b). split; [|by split]. exists 0%nat. apply nsteps_once. eexists.
  split; [by apply one_char|by apply some_class].
Qed.

(** The decimal texts of an octet, by their digits. *)
Definition octet_text (l : pystr) : bool :=
  match l with
  | [a] => ascii_digit a
  | [a; b] => ascii_digit a && ascii_digit b
  | [a; b; c] =>
      ((a =? 49) && ascii_digit b && ascii_digit c ||
       (a =? 50) && (in_range 48 52 b && ascii_digit c || (b =? 53) && in_range 48 53 c))%N
  | _ => false
  end.

Lemma octet_texts n : (n < 256)%nat -> octet_text (show_nat n) = true.
Proof.
  intros Hn. assert (forallb (fun n => octet_text (show_nat n)) (seq 0 256) = true) as H by by vm_compute.
  rewrite forallb_forall in H. apply H, in_seq. lia.
Qed.

Lemma ascii_digit_digit c : ascii_digit c = true -> is_digit c = true.
Proof.
  intros H1. unfold is_digit. assert (is_ascii c = true) as ->; [|done].
  unfold ascii_digit, in_range, is_ascii in *. apply andb_true_iff in H1 as [_ ?%N.leb_le]. apply N.ltb_lt. lia.
Qed.

Lemma octet_found l o t : octet_text l = true -> matches OCTET (Spot o (l ++ t)) (Spot (last l) t).
Proof.
  destruct l as [|a [|b [|c []]]]; try done; cbn [octet_text]; intros Hl.
  - right. right. eexists. split; [apply times_zero|]. eexists. split; [apply times_zero|].
    by apply one_char, ascii_digit_digit.
  - apply andb_true_iff in Hl as [Ha Hb]. right. right. eexists. split; [apply times_zero|].
    eexists. split; [by apply times_one, one_char, ascii_digit_digit|by apply one_char, ascii_digit_digit].
  - rewrite !orb_true_iff, !andb_true_iff, orb_true_iff, !andb_true_iff, !N.eqb_eq in Hl.
    destruct Hl as [[[-> Hb] Hc]|[-> [[Hb Hc]|[-> Hc]]]].
    + right. right. eexists. split; [by apply times_one, one_char|].
      eexists. split; [by apply times_one, one_char, ascii_digit_digit|by apply one_char, ascii_digit_digit].
    + right. left. eexists. split; [eexists; split; [by apply one_char|apply times_zero]|].
      eexists. split; [by apply one_char|by apply one_char, ascii_digit_digit].
    + left. eexists. split; [|by apply one_char]. eexists. split; [by apply one_char|].
      eexists. split; [by apply one_char|apply times_zero].
Qed.

Lemma ipv4_found t : ipv4_shape t -> search IPV4_LIKE t = true.
Proof.
  intros (a & b & w & x & y & z & -> & Hn & Ha & Hb). apply search_spec; [done|].
  rewrite !Forall_cons in Hn. destruct Hn as (Hw & Hx & Hy & Hz & _).
  eexists a, _, (Spot (last (show_nat z)) b). split; [done|].
  eexists. split; [by split|]. eexists. split; [by apply octet_found, octet_texts|].
  exists (Spot (last (show_nat z)) b). split; [|by split].
  exists 3%nat. split; [lia|].
  assert (forall n o t, (n < 256)%nat ->
    matches (Cat (One (N.eqb 46)) OCTET) (Spot o (46%N :: show_nat n ++ t)) (Spot (last (show_nat n)) t)) as Hdot.
  { intros n o t Hn. eexists. split; [by apply one_char|by apply octet_found, octet_texts]. }
  econstructor; [by apply Hdot|]. econstructor; [by apply Hdot|]. econstructor; [by apply Hdot|constructor].
Qed.

Lemma rejects_personal texts label : reject_personal_data texts label = Ok tt ->
  Forall (fun t => ~ email_shape t /\ ~ ipv4_shape t) texts.
Proof.
  unfold reject_personal_data. intros H%forM_ok. eapply Forall_impl; [exact H|]. cbv beta. intros t Ht. split.
  - intros He%email_found. by rewrite He in Ht.
  - intros Hi%ipv4_found. destruct (search EMAIL_LIKE t), (search PHONE_LIKE t); try done. by rewrite Hi in Ht.
Qed.

(** A document that is accepted has its required texts, between 1 and 32 tags, is declared
    synthetic, and none of its texts holds an e-mail address or a dotted IPv4 address. *)
Theorem accepted_document_private nid t s b ts k l pc pd d :
  new_document nid t s b (Tuple ts) k l pc pd = Ok d ->
  pc = JStr "synthetic" /\ pd = JBool false /\ ts = JStr <$> tags d /\ (1 <= length (tags d) <= 32)%nat /\
  nid = JStr (node_id d) /\ t = JStr (title d) /\
  Forall (fun x => (Z.of_nat (length x) <= MAX_TEXT_CHARACTERS)%Z /\ ~ email_shape x /\ ~ ipv4_shape x)
    ([node_id d; title d; summary d; body d] ++ tags d ++ [kind d; language d]).
Proof.
  unfold new_document.
  intros (n' & Hn & (t' & Ht & (s' & Hs & (b' & Hb & (k' & Hk & (l' & Hl & H)%bind_ok)%bind_ok)%bind_ok)%bind_ok)%bind_ok)%bind_ok.
  destruct (py_eq pc _) eqn:Ep; [|done]. apply py_eq_str in Ep as ->. cbn [negb orb] in H.
  destruct pd as [|[]| | | | |]; try done. destruct (Nat.eqb_spec (length ts) 0), (Nat.ltb_spec 32 (length ts)); try done.
  cbn [orb] in H. apply bind_ok in H as (tl & Htl & ([] & Hp & [= <-])%bind_ok). cbn.
  assert (forall v lb e x, require_text v lb e = Ok x -> v = JStr x /\ (Z.of_nat (length x) <= MAX_TEXT_CHARACTERS)%Z) as Hr.
  { intros v lb e x Hx. split; [by eapply require_text_ok|]. unfold require_text in Hx. destruct v; try done.
    destruct (negb e && _); [done|]. destruct (Z.ltb_spec MAX_TEXT_CHARACTERS (Z.of_nat (length s0))); [done|]. by injection Hx as <-. }
  apply mapM_ok in Htl. pose proof (Forall2_length _ _ _ Htl) as Hlen.
  assert (ts = JStr <$> tl /\ Forall (fun x => (Z.of_nat (length x) <= MAX_TEXT_CHARACTERS)%Z) tl) as [Hts Htm].
  { clear -Htl Hr. induction Htl as [|v x ts tl Hv _ [-> IH]]; [by split|]. apply Hr in Hv as [-> Hv]. split; [done|by constructor]. }
  apply Hr in Hn as [-> ?], Ht as [-> ?], Hs as [-> ?], Hb as [-> ?], Hk as [-> ?], Hl as [-> ?].
  split_and!; try done; [lia|lia|]. apply rejects_personal in Hp. apply Forall_and. split; [|done].
  repeat (apply Forall_cons; split; [done|]). apply Forall_app. split; [done|]. by repeat constructor.
Qed.
End proofs.

(** ** Examples *)

Module Examples.
#[local] Existing Instance ascii_host.
#[local] Existing Instance insertion_sort.

Definition document (i t : string) : SearchDocument :=
  Build_SearchDocument i t "synthetische Beschreibung" "synthetischer Text" [lit "synthetisch"] "Knoten" "de"
    "synthetic" false.
Definition candidates : list SearchDocument :=
  [document "a" "Alpha"; document "b" "Beta"; document "c" "Alphabet"].
Definition query : SearchQuery := Build_SearchQuery "Alpha" "synthetic" false.
Definition a_model : ModelIdentity := Build_ModelIdentity "local:test" "m" "r1" "rt" 2.

(** A provider that puts every text with [Alpha] on the first axis, [Beta] near it. *)
#[local] Instance axis_provider : Provider nat := {|
  provider_identity := fun n => (Ok a_model, S n);
  provider_embed texts := fun n =>
    (Ok ((fun t => if contains "Alpha" t then JList [JInt 1; JInt 0]
                   else JList [JFloat (f_of_Z 3); JInt 1]) <$> texts), S n) |}.
(** One that is down, and one that breaks its contract. *)
Definition down_provider (c : exc_class) : Provider nat := {|
  provider_identity := fun n => (raise c "no model", S n);
  provider_embed _ := fun n => (Ok [], n) |}.

Definition run (lexical : json) (limit : Z) : result exn RankingResult :=
  fst (rank_with_provider query candidates (JStr "v1") lexical limit 0%nat).
Definition names (r : result exn RankingResult) : result exn (list pystr) :=
  match r with Ok r => Ok (ranked_node_ids r) | Err e => Err e end.

(** The best of the others is appended only with a margin; a limit cuts. *)
Example run_all : names (run (JList [JStr "a"; JStr "c"]) 10) = Ok [lit "a"; lit "c"; lit "b"].
Proof. by vm_compute. Qed.
Example run_best : names (run (JList [JStr "a"]) 10) = Ok [lit "a"; lit "c"].
Proof. by vm_compute. Qed.
Example run_tie : names (run (JList []) 10) = Ok [].
Proof. by vm_compute. Qed.
Example run_unknown : is_ok (run (JList [JStr "x"]) 10) = false.
Proof. by vm_compute. Qed.
(** The hybrid path checks the limit; the fallback slices by it, whatever it is. *)
Example run_limit : is_ok (run (JList [JStr "a"]) (-1)) = false.
Proof. by vm_compute. Qed.
Example fallback_limit :
  names (fst (@rank_with_provider _ insertion_sort nat (down_provider ProviderUnavailableError) query candidates
     (JStr "v1") (JList [JStr "a"; JStr "c"; JStr "b"]) (-1) 0%nat)) = Ok [lit "a"; lit "c"].
Proof. by vm_compute. Qed.
Example boundary_error :
  is_ok (fst (@rank_with_provider _ insertion_sort nat (down_provider ProviderBoundaryError) query candidates
     (JStr "v1") (JList [JStr "a"]) 10 0%nat)) = false.
Proof. by vm_compute. Qed.
(** A query without a word ranks every document. *)
Example wordless : names (rank_lexical (Build_SearchQuery "!" "synthetic" false) candidates 10) = Ok [lit "a"; lit "b"; lit "c"].
Proof. by vm_compute. Qed.

(** A vector whose squares overflow passes validation; its cosine is not a number. *)
Definition huge : float := S754_finite false (2 ^ 52) 648.
Example overflowing_vector_nan :
  is_ok (validate_vector (JList [JFloat huge; JInt 0]) (JInt 2)) = true /\
  match cosine_similarity [huge; f_of_Z 0] [huge; f_of_Z 0] with Ok s => is_nan s | Err _ => false end = true.
Proof. by vm_compute. Qed.

Definition a_generation : GenerationIdentity :=
  Build_GenerationIdentity "g" a_model "v1" NORMALIZATION_REVISION RANKING_REVISION.
Definition vector (l : list Z) : BoundVector := Build_BoundVector "g" (JList (JInt <$> l)).
Definition vectors : dict BoundVector :=
  [(lit "a", vector [1; 0]%Z); (lit "b", vector [3; 1]%Z); (lit "c", vector [0; 1]%Z)].
Definition hybrid : result exn RankingResult :=
  rank_hybrid query candidates a_generation (vector [1; 0]%Z) vectors (JList [JStr "a"]) 10
    (JFloat SEMANTIC_MINIMUM_COSINE) (JFloat SEMANTIC_MINIMUM_MARGIN).
Definition hybrid_result : RankingResult :=
  Build_RankingResult [lit "a"; lit "b"] "hybrid" (Some a_generation) None.

Lemma hybrid_extends_lexical_witness :
  hybrid = Ok hybrid_result /\
  exists ids extra, gives (JList [JStr "a"]) ids /\ ranked_node_ids hybrid_result = take 10 (ids ++ extra) /\
    (length extra <= 1)%nat /\ NoDup (ids ++ extra).
Proof.
  assert (hybrid = Ok hybrid_result) as H by (vm_compute; reflexivity). split; [exact H|].
  unfold hybrid in H.
  destruct (hybrid_extends_lexical _ _ _ _ _ _ _ _ _ _ H) as (ids & extra & H0 & H1 & H2 & H3 & _).
  exists ids, extra. exact (conj H0 (conj H2 (conj H1 H3))).
Defined.

Lemma hybrid_one_generation_witness :
  hybrid = Ok hybrid_result /\ forall i, i ∈ dkeys vectors <-> i ∈ node_id <$> candidates.
Proof.
  assert (hybrid = Ok hybrid_result) as H by (vm_compute; reflexivity). split; [exact H|].
  unfold hybrid in H.
  exact (proj1 (hybrid_one_generation _ _ _ _ _ _ _ _ _ _ H)).
Defined.

Definition scores : list (float * pystr) := [(nat_div 1 2, lit "x"); (nat_div 3 4, lit "y"); (nat_div 1 4, lit "z")].
Lemma semantic_choice_exact_witness :
  exists s rest x, scores ≡ₚ (s, lit "y") :: rest /\ beats s (lit "y") rest /\ runner_up rest x /\
    f_le SEMANTIC_MINIMUM_COSINE s = true /\ f_le SEMANTIC_MINIMUM_MARGIN (f_sub s x) = true.
Proof.
  apply (semantic_choice_exact SEMANTIC_MINIMUM_COSINE SEMANTIC_MINIMUM_MARGIN scores (lit "y")).
  - by repeat constructor.
  - by_compute.
  - by vm_compute.
Defined.

Definition lexical_result : RankingResult := Build_RankingResult [lit "a"; lit "c"] "lexical" None None.
Lemma rank_lexical_sorted_witness :
  exists ordered, ranked_node_ids lexical_result = take 10 (entry_id <$> ordered) /\
    sorted_by (not_after triple_lt) ordered.
Proof.
  assert (rank_lexical query candidates 10 = Ok lexical_result) as H by (vm_compute; reflexivity).
  destruct (rank_lexical_sorted _ _ _ _ H) as (l & H1 & H2 & _).
  exists l. exact (conj H1 H2).
Defined.
Lemma rank_lexical_order_free_witness : rank_lexical query (rev candidates) 10 = Ok lexical_result.
Proof.
  apply (rank_lexical_order_free query candidates (rev candidates) 10 lexical_result).
  - symmetry. apply Permutation_rev.
  - vm_compute. reflexivity.
Defined.

Lemma embedding_always_ranks_witness :
  exists r, rank_with_provider query candidates (JStr "v1") (JList [JStr "a"]) 10 0%nat = (Ok r, 4%nat) /\
    mode r = "hybrid".
Proof.
  assert (exists b, embed_bound candidates [query] (JStr "v1") 0%nat = (Ok b, 4%nat)) as [b Hb]
    by (eexists; vm_compute; reflexivity).
  apply (embedding_always_ranks query candidates (JStr "v1") (JList [JStr "a"]) 10 0%nat b 4%nat [lit "a"]).
  - exact Hb.
  - lia.
  - vm_compute. reflexivity.
Defined.

Lemma fallback_only_when_unavailable_witness :
  exists r, names (Ok r) = Ok [lit "a"; lit "c"] /\
  ((exists e ids, @provider_raised nat (down_provider ProviderUnavailableError) candidates [query] 0%nat e 1%nat /\
     issubclass (exn_class e) ProviderUnavailableError = true /\
     gives (JList [JStr "a"; JStr "c"; JStr "b"]) ids /\ NoDup ids /\ (forall i, i ∈ ids -> i ∈ node_id <$> candidates) /\
     r = Build_RankingResult (slice_to (-1) ids) "lexical_fallback" None (Some (exn_msg e))) \/
   (exists g dv v, @embed_bound _ nat (down_provider ProviderUnavailableError) candidates [query] (JStr "v1") 0%nat
      = (Ok (g, dv, [v]), 1%nat) /\ (1 <= -1 <= 100)%Z /\ mode r = "hybrid" /\ generation r = Some g)).
Proof.
  exists (Build_RankingResult [lit "a"; lit "c"] "lexical_fallback" None (Some (lit "no model"))). split; [done|].
  apply (@fallback_only_when_unavailable _ insertion_sort nat (down_provider ProviderUnavailableError) query candidates
    (JStr "v1") (JList [JStr "a"; JStr "c"; JStr "b"]) (-1) 0%nat).
  vm_compute. reflexivity.
Defined.

Lemma cosine_total_witness :
  exists s, cosine_similarity [f_of_Z 3; f_of_Z 4] [f_of_Z 1; f_of_Z 0] = Ok s.
Proof. apply cosine_total; [done|done|vm_compute; reflexivity|vm_compute; reflexivity]. Defined.

Definition an_id : pystr :=
  match derive_id a_model (JStr "v1") with Ok i => i | Err _ => [] end.


Definition a_document : SearchDocument :=
  Build_SearchDocument "n" "Werkstatt" "" "Version 1.2.3 am Tor" [lit "Hilfe"] "Ort" "de" "synthetic" false.
Lemma accepted_document_private_witness :
  JStr "synthetic" = JStr "synthetic" /\ Forall (fun x => ~ email_shape x /\ ~ ipv4_shape x) [body a_document].
Proof.
  destruct (accepted_document_private (JStr "n") (JStr "Werkstatt") (JStr "") (JStr "Version 1.2.3 am Tor") [JStr "Hilfe"]
    (JStr "Ort") (JStr "de") (JStr "synthetic") (JBool false) a_document) as (Hp & _ & _ & _ & _ & _ & Hf);
    [vm_compute; reflexivity|].
  split; [exact Hp|]. apply Forall_cons. split; [|apply Forall_nil; exact I].
  exact (proj2 (proj1 (Forall_forall _ _) Hf (body a_document) ltac:(do 3 right; left))).
Defined.
End Examples.
