(* ===== verification/JsonContract.v ===== *)
(** * Agent contracts: strict JSON loading and schema validation

    scripts/agent/json_contract.py: the object hook that rejects duplicate keys, the check that a
    schema uses only the supported Draft-07 keywords, and the validator of one instance.  Python's
    call stack is the fuel: a call that finds none left raises [RecursionError]. *)

From S2P Require Import Prelude PyStr Json JsonText.

Section json_contract.
Context `{PyHost}.

Definition DuplicateKeyError : exc_class := Sub "DuplicateKeyError" ValueError.
Definition UnsupportedSchemaError : exc_class := Sub "UnsupportedSchemaError" RuntimeError.

Definition ANNOTATION_KEYS : list pystr :=
  [lit "$schema"; lit "$id"; lit "title"; lit "description"; lit "default"; lit "examples"].
Definition ASSERTION_KEYS : list pystr :=
  [lit "$ref"; lit "allOf"; lit "type"; lit "required"; lit "additionalProperties";
   lit "properties"; lit "definitions"; lit "enum"; lit "minLength"; lit "maxLength";
   lit "pattern"; lit "minItems"; lit "maxItems"; lit "uniqueItems"; lit "items";
   lit "additionalItems"].
Definition SUPPORTED_KEYS : list pystr := ANNOTATION_KEYS ++ ASSERTION_KEYS.
Definition SUPPORTED_TYPES : list pystr :=
  [lit "object"; lit "array"; lit "string"; lit "boolean"; lit "null"].

(** ** Strict loading *)

Fixpoint strict_object_from (result : dict json) (pairs : list (pystr * json))
    : Prelude.result exn (dict json) :=
  match pairs with
  | [] => Ok result
  | (key, value) :: pairs' =>
      if dmem result key then raise DuplicateKeyError (lit "duplicate JSON key: " ++ key)
      else strict_object_from (dset result key value) pairs'
  end.
Definition strict_object (pairs : list (pystr * json)) : result exn (dict json) :=
  strict_object_from [] pairs.

(** ** References *)

Definition unescape_token (token : pystr) : pystr :=
  replace "~0" "~" (replace "~1" "/" token).

Fixpoint pointer_walk (ref : pystr) (current : json) (tokens : list pystr) : result exn json :=
  match tokens with
  | [] => Ok current
  | token :: tokens' =>
      match current with
      | JObj d =>
          match dget d (unescape_token token) with
          | Some next => pointer_walk ref next tokens'
          | None => raise UnsupportedSchemaError (lit "unresolvable schema reference: " ++ ref)
          end
      | _ => raise UnsupportedSchemaError (lit "unresolvable schema reference: " ++ ref)
      end
  end.

Definition pointer (root : json) (ref : pystr) : result exn json :=
  if startswith "#/" ref then
    current ← pointer_walk ref root (split_on 47 (drop 2 ref));
    if is_dict current then Ok current
    else raise UnsupportedSchemaError
           (lit "schema reference does not resolve to an object: " ++ ref)
  else raise UnsupportedSchemaError (lit "only local JSON pointers are supported: " ++ ref).

(** ** Supported schemas *)

(** [x in S] for a set of strings: a list or a dict has no hash. *)
Definition in_string_set (v : json) (s : list pystr) : result exn bool :=
  match v with
  | JStr x => Ok (str_in x s)
  | JList _ => raise TypeError "unhashable type: 'list'"
  | JObj _ => raise TypeError "unhashable type: 'dict'"
  | _ => Ok false
  end.

Definition guard (c : bool) (m : pystr) : result exn unit :=
  if c then raise UnsupportedSchemaError m else Ok tt.

Definition check_type_keyword (path : pystr) (schema : json) : result exn unit :=
  let expected_type := get schema "type" in
  if is_none expected_type then Ok tt
  else ok ← in_string_set expected_type SUPPORTED_TYPES;
       guard (negb ok) (path ++ lit ".type is unsupported: " ++ to_str expected_type).

Definition check_count_keyword (path : pystr) (schema : json) (keyword : pystr)
    : result exn unit :=
  match get schema keyword with
  | JNull => Ok tt
  | JInt z => guard (z <? 0)%Z (path ++ lit "." ++ keyword ++ lit " must be a non-negative integer")
  | _ => guard true (path ++ lit "." ++ keyword ++ lit " must be a non-negative integer")
  end.

Definition check_pattern_keyword (path : pystr) (schema : json) : result exn unit :=
  match get schema "pattern" with
  | JNull => Ok tt
  | JStr pattern =>
      match host_re pattern with
      | Ok _ => Ok tt
      | Err exc => raise UnsupportedSchemaError (path ++ lit ".pattern is invalid: " ++ exc)
      end
  | _ => raise UnsupportedSchemaError (path ++ lit ".pattern must be a string")
  end.

(** The keywords whose value is not itself a schema, in the order of the source. *)
Definition check_keywords (path : pystr) (schema : json) (keys : list pystr) : result exn unit :=
  let unknown := sort_str (List.filter (fun k => negb (str_in k SUPPORTED_KEYS)) keys) in
  guard (0 <? length unknown)%nat
    (path ++ lit ": unsupported schema keyword(s): " ++ join ", " unknown) ;;
  (let ref := get schema "$ref" in
   guard (negb (is_none ref) && negb (is_str ref)) (path ++ lit ".$ref must be a string")) ;;
  check_type_keyword path schema ;;
  (let required := get schema "required" in
   guard (negb (is_none required) &&
          match required with JList l => existsb (fun item => negb (is_str item)) l | _ => true end)
     (path ++ lit ".required must be an array of strings")) ;;
  (let additional := get schema "additionalProperties" in
   guard (negb (is_none additional) && negb (is_bool additional))
     (path ++ lit ".additionalProperties must be boolean")) ;;
  (let enum := get schema "enum" in
   guard (negb (is_none enum) && negb (is_list enum)) (path ++ lit ".enum must be an array")) ;;
  forM_ (check_count_keyword path schema)
    [lit "minLength"; lit "maxLength"; lit "minItems"; lit "maxItems"] ;;
  check_pattern_keyword path schema ;;
  (let unique_items := get schema "uniqueItems" in
   guard (negb (is_none unique_items) && negb (is_bool unique_items))
     (path ++ lit ".uniqueItems must be boolean")).

Definition index_path (path name : pystr) (i : nat) : pystr :=
  path ++ name ++ lit "[" ++ show_nat i ++ lit "]".

Fixpoint ensure_supported_schema (stack : nat) (schema : json) (path : pystr) {struct stack}
    : result exn unit :=
  match stack with
  | O => raise RecursionError "maximum recursion depth exceeded"
  | S stack' =>
      let ensure_named (what : pystr) (d : dict json) :=
        forM_ (fun nc => ensure_supported_schema stack' (snd nc) (path ++ what ++ fst nc)) d in
      let ensure_indexed (what : pystr) (l : list json) :=
        forM_ (fun ic => ensure_supported_schema stack' (snd ic) (index_path path what (fst ic)))
          (enumerate l) in
      match schema with
      | JObj entries =>
          check_keywords path schema (dkeys entries) ;;
          match get schema "properties" with
          | JNull => Ok tt
          | JObj properties => ensure_named ".properties." properties
          | _ => raise UnsupportedSchemaError (path ++ lit ".properties must be an object")
          end ;;
          match get schema "definitions" with
          | JNull => Ok tt
          | JObj definitions => ensure_named ".definitions." definitions
          | _ => raise UnsupportedSchemaError (path ++ lit ".definitions must be an object")
          end ;;
          match get schema "items" with
          | JNull => Ok tt
          | JObj items => ensure_supported_schema stack' (JObj items) (path ++ lit ".items")
          | JList items => ensure_indexed ".items" items
          | _ => raise UnsupportedSchemaError
                   (path ++ lit ".items must be an object or an array of schema objects")
          end ;;
          (let additional_items := get schema "additionalItems" in
           guard (negb (is_none additional_items) && negb (is_bool additional_items))
             (path ++ lit ".additionalItems must be boolean")) ;;
          match get schema "allOf" with
          | JNull => Ok tt
          | JList all_of => ensure_indexed ".allOf" all_of
          | _ => raise UnsupportedSchemaError (path ++ lit ".allOf must be an array")
          end
      | _ => raise UnsupportedSchemaError (path ++ lit ": schema node must be an object")
      end
  end.

(** ** Instances *)

(** A violation: its JSON path and its message. *)
Definition finding : Type := pystr * pystr.

Definition type_matches (instance : json) (expected : pystr) : result exn bool :=
  if str_eqb expected "object" then Ok (is_dict instance)
  else if str_eqb expected "array" then Ok (is_list instance)
  else if str_eqb expected "string" then Ok (is_str instance)
  else if str_eqb expected "boolean" then Ok (is_bool instance)
  else if str_eqb expected "null" then Ok (is_none instance)
  else raise UnsupportedSchemaError (lit "unsupported schema type: " ++ expected).

(** [for x in v], [k in v] and [v[k]] where [v] came out of a supported schema. *)
Definition iterate (v : json) : result exn (list json) :=
  match v with
  | JList l => Ok l
  | _ => raise TypeError (lit "'NoneType' object is not iterable")
  end.
Definition as_mapping (v : json) : result exn (dict json) :=
  match v with
  | JObj d => Ok d
  | _ => raise TypeError (lit "argument of type 'NoneType' is not iterable")
  end.
(** [schema.get(k, fallback)] *)
Definition get_default (schema : json) (k : pystr) (fallback : json) : json :=
  match schema with JObj d => default fallback (dget d k) | _ => fallback end.

Definition str_of (v : json) : pystr := match v with JStr s => s | _ => [] end.

(** [len(x) < n] and [len(x) > n] against an optional bound. *)
Definition below (len : nat) (bound : json) : bool :=
  match bound with JInt z => (Z.of_nat len <? z)%Z | _ => false end.
Definition above (len : nat) (bound : json) : bool :=
  match bound with JInt z => (z <? Z.of_nat len)%Z | _ => false end.

(** [uniqueItems]: one finding per item whose canonical text was seen before. *)
Fixpoint duplicate_items (path : pystr) (seen : list pystr) (items : list (nat * json))
    : list finding :=
  match items with
  | [] => []
  | (index, value) :: items' =>
      let canonical := canonical_json value in
      (if str_in canonical seen
       then [(index_path path [] index, lit "duplicate array item")] else []) ++
      duplicate_items path (canonical :: seen) items'
  end.

Definition list_size_findings (path : pystr) (schema : json) (len : nat) : list finding :=
  let min_items := get schema "minItems" in
  let max_items := get schema "maxItems" in
  (if below len min_items
   then [(path, lit "must contain at least " ++ repr min_items ++ lit " item(s)")] else []) ++
  (if above len max_items
   then [(path, lit "must contain at most " ++ repr max_items ++ lit " item(s)")] else []).

Definition string_findings (path : pystr) (schema : json) (s : pystr) : list finding :=
  let min_length := get schema "minLength" in
  let max_length := get schema "maxLength" in
  (if below (length s) min_length
   then [(path, lit "length must be at least " ++ repr min_length)] else []) ++
  (if above (length s) max_length
   then [(path, lit "length must be at most " ++ repr max_length)] else []) ++
  match get schema "pattern" with
  | JStr pattern =>
      match host_re pattern with
      | Ok search => if search s then [] else [(path, lit "value does not match pattern " ++ pattern)]
      | Err _ => []
      end
  | _ => []
  end.

(** [{(path, message): finding}] in key order: sorted and without repetition. *)
Definition finding_leb (x y : finding) : bool :=
  if str_eqb (fst x) (fst y) then str_leb (snd x) (snd y) else str_leb (fst x) (fst y).
Definition finding_eqb (x y : finding) : bool :=
  str_eqb (fst x) (fst y) && str_eqb (snd x) (snd y).
Fixpoint dedup_findings (l : list finding) : list finding :=
  match l with
  | [] => []
  | x :: l' => if existsb (finding_eqb x) l' then dedup_findings l' else x :: dedup_findings l'
  end.
Definition sorted_unique (l : list finding) : list finding :=
  sort_by finding_leb (dedup_findings l).

(** Concatenate the findings of a loop whose body may raise. *)
Fixpoint gather {A} (f : A -> result exn (list finding)) (l : list A)
    : result exn (list finding) :=
  match l with
  | [] => Ok []
  | x :: l' => a ← f x; b ← gather f l'; Ok (a ++ b)
  end.

(** The parts of one call, over the recursive call [recur instance schema path]. *)
Section parts.
Context (recur : json -> json -> pystr -> result exn (list finding)).

Definition ref_findings (root instance schema : json) (path : pystr)
    : result exn (list finding) :=
  match get schema "$ref" with
  | JStr ref => target ← pointer root ref; recur instance target path
  | _ => Ok []
  end.

Definition all_of_findings (instance schema : json) (path : pystr) : result exn (list finding) :=
  children ← iterate (get_default schema "allOf" (JList []));
  gather (fun child => recur instance child path) children.

Definition enum_findings (instance schema : json) (path : pystr) : list finding :=
  match get schema "enum" with
  | JList values =>
      if py_in instance values then []
      else [(path, lit "value must be one of " ++ repr (JList values))]
  | _ => []
  end.

Definition key_findings (schema : json) (path : pystr) (kv : pystr * json)
    : result exn (list finding) :=
  let child_path := path ++ lit "." ++ fst kv in
  properties ← as_mapping (get_default schema "properties" (JObj []));
  match dget properties (fst kv) with
  | Some child => recur (snd kv) child child_path
  | None =>
      Ok (if truthy (get_default schema "additionalProperties" (JBool true)) then []
          else [(child_path, lit "unexpected field")])
  end.

Definition required_findings (path : pystr) (entries : dict json) (required : list json)
    : list finding :=
  flat_map (fun field =>
    if dmem entries field then []
    else [(path ++ lit "." ++ field, lit "required field is missing")])
    (sort_str (str_of <$> required)).

Definition object_findings (schema : json) (path : pystr) (entries : dict json)
    : result exn (list finding) :=
  required ← iterate (get_default schema "required" (JList []));
  from_keys ← gather (key_findings schema path) (sort_items entries);
  Ok (required_findings path entries required ++ from_keys).

Definition surplus_findings (schema : json) (path : pystr) (allowed len : nat) : list finding :=
  if (allowed <? len)%nat then
    match get schema "additionalItems" with
    | JBool false => [(index_path path [] allowed, lit "additional array item is not allowed")]
    | _ => []
    end
  else [].

Definition item_findings (schema : json) (path : pystr) (elements : list json)
    : result exn (list finding) :=
  match get schema "items" with
  | JObj items =>
      gather (fun iv => recur (snd iv) (JObj items) (index_path path [] (fst iv)))
        (enumerate elements)
  | JList items =>
      inner ← gather (fun ivc =>
                recur (snd (fst ivc)) (snd ivc) (index_path path [] (fst (fst ivc))))
                (zip (enumerate elements) items);
      Ok (inner ++ surplus_findings schema path (length items) (length elements))
  | _ => Ok []
  end.

Definition unique_findings (schema : json) (path : pystr) (elements : list json) : list finding :=
  match get schema "uniqueItems" with
  | JBool true => duplicate_items path [] (enumerate elements)
  | _ => []
  end.

Definition array_findings (schema : json) (path : pystr) (elements : list json)
    : result exn (list finding) :=
  from_items ← item_findings schema path elements;
  Ok (list_size_findings path schema (length elements) ++ unique_findings schema path elements ++
      from_items).
End parts.

Definition type_keyword_matches (instance schema : json) : result exn bool :=
  match get schema "type" with
  | JStr expected => type_matches instance expected
  | _ => Ok true
  end.

Fixpoint validate_instance (stack : nat) (instance schema root_schema : json) (path : pystr)
    {struct stack} : result exn (list finding) :=
  match stack with
  | O => raise RecursionError "maximum recursion depth exceeded"
  | S stack' =>
      let root := if truthy root_schema then root_schema else schema in
      let recur instance' schema' path' := validate_instance stack' instance' schema' root path' in
      ensure_supported_schema stack' schema path ;;
      from_ref ← ref_findings recur root instance schema path;
      from_all_of ← all_of_findings recur instance schema path;
      matches ← type_keyword_matches instance schema;
      if negb matches then Ok [(path, lit "expected " ++ str_of (get schema "type"))]
      else
        from_object ← match instance with
                      | JObj entries => object_findings recur schema path entries
                      | _ => Ok []
                      end;
        from_array ← match instance with
                     | JList elements => array_findings recur schema path elements
                     | _ => Ok []
                     end;
        let from_string :=
          match instance with JStr s => string_findings path schema s | _ => [] end in
        Ok (sorted_unique
              (from_ref ++ from_all_of ++ enum_findings instance schema path ++ from_object ++
               from_array ++ from_string))
  end.

(** ** Specification: what it means for an instance to satisfy a schema *)

Definition list_of (v : json) : list json := match v with JList l => l | _ => [] end.
Definition dict_of (v : json) : dict json := match v with JObj d => d | _ => [] end.

Definition type_ok (schema instance : json) : Prop :=
  forall t, get schema "type" = JStr t -> type_matches instance t = Ok true.

Definition within (len : nat) (schema : json) (lo hi : pystr) : Prop :=
  below len (get schema lo) = false /\ above len (get schema hi) = false.

(** The clauses of validity, over the validity [V instance schema] of the parts. *)
Section clauses.
Context (V : json -> json -> Prop).

Definition ref_clause (root instance schema : json) : Prop :=
  forall ref target, get schema "$ref" = JStr ref -> pointer root ref = Ok target ->
    V instance target.

Definition all_of_clause (instance schema : json) : Prop :=
  forall child, child ∈ list_of (get_default schema "allOf" (JList [])) -> V instance child.

Definition enum_clause (instance schema : json) : Prop :=
  forall values, get schema "enum" = JList values -> py_in instance values = true.

Definition object_clause (schema : json) (entries : dict json) : Prop :=
  (forall field, field ∈ list_of (get_default schema "required" (JList [])) ->
     str_of field ∈ dkeys entries) /\
  (forall k v child, (k, v) ∈ entries ->
     dget (dict_of (get_default schema "properties" (JObj []))) k = Some child -> V v child) /\
  (forall k v, (k, v) ∈ entries ->
     dget (dict_of (get_default schema "properties" (JObj []))) k = None ->
     truthy (get_default schema "additionalProperties" (JBool true)) = true).

Definition item_clause (schema : json) (elements : list json) : Prop :=
  (forall items, get schema "items" = JObj items -> forall v, v ∈ elements -> V v (JObj items)) /\
  (forall items, get schema "items" = JList items ->
     (forall i v child, elements !! i = Some v -> items !! i = Some child -> V v child) /\
     (get schema "additionalItems" = JBool false -> length elements <= length items)).

Definition array_clause (schema : json) (elements : list json) : Prop :=
  within (length elements) schema "minItems" "maxItems" /\
  (get schema "uniqueItems" = JBool true -> NoDup (canonical_json <$> elements)) /\
  item_clause schema elements.

Definition string_clause (schema : json) (s : pystr) : Prop :=
  within (length s) schema "minLength" "maxLength" /\
  (forall pattern search, get schema "pattern" = JStr pattern -> host_re pattern = Ok search ->
     search s = true).

Definition clauses (root instance schema : json) : Prop :=
  ref_clause root instance schema /\
  all_of_clause instance schema /\
  type_ok schema instance /\
  enum_clause instance schema /\
  (forall entries, instance = JObj entries -> object_clause schema entries) /\
  (forall elements, instance = JList elements -> array_clause schema elements) /\
  (forall s, instance = JStr s -> string_clause schema s).
End clauses.

(** Validity in the schema language of the contracts, relative to the root of the references:
    the least relation closed under the clauses. *)
#[local] Unset Elimination Schemes.
Inductive valid (root : json) : json -> json -> Prop :=
  | valid_intro instance schema :
      clauses (valid root) root instance schema -> valid root instance schema.
#[local] Set Elimination Schemes.

(** A schema whose references unfold within [n] levels and whose containers are not [null]. *)
Fixpoint schema_ok (n : nat) (root schema : json) : bool :=
  match n with
  | O => false
  | S n' =>
      is_ok (ensure_supported_schema n' schema []) &&
      match get schema "$ref" with
      | JStr ref => match pointer root ref with Ok t => schema_ok n' root t | Err _ => false end
      | _ => true
      end &&
      is_list (get_default schema "allOf" (JList [])) &&
      is_list (get_default schema "required" (JList [])) &&
      is_dict (get_default schema "properties" (JObj [])) &&
      forallb (schema_ok n' root) (list_of (get_default schema "allOf" (JList []))) &&
      forallb (fun kc => schema_ok n' root (snd kc))
        (dict_of (get_default schema "properties" (JObj []))) &&
      match get schema "items" with
      | JObj items => schema_ok n' root (JObj items)
      | JList items => forallb (schema_ok n' root) items
      | _ => true
      end
  end.

(** The schemas that occur in a schema. *)
Inductive child_schema (schema : json) : json -> Prop :=
  | child_property k c : (k, c) ∈ dict_of (get schema "properties") -> child_schema schema c
  | child_definition k c : (k, c) ∈ dict_of (get schema "definitions") -> child_schema schema c
  | child_item items : get schema "items" = JObj items -> child_schema schema (JObj items)
  | child_tuple c : c ∈ list_of (get schema "items") -> child_schema schema c
  | child_all_of c : c ∈ list_of (get schema "allOf") -> child_schema schema c.
Inductive subschema (schema : json) : json -> Prop :=
  | sub_refl : subschema schema schema
  | sub_child c s : child_schema schema c -> subschema c s -> subschema schema s.

End json_contract.

(** ** Lemmas *)

Section lemmas.
Context `{PyHost}.

(** *** Loading *)

Lemma strict_object_from_ok acc pairs d :
  strict_object_from acc pairs = Ok d <->
  d = acc ++ pairs /\ NoDup (dkeys pairs) /\ (forall k, k ∈ dkeys pairs -> k ∉ dkeys acc).
Proof.
  revert acc; induction pairs as [|[k v] pairs IH]; intros acc; cbn [strict_object_from].
  { rewrite app_nil_r. cbn. split; [intros [= ->]|intros (-> & _)]; [|done].
    split_and!; [done|constructor|]. by intros k ?%not_elem_of_nil. }
  destruct (dmem acc k) eqn:E.
  - split; [done|]. intros (_ & _ & Hk). destruct (Hk k); [by left|by apply dmem_spec].
  - assert (dset acc k v = acc ++ [(k, v)]) as ->.
    { clear -E. unfold dmem in E. induction acc as [|[k' w] acc IH]; cbn in *; [done|].
      destruct (str_eqb k k'); [done|]. by rewrite IH. }
    assert (k ∉ dkeys acc) as Hk by (rewrite <-dmem_spec; congruence).
    rewrite IH, <-app_assoc. unfold dkeys. cbn. rewrite fmap_app, NoDup_cons. cbn.
    setoid_rewrite elem_of_app. setoid_rewrite elem_of_cons. setoid_rewrite elem_of_nil.
    naive_solver.
Qed.

(** *** Findings *)

Lemma finding_eqb_eq x y : finding_eqb x y = true <-> x = y.
Proof.
  destruct x, y; unfold finding_eqb; cbn. rewrite andb_true_iff, !str_eqb_eq. naive_solver.
Qed.
Lemma existsb_finding x l : existsb (finding_eqb x) l = true <-> x ∈ l.
Proof.
  rewrite existsb_exists, list_elem_of_In. setoid_rewrite finding_eqb_eq. naive_solver.
Qed.
Lemma elem_of_dedup x l : x ∈ dedup_findings l <-> x ∈ l.
Proof.
  induction l as [|y l IH]; cbn; [done|]. destruct (existsb (finding_eqb y) l) eqn:E.
  - apply existsb_finding in E. rewrite IH, elem_of_cons. naive_solver.
  - rewrite !elem_of_cons, IH. done.
Qed.
Lemma NoDup_dedup l : NoDup (dedup_findings l).
Proof.
  induction l as [|y l IH]; cbn; [constructor|]. destruct (existsb (finding_eqb y) l) eqn:E; [done|].
  constructor; [|done]. rewrite elem_of_dedup, <-existsb_finding. congruence.
Qed.
Lemma elem_of_sorted_unique x l : x ∈ sorted_unique l <-> x ∈ l.
Proof. unfold sorted_unique. by rewrite elem_of_sort_by, elem_of_dedup. Qed.
Lemma sorted_unique_nil l : sorted_unique l = [] <-> l = [].
Proof.
  split; [|by intros ->]. intros E. destruct l as [|x l]; [done|].
  assert (x ∈ sorted_unique (x :: l)) as Hx by (apply elem_of_sorted_unique; by left).
  rewrite E in Hx. by apply not_elem_of_nil in Hx.
Qed.

Lemma finding_leb_total x y : finding_leb x y = true \/ finding_leb y x = true.
Proof.
  unfold finding_leb. rewrite (str_eqb_sym (fst y)). destruct (str_eqb_spec (fst x) (fst y));
    apply str_leb_total.
Qed.
Lemma finding_leb_trans x y z :
  finding_leb x y = true -> finding_leb y z = true -> finding_leb x z = true.
Proof.
  unfold finding_leb.
  destruct (str_eqb_spec (fst x) (fst y)) as [->|Hxy]; [|].
  - destruct (str_eqb_spec (fst y) (fst z)); [apply str_leb_trans|done].
  - destruct (str_eqb_spec (fst y) (fst z)) as [<-|Hyz].
    + destruct (str_eqb_spec (fst x) (fst y)); done.
    + destruct (str_eqb_spec (fst x) (fst z)) as [E|]; [|apply str_leb_trans].
      rewrite E. intros H1 H2. destruct Hyz. by apply str_leb_antisym.
Qed.
Lemma finding_leb_antisym x y : finding_leb x y = true -> finding_leb y x = true -> x = y.
Proof.
  unfold finding_leb. rewrite (str_eqb_sym (fst y)). destruct x as [p m], y as [p' m']; cbn.
  destruct (str_eqb_spec p p') as [->|Hp]; intros H1 H2.
  - f_equal. by apply str_leb_antisym.
  - destruct Hp. by apply str_leb_antisym.
Qed.

(** *** Loops *)

Lemma gather_nil {A} (f : A -> result exn (list finding)) l fs :
  gather f l = Ok fs -> fs = [] <-> Forall (fun x => f x = Ok []) l.
Proof.
  revert fs; induction l as [|x l IH]; intros fs; cbn.
  - intros [= <-]. by split.
  - intros (a & Ha & (b & Hb & [= <-])%bind_ok)%bind_ok.
    rewrite Forall_cons, <-(IH b Hb), Ha, app_nil. naive_solver.
Qed.

Lemma gather_ok {A} (f : A -> result exn (list finding)) l :
  (exists fs, gather f l = Ok fs) <-> Forall (fun x => exists fs, f x = Ok fs) l.
Proof.
  induction l as [|x l IH]; cbn; [split; [constructor|by eexists]|].
  rewrite Forall_cons, <-IH. split.
  - intros (fs & (a & Ha & (b & Hb & _)%bind_ok)%bind_ok). eauto.
  - intros [[a ->] [b Hb]]. cbn. rewrite Hb. cbn. eauto.
Qed.

Lemma gather_elem {A} (f : A -> result exn (list finding)) l fs x :
  gather f l = Ok fs -> x ∈ l -> exists g, f x = Ok g.
Proof.
  intros E Hx. destruct (gather_ok f l) as [Hf _].
  assert (Forall (fun x => exists g, f x = Ok g) l) as Hall by eauto.
  rewrite Forall_forall in Hall. auto.
Qed.

Lemma gather_spec {A} (f : A -> result exn (list finding)) l fs (P : A -> Prop) :
  gather f l = Ok fs -> (forall x g, x ∈ l -> f x = Ok g -> g = [] <-> P x) ->
  fs = [] <-> forall x, x ∈ l -> P x.
Proof.
  intros E HP. rewrite (gather_nil _ _ _ E), Forall_forall. apply forall_proper. intros x.
  split; intros Hc Hin; specialize (Hc Hin); cbn in *;
    destruct (gather_elem _ _ _ _ E Hin) as [g Hg]; specialize (HP x g Hin Hg).
  - apply HP. congruence.
  - rewrite Hg. f_equal. by apply HP.
Qed.

Lemma duplicate_items_nil path seen items :
  duplicate_items path seen items = [] <->
  NoDup (canonical_json <$> items.*2) /\
  forall t, t ∈ canonical_json <$> items.*2 -> t ∉ seen.
Proof.
  revert seen; induction items as [|[i v] items IH]; intros seen; cbn [duplicate_items].
  { split; [|done]. intros _. split; [constructor|]. by intros t ?%not_elem_of_nil. }
  cbn. rewrite NoDup_cons, app_nil, IH.
  setoid_rewrite elem_of_cons. destruct (str_in (canonical_json v) seen) eqn:E.
  - apply str_in_elem in E. split; [by intros [? _]|]. intros (_ & Hs). exfalso.
    by apply (Hs (canonical_json v)); [left|].
  - apply str_in_not in E. split.
    + intros (_ & Hnd & Hs). split_and!; [|done|].
      * intros Hin. eapply Hs; eauto.
      * intros t [->|Ht]; [done|]. intros Hseen. eapply Hs; eauto.
    + intros ((Hv & Hnd) & Hs). split_and!; [done|done|].
      intros t Ht [->|Hseen]; [done|]. eapply Hs; eauto.
Qed.

Lemma enumerate_snd {A} (l : list A) : (enumerate l).*2 = l.
Proof.
  unfold enumerate. generalize 0. induction l as [|x l IH]; intros n; cbn; [done|]. by rewrite IH.
Qed.

(** *** The declarative reading of one call *)

Lemma string_findings_nil path schema s :
  string_findings path schema s = [] <-> string_clause schema s.
Proof.
  unfold string_findings, string_clause, within. rewrite !app_nil.
  destruct (below (length s) _); [by split; [intros [? _]|intros [[? _] _]]|].
  destruct (above (length s) _); [by split; [intros (_ & ? & _)|intros [[_ ?] _]]|].
  destruct (get schema "pattern") as [| | | |pat| |]; try done.
  destruct (host_re pat) as [search|] eqn:E; [|split; [|done]; intros _; split_and!; congruence].
  destruct (search s) eqn:F; split; try done.
  - intros _. split_and!; [done..|]. intros ?? [= <-]. rewrite E. by intros [= <-].
  - by intros (_ & _ & ?).
  - intros [_ Hp]. specialize (Hp pat search eq_refl E). congruence.
Qed.

Lemma list_size_nil path schema len :
  list_size_findings path schema len = [] <-> within len schema "minItems" "maxItems".
Proof.
  unfold list_size_findings, within. rewrite !app_nil.
  destruct (below len _); [by split; [intros [? _]|intros [? _]]|].
  by destruct (above len _); split; [intros [_ ?]|intros [_ ?]|..].
Qed.

Lemma flat_map_nil {A B} (f : A -> list B) l : flat_map f l = [] <-> forall x, x ∈ l -> f x = [].
Proof.
  induction l as [|x l IH]; cbn; [split; [by intros _ x ?%not_elem_of_nil|done]|].
  rewrite app_nil, IH. setoid_rewrite elem_of_cons. naive_solver.
Qed.

Lemma required_nil path (entries : dict json) (required : list json) :
  required_findings path entries required = [] <->
  forall field, field ∈ required -> str_of field ∈ dkeys entries.
Proof.
  unfold required_findings. rewrite flat_map_nil. unfold sort_str.
  setoid_rewrite elem_of_sort_by. split.
  - intros Hall f Hf. specialize (Hall (str_of f) (list_elem_of_fmap_2 _ _ _ Hf)).
    apply dmem_spec. by destruct (dmem entries (str_of f)).
  - intros Hall x (f & -> & Hf)%list_elem_of_fmap. apply Hall, dmem_spec in Hf. by rewrite Hf.
Qed.

Lemma iterate_list_of v l : iterate v = Ok l -> l = list_of v.
Proof. destruct v; by intros [= ->]. Qed.
Lemma as_mapping_dict_of v d : as_mapping v = Ok d -> d = dict_of v.
Proof. destruct v; by intros [= ->]. Qed.

Lemma elem_of_zip_enumerate (l : list json) (m : list json) i v c :
  ((i, v), c) ∈ zip (enumerate l) m <-> l !! i = Some v /\ m !! i = Some c.
Proof.
  rewrite list_elem_of_lookup. setoid_rewrite lookup_zip_with_Some.
  unfold enumerate. setoid_rewrite lookup_number_from. split.
  - intros (k & [j x] & y & [= <- <- <-] & Hj & Hy). destruct (l !! k) eqn:E; [|done].
    cbn in Hj. naive_solver.
  - intros [Hl Hm]. exists i, (i, v), c. rewrite Hl. auto.
Qed.

Lemma elem_of_enumerate {A} (l : list A) i v : (i, v) ∈ enumerate l <-> l !! i = Some v.
Proof.
  unfold enumerate. rewrite list_elem_of_lookup. setoid_rewrite lookup_number_from. split.
  - intros (k & Hk). destruct (l !! k) eqn:E; [|done]. cbn in Hk. naive_solver.
  - intros Hl. exists i. by rewrite Hl.
Qed.

Section parts_spec.
Context (recur : json -> json -> pystr -> result exn (list finding)) (V : json -> json -> Prop).
Context (recur_spec : forall i s p fs, recur i s p = Ok fs -> fs = [] <-> V i s).

Lemma ref_part root instance schema path fs :
  ref_findings recur root instance schema path = Ok fs ->
  fs = [] <-> ref_clause V root instance schema.
Proof.
  unfold ref_findings, ref_clause. destruct (get schema "$ref") as [| | | |r| |]; try (by intros [= <-]).
  intros (t & Ht & E)%bind_ok. rewrite (recur_spec _ _ _ _ E). split; [|by eauto].
  intros HV ? ? [= <-]. rewrite Ht. by intros [= <-].
Qed.

Lemma all_of_part instance schema path fs :
  all_of_findings recur instance schema path = Ok fs ->
  fs = [] <-> all_of_clause V instance schema.
Proof.
  intros (l & ->%iterate_list_of & E)%bind_ok.
  apply (gather_spec _ _ _ (fun child => V instance child) E). intros c g _. apply recur_spec.
Qed.

Lemma object_part schema path entries fs :
  object_findings recur schema path entries = Ok fs ->
  fs = [] <-> object_clause V schema entries.
Proof.
  intros (l & ->%iterate_list_of & (ks & E & [= <-])%bind_ok)%bind_ok.
  rewrite app_nil, required_nil. apply and_iff_compat_l.
  pose (P := fun kv : pystr * json =>
    match dget (dict_of (get_default schema "properties" (JObj []))) (fst kv) with
    | Some child => V (snd kv) child
    | None => truthy (get_default schema "additionalProperties" (JBool true)) = true
    end).
  rewrite (gather_spec _ _ _ P E); unfold P.
  - setoid_rewrite elem_of_sort_by. split.
    + intros HP. split; intros k v; [intros child|]; intros Hin Hk;
        specialize (HP (k, v) Hin); cbn in HP; by rewrite Hk in HP.
    + intros [H1 H2] [k v] Hin. cbn. destruct (dget _ k) eqn:Hk; eauto.
  - intros [k v] g _ (props & ->%as_mapping_dict_of & E')%bind_ok. cbn in *.
    destruct (dget _ k); [by apply recur_spec in E'|]. injection E' as <-.
    by destruct (truthy _).
Qed.

Lemma surplus_nil schema path allowed len :
  surplus_findings schema path allowed len = [] <->
  (get schema "additionalItems" = JBool false -> len <= allowed).
Proof.
  unfold surplus_findings. destruct (Nat.ltb_spec allowed len).
  - destruct (get schema "additionalItems") as [|[]| | | | |]; try done.
    split; [done|]. intros Hle. specialize (Hle eq_refl). lia.
  - split; [by intros|done].
Qed.

Lemma unique_nil schema path elements :
  unique_findings schema path elements = [] <->
  (get schema "uniqueItems" = JBool true -> NoDup (canonical_json <$> elements)).
Proof.
  unfold unique_findings. destruct (get schema "uniqueItems") as [|[]| | | | |]; try done.
  rewrite duplicate_items_nil, enumerate_snd. split; [by intros [? _]|].
  intros Hn. split; [by apply Hn|]. intros t _. apply not_elem_of_nil.
Qed.

Lemma item_part schema path elements fs :
  item_findings recur schema path elements = Ok fs ->
  fs = [] <-> item_clause V schema elements.
Proof.
  unfold item_findings, item_clause. destruct (get schema "items") as [| | | | |items|items];
    try (by intros [= <-]).
  - intros (inner & E & [= <-])%bind_ok. rewrite app_nil, surplus_nil.
    rewrite (gather_spec _ _ _ (fun ivc => V (snd (fst ivc)) (snd ivc)) E).
    + split; [|intros [_ HL]; destruct (HL items eq_refl) as [H1 H2]; split; [|done]].
      * intros [H1 H2]. split; [done|]. intros ? [= <-]. split; [|done].
        intros i v c Hv Hc. apply (H1 ((i, v), c)). by apply elem_of_zip_enumerate.
      * intros [[i v] c] [Hv Hc]%elem_of_zip_enumerate. eauto.
    + intros ? ? _. apply recur_spec.
  - intros E. rewrite (gather_spec _ _ _ (fun iv => V (snd iv) (JObj items)) E).
    + split; [intros HV; split; [|done]|intros [HV _]].
      * intros ? [= <-] v [i Hi]%list_elem_of_lookup. by apply (HV (i, v)), elem_of_enumerate.
      * intros [i v] Hi%elem_of_enumerate. eapply HV; [done|]. by eapply list_elem_of_lookup_2.
    + intros ? ? _. apply recur_spec.
Qed.

End parts_spec.

Lemma type_part instance schema m :
  type_keyword_matches instance schema = Ok m -> m = true <-> type_ok schema instance.
Proof.
  unfold type_keyword_matches, type_ok.
  destruct (get schema "type") as [| | | |t| |]; try (by intros [= <-]).
  intros Em. split; [by intros -> ? [= <-]|]. intros Ht. specialize (Ht t eq_refl). congruence.
Qed.

Lemma enum_nil instance schema path :
  enum_findings instance schema path = [] <-> enum_clause instance schema.
Proof.
  unfold enum_findings, enum_clause. destruct (get schema "enum") as [| | | | |l|]; try done.
  destruct (py_in instance l) eqn:E; split; try done; [by intros _ ? [= <-]|].
  intros Hl. specialize (Hl l eq_refl). congruence.
Qed.

Lemma array_part (recur : json -> json -> pystr -> result exn (list finding)) V schema path
    elements fs :
  (forall i s p fs, recur i s p = Ok fs -> fs = [] <-> V i s) ->
  array_findings recur schema path elements = Ok fs ->
  fs = [] <-> array_clause V schema elements.
Proof.
  intros Hrec (inner & E & [= <-])%bind_ok. apply (item_part _ V Hrec) in E.
  unfold array_clause. by rewrite !app_nil, list_size_nil, unique_nil, E.
Qed.

(** A clause about the payload of the constructor [mk]. *)
Lemma when_eq {A} (P : Prop) (Q : A -> Prop) (mk : A -> json) (a : A) :
  (forall b, mk a = mk b -> a = b) -> (P <-> Q a) -> P <-> (forall b, mk a = mk b -> Q b).
Proof. intros Hinj HPQ. rewrite HPQ. split; [intros ? b <-%Hinj; done|auto]. Qed.
Lemma when_ne {A} {P : Prop} (Q : A -> Prop) (mk : A -> json) v :
  P -> (forall b, v <> mk b) -> P <-> (forall b, v = mk b -> Q b).
Proof. intros HP Hne. split; [intros _ b E; by destruct (Hne b)|done]. Qed.

Ltac by_instance :=
  first [apply when_ne; [done|by intros ? [=]]|apply when_eq; [by intros ? [=]|]].

Lemma valid_clauses root instance schema :
  valid root instance schema <-> clauses (valid root) root instance schema.
Proof. split; [by intros []|by constructor]. Qed.

Lemma validate_valid stack instance schema root path fs :
  truthy root = true ->
  validate_instance stack instance schema root path = Ok fs ->
  fs = [] <-> valid root instance schema.
Proof.
  intros Hroot. revert instance schema path fs.
  induction stack as [|n IH]; intros instance schema path fs; [done|].
  cbn [validate_instance]. rewrite Hroot, valid_clauses. unfold clauses.
  intros (u & _ & (r & Er & (a & Ea & (m & Em & E)%bind_ok)%bind_ok)%bind_ok)%bind_ok.
  apply (ref_part _ (valid root)) in Er; [|done].
  apply (all_of_part _ (valid root)) in Ea; [|done].
  apply type_part in Em. destruct m; cbn [negb] in E.
  2: { injection E as <-. split; [done|]. intros (_ & _ & Ht & _). apply Em in Ht. done. }
  apply bind_ok in E as (o & Eo & (ar & Ear & [= <-])%bind_ok).
  rewrite sorted_unique_nil, !app_nil, Er, Ea, enum_nil, <-Em.
  do 2 apply and_iff_compat_l.
  assert (forall P : Prop, P <-> true = true /\ P) as <- by (by intros P; split; [|intros []]).
  apply and_iff_compat_l. clear Er Ea Em.
  destruct instance as [| | | |s|l|d]; try injection Eo as <-; try injection Ear as <-.
  all: apply Morphisms_Prop.and_iff_morphism; [|apply Morphisms_Prop.and_iff_morphism];
    by_instance.
  - apply string_findings_nil.
  - by apply (array_part _ (valid root)) in Ear.
  - by apply (object_part _ (valid root)) in Eo.
Qed.

(** *** Every supported schema is validated to the end *)

Lemma is_ok_guard c m : is_ok (guard c m) = negb c.
Proof. unfold guard. by destruct c. Qed.
Lemma is_ok_seq (m k : result exn unit) : is_ok (m ;; k) = is_ok m && is_ok k.
Proof. by destruct m. Qed.
Lemma is_ok_forM {A} (f : A -> result exn unit) l : is_ok (forM_ f l) = forallb (fun x => is_ok (f x)) l.
Proof. induction l as [|x l IH]; cbn; [done|]. rewrite <-IH. by destruct (f x). Qed.
Lemma is_ok_true (m : result exn unit) : is_ok m = true <-> m = Ok tt.
Proof. destruct m as [[]|]; cbn; naive_solver. Qed.

Lemma forallb_ext_in {A} (f g : A -> bool) l :
  (forall x, x ∈ l -> f x = g x) -> forallb f l = forallb g l.
Proof.
  induction l as [|x l IH]; cbn; intros E; [done|].
  rewrite (E x) by (by left). f_equal. apply IH. intros y Hy. apply E. by right.
Qed.

Lemma check_type_path p q schema :
  is_ok (check_type_keyword p schema) = is_ok (check_type_keyword q schema).
Proof.
  unfold check_type_keyword. destruct (is_none _); [done|].
  destruct (in_string_set _ _); cbn; [by rewrite !is_ok_guard|done].
Qed.
Lemma check_count_path p q schema k :
  is_ok (check_count_keyword p schema k) = is_ok (check_count_keyword q schema k).
Proof. unfold check_count_keyword. destruct (get schema k); by rewrite ?is_ok_guard. Qed.
Lemma check_pattern_path p q schema :
  is_ok (check_pattern_keyword p schema) = is_ok (check_pattern_keyword q schema).
Proof. unfold check_pattern_keyword. destruct (get schema "pattern"); try done. by case_match. Qed.

Lemma check_keywords_path p q schema keys :
  is_ok (check_keywords p schema keys) = is_ok (check_keywords q schema keys).
Proof.
  unfold check_keywords. rewrite !is_ok_seq, !is_ok_guard, !is_ok_forM.
  rewrite (check_type_path p q), (check_pattern_path p q).
  by rewrite (forallb_ext_in _ _ _ (fun k _ => check_count_path p q schema k)).
Qed.

Lemma ensure_path stack schema p q :
  is_ok (ensure_supported_schema stack schema p) = is_ok (ensure_supported_schema stack schema q).
Proof.
  revert schema p q; induction stack as [|n IH]; intros schema p q; [done|].
  destruct schema as [| | | | | |entries]; try done.
  cbn [ensure_supported_schema].
  rewrite !is_ok_seq, !is_ok_guard, (check_keywords_path p q).
  repeat match goal with |- andb _ _ = andb _ _ => apply f_equal2 end; try reflexivity.
  - destruct (get _ "properties"); try done. rewrite !is_ok_forM. apply forallb_ext_in. auto.
  - destruct (get _ "definitions"); try done. rewrite !is_ok_forM. apply forallb_ext_in. auto.
  - destruct (get _ "items"); try done; try apply IH.
    rewrite !is_ok_forM. apply forallb_ext_in. auto.
  - destruct (get _ "allOf"); try done. rewrite !is_ok_forM. apply forallb_ext_in. auto.
Qed.

Lemma type_keyword_total stack instance schema p :
  is_ok (ensure_supported_schema stack schema p) = true ->
  exists m, type_keyword_matches instance schema = Ok m.
Proof.
  destruct stack as [|n]; [done|]. destruct schema as [| | | | | |entries]; try done.
  cbn [ensure_supported_schema]. rewrite is_ok_seq. unfold check_keywords.
  rewrite !is_ok_seq, !andb_true_iff. intros [(_ & _ & Ht & _) _]. revert Ht.
  unfold check_type_keyword, type_keyword_matches.
  destruct (get _ "type") as [| | | |t| |]; cbn; try (by eexists).
  rewrite is_ok_guard, negb_involutive, str_in_elem. unfold type_matches, SUPPORTED_TYPES.
  rewrite !elem_of_cons, elem_of_nil.
  intros [->|[->|[->|[->|[->|[]]]]]]; by eexists.
Qed.

Section total.
Context (n : nat) (root : json)
  (recur : json -> json -> pystr -> result exn (list finding))
  (recur_total : forall i s p, schema_ok n root s = true -> exists fs, recur i s p = Ok fs).

Lemma gather_total {A} (f : A -> result exn (list finding)) l :
  (forall x, x ∈ l -> exists fs, f x = Ok fs) -> exists fs, gather f l = Ok fs.
Proof. intros Hf. apply gather_ok, Forall_forall. auto. Qed.

Lemma forallb_elem {A} (p : A -> bool) l x : forallb p l = true -> x ∈ l -> p x = true.
Proof. rewrite forallb_forall. setoid_rewrite <-list_elem_of_In. auto. Qed.

Lemma object_total schema path entries :
  is_list (get_default schema "required" (JList [])) = true ->
  is_dict (get_default schema "properties" (JObj [])) = true ->
  forallb (fun kc => schema_ok n root (snd kc))
    (dict_of (get_default schema "properties" (JObj []))) = true ->
  exists fs, object_findings recur schema path entries = Ok fs.
Proof.
  intros Hr Hp Hc. unfold object_findings.
  destruct (get_default schema "required" _); try done. cbn.
  destruct (gather_total (key_findings recur schema path) (sort_items entries)) as [fs ->];
    [|by eexists].
  intros [k v] _. unfold key_findings. destruct (get_default schema "properties" _); try done.
  cbn. destruct (dget d k) as [child|] eqn:E; [|by eexists].
  apply recur_total. apply dget_in in E. exact (forallb_elem _ _ _ Hc E).
Qed.

Lemma array_total schema path elements :
  match get schema "items" with
  | JObj items => schema_ok n root (JObj items)
  | JList items => forallb (schema_ok n root) items
  | _ => true
  end = true ->
  exists fs, array_findings recur schema path elements = Ok fs.
Proof.
  intros Hi. unfold array_findings, item_findings.
  destruct (get schema "items") as [| | | | |items|items]; cbn; try by eexists.
  - destruct (gather_total (fun ivc => recur (snd (fst ivc)) (snd ivc)
      (index_path path [] (fst (fst ivc)))) (zip (enumerate elements) items)) as [fs ->];
      [|by eexists].
    intros [[i v] c] [_ Hc]%elem_of_zip_enumerate. apply recur_total.
    apply list_elem_of_lookup_2 in Hc. exact (forallb_elem _ _ _ Hi Hc).
  - destruct (gather_total (fun iv => recur (snd iv) (JObj items) (index_path path [] (fst iv)))
      (enumerate elements)) as [fs ->]; [|by eexists]. auto.
Qed.
End total.

Lemma validate_total n root instance schema path :
  truthy root = true -> schema_ok n root schema = true ->
  exists fs, validate_instance n instance schema root path = Ok fs.
Proof.
  intros Hroot. revert instance schema path.
  induction n as [|n IH]; intros instance schema path; [done|].
  cbn [schema_ok]. rewrite !andb_true_iff. intros (((((((He & Hr) & Ha) & Hq) & Hp) & Hac) & Hpc) & Hi).
  cbn [validate_instance]. rewrite Hroot.
  assert (ensure_supported_schema n schema path = Ok tt) as -> by
    (apply is_ok_true; by rewrite (ensure_path _ _ _ [])).
  cbn. destruct (type_keyword_total n instance schema [] He) as [m Hm].
  assert (exists fs, ref_findings (fun i s p => validate_instance n i s root p) root instance schema
                       path = Ok fs) as [r ->].
  { unfold ref_findings. destruct (get schema "$ref"); try by eexists.
    destruct (pointer root s); [|done]. cbn. by apply IH. }
  assert (exists fs, all_of_findings (fun i s p => validate_instance n i s root p) instance schema
                       path = Ok fs) as [a ->].
  { unfold all_of_findings. destruct (get_default schema "allOf" _); try done. cbn.
    apply gather_total. intros c Hc. apply IH. exact (forallb_elem _ _ _ Hac Hc). }
  cbn. rewrite Hm. cbn. destruct m; cbn; [|by eexists].
  destruct instance as [| | | | |l|d]; cbn; try by eexists.
  - destruct (array_total n root _ IH schema path l Hi) as [fs ->]. by eexists.
  - destruct (object_total n root _ IH schema path d Hq Hp Hpc) as [fs ->]. by eexists.
Qed.

(** *** What a supported schema is made of *)

Lemma ensure_child n schema p c :
  ensure_supported_schema (S n) schema p = Ok tt -> child_schema schema c ->
  exists q, ensure_supported_schema n c q = Ok tt.
Proof.
  destruct schema as [| | | | | |entries]; try done. cbn [ensure_supported_schema].
  rewrite <-is_ok_true, !is_ok_seq, !andb_true_iff. intros (_ & Hp & Hd & Hi & _ & Ha) Hc.
  destruct Hc as [k c Hin|k c Hin|items E|c Hin|c Hin].
  - destruct (get _ "properties"); try by apply not_elem_of_nil in Hin.
    rewrite is_ok_forM in Hp. eexists. apply is_ok_true. exact (forallb_elem _ _ _ Hp Hin).
  - destruct (get _ "definitions"); try by apply not_elem_of_nil in Hin.
    rewrite is_ok_forM in Hd. eexists. apply is_ok_true. exact (forallb_elem _ _ _ Hd Hin).
  - rewrite E in Hi. eexists. by apply is_ok_true.
  - destruct (get _ "items"); try by apply not_elem_of_nil in Hin.
    apply list_elem_of_lookup in Hin as [i Hin]. apply elem_of_enumerate in Hin.
    rewrite is_ok_forM in Hi. eexists. apply is_ok_true. exact (forallb_elem _ _ _ Hi Hin).
  - destruct (get _ "allOf"); try by apply not_elem_of_nil in Hin.
    apply list_elem_of_lookup in Hin as [i Hin]. apply elem_of_enumerate in Hin.
    rewrite is_ok_forM in Ha. eexists. apply is_ok_true. exact (forallb_elem _ _ _ Ha Hin).
Qed.

Lemma ensure_node n schema p :
  ensure_supported_schema n schema p = Ok tt ->
  (exists entries, schema = JObj entries /\ forall k, k ∈ dkeys entries -> k ∈ SUPPORTED_KEYS) /\
  (forall pattern, get schema "pattern" = JStr pattern -> exists f, host_re pattern = Ok f).
Proof.
  destruct n as [|n]; [done|]. destruct schema as [| | | | | |entries]; try done.
  cbn [ensure_supported_schema]. rewrite <-is_ok_true, is_ok_seq, andb_true_iff.
  intros [Hk _]. unfold check_keywords in Hk.
  rewrite !is_ok_seq, !is_ok_guard, !andb_true_iff in Hk.
  destruct Hk as (Hu & _ & _ & _ & _ & _ & _ & Hp & _). split.
  - exists entries. split; [done|]. intros k Hk.
    destruct (str_in k SUPPORTED_KEYS) eqn:E; [by apply str_in_elem|].
    unfold sort_str in Hu. rewrite length_sort_by in Hu.
    assert (k ∈ List.filter (fun k => negb (str_in k SUPPORTED_KEYS)) (dkeys entries)) as Hf.
    { apply list_elem_of_In, filter_In. rewrite E. split; [by apply list_elem_of_In|done]. }
    by destruct (List.filter _ _); [apply not_elem_of_nil in Hf|].
  - intros pattern Epat. unfold check_pattern_keyword in Hp. rewrite Epat in Hp.
    destruct (host_re pattern); [by eexists|done].
Qed.

Lemma ensure_subschema n schema p s :
  ensure_supported_schema n schema p = Ok tt -> subschema schema s ->
  exists m q, ensure_supported_schema m s q = Ok tt.
Proof.
  intros He Hs. revert n p He. induction Hs as [schema|schema c s Hc Hs IH]; intros n p He; [eauto|].
  destruct n as [|n]; [done|]. destruct (ensure_child _ _ _ _ He Hc) as [q Hq]. eauto.
Qed.

(** A reference whose target fails makes the call fail. *)
Lemma validate_ref_err n instance schema root_schema path ref target e :
  let root := if truthy root_schema then root_schema else schema in
  ensure_supported_schema n schema path = Ok tt -> get schema "$ref" = JStr ref ->
  pointer root ref = Ok target -> validate_instance n instance target root path = Err e ->
  validate_instance (S n) instance schema root_schema path = Err e.
Proof.
  intros root He Hr Hp Hv. cbn [validate_instance]. rewrite He. cbn -[validate_instance].
  unfold ref_findings. rewrite Hr. fold root. rewrite Hp. cbn -[validate_instance]. by rewrite Hv.
Qed.

End lemmas.

(** ** Properties *)


Definition demo_schema : json :=
  JObj [(lit "type", JStr "object"); (lit "required", JList [JStr "id"]);
        (lit "additionalProperties", JBool false);
        (lit "properties", JObj [(lit "id", JObj [(lit "$ref", JStr "#/definitions/name")]);
           (lit "tags", JObj [(lit "type", JStr "array"); (lit "uniqueItems", JBool true)])]);
        (lit "definitions",
           JObj [(lit "name", JObj [(lit "type", JStr "string"); (lit "minLength", JInt 2)])])].
Definition demo_instance (name : pystr) : json :=
  JObj [(lit "id", JStr name); (lit "tags", JList [JStr "a"; JStr "b"])].


(** A schema that [ensure_supported_schema] accepts is closed: every schema inside it, at any
    depth, is an object that uses supported keywords only and whose pattern compiles. *)
Theorem ensure_supported_schema_closed `{PyHost} stack schema path s :
  ensure_supported_schema stack schema path = Ok tt -> subschema schema s ->
  (exists entries, s = JObj entries /\ forall k, k ∈ dkeys entries -> k ∈ SUPPORTED_KEYS) /\
  (forall pattern, get s "pattern" = JStr pattern -> exists f, host_re pattern = Ok f).
Proof.
  intros He Hs. destruct (ensure_subschema _ _ _ _ He Hs) as (m & q & Hm).
  exact (ensure_node _ _ _ Hm).
Qed.

Lemma ensure_supported_schema_closed_witness :
  let H := ascii_host in
  exists entries,
    JObj [(lit "type", JStr "string"); (lit "minLength", JInt 2)] = JObj entries /\
    forall k, k ∈ dkeys entries -> k ∈ SUPPORTED_KEYS.
Proof.
  intros H. eapply (ensure_supported_schema_closed 5 demo_schema "$"); [by vm_compute|].
  eapply sub_child; [|apply sub_refl]. apply (child_definition _ "name"). vm_compute. by left.
Defined.

(** The violations of a call are in strictly increasing (path, message) order, each reported
    once, so that they do not depend on the order of the keys of the instance or the schema. *)
Theorem validate_instance_sorted `{PyHost} stack instance schema root path violations :
  validate_instance stack instance schema root path = Ok violations ->
  sorted_by finding_leb violations /\ NoDup violations.
Proof.
  destruct stack as [|n]; [done|]. cbn [validate_instance].
  intros (u & _ & (r & _ & (a & _ & (m & _ & E)%bind_ok)%bind_ok)%bind_ok)%bind_ok.
  destruct m; cbn [negb] in E.
  - apply bind_ok in E as (o & _ & (ar & _ & [= <-])%bind_ok). split.
    + apply sort_by_sorted; [apply finding_leb_total|apply finding_leb_trans].
    + apply NoDup_sort_by, NoDup_dedup.
  - injection E as <-. split; [by repeat constructor|apply NoDup_singleton].
Qed.

Lemma validate_instance_sorted_witness :
  let H := ascii_host in
  exists violations, length violations = 2 /\ sorted_by finding_leb violations.
Proof.
  intros H.
  destruct (validate_instance 5 (JObj [(lit "zz", JNull)]) demo_schema demo_schema "$")
    as [fs|] eqn:E; [|by vm_compute in E].
  exists fs. split; [vm_compute in E; by injection E as <-|].
  exact (proj1 (validate_instance_sorted _ _ _ _ _ _ E)).
Defined.

(** [uniqueItems] compares items as JSON values: on float-free items no violation is reported
    exactly when no two items are equal up to the order of the keys of their objects. *)
Theorem unique_items_exact `{PyHost} path elements :
  forallb float_free elements = true ->
  duplicate_items path [] (enumerate elements) = [] <-> NoDup (norm <$> elements).
Proof.
  intros Hf. rewrite duplicate_items_nil, enumerate_snd.
  assert (NoDup (canonical_json <$> elements) <-> NoDup (norm <$> elements)) as <-.
  2: { split; [by intros [? _]|]. intros Hn. split; [done|]. intros t _. apply not_elem_of_nil. }
  apply forallb_Forall in Hf. induction Hf as [|v l Hv Hl IH]; cbn; [by split; constructor|].
  rewrite !NoDup_cons, IH. apply and_iff_compat_r. rewrite !list_elem_of_fmap.
  apply not_iff_compat. apply exist_proper. intros w. rewrite Forall_forall in Hl.
  split; intros [E Hw]; (split; [|done]); apply canonical_json_iff; auto.
Qed.

Lemma unique_items_exact_witness :
  let H := ascii_host in
  ~ NoDup (norm <$> [JObj [(lit "a", JInt 1); (lit "b", JInt 2)];
                     JObj [(lit "b", JInt 2); (lit "a", JInt 1)]]).
Proof. intros H. rewrite <-(unique_items_exact "$") by done. by vm_compute. Defined.

(** The object hook accepts exactly the objects without a repeated key, and keeps them as
    they are. *)
Theorem strict_object_exact pairs d :
  strict_object pairs = Ok d <-> d = pairs /\ NoDup (dkeys pairs).
Proof.
  unfold strict_object. rewrite strict_object_from_ok. cbn. split; [tauto|].
  intros [-> Hn]. split_and!; [done..|]. intros k _. apply not_elem_of_nil.
Qed.

Definition cyclic_schema : json :=
  JObj [(lit "$ref", JStr "#/definitions/a");
        (lit "definitions", JObj [(lit "a", JObj [(lit "$ref", JStr "#/definitions/a")])])].

(** A supported schema whose reference leads back to itself makes every validation exhaust
    the interpreter's stack, whatever its depth; the check of supported schemas accepts it. *)
Theorem cyclic_reference_recurses `{PyHost} stack instance path :
  ensure_supported_schema (2 + stack) cyclic_schema path = Ok tt /\
  validate_instance stack instance cyclic_schema JNull path =
    raise RecursionError "maximum recursion depth exceeded".
Proof.
  assert (forall n p, ensure_supported_schema (2 + n) cyclic_schema p = Ok tt) as Hens
    by (intros n p; apply is_ok_true; rewrite (ensure_path _ _ _ []); by vm_compute).
  split; [apply Hens|].
  assert (forall n p, validate_instance n instance (JObj [(lit "$ref", JStr "#/definitions/a")])
            cyclic_schema p = raise RecursionError "maximum recursion depth exceeded") as Hin.
  { induction n as [|[|n] IH]; intros p; [done..|].
    eapply validate_ref_err; [|reflexivity|by vm_compute|apply IH].
    apply is_ok_true. rewrite (ensure_path _ _ _ []). by vm_compute. }
  destruct stack as [|[|[|n]]]; [done..|].
  eapply validate_ref_err; [apply Hens|reflexivity|by vm_compute|apply Hin].
Qed.
