(* ===== verification/ClaimRegistry.v ===== *)
(** * The registry of claims

    [src/scripts/docmeta/validate_claim_registry.py]: the file [docs/claims/registry.yml], which the
    agents' tools load before they judge a task.  A [repo] is the repository as a program finds it.
    The last section shows what a registry without findings says of every claim in it. *)

From S2P Require Import Prelude PyStr Json JsonText JsonParse Sha256 Utf8 FileSystem.
Open Scope Z_scope.

(** ** The repository *)

(** The surroundings of the command-line tools: the repository root, [Path.resolve], [is_file],
    [exists] and the bytes of a file. *)
Record repo : Type := Repo {
  r_root : path;
  r_resolve : path -> result exn path;
  r_is_file : path -> result exn bool;
  r_exists : path -> result exn bool;
  r_read : path -> result exn bytes;
}.
(** The parts of a text that [Path] keeps. *)
Definition path_parts (s : pystr) : list pystr :=
  List.filter (fun part => negb (str_eqb part []) && negb (str_eqb part ".")) (split_on 47 s).
(** [root / s] for a relative [s] *)
Definition join_path (root : path) (s : pystr) : path := Path (absolute root) (parts root ++ path_parts s).
(** [root / s] *)
Definition join_any (root : path) (s : pystr) : path :=
  if startswith "/" s then Path true (path_parts s) else join_path root s.
(** [p.relative_to(root)] does not raise. *)
Definition is_below (root p : path) : bool :=
  Bool.eqb (absolute root) (absolute p) && bool_decide (take (length (parts root)) (parts p) = parts root).

(** ** The registry *)

(** A finding: [code], [claim_id], [message] and the optional [path] and [field]. *)
Record rfinding : Type := RFinding {
  rf_code : pystr; rf_claim : pystr; rf_message : pystr; rf_path : option pystr; rf_field : option pystr }.

Section registry.
Context `{PyHost} (msg : exn -> pystr).

Definition VALID_STATUSES : list pystr := [lit "proposed"; lit "established"; lit "superseded"; lit "rejected"].
Definition REQUIRED_CLAIM_FIELDS : list pystr :=
  [lit "id"; lit "status"; lit "subject"; lit "statement"; lit "evidence"; lit "validation"; lit "updated"].
Definition REQUIRED_STRING_CLAIM_FIELDS : list pystr :=
  [lit "id"; lit "status"; lit "subject"; lit "statement"; lit "updated"].

(** [^CLAIM-[A-Z0-9]+(?:-[A-Z0-9]+)*-[0-9]{3}$]: words between dashes; [$] also stands before a
    final newline. *)
Definition upper_digit (c : N) : bool := ascii_upper c || ascii_digit c.
Definition id_word (w : pystr) : bool := negb (str_eqb w []) && forallb upper_digit w.
Definition id_number (w : pystr) : bool := (length w =? 3)%nat && forallb ascii_digit w.
Definition id_shape (s : pystr) : bool :=
  match split_on 45 s with
  | claim :: word :: more =>
      match last more with
      | Some number =>
          str_eqb claim "CLAIM" && id_word word && forallb id_word (removelast more) && id_number number
      | None => false
      end
  | _ => false
  end.
Definition claim_id_ok (s : pystr) : bool := id_shape s || (endswith [10%N] s && id_shape (removelast s)).

Definition r_finding (code : pystr) (claim_id : option pystr) (message : pystr) (where_ field : option pystr) : rfinding :=
  RFinding code (match claim_id with None | Some [] => lit "-" | Some c => c end) message where_ field.

(** A resolved path, or why there is none. *)
Definition resolve_repo_relative_path (rp : repo) (p : pystr) : result exn (result pystr path) :=
  root ← r_resolve rp (r_root rp);
  if startswith "/" p then Ok (Err (lit "Evidence path must be relative to repository root"))
  else
    resolved ← r_resolve rp (join_path root p);
    Ok (if is_below root resolved then Ok resolved else Err (lit "Evidence path resolves outside repository root")).

(** The text of the file without a byte order mark and the two marks of a YAML document. *)
Definition normalize_registry (raw : pystr) : pystr :=
  let normalized := strip (lstrip (N.eqb 65279) raw) in
  let normalized :=
    if startswith "---" normalized then strip (join [10%N] (tl (splitlines normalized))) else normalized in
  if endswith (lit "...") normalized then strip (take (length normalized - 3) normalized) else normalized.

(** The data ([JNull] is [None]), the findings of the reading and its exit code. *)
Definition load_registry (rp : repo) (registry_path : path) : result exn (json * list rfinding * Z) :=
  let failed code message := Ok (JNull, [r_finding code None message (Some (path_str registry_path)) None], 2) in
  found ← r_exists rp registry_path;
  if negb found then failed "REGISTRY_MISSING" "Registry file does not exist"
  else
    match r_read rp registry_path with
    | Err e =>
        if issubclass (exn_class e) OSError then failed "REGISTRY_PARSE_ERROR" (lit "Registry is not readable: " ++ exn_msg e)
        else Err e
    | Ok content =>
        raw ← decode_strict content;
        match loads plain_object plain_constant (normalize_registry raw) with
        | Ok data => Ok (data, [], 0)
        | Err e =>
            if issubclass (exn_class e) JSONDecodeError then failed "REGISTRY_PARSE_ERROR" (lit "Registry parse error: " ++ msg e)
            else Err e
        end
    end.

(** [isinstance(value, str) and value.strip()] *)
Definition nonblank (v : json) : option pystr :=
  match v with JStr s => if str_eqb (strip s) [] then None else Some s | _ => None end.

Definition required_field (claim : dict json) (claim_id : option pystr) (field : pystr) : list rfinding :=
  if dmem claim field then []
  else [r_finding "CLAIM_MISSING_FIELD" claim_id (lit "Claim field '" ++ field ++ lit "' is required") None (Some field)].
Definition string_field (claim : dict json) (claim_id : option pystr) (field : pystr) : list rfinding :=
  match dget claim field with
  | None => []
  | Some (JStr value) =>
      if str_eqb (strip value) []
      then [r_finding "CLAIM_MISSING_FIELD" claim_id (lit "Claim field '" ++ field ++ lit "' is required") None (Some field)]
      else []
  | Some _ => [r_finding "CLAIM_FIELD_NOT_STRING" claim_id (lit "Claim field '" ++ field ++ lit "' must be a string") None (Some field)]
  end.
Definition id_findings (seen_ids : list pystr) (claim_id : option pystr) : list rfinding :=
  match claim_id with
  | None => []
  | Some c =>
      (if claim_id_ok c then [] else [r_finding "CLAIM_INVALID_ID" claim_id "Claim ID format is invalid" None (Some (lit "id"))])
      ++ (if str_in c seen_ids then [r_finding "CLAIM_DUPLICATE_ID" claim_id "Duplicate claim ID" None (Some (lit "id"))] else [])
  end.
Definition status_findings (claim_id : option pystr) (status : json) : list rfinding :=
  if match status with JStr s => str_in s VALID_STATUSES | _ => false end then []
  else [r_finding "CLAIM_INVALID_STATUS" claim_id
          "Claim status must be one of: proposed, established, superseded, rejected" None (Some (lit "status"))].

Definition evidence_path_findings (rp : repo) (claim_id : option pystr) (status : json) (p : pystr) : result exn (list rfinding) :=
  resolved ← resolve_repo_relative_path rp p;
  match resolved with
  | Err path_error => Ok [r_finding "EVIDENCE_PATH_OUTSIDE_REPO" claim_id path_error (Some p) None]
  | Ok resolved_path =>
      if py_eq status (JStr "established") then
        found ← r_exists rp resolved_path;
        Ok (if (found : bool) then [] else [r_finding "EVIDENCE_PATH_MISSING" claim_id "Evidence path does not exist" (Some p) None])
      else Ok []
  end.
Definition evidence_item_findings (rp : repo) (claim_id : option pystr) (status item : json) : result exn (list rfinding) :=
  match nonblank (get item "path") with
  | None => Ok [r_finding "EVIDENCE_MISSING_FIELD" claim_id "Evidence field 'path' is required" None (Some (lit "path"))]
  | Some p =>
      located ← evidence_path_findings rp claim_id status p;
      Ok (match nonblank (get item "kind") with
          | None => [r_finding "EVIDENCE_MISSING_FIELD" claim_id "Evidence field 'kind' is required" (Some p) (Some (lit "kind"))]
          | Some _ => []
          end ++ located)
  end.
Fixpoint evidence_items_findings (rp : repo) (claim_id : option pystr) (status : json) (items : list json)
    : result exn (list rfinding) :=
  match items with
  | [] => Ok []
  | item :: items' =>
      first ← evidence_item_findings rp claim_id status item;
      others ← evidence_items_findings rp claim_id status items';
      Ok (first ++ others)
  end.
Definition evidence_findings_of (rp : repo) (claim_id : option pystr) (status evidence : json) : result exn (list rfinding) :=
  match evidence with
  | JList ((_ :: _) as entries) =>
      let evidence_items := List.filter is_dict entries in
      found ← evidence_items_findings rp claim_id status evidence_items;
      Ok ((if (length evidence_items =? length entries)%nat then []
           else [r_finding "EVIDENCE_MISSING_FIELD" claim_id "Each evidence entry must be an object" None None]) ++ found)
  | _ => Ok [r_finding "CLAIM_MISSING_EVIDENCE" claim_id "Claim evidence must be a non-empty array" None None]
  end.
Definition validation_findings (claim_id : option pystr) (validation : json) : list rfinding :=
  match validation with
  | JList (_ :: _) => []
  | _ => [r_finding "CLAIM_MISSING_VALIDATION" claim_id "Validation commands must be a non-empty array" None (Some (lit "validation"))]
  end.

(** The identifiers seen so far and the findings so far. *)
Definition validate_claim (rp : repo) (acc : list pystr * list rfinding) (claim : json) : result exn (list pystr * list rfinding) :=
  let '(seen_ids, findings) := acc in
  match claim with
  | JObj d =>
      let claim_id := match get claim "id" with JStr c => Some c | _ => None end in
      let status := get claim "status" in
      evidence ← evidence_findings_of rp claim_id status (get claim "evidence");
      Ok (match claim_id with Some c => c :: seen_ids | None => seen_ids end,
          findings
          ++ flat_map (required_field d claim_id) REQUIRED_CLAIM_FIELDS
          ++ flat_map (string_field d claim_id) REQUIRED_STRING_CLAIM_FIELDS
          ++ id_findings seen_ids claim_id
          ++ status_findings claim_id status
          ++ evidence
          ++ validation_findings claim_id (get claim "validation"))
  | _ => Ok (seen_ids, findings ++ [r_finding "CLAIM_MISSING_FIELD" None "Claim entry must be an object" None None])
  end.
Definition validate_registry_data (rp : repo) (data : json) : result exn (list rfinding) :=
  match data with
  | JObj d =>
      let findings :=
        if dmem d "version" then []
        else [r_finding "MISSING_VERSION" None "Top-level field 'version' is required" None None] in
      match dget d "claims" with
      | Some (JList ((_ :: _) as claims)) => acc ← foldM (validate_claim rp) ([], findings) claims; Ok (snd acc)
      | _ => Ok (findings ++ [r_finding "MISSING_CLAIMS" None "Top-level field 'claims' must be a non-empty array" None None])
      end
  | _ => Ok [r_finding "INVALID_TOP_LEVEL" None "Top-level registry must be an object" None None]
  end.

(** The report of the command: the claims counted, the findings and the exit code. *)
Record report : Type := Report { claims_count : nat; findings : list rfinding; exit_code : Z }.
Definition run_validation (rp : repo) (registry : pystr) : result exn report :=
  let registry_path := join_any (r_root rp) registry in
  '(data, parser_findings, parser_exit) ← load_registry rp registry_path;
  if negb (parser_exit =? 0) then Ok (Report 0 parser_findings parser_exit)
  else if is_none data then
    Ok (Report 0 [r_finding "REGISTRY_PARSE_ERROR" None "Unknown parser failure" (Some (path_str registry_path)) None] 2)
  else
    found ← validate_registry_data rp data;
    Ok (Report (match get data "claims" with JList l => length l | _ => 0%nat end) found (if (length found =? 0)%nat then 0 else 1)).
End registry.

(** ** What an accepted registry says *)

Section accepted.
Context {host : PyHost} (rp : repo).

(** The evidence of an established claim: a relative path below the root at which something is. *)
Definition located (status : json) (p : pystr) : Prop :=
  startswith "/" p = false /\
  exists root resolved, r_resolve rp (r_root rp) = Ok root /\ r_resolve rp (join_path root p) = Ok resolved /\
    is_below root resolved = true /\ (status = JStr "established" -> r_exists rp resolved = Ok true).
Record registered (claim : json) (c status : pystr) : Prop := {
  re_id : get claim "id" = JStr c;
  re_status : get claim "status" = JStr status;
  re_shape : claim_id_ok c = true;
  re_known : status ∈ VALID_STATUSES;
  re_evidence : exists entries, get claim "evidence" = JList entries /\ entries <> [] /\
    forall entry, entry ∈ entries -> exists p, get entry "path" = JStr p /\ located (JStr status) p;
}.

Lemma evidence_path_clear claim_id status p : evidence_path_findings rp claim_id status p = Ok [] -> located status p.
Proof.
  unfold evidence_path_findings, resolve_repo_relative_path, located.
  destruct (r_resolve rp (r_root rp)) as [root|] eqn:Er; [|done]. cbn [mbind result_bind].
  destruct (startswith "/" p); [done|]. destruct (r_resolve rp (join_path root p)) as [resolved|] eqn:Ej; [|done]. cbn [mbind result_bind].
  destruct (is_below root resolved) eqn:Eb; [|done]. intros E. split; [done|]. exists root, resolved. split_and!; try done.
  intros ->. cbn [py_eq] in E. destruct (r_exists rp resolved) as [[]|]; by cbn in E.
Qed.
Lemma evidence_item_clear claim_id status entry : evidence_item_findings rp claim_id status entry = Ok [] ->
  exists p, get entry "path" = JStr p /\ located status p.
Proof.
  unfold evidence_item_findings, nonblank. destruct (get entry "path"); try done. destruct (str_eqb _ _); [done|]. intros E. peel E.
  injection E as [_ ->]%app_nil. exists s. split; [done|]. by eapply evidence_path_clear.
Qed.
Lemma evidence_items_clear claim_id status entries entry : evidence_items_findings rp claim_id status entries = Ok [] ->
  entry ∈ entries -> exists p, get entry "path" = JStr p /\ located status p.
Proof.
  induction entries as [|e entries IH]; cbn [evidence_items_findings]; intros E Hin; [by apply not_elem_of_nil in Hin|].
  peel E. peel E. injection E as [-> ->]%app_nil. apply elem_of_cons in Hin as [->|Hin]; [by eapply evidence_item_clear|by apply IH].
Qed.
Lemma filter_full {A : Type} (p : A -> bool) l : (length (List.filter p l) =? length l)%nat = true -> List.filter p l = l.
Proof.
  rewrite Nat.eqb_eq. induction l as [|x l IH]; [done|]. cbn [List.filter]. pose proof (List.filter_length_le p l).
  destruct (p x); cbn [length]; intros El; [f_equal; apply IH; lia|lia].
Qed.
Lemma evidence_clear claim_id status evidence : evidence_findings_of rp claim_id status evidence = Ok [] ->
  exists entries, evidence = JList entries /\ entries <> [] /\
    forall entry, entry ∈ entries -> exists p, get entry "path" = JStr p /\ located status p.
Proof.
  unfold evidence_findings_of. destruct evidence as [| | | | |[|e entries]|]; try done. intros E. peel E.
  injection E as [Hl ->]%app_nil. exists (e :: entries). split_and!; [done|done|]. intros entry Hin.
  assert (List.filter is_dict (e :: entries) = e :: entries) as Hf.
  { apply filter_full. by destruct (length (List.filter is_dict (e :: entries)) =? length (e :: entries))%nat eqn:E; cbn in E, Hl; rewrite ?E in Hl. }
  rewrite Hf in Hx. by eapply evidence_items_clear.
Qed.
Lemma ok_pair_inj {E A B : Type} (a a' : A) (b b' : B) : Ok (E := E) (a, b) = Ok (a', b') -> a = a' /\ b = b'.
Proof. by intros [= -> ->]. Qed.
(** A claim that adds no finding. *)
Lemma claim_clear seen claim seen' : validate_claim rp (seen, []) claim = Ok (seen', []) ->
  exists c status, registered claim c status /\ c ∉ seen /\ seen' = c :: seen.
Proof.
  unfold validate_claim. destruct claim as [| | | | | |d]; try done. intros E. peel E. apply ok_pair_inj in E as [<- Ef].
  do 5 (let H := fresh "F" in apply app_nil in Ef as [H Ef]). apply app_nil in Ef as [-> _].
  assert (exists c, get (JObj d) "id" = JStr c) as [c Hc].
  { cbn [flat_map REQUIRED_CLAIM_FIELDS REQUIRED_STRING_CLAIM_FIELDS] in F0, F1. apply app_nil in F0 as [F0 _]. apply app_nil in F1 as [F1 _].
    unfold required_field, string_field, get, dmem in *. destruct (dget d "id") as [[]|]; try done. by eexists. }
  rewrite Hc in *. apply app_nil in F2 as [Hi1 Hi2]. unfold status_findings in F3.
  destruct (get (JObj d) "status") as [| | | |status| |] eqn:Es; try done. destruct (str_in status VALID_STATUSES) eqn:Ev; [|done].
  exists c, status. split; [|split; [|done]].
  - split; [done|done|by destruct (claim_id_ok c)|by apply str_in_elem|]. by eapply evidence_clear.
  - apply str_in_not. by destruct (str_in c seen).
Qed.
Lemma claim_keeps acc claim acc' : validate_claim rp acc claim = Ok acc' -> snd acc' = [] -> snd acc = [].
Proof.
  unfold validate_claim. destruct acc as [seen fs], claim; try (by intros [= <-] [-> ?]%app_nil). intros E. peel E.
  injection E as <-. by intros [-> _]%app_nil.
Qed.
Lemma claims_keep claims acc acc' : foldM (validate_claim rp) acc claims = Ok acc' -> snd acc' = [] -> snd acc = [].
Proof.
  revert acc. induction claims as [|claim claims IH]; cbn; intros acc E Hn; [by injection E as <-|]. peel E.
  eapply claim_keeps; [exact Hx|]. by eapply IH.
Qed.
Lemma claims_clear claims seen acc : foldM (validate_claim rp) (seen, []) claims = Ok acc -> snd acc = [] ->
  exists ids, Forall2 (fun claim c => exists status, registered claim c status) claims ids /\ NoDup ids /\ forall c, c ∈ ids -> c ∉ seen.
Proof.
  revert seen. induction claims as [|claim claims IH]; cbn [foldM]; intros seen E Hn.
  { exists []. split_and!; [constructor|constructor|by intros c ?%not_elem_of_nil]. }
  peel E. destruct x as [seen' fs]. assert (fs = []) as -> by (eapply (claims_keep _ (seen', fs)); eassumption).
  destruct (claim_clear _ _ _ Hx) as (c & status & Hc & Hs & ->). destruct (IH _ E Hn) as (ids & Hi & Hd & Hf).
  exists (c :: ids). split_and!; [constructor; [by exists status|done]|constructor; [|done]|].
  - intros Hin. apply (Hf c Hin). by left.
  - intros c' [->|Hin]%elem_of_cons; [done|]. intros Hin'. apply (Hf c' Hin). by right.
Qed.
(** Every claim of an accepted registry is registered, under an identifier of its own. *)
Lemma registry_accepted data : validate_registry_data rp data = Ok [] ->
  exists d claims ids, data = JObj d /\ dget d "claims" = Some (JList claims) /\
    Forall2 (fun claim c => exists status, registered claim c status) claims ids /\ NoDup ids.
Proof.
  unfold validate_registry_data. destruct data as [| | | | | |d]; try done.
  destruct (dget d "claims") as [[| | | | |[|claim claims]|]|] eqn:Ed; try (by intros [= [_ ?]%app_nil]). intros E. peel E.
  injection E as E. assert (snd ([] : list pystr, if dmem d "version" then [] else [_]) = []) as Hv by (eapply claims_keep; eassumption).
  cbn [snd] in Hv. rewrite Hv in Hx. destruct (claims_clear _ _ _ Hx E) as (ids & Hi & Hn & _). by exists d, (claim :: claims), ids.
Qed.
End accepted.

Module Examples.
(** [$] also matches before a final newline, so that such an identifier is accepted. *)
Example id_with_newline : claim_id_ok (lit "CLAIM-SAFE-001" ++ [10%N]) = true /\ claim_id_ok (lit "CLAIM-SAFE-01") = false.
Proof. by vm_compute. Qed.
Example yaml_marks : normalize_registry (lit "---" ++ [10%N] ++ lit "{}" ++ [10%N] ++ lit "...") = lit "{}".
Proof. vm_compute. reflexivity. Qed.
End Examples.
