(* ===== verification/AgentGuard.v ===== *)
(** * The guard of agent tasks

    [src/scripts/agent/check_non_ideal_task.py]: what a task contract may ask of an agent.  The guard
    runs on any JSON value, also one that the schema refuses, so its rules read the fields unchecked.
    The claim registry is read by [ClaimRegistry]. *)

From S2P Require Import Prelude PyStr Effects Json JsonParse JsonContract Sha256 Utf8 FileSystem ClaimRegistry.
Open Scope Z_scope.

(** [{"code": ..., "message": ...}] with an optional [field]. *)
Record gfinding : Type := Finding { f_code : pystr; f_message : pystr; f_field : option pystr }.
#[export] Instance gfinding_eq_dec : EqDecision gfinding.
Proof. solve_decision. Defined.
Definition field_text (f : gfinding) : pystr := default [] (f_field f).

(** The findings of a loop whose body may raise. *)
Fixpoint collect {A B} (f : A -> result exn (list B)) (l : list A) : result exn (list B) :=
  match l with
  | [] => Ok []
  | x :: l' => a ← f x; b ← collect f l'; Ok (a ++ b)
  end.

Section guard.
Context `{PyHost}.

Definition DISALLOWED_SCOPE_MARKERS : list pystr :=
  [lit ""; lit "."; lit "/"; lit "*"; lit "**"; lit "repo"; lit "all"; lit "root"].
Definition CONTRADICTORY_CLAIM_STATUSES : list pystr :=
  [lit "rejected"; lit "contradicted"; lit "superseded"; lit "obsolete"].

Definition normalize_path (p : pystr) : pystr := strip (replace [92%N] "/" p).
Definition is_slash (c : N) : bool := (c =? 47)%N.
Definition trim_trailing (p : pystr) : pystr := rstrip is_slash (normalize_path p).
Definition forbidden_blocks_allowed (allowed forbidden : pystr) : bool :=
  let normalized_allowed := trim_trailing allowed in
  let normalized_forbidden := trim_trailing forbidden in
  if str_eqb normalized_allowed [] || str_eqb normalized_forbidden [] then false
  else str_eqb normalized_allowed normalized_forbidden || startswith (normalized_forbidden ++ lit "/") normalized_allowed.
Definition is_generated_path (p : pystr) : bool :=
  let normalized := rstrip is_slash (lstrip is_slash (normalize_path p)) in
  str_eqb normalized "docs/_generated" || startswith "docs/_generated/" normalized.

(** A method of [str] called on any value. *)
Definition as_text (method : string) (v : json) : result exn pystr :=
  match v with
  | JStr s => Ok s
  | _ => raise AttributeError (lit "'" ++ type_name v ++ lit "' object has no attribute '" ++ lit method ++ lit "'")
  end.

Definition reject_constant (value : pystr) : result exn json :=
  raise JSONDecodeError (lit "non-standard JSON constant: " ++ value ++ lit ": line 1 column 1 (char 0)").
Definition strict_hook (pairs : list (pystr * json)) : result exn json := d ← strict_object pairs; Ok (JObj d).
Definition loads_json_strict (raw : pystr) : result exn json := loads strict_hook reject_constant raw.

Definition violation_field (where_ : pystr) : option pystr :=
  let field := default where_ (strip_prefix "$." where_) in
  if str_eqb field "$" then None else Some field.
Definition schema_findings (stack : nat) (code : pystr) (payload schema : json) : result exn (list gfinding) :=
  violations ← validate_instance stack payload schema JNull "$";
  Ok (map (fun v : finding => Finding code (snd v) (violation_field (fst v))) violations).

Fixpoint find_status_done (task : json) (where_ : pystr) : list gfinding :=
  match task with
  | JObj d =>
      flat_map (fun kv =>
        let current_path := if str_eqb where_ [] then fst kv else where_ ++ lit "." ++ fst kv in
        (match snd kv with
         | JStr value =>
             (if str_in (fst kv) [lit "status"; lit "repo_status"] && str_eqb (lower (strip value)) "done"
              then [Finding "STATUS_DONE_BY_AGENT" "Final status field is forbidden for agent tasks" (Some current_path)] else [])
             ++ (if str_eqb (fst kv) "decision" && str_eqb (lower (strip value)) "pass"
                 then [Finding "STATUS_DONE_BY_AGENT" "Final decision 'pass' is forbidden for agent tasks" (Some current_path)] else [])
         | _ => []
         end) ++ find_status_done (snd kv) current_path) d
  | JList l =>
      (fix from (index : nat) (l : list json) : list gfinding :=
         match l with
         | [] => []
         | item :: l' =>
             find_status_done item (where_ ++ lit "[" ++ show_nat index ++ lit "]") ++ from (S index) l'
         end) 0%nat l
  | _ => []
  end.

Fixpoint has_generator_command (commands : list json) : result exn bool :=
  match commands with
  | [] => Ok false
  | command :: commands' =>
      s ← as_text "lower" command;
      if contains "scripts/docmeta/generate_" (lower s) then Ok true else has_generator_command commands'
  end.
Fixpoint any_generated (paths : list json) : result exn bool :=
  match paths with
  | [] => Ok false
  | p :: paths' => s ← as_text "replace" p; if is_generated_path s then Ok true else any_generated paths'
  end.
(** [task.get(k)] *)
Definition field_list (task : dict json) (k : pystr) : option (list json) :=
  match dget task k with Some (JList l) => Some l | _ => None end.

Definition broad_findings (p : json) : result exn (list gfinding) :=
  s ← as_text "replace" p;
  Ok (if str_in (lower (trim_trailing s)) DISALLOWED_SCOPE_MARKERS
      then [Finding "SCOPE_TOO_BROAD" (lit "allowed_paths entry '" ++ s ++ lit "' ist zu breit") (Some (lit "allowed_paths"))]
      else []).
Definition blocked_findings (allowed forbidden : json) : result exn (list gfinding) :=
  a ← as_text "replace" allowed;
  f ← as_text "replace" forbidden;
  Ok (if forbidden_blocks_allowed a f
      then [Finding "FORBIDDEN_PATH" (lit "allowed_paths '" ++ a ++ lit "' wird durch forbidden_paths '" ++ f ++ lit "' blockiert")
              (Some (lit "forbidden_paths"))]
      else []).
Definition generated_findings (task : dict json) (allowed_paths : list json) : result exn (list gfinding) :=
  allows_generated ← any_generated allowed_paths;
  if (allows_generated : bool) then
    has_generator ← match field_list task "validation_commands" with
                    | Some commands => has_generator_command commands
                    | None => Ok false
                    end;
    Ok (if negb (py_eq (default JNull (dget task "task_type")) (JStr "generated_refresh")) || negb has_generator
        then [Finding "FORBIDDEN_PATH" "docs/_generated/ darf nur in generated_refresh tasks mit Generator-Command erlaubt werden"
                (Some (lit "allowed_paths"))]
        else [])
  else Ok [].
Definition validate_scope_rules (task : dict json) : result exn (list gfinding) :=
  match field_list task "allowed_paths" with
  | None | Some [] => Ok [Finding "NO_ALLOWED_PATHS" "allowed_paths fehlt oder ist leer" (Some (lit "allowed_paths"))]
  | Some allowed_paths =>
      broad ← collect broad_findings allowed_paths;
      let forbidden_paths := default [] (field_list task "forbidden_paths") in
      blocked ← collect (fun allowed => collect (blocked_findings allowed) forbidden_paths) allowed_paths;
      generated ← generated_findings task allowed_paths;
      Ok (broad ++ blocked ++ generated)
  end.

Definition empty_list_field (task : dict json) (k : pystr) : bool :=
  match field_list task k with None | Some [] => true | Some _ => false end.
Definition validate_task_requirements (task : dict json) : list gfinding :=
  (if empty_list_field task "validation_commands"
   then [Finding "NO_VALIDATION_COMMAND" "validation_commands fehlt oder ist leer" (Some (lit "validation_commands"))] else [])
  ++ (if empty_list_field task "expected_evidence"
      then [Finding "NO_EXPECTED_EVIDENCE" "expected_evidence fehlt oder ist leer" (Some (lit "expected_evidence"))] else []).

Definition claims_map (registry : dict json) : dict pystr :=
  foldl (fun (m : dict pystr) claim =>
           match claim with
           | JObj c => match dget c "id", dget c "status" with
                       | Some (JStr claim_id), Some (JStr status) => dset m claim_id (lower status)
                       | _, _ => m
                       end
           | _ => m
           end) [] (default [] (field_list registry "claims")).
Definition claim_findings (registry : dict json) (claim : json) : list gfinding :=
  match claim with
  | JStr claim_id =>
      match dget (claims_map registry) claim_id with
      | None => [Finding "CLAIM_WITHOUT_REGISTRY_ENTRY" (lit "Claim '" ++ claim_id ++ lit "' fehlt in docs/claims/registry.yml")
                   (Some (lit "claims"))]
      | Some status =>
          if str_in status CONTRADICTORY_CLAIM_STATUSES
          then [Finding "CONTRADICTION_FOUND" (lit "Claim '" ++ claim_id ++ lit "' hat widerspruechlichen Status '" ++ status ++ lit "'")
                  (Some (lit "claims"))]
          else []
      end
  | _ => []
  end.
Definition validate_claims (task registry : dict json) : list gfinding :=
  flat_map (claim_findings registry) (default [] (field_list task "claims")).

(** The first of equal findings. *)
Definition same_key (x y : gfinding) : bool :=
  str_eqb (f_code x) (f_code y) && str_eqb (f_message x) (f_message y) && str_eqb (field_text x) (field_text y).
Fixpoint dedup_from (seen : list gfinding) (l : list gfinding) : list gfinding :=
  match l with
  | [] => []
  | f :: l' => if existsb (same_key f) seen then dedup_from seen l' else f :: dedup_from (f :: seen) l'
  end.

Definition run_non_ideal_guard (stack : nat) (task_schema task : json) (registry : dict json) : result exn (list gfinding) :=
  schema ← schema_findings stack "TASK_SCHEMA_INVALID" task task_schema;
  rules ← match task with
          | JObj d => scope ← validate_scope_rules d;
                      Ok (scope ++ validate_task_requirements d ++ find_status_done task [] ++ validate_claims d registry)
          | _ => Ok []
          end;
  Ok (dedup_from [] (schema ++ rules)).

(** ** The command *)

Definition load_json_strict (rp : repo) (p : path) : result exn json :=
  raw ← r_read rp p; text ← decode_strict raw; loads_json_strict text.
Definition load_task_schema (rp : repo) : result exn json :=
  schema ← load_json_strict rp (path_child (path_child (path_child (r_root rp) "contracts") "agent") "task.schema.json");
  if is_dict schema then Ok schema else raise UnsupportedSchemaError "task schema must be a JSON object".

(** What is printed, and the exit code: an error with its code, if it has one, or the findings. *)
Inductive guard_exit : Type := Failed (code : option pystr) (error : pystr) | Checked (status : Z) (findings : list gfinding).
Variable msg : exn -> pystr.

(** The registry, or the code and message of the error. *)
Definition load_claim_registry (rp : repo) (registry_path : path) : result exn (result gfinding (dict json)) :=
  let not_found := Ok (Err (Finding "CLAIM_REGISTRY_NOT_FOUND" "Claim-Registry nicht gefunden" None)) in
  let invalid message := Ok (Err (Finding "CLAIM_REGISTRY_INVALID" message None)) in
  '(data, parser_findings, parser_exit) ← load_registry msg rp registry_path;
  if negb (parser_exit =? 0) || is_none data then
    match parser_findings with
    | first :: _ => if str_eqb (rf_code first) "REGISTRY_MISSING" then not_found else invalid (lit "Claim-Registry ist nicht parsebar")
    | [] => not_found
    end
  else
    registry_findings ← validate_registry_data rp data;
    match registry_findings, data with
    | _ :: _, _ => invalid (lit "Claim-Registry ist nicht valide")
    | [], JObj d => Ok (Ok d)
    | [], _ => invalid (lit "Claim-Registry Top-Level ist ungueltig")
    end.

Definition resolve_below (rp : repo) (value : pystr) : result exn path :=
  if startswith "/" value then raise ValueError (lit "Path must be repository-relative: " ++ value)
  else
    root ← r_resolve rp (r_root rp);
    resolved ← r_resolve rp (join_path root value);
    if is_below root resolved then Ok resolved else raise ValueError (lit "Path escapes repository root: " ++ value).
(** [_load_json]: a value, or why there is none. *)
Definition load_task (rp : repo) (p : path) : result exn (result pystr json) :=
  match r_read rp p with
  | Err e => if issubclass (exn_class e) OSError then Ok (Err (lit "Datei kann nicht gelesen werden: " ++ exn_msg e)) else Err e
  | Ok raw =>
      text ← decode_strict raw;
      match loads_json_strict text with
      | Ok v => Ok (Ok v)
      | Err e => if issubclass (exn_class e) DuplicateKeyError then Ok (Err (exn_msg e))
                 else if issubclass (exn_class e) JSONDecodeError then Ok (Err (lit "JSON parse error: " ++ msg e))
                 else Err e
      end
  end.
Definition checked (warn : bool) (findings : list gfinding) : guard_exit :=
  Checked (if warn && negb (length findings =? 0)%nat then 1 else 0) findings.
Definition guard_main (stack : nat) (rp : repo) (task_file claim_registry : pystr) (warn : bool) : result exn guard_exit :=
  match (t ← resolve_below rp task_file; r ← resolve_below rp claim_registry; Ok (t, r)) with
  | Err e => if issubclass (exn_class e) ValueError then Ok (Failed (Some (lit "PATH_OUT_OF_REPO")) (exn_msg e)) else Err e
  | Ok (task_path, registry_path) =>
      task_found ← r_is_file rp task_path;
      if negb task_found then Ok (Failed (Some (lit "TASK_FILE_NOT_FOUND")) (lit "Task-Datei nicht gefunden: " ++ task_file))
      else
        registry_found ← r_is_file rp registry_path;
        if negb registry_found then
          Ok (Failed (Some (lit "CLAIM_REGISTRY_NOT_FOUND")) (lit "Claim-Registry nicht gefunden: " ++ claim_registry))
        else
          loaded_task ← load_task rp task_path;
          match loaded_task with
          | Err task_error => Ok (checked warn [Finding "TASK_SCHEMA_INVALID" task_error None])
          | Ok task =>
              loaded ← load_claim_registry rp registry_path;
              match loaded with
              | Err f => Ok (Failed (Some (f_code f)) (f_message f))
              | Ok registry =>
                  match (schema ← load_task_schema rp; run_non_ideal_guard stack schema task registry) with
                  | Ok findings => Ok (checked warn findings)
                  | Err e =>
                      if existsb (issubclass (exn_class e)) [OSError; JSONDecodeError; DuplicateKeyError; UnsupportedSchemaError]
                      then Ok (Failed (Some (lit "CONTRACT_SCHEMA_INVALID")) (exn_msg e)) else Err e
                  end
              end
          end
  end.
End guard.
