(* ===== verification/Handoff.v ===== *)
(** * Agent handoffs

    [src/scripts/agent/validate_handoff.py]: the handoff of an agent against the task contract it
    answers, with the two schemas of [src/contracts/agent].  The files are a [repo]; the claim registry
    is read by [ClaimRegistry]; the [msg] of a [JSONDecodeError] is an argument. *)

From S2P Require Import Prelude PyStr Effects Json JsonParse JsonContract Sha256 Utf8 FileSystem ClaimRegistry AgentGuard.
Open Scope Z_scope.

(** ** The contracts *)

Definition typed (t : string) (more : dict json) : json := JObj ((lit "type", JStr (lit t)) :: more).
Definition names (l : list string) : json := JList ((fun s => JStr (lit s)) <$> l).
Definition words (more : dict json) : json :=
  typed "array" (more ++ [(lit "items", typed "string" [(lit "minLength", JInt 1); (lit "pattern", JStr "\S")]);
                          (lit "uniqueItems", JBool true)]).
Definition task_schema : json :=
  JObj [(lit "$schema", JStr "http://json-schema.org/draft-07/schema#");
    (lit "$id", JStr "https://weltgewebe.org/schemas/agent/task.schema.json");
    (lit "title", JStr "Agent Task Contract");
    (lit "description", JStr "Minimal machine-readable contract for agent task definitions.");
    (lit "type", JStr "object");
    (lit "required", names ["task_id"; "goal"; "task_type"; "allowed_paths"; "forbidden_paths"; "claims"; "expected_evidence";
                            "validation_commands"; "delete_allowed"]);
    (lit "additionalProperties", JBool false);
    (lit "properties", JObj [
      (lit "task_id", typed "string" [(lit "pattern", JStr "^[A-Z]+(-[A-Z]+)*-[0-9]{3}$")]);
      (lit "goal", typed "string" [(lit "minLength", JInt 1); (lit "pattern", JStr "\S")]);
      (lit "task_type", typed "string" [(lit "enum", names ["doc_change"; "ci_change"; "infra_change"; "governance"; "generated_refresh"])]);
      (lit "allowed_paths", words [(lit "minItems", JInt 1)]);
      (lit "forbidden_paths", words []);
      (lit "claims", words [(lit "minItems", JInt 1)]);
      (lit "expected_evidence", words [(lit "minItems", JInt 1)]);
      (lit "validation_commands", words [(lit "minItems", JInt 1)]);
      (lit "delete_allowed", typed "boolean" []);
      (lit "status", typed "string" []); (lit "decision", typed "string" []); (lit "repo_status", typed "string" [])])].

Definition unique_strings : json := JObj [(lit "$ref", JStr "#/definitions/uniqueStrings")].
Definition handoff_schema : json :=
  JObj [(lit "$schema", JStr "http://json-schema.org/draft-07/schema#");
    (lit "$id", JStr "https://weltgewebe.org/schemas/agent/handoff.schema.json");
    (lit "title", JStr "Agent Handoff Contract");
    (lit "description", JStr "Machine-readable review handoff for an agent task.");
    (lit "type", JStr "object");
    (lit "required", names ["handoff_id"; "task_id"; "task_contract_sha256"; "source_revision"; "producer"; "outcome";
                            "changed_paths"; "deleted_paths"; "claims_addressed"; "evidence_produced"; "missing_evidence";
                            "validation_results"; "blockers"; "residual_gaps"]);
    (lit "additionalProperties", JBool false);
    (lit "properties", JObj [
      (lit "handoff_id", typed "string" [(lit "pattern", JStr "^[A-Z0-9]+(-[A-Z0-9]+)*$")]);
      (lit "task_id", typed "string" [(lit "pattern", JStr "^[A-Z]+(-[A-Z]+)*-[0-9]{3}$")]);
      (lit "task_contract_sha256", typed "string" [(lit "pattern", JStr "^[0-9a-f]{64}$")]);
      (lit "source_revision", typed "string" [(lit "pattern", JStr "^([0-9a-f]{40}|[0-9a-f]{64})$")]);
      (lit "producer", typed "string" [(lit "minLength", JInt 1); (lit "maxLength", JInt 128);
                                       (lit "pattern", JStr "^[A-Za-z0-9][A-Za-z0-9._/-]*$")]);
      (lit "outcome", typed "string" [(lit "enum", names ["ready_for_review"; "blocked"; "incomplete"])]);
      (lit "changed_paths", unique_strings); (lit "deleted_paths", unique_strings);
      (lit "claims_addressed", JObj [(lit "allOf", JList [unique_strings; JObj [(lit "minItems", JInt 1)]])]);
      (lit "evidence_produced", unique_strings); (lit "missing_evidence", unique_strings);
      (lit "validation_results", typed "array" [
        (lit "items", typed "object" [
          (lit "required", names ["command"; "status"]); (lit "additionalProperties", JBool false);
          (lit "properties", JObj [
            (lit "command", typed "string" [(lit "minLength", JInt 1)]);
            (lit "status", typed "string" [(lit "enum", names ["passed"; "failed"; "not_run"])])])]);
        (lit "uniqueItems", JBool true)]);
      (lit "blockers", unique_strings); (lit "residual_gaps", unique_strings)]);
    (lit "definitions", JObj [(lit "uniqueStrings",
      typed "array" [(lit "uniqueItems", JBool true); (lit "items", typed "string" [(lit "minLength", JInt 1)])])])].

(** ** Paths *)

Definition windows_drive (s : pystr) : bool :=
  match s with
  | c :: colon :: slash :: _ => ((in_range 65 90 c || in_range 97 122 c) && (colon =? 58) && (slash =? 47))%N
  | _ => false
  end.
Definition dotted_part (part : pystr) : bool := str_in part [[]; lit "."; lit ".."].
Definition normalize_repo_path (allow_directory : bool) (value : pystr) : option pystr :=
  let raw := normalize_path value in
  if str_eqb raw [] || startswith "/" raw || windows_drive raw then None
  else
    let is_directory := endswith "/" raw in
    let raw := if is_directory then take (length raw - 1) raw else raw in
    let parts := split_on 47 raw in
    if existsb dotted_part parts then None
    else if is_directory && negb allow_directory then None
    else let normalized := join (lit "/") parts in Some (if is_directory then normalized ++ lit "/" else normalized).
Definition path_matches_scope (p scope : pystr) : bool :=
  match normalize_repo_path false p, normalize_repo_path true scope with
  | Some normalized_path, Some normalized_scope =>
      if endswith "/" normalized_scope then startswith normalized_scope normalized_path
      else str_eqb normalized_path normalized_scope
  | _, _ => false
  end.

(** Sets of strings: [a - b], [a & b] and [sorted]. *)
Definition set_minus (a b : list pystr) : list pystr := List.filter (fun x => negb (str_in x b)) a.
Definition set_and (a b : list pystr) : list pystr := List.filter (fun x => str_in x b) a.
Definition sorted_set (a : list pystr) : list pystr := sort_str (remove_dups a).

Section handoff.
Context `{PyHost}.

(** [d[k]] read as a list of strings.  The fields are read only when both contracts satisfy their
    schema; a value that is no such list cannot occur there. *)
Definition text_of (v : json) : result exn pystr :=
  match v with JStr s => Ok s | _ => raise TypeError (lit "expected str instance, " ++ type_name v ++ lit " found") end.
Definition texts (d : dict json) (k : pystr) : result exn (list pystr) :=
  v ← item (JObj d) k; l ← iterate v; mapM text_of l.

Definition normalized_file_set (values : list pystr) : list pystr := omap (normalize_repo_path false) values.

Definition path_findings (allowed_paths forbidden_paths : list pystr) (field declared_path : pystr) : list gfinding :=
  match normalize_repo_path false declared_path with
  | None => [Finding "PATH_OUT_OF_REPO" (lit "Invalid repository-relative file path: " ++ declared_path) (Some field)]
  | Some normalized =>
      (if existsb (path_matches_scope normalized) allowed_paths then []
       else [Finding "PATH_OUT_OF_SCOPE" (lit "Path is not allowed by task: " ++ declared_path) (Some field)])
      ++ (if existsb (path_matches_scope normalized) forbidden_paths
          then [Finding "FORBIDDEN_PATH" (lit "Path is forbidden by task: " ++ declared_path) (Some field)] else [])
  end.
Definition validate_paths (task handoff : dict json) : result exn (list gfinding) :=
  allowed_paths ← texts task "allowed_paths";
  forbidden_paths ← texts task "forbidden_paths";
  changed_paths ← texts handoff "changed_paths";
  deleted_paths ← texts handoff "deleted_paths";
  delete_allowed ← item (JObj task) "delete_allowed";
  let changed := normalized_file_set changed_paths in
  let deleted := normalized_file_set deleted_paths in
  Ok (flat_map (path_findings allowed_paths forbidden_paths "changed_paths") changed_paths
      ++ flat_map (path_findings allowed_paths forbidden_paths "deleted_paths") deleted_paths
      ++ map (fun p => Finding "PATH_STATE_CONTRADICTION" (lit "Path cannot be both changed and deleted: " ++ p) (Some (lit "deleted_paths")))
           (sorted_set (set_and changed deleted))
      ++ (if negb (length deleted =? 0)%nat && negb (truthy delete_allowed)
          then [Finding "DELETE_WITHOUT_PERMISSION" "Handoff declares deletions although task forbids deletion" (Some (lit "deleted_paths"))]
          else [])).

Definition validate_addressed (task handoff : dict json) : result exn (list gfinding) :=
  task_claims ← texts task "claims";
  addressed ← texts handoff "claims_addressed";
  Ok (map (fun claim => Finding "CLAIM_NOT_DECLARED" (lit "Handoff addresses undeclared claim: " ++ claim) (Some (lit "claims_addressed")))
        (sorted_set (set_minus addressed task_claims))
      ++ map (fun claim => Finding "CLAIM_NOT_ADDRESSED" (lit "Task claim is not addressed by handoff: " ++ claim) (Some (lit "claims_addressed")))
        (sorted_set (set_minus task_claims addressed))).

(** The file exists inside the repository. *)
Definition local_file (rp : repo) (root : path) (normalized : pystr) : result exn bool :=
  let candidate := join_path (r_root rp) normalized in
  let probe := resolved ← r_resolve rp candidate;
               if is_below root resolved then r_is_file rp candidate else Ok false in
  match probe with
  | Ok b => Ok b
  | Err e => if issubclass (exn_class e) OSError || issubclass (exn_class e) ValueError then Ok false else Err e
  end.
Definition evidence_findings (rp : repo) (root : path) (field : pystr) (check_file : bool) (evidence : pystr) : result exn (list gfinding) :=
  match normalize_repo_path false evidence with
  | None => Ok [Finding "EVIDENCE_PATH_INVALID" (lit "Evidence must be a repository-relative file path: " ++ evidence) (Some field)]
  | Some normalized =>
      if check_file then
        found ← local_file rp root normalized;
        Ok (if (found : bool) then []
            else [Finding "EVIDENCE_NOT_FOUND" (lit "Produced evidence file does not exist inside the repository: " ++ evidence) (Some field)])
      else Ok []
  end.
Definition validate_evidence (rp : repo) (task handoff : dict json) : result exn (list gfinding) :=
  expected_values ← texts task "expected_evidence";
  produced_values ← texts handoff "evidence_produced";
  missing_values ← texts handoff "missing_evidence";
  let expected := normalized_file_set expected_values in
  let produced := normalized_file_set produced_values in
  let missing := normalized_file_set missing_values in
  root ← r_resolve rp (r_root rp);
  in_produced ← collect (evidence_findings rp root "evidence_produced" true) produced_values;
  in_missing ← collect (evidence_findings rp root "missing_evidence" false) missing_values;
  Ok (map (fun e => Finding "EVIDENCE_STATE_CONTRADICTION" (lit "Evidence cannot be both produced and missing: " ++ e) (Some (lit "missing_evidence")))
        (sorted_set (set_and produced missing))
      ++ map (fun e => Finding "EXPECTED_EVIDENCE_UNACCOUNTED"
                         (lit "Expected evidence is neither produced nor declared missing: " ++ e) (Some (lit "evidence_produced")))
        (sorted_set (set_minus (set_minus expected produced) missing))
      ++ map (fun e => Finding "UNEXPECTED_MISSING_EVIDENCE" (lit "Missing evidence was not required by task: " ++ e) (Some (lit "missing_evidence")))
        (sorted_set (set_minus missing expected))
      ++ in_produced ++ in_missing).

(** [result_map] and the repeated commands, in the order of the records. *)
Fixpoint read_results (index : nat) (result_map : dict pystr) (items : list json) : result exn (dict pystr * list gfinding) :=
  match items with
  | [] => Ok (result_map, [])
  | record :: items' =>
      command ← (v ← item record "command"; text_of v);
      status ← (v ← item record "status"; text_of v);
      '(m, findings) ← read_results (S index) (dset result_map command status) items';
      Ok (m, (if dmem result_map command
              then [Finding "VALIDATION_RESULT_DUPLICATE" (lit "Validation command is recorded more than once: " ++ command)
                      (Some (lit "validation_results[" ++ show_nat index ++ lit "]"))]
              else []) ++ findings)
  end.
Definition contradiction (m : string) (field : pystr) : gfinding := Finding "CONTRADICTORY_OUTCOME" (lit m) (Some field).
Definition validate_results_and_outcome (task handoff : dict json) : result exn (list gfinding) :=
  records ← (v ← item (JObj handoff) "validation_results"; iterate v);
  '(result_map, repeated) ← read_results 0 [] records;
  required ← texts task "validation_commands";
  let missing_results := set_minus required (dkeys result_map) in
  outcome ← item (JObj handoff) "outcome";
  blockers ← item (JObj handoff) "blockers";
  residual_gaps ← item (JObj handoff) "residual_gaps";
  missing_evidence ← item (JObj handoff) "missing_evidence";
  task_claims ← texts task "claims";
  addressed ← texts handoff "claims_addressed";
  let non_passed := List.filter (fun cs => negb (str_eqb (snd cs) "passed")) result_map in
  let unpassed := negb (length non_passed =? 0)%nat || negb (length missing_results =? 0)%nat in
  let unaddressed := set_minus task_claims addressed in
  Ok (repeated
      ++ map (fun command => Finding "VALIDATION_RESULT_MISSING"
                (lit "No result recorded for required validation command: " ++ command) (Some (lit "validation_results")))
           (sorted_set missing_results)
      ++ (if py_eq outcome (JStr "ready_for_review") then
            (if truthy blockers || truthy missing_evidence
             then [contradiction "ready_for_review requires no blockers or missing evidence" "outcome"] else [])
            ++ (if unpassed
                then [contradiction "ready_for_review requires every recorded and required validation to pass" "outcome"] else [])
          else if py_eq outcome (JStr "blocked") && negb (truthy blockers) then
            [contradiction "blocked requires at least one blocker" "blockers"]
          else if py_eq outcome (JStr "incomplete")
                  && negb (truthy missing_evidence || truthy residual_gaps || unpassed || negb (length unaddressed =? 0)%nat) then
            [contradiction "incomplete requires explicitly accounted missing evidence, a failed or not-run validation, or a residual gap" "outcome"]
          else [])).

Definition validate_binding (rp : repo) (task handoff : dict json) (task_bytes : bytes) : result exn (list gfinding) :=
  handoff_id ← item (JObj handoff) "task_id";
  task_id ← item (JObj task) "task_id";
  digest ← item (JObj handoff) "task_contract_sha256";
  paths ← validate_paths task handoff;
  claims ← validate_addressed task handoff;
  evidence ← validate_evidence rp task handoff;
  results ← validate_results_and_outcome task handoff;
  Ok ((if py_eq handoff_id task_id then []
       else [Finding "TASK_ID_MISMATCH" "Handoff task_id does not match task contract" (Some (lit "task_id"))])
      ++ (if py_eq digest (JStr (sha256_hex task_bytes)) then []
          else [Finding "TASK_DIGEST_MISMATCH" "Handoff task_contract_sha256 does not match task file bytes" (Some (lit "task_contract_sha256"))])
      ++ paths ++ claims ++ evidence ++ results).

(** ** The validator *)

(** [{(code, field, message): finding}] in key order. *)
Definition gfinding_leb (x y : gfinding) : bool :=
  if str_eqb (f_code x) (f_code y) then
    if str_eqb (field_text x) (field_text y) then str_leb (f_message x) (f_message y) else str_leb (field_text x) (field_text y)
  else str_leb (f_code x) (f_code y).
Fixpoint last_of_equal (l : list gfinding) : list gfinding :=
  match l with
  | [] => []
  | f :: l' => if existsb (same_key f) l' then last_of_equal l' else f :: last_of_equal l'
  end.
Definition shape_error (f : gfinding) : bool := str_in (f_code f) [lit "TASK_SCHEMA_INVALID"; lit "HANDOFF_SCHEMA_INVALID"].

Definition load_schema (rp : repo) (name : pystr) : result exn json :=
  schema ← load_json_strict rp (path_child (path_child (path_child (r_root rp) "contracts") "agent") name);
  if is_dict schema then Ok schema else raise UnsupportedSchemaError (name ++ lit " must contain a JSON object").

Definition validate_handoff (stack : nat) (rp : repo) (task handoff : json) (task_bytes : bytes) (claim_registry : dict json)
    : result exn (list gfinding) :=
  for_task ← load_schema rp "task.schema.json";
  for_handoff ← load_schema rp "handoff.schema.json";
  in_task ← schema_findings stack "TASK_SCHEMA_INVALID" task for_task;
  in_handoff ← schema_findings stack "HANDOFF_SCHEMA_INVALID" handoff for_handoff;
  guarded ← match task with JObj _ => run_non_ideal_guard stack for_task task claim_registry | _ => Ok [] end;
  let findings := in_task ++ in_handoff ++ guarded in
  bound ← match task, handoff with
          | JObj t, JObj h => if existsb shape_error findings then Ok [] else validate_binding rp t h task_bytes
          | _, _ => Ok []
          end;
  Ok (sort_by gfinding_leb (last_of_equal (findings ++ bound))).

(** ** The command *)

(** An error on [stderr] with exit code 2, or the report: code 0 without findings and 1 with. *)
Inductive verdict : Type := Emit (code message : pystr) | Report (status : Z) (findings : list gfinding).
Variable msg : exn -> pystr.

Definition resolve_repo_relative (rp : repo) (value : pystr) : result exn path :=
  let raw_text := normalize_path value in
  if str_eqb raw_text [] || startswith "/" raw_text || windows_drive raw_text then
    raise ValueError (lit "Path must be repository-relative: " ++ value)
  else
    root ← r_resolve rp (r_root rp);
    resolved ← r_resolve rp (join_path root raw_text);
    if is_below root resolved then Ok resolved else raise ValueError (lit "Path escapes repository root: " ++ value).

(** [try: m  except classes as exc: return _emit_error(code, text(exc))], the first match of several. *)
Fixpoint caught (clauses : list (exc_class * (exn -> verdict))) (m : result exn verdict) : result exn verdict :=
  match m, clauses with
  | Err e, (c, handler) :: clauses' => if issubclass (exn_class e) c then Ok (handler e) else caught clauses' m
  | _, _ => m
  end.
(** A value read, or the error to emit. *)
Definition read_json (rp : repo) (p : path) (kind : pystr) (k : json -> result exn verdict) : result exn verdict :=
  match load_json_strict rp p with
  | Ok v => k v
  | Err e =>
      caught [(DuplicateKeyError, fun e => Emit "DUPLICATE_JSON_KEY" (exn_msg e));
              (JSONDecodeError, fun e => Emit (kind ++ lit "_JSON_INVALID") (lit "JSON parse error: " ++ msg e));
              (OSError, fun e => Emit (kind ++ lit "_FILE_UNREADABLE") (exn_msg e))] (Err e)
  end.
Definition existing_file (rp : repo) (p : path) (code argument : pystr) (k : result exn verdict) : result exn verdict :=
  found ← r_is_file rp p; if (found : bool) then k else Ok (Emit code argument).

Definition main (stack : nat) (rp : repo) (task_file handoff_file claim_registry : pystr) : result exn verdict :=
  match (t ← resolve_repo_relative rp task_file;
         h ← resolve_repo_relative rp handoff_file;
         r ← resolve_repo_relative rp claim_registry;
         Ok (t, h, r)) with
  | Err e => if issubclass (exn_class e) ValueError then Ok (Emit "PATH_OUT_OF_REPO" (exn_msg e)) else Err e
  | Ok (task_path, handoff_path, registry_path) =>
      existing_file rp task_path "TASK_FILE_NOT_FOUND" task_file (
      existing_file rp handoff_path "HANDOFF_FILE_NOT_FOUND" handoff_file (
      existing_file rp registry_path "CLAIM_REGISTRY_NOT_FOUND" claim_registry (
      caught [(DuplicateKeyError, fun e => Emit "CONTRACT_SCHEMA_INVALID" (exn_msg e));
              (JSONDecodeError, fun e => Emit "CONTRACT_SCHEMA_INVALID" (exn_msg e));
              (UnsupportedSchemaError, fun e => Emit "CONTRACT_SCHEMA_UNSUPPORTED" (exn_msg e));
              (OSError, fun e => Emit "CONTRACT_FILE_UNREADABLE" (exn_msg e))] (
        read_json rp task_path "TASK" (fun task =>
        read_json rp handoff_path "HANDOFF" (fun handoff =>
        loaded ← load_claim_registry msg rp registry_path;
        match loaded with
        | Err f => Ok (Emit (f_code f) (f_message f))
        | Ok registry =>
            task_bytes ← r_read rp task_path;
            findings ← validate_handoff stack rp task handoff task_bytes registry;
            Ok (Report (if (length findings =? 0)%nat then 0 else 1) findings)
        end))))))
  end.
End handoff.
