(* ===== verification/HandoffProofs.v ===== *)
(** * Proofs of the agent handoffs

    For a task and a handoff that satisfy their schemas, the validator returns, and it finds nothing
    exactly when the task is one an agent may be given and the handoff fulfils it. *)

From S2P Require Import Prelude PyStr Effects Json JsonText JsonParse JsonContract Sha256 Utf8 FileSystem ClaimRegistry AgentGuard Handoff.
Open Scope Z_scope.

(** ** Judgements *)

(** The computation returns, and without a finding exactly if [P]. *)
Definition judges {B} (m : result exn (list B)) (P : Prop) : Prop := exists fs, m = Ok fs /\ (fs = [] <-> P).

Lemma judges_ok {B : Type} (fs : list B) P : (fs = [] <-> P) -> judges (Ok fs) P.
Proof. by exists fs. Qed.
#[export] Instance judges_proper {B : Type} (m : result exn (list B)) : Proper (iff ==> iff) (judges m).
Proof. intros P Q HPQ. unfold judges. by setoid_rewrite HPQ. Qed.
Lemma judges_collect {A B : Type} (f : A -> result exn (list B)) l (P : A -> Prop) :
  (forall x, x ∈ l -> judges (f x) (P x)) -> judges (collect f l) (forall x, x ∈ l -> P x).
Proof.
  induction l as [|x l IH]; intros Hf; cbn [collect].
  { apply judges_ok. split; [by intros _ x ?%not_elem_of_nil|done]. }
  destruct (Hf x) as (a & -> & Ha); [by left|]. destruct IH as (b & -> & Hb); [intros y Hy; apply Hf; by right|].
  apply judges_ok. rewrite app_nil, Ha, Hb. setoid_rewrite elem_of_cons. naive_solver.
Qed.
Lemma map_nil_iff {A B : Type} (f : A -> B) l : map f l = [] <-> l = [].
Proof. by destruct l. Qed.
Lemma if_nil {A : Type} (b : bool) (x : A) : (if b then [x] else []) = [] <-> b = false.
Proof. by destruct b. Qed.
Lemma unless_nil {A : Type} (b : bool) (x : A) : (if b then [] else [x]) = [] <-> b = true.
Proof. by destruct b. Qed.
Lemma filter_nil_iff {A : Type} (p : A -> bool) l : List.filter p l = [] <-> forall x, x ∈ l -> p x = false.
Proof.
  induction l as [|x l IH]; cbn; [split; [by intros _ x ?%not_elem_of_nil|done]|].
  setoid_rewrite elem_of_cons. destruct (p x) eqn:E; [split; [done|intros H; by rewrite H in E by auto]|]. rewrite IH. naive_solver.
Qed.
Lemma sorted_set_nil l : sorted_set l = [] <-> l = [].
Proof.
  unfold sorted_set. split; [|by intros ->]. intros E. destruct l as [|x l]; [done|].
  assert (x ∈ sort_str (remove_dups (x :: l))) as Hx by (apply elem_of_sort_by, elem_of_remove_dups; by left).
  rewrite E in Hx. by apply not_elem_of_nil in Hx.
Qed.
Lemma set_minus_nil a b : set_minus a b = [] <-> forall x, x ∈ a -> x ∈ b.
Proof. unfold set_minus. rewrite filter_nil_iff. setoid_rewrite negb_false_iff. by setoid_rewrite str_in_elem. Qed.
Lemma set_and_nil a b : set_and a b = [] <-> forall x, x ∈ a -> x ∉ b.
Proof. unfold set_and. rewrite filter_nil_iff. by setoid_rewrite str_in_not. Qed.
Lemma elem_of_set_minus x a b : x ∈ set_minus a b <-> x ∈ a /\ x ∉ b.
Proof. unfold set_minus. by rewrite list_elem_of_In, filter_In, <-list_elem_of_In, negb_true_iff, str_in_not. Qed.
Lemma length_zero {A : Type} (l : list A) : negb (length l =? 0)%nat = false <-> l = [].
Proof. by destruct l. Qed.

Lemma last_of_equal_nil l : last_of_equal l = [] <-> l = [].
Proof.
  split; [|by intros ->]. intros E. destruct (nil_or_length_pos l) as [|Hl]; [done|]. exfalso. revert E.
  induction l as [|f l IH]; cbn in *; [lia|]. destruct (existsb (same_key f) l) eqn:Ef; [|done]. apply IH.
  destruct l; [done|cbn; lia].
Qed.
Lemma sorted_findings_nil l : sort_by gfinding_leb (last_of_equal l) = [] <-> l = [].
Proof.
  rewrite <-(last_of_equal_nil l). split; [|by intros ->]. intros E. pose proof (length_sort_by gfinding_leb (last_of_equal l)) as Hl.
  rewrite E in Hl. by destruct (last_of_equal l).
Qed.
Lemma dedup_nil l : dedup_from [] l = [] <-> l = [].
Proof. by destruct l. Qed.

(** ** What the schemas say of the fields *)

Section shapes.
Context {host : PyHost} (root : json).

Lemma valid_field (d : dict json) schema k c : valid root (JObj d) schema ->
  JStr k ∈ list_of (get_default schema "required" (JList [])) ->
  dget (dict_of (get_default schema "properties" (JObj []))) k = Some c -> exists v, dget d k = Some v /\ valid root v c.
Proof.
  intros (_ & _ & _ & _ & Ho & _)%valid_clauses Hr Hc. destruct (Ho d eq_refl) as (Hreq & Hprop & _).
  specialize (Hreq _ Hr). cbn [str_of] in Hreq. destruct (dget d k) as [v|] eqn:E; [|by apply dget_None in E].
  exists v. split; [done|]. eapply Hprop; [by apply dget_in|done].
Qed.
Lemma valid_string v c : valid root v c -> get c "type" = JStr "string" -> exists s, v = JStr s.
Proof.
  intros (_ & _ & Ht & _)%valid_clauses E. specialize (Ht _ E). vm_compute in Ht. injection Ht as Ht. destruct v; try done. by exists s.
Qed.
Lemma valid_bool v c : valid root v c -> get c "type" = JStr "boolean" -> exists b, v = JBool b.
Proof.
  intros (_ & _ & Ht & _)%valid_clauses E. specialize (Ht _ E). vm_compute in Ht. injection Ht as Ht. destruct v; try done. by exists b.
Qed.
Lemma valid_object v c : valid root v c -> get c "type" = JStr "object" -> exists d, v = JObj d.
Proof.
  intros (_ & _ & Ht & _)%valid_clauses E. specialize (Ht _ E). vm_compute in Ht. injection Ht as Ht. destruct v; try done. by exists d.
Qed.
Lemma valid_all_of v c child : valid root v c -> child ∈ list_of (get_default c "allOf" (JList [])) -> valid root v child.
Proof. intros (_ & Ha & _)%valid_clauses. apply Ha. Qed.
Lemma valid_array v c items : valid root v c -> get c "type" = JStr "array" -> get c "items" = JObj items ->
  exists l, v = JList l /\ forall x, x ∈ l -> valid root x (JObj items).
Proof.
  intros (_ & _ & Ht & _ & _ & Ha & _)%valid_clauses E Ei. specialize (Ht _ E). vm_compute in Ht. injection Ht as Ht.
  destruct v; try done. exists l. split; [done|]. destruct (Ha l eq_refl) as (_ & _ & Hi & _). by apply Hi.
Qed.
Lemma valid_strings v c items : valid root v c -> get c "type" = JStr "array" -> get c "items" = JObj items ->
  get (JObj items) "type" = JStr "string" -> exists l, v = JList (JStr <$> l).
Proof.
  intros Hv E Ei Es. destruct (valid_array v c items Hv E Ei) as (l & -> & Hl).
  assert (exists k, l = JStr <$> k) as [k ->]; [|by exists k]. clear Hv. induction l as [|x l IH]; [by exists []|].
  destruct (valid_string x (JObj items)) as [s ->]; [apply Hl; by left|done|]. destruct IH as [k ->]; [intros y Hy; apply Hl; by right|].
  by exists (s :: k).
Qed.
Lemma valid_ref v c ref target : valid root v c -> get c "$ref" = JStr ref -> pointer root ref = Ok target -> valid root v target.
Proof. intros (Hr & _)%valid_clauses. apply Hr. Qed.
End shapes.

(** The fields of a task, of a handoff, as the values they hold. *)
Record task_view : Type := TaskView {
  tv_id : pystr; tv_allowed : list pystr; tv_forbidden : list pystr; tv_claims : list pystr; tv_expected : list pystr;
  tv_commands : list pystr; tv_delete : bool }.
Definition holds_texts (d : dict json) (k : pystr) (l : list pystr) : Prop := dget d k = Some (JList (JStr <$> l)).
Record is_task (t : dict json) (v : task_view) : Prop := {
  it_id : dget t "task_id" = Some (JStr (tv_id v));
  it_allowed : holds_texts t "allowed_paths" (tv_allowed v);
  it_forbidden : holds_texts t "forbidden_paths" (tv_forbidden v);
  it_claims : holds_texts t "claims" (tv_claims v);
  it_expected : holds_texts t "expected_evidence" (tv_expected v);
  it_commands : holds_texts t "validation_commands" (tv_commands v);
  it_delete : dget t "delete_allowed" = Some (JBool (tv_delete v));
}.
Record handoff_view : Type := HandoffView {
  hv_task : pystr; hv_digest : pystr; hv_outcome : pystr; hv_changed : list pystr; hv_deleted : list pystr;
  hv_claims : list pystr; hv_produced : list pystr; hv_missing : list pystr; hv_results : list (pystr * pystr);
  hv_blockers : list pystr; hv_gaps : list pystr }.
Definition result_record (r : json) (cs : pystr * pystr) : Prop :=
  exists d, r = JObj d /\ dget d "command" = Some (JStr (fst cs)) /\ dget d "status" = Some (JStr (snd cs)).
Record is_handoff (h : dict json) (v : handoff_view) : Prop := {
  ih_task : dget h "task_id" = Some (JStr (hv_task v));
  ih_digest : dget h "task_contract_sha256" = Some (JStr (hv_digest v));
  ih_outcome : dget h "outcome" = Some (JStr (hv_outcome v));
  ih_changed : holds_texts h "changed_paths" (hv_changed v);
  ih_deleted : holds_texts h "deleted_paths" (hv_deleted v);
  ih_claims : holds_texts h "claims_addressed" (hv_claims v);
  ih_produced : holds_texts h "evidence_produced" (hv_produced v);
  ih_missing : holds_texts h "missing_evidence" (hv_missing v);
  ih_results : exists rs, dget h "validation_results" = Some (JList rs) /\ Forall2 result_record rs (hv_results v);
  ih_blockers : holds_texts h "blockers" (hv_blockers v);
  ih_gaps : holds_texts h "residual_gaps" (hv_gaps v);
}.

Section views.
Context {host : PyHost}.

Lemma task_text (t : dict json) k c : valid task_schema (JObj t) task_schema ->
  JStr k ∈ list_of (get_default task_schema "required" (JList [])) ->
  dget (dict_of (get_default task_schema "properties" (JObj []))) k = Some c ->
  get c "type" = JStr "string" -> exists s, dget t k = Some (JStr s).
Proof. intros Hv Hr Hc Ht. destruct (valid_field _ t _ k c Hv Hr Hc) as (v & -> & H). destruct (valid_string _ v c H Ht) as [s ->]. by exists s. Qed.
Lemma task_texts (t : dict json) k c items : valid task_schema (JObj t) task_schema ->
  JStr k ∈ list_of (get_default task_schema "required" (JList [])) ->
  dget (dict_of (get_default task_schema "properties" (JObj []))) k = Some c ->
  get c "type" = JStr "array" -> get c "items" = JObj items -> get (JObj items) "type" = JStr "string" ->
  exists l, holds_texts t k l.
Proof.
  intros Hv Hr Hc H1 H2 H3. destruct (valid_field _ t _ k c Hv Hr Hc) as (v & E & H).
  destruct (valid_strings _ v c items H H1 H2 H3) as [l ->]. by exists l.
Qed.
Ltac in_list := apply list_elem_of_In; vm_compute; tauto.
Lemma task_viewed (t : dict json) : valid task_schema (JObj t) task_schema -> exists v, is_task t v.
Proof.
  intros Hv.
  destruct (task_text t "task_id" _ Hv ltac:(in_list) eq_refl eq_refl) as [i Hi].
  destruct (task_texts t "allowed_paths" _ _ Hv ltac:(in_list) eq_refl eq_refl eq_refl eq_refl) as [a Ha].
  destruct (task_texts t "forbidden_paths" _ _ Hv ltac:(in_list) eq_refl eq_refl eq_refl eq_refl) as [f Hf].
  destruct (task_texts t "claims" _ _ Hv ltac:(in_list) eq_refl eq_refl eq_refl eq_refl) as [c Hc].
  destruct (task_texts t "expected_evidence" _ _ Hv ltac:(in_list) eq_refl eq_refl eq_refl eq_refl) as [e He].
  destruct (task_texts t "validation_commands" _ _ Hv ltac:(in_list) eq_refl eq_refl eq_refl eq_refl) as [w Hw].
  destruct (valid_field _ t _ "delete_allowed" _ Hv ltac:(in_list) eq_refl) as (v & Hd & Hdv).
  destruct (valid_bool _ v _ Hdv eq_refl) as [b ->].
  by exists (TaskView i a f c e w b).
Qed.

(** The field is a list of strings by way of the reference. *)
Lemma valid_unique v : valid handoff_schema v unique_strings -> exists l, v = JList (JStr <$> l).
Proof.
  intros Hv. eapply valid_ref in Hv; [|reflexivity|reflexivity]. eapply valid_strings; [exact Hv|reflexivity..].
Qed.
Lemma handoff_field (h : dict json) k c : valid handoff_schema (JObj h) handoff_schema ->
  JStr k ∈ list_of (get_default handoff_schema "required" (JList [])) ->
  dget (dict_of (get_default handoff_schema "properties" (JObj []))) k = Some c -> exists v, dget h k = Some v /\ valid handoff_schema v c.
Proof. apply valid_field. Qed.
Lemma handoff_text (h : dict json) k c : valid handoff_schema (JObj h) handoff_schema ->
  JStr k ∈ list_of (get_default handoff_schema "required" (JList [])) ->
  dget (dict_of (get_default handoff_schema "properties" (JObj []))) k = Some c ->
  get c "type" = JStr "string" -> exists s, dget h k = Some (JStr s).
Proof. intros Hv Hr Hc Ht. destruct (handoff_field h k c Hv Hr Hc) as (v & -> & H). destruct (valid_string _ v c H Ht) as [s ->]. by exists s. Qed.
Lemma handoff_unique (h : dict json) k : valid handoff_schema (JObj h) handoff_schema ->
  JStr k ∈ list_of (get_default handoff_schema "required" (JList [])) ->
  dget (dict_of (get_default handoff_schema "properties" (JObj []))) k = Some unique_strings -> exists l, holds_texts h k l.
Proof.
  intros Hv Hr Hc. destruct (handoff_field h k _ Hv Hr Hc) as (v & E & H). destruct (valid_unique v H) as [l ->]. by exists l.
Qed.
Lemma record_viewed x items : valid handoff_schema x items -> get items "type" = JStr "object" ->
  JStr "command" ∈ list_of (get_default items "required" (JList [])) -> JStr "status" ∈ list_of (get_default items "required" (JList [])) ->
  forall c1 c2, dget (dict_of (get_default items "properties" (JObj []))) "command" = Some c1 ->
  dget (dict_of (get_default items "properties" (JObj []))) "status" = Some c2 ->
  get c1 "type" = JStr "string" -> get c2 "type" = JStr "string" -> exists cs, result_record x cs.
Proof.
  intros Hv Ht R1 R2 c1 c2 P1 P2 T1 T2. destruct (valid_object _ x items Hv Ht) as [d ->].
  destruct (valid_field _ d _ _ _ Hv R1 P1) as (v1 & E1 & V1). destruct (valid_string _ v1 c1 V1 T1) as [s1 ->].
  destruct (valid_field _ d _ _ _ Hv R2 P2) as (v2 & E2 & V2). destruct (valid_string _ v2 c2 V2 T2) as [s2 ->].
  exists (s1, s2). by exists d.
Qed.
Lemma handoff_viewed (h : dict json) : valid handoff_schema (JObj h) handoff_schema -> exists v, is_handoff h v.
Proof.
  intros Hv.
  destruct (handoff_text h "task_id" _ Hv ltac:(in_list) eq_refl eq_refl) as [i Hi].
  destruct (handoff_text h "task_contract_sha256" _ Hv ltac:(in_list) eq_refl eq_refl) as [g Hg].
  destruct (handoff_text h "outcome" _ Hv ltac:(in_list) eq_refl eq_refl) as [o Ho].
  destruct (handoff_unique h "changed_paths" Hv ltac:(in_list) eq_refl) as [ch Hch].
  destruct (handoff_unique h "deleted_paths" Hv ltac:(in_list) eq_refl) as [de Hde].
  destruct (handoff_unique h "evidence_produced" Hv ltac:(in_list) eq_refl) as [pr Hpr].
  destruct (handoff_unique h "missing_evidence" Hv ltac:(in_list) eq_refl) as [mi Hmi].
  destruct (handoff_unique h "blockers" Hv ltac:(in_list) eq_refl) as [bl Hbl].
  destruct (handoff_unique h "residual_gaps" Hv ltac:(in_list) eq_refl) as [ga Hga].
  destruct (handoff_field h "claims_addressed" _ Hv ltac:(in_list) eq_refl) as (v & Hc & Hcv).
  destruct (valid_unique v) as [cl ->]; [eapply valid_all_of; [exact Hcv|by left]|].
  destruct (handoff_field h "validation_results" _ Hv ltac:(in_list) eq_refl) as (w & Hr & Hrv).
  destruct (valid_array _ w _ _ Hrv eq_refl eq_refl) as (rs & -> & Hrs).
  assert (exists res, Forall2 result_record rs res) as [res Hres].
  { clear Hr Hrv. induction rs as [|x rs IH]; [by exists []|]. destruct IH as [res Hres]; [intros y Hy; apply Hrs; by right|].
    destruct (record_viewed x _ (Hrs x ltac:(by left)) eq_refl ltac:(in_list) ltac:(in_list) _ _ eq_refl eq_refl eq_refl eq_refl) as [cs Hcs].
    exists (cs :: res). by constructor. }
  exists (HandoffView i g o ch de cl pr mi res bl ga). split; try done. by exists rs.
Qed.
End views.

(** ** Repository paths *)

(** The text names a file, or a directory, of the repository by these parts. *)
Definition real_part (part : pystr) : Prop := dotted_part part = false /\ 47%N ∉ part.
Definition file_parts (p : pystr) (ps : list pystr) : Prop :=
  ps <> [] /\ Forall real_part ps /\ normalize_path p = join (lit "/") ps /\ windows_drive (normalize_path p) = false.
Definition dir_parts (p : pystr) (ps : list pystr) : Prop :=
  ps <> [] /\ Forall real_part ps /\ normalize_path p = join (lit "/") ps ++ [47%N] /\ windows_drive (normalize_path p) = false.
(** A scope covers its own file, or every file below its directory. *)
Definition covers (scope : pystr) (ps : list pystr) : Prop :=
  file_parts scope ps \/ exists qs rest, dir_parts scope qs /\ rest <> [] /\ ps = qs ++ rest.

Lemma dotted_spec part : dotted_part part = false <-> part <> [] /\ part <> lit "." /\ part <> lit "..".
Proof. unfold dotted_part. rewrite str_in_not, !not_elem_of_cons. pose proof (not_elem_of_nil part). tauto. Qed.
Lemma real_split ps : ps <> [] -> Forall real_part ps -> split_on 47 (join (lit "/") ps) = ps.
Proof. intros Hn Hp. apply split_on_join; [done|]. eapply Forall_impl; [exact Hp|]. by intros p [_ ?]. Qed.
Lemma join_app a b : a <> [] -> b <> [] -> join (lit "/") (a ++ b) = join (lit "/") a ++ 47%N :: join (lit "/") b.
Proof.
  intros Ha Hb. induction a as [|x [|y a] IH]; [done| |].
  - cbn [app]. by rewrite join_cons_nonnil.
  - cbn [app] in *. rewrite (join_cons_nonnil _ x (y :: a)), (join_cons_nonnil _ x (y :: a ++ b)), IH by done.
    by rewrite <-!app_assoc.
Qed.
Lemma real_text ps : ps <> [] -> Forall real_part ps -> let c := join (lit "/") ps in
  str_eqb c [] || startswith "/" c = false /\ endswith (lit "/") c = false.
Proof.
  intros Hn Hp c. pose proof (real_split ps Hn Hp) as Hs. fold c in Hs.
  assert ([] ∉ split_on 47 c) as He.
  { rewrite Hs. intros Hin. rewrite Forall_forall in Hp. destruct (Hp [] Hin) as [Hd _]. done. }
  split; [apply orb_false_iff; split|].
  - apply str_eqb_neq. intros E. apply He. rewrite E. by left.
  - apply not_true_iff_false. intros [t E]%startswith_spec. apply He. rewrite E. by left.
  - apply not_true_iff_false. intros [t E]%endswith_slash. apply He. rewrite E, split_on_app. apply elem_of_app. right. by left.
Qed.
Lemma real_parts raw : existsb dotted_part (split_on 47 raw) = false ->
  split_on 47 raw <> [] /\ Forall real_part (split_on 47 raw) /\ raw = join (lit "/") (split_on 47 raw).
Proof.
  intros Hd. split; [apply split_on_nonnil|]. split; [|by rewrite (join_split_on 47)].
  apply Forall_forall. intros part Hp. split; [|by eapply split_on_no_sep].
  apply not_true_iff_false. intros Ht. apply not_true_iff_false in Hd. apply Hd, existsb_exists. exists part.
  by rewrite <-list_elem_of_In.
Qed.
Lemma no_dotted ps : Forall real_part ps -> existsb dotted_part ps = false.
Proof. induction 1 as [|p ps [Hp _] _ IH]; [done|]. cbn. by rewrite Hp. Qed.

Lemma normalized_exact b p n : normalize_repo_path b p = Some n <->
  (exists ps, file_parts p ps /\ n = join (lit "/") ps) \/
  (b = true /\ exists ps, dir_parts p ps /\ n = join (lit "/") ps ++ [47%N]).
Proof.
  unfold normalize_repo_path, file_parts, dir_parts. set (raw := normalize_path p). split.
  - destruct (str_eqb raw [] || startswith "/" raw || windows_drive raw) eqn:E; [done|]. apply orb_false_iff in E as [_ Hw].
    destruct (existsb dotted_part _) eqn:Ed; [done|]. destruct (endswith "/" raw) eqn:Es.
    + destruct b; [|done]. cbn [andb negb]. intros [= <-]. right. split; [done|].
      apply endswith_slash in Es as [t Et]. apply real_parts in Ed as (H1 & H2 & H3).
      assert (take (length raw - 1) raw = t) as Ht by (rewrite Et, length_app; cbn; by rewrite take_app_le, firstn_all2 by lia).
      rewrite Ht in *. exists (split_on 47 t). rewrite <-H3. by split_and!.
    + cbn [andb]. intros [= <-]. left. apply real_parts in Ed as (H1 & H2 & H3). exists (split_on 47 raw). by split_and!.
  - intros [(ps & (Hn & Hp & Hr & Hw) & ->)|[-> (ps & (Hn & Hp & Hr & Hw) & ->)]]; rewrite Hw.
    + destruct (real_text ps Hn Hp) as [H1 H2]. rewrite Hr, H1, H2. cbn [orb andb].
      by rewrite real_split, no_dotted.
    + assert (endswith (lit "/") (join (lit "/") ps ++ [47%N]) = true) as Hs by (apply endswith_slash; eauto).
      destruct (real_text ps Hn Hp) as [[H1 H2]%orb_false_iff _]. rewrite Hr, Hs, length_app. cbn [length].
      rewrite take_app_le, firstn_all2 by lia. rewrite real_split, no_dotted by done. apply str_eqb_neq in H1.
      assert (str_eqb (join (lit "/") ps ++ [47%N]) [] = false) as -> by (apply str_eqb_neq; by destruct (join _ ps)).
      assert (startswith "/" (join (lit "/") ps ++ [47%N]) = false) as -> by (by destruct (join _ ps)).
      done.
Qed.
Lemma normalize_path_again p : normalize_path (normalize_path p) = normalize_path p.
Proof.
  unfold normalize_path. rewrite replace_absent; [apply strip_idem|]. apply Forall_forall. intros c Hc%strip_sub.
  rewrite (replace_char 92 47) in Hc. apply list_elem_of_fmap in Hc as (x & -> & _). by destruct (N.eqb_spec x 92).
Qed.
Lemma file_parts_again p ps : file_parts p ps -> file_parts (join (lit "/") ps) ps.
Proof.
  intros (Hn & Hp & Hr & Hw). unfold file_parts. rewrite <-Hr, normalize_path_again. done.
Qed.
Lemma file_parts_unique p ps qs : file_parts p ps -> file_parts p qs -> ps = qs.
Proof.
  intros (Hn & Hp & Hr & _) (Hn' & Hp' & Hr' & _). rewrite <-(real_split ps Hn Hp), <-(real_split qs Hn' Hp'). congruence.
Qed.
Lemma matches_exact p ps scope : file_parts p ps -> path_matches_scope (join (lit "/") ps) scope = true <-> covers scope ps.
Proof.
  intros Hf. pose proof (file_parts_again _ _ Hf) as Hj. unfold path_matches_scope.
  assert (normalize_repo_path false (join (lit "/") ps) = Some (join (lit "/") ps)) as -> by (apply normalized_exact; left; by exists ps).
  destruct Hf as (Hn & Hp & _ & _). unfold covers.
  destruct (normalize_repo_path true scope) as [n|] eqn:E.
  - apply normalized_exact in E as [(qs & Hq & ->)|[_ (qs & Hq & ->)]]; pose proof Hq as (Hn' & Hp' & Hr & _).
    + destruct (real_text qs Hn' Hp') as [_ ->]. rewrite str_eqb_eq. split.
      * intros Ej. left. replace ps with qs; [done|]. by rewrite <-(real_split ps Hn Hp), <-(real_split qs Hn' Hp'), Ej.
      * intros [Hs|(rs & rest & Hd & _)]; [by rewrite (file_parts_unique _ _ _ Hs Hq)|].
        destruct Hd as (_ & _ & Hr' & _). rewrite Hr in Hr'. destruct (real_text qs Hn' Hp') as [_ Hend].
        apply not_true_iff_false in Hend. exfalso. apply Hend, endswith_slash. eauto.
    + assert (endswith (lit "/") (join (lit "/") qs ++ [47%N]) = true) as -> by (apply endswith_slash; eauto).
      rewrite startswith_spec. split.
      * intros [t Et]. rewrite <-app_assoc in Et. cbn in Et. right. exists qs, (split_on 47 t). split; [done|].
        split; [apply split_on_nonnil|]. by rewrite <-(real_split ps Hn Hp), Et, split_on_app, real_split.
      * intros [Hs|(rs & rest & Hd & Hrest & ->)].
        -- destruct Hs as (_ & _ & Hr' & _). rewrite Hr in Hr'. destruct (real_text ps Hn Hp) as [_ Hend].
           apply not_true_iff_false in Hend. exfalso. apply Hend, endswith_slash. eauto.
        -- destruct Hd as (Hn'' & Hp'' & Hr' & _). rewrite Hr in Hr'. apply app_inj_tail in Hr' as [Ej _].
           rewrite join_app, <-Ej by done. exists (join (lit "/") rest). by rewrite <-app_assoc.
  - split; [done|]. intros [Hs|(rs & rest & Hd & _)]; exfalso.
    + assert (normalize_repo_path true scope = Some (join (lit "/") ps)) by (apply normalized_exact; left; by exists ps). congruence.
    + assert (normalize_repo_path true scope = Some (join (lit "/") rs ++ [47%N])) by (apply normalized_exact; right; split; [done|]; by exists rs). congruence.
Qed.

(** ** The task *)

Section judged.
Context {host : PyHost}.

(** A task an agent may be given: scopes that are neither too broad nor forbidden by the task itself,
    generated files only where a generator runs, something to validate and to show, no status that
    only people set, and claims that the registry knows and does not contradict. *)
Record may_be_given (t : dict json) (v : task_view) (registry : dict json) : Prop := {
  mg_some : tv_allowed v <> [] /\ tv_commands v <> [] /\ tv_expected v <> [];
  mg_narrow : forall p, p ∈ tv_allowed v -> lower (trim_trailing p) ∉ DISALLOWED_SCOPE_MARKERS;
  mg_open : forall p, p ∈ tv_allowed v -> forall f, f ∈ tv_forbidden v -> forbidden_blocks_allowed p f = false;
  mg_generated : (exists p, p ∈ tv_allowed v /\ is_generated_path p = true) ->
    dget t "task_type" = Some (JStr "generated_refresh") /\
    exists c, c ∈ tv_commands v /\ contains "scripts/docmeta/generate_" (lower c) = true;
  mg_status : find_status_done (JObj t) [] = [];
  mg_claims : forall c, c ∈ tv_claims v -> exists status, dget (claims_map registry) c = Some status /\
    status ∉ CONTRADICTORY_CLAIM_STATUSES;
}.

Lemma field_list_texts (d : dict json) k l : holds_texts d k l -> field_list d k = Some (JStr <$> l).
Proof. unfold holds_texts, field_list. by intros ->. Qed.
Lemma judges_texts {B : Type} (f : json -> result exn (list B)) l (P : pystr -> Prop) :
  (forall s, s ∈ l -> judges (f (JStr s)) (P s)) -> judges (collect f (JStr <$> l)) (forall s, s ∈ l -> P s).
Proof.
  induction l as [|x l IH]; intros Hf; cbn [fmap list_fmap collect].
  { apply judges_ok. split; [by intros _ x ?%not_elem_of_nil|done]. }
  destruct (Hf x) as (a & -> & Ha); [by left|]. destruct IH as (b & -> & Hb); [intros y Hy; apply Hf; by right|].
  apply judges_ok. rewrite app_nil, Ha, Hb. setoid_rewrite elem_of_cons. naive_solver.
Qed.
Lemma any_generated_texts l : any_generated (JStr <$> l) = Ok (existsb is_generated_path l).
Proof. induction l as [|p l IH]; [done|]. cbn. destruct (is_generated_path p); [done|]. by rewrite IH. Qed.
Lemma has_generator_texts l :
  has_generator_command (JStr <$> l) = Ok (existsb (fun c => contains "scripts/docmeta/generate_" (lower c)) l).
Proof. induction l as [|c l IH]; [done|]. cbn. destruct (contains _ (lower c)); [done|]. by rewrite IH. Qed.
Lemma existsb_elem {A : Type} (p : A -> bool) l : existsb p l = true <-> exists x, x ∈ l /\ p x = true.
Proof. rewrite existsb_exists. by setoid_rewrite list_elem_of_In. Qed.
Lemma generated_judged (t : dict json) v allowed : is_task t v ->
  judges (generated_findings t (JStr <$> allowed)) ((exists p, p ∈ allowed /\ is_generated_path p = true) ->
    dget t "task_type" = Some (JStr "generated_refresh") /\
    exists c, c ∈ tv_commands v /\ contains "scripts/docmeta/generate_" (lower c) = true).
Proof.
  intros Ht. unfold generated_findings. rewrite any_generated_texts. cbn [mbind result_bind].
  rewrite <-existsb_elem, <-existsb_elem. destruct (existsb is_generated_path allowed); [|by apply judges_ok].
  rewrite (field_list_texts _ _ _ (it_commands _ _ Ht)), has_generator_texts. cbn [mbind result_bind].
  apply judges_ok. rewrite if_nil, orb_false_iff, !negb_false_iff.
  assert (py_eq (default JNull (dget t "task_type")) (JStr "generated_refresh") = true <->
    dget t "task_type" = Some (JStr "generated_refresh")) as ->; [|tauto].
  rewrite py_eq_str. destruct (dget t "task_type"); cbn; split; congruence.
Qed.
Lemma scope_judged (t : dict json) v : is_task t v ->
  judges (validate_scope_rules t) (tv_allowed v <> [] /\
    (forall p, p ∈ tv_allowed v -> lower (trim_trailing p) ∉ DISALLOWED_SCOPE_MARKERS) /\
    (forall p, p ∈ tv_allowed v -> forall f, f ∈ tv_forbidden v -> forbidden_blocks_allowed p f = false) /\
    ((exists p, p ∈ tv_allowed v /\ is_generated_path p = true) ->
      dget t "task_type" = Some (JStr "generated_refresh") /\
      exists c, c ∈ tv_commands v /\ contains "scripts/docmeta/generate_" (lower c) = true)).
Proof.
  intros Ht. unfold validate_scope_rules.
  rewrite (field_list_texts _ _ _ (it_allowed _ _ Ht)), (field_list_texts _ _ _ (it_forbidden _ _ Ht)).
  pose proof (generated_judged t v (tv_allowed v) Ht) as Hg.
  destruct (tv_allowed v) as [|a l] eqn:Ea; [apply judges_ok; naive_solver|]. cbn [default].
  assert (judges (collect broad_findings (JStr <$> a :: l))
    (forall p, p ∈ a :: l -> lower (trim_trailing p) ∉ DISALLOWED_SCOPE_MARKERS)) as (fs1 & E1 & H1).
  { apply judges_texts. intros s _. apply judges_ok. by rewrite if_nil, str_in_not. }
  assert (judges (collect (fun allowed => collect (blocked_findings allowed) (JStr <$> tv_forbidden v)) (JStr <$> a :: l))
    (forall p, p ∈ a :: l -> forall f, f ∈ tv_forbidden v -> forbidden_blocks_allowed p f = false)) as (fs2 & E2 & H2).
  { apply judges_texts. intros s _. apply judges_texts. intros f _. apply judges_ok. by rewrite if_nil. }
  destruct Hg as (fs3 & E3 & H3). cbn [fmap list_fmap] in E1, E2, E3 |- *. cbn [from_option id].
  rewrite E1, E2, E3. apply judges_ok. rewrite !app_nil, H1, H2, H3. naive_solver.
Qed.
Lemma empty_field_texts (d : dict json) k l : holds_texts d k l -> empty_list_field d k = false <-> l <> [].
Proof. intros H. unfold empty_list_field. rewrite (field_list_texts _ _ _ H). by destruct l. Qed.
Lemma claims_judged (t : dict json) v registry : is_task t v ->
  validate_claims t registry = [] <-> forall c, c ∈ tv_claims v ->
    exists status, dget (claims_map registry) c = Some status /\ status ∉ CONTRADICTORY_CLAIM_STATUSES.
Proof.
  intros Ht. unfold validate_claims. rewrite (field_list_texts _ _ _ (it_claims _ _ Ht)). cbn [from_option default id].
  rewrite flat_map_nil. setoid_rewrite list_elem_of_fmap.
  assert (forall c, claim_findings registry (JStr c) = [] <->
    exists status, dget (claims_map registry) c = Some status /\ status ∉ CONTRADICTORY_CLAIM_STATUSES) as Hc.
  { intros c. unfold claim_findings. destruct (dget (claims_map registry) c) as [st|]; [|naive_solver].
    rewrite if_nil, str_in_not. naive_solver. }
  setoid_rewrite <-Hc. naive_solver.
Qed.

(** ** The schemas *)

Lemma schema_judged stack code v s : truthy s = true -> schema_ok stack s s = true ->
  exists fs, schema_findings stack code v s = Ok fs /\ (fs = [] <-> valid s v s) /\ Forall (fun f => f_code f = code) fs.
Proof.
  intros Ht Hs. unfold schema_findings.
  assert (validate_instance stack v s JNull "$" = validate_instance stack v s s "$") as ->.
  { destruct stack as [|n]; [done|]. cbn [validate_instance truthy]. by rewrite Ht. }
  destruct (validate_total stack s v s (lit "$") Ht Hs) as [fs E]. rewrite E. apply validate_valid in E; [|done].
  cbn [mbind result_bind]. eexists. split; [done|]. split; [by rewrite map_nil_iff|]. apply Forall_forall.
  intros f (y & -> & _)%list_elem_of_fmap. by destruct y.
Qed.
Lemma schema_clean stack code v s : truthy s = true -> schema_ok stack s s = true -> valid s v s ->
  schema_findings stack code v s = Ok [].
Proof.
  intros Ht Hs Hv. unfold schema_findings.
  assert (validate_instance stack v s JNull "$" = validate_instance stack v s s "$") as ->.
  { destruct stack as [|n]; [done|]. cbn [validate_instance truthy]. by rewrite Ht. }
  destruct (validate_total stack s v s (lit "$") Ht Hs) as [fs E]. rewrite E. apply validate_valid in E; [|done].
  by rewrite (proj2 E Hv).
Qed.
Lemma guard_judged stack (t : dict json) v registry : schema_ok stack task_schema task_schema = true ->
  valid task_schema (JObj t) task_schema -> is_task t v ->
  judges (run_non_ideal_guard stack task_schema (JObj t) registry) (may_be_given t v registry).
Proof.
  intros Hs Hv Ht. unfold run_non_ideal_guard. rewrite schema_clean by done. cbn [mbind result_bind].
  destruct (scope_judged t v Ht) as (fs & -> & Hf). apply judges_ok. cbn [mbind result_bind app].
  rewrite dedup_nil, !app_nil, Hf, (claims_judged t v registry Ht). unfold validate_task_requirements. rewrite app_nil, !if_nil.
  rewrite (empty_field_texts _ _ _ (it_commands _ _ Ht)), (empty_field_texts _ _ _ (it_expected _ _ Ht)).
  split; [intros ((? & ? & ? & ?) & (? & ?) & ? & ?); split; auto|intros [(? & ? & ?) ? ? ? ? ?]; auto 10].
Qed.

(** ** The handoff *)

(** Some text of the list names the file with these parts. *)
Definition names_file (l : list pystr) (ps : list pystr) : Prop := exists p, p ∈ l /\ file_parts p ps.
Definition in_scope (v : task_view) (p : pystr) : Prop :=
  exists ps, file_parts p ps /\ (exists scope, scope ∈ tv_allowed v /\ covers scope ps) /\
    forall scope, scope ∈ tv_forbidden v -> ~ covers scope ps.
(** The evidence is a file, and inside the repository also after links are followed. *)
Definition present (rp : repo) (root : path) (ps : list pystr) : Prop :=
  let candidate := join_path (r_root rp) (join (lit "/") ps) in
  exists resolved, r_resolve rp candidate = Ok resolved /\ is_below root resolved = true /\ r_is_file rp candidate = Ok true.
Definition outcome_fits (v : task_view) (w : handoff_view) : Prop :=
  (hv_outcome w = lit "ready_for_review" ->
     hv_blockers w = [] /\ hv_missing w = [] /\ forall command status, (command, status) ∈ hv_results w -> status = lit "passed") /\
  (hv_outcome w = lit "blocked" -> hv_blockers w <> []) /\
  (hv_outcome w = lit "incomplete" -> hv_missing w <> [] \/ hv_gaps w <> [] \/
     exists command status, (command, status) ∈ hv_results w /\ status <> lit "passed").
Record fulfils (rp : repo) (root : path) (v : task_view) (w : handoff_view) (task_bytes : bytes) : Prop := {
  fu_task : hv_task w = tv_id v /\ hv_digest w = sha256_hex task_bytes;
  fu_scope : forall p, p ∈ hv_changed w ++ hv_deleted w -> in_scope v p;
  fu_apart : forall ps, names_file (hv_changed w) ps -> ~ names_file (hv_deleted w) ps;
  fu_delete : hv_deleted w <> [] -> tv_delete v = true;
  fu_claims : forall c, c ∈ hv_claims w <-> c ∈ tv_claims v;
  fu_produced : forall e, e ∈ hv_produced w -> exists ps, file_parts e ps /\ present rp root ps;
  fu_missing : forall e, e ∈ hv_missing w -> exists ps, file_parts e ps /\ names_file (tv_expected v) ps /\ ~ names_file (hv_produced w) ps;
  fu_expected : forall ps, names_file (tv_expected v) ps -> names_file (hv_produced w) ps \/ names_file (hv_missing w) ps;
  fu_results : NoDup (fst <$> hv_results w) /\ forall command, command ∈ tv_commands v -> command ∈ fst <$> hv_results w;
  fu_outcome : outcome_fits v w;
}.

Lemma texts_ok (d : dict json) k l : holds_texts d k l -> texts d k = Ok l.
Proof.
  unfold holds_texts, texts, item. intros ->. cbn [mbind result_bind iterate]. apply mapM_ok.
  induction l as [|x l IH]; constructor; [done|exact IH].
Qed.
Lemma item_ok (d : dict json) k v : dget d k = Some v -> item (JObj d) k = Ok v.
Proof. unfold item. by intros ->. Qed.
Lemma elem_normalized n l : n ∈ normalized_file_set l <-> exists ps, names_file l ps /\ n = join (lit "/") ps.
Proof.
  unfold normalized_file_set, names_file. rewrite list_elem_of_omap. setoid_rewrite normalized_exact. split.
  - intros (p & Hp & [(ps & Hf & ->)|[[=] _]]). exists ps. split; [by exists p|done].
  - intros (ps & (p & Hp & Hf) & ->). exists p. split; [done|]. left. by exists ps.
Qed.
Lemma names_real l ps : names_file l ps -> split_on 47 (join (lit "/") ps) = ps.
Proof. intros (p & _ & Hn & Hp & _). by apply real_split. Qed.
Lemma normalized_in l ps : join (lit "/") ps ∈ normalized_file_set l -> split_on 47 (join (lit "/") ps) = ps -> names_file l ps.
Proof.
  intros (qs & Hq & E)%elem_normalized Hs. replace ps with qs; [done|]. rewrite <-Hs, E. symmetry. by eapply names_real.
Qed.
Lemma normalized_all a (P : list pystr -> Prop) (Q : pystr -> Prop) :
  (forall ps, names_file a ps -> Q (join (lit "/") ps) <-> P ps) ->
  (forall n, n ∈ normalized_file_set a -> Q n) <-> forall ps, names_file a ps -> P ps.
Proof.
  intros HQ. split.
  - intros H ps Hps. apply (HQ ps Hps), H, elem_normalized. by exists ps.
  - intros H n (ps & Hps & ->)%elem_normalized. by apply (HQ ps Hps), H.
Qed.
Lemma normalized_member l ps : split_on 47 (join (lit "/") ps) = ps -> join (lit "/") ps ∈ normalized_file_set l <-> names_file l ps.
Proof. intros Hs. split; [by intros; apply normalized_in|]. intros H. apply elem_normalized. by exists ps. Qed.

Lemma path_judged v field p : path_findings (tv_allowed v) (tv_forbidden v) field p = [] <-> in_scope v p.
Proof.
  unfold path_findings, in_scope. destruct (normalize_repo_path false p) as [n|] eqn:E.
  - apply normalized_exact in E as [(ps & Hf & ->)|[[=] _]]. rewrite app_nil, unless_nil, if_nil, existsb_elem.
    rewrite <-not_true_iff_false, existsb_elem. setoid_rewrite (matches_exact p ps _ Hf). split.
    + intros [H1 H2]. exists ps. split; [done|]. split; [done|]. intros scope Hs Hc. apply H2. by exists scope.
    + intros (qs & Hq & H1 & H2). rewrite (file_parts_unique _ _ _ Hq Hf) in *. split; [done|]. intros (scope & Hs & Hc). by apply (H2 scope).
  - split; [done|]. intros (ps & Hf & _). exfalso.
    assert (normalize_repo_path false p = Some (join (lit "/") ps)) by (apply normalized_exact; left; by exists ps). congruence.
Qed.
Lemma paths_judged (t h : dict json) v w : is_task t v -> is_handoff h w ->
  judges (validate_paths t h) ((forall p, p ∈ hv_changed w ++ hv_deleted w -> in_scope v p) /\
    (forall ps, names_file (hv_changed w) ps -> ~ names_file (hv_deleted w) ps) /\ (hv_deleted w <> [] -> tv_delete v = true)).
Proof.
  intros Ht Hh. unfold validate_paths.
  rewrite (texts_ok _ _ _ (it_allowed _ _ Ht)), (texts_ok _ _ _ (it_forbidden _ _ Ht)), (texts_ok _ _ _ (ih_changed _ _ Hh)),
    (texts_ok _ _ _ (ih_deleted _ _ Hh)), (item_ok _ _ _ (it_delete _ _ Ht)). cbn [mbind result_bind]. apply judges_ok.
  rewrite !app_nil, !flat_map_nil, map_nil_iff, sorted_set_nil, set_and_nil, if_nil, andb_false_iff, length_zero, negb_false_iff.
  setoid_rewrite path_judged. rewrite (normalized_all (hv_changed w) (fun ps => ~ names_file (hv_deleted w) ps)).
  2:{ intros ps Hps. by rewrite (normalized_member _ _ (names_real _ _ Hps)). }
  setoid_rewrite elem_of_app. cbn [truthy].
  split.
  - intros (H1 & H2 & H3 & H4). split; [naive_solver|]. split; [done|]. intros Hd. destruct H4 as [H4|]; [|done].
    destruct (hv_deleted w) as [|q l]; [done|]. destruct (H2 q) as (ps & Hf & _); [by left|].
    assert (join (lit "/") ps ∈ normalized_file_set (q :: l)) as Hin by (apply elem_normalized; exists ps; split; [exists q; split; [by left|done]|done]).
    rewrite H4 in Hin. by apply not_elem_of_nil in Hin.
  - intros (H1 & H2 & H3). split_and!; [naive_solver|naive_solver|done|]. destruct (hv_deleted w) as [|q l]; [by left|]. right. by apply H3.
Qed.
Lemma addressed_judged (t h : dict json) v w : is_task t v -> is_handoff h w ->
  judges (validate_addressed t h) (forall c, c ∈ hv_claims w <-> c ∈ tv_claims v).
Proof.
  intros Ht Hh. unfold validate_addressed. rewrite (texts_ok _ _ _ (it_claims _ _ Ht)), (texts_ok _ _ _ (ih_claims _ _ Hh)).
  cbn [mbind result_bind]. apply judges_ok. rewrite app_nil, !map_nil_iff, !sorted_set_nil, !set_minus_nil. naive_solver.
Qed.

(** An exception of the file system that the validator does not catch, while it looks for the file [ps]:
    neither an [OSError] nor a [ValueError], such as the [RuntimeError] of [Path.resolve] on a loop of
    symbolic links. *)
Definition probe_raises (rp : repo) (root : path) (ps : list pystr) (x : exn) : Prop :=
  let candidate := join_path (r_root rp) (join (lit "/") ps) in
  issubclass (exn_class x) OSError || issubclass (exn_class x) ValueError = false /\
  (r_resolve rp candidate = Err x \/
   exists resolved, r_resolve rp candidate = Ok resolved /\ is_below root resolved = true /\ r_is_file rp candidate = Err x).
(** What the file system answers for the evidence [produced]: nothing of that kind. *)
Record answers (rp : repo) (root : path) (produced : list pystr) : Prop := {
  an_root : r_resolve rp (r_root rp) = Ok root;
  an_probe : forall e ps x, e ∈ produced -> file_parts e ps -> ~ probe_raises rp root ps x;
}.
Lemma local_judged rp root ps :
  (exists b, local_file rp root (join (lit "/") ps) = Ok b /\ (b = true <-> present rp root ps)) \/
  (exists x, local_file rp root (join (lit "/") ps) = Err x /\ probe_raises rp root ps x).
Proof.
  unfold local_file, present, probe_raises. cbn zeta. set (candidate := join_path _ _).
  destruct (r_resolve rp candidate) as [resolved|e] eqn:E; cbn [mbind result_bind].
  - destruct (is_below root resolved) eqn:Eb; [|left; exists false; split; [done|]; naive_solver].
    destruct (r_is_file rp candidate) as [b|e] eqn:Ef; [left; exists b; split; [done|]; naive_solver|].
    destruct (_ || _) eqn:Ec; [left; exists false; split; [done|]; naive_solver|].
    right. exists e. split; [done|]. split; [done|]. right. by exists resolved.
  - destruct (_ || _) eqn:Ec; [left; exists false; split; [done|]; naive_solver|].
    right. exists e. split; [done|]. split; [done|]. by left.
Qed.
Lemma evidence_file_judged rp root field e : (forall ps x, file_parts e ps -> ~ probe_raises rp root ps x) ->
  judges (evidence_findings rp root field true e) (exists ps, file_parts e ps /\ present rp root ps).
Proof.
  intros Ha. unfold evidence_findings. destruct (normalize_repo_path false e) as [n|] eqn:E.
  - apply normalized_exact in E as [(ps & Hf & ->)|[[=] _]].
    destruct (local_judged rp root ps) as [(b & -> & Hb)|(x & _ & Hx)]; [|by destruct (Ha ps x)]. cbn [mbind result_bind].
    apply judges_ok. rewrite unless_nil, Hb. split; [by exists ps|]. intros (qs & Hq & Hp). by rewrite (file_parts_unique _ _ _ Hf Hq).
  - apply judges_ok. split; [done|]. intros (ps & Hf & _). exfalso.
    assert (normalize_repo_path false e = Some (join (lit "/") ps)) by (apply normalized_exact; left; by exists ps). congruence.
Qed.
(** The first produced file on which the validator raises, if there is one. *)
Lemma evidence_raised rp root field l :
  (forall e ps x, e ∈ l -> file_parts e ps -> ~ probe_raises rp root ps x) \/
  exists e ps x, e ∈ l /\ file_parts e ps /\ probe_raises rp root ps x /\ collect (evidence_findings rp root field true) l = Err x.
Proof.
  induction l as [|e l IH]; [left; by intros ??? ?%not_elem_of_nil|]. cbn [collect].
  assert ((forall ps x, file_parts e ps -> ~ probe_raises rp root ps x) \/
    exists ps x, file_parts e ps /\ probe_raises rp root ps x /\ evidence_findings rp root field true e = Err x) as [He|(ps & x & Hf & Hx & E)].
  - unfold evidence_findings. destruct (normalize_repo_path false e) as [n|] eqn:E.
    + apply normalized_exact in E as [(ps & Hf & ->)|[[=] _]]. destruct (local_judged rp root ps) as [(b & E & _)|(x & E & Hx)].
      * left. intros qs x Hq Hx. rewrite (file_parts_unique _ _ _ Hq Hf) in Hx. clear qs Hq.
        unfold probe_raises, local_file in *. cbn zeta in *. destruct Hx as [Hc [Er|(r & Er & Eb & Ei)]]; rewrite Er in E; cbn [mbind result_bind] in E;
          [by rewrite Hc in E|]. rewrite Eb, Ei, Hc in E. done.
      * right. exists ps, x. split_and!; [done|done|]. by rewrite E.
    + left. intros ps x Hf. exfalso.
      assert (normalize_repo_path false e = Some (join (lit "/") ps)) by (apply normalized_exact; left; by exists ps). congruence.
  - destruct IH as [Hl|(e' & ps & x & Hin & Hf & Hx & E)].
    + left. intros e' ps x [->|Hin]%elem_of_cons; [apply He|by apply Hl].
    + right. exists e', ps, x. split_and!; [by right|done|done|].
      destruct (evidence_file_judged rp root field e He) as (fs & -> & _). cbn [mbind result_bind]. by rewrite E.
  - right. exists e, ps, x. split_and!; [by left|done|done|]. by rewrite E.
Qed.
Lemma evidence_named_judged rp root field e : judges (evidence_findings rp root field false e) (exists ps, file_parts e ps).
Proof.
  unfold evidence_findings. destruct (normalize_repo_path false e) as [n|] eqn:E; apply judges_ok.
  - apply normalized_exact in E as [(ps & Hf & _)|[[=] _]]. split; [by exists ps|done].
  - split; [done|]. intros (ps & Hf). exfalso.
    assert (normalize_repo_path false e = Some (join (lit "/") ps)) by (apply normalized_exact; left; by exists ps). congruence.
Qed.
Lemma unaccounted_nil a b c : set_minus (set_minus a b) c = [] <-> forall x, x ∈ a -> x ∈ b \/ x ∈ c.
Proof.
  rewrite set_minus_nil. setoid_rewrite elem_of_set_minus. split; [|naive_solver]. intros H x Hx.
  destruct (decide (x ∈ b)); [by left|right; by apply H].
Qed.
Lemma evidence_judged (t h : dict json) v w rp root : is_task t v -> is_handoff h w -> answers rp root (hv_produced w) ->
  judges (validate_evidence rp t h) ((forall e, e ∈ hv_produced w -> exists ps, file_parts e ps /\ present rp root ps) /\
    (forall e, e ∈ hv_missing w -> exists ps, file_parts e ps /\ names_file (tv_expected v) ps /\ ~ names_file (hv_produced w) ps) /\
    (forall ps, names_file (tv_expected v) ps -> names_file (hv_produced w) ps \/ names_file (hv_missing w) ps)).
Proof.
  intros Ht Hh Ha. unfold validate_evidence.
  rewrite (texts_ok _ _ _ (it_expected _ _ Ht)), (texts_ok _ _ _ (ih_produced _ _ Hh)), (texts_ok _ _ _ (ih_missing _ _ Hh)), (an_root _ _ _ Ha).
  cbn [mbind result_bind].
  destruct (judges_collect (evidence_findings rp root "evidence_produced" true) (hv_produced w) _
    (fun e He => evidence_file_judged rp root (lit "evidence_produced") e (fun ps x => an_probe _ _ _ Ha e ps x He))) as (fs1 & -> & H1).
  destruct (judges_collect (evidence_findings rp root "missing_evidence" false) (hv_missing w) _
    (fun e _ => evidence_named_judged rp root (lit "missing_evidence") e)) as (fs2 & -> & H2).
  cbn [mbind result_bind]. apply judges_ok.
  rewrite !app_nil, !map_nil_iff, !sorted_set_nil, set_and_nil, unaccounted_nil, set_minus_nil, H1, H2.
  rewrite (normalized_all (hv_produced w) (fun ps => ~ names_file (hv_missing w) ps))
    by (intros ps Hps; by rewrite (normalized_member _ _ (names_real _ _ Hps))).
  rewrite (normalized_all (tv_expected v) (fun ps => names_file (hv_produced w) ps \/ names_file (hv_missing w) ps))
    by (intros ps Hps; by rewrite !(normalized_member _ _ (names_real _ _ Hps))).
  rewrite (normalized_all (hv_missing w) (fun ps => names_file (tv_expected v) ps))
    by (intros ps Hps; by rewrite (normalized_member _ _ (names_real _ _ Hps))).
  split.
  - intros (C1 & C2 & C3 & C4 & C5). split_and!; [done| |done]. intros e He. destruct (C5 e He) as [ps Hf]. exists ps.
    assert (names_file (hv_missing w) ps) as Hm by (by exists e). split_and!; [done|by apply C3|]. intros Hp. by apply (C1 ps).
  - intros (C1 & C2 & C3). split_and!; [|done| |done|intros e He; destruct (C2 e He) as (ps & ? & _); by exists ps].
    + intros ps Hp (e & He & Hf). destruct (C2 e He) as (qs & Hq & _ & Hn). apply Hn. by rewrite (file_parts_unique _ _ _ Hq Hf).
    + intros ps (e & He & Hf). destruct (C2 e He) as (qs & Hq & Hn & _). by rewrite (file_parts_unique _ _ _ Hf Hq).
Qed.

Lemma results_read rs results index (m : dict pystr) : Forall2 result_record rs results -> NoDup (dkeys m) ->
  exists m' repeated, read_results index m rs = Ok (m', repeated) /\
    (repeated = [] <-> NoDup (dkeys (m ++ results))) /\ (repeated = [] -> m' = m ++ results).
Proof.
  intros H. revert index m. induction H as [|r [command status] rs results (d & -> & Hc & Hs) _ IH]; intros index m Hm; cbn [read_results].
  { exists m, []. rewrite app_nil_r. by split_and!. }
  cbn [fst snd] in Hc, Hs. rewrite (item_ok _ _ _ Hc), (item_ok _ _ _ Hs). cbn [mbind result_bind text_of].
  destruct (IH (S index) (dset m command status)) as (m' & repeated & -> & H1 & H2); [by apply NoDup_dset|].
  cbn [mbind result_bind]. eexists m', _. split; [reflexivity|]. destruct (dmem m command) eqn:E.
  - split; [|done]. split; [done|]. intros Hn. exfalso. apply dmem_spec in E. unfold dkeys in *. rewrite fmap_app in Hn.
    apply NoDup_app in Hn as (_ & Hn & _). destruct (Hn command E). cbn. by left.
  - assert (command ∉ dkeys m) as Hk by (rewrite <-dmem_spec; congruence). rewrite dset_fresh, <-app_assoc in H1, H2 by done.
    cbn [app] in H1, H2. done.
Qed.
Lemma truthy_texts l : truthy (JList (JStr <$> l)) = false <-> l = [].
Proof. by destruct l. Qed.
Lemma non_passed_nil (results : dict pystr) : List.filter (fun cs => negb (str_eqb (snd cs) "passed")) results = [] <->
  forall command status, (command, status) ∈ results -> status = lit "passed".
Proof.
  rewrite filter_nil_iff. setoid_rewrite negb_false_iff. setoid_rewrite str_eqb_eq. split; [intros H c s Hin; by apply (H (c, s))|].
  intros H [c s] Hin. by apply (H c).
Qed.
Lemma passed_decision (results : dict pystr) : (forall command status, (command, status) ∈ results -> status = lit "passed") \/
  exists command status, (command, status) ∈ results /\ status <> lit "passed".
Proof.
  destruct (List.filter (fun cs => negb (str_eqb (snd cs) "passed")) results) as [|[c s] l] eqn:E.
  - left. by apply non_passed_nil.
  - right. exists c, s. assert ((c, s) ∈ (c, s) :: l) as Hin by (by left). rewrite <-E in Hin.
    apply list_elem_of_In, filter_In in Hin as [Hin Hs]. apply list_elem_of_In in Hin. apply negb_true_iff, str_eqb_neq in Hs. done.
Qed.
(** The outcome as the code reads it: an unaddressed claim also makes a handoff incomplete. *)
Definition outcome_read (v : task_view) (w : handoff_view) : Prop :=
  (hv_outcome w = lit "ready_for_review" ->
     hv_blockers w = [] /\ hv_missing w = [] /\ forall command status, (command, status) ∈ hv_results w -> status = lit "passed") /\
  (hv_outcome w = lit "blocked" -> hv_blockers w <> []) /\
  (hv_outcome w = lit "incomplete" -> hv_missing w <> [] \/ hv_gaps w <> [] \/
     (exists command status, (command, status) ∈ hv_results w /\ status <> lit "passed") \/ exists c, c ∈ tv_claims v /\ c ∉ hv_claims w).

Lemma outcome_findings_nil v w :
  let unpassed := negb (length (List.filter (fun cs => negb (str_eqb (snd cs) "passed")) (hv_results w)) =? 0)%nat || false in
  let blockers := JList (JStr <$> hv_blockers w) in
  let missing_evidence := JList (JStr <$> hv_missing w) in
  let residual_gaps := JList (JStr <$> hv_gaps w) in
  let outcome := JStr (hv_outcome w) in
  (if py_eq outcome (JStr "ready_for_review") then
     (if truthy blockers || truthy missing_evidence
      then [contradiction "ready_for_review requires no blockers or missing evidence" "outcome"] else [])
     ++ (if unpassed
         then [contradiction "ready_for_review requires every recorded and required validation to pass" "outcome"] else [])
   else if py_eq outcome (JStr "blocked") && negb (truthy blockers) then
     [contradiction "blocked requires at least one blocker" "blockers"]
   else if py_eq outcome (JStr "incomplete")
           && negb (truthy missing_evidence || truthy residual_gaps || unpassed
                    || negb (length (set_minus (tv_claims v) (hv_claims w)) =? 0)%nat) then
     [contradiction "incomplete requires explicitly accounted missing evidence, a failed or not-run validation, or a residual gap" "outcome"]
   else []) = [] <-> outcome_read v w.
Proof.
  cbn zeta. unfold outcome_read. cbn [py_eq].
  assert (forall b : bool, (b = true <-> ~ b = false)) as Hneg by (by intros []).
  assert (negb (length (List.filter (fun cs => negb (str_eqb (snd cs) "passed")) (hv_results w)) =? 0)%nat || false = false <->
    forall command status, (command, status) ∈ hv_results w -> status = lit "passed") as Hp.
  { rewrite orb_false_r, length_zero. apply non_passed_nil. }
  assert (negb (length (set_minus (tv_claims v) (hv_claims w)) =? 0)%nat = false <-> forall c, c ∈ tv_claims v -> c ∈ hv_claims w) as Hc.
  { rewrite length_zero. apply set_minus_nil. }
  set (u := negb (length (List.filter _ (hv_results w)) =? 0)%nat || false) in *. clearbody u.
  set (k := negb (length (set_minus _ _) =? 0)%nat) in *. clearbody k.
  destruct (str_eqb_spec (hv_outcome w) (lit "ready_for_review")) as [E|N1].
  { rewrite E, app_nil, !if_nil, orb_false_iff, !truthy_texts, Hp. split; [intros [[? ?] ?]|intros (H & _); by apply and_assoc in H || (destruct H as (? & ? & ?); auto)].
    split_and!; [done|by intros [=]|by intros [=]]. }
  destruct (str_eqb_spec (hv_outcome w) (lit "blocked")) as [E|N2]; cbn [andb].
  { rewrite E. assert (str_eqb (lit "blocked") (lit "incomplete") = false) as -> by done. cbn [andb].
    pose proof (truthy_texts (hv_blockers w)) as Hb. destruct (truthy (JList (JStr <$> hv_blockers w))); cbn [negb].
    - split; [|done]. intros _. split_and!; [by intros [=]|intros _ Hn; by apply Hb in Hn|by intros [=]].
    - split; [done|]. intros (_ & H & _). by destruct (H eq_refl (proj1 Hb eq_refl)). }
  destruct (str_eqb_spec (hv_outcome w) (lit "incomplete")) as [E|N3]; cbn [andb].
  - rewrite if_nil, negb_false_iff, E, !orb_true_iff, (Hneg (truthy (JList (JStr <$> hv_missing w)))), (Hneg (truthy (JList (JStr <$> hv_gaps w)))), !truthy_texts, (Hneg u), Hp, (Hneg k), Hc.
    split.
    + intros H. split_and!; [by intros [=]|by intros [=]|]. intros _. destruct H as [[[H|H]|H]|H]; [by left|by right; left| |].
      * right. right. left. by destruct (passed_decision (hv_results w)).
      * right. right. right. destruct (set_minus (tv_claims v) (hv_claims w)) as [|c l] eqn:Es; [exfalso; by apply H, set_minus_nil|].
        exists c. apply elem_of_set_minus. rewrite Es. by left.
    + intros (_ & _ & H). destruct (H eq_refl) as [?|[?|[(c & st & Hin & Hn)|(c & Hin & Hn)]]]; [by left; left; left|by left; left; right| |].
      * left. right. intros Ha. by apply Hn, (Ha c).
      * right. intros Ha. by apply Hn, Ha.
  - split; [|done]. intros _. split_and!; by intros ?.
Qed.
Lemma results_judged (t h : dict json) v w : is_task t v -> is_handoff h w ->
  judges (validate_results_and_outcome t h) ((NoDup (fst <$> hv_results w) /\
    (forall command, command ∈ tv_commands v -> command ∈ fst <$> hv_results w)) /\ outcome_read v w).
Proof.
  intros Ht Hh. unfold validate_results_and_outcome. destruct (ih_results _ _ Hh) as (rs & Hrs & Hres).
  rewrite (item_ok _ _ _ Hrs). cbn [mbind result_bind iterate].
  destruct (results_read rs (hv_results w) 0 [] Hres (NoDup_nil_2 (A := pystr))) as (m & repeated & -> & H1 & H2). cbn [mbind result_bind app] in *.
  rewrite (texts_ok _ _ _ (it_commands _ _ Ht)), (item_ok _ _ _ (ih_outcome _ _ Hh)), (item_ok _ _ _ (ih_blockers _ _ Hh)),
    (item_ok _ _ _ (ih_gaps _ _ Hh)), (item_ok _ _ _ (ih_missing _ _ Hh)), (texts_ok _ _ _ (it_claims _ _ Ht)), (texts_ok _ _ _ (ih_claims _ _ Hh)).
  cbn [mbind result_bind]. apply judges_ok. rewrite !app_nil, map_nil_iff, sorted_set_nil.
  change (fst <$> hv_results w) with (dkeys (hv_results w)).
  destruct repeated as [|f l]; [|split; [by intros [[=] _]|intros [[Hn _] _]; by apply H1 in Hn]].
  rewrite (H2 eq_refl). clear H2. rewrite <-outcome_findings_nil. cbn zeta. rewrite <-set_minus_nil.
  destruct (set_minus (tv_commands v) (dkeys (hv_results w))) as [|c l]; [|split; [by intros (_ & [=] & _)|by intros [[_ [=]] _]]].
  cbn [length Nat.eqb negb]. tauto.
Qed.
Lemma outcome_read_fits v w : (forall c, c ∈ hv_claims w <-> c ∈ tv_claims v) -> outcome_read v w <-> outcome_fits v w.
Proof.
  intros Hc. unfold outcome_read, outcome_fits. split; intros (H1 & H2 & H3); (split; [done|split; [done|]]); intros E;
    destruct (H3 E) as [?|[?|H]]; auto. destruct H as [?|(c & Hin & Hn)]; [auto|]. by destruct Hn; apply Hc.
Qed.
Lemma binding_judged (t h : dict json) v w rp root task_bytes : is_task t v -> is_handoff h w -> answers rp root (hv_produced w) ->
  judges (validate_binding rp t h task_bytes) (fulfils rp root v w task_bytes).
Proof.
  intros Ht Hh Ha. unfold validate_binding.
  rewrite (item_ok _ _ _ (ih_task _ _ Hh)), (item_ok _ _ _ (it_id _ _ Ht)), (item_ok _ _ _ (ih_digest _ _ Hh)). cbn [mbind result_bind].
  destruct (paths_judged t h v w Ht Hh) as (f1 & -> & H1), (addressed_judged t h v w Ht Hh) as (f2 & -> & H2),
    (evidence_judged t h v w rp root Ht Hh Ha) as (f3 & -> & H3), (results_judged t h v w Ht Hh) as (f4 & -> & H4).
  cbn [mbind result_bind]. apply judges_ok. rewrite !app_nil, !unless_nil, H1, H2, H3, H4. cbn [py_eq]. rewrite !str_eqb_eq. split.
  - intros (I1 & I2 & (P1 & P2 & P3) & C & (E1 & E2 & E3) & R & O). split; try done. by apply outcome_read_fits.
  - intros [[I1 I2] P1 P2 P3 C E1 E2 E3 R O]. split_and!; try done; [by apply R|by apply R|by apply outcome_read_fits..].
Qed.

Lemma validate_judged stack rp root (t h : dict json) v w task_bytes registry :
  load_schema rp "task.schema.json" = Ok task_schema -> load_schema rp "handoff.schema.json" = Ok handoff_schema ->
  schema_ok stack task_schema task_schema = true -> schema_ok stack handoff_schema handoff_schema = true ->
  answers rp root (hv_produced w) ->
  valid task_schema (JObj t) task_schema -> is_task t v -> is_handoff h w ->
  judges (validate_handoff stack rp (JObj t) (JObj h) task_bytes registry)
    (valid handoff_schema (JObj h) handoff_schema /\ may_be_given t v registry /\ fulfils rp root v w task_bytes).
Proof.
  intros L1 L2 S1 S2 Ha Vt Ht Hh. unfold validate_handoff. rewrite L1, L2. cbn [mbind result_bind].
  rewrite (schema_clean stack (lit "TASK_SCHEMA_INVALID") (JObj t) task_schema eq_refl S1 Vt). cbn [mbind result_bind app].
  destruct (schema_judged stack "HANDOFF_SCHEMA_INVALID" (JObj h) handoff_schema eq_refl S2) as (sh & -> & Hsh & Hcode).
  cbn [mbind result_bind app].
  destruct (guard_judged stack t v registry S1 Vt Ht) as (g & -> & Hg). cbn [mbind result_bind].
  destruct (existsb shape_error (sh ++ g)) eqn:E; cbn [mbind result_bind].
  - apply judges_ok. rewrite sorted_findings_nil, app_nil_r, app_nil, Hsh, Hg. split; [|by intros (? & ? & _)].
    intros [Hs%Hsh Hg'%Hg]. exfalso. by rewrite Hs, Hg' in E.
  - destruct (binding_judged t h v w rp root task_bytes Ht Hh Ha) as (b & -> & Hb). cbn [mbind result_bind].
    apply judges_ok. rewrite sorted_findings_nil, !app_nil, Hsh, Hg, Hb. tauto.
Qed.
(** An exception at the evidence leaves the validator, unless an earlier finding spares the lookup. *)
Lemma validate_raised stack rp root (t h : dict json) v w task_bytes registry x :
  load_schema rp "task.schema.json" = Ok task_schema -> load_schema rp "handoff.schema.json" = Ok handoff_schema ->
  schema_ok stack task_schema task_schema = true -> schema_ok stack handoff_schema handoff_schema = true ->
  r_resolve rp (r_root rp) = Ok root ->
  valid task_schema (JObj t) task_schema -> valid handoff_schema (JObj h) handoff_schema -> is_task t v -> is_handoff h w ->
  collect (evidence_findings rp root (lit "evidence_produced") true) (hv_produced w) = Err x ->
  judges (validate_handoff stack rp (JObj t) (JObj h) task_bytes registry)
    (may_be_given t v registry /\ fulfils rp root v w task_bytes) \/
  validate_handoff stack rp (JObj t) (JObj h) task_bytes registry = Err x.
Proof.
  intros L1 L2 S1 S2 Hr Vt Vh Ht Hh Ex. unfold validate_handoff. rewrite L1, L2. cbn [mbind result_bind].
  rewrite !schema_clean by done. cbn [mbind result_bind app].
  destruct (guard_judged stack t v registry S1 Vt Ht) as (g & -> & Hg). cbn [mbind result_bind].
  destruct (existsb shape_error g) eqn:E; cbn [mbind result_bind].
  - left. apply judges_ok. rewrite sorted_findings_nil, app_nil_r, Hg. split; [|by intros [? _]].
    intros Hg'%Hg. by rewrite Hg' in E.
  - right. unfold validate_binding, validate_evidence.
    rewrite (item_ok _ _ _ (ih_task _ _ Hh)), (item_ok _ _ _ (it_id _ _ Ht)), (item_ok _ _ _ (ih_digest _ _ Hh)). cbn [mbind result_bind].
    destruct (paths_judged t h v w Ht Hh) as (f1 & -> & _), (addressed_judged t h v w Ht Hh) as (f2 & -> & _). cbn [mbind result_bind].
    rewrite (texts_ok _ _ _ (it_expected _ _ Ht)), (texts_ok _ _ _ (ih_produced _ _ Hh)), (texts_ok _ _ _ (ih_missing _ _ Hh)), Hr.
    cbn [mbind result_bind]. change (lit "evidence_produced") with (lit "evidence_produced") in Ex. by rewrite Ex.
Qed.

(** C34: for a task and a handoff that satisfy their schemas, in a repository whose root resolves, the
    validator finds nothing exactly when the task is one an agent may be given and the handoff fulfils
    it: it answers this very task file, every path it changed or deleted is in the scope and outside the
    forbidden scopes, part by part, its claims are the task's, every expected evidence file is either
    present inside the repository or declared missing, every required command has its one result, and
    the outcome fits them.  It returns its findings for whatever files there are, unless the lookup of a
    produced evidence file itself raises what is neither an [OSError] nor a [ValueError], such as the
    [RuntimeError] of [Path.resolve] on a loop of symbolic links: this exception is not caught. *)
Theorem handoff_judged stack rp root (t h : dict json) task_bytes registry :
  load_schema rp "task.schema.json" = Ok task_schema -> load_schema rp "handoff.schema.json" = Ok handoff_schema ->
  schema_ok stack task_schema task_schema = true -> schema_ok stack handoff_schema handoff_schema = true ->
  r_resolve rp (r_root rp) = Ok root ->
  valid task_schema (JObj t) task_schema -> valid handoff_schema (JObj h) handoff_schema ->
  exists v w, is_task t v /\ is_handoff h w /\
    (judges (validate_handoff stack rp (JObj t) (JObj h) task_bytes registry)
       (may_be_given t v registry /\ fulfils rp root v w task_bytes) \/
     exists e ps x, e ∈ hv_produced w /\ file_parts e ps /\ probe_raises rp root ps x /\
       validate_handoff stack rp (JObj t) (JObj h) task_bytes registry = Err x).
Proof.
  intros L1 L2 S1 S2 Hr Vt Vh. destruct (task_viewed t Vt) as [v Ht], (handoff_viewed h Vh) as [w Hh]. exists v, w.
  split; [done|]. split; [done|].
  destruct (evidence_raised rp root (lit "evidence_produced") (hv_produced w)) as [Hp|(e & ps & x & Hin & Hf & Hx & E)].
  - left. destruct (validate_judged stack rp root t h v w task_bytes registry) as (fs & E & Hfs); [done..|]. exists fs. split; [done|]. tauto.
  - destruct (validate_raised stack rp root t h v w task_bytes registry x) as [?|?]; [done..|by left|]. right. by exists e, ps, x.
Qed.
End judged.

(** ** A run *)

Module Examples.
(** The patterns of the schemas ask for shapes; [\S] for a character that is no space. *)
Definition a_host : PyHost := {|
  host_lower := id; host_casefold := id; host_nfkc_casefold := id;
  host_word := fun _ => false; host_digit := fun _ => false; host_printable := fun _ => true;
  host_float_repr := fun _ => lit "0.0";
  host_re := fun p => Ok (fun s => if str_eqb p "\S" then existsb (fun c => negb (is_space c)) s else negb (str_eqb s []));
  host_fromisoformat := fun _ => None; host_isoformat := fun _ => []; host_local := fun _ => None;
  host_upper := id; host_nfc := id; host_control := fun _ => false;
  host_json_depth := 50; host_json_error := fun _ => lit "Expecting value: line 1 column 1 (char 0)"; host_int := fun _ => None;
|}.
#[local] Existing Instance a_host.
(** A value as a file holds it, its keys in their order. *)
Fixpoint written (v : json) : pystr :=
  match v with
  | JList l => lit "[" ++ join (lit ", ") (written <$> l) ++ lit "]"
  | JObj d => lit "{" ++ join (lit ", ") ((fun kv => quote (fst kv) ++ lit ": " ++ written (snd kv)) <$> d) ++ lit "}"
  | _ => canonical_json v
  end.
Definition at_root (l : list string) : path := Path true ([lit "srv"; lit "repo"] ++ (lit <$> l)).
Definition a_task : dict json :=
  [(lit "task_id", JStr "AGENT-SAFE-004"); (lit "goal", JStr "Say what the guard does"); (lit "task_type", JStr "doc_change");
   (lit "allowed_paths", names ["docs/guides/"; "README.md"]); (lit "forbidden_paths", names ["docs/guides/private/"]);
   (lit "claims", names ["CLAIM-1"]); (lit "expected_evidence", names ["artifacts/report.json"]);
   (lit "validation_commands", names ["make lint"]); (lit "delete_allowed", JBool false)].
Definition task_file : bytes := written (JObj a_task).
Definition a_handoff (changed : string) (status : string) (produced : list string) : dict json :=
  [(lit "handoff_id", JStr "H-1"); (lit "task_id", JStr "AGENT-SAFE-004"); (lit "task_contract_sha256", JStr (sha256_hex task_file));
   (lit "source_revision", JStr (repeat 97%N 40)); (lit "producer", JStr "agent"); (lit "outcome", JStr "ready_for_review");
   (lit "changed_paths", names [changed]); (lit "deleted_paths", names []); (lit "claims_addressed", names ["CLAIM-1"]);
   (lit "evidence_produced", names produced); (lit "missing_evidence", names []);
   (lit "validation_results", JList [JObj [(lit "command", JStr "make lint"); (lit "status", JStr (lit status))]]);
   (lit "blockers", names []); (lit "residual_gaps", names [])].
Definition a_registry : dict json :=
  [(lit "claims", JList [JObj [(lit "id", JStr "CLAIM-1"); (lit "status", JStr "verified")]])].
Definition path_eqb (p q : path) : bool := Bool.eqb (absolute p) (absolute q) && bool_decide (parts p = parts q).
Definition a_repo : repo := {|
  r_root := at_root [];
  r_resolve := Ok;
  r_is_file := fun p => Ok (path_eqb p (at_root ["artifacts"; "report.json"]));
  r_exists := fun p => Ok (path_eqb p (at_root ["artifacts"; "report.json"]));
  r_read := fun p =>
    if path_eqb p (at_root ["contracts"; "agent"; "task.schema.json"]) then Ok (written task_schema)
    else if path_eqb p (at_root ["contracts"; "agent"; "handoff.schema.json"]) then Ok (written handoff_schema)
    else raise FileNotFoundError "No such file or directory";
|}.
Definition codes (task handoff : dict json) : list pystr :=
  match validate_handoff 20 a_repo (JObj task) (JObj handoff) task_file a_registry with
  | Ok fs => f_code <$> fs
  | Err e => [lit (exc_name (exn_class e))]
  end.

Example accepted : codes a_task (a_handoff "docs/guides/agents.md" "passed" ["artifacts/report.json"]) = [].
Proof. vm_compute. reflexivity. Qed.
Example outside : codes a_task (a_handoff "docs/guides-old/agents.md" "failed" []) =
  [lit "CONTRADICTORY_OUTCOME"; lit "EXPECTED_EVIDENCE_UNACCOUNTED"; lit "PATH_OUT_OF_SCOPE"].
Proof. vm_compute. reflexivity. Qed.
Example private_file : codes a_task (a_handoff "docs\guides\private\x.md" "passed" ["artifacts/report.json"]) = [lit "FORBIDDEN_PATH"].
Proof. vm_compute. reflexivity. Qed.
(** An expected evidence that names no repository file is asked of nobody. *)
Example evidence_forgotten :
  codes (dset a_task "expected_evidence" (names ["./report.json"])) (a_handoff "README.md" "passed" []) = [].
Proof. vm_compute. reflexivity. Qed.
(** A scope that is no text makes the guard raise, although the schema has found the task invalid. *)
Example malformed_scope_raises :
  codes (dset a_task "allowed_paths" (JList [JInt 1])) (a_handoff "README.md" "passed" []) = [lit "AttributeError"].
Proof. vm_compute. reflexivity. Qed.

(** An evidence file that is a loop of symbolic links. *)
Definition looped_repo : repo := {|
  r_root := at_root [];
  r_resolve := fun p => if path_eqb p (at_root ["artifacts"; "report.json"]) then raise RuntimeError "Symlink loop from" else Ok p;
  r_is_file := r_is_file a_repo; r_exists := r_exists a_repo; r_read := r_read a_repo;
|}.
Example loop_raises :
  validate_handoff 20 looped_repo (JObj a_task) (JObj (a_handoff "docs/guides/agents.md" "passed" ["artifacts/report.json"])) task_file a_registry =
  raise RuntimeError "Symlink loop from".
Proof. vm_compute. reflexivity. Qed.
Lemma handoff_judged_witness : exists v w,
  may_be_given a_task v a_registry /\ fulfils a_repo (at_root []) v w task_file.
Proof.
  destruct (handoff_judged 20 a_repo (at_root []) a_task (a_handoff "docs/guides/agents.md" "passed" ["artifacts/report.json"])
    task_file a_registry) as (v & w & _ & _ & [(fs & E & H)|(e & ps & x & _ & _ & _ & E)]).
  - vm_compute. reflexivity.
  - vm_compute. reflexivity.
  - vm_compute. reflexivity.
  - vm_compute. reflexivity.
  - reflexivity.
  - apply (validate_valid 20 (JObj a_task) task_schema task_schema "$" []); vm_compute; reflexivity.
  - apply (validate_valid 20 (JObj (a_handoff "docs/guides/agents.md" "passed" ["artifacts/report.json"])) handoff_schema handoff_schema "$" []);
      vm_compute; reflexivity.
  - exists v, w. apply H. clear H. vm_compute in E. injection E as <-. reflexivity.
  - exfalso. vm_compute in E. discriminate E.
Defined.
End Examples.
