(* ===== verification/TaskRun.v ===== *)
(** * The dry run of an agent task: what it reads

    [src/scripts/agent/run_task.py], up to the handoff it builds: the fingerprint of the repository,
    the task, its schema and the registry.  The program runs in a world [W] of which [Surroundings]
    says how Git, the files and the clock answer; every answer may change the world, so that others
    may work on the repository during the run. *)

From S2P Require Import Prelude PyStr Effects Json JsonText JsonParse JsonContract Sha256 Utf8 FileSystem ClaimRegistry AgentGuard Handoff.
Open Scope Z_scope.

(** ** Errors *)

(** A [RunnerError] with its attributes, or another exception. *)
Record runner_error : Type := RunnerError {
  e_code : pystr; e_message : pystr; e_evidence_path : option pystr; e_cleanup_errors : list pystr }.
Inductive failure : Type := Runner (e : runner_error) | Other (e : exn).

Definition run (W A : Type) : Type := W -> result failure A * W.
#[global] Instance run_ret W : MRet (run W) := fun _ a w => (Ok a, w).
#[global] Instance run_bind W : MBind (run W) := fun _ _ f m w =>
  match m w with (Ok a, w') => f a w' | (Err e, w') => (Err e, w') end.

Definition outcome {A} (r : result exn A) : result failure A := match r with Ok a => Ok a | Err e => Err (Other e) end.
Definition lift {W A} (r : result exn A) : run W A := fun w => (outcome r, w).
Definition calls {W A} (m : eff W A) : run W A := fun w => let '(r, w') := m w in (outcome r, w').
Definition fails {W A} (f : failure) : run W A := fun w => (Err f, w).
Definition refuse_run {W A} (code message : pystr) : run W A := fails (Runner (RunnerError code message None [])).
(** [try: m  except classes as exc: raise RunnerError(code, text(exc)) from exc] *)
Definition reported {W A} (classes : list exc_class) (code : pystr) (text : exn -> pystr) (m : run W A) : run W A := fun w =>
  match m w with
  | (Err (Other e), w') =>
      if existsb (issubclass (exn_class e)) classes then refuse_run code (text e) w' else (Err (Other e), w')
  | o => o
  end.

Definition TimeoutExpired : exc_class := Sub "TimeoutExpired" (Sub "SubprocessError" Exception).

(** ** The world *)

(** [os.lstat] as far as it is read. *)
Record lstat_result : Type := LStat { l_dev : Z; l_ino : Z; l_mode : Z; l_size : Z; l_mtime_ns : Z }.
#[export] Instance lstat_eq_dec : EqDecision lstat_result.
Proof. solve_decision. Defined.

Class Surroundings (W : Type) : Type := {
  files : W -> repo * W;                          (* the files as they are now *)
  git_text : list pystr -> eff W (Z * pystr);     (* the exit code of [git] and its output *)
  git_bytes : list pystr -> eff W (Z * bytes);
  lstat : path -> eff W lstat_result;
  readlink : path -> eff W bytes;
  content_of : path -> eff W bytes;
  resolve_strict : path -> eff W path;
  utc_timestamp : eff W pystr;
  new_run_id : eff W pystr;
}.

Section task_run.
Context {host : PyHost} {W : Type} {surroundings : Surroundings W} (msg : exn -> pystr).

(** The repository at [root] as its files are now. *)
Definition rooted (root : path) (rp : repo) : repo := Repo root (r_resolve rp) (r_is_file rp) (r_exists rp) (r_read rp).
Definition repo_at (root : path) : run W repo := fun w => let '(rp, w') := files w in (Ok (rooted root rp), w').

Definition STAGE_NAMES : list pystr :=
  [lit "capture_repository_state"; lit "load_task"; lit "validate_task_schema"; lit "load_claim_registry"; lit "run_non_ideal_guard";
   lit "resolve_source_revision"; lit "prepare_execution_plan"; lit "account_expected_evidence"; lit "build_handoff";
   lit "validate_handoff"; lit "verify_repository_unchanged"; lit "finalize_result"].
Definition PRODUCER : pystr := lit "scripts.agent.run_task".
Definition RESIDUAL_GAPS : list pystr :=
  [lit "dry-run does not execute task validation commands"; lit "dry-run does not apply repository changes";
   lit "run-evidence-lite persists only successfully planned dry-runs";
   lit "run-evidence-lite is not a CI attestation or write-mode authorization"].
Definition source_revision_ok (s : pystr) : bool := all_hex_of_length 40 s.
Definition run_id_ok (s : pystr) : bool :=
  (length s =? 33)%nat && startswith "RUN-" s && forallb ascii_digit (take 8 (drop 4 s)) && startswith "T" (drop 12 s)
  && forallb ascii_digit (take 6 (drop 13 s)) && startswith "Z-" (drop 19 s) && all_hex_of_length 12 (drop 21 s).

(** ** The stages and their statuses *)

Definition stage_status (current : dict pystr) (name status : pystr) : dict pystr := dset current name status.
Definition render_stages (statuses : dict pystr) : json :=
  JList ((fun name =>
    JObj ([(lit "name", JStr name); (lit "status", JStr (default (lit "not_run") (dget statuses name)))]
          ++ match dget statuses (name ++ lit ":message") with Some ((_ :: _) as m) => [(lit "message", JStr m)] | _ => [] end)) <$> STAGE_NAMES).

(** ** The task file *)

Definition resolve_task_path (root : path) (value : pystr) : run W (path * pystr) :=
  let raw_text := normalize_path value in
  if str_eqb raw_text [] || startswith "/" raw_text || windows_drive raw_text then
    refuse_run "TASK_PATH_INVALID" "Task path must be repository-relative"
  else if existsb dotted_part (path_parts raw_text) then
    refuse_run "TASK_PATH_INVALID" "Task path must not contain empty, current, or parent segments"
  else
    rp ← repo_at root;
    real ← lift (r_resolve rp root);
    let candidate := join_path root raw_text in
    reported [OSError; RuntimeError; ValueError] "TASK_PATH_INVALID" (fun _ => lit "Task path resolves outside repository root")
      (resolved ← lift (r_resolve rp candidate);
       if is_below real resolved then mret tt else lift (raise ValueError (lit "is not in the subpath of"))) ;;
    found ← lift (r_is_file rp candidate);
    if negb found then refuse_run "TASK_FILE_NOT_FOUND" (lit "Task file not found: " ++ raw_text)
    else mret (candidate, raw_text).

Definition load_task_bytes (root task_path : path) : run W (bytes * pystr * json) :=
  rp ← repo_at root;
  raw_task ← reported [OSError] "TASK_FILE_UNREADABLE" exn_msg (lift (r_read rp task_path));
  let digest := sha256_hex raw_task in
  task_text ← reported [UnicodeDecodeError] "TASK_UTF8_INVALID" (fun _ => lit "Task file must be valid UTF-8") (lift (decode_strict raw_task));
  task ← reported [JSONDecodeError] "TASK_JSON_INVALID" (fun e => lit "JSON parse error: " ++ msg e)
           (reported [DuplicateKeyError] "TASK_JSON_DUPLICATE_KEY" exn_msg (lift (loads_json_strict task_text)));
  mret (raw_task, digest, task).

(** The contract [name] of the repository, which must be an object. *)
Definition load_contract (root : path) (name not_object : pystr) : run W json :=
  rp ← repo_at root;
  schema ← reported [OSError; JSONDecodeError; DuplicateKeyError] "CONTRACT_SCHEMA_INVALID" exn_msg
             (lift (load_json_strict rp (path_child (path_child (path_child root "contracts") "agent") name)));
  if is_dict schema then mret schema else refuse_run "CONTRACT_SCHEMA_INVALID" not_object.
Definition load_run_schema (root : path) : run W json := load_contract root "task.schema.json" "Task schema must be an object".
Definition load_evidence_schema (root : path) (name : pystr) : run W json := load_contract root name (name ++ lit " must be an object").

Definition task_schema_findings (stack : nat) (task schema : json) : run W (list gfinding) :=
  reported [UnsupportedSchemaError] "CONTRACT_SCHEMA_UNSUPPORTED" exn_msg (lift (schema_findings stack "TASK_SCHEMA_INVALID" task schema)).

Definition load_run_registry (root : path) : run W (dict json) :=
  rp ← repo_at root;
  '(data, parser_findings, parser_exit) ← lift (load_registry msg rp (path_child (path_child (path_child root "docs") "claims") "registry.yml"));
  if negb (parser_exit =? 0) || is_none data then
    match parser_findings with
    | first :: _ =>
        if str_eqb (rf_code first) "REGISTRY_MISSING" then refuse_run "CLAIM_REGISTRY_NOT_FOUND" "Claim registry not found"
        else refuse_run "CLAIM_REGISTRY_INVALID" (rf_message first)
    | [] => refuse_run "CLAIM_REGISTRY_NOT_FOUND" "Claim registry not found"
    end
  else
    registry_findings ← lift (validate_registry_data rp data);
    match registry_findings, data with
    | first :: _, _ => refuse_run "CLAIM_REGISTRY_INVALID" (rf_message first)
    | [], JObj d => mret d
    | [], _ => refuse_run "CLAIM_REGISTRY_INVALID" "Claim registry must be an object"
    end.

(** ** Git *)

Definition validate_source_revision (source_revision : pystr) : run W unit :=
  if source_revision_ok source_revision then mret tt
  else refuse_run "SOURCE_REVISION_INVALID" "Source revision must be the current 40-character lowercase Git HEAD".

Definition resolve_git_toplevel (repo_root : path) : run W path :=
  '(returncode, stdout) ← reported [OSError; TimeoutExpired] "SOURCE_REVISION_UNAVAILABLE" exn_msg
                            (calls (git_text [lit "rev-parse"; lit "--show-toplevel"]));
  if negb (returncode =? 0) then refuse_run "SOURCE_REVISION_UNAVAILABLE" "Unable to resolve Git repository root"
  else
    '(observed, expected) ← reported [OSError; RuntimeError; ValueError] "SOURCE_REVISION_UNAVAILABLE" exn_msg
        (observed ← calls (resolve_strict (join_any (Path false []) (strip stdout)));
         expected ← calls (resolve_strict repo_root);
         mret (observed, expected));
    if Bool.eqb (absolute observed) (absolute expected) && bool_decide (parts observed = parts expected) then mret observed
    else refuse_run "GIT_REPOSITORY_MISMATCH" "Git commands resolved a repository other than repo_root".

Definition resolve_git_head (repo_root : path) : run W pystr :=
  resolve_git_toplevel repo_root ;;
  '(returncode, stdout) ← reported [OSError; TimeoutExpired] "SOURCE_REVISION_UNAVAILABLE" exn_msg
                            (calls (git_text [lit "rev-parse"; lit "--verify"; lit "HEAD"]));
  let revision := strip stdout in
  if negb (returncode =? 0) || negb (source_revision_ok revision) then
    refuse_run "SOURCE_REVISION_UNAVAILABLE" "Unable to resolve current Git HEAD"
  else if str_eqb revision (repeat 48%N 40) then refuse_run "SOURCE_REVISION_UNAVAILABLE" "Git HEAD is invalid"
  else mret revision.

Definition git_output (arguments : list pystr) : run W bytes :=
  '(returncode, stdout) ← reported [OSError; TimeoutExpired] "GIT_STATE_UNAVAILABLE" exn_msg (calls (git_bytes arguments));
  if negb (returncode =? 0) then
    refuse_run "GIT_STATE_UNAVAILABLE" (lit "Unable to read Git-visible repository state: " ++ join (lit " ") arguments)
  else mret stdout.

(** ** The fingerprint *)

(** [hasher.update(len(part).to_bytes(8, "big")); hasher.update(part)]: the hasher is what it has been fed. *)
Definition hash_part (hasher part : bytes) : result exn bytes :=
  if (2 ^ 64 <=? N.of_nat (length part))%N then raise OverflowError "int too big to convert"
  else Ok (hasher ++ be_bytes 8 (N.of_nat (length part)) ++ part).
Definition hash_record (hasher label payload : bytes) : result exn bytes :=
  fed ← hash_part hasher label; hash_part fed payload.

(** [f"{n:o}"] of a natural number *)
Fixpoint octal_from (fuel : nat) (n : Z) (digits : pystr) : pystr :=
  match fuel with
  | O => digits
  | S fuel' =>
      let digits := Z.to_N (48 + Z.land n 7) :: digits in
      if n <? 8 then digits else octal_from fuel' (Z.shiftr n 3) digits
  end.
Definition octal (n : Z) : pystr := octal_from (S (Z.to_nat (Z.log2 n))) n [].

(** What of an untracked path goes into the fingerprint: its kind, its mode and its content. *)
Record untracked : Type := Untracked { u_path : bytes; u_kind : bytes; u_mode : bytes; u_digest : bytes }.
Definition untracked_record (root : path) (raw_path : bytes) : run W untracked :=
  let candidate := join_any root (decode_escaped raw_path) in
  '(before, kind, content_digest, after) ←
    reported [OSError] "GIT_STATE_UNAVAILABLE" (fun _ => lit "Unable to fingerprint untracked path: " ++ decode_escaped raw_path)
      (before ← calls (lstat candidate);
       '(kind, content_digest) ←
         (if S_ISLNK (l_mode before) then target ← calls (readlink candidate); mret (lit "symlink", sha256 target)
          else if S_ISREG (l_mode before) then content ← calls (content_of candidate); mret (lit "file", sha256 content)
          else mret (lit "special:" ++ octal (S_IFMT (l_mode before)), sha256 []));
       after ← calls (lstat candidate);
       mret (before, kind, content_digest, after));
  if bool_decide (before = after) then mret (Untracked raw_path kind (octal (S_IMODE (l_mode before))) content_digest)
  else refuse_run "GIT_STATE_UNAVAILABLE" (lit "Untracked path changed while fingerprinting: " ++ decode_escaped raw_path).

Fixpoint feed_untracked (root : path) (hasher : bytes) (paths : list bytes) : run W bytes :=
  match paths with
  | [] => mret hasher
  | raw_path :: paths' =>
      u ← untracked_record root raw_path;
      hasher ← lift (hash_record hasher (lit "untracked-path") (u_path u));
      hasher ← lift (hash_record hasher (lit "untracked-kind") (u_kind u));
      hasher ← lift (hash_record hasher (lit "untracked-mode") (u_mode u));
      hasher ← lift (hash_record hasher (lit "untracked-content-sha256") (u_digest u));
      feed_untracked root hasher paths'
  end.
Definition untracked_paths (untracked_raw : bytes) : list bytes :=
  sort_str (List.filter (fun p => negb (str_eqb p [])) (split_on 0 untracked_raw)).

Definition INDEX_DIFF : list pystr :=
  [lit "diff"; lit "--cached"; lit "--no-ext-diff"; lit "--no-textconv"; lit "--binary"; lit "--full-index"; lit "HEAD"; lit "--"].
Definition WORKTREE_DIFF : list pystr :=
  [lit "diff"; lit "--no-ext-diff"; lit "--no-textconv"; lit "--binary"; lit "--full-index"; lit "--"].
Definition LS_UNTRACKED : list pystr := [lit "ls-files"; lit "--others"; lit "--exclude-per-directory=.gitignore"; lit "-z"].
Definition repository_state_bytes (repo_root : path) : run W bytes :=
  rp ← repo_at repo_root;
  root ← lift (r_resolve rp repo_root);
  head_before ← resolve_git_head root;
  index_diff ← git_output INDEX_DIFF;
  worktree_diff ← git_output WORKTREE_DIFF;
  untracked_raw ← git_output LS_UNTRACKED;
  hasher ← lift (hash_record [] (lit "head") head_before);
  hasher ← lift (hash_record hasher (lit "index-diff") index_diff);
  hasher ← lift (hash_record hasher (lit "worktree-diff") worktree_diff);
  hasher ← feed_untracked root hasher (untracked_paths untracked_raw);
  head_after ← resolve_git_head root;
  if str_eqb head_before head_after then mret (sha256 hasher)
  else refuse_run "GIT_STATE_UNAVAILABLE" "Git HEAD changed while fingerprinting repository state".

Definition assert_repository_unchanged (repo_root : path) (before_state : bytes) (state_reader : path -> run W bytes) : run W unit :=
  now_state ← state_reader repo_root;
  if str_eqb before_state now_state then mret tt
  else refuse_run "REPO_MUTATED_DURING_DRY_RUN" "Git-visible repository content changed during dry run".

(** ** The plan and the handoff *)

(** [list(task[k])] *)
Definition listed (task : dict json) (k : pystr) : result exn json := v ← item (JObj task) k; l ← iterate v; Ok (JList l).
Definition execution_plan_of (task : dict json) : result exn (dict json) :=
  allowed_paths ← listed task "allowed_paths";
  forbidden_paths ← listed task "forbidden_paths";
  delete_allowed ← item (JObj task) "delete_allowed";
  Ok [(lit "allowed_paths", allowed_paths); (lit "forbidden_paths", forbidden_paths); (lit "delete_allowed", JBool (truthy delete_allowed));
      (lit "planned_changed_paths", JList []); (lit "planned_deleted_paths", JList [])].
Definition evidence_accounting_of (task : dict json) : result exn (dict json) :=
  expected ← listed task "expected_evidence";
  Ok [(lit "expected_evidence", expected); (lit "evidence_produced", JList []); (lit "missing_evidence", expected)].
Definition validate_evidence_accounting (task accounting : dict json) : run W unit :=
  expected ← lift (texts task "expected_evidence");
  produced ← lift (texts accounting "evidence_produced");
  missing ← lift (texts accounting "missing_evidence");
  if negb (length (set_minus (set_minus expected produced) missing) =? 0)%nat then
    refuse_run "EVIDENCE_ACCOUNTING_INCOMPLETE" "Expected evidence is not fully accounted"
  else if negb (length (set_minus missing expected) =? 0)%nat then
    refuse_run "EVIDENCE_ACCOUNTING_INVALID" "Missing evidence contains entries not required by the task"
  else mret tt.

Definition handoff_id_of (task_id task_digest : pystr) : pystr :=
  lit "DRY-RUN-" ++ task_id ++ lit "-" ++ upper (take 12 task_digest).
Definition handoff_of (task : dict json) (task_digest source_revision : pystr) : result exn (dict json) :=
  task_id ← item (JObj task) "task_id";
  claims ← listed task "claims";
  expected ← listed task "expected_evidence";
  commands ← (v ← item (JObj task) "validation_commands"; iterate v);
  Ok [(lit "handoff_id", JStr (handoff_id_of (to_str task_id) task_digest)); (lit "task_id", task_id);
      (lit "task_contract_sha256", JStr task_digest); (lit "source_revision", JStr source_revision);
      (lit "producer", JStr PRODUCER); (lit "outcome", JStr "incomplete");
      (lit "changed_paths", JList []); (lit "deleted_paths", JList []); (lit "claims_addressed", claims);
      (lit "evidence_produced", JList []); (lit "missing_evidence", expected);
      (lit "validation_results",
        JList ((fun command => JObj [(lit "command", command); (lit "status", JStr "not_run")]) <$> commands));
      (lit "blockers", JList []); (lit "residual_gaps", JList (JStr <$> RESIDUAL_GAPS))].

Definition finding_json (f : gfinding) : json :=
  JObj ([(lit "code", JStr (f_code f)); (lit "message", JStr (f_message f))]
        ++ match f_field f with Some field => [(lit "field", JStr field)] | None => [] end).
(** [or {}] *)
Definition or_empty (d : option (dict json)) : json := JObj (default [] d).
Definition or_null (s : option json) : json := default JNull s.
Definition base_result (status task_file : pystr) (source_revision : option json) (stages : json) (findings : list gfinding)
    (task_id : option json) (task_digest : pystr) (execution_plan evidence_accounting handoff : option (dict json))
    (repository_unchanged : bool) : dict json :=
  [(lit "mode", JStr "dry_run"); (lit "status", JStr status); (lit "task_file", JStr task_file); (lit "task_id", or_null task_id);
   (lit "task_contract_sha256", JStr task_digest); (lit "source_revision", or_null source_revision); (lit "stages", stages);
   (lit "findings", JList (finding_json <$> findings)); (lit "execution_plan", or_empty execution_plan);
   (lit "evidence_accounting", or_empty evidence_accounting); (lit "handoff", or_empty handoff);
   (lit "repository_unchanged", JBool repository_unchanged)].
End task_run.
