(* ===== verification/Evidence.v ===== *)
(** * The dry run of an agent task: publishing its evidence

    [src/scripts/agent/run_task.py], from the output directory to [publish_evidence_bundle]: four
    files are written into a staging directory, checked, and the directory is renamed to its target in
    one call.  A [disk] is a tree of directories under inode numbers; every call on it runs under the
    script of faults of [Effects], and before it others may change the tree.  A descriptor is the
    inode it was opened at. *)

From S2P Require Import Prelude PyStr Effects Json JsonContract Sha256 FileSystem ClaimRegistry AgentGuard Handoff TaskRun.
Open Scope Z_scope.

Definition NotADirectoryError : exc_class := Sub "NotADirectoryError" OSError.
Definition PermissionError : exc_class := Sub "PermissionError" OSError.
Definition ELOOP : exc_class := Sub "ELOOP" OSError.
Definition ENOTEMPTY : exc_class := Sub "ENOTEMPTY" OSError.

(** ** The disk *)

Inductive entry : Type := Dir (inode : N) | Reg (content : bytes) | Link.
#[export] Instance entry_eq_dec : EqDecision entry.
Proof. solve_decision. Defined.
Abbreviation listing := (gmap pystr entry).
Record disk : Type := Disk {
  dk_dirs : gmap N listing;                  (* the root is inode 0 *)
  dk_next : N;
  dk_others : list (gmap N listing -> gmap N listing);
  dk_short : list nat;                       (* how much the first half of a write takes *)
  dk_faults : list fault;
}.
#[export] Program Instance disk_faulty : Faulty disk := {|
  faults := dk_faults;
  with_faults k f := Disk (dk_dirs k) (dk_next k) (dk_others k) (dk_short k) f;
|}.
Solve Obligations with by intros [].

Definition set_dirs (k : disk) (dirs : gmap N listing) : disk := Disk dirs (dk_next k) (dk_others k) (dk_short k) (dk_faults k).
Definition disturbed (k : disk) : disk :=
  match dk_others k with
  | [] => k
  | f :: rest => Disk (f (dk_dirs k)) (dk_next k) rest (dk_short k) (dk_faults k)
  end.
(** One system call. *)
Definition disk_call {A} (m : eff disk A) : eff disk A := fun k => call m (disturbed k).

Definition entry_of (k : disk) (d : N) (name : pystr) : option entry := dk_dirs k !! d ≫= lookup name.
Definition put_entry (d : N) (name : pystr) (e : entry) (k : disk) : disk := set_dirs k (alter (<[name := e]>) d (dk_dirs k)).
Definition drop_entry (d : N) (name : pystr) (k : disk) : disk := set_dirs k (alter (delete name) d (dk_dirs k)).
Definition missing_entry {A} (name : pystr) : result exn A := raise FileNotFoundError (lit "[Errno 2] No such file or directory: " ++ name).
Definition existing_entry {A} (name : pystr) : result exn A := raise FileExistsError (lit "[Errno 17] File exists: " ++ name).

(** [os.mkdir(name, dir_fd=d)] *)
Definition mkdir_at (d : N) (name : pystr) : eff disk unit := disk_call (fun k =>
  match entry_of k d name with
  | Some _ => (existing_entry name, k)
  | None =>
      let dirs := alter (<[name := Dir (dk_next k)]>) d (dk_dirs k) in
      (Ok tt, Disk (<[dk_next k := ∅]> dirs) (dk_next k + 1)%N (dk_others k) (dk_short k) (dk_faults k))
  end).
(** [os.open(name, O_RDONLY | O_DIRECTORY | O_NOFOLLOW, dir_fd=d)]; a directory contains itself. *)
Definition open_at (d : N) (name : pystr) : eff disk N := disk_call (fun k =>
  (if str_eqb name "." then match dk_dirs k !! d with Some _ => Ok d | None => missing_entry name end
   else match entry_of k d name with
        | Some (Dir i) => Ok i
        | Some (Reg _) => raise NotADirectoryError (lit "[Errno 20] Not a directory: " ++ name)
        | Some Link => raise ELOOP (lit "[Errno 40] Too many levels of symbolic links: " ++ name)
        | None => missing_entry name
        end, k)).
Definition open_root : eff disk N := disk_call (fun k => (Ok 0%N, k)).
(** [os.fstat(fd)]: the identity of the directory. *)
Definition fstat_of (d : N) : eff disk N := disk_call (fun k => (Ok d, k)).
Definition fsync_of (d : N) : eff disk unit := disk_call (fun k => (Ok tt, k)).
Definition close_of (d : N) : eff disk unit := disk_call (fun k => (Ok tt, k)).
Definition listdir_of (d : N) : eff disk (list pystr) := disk_call (fun k =>
  (match dk_dirs k !! d with Some l => Ok (fst <$> map_to_list l) | None => missing_entry (lit ".") end, k)).
Definition unlink_at (d : N) (name : pystr) : eff disk unit := disk_call (fun k =>
  match entry_of k d name with
  | Some (Dir _) => (raise OSError (lit "[Errno 21] Is a directory: " ++ name), k)
  | Some _ => (Ok tt, drop_entry d name k)
  | None => (missing_entry name, k)
  end).
Definition rmdir_at (d : N) (name : pystr) : eff disk unit := disk_call (fun k =>
  match entry_of k d name with
  | Some (Dir i) =>
      if bool_decide (dk_dirs k !! i = Some ∅) then (Ok tt, set_dirs (drop_entry d name k) (delete i (dk_dirs (drop_entry d name k))))
      else (raise ENOTEMPTY (lit "[Errno 39] Directory not empty: " ++ name), k)
  | Some _ => (raise NotADirectoryError (lit "[Errno 20] Not a directory: " ++ name), k)
  | None => (missing_entry name, k)
  end).
(** [renameat2(d, old, d, new, RENAME_NOREPLACE)] *)
Definition rename_at (d : N) (old new : pystr) : eff disk unit := disk_call (fun k =>
  match entry_of k d old, entry_of k d new with
  | None, _ => (missing_entry old, k)
  | Some _, Some _ => (existing_entry new, k)
  | Some e, None => (Ok tt, put_entry d new e (drop_entry d old k))
  end).
(** [os.open(name, O_WRONLY | O_CREAT | O_EXCL | O_NOFOLLOW, 0o600, dir_fd=d)] *)
Definition create_at (d : N) (name : pystr) : eff disk unit := disk_call (fun k =>
  match entry_of k d name with
  | Some _ => (existing_entry name, k)
  | None => (Ok tt, put_entry d name (Reg []) k)
  end).
Definition append_at (d : N) (name : pystr) (more : bytes) : eff disk unit := disk_call (fun k =>
  (Ok tt, match entry_of k d name with Some (Reg content) => put_entry d name (Reg (content ++ more)) k | _ => k end)).
Definition half_of_write : eff disk nat := fun k =>
  (Ok (default O (head (dk_short k))), Disk (dk_dirs k) (dk_next k) (dk_others k) (tail (dk_short k)) (dk_faults k)).
Definition read_at (d : N) (name : pystr) : eff disk bytes := disk_call (fun k =>
  (match entry_of k d name with
   | Some (Reg content) => Ok content
   | Some (Dir _) => raise OSError (lit "[Errno 21] Is a directory: " ++ name)
   | Some Link => raise ELOOP (lit "[Errno 40] Too many levels of symbolic links: " ++ name)
   | None => missing_entry name
   end, k)).

(** A world with a disk, whose programs also ask for paths. *)
Class Disks (W : Type) : Type := {
  disk_of : W -> disk;
  with_disk : W -> disk -> W;
  disk_with w k : disk_of (with_disk w k) = k;
  cwd : W -> path;
  resolve : path -> eff W path;
  is_symlink : path -> eff W bool;
  exists_ : path -> eff W bool;
  is_dir : path -> eff W bool;
  stat_of : path -> eff W N;
  token_hex : eff W pystr;
}.

(** What a program without faults reports of its exception. *)
Definition add_cleanup (text : pystr) (e : runner_error) : runner_error :=
  RunnerError (e_code e) (e_message e) (e_evidence_path e) (e_cleanup_errors e ++ [text]).
Definition published_error (code message evidence_path : pystr) (detail : option pystr) : runner_error :=
  RunnerError code message (Some evidence_path) (match detail with Some (_ :: _) => option_list detail | _ => [] end).

Section evidence.
Context {host : PyHost} {W : Type} {surroundings : Surroundings W} {disks : Disks W} (msg : exn -> pystr).

Definition on_disk {A} (m : eff disk A) : run W A := fun w => let '(r, k) := m (disk_of w) in (outcome r, with_disk w k).
(** [try: m  except OSError as exc: ... str(exc) ...] *)
Definition attempt {A} (m : run W A) : run W (result exn A) := fun w =>
  match m w with
  | (Ok a, w') => (Ok (Ok a), w')
  | (Err (Other e), w') => if issubclass (exn_class e) OSError then (Ok (Err e), w') else (Err (Other e), w')
  | (Err f, w') => (Err f, w')
  end.
(** [try: m  finally: cleanup] *)
Definition finally {A} (m : run W A) (cleanup : run W unit) : run W A := fun w =>
  let '(r, w1) := m w in
  match cleanup w1 with (Ok _, w2) => (r, w2) | (Err f, w2) => (Err f, w2) end.

Fixpoint each {A} (f : A -> run W unit) (l : list A) : run W unit :=
  match l with [] => mret tt | x :: l' => f x ;; each f l' end.

Definition EVIDENCE_FILES : list pystr := [lit "task.yml"; lit "handoff.json"; lit "validation.json"; lit "run-result.json"].
Definition VALIDATION_CHECK_NAMES : list pystr :=
  [lit "task_schema"; lit "claim_registry"; lit "non_ideal_guard"; lit "handoff_contract"; lit "repository_unchanged"].

(** ** Files and directories *)

Definition write_file_sync_at (directory_fd : N) (name : pystr) (data : bytes) : run W unit :=
  on_disk (create_at directory_fd name) ;;
  n ← on_disk half_of_write;
  on_disk (append_at directory_fd name (take n data)) ;;
  on_disk (append_at directory_fd name (drop n data)) ;;
  on_disk (fsync_of directory_fd).
Definition read_file_at (directory_fd : N) (name : pystr) : run W bytes := on_disk (read_at directory_fd name).

(** Every part is opened below the one before it; an [OSError] of this is returned. *)
Fixpoint open_parts (descriptor : N) (ps : list pystr) : run W (result exn N) :=
  match ps with
  | [] => mret (Ok descriptor)
  | part :: ps' =>
      next ← attempt (next ← on_disk (open_at descriptor part); on_disk (close_of descriptor) ;; mret next);
      match next with
      | Ok next => open_parts next ps'
      | Err e => on_disk (close_of descriptor) ;; mret (Err e)
      end
  end.
Definition open_below_root (p : path) : run W (result exn N) := root ← on_disk open_root; open_parts root (parts p).
Definition open_directory_no_symlinks (p : path) : run W N :=
  opened ← open_below_root p;
  match opened with
  | Ok fd => mret fd
  | Err _ => refuse_run "OUTPUT_DIR_INVALID" "Output directory parent changed or contains a symlink"
  end.
Definition ensure_child_directory (parent_fd : N) (name : pystr) : run W N :=
  made ← attempt (on_disk (mkdir_at parent_fd name));
  match made with
  | Err e => if issubclass (exn_class e) FileExistsError then mret tt else fails (Other e)
  | Ok _ => mret tt
  end ;;
  reported [OSError] "OUTPUT_DIR_INVALID" (fun _ => lit "Evidence directory is not a real directory: " ++ name)
    (on_disk (open_at parent_fd name)).
Definition rename_noreplace_at (parent_fd : N) (source_name target_name : pystr) : run W unit :=
  renamed ← attempt (on_disk (rename_at parent_fd source_name target_name));
  match renamed with
  | Ok _ => mret tt
  | Err e =>
      if issubclass (exn_class e) FileExistsError || issubclass (exn_class e) ENOTEMPTY
      then refuse_run "OUTPUT_DIR_EXISTS" "Output directory must not already exist"
      else refuse_run "OUTPUT_WRITE_FAILED" (exn_msg e)
  end.

(** ** The target *)

Definition acquire_default_evidence_target (repo_root : path) (run_id : pystr) : run W (path * pystr * N) :=
  if negb (run_id_ok run_id) then refuse_run "RUN_ID_INVALID" "Generated run_id has an invalid format"
  else
    real ← calls (resolve repo_root);
    repo_fd ← open_directory_no_symlinks real;
    retained_fd ← finally (
      artifacts_fd ← ensure_child_directory repo_fd "artifacts";
      finally (
        evidence_fd ← ensure_child_directory artifacts_fd "agent-runs";
        on_disk (fsync_of artifacts_fd) ;;
        on_disk (fsync_of repo_fd) ;;
        mret evidence_fd)
      (on_disk (close_of artifacts_fd)))
      (on_disk (close_of repo_fd));
    mret (path_child (path_child (path_child repo_root "artifacts") "agent-runs") run_id, lit "artifacts/agent-runs/" ++ run_id, retained_fd).

(** Neither the path nor a directory above it is a link; there are at most [fuel] of them. *)
Fixpoint ensure_no_symlink (fuel : nat) (current : path) : run W unit :=
  linked ← calls (is_symlink current);
  if (linked : bool) then refuse_run "OUTPUT_DIR_INVALID" "Output path and its parents must not be symlinks"
  else
    match fuel, parts current with
    | S fuel', _ :: _ => ensure_no_symlink fuel' (path_parent current)
    | _, _ => mret tt
    end.
Definition ensure_no_symlink_parents (p : path) : run W unit :=
  found ← calls (exists_ p);
  let current := if (found : bool) then p else path_parent p in
  ensure_no_symlink (length (parts current)) current.

Definition repo_contains (root candidate : path) : run W bool := fun w =>
  match (real ← calls (resolve candidate); base ← calls (resolve root); mret (is_below base real)) w with
  | (Err (Other e), w') =>
      if existsb (issubclass (exn_class e)) [OSError; RuntimeError; ValueError] then (Ok false, w') else (Err (Other e), w')
  | o => o
  end.
Definition path_eqb (p q : path) : bool := Bool.eqb (absolute p) (absolute q) && bool_decide (parts p = parts q).
Definition working_directory : run W path := fun w => (Ok (cwd w), w).
Definition validate_output_dir (repo_root output_dir : path) : run W path :=
  if str_in (lit "..") (parts output_dir) then
    refuse_run "OUTPUT_DIR_INVALID" "Relative output directory must not contain parent traversal"
  else
    here ← working_directory;
    let candidate := if absolute output_dir then output_dir else Path (absolute here) (parts here ++ parts output_dir) in
    root ← calls (resolve repo_root);
    resolved_candidate ← calls (resolve candidate);
    inside ← (if path_eqb resolved_candidate root then mret true else repo_contains root resolved_candidate);
    if (inside : bool) then refuse_run "OUTPUT_DIR_IN_REPOSITORY" "Custom output directory must be outside the repository root"
    else
      linked ← calls (is_symlink candidate);
      if (linked : bool) then refuse_run "OUTPUT_DIR_INVALID" "Output directory must not be a symlink"
      else
        parent_found ← calls (exists_ (path_parent candidate));
        parent_is_dir ← (if (parent_found : bool) then calls (is_dir (path_parent candidate)) else mret false);
        if negb parent_is_dir then refuse_run "OUTPUT_DIR_INVALID" "Output directory parent must be an existing directory"
        else
          ensure_no_symlink_parents candidate ;;
          found ← calls (exists_ candidate);
          if (found : bool) then refuse_run "OUTPUT_DIR_EXISTS" "Output directory must not already exist" else mret candidate.
Definition acquire_custom_evidence_target (repo_root output_dir : path) : run W (path * pystr * N) :=
  target ← validate_output_dir repo_root output_dir;
  let parent := path_parent target in
  expected_parent ← calls (stat_of parent);
  parent_fd ← open_directory_no_symlinks parent;
  opened_parent ← on_disk (fstat_of parent_fd);
  if (expected_parent =? opened_parent)%N then mret (target, path_str output_dir, parent_fd)
  else
    on_disk (close_of parent_fd) ;;
    refuse_run "OUTPUT_DIR_INVALID" "Output directory parent changed during validation".
End evidence.
