(* ===== verification/Publish.v ===== *)
(** * The dry run of an agent task: the evidence bundle

    [src/scripts/agent/run_task.py], [_validation_payload] to [publish_evidence_bundle].  The staged
    part is one function per stretch of its [try] block, so that [progress] says what the [finally]
    clause finds when a stretch fails. *)

From S2P Require Import Prelude PyStr Effects Json JsonContract Sha256 FileSystem ClaimRegistry AgentGuard Handoff TaskRun Evidence.
Open Scope Z_scope.

(** How far the bundle has come: nothing of it, the staging directory, that and its descriptor, or
    the renamed directory. *)
Inductive progress : Type := Nothing | Created | Staged (staging_fd : N) | Published (staging_fd : N).

Section publish.
Context {host : PyHost} {W : Type} {surroundings : Surroundings W} {disks : Disks W} (msg : exn -> pystr) (stack : nat).
(** [datetime.strptime(text, format)], as an instant *)
Context (strptime : pystr -> pystr -> option Z).

(** ** The payloads *)

(** [_json] *)
Definition json_text (data : json) : pystr := indented_json 0 data ++ [10%N].
Definition json_bytes (data : json) : run W bytes := lift (encode (json_text data)).
Definition check_json (name status : string) : json := JObj [(lit "name", JStr (lit name)); (lit "status", JStr (lit status))].
Definition validation_payload (run_id : pystr) (task_id : json) (task_digest source_revision repository_state_sha256 created_at : pystr)
    : dict json :=
  [(lit "schema_version", JStr "1.0"); (lit "run_id", JStr run_id); (lit "created_at", JStr created_at); (lit "task_id", task_id);
   (lit "task_contract_sha256", JStr task_digest); (lit "source_revision", JStr source_revision);
   (lit "repository_state_sha256", JStr repository_state_sha256); (lit "status", JStr "passed");
   (lit "checks", JList [check_json "task_schema" "passed"; check_json "claim_registry" "passed"; check_json "non_ideal_guard" "passed";
                         check_json "handoff_contract" "passed"; check_json "repository_unchanged" "passed"])].
Definition artifact (name : string) (sha256 : option pystr) : json :=
  JObj ((lit "path", JStr (lit name)) :: match sha256 with Some h => [(lit "sha256", JStr h)] | None => [] end).
(** [{**run_result, ...}] *)
Definition persisted_result_of (run_result : dict json) (outcome : json)
    (run_id source_revision repository_state_sha256 started_at completed_at : pystr) (raw_task handoff_bytes validation_bytes : bytes)
    : dict json :=
  foldl (fun (d : dict json) kv => dset d (fst kv) (snd kv)) run_result
    [(lit "schema_version", JStr "1.0"); (lit "run_id", JStr run_id); (lit "outcome", outcome);
     (lit "started_at", JStr started_at); (lit "completed_at", JStr completed_at);
     (lit "repository_state_sha256", JStr repository_state_sha256);
     (lit "repository_state", JObj [(lit "source_revision", JStr source_revision); (lit "git_visible_sha256", JStr repository_state_sha256)]);
     (lit "artifacts", JObj [(lit "task", artifact "task.yml" (Some (sha256_hex raw_task)));
                             (lit "handoff", artifact "handoff.json" (Some (sha256_hex handoff_bytes)));
                             (lit "validation", artifact "validation.json" (Some (sha256_hex validation_bytes)));
                             (lit "run_result", artifact "run-result.json" None)]);
     (lit "residual_gaps", JList (JStr <$> RESIDUAL_GAPS))].

Definition validate_evidence_payload (payload : dict json) (schema : json) (label : pystr) : run W unit :=
  violations ← reported [UnsupportedSchemaError] "CONTRACT_SCHEMA_UNSUPPORTED" exn_msg
                 (lift (validate_instance stack (JObj payload) schema JNull "$"));
  match violations : list finding with
  | first :: _ =>
      refuse_run "RUN_EVIDENCE_SCHEMA_INVALID" (label ++ lit " failed schema validation at " ++ fst first ++ lit ": " ++ snd first)
  | [] => mret tt
  end.

(** ** The bindings between them *)

Definition at_key (d : dict json) (k : pystr) : run W json := lift (item (JObj d) k).
Definition binding (same : bool) (message : pystr) : run W unit :=
  if same then mret tt else refuse_run "RUN_EVIDENCE_BINDING_INVALID" message.
Definition parse_evidence_timestamp (value : json) (label : pystr) : run W Z :=
  match value with
  | JStr s =>
      match strptime s "%Y-%m-%dT%H:%M:%S.%fZ" with
      | Some t => mret t
      | None => refuse_run "RUN_EVIDENCE_SEMANTIC_INVALID" (label ++ lit " is not a real UTC timestamp")
      end
  | _ => refuse_run "RUN_EVIDENCE_SEMANTIC_INVALID" (label ++ lit " is not a real UTC timestamp")
  end.
Definition validate_run_id_timestamp (run_id : json) : run W unit :=
  s ← lift (text_of run_id);
  if negb (run_id_ok s) then refuse_run "RUN_ID_INVALID" "run_id has an invalid format"
  else
    match strptime (take 16 (drop 4 s)) "%Y%m%dT%H%M%SZ" with
    | Some _ => mret tt
    | None => refuse_run "RUN_EVIDENCE_SEMANTIC_INVALID" "run_id contains an impossible UTC timestamp"
    end.
(** [[item.get("name") for item in d[k]]] are these names. *)
Definition names_in_order (d : dict json) (k : pystr) (expected : list pystr) (message : pystr) : run W unit :=
  items ← lift (v ← item (JObj d) k; iterate v);
  if py_eq (JList ((fun i => get i "name") <$> items)) (JList (JStr <$> expected)) then mret tt
  else refuse_run "RUN_EVIDENCE_SEMANTIC_INVALID" message.
Fixpoint identity_bound (fields : list pystr) (handoff validation persisted_result : dict json) : run W unit :=
  match fields with
  | [] => mret tt
  | field :: fields' =>
      expected ← at_key persisted_result field;
      in_validation ← at_key validation field;
      in_handoff ← (if negb (py_eq in_validation expected) then mret expected else at_key handoff field);
      binding (py_eq in_validation expected && py_eq in_handoff expected) (lit "Evidence identity mismatch: " ++ field) ;;
      identity_bound fields' handoff validation persisted_result
  end.
Definition validate_evidence_bindings (raw_task : bytes) (handoff validation persisted_result : dict json) : run W unit :=
  identity_bound [lit "task_id"; lit "task_contract_sha256"; lit "source_revision"] handoff validation persisted_result ;;
  run_id ← at_key persisted_result "run_id";
  run_id' ← at_key validation "run_id";
  binding (py_eq run_id' run_id) "run_id mismatch" ;;
  inner ← at_key persisted_result "handoff";
  binding (py_eq inner (JObj handoff)) "handoff payload mismatch" ;;
  outcome ← at_key persisted_result "outcome";
  outcome' ← at_key handoff "outcome";
  binding (py_eq outcome outcome') "handoff outcome mismatch" ;;
  validate_run_id_timestamp run_id ;;
  started ← at_key persisted_result "started_at";
  started_at ← parse_evidence_timestamp started "started_at";
  completed ← at_key persisted_result "completed_at";
  completed_at ← parse_evidence_timestamp completed "completed_at";
  created ← at_key validation "created_at";
  parse_evidence_timestamp created "validation.created_at" ;;
  (if completed_at <? started_at then refuse_run "CLOCK_MOVED_BACKWARDS" "completed_at precedes started_at" else mret tt) ;;
  names_in_order persisted_result "stages" STAGE_NAMES "run-result stages are not in canonical execution order" ;;
  names_in_order validation "checks" VALIDATION_CHECK_NAMES "validation checks are not in canonical execution order" ;;
  binding (py_eq created completed) "validation timestamp mismatch" ;;
  repository_hash ← at_key persisted_result "repository_state_sha256";
  in_validation ← at_key validation "repository_state_sha256";
  binding (py_eq in_validation repository_hash) "repository fingerprint mismatch" ;;
  repository_state ← at_key persisted_result "repository_state";
  visible ← lift (item repository_state "git_visible_sha256");
  binding (py_eq visible repository_hash) "nested repository fingerprint mismatch" ;;
  revision ← lift (item repository_state "source_revision");
  revision' ← at_key persisted_result "source_revision";
  binding (py_eq revision revision') "nested source revision mismatch" ;;
  artifacts ← at_key persisted_result "artifacts";
  task_hash ← lift (t ← item artifacts "task"; item t "sha256");
  binding (py_eq task_hash (JStr (sha256_hex raw_task))) "task hash mismatch".

(** ** Taking the staging directory back *)

Definition noted {A} (r : result exn A) : list pystr := match r with Ok _ => [] | Err e => [exn_msg e] end.
Fixpoint unlink_all (staging_fd : N) (names : list pystr) : run W (list pystr) :=
  match names with
  | [] => mret []
  | name :: names' =>
      gone ← attempt (on_disk (unlink_at staging_fd name));
      more ← unlink_all staging_fd names';
      mret (noted gone ++ more)
  end.
(** Whether the name still stands for the directory, and what to note; an error of the closing leaves
    the answer. *)
Definition same_name (staging_fd named_fd : N) : run W (bool * list pystr) := fun w =>
  match (bound ← on_disk (fstat_of staging_fd); named ← on_disk (fstat_of named_fd); mret (bound =? named)%N) w with
  | (Ok still, w1) =>
      (closed ← attempt (on_disk (close_of named_fd));
       mret (still, (if still then [] else [lit "staging directory name changed during cleanup"]) ++ noted closed)) w1
  | (Err f, w1) => finally (fails f) (on_disk (close_of named_fd)) w1
  end.
Definition cleanup_staging (parent_fd staging_fd : N) (staging_name : pystr) : run W unit :=
  listed ← attempt (
    scan_fd ← on_disk (open_at staging_fd ".");
    finally (
      existing ← on_disk (fstat_of staging_fd);
      scanned ← on_disk (fstat_of scan_fd);
      if (existing =? scanned)%N then on_disk (listdir_of scan_fd)
      else lift (raise OSError "staging directory identity changed during cleanup"))
    (on_disk (close_of scan_fd)));
  unlinked ← unlink_all staging_fd (match listed with Ok names => names | Err _ => [] end);
  name_checked ← attempt (named_fd ← on_disk (open_at parent_fd staging_name); same_name staging_fd named_fd);
  let '(still, named) := match name_checked with Ok found => found | Err e => (false, [exn_msg e]) end in
  closed ← attempt (on_disk (close_of staging_fd));
  removed ← (if (still : bool) then attempt (on_disk (rmdir_at parent_fd staging_name)) else mret (Ok tt));
  let cleanup_errors := noted listed ++ unlinked ++ named ++ noted closed ++ noted removed in
  match cleanup_errors with [] => mret tt | _ => lift (raise OSError (join (lit "; ") cleanup_errors)) end.

(** ** What was published is where it was asked for *)

Definition location_errnos : list exc_class := [FileNotFoundError; NotADirectoryError; ELOOP; PermissionError].
(** Compare two directories and close the second, whose error joins that of the comparison. *)
Definition same_directory (expected observed_fd : N) (message evidence_path : pystr) : run W unit := fun w =>
  match on_disk (fstat_of observed_fd) w with
  | (Ok observed, w1) =>
      let moved := published_error "OUTPUT_LOCATION_CHANGED" message evidence_path None in
      let pending := negb (expected =? observed)%N in
      match attempt (on_disk (close_of observed_fd)) w1 with
      | (Ok (Ok _), w2) => (if pending then Err (Runner moved) else Ok tt, w2)
      | (Ok (Err e), w2) => (Err (if pending then Runner (add_cleanup (exn_msg e) moved) else Other e), w2)
      | (Err f, w2) => (Err f, w2)
      end
  | (Err f, w1) => finally (fails f) (on_disk (close_of observed_fd)) w1
  end.
Definition assert_published_parent_identity (parent : path) (parent_fd : N) (evidence_path : pystr) : run W unit :=
  expected ← on_disk (fstat_of parent_fd);
  opened ← open_below_root parent;
  match opened with
  | Err cause =>
      fails (Runner (
        if negb (existsb (issubclass (exn_class cause)) location_errnos)
        then published_error "OUTPUT_FINALIZATION_UNCONFIRMED" "Evidence was published, but parent-path verification failed"
               evidence_path (Some (exn_msg cause))
        else published_error "OUTPUT_LOCATION_CHANGED" "Evidence was published, but its parent path no longer resolves safely"
               evidence_path (Some (lit "Output directory parent changed or contains a symlink"))))
  | Ok observed_fd =>
      same_directory expected observed_fd "Evidence was published, but its parent path now identifies another directory" evidence_path
  end.
Definition assert_published_target_identity (parent_fd : N) (target_name : pystr) (published_fd : N) (evidence_path : pystr) : run W unit :=
  expected ← on_disk (fstat_of published_fd);
  opened ← attempt (on_disk (open_at parent_fd target_name));
  match opened with
  | Err e =>
      fails (Runner (published_error "OUTPUT_LOCATION_CHANGED" "Evidence was published, but the target path no longer resolves safely"
                       evidence_path (Some (exn_msg e))))
  | Ok observed_fd =>
      same_directory expected observed_fd "Evidence was published, but the target path now identifies another directory" evidence_path
  end.

(** ** The staged bundle *)

Section staged.
Context (parent target : path) (display_path staging_name : pystr) (parent_fd : N) (payloads : list (pystr * bytes))
  (pre_publish_guard : run W unit).

Definition verify_payloads (staging_fd : N) (mismatch : pystr -> failure) : run W unit :=
  each (fun np : pystr * bytes =>
    read ← read_file_at staging_fd (fst np);
    if str_eqb read (snd np) then mret tt else fails (mismatch (fst np))) payloads.
(** From the first write to the rename. *)
Definition prepare (staging_fd : N) : run W unit :=
  each (fun np => write_file_sync_at staging_fd (fst np) (snd np)) payloads ;;
  verification_fd ← on_disk (open_at parent_fd staging_name);
  staged_names ← finally (
    staged_identity ← on_disk (fstat_of staging_fd);
    verified_identity ← on_disk (fstat_of verification_fd);
    if negb (staged_identity =? verified_identity)%N then
      refuse_run "OUTPUT_LOCATION_CHANGED" "Staging directory identity changed before verification"
    else on_disk (listdir_of verification_fd))
    (on_disk (close_of verification_fd));
  (if forallb (fun n => str_in n EVIDENCE_FILES) staged_names && forallb (fun n => str_in n staged_names) EVIDENCE_FILES then mret tt
   else refuse_run "RUN_EVIDENCE_INCOMPLETE" "Staged evidence bundle does not contain exactly four files") ;;
  verify_payloads staging_fd (fun name =>
    Runner (RunnerError "RUN_EVIDENCE_WRITE_MISMATCH" (lit "Staged evidence file does not match serialized payload: " ++ name) None [])) ;;
  on_disk (fsync_of staging_fd) ;;
  pre_publish_guard ;;
  rename_noreplace_at parent_fd staging_name (path_name target).
(** From the rename to the end of the [try] block. *)
Definition confirm (staging_fd : N) : run W unit :=
  synced ← attempt (on_disk (fsync_of parent_fd));
  match synced with
  | Ok _ => mret tt
  | Err e => fails (Runner (published_error "OUTPUT_DURABILITY_UNCONFIRMED"
               "Evidence was atomically published, but parent-directory sync failed" display_path (Some (exn_msg e))))
  end ;;
  assert_published_parent_identity parent parent_fd display_path ;;
  assert_published_target_identity parent_fd (path_name target) staging_fd display_path ;;
  verify_payloads staging_fd (fun name =>
    Runner (published_error "RUN_EVIDENCE_WRITE_MISMATCH" (lit "Published evidence file changed before finalization: " ++ name) display_path None)).

Definition is_published (p : progress) : bool := match p with Published _ => true | _ => false end.
Definition finalization_error (detail : pystr) : runner_error :=
  published_error "OUTPUT_FINALIZATION_UNCONFIRMED" "Evidence was atomically published, but finalization failed" display_path (Some detail).
Definition cleanup_error (detail : pystr) : runner_error := RunnerError "OUTPUT_CLEANUP_FAILED" detail None [].
(** The [except] clauses. *)
Definition excepted (p : progress) (o : result failure unit) : result failure unit :=
  match o with
  | Err (Runner e) =>
      Err (Runner (if is_published p && bool_decide (e_evidence_path e = None)
                   then RunnerError (e_code e) (e_message e) (Some display_path) (e_cleanup_errors e) else e))
  | Err (Other e) =>
      if issubclass (exn_class e) OSError then
        Err (Runner (if is_published p then finalization_error (exn_msg e) else RunnerError "OUTPUT_WRITE_FAILED" (exn_msg e) None []))
      else Err (Other e)
  | Ok _ => Ok tt
  end.
(** A step of the [finally] clause: its [OSError] joins a pending error or is raised in its own name. *)
Definition closing (m : run W unit) (alone : pystr -> runner_error) (o : result failure unit) : run W (result failure unit) :=
  done ← attempt m;
  match done, o with
  | Ok _, _ => mret o
  | Err e, Err (Runner pending) => mret (Err (Runner (add_cleanup (exn_msg e) pending)))
  | Err e, _ => fails (Runner (alone (exn_msg e)))
  end.
Definition taken_back (p : progress) (o : result failure unit) : run W (result failure unit) :=
  match p with
  | Created => closing (on_disk (rmdir_at parent_fd staging_name)) cleanup_error o
  | Staged staging_fd => closing (cleanup_staging parent_fd staging_fd staging_name) cleanup_error o
  | Nothing | Published _ => mret o
  end.
Definition let_go (p : progress) (o : result failure unit) : run W (result failure unit) :=
  match p with
  | Published staging_fd => closing (on_disk (close_of staging_fd)) finalization_error o
  | _ => mret o
  end.
Definition settled (o : result failure unit) : run W unit := fun w => (o, w).
Definition finish (p : progress) (o : result failure unit) : run W unit :=
  o ← taken_back p (excepted p o);
  o ← let_go p o;
  o ← closing (on_disk (close_of parent_fd)) (if is_published p then finalization_error else cleanup_error) o;
  settled o.
Definition publish_staged : run W unit := fun w =>
  match on_disk (mkdir_at parent_fd staging_name) w with
  | (Err f, w1) => finish Nothing (Err f) w1
  | (Ok _, w1) =>
      match on_disk (open_at parent_fd staging_name) w1 with
      | (Err f, w2) => finish Created (Err f) w2
      | (Ok staging_fd, w2) =>
          match prepare staging_fd w2 with
          | (Err f, w3) => finish (Staged staging_fd) (Err f) w3
          | (Ok _, w3) => let '(r, w4) := confirm staging_fd w3 in finish (Published staging_fd) r w4
          end
      end
  end.
End staged.

Definition acquire_evidence_target (repo_root : path) (output_dir : option path) (run_id : pystr) : run W (path * pystr * N) :=
  match output_dir with
  | None => acquire_default_evidence_target repo_root run_id
  | Some output_dir => acquire_custom_evidence_target repo_root output_dir
  end.
Definition publish_evidence_bundle (repo_root : path) (output_dir : option path) (run_id : pystr) (raw_task : bytes) (task : dict json)
    (task_digest source_revision repository_state_sha256 started_at completed_at : pystr) (run_result handoff : dict json)
    (pre_publish_guard : run W unit) : run W (path * pystr) :=
  handoff_bytes ← json_bytes (JObj handoff);
  task_id ← at_key task "task_id";
  let validation := validation_payload run_id task_id task_digest source_revision repository_state_sha256 completed_at in
  validation_schema ← load_evidence_schema repo_root "validation.schema.json";
  validate_evidence_payload validation validation_schema "validation.json" ;;
  validation_bytes ← json_bytes (JObj validation);
  outcome ← at_key handoff "outcome";
  let persisted_result :=
    persisted_result_of run_result outcome run_id source_revision repository_state_sha256 started_at completed_at
      raw_task handoff_bytes validation_bytes in
  result_schema ← load_evidence_schema repo_root "run-result.schema.json";
  validate_evidence_payload persisted_result result_schema "run-result.json" ;;
  validate_evidence_bindings raw_task handoff validation persisted_result ;;
  result_bytes ← json_bytes (JObj persisted_result);
  '(target, display_path, parent_fd) ← acquire_evidence_target repo_root output_dir run_id;
  token ← calls token_hex;
  publish_staged (path_parent target) target display_path (lit ".agent-run-staging-" ++ token) parent_fd
    [(lit "task.yml", raw_task); (lit "handoff.json", handoff_bytes); (lit "validation.json", validation_bytes);
     (lit "run-result.json", result_bytes)] pre_publish_guard ;;
  mret (target, display_path).
End publish.
