(* ===== verification/PublishProofs.v ===== *)
(** * Proofs of the evidence bundle

    Assertions on the directories ([ensures]) for computations of which every system call may be
    refused, and what they give: the error says whether the bundle was published, and the target is
    the whole bundle or what it was. *)

From S2P Require Import Prelude PyStr Effects Json JsonContract Sha256 FileSystem ClaimRegistry AgentGuard Handoff TaskRun Evidence Publish.
Open Scope Z_scope.

(** ** Assertions on the directories *)

Section ensures.
Context {W : Type} `{Disks W}.

(** A call is answered, or refused with an [OSError]. *)
Definition os_error (e : exn) : Prop := issubclass (exn_class e) OSError = true.
Definition definite (f : fault) : Prop := match f with passes => True | refused e => os_error e | lost _ => False end.
(** Nobody else writes. *)
Definition undisturbed (k : disk) : Prop := dk_others k = [] /\ Forall definite (dk_faults k).
Abbreviation dirs := (gmap N listing).
Definition ensures {A : Type} (P : dirs -> Prop) (m : run W A) (Q : A -> dirs -> Prop) (R : failure -> dirs -> Prop) : Prop :=
  forall w, undisturbed (disk_of w) -> P (dk_dirs (disk_of w)) ->
  undisturbed (disk_of (snd (m w))) /\
  match fst (m w) with Ok a => Q a (dk_dirs (disk_of (snd (m w)))) | Err f => R f (dk_dirs (disk_of (snd (m w)))) end.

Lemma ensures_weaken {A : Type} (P P' : dirs -> Prop) (m : run W A) Q Q' (R R' : failure -> dirs -> Prop) :
  ensures P m Q R -> (forall x, P' x -> P x) -> (forall a x, Q a x -> Q' a x) -> (forall f x, R f x -> R' f x) -> ensures P' m Q' R'.
Proof.
  intros Hm HP HQ HR w Hw Hp. destruct (Hm w Hw (HP _ Hp)) as [Hd Ho]. split; [done|]. destruct (fst (m w)); [by apply HQ|by apply HR].
Qed.
Lemma ensures_ret {A : Type} (P : dirs -> Prop) (a : A) Q R : (forall x, P x -> Q a x) -> ensures P (mret a) Q R.
Proof. intros HQ w Hw Hp. split; [done|]. by apply HQ. Qed.
Lemma ensures_fails {A : Type} (P : dirs -> Prop) f (Q : A -> dirs -> Prop) R : (forall x, P x -> R f x) -> ensures P (fails f) Q R.
Proof. intros HR w Hw Hp. split; [done|]. by apply HR. Qed.
Lemma ensures_bind {A B : Type} P (m : run W A) (g : A -> run W B) Q' Q R :
  ensures P m Q' R -> (forall a, ensures (Q' a) (g a) Q R) -> ensures P (m ≫= g) Q R.
Proof.
  intros Hm Hg w Hw Hp. specialize (Hm w Hw Hp). unfold mbind, run_bind. destruct (m w) as [[a|f] w'], Hm as [Hd Ho]; [|done].
  by apply Hg.
Qed.
Lemma ensures_fact {A : Type} (F : Prop) (P : dirs -> Prop) (m : run W A) Q R :
  (F -> ensures P m Q R) -> ensures (fun x => F /\ P x) m Q R.
Proof. intros Hm w Hw [Hf Hp]. by apply Hm. Qed.
Lemma ensures_exists {A B : Type} (P : B -> dirs -> Prop) (m : run W A) Q R :
  (forall b, ensures (P b) m Q R) -> ensures (fun x => exists b, P b x) m Q R.
Proof. intros Hm w Hw [b Hp]. by apply (Hm b). Qed.

(** A system call. *)
Definition os_failure (f : failure) : Prop := match f with Other e => os_error e | Runner _ => False end.
Lemma disk_step {A : Type} (m : eff disk A) w (Q : A -> dirs -> Prop) (R : failure -> dirs -> Prop) : undisturbed (disk_of w) ->
  (forall k, dk_dirs k = dk_dirs (disk_of w) -> dk_next k = dk_next (disk_of w) ->
     dk_others (snd (m k)) = dk_others k /\ dk_faults (snd (m k)) = dk_faults k /\
     match fst (m k) with Ok a => Q a (dk_dirs (snd (m k))) | Err e => R (Other e) (dk_dirs (snd (m k))) end) ->
  (forall e, os_error e -> R (Other e) (dk_dirs (disk_of w))) ->
  undisturbed (disk_of (snd (on_disk (disk_call m) w))) /\
  match fst (on_disk (disk_call m) w) with
  | Ok a => Q a (dk_dirs (disk_of (snd (on_disk (disk_call m) w))))
  | Err f => R f (dk_dirs (disk_of (snd (on_disk (disk_call m) w))))
  end.
Proof.
  intros [Ho Hd] Hm HR. unfold on_disk, disk_call, disturbed. rewrite Ho. unfold call. cbn [faults disk_faulty].
  destruct (dk_faults (disk_of w)) as [|f fl] eqn:Ef.
  - destruct (Hm _ eq_refl eq_refl) as (H1 & H2 & H3). destruct (m (disk_of w)) as [r k]. cbn [fst snd] in *. rewrite disk_with.
    split; [split; [congruence|by rewrite H2, Ef]|]. by destruct r.
  - apply Forall_cons in Hd as [Hf Hl]. destruct f as [|e|e]; cbn in Hf; [| |done].
    + destruct (Hm (with_faults (disk_of w) fl)) as (H1 & H2 & H3); [done..|].
      destruct (m (with_faults (disk_of w) fl)) as [r k]. cbn [fst snd] in *. rewrite disk_with.
      split; [split; [by rewrite H1|by rewrite H2]|]. by destruct r.
    + cbn [fst snd]. rewrite disk_with. split; [by split|]. by apply HR.
Qed.
Lemma ensures_disk {A : Type} (P : dirs -> Prop) (m : eff disk A) Q (R : failure -> dirs -> Prop) :
  (forall k, P (dk_dirs k) -> dk_others (snd (m k)) = dk_others k /\ dk_faults (snd (m k)) = dk_faults k /\
     match fst (m k) with Ok a => Q a (dk_dirs (snd (m k))) | Err e => R (Other e) (dk_dirs (snd (m k))) end) ->
  (forall e x, os_error e -> P x -> R (Other e) x) ->
  ensures P (on_disk (disk_call m)) Q R.
Proof. intros Hm HR w Hw Hp. apply disk_step; [done| |intros e He; by apply HR]. intros k Hk _. apply Hm. by rewrite Hk. Qed.

(** Computations that leave the directories alone, whose failures are in [F]. *)
Definition idle (F : failure -> Prop) {A : Type} (m : run W A) : Prop := forall P, ensures P m (fun _ => P) (fun f x => F f /\ P x).
Lemma idle_weaken {A : Type} (F G : failure -> Prop) (m : run W A) : idle F m -> (forall f, F f -> G f) -> idle G m.
Proof. intros Hm HG P. eapply ensures_weaken; [apply (Hm P)|done|done|]. intros f x [? ?]. auto. Qed.
Lemma idle_ret {A : Type} F (a : A) : idle F (mret a).
Proof. intros P. by apply ensures_ret. Qed.
Lemma idle_fails {A : Type} (F : failure -> Prop) f : F f -> idle (A := A) F (fails f).
Proof. intros HF P. by apply ensures_fails. Qed.
Lemma idle_bind {A B : Type} F (m : run W A) (g : A -> run W B) : idle F m -> (forall a, idle F (g a)) -> idle F (m ≫= g).
Proof. intros Hm Hg P. eapply ensures_bind; [apply Hm|]. intros a. apply Hg. Qed.
Lemma idle_if {A : Type} F (b : bool) (m n : run W A) : idle F m -> idle F n -> idle F (if b then m else n).
Proof. by destruct b. Qed.
Lemma idle_each {A : Type} F (f : A -> run W unit) l : (forall a, idle F (f a)) -> idle F (each f l).
Proof. intros Hf. induction l as [|a l IH]; cbn [each]; [apply idle_ret|]. apply idle_bind; [apply Hf|done]. Qed.
Lemma ensures_idle {A : Type} F (P : dirs -> Prop) (R : failure -> dirs -> Prop) (m : run W A) :
  idle F m -> (forall f x, F f -> P x -> R f x) -> ensures P m (fun _ => P) R.
Proof. intros Hm HR. eapply ensures_weaken; [apply (Hm P)|done|done|]. intros f x [? ?]. by apply HR. Qed.
Lemma ensures_skip {A B : Type} F (P : dirs -> Prop) (m : run W A) (g : A -> run W B) Q (R : failure -> dirs -> Prop) :
  idle F m -> (forall f x, F f -> P x -> R f x) -> (forall a, ensures P (g a) Q R) -> ensures P (m ≫= g) Q R.
Proof. intros Hm HR Hg. eapply ensures_bind; [by eapply ensures_idle|exact Hg]. Qed.
Lemma idle_disk {A : Type} (answer : disk -> result exn A) :
  (forall k e, answer k = Err e -> os_error e) -> idle os_failure (on_disk (disk_call (fun k => (answer k, k)))).
Proof.
  intros Ha P. apply ensures_disk; [|by intros e x]. intros k Hp. cbn [fst snd]. split; [done|]. split; [done|].
  destruct (answer k) as [a|e] eqn:E; [done|]. split; [|done]. by apply (Ha k).
Qed.
(** [attempt] turns the [OSError] into a value. *)
Lemma ensures_attempt {A : Type} (P : dirs -> Prop) (m : run W A) Q (E : dirs -> Prop) R :
  ensures P m Q (fun f x => os_failure f /\ E x) ->
  ensures P (attempt m) (fun r x => match r with Ok a => Q a x | Err _ => E x end) R.
Proof.
  intros Hm w Hw Hp. specialize (Hm w Hw Hp). unfold attempt. destruct (m w) as [[a|[e|e]] w'], Hm as [Hd Ho].
  - by split.
  - by destruct Ho as [[] _].
  - destruct Ho as [Hos He]. cbn in Hos. unfold os_error in Hos. cbn [fst snd] in *. rewrite Hos. by split.
Qed.
Lemma idle_attempt {A : Type} F (m : run W A) : idle os_failure m -> idle F (attempt m).
Proof.
  intros Hm P. eapply ensures_weaken; [apply ensures_attempt with (R := fun _ _ => False); apply (Hm P)|done| |done]. by intros [a|e] x.
Qed.
Lemma ensures_finally {A : Type} F (P : dirs -> Prop) (m : run W A) c Q R :
  ensures P m Q R -> idle F c -> (forall a f x, F f -> Q a x -> R f x) -> (forall f f' x, F f -> R f' x -> R f x) ->
  ensures P (finally m c) Q R.
Proof.
  intros Hm Hc H1 H2 w Hw Hp. specialize (Hm w Hw Hp). unfold finally. destruct (m w) as [[a|f] w'], Hm as [Hd Ho]; cbn [fst snd] in *.
  - specialize (Hc (Q a) w' Hd Ho). destruct (c w') as [[u|f'] w''], Hc as [Hd' Ho']; split; try done. destruct Ho'. cbn in *. by eapply H1.
  - specialize (Hc (R f) w' Hd Ho). destruct (c w') as [[u|f'] w''], Hc as [Hd' Ho']; split; try done. destruct Ho'. cbn in *. by eapply H2.
Qed.
Lemma idle_finally {A : Type} F (m : run W A) c : idle F m -> idle F c -> idle F (finally m c).
Proof. intros Hm Hc P. eapply ensures_finally; [apply Hm|exact Hc|done|]. by intros f f' x HF [_ Hp]. Qed.
Lemma ensures_abandon {A : Type} F (P : dirs -> Prop) f c (Q : A -> dirs -> Prop) :
  F f -> idle F c -> ensures P (finally (fails f) c) Q (fun f x => F f /\ P x).
Proof.
  intros Hf Hc. eapply ensures_weaken with (P := P) (Q := fun _ _ => False) (R := fun f x => F f /\ P x); [|done|done|done].
  eapply ensures_finally; [apply ensures_fails with (R := fun f x => F f /\ P x); auto|exact Hc|done|]. by intros f1 f2 x H1 [_ Hx].
Qed.
End ensures.

Create HintDb idle discriminated.
#[export] Hint Resolve idle_ret idle_fails idle_bind idle_if idle_each idle_attempt idle_finally : idle.

(** ** The calls *)

Section calls.
Context {W : Type} `{Disks W}.

Ltac os_errors := apply idle_disk; intros k e; repeat destr_match; intros [= <-]; reflexivity.
Lemma idle_open_at d n : idle os_failure (on_disk (open_at d n)).
Proof. os_errors. Qed.
Lemma idle_open_root : idle os_failure (on_disk open_root).
Proof. os_errors. Qed.
Lemma idle_fstat d : idle os_failure (on_disk (fstat_of d)).
Proof. os_errors. Qed.
Lemma idle_fsync d : idle os_failure (on_disk (fsync_of d)).
Proof. os_errors. Qed.
Lemma idle_close d : idle os_failure (on_disk (close_of d)).
Proof. os_errors. Qed.
Lemma idle_listdir d : idle os_failure (on_disk (listdir_of d)).
Proof. os_errors. Qed.
Lemma idle_read d n : idle os_failure (on_disk (read_at d n)).
Proof. os_errors. Qed.
Lemma idle_half F : idle F (on_disk half_of_write).
Proof. intros P w [Ho Hd] Hp. unfold on_disk, half_of_write. cbn [fst snd]. by rewrite disk_with. Qed.
End calls.
#[export] Hint Resolve idle_open_at idle_open_root idle_fstat idle_fsync idle_close idle_listdir idle_read idle_half : idle.

(** ** The bundle *)

Section bundle.
Context {host : PyHost} {W : Type} {surroundings : Surroundings W} {disks : Disks W}.
Abbreviation dirs := (gmap N listing).
(** The directories at the start, the parent of the target with what is in it, and the inode that
    comes next. *)
Context (D0 : dirs) (parent_fd : N) (lp : listing) (i : N) (staging_name target_name display_path : pystr).
Hypothesis parent_there : D0 !! parent_fd = Some lp.
Hypothesis inode_new : D0 !! i = None.
Hypothesis staging_new : lp !! staging_name = None.
Hypothesis staging_no_dot : staging_name <> lit ".".

Definition staged_dirs (l : listing) : dirs := <[i := l]> (<[parent_fd := <[staging_name := Dir i]> lp]> D0).
Definition published_dirs (l : listing) : dirs := <[i := l]> (<[parent_fd := <[target_name := Dir i]> lp]> D0).
Definition regular (l : listing) : Prop := forall n e, l !! n = Some e -> exists c, e = Reg c.
(** The staging directory is there, with files only. *)
Definition some_staged (x : dirs) : Prop := exists l, regular l /\ x = staged_dirs l.
Definition bundle_from (l : listing) (payloads : list (pystr * bytes)) : listing :=
  foldl (fun l np => <[fst np := Reg (snd np)]> l) l payloads.

Lemma parent_inode : parent_fd <> i.
Proof. intros ->. by rewrite inode_new in parent_there. Qed.
Lemma staged_inside l : staged_dirs l !! i = Some l.
Proof. apply lookup_insert_eq. Qed.
Lemma staged_parent l : staged_dirs l !! parent_fd = Some (<[staging_name := Dir i]> lp).
Proof. pose proof parent_inode. unfold staged_dirs. by rewrite lookup_insert_ne, lookup_insert_eq by done. Qed.
Lemma staged_alter l g : alter g i (staged_dirs l) = staged_dirs (g l).
Proof. unfold staged_dirs. rewrite alter_insert_eq. reflexivity. Qed.
Lemma regular_insert l n c : regular l -> regular (<[n := Reg c]> l).
Proof. intros Hl m e. rewrite lookup_insert_Some. intros [[_ <-]|[_ Hm]]; [by exists c|by apply (Hl m)]. Qed.
Lemma regular_delete l n : regular l -> regular (delete n l).
Proof. intros Hl m e. rewrite lookup_delete_Some. intros [_ Hm]. by apply (Hl m). Qed.
Lemma staged_some l : regular l -> some_staged (staged_dirs l).
Proof. by exists l. Qed.
Lemma staged_entry k l n : dk_dirs k = staged_dirs l -> entry_of k i n = l !! n.
Proof. intros E. unfold entry_of. by rewrite E, staged_inside. Qed.
Lemma staged_name_entry k l : dk_dirs k = staged_dirs l -> entry_of k parent_fd staging_name = Some (Dir i).
Proof. intros E. unfold entry_of. rewrite E, staged_parent. cbn. apply lookup_insert_eq. Qed.
Lemma removed_dirs l : delete i (alter (delete staging_name) parent_fd (staged_dirs l)) = D0.
Proof.
  pose proof parent_inode. unfold staged_dirs. rewrite alter_insert_ne, alter_insert_eq, (delete_insert_id lp) by congruence.
  rewrite delete_insert_eq, delete_id by (by rewrite lookup_insert_ne). by apply insert_id.
Qed.
Lemma renamed_dirs l : alter (<[target_name := Dir i]>) parent_fd (alter (delete staging_name) parent_fd (staged_dirs l)) = published_dirs l.
Proof.
  pose proof parent_inode. unfold staged_dirs, published_dirs.
  by rewrite !(alter_insert_ne _ parent_fd i), !alter_insert_eq, (delete_insert_id lp) by congruence.
Qed.

(** *** The calls on the staging directory *)

Lemma open_staging (P : dirs -> Prop) : (forall x, P x -> some_staged x) ->
  ensures P (on_disk (open_at parent_fd staging_name)) (fun fd x => fd = i /\ P x) (fun f x => os_failure f /\ P x).
Proof.
  intros HP. apply ensures_disk; [|by intros e x]. intros k Hk. cbn [fst snd]. split; [done|]. split; [done|].
  destruct (HP _ Hk) as (l & _ & E). rewrite (staged_name_entry k l E). destruct (str_eqb_spec staging_name (lit ".")); [by destruct staging_no_dot|by split].
Qed.
Lemma create_staged l n : regular l -> l !! n = None ->
  ensures (fun x => x = staged_dirs l) (on_disk (create_at i n)) (fun _ x => x = staged_dirs (<[n := Reg []]> l))
    (fun f x => os_failure f /\ some_staged x).
Proof.
  intros Hl Hn. apply ensures_disk; [|intros e x He ->; split; [done|by apply staged_some]]. intros k Hk.
  rewrite (staged_entry k l n Hk), Hn. cbn. split; [done|]. split; [done|]. by rewrite Hk, staged_alter.
Qed.
Lemma append_staged l n c more : regular l ->
  ensures (fun x => x = staged_dirs (<[n := Reg c]> l)) (on_disk (append_at i n more)) (fun _ x => x = staged_dirs (<[n := Reg (c ++ more)]> l))
    (fun f x => os_failure f /\ some_staged x).
Proof.
  intros Hl. apply ensures_disk; [|intros e x He ->; split; [done|by apply staged_some, regular_insert]]. intros k Hk.
  rewrite (staged_entry k _ n Hk), lookup_insert_eq. cbn. split; [done|]. split; [done|]. by rewrite Hk, staged_alter, insert_insert_eq.
Qed.
Lemma write_staged l n data : regular l -> l !! n = None ->
  ensures (fun x => x = staged_dirs l) (write_file_sync_at i n data) (fun _ x => x = staged_dirs (<[n := Reg data]> l))
    (fun f x => os_failure f /\ some_staged x).
Proof.
  intros Hl Hn. unfold write_file_sync_at. eapply ensures_bind; [by apply create_staged|]. cbn beta. intros _.
  eapply ensures_skip; [apply (idle_half (fun _ => False))|done|]. intros k.
  eapply ensures_bind; [by apply append_staged|]. cbn beta. intros _.
  eapply ensures_bind; [by apply append_staged|]. cbn beta. intros _. cbn [app]. rewrite take_drop.
  apply ensures_idle with (F := os_failure); [auto with idle|]. intros f x Hf ->. split; [done|by apply staged_some, regular_insert].
Qed.
Lemma writes_staged payloads l : regular l -> NoDup (fst <$> payloads) -> (forall n, n ∈ fst <$> payloads -> l !! n = None) ->
  ensures (fun x => x = staged_dirs l) (each (fun np => write_file_sync_at i (fst np) (snd np)) payloads)
    (fun _ x => x = staged_dirs (bundle_from l payloads)) (fun f x => os_failure f /\ some_staged x).
Proof.
  revert l. induction payloads as [|[n data] payloads IH]; intros l Hl Hd Hf; cbn [each fmap list_fmap fst snd] in *; [by apply ensures_ret|].
  apply NoDup_cons in Hd as [Hn Hd]. eapply ensures_bind; [apply write_staged; [done|apply Hf; by left]|]. cbn beta. intros _.
  apply IH; [by apply regular_insert|done|]. intros m Hm. rewrite lookup_insert_ne by (intros ->; done). apply Hf. by right.
Qed.
Lemma bundle_regular payloads l : regular l -> regular (bundle_from l payloads).
Proof. revert l. induction payloads as [|np payloads IH]; intros l Hl; [done|]. cbn. by apply IH, regular_insert. Qed.

Context (guard : run W unit).
Hypothesis guard_aside : forall w, disk_of (snd (guard w)) = disk_of w.
Hypothesis guard_plain : forall w e, fst (guard w) = Err (Runner e) -> e_evidence_path e = None.

(** Failures before the rename, and after it. *)
Definition early (f : failure) : Prop := match f with Runner e => e_evidence_path e = None | Other _ => True end.
Definition late (f : failure) : Prop := match f with Runner e => e_evidence_path e = Some display_path | Other e => os_error e end.
Lemma os_early f : os_failure f -> early f.
Proof. by destruct f. Qed.
Lemma os_late f : os_failure f -> late f.
Proof. by destruct f. Qed.
Lemma idle_early {A : Type} (m : run W A) : idle os_failure m -> idle early m.
Proof. intros Hm. eapply idle_weaken; [exact Hm|apply os_early]. Qed.
Lemma idle_late {A : Type} (m : run W A) : idle os_failure m -> idle late m.
Proof. intros Hm. eapply idle_weaken; [exact Hm|apply os_late]. Qed.
Lemma idle_guard : idle early guard.
Proof.
  intros P w Hw Hp. rewrite guard_aside. split; [done|]. destruct (fst (guard w)) as [u|[e|e]] eqn:E; [done| |done].
  split; [|done]. by apply (guard_plain w).
Qed.
Lemma idle_verify fd payloads mismatch F : (forall f, os_failure f -> F f) -> (forall n, F (mismatch n)) ->
  idle F (verify_payloads payloads fd mismatch).
Proof.
  intros HF Hm. apply idle_each. intros np. apply idle_bind; [eapply idle_weaken; [apply idle_read|done]|]. intros read. auto with idle.
Qed.

Lemma rename_staged l : regular l ->
  ensures (fun x => x = staged_dirs l) (rename_noreplace_at parent_fd staging_name target_name)
    (fun _ x => lp !! target_name = None /\ x = published_dirs l) (fun f x => early f /\ some_staged x).
Proof.
  intros Hl. unfold rename_noreplace_at. eapply ensures_bind.
  - apply ensures_attempt with (Q := fun _ x => lp !! target_name = None /\ x = published_dirs l) (E := some_staged) (R := fun f x => early f /\ some_staged x).
    apply ensures_disk; [|intros e x He ->; split; [done|by apply staged_some]]. intros k Hk. rewrite (staged_name_entry k l Hk).
    destruct (entry_of k parent_fd target_name) eqn:Et; cbn.
    + split; [done|]. split; [done|]. split; [done|]. rewrite Hk. by apply staged_some.
    + split; [done|]. split; [done|]. split; [|by rewrite Hk, renamed_dirs]. unfold entry_of in Et. rewrite Hk, staged_parent in Et. cbn in Et.
      by apply lookup_insert_None in Et as [? _].
  - intros [u|e]; cbn beta; [by apply ensures_ret|]. destruct (_ || _); by apply ensures_fails.
Qed.
Lemma prepare_ensured target payloads : path_name target = target_name -> NoDup (fst <$> payloads) ->
  ensures (fun x => x = staged_dirs ∅) (prepare target staging_name parent_fd payloads guard i)
    (fun _ x => lp !! target_name = None /\ x = published_dirs (bundle_from ∅ payloads)) (fun f x => early f /\ some_staged x).
Proof.
  intros Ht Hd. assert (regular ∅) as H0 by (intros n e; by rewrite lookup_empty).
  assert (regular (bundle_from ∅ payloads)) as Hb by by apply bundle_regular.
  assert (forall f x, early f -> x = staged_dirs (bundle_from ∅ payloads) -> early f /\ some_staged x) as Hs.
  { intros f x Hf ->. split; [done|by apply staged_some]. }
  unfold prepare. rewrite Ht. eapply ensures_bind.
  { eapply ensures_weaken; [apply (writes_staged payloads ∅); [done|done|intros n _; apply lookup_empty]|done|done|].
    intros f x [Hf Hx]. split; [by apply os_early|done]. }
  cbn beta. intros _. eapply ensures_skip; [apply idle_early; auto with idle|exact Hs|]. intros fd.
  eapply ensures_skip with (F := early); [|exact Hs|].
  { apply idle_finally; [|apply idle_early; auto with idle].
    do 2 (apply idle_bind; [apply idle_early; auto with idle|intros ?]).
    destruct (negb _); [by apply idle_fails|apply idle_early; auto with idle]. }
  intros names. eapply ensures_skip with (F := early); [|exact Hs|].
  { apply idle_if; [apply idle_ret|by apply idle_fails]. }
  intros _. eapply ensures_skip with (F := early); [by apply idle_verify; [apply os_early|]|exact Hs|].
  intros _. eapply ensures_skip; [apply idle_early; auto with idle|exact Hs|].
  intros _. eapply ensures_skip; [apply idle_guard|exact Hs|]. intros _. by apply rename_staged.
Qed.

(** *** After the rename *)

Lemma idle_open_parts F fd ps : (forall f, os_failure f -> F f) -> idle F (open_parts fd ps).
Proof.
  intros HF. revert fd. induction ps as [|part ps IH]; intros fd; cbn [open_parts]; [apply idle_ret|].
  apply idle_bind; [auto 7 with idle|]. intros [next|e]; [apply IH|].
  apply idle_bind; [eapply idle_weaken; [apply idle_close|done]|]. intros _. apply idle_ret.
Qed.
Lemma idle_same_directory expected fd message : idle late (same_directory expected fd message display_path).
Proof.
  intros P w Hw Hp. unfold same_directory. pose proof (idle_fstat fd P w Hw Hp) as H1.
  destruct (on_disk (fstat_of fd) w) as [[observed|f] w1], H1 as [Hd Hq]; cbn [fst snd] in *.
  - pose proof (idle_attempt (fun _ => False) _ (idle_close fd) P w1 Hd Hq) as H2.
    destruct (attempt (on_disk (close_of fd)) w1) as [[[u|e]|f] w2] eqn:E, H2 as [Hd2 Hq2]; cbn [fst snd] in *; [|  |by destruct Hq2].
    + destruct (negb _); by split.
    + split; [done|]. destruct (negb _); [done|]. split; [|done].
      unfold attempt in E. destruct (on_disk (close_of fd) w1) as [[a|[e'|e']] w'] eqn:Ec; [done|done|].
      destruct (issubclass _ _) eqn:Eo; [|done]. by injection E as -> _.
  - destruct Hq as [Hf Hq]. apply (idle_finally late (fails f) _ (idle_fails late f (os_late f Hf)) (idle_late _ (idle_close fd)) P w1 Hd Hq).
Qed.
Lemma idle_parent_identity parent : idle late (assert_published_parent_identity parent parent_fd display_path).
Proof.
  unfold assert_published_parent_identity. apply idle_bind; [apply idle_late; auto with idle|]. intros expected.
  apply idle_bind; [apply idle_bind; [apply idle_late; auto with idle|intros fd; apply idle_open_parts, os_late]|].
  intros [fd|e]; [apply idle_same_directory|]. apply idle_fails. by destruct (negb _).
Qed.
Lemma idle_target_identity fd : idle late (assert_published_target_identity parent_fd target_name fd display_path).
Proof.
  unfold assert_published_target_identity. apply idle_bind; [apply idle_late; auto with idle|]. intros expected.
  apply idle_bind; [auto with idle|]. intros [fd'|e]; [apply idle_same_directory|by apply idle_fails].
Qed.
Lemma idle_confirm parent target payloads : path_name target = target_name ->
  idle late (confirm parent target display_path parent_fd payloads i).
Proof.
  intros Ht. unfold confirm. rewrite Ht. apply idle_bind; [auto with idle|]. intros synced.
  apply idle_bind; [destruct synced; [apply idle_ret|by apply idle_fails]|]. intros _.
  apply idle_bind; [apply idle_parent_identity|]. intros _. apply idle_bind; [apply idle_target_identity|]. intros _.
  by apply idle_verify; [apply os_late|].
Qed.

(** *** The way back *)

Lemma unlink_staged n R :
  ensures some_staged (attempt (on_disk (unlink_at i n))) (fun _ => some_staged) R.
Proof.
  eapply ensures_weaken; [apply ensures_attempt with (Q := fun _ => some_staged) (E := some_staged) (R := R)|done|by intros []|done].
  apply ensures_disk; [|by intros e x]. intros k (l & Hl & Hk). rewrite (staged_entry k l n Hk).
  assert (some_staged (dk_dirs k)) as Hs by (rewrite Hk; by apply staged_some).
  destruct (l !! n) as [e|] eqn:En; [|done]. destruct (Hl n e En) as [c ->]. cbn. split; [done|]. split; [done|].
  rewrite Hk, staged_alter. by apply staged_some, regular_delete.
Qed.
Lemma unlinks_staged names R : ensures some_staged (unlink_all i names) (fun _ => some_staged) R.
Proof.
  induction names as [|n names IH]; cbn [unlink_all]; [by apply ensures_ret|].
  eapply ensures_bind; [apply unlink_staged|]. intros gone. eapply ensures_bind; [apply IH|]. intros more. by apply ensures_ret.
Qed.
Lemma rmdir_staged :
  ensures some_staged (on_disk (rmdir_at parent_fd staging_name)) (fun _ x => x = D0) (fun f x => os_failure f /\ some_staged x).
Proof.
  apply ensures_disk; [|by intros e x]. intros k (l & Hl & Hk). rewrite (staged_name_entry k l Hk).
  assert (some_staged (dk_dirs k)) as Hs by (rewrite Hk; by apply staged_some).
  destruct (bool_decide _); cbn; [|done]. split; [done|]. split; [done|]. by rewrite Hk, removed_dirs.
Qed.
(** The name has gone over to another directory only with a note on it. *)
Definition noted_name (r : result exn (bool * list pystr)) : Prop :=
  match r with Ok (false, notes) => notes <> [] | _ => True end.
Lemma name_check_staged R :
  ensures some_staged (attempt (fd ← on_disk (open_at parent_fd staging_name); same_name i fd))
    (fun r x => noted_name r /\ some_staged x) R.
Proof.
  eapply ensures_weaken; [apply ensures_attempt with (Q := fun v x => noted_name (Ok v) /\ some_staged x) (E := some_staged) (R := R)
    |done|by intros [] x|done].
  eapply ensures_skip; [apply idle_open_at|done|]. intros fd w Hw Hp. unfold same_name.
  assert (idle os_failure (bound ← on_disk (fstat_of i); named ← on_disk (fstat_of fd); mret (bound =? named)%N)) as Hq by auto with idle.
  match type of Hq with idle _ ?m => set (compared := m) in * end. specialize (Hq _ w Hw Hp).
  destruct (compared w) as [[still|f] w1], Hq as [Hd Hq]; cbn [fst snd] in *.
  - revert w1 Hd Hq. match goal with |- forall w1, _ -> _ -> undisturbed (disk_of (snd (?m w1))) /\ _ => change (ensures some_staged m
      (fun v x => noted_name (Ok v) /\ some_staged x) (fun f x => os_failure f /\ some_staged x)) end.
    eapply ensures_skip; [apply (idle_attempt (fun _ => False)), idle_close|done|]. intros closed. apply ensures_ret.
    intros x Hx. split; [|done]. by destruct still.
  - destruct Hq as [Hf Hq]. by apply (ensures_abandon os_failure some_staged f _ (fun v x => noted_name (Ok v) /\ some_staged x) Hf (idle_close fd)).
Qed.
Lemma cleanup_ensured :
  ensures some_staged (cleanup_staging parent_fd i staging_name) (fun _ x => x = D0)
    (fun f x => os_failure f /\ (some_staged x \/ x = D0)).
Proof.
  unfold cleanup_staging. eapply ensures_skip with (F := fun _ => False); [|done|].
  { apply (idle_attempt (fun _ => False)), idle_bind; [auto with idle|]. intros fd. apply idle_finally; [|auto with idle].
    do 2 (apply idle_bind; [auto with idle|intros ?]). apply idle_if; [auto with idle|]. by apply idle_fails. }
  intros listed. eapply ensures_bind; [apply unlinks_staged|]. intros unlinked.
  eapply ensures_bind; [apply name_check_staged|]. intros r. cbn beta. apply ensures_fact. intros Hr.
  destruct (match r with Ok found => found | Err e => (false, [exn_msg e]) end) as [still named] eqn:Er.
  assert (still = false -> named <> []) as Hn by (destruct r as [[]|]; injection Er as <- <-; [by intros ->|done]). clear Er Hr r.
  eapply ensures_skip; [apply (idle_attempt (fun _ => False)), idle_close|done|]. intros closed.
  eapply ensures_bind with (Q' := fun r x => (r = Ok tt /\ x = D0) \/ ((still = false \/ exists e, r = Err e) /\ some_staged x)).
  - destruct still; [|apply ensures_ret; by auto].
    eapply ensures_weaken; [apply ensures_attempt with (R := fun f x => os_failure f /\ (some_staged x \/ x = D0)), rmdir_staged|done| |done].
    intros [[]|e] x Hx; [by left|right; eauto].
  - intros removed. destruct (noted listed ++ unlinked ++ named ++ noted closed ++ noted removed) as [|m ms] eqn:E.
    + apply ensures_ret. intros x [[_ ->]|[Hx _]]; [done|]. exfalso. rewrite !app_nil in E. destruct E as (_ & _ & E1 & _ & E2).
      destruct Hx as [Hx|[e ->]]; [by apply Hn|done].
    + apply ensures_fails. intros x [[_ ->]|[_ Hx]]; (split; [done|auto]).
Qed.

(** A step of the [finally] clause. *)
Lemma closing_ensured P (m : run W unit) alone o (Q E : dirs -> Prop) :
  ensures P m (fun _ => Q) (fun f x => os_failure f /\ E x) ->
  ensures P (closing m alone o)
    (fun o' x => (o' = o /\ Q x) \/ exists d e, o = Err (Runner e) /\ o' = Err (Runner (add_cleanup d e)) /\ E x)
    (fun f x => exists d, f = Runner (alone d) /\ E x).
Proof.
  intros Hm. unfold closing. eapply ensures_bind; [by apply ensures_attempt|].
  intros [u|e]; cbn beta; [apply ensures_ret; auto|]. destruct o as [u|[e'|e']].
  - apply ensures_fails. intros x Hx. by exists (exn_msg e).
  - apply ensures_ret. intros x Hx. right. by exists (exn_msg e), e'.
  - apply ensures_fails. intros x Hx. by exists (exn_msg e).
Qed.
(** An outcome of a bundle that was published: it says where. *)
Definition says_published (o : result failure unit) : Prop :=
  o = Ok tt \/ exists e, o = Err (Runner e) /\ e_evidence_path e = Some display_path.
(** An error of a bundle that was not: it names no place. *)
Definition says_unpublished (o : result failure unit) : Prop := exists f, o = Err f /\ early f.
(** The error does not report a clean-up that failed. *)
Definition cleaned (f : failure) : Prop :=
  match f with Runner e => e_cleanup_errors e = [] /\ e_code e <> lit "OUTPUT_CLEANUP_FAILED" | Other _ => True end.

Lemma closing_published m alone o : idle os_failure m -> says_published o -> (forall d, e_evidence_path (alone d) = Some display_path) ->
  forall P, ensures P (closing m alone o) (fun o' x => says_published o' /\ P x) (fun f x => says_published (Err f) /\ P x).
Proof.
  intros Hm Ho Ha P. eapply ensures_weaken; [apply closing_ensured; apply Hm|done| |].
  - intros o' x [[-> Hx]|(d & e & -> & -> & Hx)]; [done|]. split; [|done]. right. destruct Ho as [|(e' & [= <-] & He)]; [done|].
    by exists (add_cleanup d e).
  - intros f x (d & -> & Hx). split; [|done]. right. by exists (alone d).
Qed.
Lemma finish_published o P : (o = Ok tt \/ exists f, o = Err f /\ late f) ->
  ensures P (finish display_path staging_name parent_fd (Published i) o)
    (fun _ x => P x) (fun f x => says_published (Err f) /\ P x).
Proof.
  intros Ho. assert (says_published (excepted display_path (Published i) o)) as Hs.
  { destruct Ho as [->|(f & -> & Hf)]; [by left|]. right. destruct f as [e|e]; cbn in *.
    - exists e. split; [|done]. by rewrite bool_decide_false by (by rewrite Hf).
    - rewrite Hf. by eexists. }
  unfold finish, taken_back, let_go. eapply ensures_bind; [apply ensures_ret with (Q := fun o' x => o' = excepted display_path (Published i) o /\ P x); auto|].
  intros o1. cbn beta. apply ensures_fact. intros ->.
  eapply ensures_bind; [by apply closing_published; [apply idle_close| |]|]. intros o2. cbn beta. apply ensures_fact. intros H2.
  eapply ensures_bind; [by apply closing_published; [apply idle_close| |]|]. intros o3. cbn beta. apply ensures_fact. intros H3.
  intros w Hw Hp. unfold settled. cbn [fst snd]. split; [done|]. destruct o3 as [[]|f]; [done|]. by split.
Qed.

(** What an error of an unpublished bundle means for the directories. *)
Definition left_alone (f : failure) (x : dirs) : Prop :=
  early f /\ (some_staged x \/ x = D0) /\ (cleaned f -> x = D0).
Lemma finish_unpublished p f (P : dirs -> Prop) : is_published p = false -> early f ->
  ensures P (taken_back staging_name parent_fd p (excepted display_path p (Err f)))
    (fun o x => exists f', o = Err f' /\ left_alone f' x) left_alone ->
  ensures P (finish display_path staging_name parent_fd p (Err f)) (fun _ _ => False) left_alone.
Proof.
  intros Hp Hf Ht. unfold finish. eapply ensures_bind; [exact Ht|]. intros o. cbn beta. apply ensures_exists. intros f'.
  apply ensures_fact. intros ->.
  eapply ensures_bind with (Q' := fun o x => o = Err f' /\ left_alone f' x); [destruct p; try done; apply ensures_ret; auto|].
  intros o. cbn beta. apply ensures_fact. intros ->. rewrite Hp.
  eapply ensures_bind.
  - eapply ensures_weaken; [apply closing_ensured; apply (idle_close parent_fd (left_alone f'))|done|intros o x Hx; exact Hx|].
    intros f0 x (d & -> & He & Hx & _). split_and!; [done|done|]. intros [_ Hn]. by destruct Hn.
  - intros o. cbn beta. intros w Hw Ho. unfold settled. cbn [fst snd]. split; [done|].
    destruct Ho as [[-> Hx]|(d & e & [= ->] & -> & He & Hx & _)]; [done|]. split_and!; [done|done|].
    intros [Hn _]. cbn in Hn. by apply app_nil in Hn as [_ ?].
Qed.

Lemma excepted_early p f : is_published p = false -> early f -> exists f', excepted display_path p (Err f) = Err f' /\ early f'.
Proof.
  intros Hp Hf. unfold excepted. rewrite Hp. destruct f as [e|e]; cbn; [by eexists|]. destruct (issubclass _ _); by eexists.
Qed.
Lemma taken_back_ensured m f : early f ->
  ensures some_staged m (fun _ x => x = D0) (fun f x => os_failure f /\ (some_staged x \/ x = D0)) ->
  ensures some_staged (closing m cleanup_error (Err f)) (fun o x => exists f', o = Err f' /\ left_alone f' x) left_alone.
Proof.
  intros Hf Hm. eapply ensures_weaken; [apply closing_ensured; exact Hm|done| |].
  - intros o x [[-> ->]|(d & e & [= ->] & -> & Hx)]; [exists f; split; [done|]; split_and!; auto|].
    exists (Runner (add_cleanup d e)). split; [done|]. split_and!; [done|done|]. intros [Hn _]. cbn in Hn. by apply app_nil in Hn as [_ ?].
  - intros f' x (d & -> & Hx). split_and!; [done|done|]. intros [_ Hn]. by destruct Hn.
Qed.
Lemma finish_ensured p f : early f ->
  ensures (fun x => match p with Nothing => x = D0 | Created => some_staged x | Staged fd => fd = i /\ some_staged x | Published _ => False end)
    (finish display_path staging_name parent_fd p (Err f)) (fun _ _ => False) left_alone.
Proof.
  intros Hf. destruct p as [| |fd|fd]; [| | |by intros w _ []].
  - apply finish_unpublished; [done|done|]. destruct (excepted_early Nothing f eq_refl Hf) as (f' & -> & Hf').
    apply ensures_ret. intros x ->. exists f'. split; [done|]. split_and!; auto.
  - apply finish_unpublished; [done|done|]. destruct (excepted_early Created f eq_refl Hf) as (f' & -> & Hf'). apply taken_back_ensured; [done|].
    eapply ensures_weaken; [apply rmdir_staged|done|done|]. intros f0 x [? ?]. auto.
  - apply ensures_fact. intros ->. apply finish_unpublished; [done|done|]. destruct (excepted_early (Staged i) f eq_refl Hf) as (f' & -> & Hf').
    apply taken_back_ensured; [done|]. apply cleanup_ensured.
Qed.

(** After the directory was made. *)
Definition all_or_nothing (payloads : list (pystr * bytes)) (r : result failure unit) (x : dirs) : Prop :=
  (says_published r /\ lp !! target_name = None /\ x = published_dirs (bundle_from ∅ payloads)) \/ exists f, r = Err f /\ left_alone f x.
Lemma mkdir_step w : undisturbed (disk_of w) -> dk_dirs (disk_of w) = D0 -> dk_next (disk_of w) = i ->
  undisturbed (disk_of (snd (on_disk (mkdir_at parent_fd staging_name) w))) /\
  match fst (on_disk (mkdir_at parent_fd staging_name) w) with
  | Ok _ => dk_dirs (disk_of (snd (on_disk (mkdir_at parent_fd staging_name) w))) = staged_dirs ∅
  | Err f => early f /\ dk_dirs (disk_of (snd (on_disk (mkdir_at parent_fd staging_name) w))) = D0
  end.
Proof.
  intros Hw Hd Hi. apply (disk_step _ w (fun _ x => x = staged_dirs ∅) (fun f x => early f /\ x = D0)); [done| |by intros e He].
  intros k Hk Hn. unfold entry_of. rewrite Hk, Hd, parent_there. cbn. rewrite staging_new. cbn. split; [done|]. split; [done|].
  rewrite Hn, Hi. unfold staged_dirs. f_equal. apply map_eq. intros j. destruct (decide (j = parent_fd)) as [->|Hj].
  - by rewrite lookup_alter_eq, parent_there, lookup_insert_eq.
  - by rewrite lookup_alter_ne, lookup_insert_ne by congruence.
Qed.
Lemma publish_staged_ensured parent target payloads w : path_name target = target_name -> NoDup (fst <$> payloads) ->
  undisturbed (disk_of w) -> dk_dirs (disk_of w) = D0 -> dk_next (disk_of w) = i ->
  let '(r, w') := publish_staged parent target display_path staging_name parent_fd payloads guard w in
  all_or_nothing payloads r (dk_dirs (disk_of w')).
Proof.
  intros Ht Hn Hw Hd Hi. assert (regular ∅) as H0 by (intros n e; by rewrite lookup_empty).
  assert (forall p f w, early f -> undisturbed (disk_of w) ->
    match p with Nothing => dk_dirs (disk_of w) = D0 | Created => some_staged (dk_dirs (disk_of w))
      | Staged fd => fd = i /\ some_staged (dk_dirs (disk_of w)) | Published _ => False end ->
    let '(r, w') := finish display_path staging_name parent_fd p (Err f) w in all_or_nothing payloads r (dk_dirs (disk_of w'))) as Hback.
  { intros p f w0 Hf H1 H2. pose proof (finish_ensured p f Hf w0 H1 H2) as H3.
    destruct (finish _ _ _ _ _ w0) as [[u|f'] w'], H3 as [_ H3]; [done|]. right. by exists f'. }
  unfold publish_staged. pose proof (mkdir_step w Hw Hd Hi) as H1.
  destruct (on_disk (mkdir_at parent_fd staging_name) w) as [[u|f] w1], H1 as [Hw1 H1]; cbn [fst snd] in *; [|destruct H1; by apply Hback].
  assert (some_staged (dk_dirs (disk_of w1))) as Hs by (rewrite H1; by apply staged_some).
  pose proof (open_staging (fun x => x = staged_dirs ∅) ltac:(intros x ->; by apply staged_some) w1 Hw1 H1) as H2.
  destruct (on_disk (open_at parent_fd staging_name) w1) as [[fd|f] w2], H2 as [Hw2 [H2 E2]]; cbn [fst snd] in *.
  2:{ apply Hback; [by apply os_early|done|]. rewrite E2. by apply staged_some. }
  subst fd. pose proof (prepare_ensured target payloads Ht Hn w2 Hw2 E2) as H3.
  destruct (prepare _ _ _ _ _ _ w2) as [[u'|f] w3], H3 as [Hw3 [H3 E3]]; cbn [fst snd] in *; [|by apply Hback].
  pose proof (idle_confirm parent target payloads Ht (fun x => x = published_dirs (bundle_from ∅ payloads)) w3 Hw3 E3) as H4.
  destruct (confirm _ _ _ _ _ _ w3) as [r w4], H4 as [Hw4 H4]; cbn [fst snd] in *.
  assert ((r = Ok tt \/ exists f, r = Err f /\ late f) /\ dk_dirs (disk_of w4) = published_dirs (bundle_from ∅ payloads)) as [Hr E4].
  { destruct r as [[]|f]; [auto|]. destruct H4. eauto. }
  pose proof (finish_published r (fun x => x = published_dirs (bundle_from ∅ payloads)) Hr w4 Hw4 E4) as H5.
  destruct (finish _ _ _ _ _ w4) as [[[]|f] w5], H5 as [_ H5]; left; [split; [by left|done]|]. by destruct H5.
Qed.
End bundle.

(** C37: while nobody else writes to the disk and every system call is answered or refused with an
    [OSError], at whatever call: the bundle is either published, with the directory of exactly its
    files under a target that was free, and then the run succeeds or its error says where the bundle
    is; or the error names no place, the target is what it was, and unless the error also reports that
    the clean-up failed, the directories are as they were before. *)
Theorem bundle_all_or_nothing {W : Type} {disks : Disks W} (guard : run W unit) parent target display_path staging_name parent_fd payloads lp w r w' :
  undisturbed (disk_of w) -> dk_dirs (disk_of w) !! parent_fd = Some lp -> dk_dirs (disk_of w) !! dk_next (disk_of w) = None ->
  lp !! staging_name = None -> staging_name <> lit "." -> path_name target <> staging_name -> NoDup (fst <$> payloads) ->
  (forall w, disk_of (snd (guard w)) = disk_of w) -> (forall w e, fst (guard w) = Err (Runner e) -> e_evidence_path e = None) ->
  publish_staged parent target display_path staging_name parent_fd payloads guard w = (r, w') ->
  let before := dk_dirs (disk_of w) in
  let after := dk_dirs (disk_of w') in
  let i := dk_next (disk_of w) in
  (says_published display_path r /\ lp !! path_name target = None /\
   after = <[i := bundle_from ∅ payloads]> (<[parent_fd := <[path_name target := Dir i]> lp]> before)) \/
  (exists f, r = Err f /\ early f /\ after !! parent_fd ≫= lookup (path_name target) = lp !! path_name target /\
     (cleaned f -> after = before)).
Proof.
  intros Hw Hp Hi Hs Hd Ht Hn Hg He Er.
  pose proof (publish_staged_ensured _ _ _ _ _ (path_name target) display_path Hp Hi Hs Hd guard Hg He parent target payloads w eq_refl Hn Hw eq_refl eq_refl) as H.
  rewrite Er in H. destruct H as [H|(f & -> & Hf & Hx & Hc)]; [by left|right].
  exists f. split_and!; try done. destruct Hx as [(l & _ & ->)| ->]; [|by rewrite Hp].
  rewrite (staged_parent _ _ _ _ _ Hp Hi). cbn. by rewrite lookup_insert_ne.
Qed.

(** ** Runs *)

Module Examples.
(** A world that is a disk. *)
#[local] Instance plain_disk : Disks disk := {|
  disk_of := id; with_disk _ k := k; disk_with _ _ := eq_refl;
  cwd _ := Path true []; resolve p k := (Ok p, k); is_symlink _ k := (Ok false, k); exists_ _ k := (Ok false, k);
  is_dir _ k := (Ok true, k); stat_of _ k := (Ok 0%N, k); token_hex k := (Ok (lit "0123456789abcdef01234567"), k);
|}.
Definition runs_dir : listing := {[ lit "old" := Reg (lit "x") ]}.
Definition a_disk (fs : list fault) : disk :=
  Disk (<[0%N := {[ lit "runs" := Dir 1 ]}]> {[ 1%N := runs_dir ]}) 2 [] [3%nat; 0%nat] fs.
Definition a_bundle : list (pystr * bytes) :=
  [(lit "task.yml", lit "{}"); (lit "handoff.json", lit "{ }"); (lit "validation.json", lit "[]"); (lit "run-result.json", lit "1")].
Definition a_name : pystr := lit ".agent-run-staging-0123456789abcdef01234567".
Definition published_as (name : string) (fs : list fault) : result failure unit * disk :=
  publish_staged (Path true [lit "runs"]) (Path true [lit "runs"; lit name]) "runs/r" a_name 1 a_bundle (mret tt) (a_disk fs).
(** What is in the directory, and in the target. *)
Definition seen (name : string) (o : result failure unit * disk) : result failure unit * list pystr * option (list (pystr * entry)) :=
  (fst o, default [] (l ← dk_dirs (snd o) !! 1%N; Some (fst <$> map_to_list l)),
   (e ← entry_of (snd o) 1 (lit name); match e with Dir i => map_to_list <$> dk_dirs (snd o) !! i | _ => None end)).
Definition nth_call (n : nat) (f : fault) : list fault := repeat passes n ++ [f].
Definition no_space : fault := refused (Exn OSError (lit "[Errno 28] No space left on device")).

Example published : fst (fst (seen "r" (published_as "r" []))) = Ok tt /\
  (length <$> snd (seen "r" (published_as "r" []))) = Some 4%nat.
Proof. vm_compute. by split. Qed.
(** A write that fails leaves nothing behind. *)
Example disk_full : seen "r" (published_as "r" (nth_call 7 no_space)) =
  (Err (Runner (RunnerError "OUTPUT_WRITE_FAILED" "[Errno 28] No space left on device" None [])), [lit "old"], None).
Proof. vm_compute. reflexivity. Qed.
Example target_taken : fst (seen "old" (published_as "old" [])) =
  (Err (Runner (RunnerError "OUTPUT_DIR_EXISTS" "Output directory must not already exist" None [])), [lit "old"]).
Proof. vm_compute. reflexivity. Qed.
(** An exception between the rename and the assignment that notes it: the clean-up empties the
    published directory. *)
Definition KeyboardInterrupt : exc_class := Outside "KeyboardInterrupt".
Example interrupted : snd (seen "r" (published_as "r" (nth_call 28 (lost (Exn KeyboardInterrupt []))))) = Some [].
Proof. vm_compute. reflexivity. Qed.

Definition unsure : result failure unit :=
  Err (Runner (RunnerError "OUTPUT_FINALIZATION_UNCONFIRMED" "Evidence was atomically published, but finalization failed"
     (Some (lit "runs/r")) [lit "[Errno 28] No space left on device"])).
Lemma unsure_run : exists w',
  publish_staged (Path true [lit "runs"]) (Path true [lit "runs"; lit "r"]) "runs/r" a_name 1 a_bundle (mret tt) (a_disk (nth_call 30 no_space)) =
  (unsure, w').
Proof. eexists. vm_compute. reflexivity. Qed.
Lemma bundle_all_or_nothing_witness : exists w' : disk,
  publish_staged (Path true [lit "runs"]) (Path true [lit "runs"; lit "r"]) "runs/r" a_name 1 a_bundle (mret tt) (a_disk (nth_call 30 no_space)) =
    (unsure, w') /\
  dk_dirs w' = <[2%N := bundle_from ∅ a_bundle]> (<[1%N := <[lit "r" := Dir 2]> runs_dir]> (dk_dirs (a_disk []))).
Proof.
  destruct unsure_run as [w' E]. exists w'. split; [exact E|].
  pose proof (bundle_all_or_nothing (disks := plain_disk) (mret tt) (Path true [lit "runs"]) (Path true [lit "runs"; lit "r"]) "runs/r" a_name 1
    a_bundle runs_dir (a_disk (nth_call 30 no_space)) unsure w') as H.
  edestruct H as [(_ & _ & Hd)|(f & Ef & Hf & _)]; clear H.
  - split; [done|]. vm_compute. repeat constructor.
  - vm_compute. reflexivity.
  - vm_compute. reflexivity.
  - vm_compute. reflexivity.
  - done.
  - done.
  - by_compute.
  - done.
  - done.
  - exact E.
  - exact Hd.
  - injection Ef as <-. discriminate Hf.
Defined.
End Examples.
