(* ===== verification/DryRun.v ===== *)
(** * The dry run of an agent task: the run

    [src/scripts/agent/run_task.py], [_run_dry_run] to [main]. *)

From S2P Require Import Prelude PyStr Effects Json JsonContract Sha256 FileSystem ClaimRegistry AgentGuard Handoff TaskRun Evidence Publish.
Open Scope Z_scope.

(** [DryRunOutcome] *)
Record dry_run_outcome : Type := DryRunOutcome { o_result : dict json; o_exit_code : Z }.

Section dry_run.
Context {host : PyHost} {W : Type} {surroundings : Surroundings W} {disks : Disks W} (msg : exn -> pystr) (stack : nat).
Context (strptime : pystr -> pystr -> option Z).
Context (state_reader : path -> run W bytes) (revision_resolver : path -> run W pystr).

Definition GUARDED_CODES : list pystr := [lit "REPO_MUTATED_DURING_DRY_RUN"; lit "SOURCE_REVISION_CHANGED_DURING_DRY_RUN"].
Definition is_guarded (f : failure) : bool :=
  match f with
  | Runner e => str_in (e_code e) GUARDED_CODES
  | Other e => negb (issubclass (exn_class e) Exception)
  end.
(** The [except Exception] of the run: an error is raised again if the repository is unchanged. *)
Definition rechecked {A} (root : path) (before_state : bytes) (m : run W A) : run W A := fun w =>
  match m w with
  | (Ok a, w1) => (Ok a, w1)
  | (Err f, w1) =>
      if is_guarded f then (Err f, w1)
      else match assert_repository_unchanged root before_state state_reader w1 with
           | (Ok _, w2) => (Err f, w2)
           | (Err f', w2) => (Err f', w2)
           end
  end.

Definition revision_kept (root : path) (revision : pystr) : run W unit :=
  now ← revision_resolver root;
  if str_eqb now revision then mret tt
  else refuse_run "SOURCE_REVISION_CHANGED_DURING_DRY_RUN" "Git HEAD changed during dry run".
Definition pre_publish_guard (root : path) (revision : pystr) (before_state : bytes) : run W unit :=
  revision_kept root revision ;; assert_repository_unchanged root before_state state_reader.

Definition task_id_of (task : json) : option json := match task with JObj d => dget d "task_id" | _ => None end.
(** The run ends at the stage [name]. *)
Definition blocked (root : path) (before_state : bytes) (statuses : dict pystr) (name task_rel task_digest : pystr) (task : json)
    (findings : list gfinding) : run W dry_run_outcome :=
  let statuses := stage_status statuses name "blocked" in
  assert_repository_unchanged root before_state state_reader ;;
  let statuses := stage_status statuses "verify_repository_unchanged" "passed" in
  let statuses := stage_status statuses "finalize_result" "passed" in
  mret (DryRunOutcome (base_result "blocked" task_rel None (render_stages statuses) findings (task_id_of task) task_digest
                         None None None true) 1).

(** The bundle of a planned run, and the result with its place. *)
Definition persisted (root : path) (output_dir : option path) (before_state raw_task : bytes) (task handoff result : dict json)
    (task_digest revision started_at : pystr) : run W (dict json) :=
  run_id ← calls new_run_id;
  if negb (run_id_ok run_id) then refuse_run "RUN_ID_INVALID" "run_id has an invalid format"
  else
    completed_at ← calls utc_timestamp;
    if str_ltb completed_at started_at then refuse_run "CLOCK_MOVED_BACKWARDS" "completed_at precedes started_at"
    else
      '(_, evidence_path) ← publish_evidence_bundle stack strptime root output_dir run_id raw_task task task_digest revision
                              (sha256_hex before_state) started_at completed_at result handoff
                              (pre_publish_guard root revision before_state);
      mret (dset (dset result "run_id" (JStr run_id)) "evidence_path" (JStr evidence_path)).

(** From the resolved revision on. *)
Definition planned (root : path) (output_dir : option path) (should_persist : bool) (started_at : pystr) (before_state : bytes)
    (statuses : dict pystr) (task_rel task_digest : pystr) (raw_task : bytes) (task : json) (registry : dict json) : run W dry_run_outcome :=
  revision ← revision_resolver root;
  validate_source_revision revision ;;
  let statuses := stage_status statuses "resolve_source_revision" "passed" in
  match task with
  | JObj task =>
      execution_plan ← lift (execution_plan_of task);
      let statuses := stage_status statuses "prepare_execution_plan" "passed" in
      evidence_accounting ← lift (evidence_accounting_of task);
      validate_evidence_accounting task evidence_accounting ;;
      let statuses := stage_status statuses "account_expected_evidence" "passed" in
      handoff ← lift (handoff_of task task_digest revision);
      let statuses := stage_status statuses "build_handoff" "passed" in
      rp ← repo_at root;
      handoff_findings ← lift (validate_handoff stack rp (JObj task) (JObj handoff) raw_task registry);
      match handoff_findings with
      | first :: _ => refuse_run "HANDOFF_VALIDATION_FAILED" (f_message first)
      | [] =>
          let statuses := stage_status statuses "validate_handoff" "passed" in
          pre_publish_guard root revision before_state ;;
          let statuses := stage_status statuses "verify_repository_unchanged" "passed" in
          let statuses := stage_status statuses "finalize_result" "passed" in
          task_id ← lift (item (JObj task) "task_id");
          let result := base_result "planned" task_rel (Some (JStr revision)) (render_stages statuses) [] (Some task_id) task_digest
                          (Some execution_plan) (Some evidence_accounting) (Some handoff) true in
          if should_persist then
            result ← persisted root output_dir before_state raw_task task handoff result task_digest revision started_at;
            mret (DryRunOutcome result 0)
          else
            pre_publish_guard root revision before_state ;;
            mret (DryRunOutcome result 0)
      end
  | _ => refuse_run "TASK_SCHEMA_INVALID" "Task must be a JSON object"
  end.

Definition run_dry_run_with (repo_root : path) (task_file : pystr) (output_dir : option path) (persist : bool) : run W dry_run_outcome :=
  root ← calls (resolve repo_root);
  started_at ← calls utc_timestamp;
  let should_persist := persist || match output_dir with Some _ => true | None => false end in
  before_state ← state_reader root;
  let statuses := stage_status [] "capture_repository_state" "passed" in
  rechecked root before_state (
    '(task_path, task_rel) ← resolve_task_path root task_file;
    '(raw_task, task_digest, task) ← load_task_bytes msg root task_path;
    let statuses := stage_status statuses "load_task" "passed" in
    task_schema ← load_run_schema root;
    schema_findings ← task_schema_findings stack task task_schema;
    match schema_findings with
    | _ :: _ => blocked root before_state statuses "validate_task_schema" task_rel task_digest task schema_findings
    | [] =>
        let statuses := stage_status statuses "validate_task_schema" "passed" in
        registry ← load_run_registry msg root;
        let statuses := stage_status statuses "load_claim_registry" "passed" in
        guard_findings ← lift (run_non_ideal_guard stack task_schema task registry);
        match guard_findings with
        | _ :: _ => blocked root before_state statuses "run_non_ideal_guard" task_rel task_digest task guard_findings
        | [] =>
            let statuses := stage_status statuses "run_non_ideal_guard" "passed" in
            planned root output_dir should_persist started_at before_state statuses task_rel task_digest raw_task task registry
        end
    end).
End dry_run.

(** ** The command *)

Section command.
Context {host : PyHost} {W : Type} {surroundings : Surroundings W} {disks : Disks W} (msg : exn -> pystr) (stack : nat).
Context (strptime : pystr -> pystr -> option Z).

Definition run_dry_run (repo_root : path) (task_file : pystr) (output_dir : option path) (persist : bool) : run W dry_run_outcome :=
  run_dry_run_with msg stack strptime repository_state_bytes resolve_git_head repo_root task_file output_dir persist.

(** What is written, to which stream, and the exit code. *)
Inductive emitted : Type := Stdout (text : pystr) (code : Z) | Stderr (text : pystr) (code : Z).
Definition emit_error (e : runner_error) : emitted :=
  Stderr (json_text (JObj (
    [(lit "code", JStr (e_code e)); (lit "message", JStr (e_message e))]
    ++ match e_evidence_path e with Some p => [(lit "evidence_path", JStr p)] | None => [] end
    ++ match e_cleanup_errors e with [] => [] | l => [(lit "cleanup_errors", JList (JStr <$> l))] end))) 2.
Definition main (repo_root : path) (task_file output_dir : pystr) (no_persist : bool) : run W emitted := fun w =>
  match (if no_persist && negb (str_eqb output_dir [])
         then refuse_run "INVALID_ARGUMENTS" "--no-persist and --output-dir cannot be used together"
         else run_dry_run repo_root task_file
                (if str_eqb output_dir [] then None else Some (join_any (Path false []) output_dir)) (negb no_persist)) w with
  | (Ok o, w') => (Ok (Stdout (json_text (JObj (o_result o))) (o_exit_code o)), w')
  | (Err (Runner e), w') => (Ok (emit_error e), w')
  | (Err (Other e), w') =>
      if existsb (issubclass (exn_class e)) [OSError; ValueError; UnsupportedSchemaError]
      then (Ok (emit_error (RunnerError "RUNNER_ERROR" (exn_msg e) None [])), w') else (Err (Other e), w')
  end.
End command.
