(* ===== verification/DryRunProofs.v ===== *)
(** * Proofs of the dry run

    What a fingerprint stands for, what a run that plans has established, and when the handoff it
    builds is accepted. *)

From S2P Require Import Prelude PyStr Effects Json JsonText JsonParse JsonContract Sha256 Utf8 FileSystem ClaimRegistry AgentGuard Handoff HandoffProofs TaskRun Evidence Publish DryRun.
Open Scope Z_scope.

(** ** Frames: a length of eight bytes before each part *)

Definition small (part : bytes) : Prop := (N.of_nat (length part) < 2 ^ 64)%N.
Definition frame (part : bytes) : bytes := be_bytes 8 (N.of_nat (length part)) ++ part.

Lemma frame_inj a b ra rb : small a -> small b -> frame a ++ ra = frame b ++ rb -> a = b /\ ra = rb.
Proof.
  intros Ha Hb. unfold frame. rewrite <-!app_assoc. intros E. apply app_inj_1 in E as [El E]; [|by rewrite !length_be_bytes].
  apply be_bytes_inj in El; [|done..]. apply app_inj_1 in E; [done|lia].
Qed.
Lemma length_frame a : length (frame a) = (8 + length a)%nat.
Proof. unfold frame. by rewrite length_app, length_be_bytes. Qed.
Lemma frames_inj l l' : Forall small l -> Forall small l' -> concat (frame <$> l) = concat (frame <$> l') -> l = l'.
Proof.
  intros Hl. revert l'. induction Hl as [|a l Ha Hl IH]; intros l' Hl' E; destruct Hl' as [|b l' Hb Hl']; cbn [fmap list_fmap concat] in E; [done| | |].
  - apply (f_equal length) in E. rewrite length_app, length_frame in E. cbn [length] in E. lia.
  - apply (f_equal length) in E. rewrite length_app, length_frame in E. cbn [length] in E. lia.
  - apply frame_inj in E as [-> E]; [|done..]. f_equal. by apply IH.
Qed.

(** ** The fingerprint *)

(** What Git shows of a repository, as the fingerprint takes it. *)
Record git_view : Type := GitView { v_head : pystr; v_index : bytes; v_worktree : bytes; v_untracked : list untracked }.
Definition untracked_parts (u : untracked) : list bytes :=
  [lit "untracked-path"; u_path u; lit "untracked-kind"; u_kind u; lit "untracked-mode"; u_mode u;
   lit "untracked-content-sha256"; u_digest u].
Definition view_parts (v : git_view) : list bytes :=
  [lit "head"; v_head v; lit "index-diff"; v_index v; lit "worktree-diff"; v_worktree v] ++ flat_map untracked_parts (v_untracked v).
Definition stream (v : git_view) : bytes := concat (frame <$> view_parts v).

Lemma view_parts_inj v v' : view_parts v = view_parts v' -> v = v'.
Proof.
  destruct v as [h a b us], v' as [h' a' b' us']. unfold view_parts. cbn. intros [= -> -> -> E]. f_equal.
  revert us' E. induction us as [|u us IH]; intros [|u' us'] E; cbn in E; try done. destruct u, u'. injection E as -> -> -> -> E.
  by rewrite (IH us').
Qed.

Section reading.
Context {host : PyHost} {W : Type} {surroundings : Surroundings W}.

(** The reading of the fingerprint without the hashing. *)
Fixpoint read_untracked (root : path) (paths : list bytes) : run W (list untracked) :=
  match paths with
  | [] => mret []
  | p :: paths' => u ← untracked_record root p; us ← read_untracked root paths'; mret (u :: us)
  end.
Definition repository_view (repo_root : path) : run W git_view :=
  rp ← repo_at repo_root;
  root ← lift (r_resolve rp repo_root);
  head_before ← resolve_git_head root;
  index_diff ← git_output INDEX_DIFF;
  worktree_diff ← git_output WORKTREE_DIFF;
  untracked_raw ← git_output LS_UNTRACKED;
  us ← read_untracked root (untracked_paths untracked_raw);
  resolve_git_head root ;;
  mret (GitView head_before index_diff worktree_diff us).

Lemma run_bind_ok {A B : Type} (m : run W A) (g : A -> run W B) w b w' :
  (m ≫= g) w = (Ok b, w') <-> exists a w1, m w = (Ok a, w1) /\ g a w1 = (Ok b, w').
Proof. unfold mbind, run_bind. destruct (m w) as [[a|f] w1]; naive_solver. Qed.
Lemma lift_ok {A : Type} (r : result exn A) (w : W) a w' : lift (W := W) r w = (Ok a, w') <-> r = Ok a /\ w' = w.
Proof. unfold lift, outcome. destruct r; naive_solver. Qed.
Lemma hash_record_ok h label payload h' : hash_record h label payload = Ok h' ->
  small label /\ small payload /\ h' = h ++ frame label ++ frame payload.
Proof.
  unfold hash_record, hash_part. intros (h1 & E1 & E2)%bind_ok. destruct (N.leb_spec (2 ^ 64) (N.of_nat (length label))); [done|].
  destruct (N.leb_spec (2 ^ 64) (N.of_nat (length payload))); [done|]. injection E1 as <-. injection E2 as <-.
  split_and!; [done|done|]. unfold frame. by rewrite <-!app_assoc.
Qed.
Ltac take_step E := apply run_bind_ok in E as (? & ? & ? & E).
Lemma feed_ok root paths h w h' w' : feed_untracked root h paths w = (Ok h', w') ->
  exists us, read_untracked root paths w = (Ok us, w') /\ Forall small (flat_map untracked_parts us) /\
    h' = h ++ concat (frame <$> flat_map untracked_parts us).
Proof.
  revert h w. induction paths as [|p paths IH]; intros h w; cbn [feed_untracked read_untracked].
  { intros [= <- <-]. exists []. cbn. by rewrite app_nil_r. }
  intros E. apply run_bind_ok in E as (u & w1 & Eu & E).
  do 4 (apply run_bind_ok in E as (? & ? & [?%hash_record_ok ->]%lift_ok & E)). destruct (IH _ _ E) as (us & Eus & Hus & ->).
  destruct_and!. subst. exists (u :: us). split; [|split].
  - apply run_bind_ok. exists u, w1. split; [done|]. apply run_bind_ok. exists us, w'. done.
  - cbn [flat_map]. apply Forall_app. split; [|done]. by repeat constructor.
  - cbn [flat_map]. rewrite fmap_app, concat_app. unfold untracked_parts at 2. cbn [fmap list_fmap concat]. by rewrite <-!app_assoc.
Qed.
(** The fingerprint is the digest of the view read. *)
Lemma fingerprint_of_view repo_root w d w' : repository_state_bytes repo_root w = (Ok d, w') ->
  exists v, repository_view repo_root w = (Ok v, w') /\ Forall small (view_parts v) /\ d = sha256 (stream v).
Proof.
  unfold repository_state_bytes, repository_view. intros E.
  apply run_bind_ok in E as (rp & w1 & E1 & E). apply run_bind_ok in E as (root & w2 & E2 & E).
  apply run_bind_ok in E as (hd & w3 & E3 & E). apply run_bind_ok in E as (ix & w4 & E4 & E).
  apply run_bind_ok in E as (wt & w5 & E5 & E). apply run_bind_ok in E as (un & w6 & E6 & E).
  do 3 (apply run_bind_ok in E as (? & ? & [?%hash_record_ok ->]%lift_ok & E)).
  apply run_bind_ok in E as (h & w7 & Eh & E). apply run_bind_ok in E as (hd' & w8 & E8 & E).
  destruct (str_eqb hd hd'); [|done]. injection E as <- <-. destruct (feed_ok _ _ _ _ _ _ Eh) as (us & Eus & Hus & ->).
  destruct_and!. subst. exists (GitView hd ix wt us). split; [|split].
  - do 7 (apply run_bind_ok; eexists _, _; split; [eassumption|]). apply run_bind_ok. eexists _, _. by split.
  - unfold view_parts. apply Forall_app. split; [|done]. by repeat constructor.
  - unfold stream, view_parts. rewrite fmap_app, concat_app. cbn [fmap list_fmap concat v_head v_index v_worktree v_untracked]. by rewrite <-!app_assoc.
Qed.
(** Two texts of one digest. *)
Definition collision (a b : bytes) : Prop := a <> b /\ sha256 a = sha256 b.
Lemma same_fingerprint root1 root2 w1 w2 d w1' w2' :
  repository_state_bytes root1 w1 = (Ok d, w1') -> repository_state_bytes root2 w2 = (Ok d, w2') ->
  exists v1 v2, repository_view root1 w1 = (Ok v1, w1') /\ repository_view root2 w2 = (Ok v2, w2') /\
    (v1 = v2 \/ collision (stream v1) (stream v2)).
Proof.
  intros E1 E2. destruct (fingerprint_of_view _ _ _ _ E1) as (v1 & R1 & S1 & D1), (fingerprint_of_view _ _ _ _ E2) as (v2 & R2 & S2 & D2).
  exists v1, v2. split_and!; [done|done|]. destruct (decide (stream v1 = stream v2)) as [E|E].
  - left. apply view_parts_inj. by apply frames_inj.
  - right. split; [done|]. congruence.
Qed.
End reading.

(** ** The repository during a run *)

Section watched.
Context {host : PyHost} {W : Type} {surroundings : Surroundings W} {disks : Disks W} (msg : exn -> pystr) (stack : nat).
Context (strptime : pystr -> pystr -> option Z).

(** The last thing the run did was to read the fingerprint [before] again. *)
Definition last_read (root : path) (before : bytes) (w' : W) : Prop := exists w, repository_state_bytes root w = (Ok before, w').

Lemma assert_ok root before w u w' : assert_repository_unchanged root before repository_state_bytes w = (Ok u, w') ->
  repository_state_bytes root w = (Ok before, w').
Proof.
  unfold assert_repository_unchanged. intros (now & w1 & E & E')%run_bind_ok.
  destruct (str_eqb_spec before now) as [->|]; [|done]. by injection E' as _ <-.
Qed.
Lemma assert_err root before w f w' : assert_repository_unchanged root before repository_state_bytes w = (Err f, w') ->
  is_guarded f = true \/ repository_state_bytes root w = (Err f, w').
Proof.
  unfold assert_repository_unchanged, mbind, run_bind. destruct (repository_state_bytes root w) as [[now|f'] w1]; [|by intros [= -> ->]; right].
  destruct (str_eqb before now); [done|]. intros [= <- _]. by left.
Qed.
Lemma pre_publish_ok root revision before w u w' :
  pre_publish_guard repository_state_bytes resolve_git_head root revision before w = (Ok u, w') -> last_read root before w'.
Proof. unfold pre_publish_guard. intros (? & w1 & _ & E)%run_bind_ok. exists w1. by eapply assert_ok. Qed.
Lemma blocked_ok root before statuses name task_rel digest task fs w o w' :
  blocked repository_state_bytes root before statuses name task_rel digest task fs w = (Ok o, w') -> last_read root before w'.
Proof. unfold blocked. intros (? & w1 & E & E')%run_bind_ok. injection E' as _ <-. exists w. by eapply assert_ok. Qed.
Lemma planned_ok root started before statuses task_rel digest raw task registry w o w' :
  planned stack strptime repository_state_bytes resolve_git_head root None false started before statuses task_rel digest raw task registry w
    = (Ok o, w') -> last_read root before w'.
Proof.
  unfold planned. intros E. apply run_bind_ok in E as (revision & w1 & _ & E). apply run_bind_ok in E as (? & w2 & _ & E).
  destruct task as [| | | | | |t]; try done. do 6 (apply run_bind_ok in E as (? & ? & _ & E)).
  match type of E with context [match ?fs with [] => _ | _ => _ end] => destruct fs; [|done] end.
  do 3 (apply run_bind_ok in E as (? & ? & ? & E)). injection E as _ <-. by eapply pre_publish_ok.
Qed.
Lemma rechecked_ends {A : Type} root before (m : run W A) w r w' : rechecked repository_state_bytes root before m w = (r, w') ->
  match r with
  | Ok a => m w = (Ok a, w')
  | Err f => is_guarded f = true \/ last_read root before w' \/ exists w1, repository_state_bytes root w1 = (Err f, w')
  end.
Proof.
  unfold rechecked. destruct (m w) as [[a|f] w1]; [by intros [= <- <-]|]. destruct (is_guarded f) eqn:Eg; [intros [= <- <-]; auto|].
  destruct (assert_repository_unchanged root before repository_state_bytes w1) as [[u|f'] w2] eqn:Ea; intros [= <- <-].
  - right. left. exists w1. by eapply assert_ok.
  - apply assert_err in Ea as [?|?]; eauto.
Qed.
Definition unchanged_between (root : path) (w1 w2 w' : W) : Prop := exists w3 v v',
  repository_view root w1 = (Ok v, w2) /\ repository_view root w3 = (Ok v', w') /\ (v = v' \/ collision (stream v) (stream v')).
Lemma read_twice root before w1 w2 w' : repository_state_bytes root w1 = (Ok before, w2) -> last_read root before w' -> unchanged_between root w1 w2 w'.
Proof. intros E [w3 E']. destruct (same_fingerprint _ _ _ _ _ _ _ E E') as (v & v' & ? & ? & ?). by exists w3, v, v'. Qed.
End watched.

(** C39: a dry run that does not persist reads the head, the index, the working tree and the untracked
    files of the repository at its start and again as the very last thing it does, and they are the
    same (or SHA-256 collides): whatever the outcome, a plan, a blocked task or an error, except an error
    that itself says that the repository or its head changed, that stems from reading the repository, or
    that is no [Exception]. *)
Theorem dry_run_watches_repository {host : PyHost} {W : Type} {surroundings : Surroundings W} {disks : Disks W} msg stack strptime
    repo_root task_file w root w0 started w1 before w2 r w' :
  resolve repo_root w = (Ok root, w0) -> utc_timestamp w0 = (Ok started, w1) -> repository_state_bytes root w1 = (Ok before, w2) ->
  run_dry_run msg stack strptime repo_root task_file None false w = (r, w') ->
  match r with
  | Ok _ => unchanged_between root w1 w2 w'
  | Err f => is_guarded f = true \/ unchanged_between root w1 w2 w' \/ exists w3, repository_state_bytes root w3 = (Err f, w')
  end.
Proof.
  intros E1 E2 E3. unfold run_dry_run, run_dry_run_with, mbind at 1 2 3, run_bind, calls. rewrite E1. cbn [outcome]. rewrite E2. cbn [outcome].
  rewrite E3. intros Er%rechecked_ends. destruct r as [o|f]; [|destruct Er as [?|[?|?]]; [by left|right; left; by eapply read_twice|auto]].
  eapply read_twice; [exact E3|]. apply run_bind_ok in Er as ([p rel] & w3 & _ & Er). apply run_bind_ok in Er as ([[raw digest] task] & w4 & _ & Er).
  apply run_bind_ok in Er as (schema & w5 & _ & Er). apply run_bind_ok in Er as (fs & w6 & _ & Er).
  destruct fs; [|by eapply blocked_ok]. apply run_bind_ok in Er as (registry & w7 & _ & Er). apply run_bind_ok in Er as (gs & w8 & _ & Er).
  destruct gs; [by eapply planned_ok|by eapply blocked_ok].
Qed.

(** ** The handoff of a dry run *)

Section own.
Context {host : PyHost}.

Lemma listed_ok (t : dict json) k l : holds_texts t k l -> listed t k = Ok (JList (JStr <$> l)).
Proof. intros E. unfold listed. by rewrite (item_ok _ _ _ E). Qed.
(** What a dry run hands over. *)
Definition own_view (v : task_view) (digest : pystr) : handoff_view :=
  HandoffView (tv_id v) digest "incomplete" [] [] (tv_claims v) [] (tv_expected v) ((fun c => (c, lit "not_run")) <$> tv_commands v)
    [] RESIDUAL_GAPS.
Lemma handoff_built (t : dict json) v digest revision : is_task t v ->
  exists h, handoff_of t digest revision = Ok h /\ is_handoff h (own_view v digest).
Proof.
  intros Ht. unfold handoff_of. rewrite (item_ok _ _ _ (it_id _ _ Ht)), (listed_ok _ _ _ (it_claims _ _ Ht)), (listed_ok _ _ _ (it_expected _ _ Ht)),
    (item_ok _ _ _ (it_commands _ _ Ht)). cbn [mbind result_bind iterate]. eexists. split; [done|].
  split; try done. eexists. split; [done|]. cbn [own_view hv_results]. induction (tv_commands v) as [|c l IH]; constructor; [|done].
  eexists. by split_and!.
Qed.
Lemma commands_distinct (t : dict json) v : valid task_schema (JObj t) task_schema -> is_task t v -> NoDup (tv_commands v).
Proof.
  intros Hv Ht. destruct (valid_field _ t _ "validation_commands" _ Hv ltac:(apply list_elem_of_In; vm_compute; tauto) eq_refl) as (x & Ex & Hx).
  unfold holds_texts in *. pose proof (it_commands _ _ Ht) as E. unfold holds_texts in E. rewrite E in Ex. injection Ex as <-.
  apply valid_clauses in Hx as (_ & _ & _ & _ & _ & Ha & _). destruct (Ha _ eq_refl) as (_ & Hu & _).
  specialize (Hu eq_refl). rewrite <-list_fmap_compose in Hu. by apply NoDup_fmap_1 in Hu.
Qed.
(** It names no evidence that would be looked for. *)
Lemma nothing_produced rp root : r_resolve rp (r_root rp) = Ok root -> answers rp root [].
Proof. intros Hr. split; [done|]. by intros ??? ?%not_elem_of_nil. Qed.
Lemma own_fulfils rp root v raw : NoDup (tv_commands v) ->
  fulfils rp root v (own_view v (sha256_hex raw)) raw <-> forall e, e ∈ tv_expected v -> exists ps, file_parts e ps.
Proof.
  intros Hn. assert (fst <$> hv_results (own_view v (sha256_hex raw)) = tv_commands v) as Er.
  { cbn [own_view hv_results]. rewrite <-list_fmap_compose. apply list_fmap_id. }
  split.
  - intros Hf e He. destruct (fu_missing _ _ _ _ _ Hf e He) as (ps & ? & _). by exists ps.
  - intros He. split.
    + done.
    + by intros p ?%not_elem_of_nil.
    + by intros ps (p & ?%not_elem_of_nil & _).
    + done.
    + done.
    + by intros e ?%not_elem_of_nil.
    + intros e Hin. destruct (He e Hin) as [ps Hp]. exists ps. split_and!; [done|by exists e|]. by intros (p & ?%not_elem_of_nil & _).
    + intros ps Hp. by right.
    + rewrite Er. by split.
    + split_and!; [done|done|]. intros _. by right; left.
Qed.
End own.

(** C40: the handoff a dry run builds for a task that an agent may be given, in a repository whose root
    resolves, is accepted exactly when it satisfies the schema of handoffs and every expected evidence
    of the task names a file of the repository: neither the schema of tasks nor the guard has made sure
    of these two, all else that is asked of a handoff holds of it. *)
Theorem own_handoff_exact {host : PyHost} stack rp root (t : dict json) raw revision registry :
  load_schema rp "task.schema.json" = Ok task_schema -> load_schema rp "handoff.schema.json" = Ok handoff_schema ->
  schema_ok stack task_schema task_schema = true -> schema_ok stack handoff_schema handoff_schema = true ->
  r_resolve rp (r_root rp) = Ok root -> valid task_schema (JObj t) task_schema ->
  exists v h, is_task t v /\ handoff_of t (sha256_hex raw) revision = Ok h /\
    (may_be_given t v registry ->
     judges (validate_handoff stack rp (JObj t) (JObj h) raw registry)
       (valid handoff_schema (JObj h) handoff_schema /\ forall e, e ∈ tv_expected v -> exists ps, file_parts e ps)).
Proof.
  intros L1 L2 S1 S2 Hr Vt. destruct (task_viewed t Vt) as [v Ht]. destruct (handoff_built t v (sha256_hex raw) revision Ht) as (h & E & Hh).
  exists v, h. split; [done|]. split; [done|]. intros Hg.
  destruct (validate_judged stack rp root t h v (own_view v (sha256_hex raw)) raw registry L1 L2 S1 S2 (nothing_produced rp root Hr) Vt Ht Hh) as (fs & -> & Hf).
  apply judges_ok. rewrite Hf, own_fulfils by (by eapply commands_distinct). tauto.
Qed.

(** ** What a plan has established *)

Section established.
Context {host : PyHost}.

Lemma schema_found stack code x s : truthy s = true -> schema_findings stack code x s = Ok [] -> valid s x s.
Proof.
  intros Hs. unfold schema_findings. intros (fs & E & E')%bind_ok. injection E' as E'. apply map_nil_iff in E'. subst fs.
  assert (validate_instance stack x s JNull "$" = validate_instance stack x s s "$") as E2.
  { destruct stack as [|n]; [done|]. cbn [validate_instance truthy]. by rewrite Hs. }
  rewrite E2 in E. by apply (validate_valid stack x s s "$" []).
Qed.


(** The status that the map of claims gives is that of a claim of the registry. *)
Definition put_claim (m : dict pystr) (claim : json) : dict pystr :=
  match claim with
  | JObj c => match dget c "id", dget c "status" with
              | Some (JStr claim_id), Some (JStr status) => dset m claim_id (lower status)
              | _, _ => m
              end
  | _ => m
  end.
Definition has_status (claims : list json) (c status : pystr) : Prop :=
  exists claim s, claim ∈ claims /\ get claim "id" = JStr c /\ get claim "status" = JStr s /\ status = lower s.
Lemma put_claim_found m claim c status : dget (put_claim m claim) c = Some status -> dget m c = Some status \/ has_status [claim] c status.
Proof.
  unfold put_claim. destruct claim as [| | | | | |d]; try (by left). destruct (dget d "id") as [[| | | |i| |]|] eqn:Ei; try (by left).
  destruct (dget d "status") as [[| | | |s| |]|] eqn:Es; try (by left). rewrite dget_dset. destruct (str_eqb_spec c i) as [->|]; [|by left].
  intros [= <-]. right. exists (JObj d), s. cbn [get]. rewrite Ei, Es. split_and!; try done. by left.
Qed.
Lemma put_claims_found claims m c status : dget (foldl put_claim m claims) c = Some status -> dget m c = Some status \/ has_status claims c status.
Proof.
  revert m. induction claims as [|claim claims IH]; cbn [foldl]; intros m Hm; [by left|].
  destruct (IH _ Hm) as [Hd|(cl & s & Hin & H)]; [|right; exists cl, s; split; [by right|done]].
  destruct (put_claim_found _ _ _ _ Hd) as [?|(cl & s & Hin & H)]; [by left|]. right. exists cl, s. split; [|done].
  apply list_elem_of_singleton in Hin as ->. by left.
Qed.
Lemma claims_map_found (registry : dict json) claims c status : dget registry "claims" = Some (JList claims) ->
  dget (claims_map registry) c = Some status -> has_status claims c status.
Proof.
  intros E. unfold claims_map, field_list. rewrite E. intros H. by destruct (put_claims_found claims [] c status H).
Qed.
(** A claim of a task that the guard lets pass, by a registry without findings. *)
Lemma claim_registered rp (registry : dict json) (t : dict json) v c : validate_registry_data rp (JObj registry) = Ok [] ->
  may_be_given t v registry -> c ∈ tv_claims v ->
  exists claim status, registered rp claim c status /\ (status = lit "proposed" \/ status = lit "established").
Proof.
  intros Hr Hg Hc. destruct (registry_accepted rp _ Hr) as (d & claims & ids & [= <-] & Ed & Hall & _).
  destruct (mg_claims _ _ _ Hg c Hc) as (status & Em & Hn). destruct (claims_map_found _ _ _ _ Ed Em) as (claim & s & Hin & Hi & Hs & ->).
  apply list_elem_of_lookup in Hin as [k Hk]. destruct (Forall2_lookup_l _ _ _ _ _ Hall Hk) as (c' & _ & s' & Hreg).
  pose proof (re_id _ _ _ _ Hreg) as E1. pose proof (re_status _ _ _ _ Hreg) as E2. rewrite Hi in E1. rewrite Hs in E2. injection E1 as <-. injection E2 as <-.
  exists claim, s. split; [done|]. pose proof (re_known _ _ _ _ Hreg) as Hv. unfold VALID_STATUSES in Hv.
  rewrite !elem_of_cons in Hv. destruct Hv as [->|[->|[->|[->|[]%not_elem_of_nil]]]]; [by left|by right|..]; exfalso; apply Hn; vm_compute;
    apply list_elem_of_In; cbn; tauto.
Qed.
End established.

Section planned.
Context {host : PyHost} {W : Type} {surroundings : Surroundings W} {disks : Disks W} (rp : repo).
Hypothesis files_stay : forall w, fst (files w) = rp.

Lemma repo_at_ok root (w : W) rp' w' : repo_at root w = (Ok rp', w') -> rp' = rooted root rp.
Proof. unfold repo_at. pose proof (files_stay w) as E. destruct (files w) as [x y]. cbn in E. subst x. by intros [= <- _]. Qed.
Lemma reported_ok {A : Type} classes code text (m : run W A) w a w' : reported classes code text m w = (Ok a, w') -> m w = (Ok a, w').
Proof. unfold reported. destruct (m w) as [[b|[e|e]] w1]; [done|done|]. by destruct (existsb _ _). Qed.
Lemma load_contract_ok root name text w schema w' : load_contract root name text w = (Ok schema, w') ->
  load_schema (rooted root rp) name = Ok schema.
Proof.
  unfold load_contract, load_schema. intros (rp' & w1 & ->%repo_at_ok & E)%run_bind_ok.
  apply run_bind_ok in E as (s & w2 & [Es _]%reported_ok%lift_ok & E). cbn [r_root rooted]. rewrite Es. cbn [mbind result_bind].
  destruct (is_dict s); [|done]. by injection E as <- _.
Qed.
Lemma load_registry_ok msg root w registry w' : load_run_registry msg root w = (Ok registry, w') ->
  validate_registry_data (rooted root rp) (JObj registry) = Ok [].
Proof.
  unfold load_run_registry. intros (rp' & w1 & ->%repo_at_ok & E)%run_bind_ok. apply run_bind_ok in E as ([[data fs] code] & w2 & _ & E).
  destruct (negb _ || _). { destruct fs as [|f fs]; [done|]. by destruct (str_eqb _ _). }
  apply run_bind_ok in E as (gs & w3 & [Eg _]%lift_ok & E). destruct gs as [|g gs]; [|by destruct data]. destruct data; try done. by injection E as <- _.
Qed.
Lemma task_loaded msg root p w raw digest task w' : load_task_bytes msg root p w = (Ok (raw, digest, task), w') ->
  r_read rp p = Ok raw /\ digest = sha256_hex raw /\ exists text, decode_strict raw = Ok text /\ loads_json_strict text = Ok task.
Proof.
  unfold load_task_bytes. intros (rp' & w1 & ->%repo_at_ok & E)%run_bind_ok. apply run_bind_ok in E as (raw' & w2 & [Er _]%reported_ok%lift_ok & E).
  apply run_bind_ok in E as (text & w3 & [Et _]%reported_ok%lift_ok & E).
  apply run_bind_ok in E as (task' & w4 & [El _]%reported_ok%reported_ok%lift_ok & E). injection E as <- <- <- _. eauto.
Qed.

(** The result of a planned run, and that of one that persists, which adds two fields. *)
Definition says_planned (result : dict json) (h : dict json) : Prop :=
  dget result "status" = Some (JStr "planned") /\ dget result "handoff" = Some (JObj h).
Lemma base_planned rel revision stages id digest plan accounting h :
  says_planned (base_result "planned" rel revision stages [] id digest plan accounting (Some h) true) h.
Proof. done. Qed.
Lemma says_planned_dset result h k v : says_planned result h -> k <> lit "status" -> k <> lit "handoff" -> says_planned (dset result k v) h.
Proof.
  intros [H1 H2] N1 N2. unfold says_planned. rewrite !dget_dset.
  destruct (str_eqb_spec (lit "status") k) as [<-|]; [done|]. by destruct (str_eqb_spec (lit "handoff") k) as [<-|].
Qed.
Lemma persisted_planned stack strptime reader resolver root out before raw t h result digest revision started (w : W) result' w' :
  says_planned result h ->
  persisted stack strptime reader resolver root out before raw t h result digest revision started w = (Ok result', w') -> says_planned result' h.
Proof.
  intros Hs E. unfold persisted in E. apply run_bind_ok in E as (run_id & ? & _ & E). destruct (negb _); [done|].
  apply run_bind_ok in E as (completed & ? & _ & E). destruct (str_ltb _ _); [done|]. apply run_bind_ok in E as ([? place] & ? & _ & E).
  injection E as <- _. apply says_planned_dset; [apply says_planned_dset; [exact Hs|done|done]|done|done].
Qed.
(** A planned outcome names its handoff, which had no finding. *)
Lemma planned_outcome stack strptime reader resolver root out persist started before statuses rel digest raw task registry w o w' :
  planned stack strptime reader resolver root out persist started before statuses rel digest raw task registry w = (Ok o, w') ->
  exists t revision h, task = JObj t /\ handoff_of t digest revision = Ok h /\
    validate_handoff stack (rooted root rp) (JObj t) (JObj h) raw registry = Ok [] /\ says_planned (o_result o) h.
Proof.
  unfold planned. intros E. apply run_bind_ok in E as (revision & w1 & _ & E). apply run_bind_ok in E as (? & w2 & _ & E).
  destruct task as [| | | | | |t]; try done. do 3 (apply run_bind_ok in E as (? & ? & _ & E)).
  apply run_bind_ok in E as (h & ? & [Eh _]%lift_ok & E). apply run_bind_ok in E as (rp' & ? & ->%repo_at_ok & E).
  apply run_bind_ok in E as (fs & ? & [Ef _]%lift_ok & E). destruct fs; [|done].
  apply run_bind_ok in E as (? & ? & _ & E). apply run_bind_ok in E as (id & ? & _ & E). exists t, revision, h. split_and!; [done|done|done|].
  destruct persist; apply run_bind_ok in E as (result & ? & Ep & E); apply (f_equal fst) in E; cbn [fst mret run_ret] in E; injection E as <-; cbn [o_result].
  - eapply persisted_planned; [apply base_planned|exact Ep].
  - apply base_planned.
Qed.
Lemma blocked_code reader root before statuses name rel digest task fs (w : W) o w' :
  blocked reader root before statuses name rel digest task fs w = (Ok o, w') -> o_exit_code o = 1.
Proof. unfold blocked. intros (? & ? & _ & E)%run_bind_ok. by injection E as <- _. Qed.
Lemma rechecked_ok {A : Type} root before reader (m : run W A) w a w' : rechecked reader root before m w = (Ok a, w') -> m w = (Ok a, w').
Proof.
  unfold rechecked. destruct (m w) as [[b|f] w1]; [done|]. destruct (is_guarded f); [done|].
  by destruct (assert_repository_unchanged root before reader w1) as [[u|f'] w2].
Qed.
End planned.

(** C38: a dry run that plans, of a repository with these two schemas whose files stay as they are while
    it runs and whose root resolves, has read a task that an agent may be given, whose every claim is
    registered as proposed or established, in the latter case with its evidence in place, and the handoff
    in its result is for this very file, claims no change of any path, no evidence and no passed command,
    and fulfils the task. *)
Theorem planned_run_sound {host : PyHost} {W : Type} {surroundings : Surroundings W} {disks : Disks W} msg stack strptime
    (reader : path -> run W bytes) (resolver : path -> run W pystr) rp repo_root root real task_file out persist w w0 o w' :
  (forall w, fst (files w) = rp) -> resolve repo_root w = (Ok root, w0) ->
  load_schema (rooted root rp) "task.schema.json" = Ok task_schema -> load_schema (rooted root rp) "handoff.schema.json" = Ok handoff_schema ->
  schema_ok stack task_schema task_schema = true -> schema_ok stack handoff_schema handoff_schema = true -> r_resolve rp root = Ok real ->
  run_dry_run_with msg stack strptime reader resolver repo_root task_file out persist w = (Ok o, w') -> o_exit_code o = 0 ->
  exists p raw text t v h registry,
    (r_read rp p = Ok raw /\ decode_strict raw = Ok text /\ loads_json_strict text = Ok (JObj t)) /\
    is_task t v /\ may_be_given t v registry /\
    (forall c, c ∈ tv_claims v -> exists claim status, registered (rooted root rp) claim c status /\
       (status = lit "proposed" \/ status = lit "established")) /\
    dget (o_result o) "status" = Some (JStr "planned") /\ dget (o_result o) "handoff" = Some (JObj h) /\
    is_handoff h (own_view v (sha256_hex raw)) /\ fulfils (rooted root rp) real v (own_view v (sha256_hex raw)) raw.
Proof.
  intros Hf E0 L1 L2 S1 S2 Hr E Hc. unfold run_dry_run_with in E.
  apply run_bind_ok in E as (root' & w1 & E1 & E). unfold calls in E1. rewrite E0 in E1. injection E1 as <- <-.
  apply run_bind_ok in E as (started & w2 & _ & E). apply run_bind_ok in E as (before & w3 & _ & E). apply rechecked_ok in E.
  apply run_bind_ok in E as ([p rel] & w4 & _ & E). apply run_bind_ok in E as ([[raw digest] task] & w5 & Et & E).
  apply (task_loaded rp Hf) in Et as (Er & -> & text & Ed & El).
  apply run_bind_ok in E as (schema & w6 & Es & E). apply (load_contract_ok rp Hf) in Es. rewrite L1 in Es. injection Es as <-.
  apply run_bind_ok in E as (fs & w7 & Efs & E). destruct fs; [|by rewrite (blocked_code _ _ _ _ _ _ _ _ _ _ _ _ E) in Hc].
  apply reported_ok, lift_ok in Efs as [Efs _]. apply schema_found in Efs; [|done].
  apply run_bind_ok in E as (registry & w8 & Eg & E). apply (load_registry_ok rp Hf) in Eg.
  apply run_bind_ok in E as (gs & w9 & _ & E). destruct gs; [|by rewrite (blocked_code _ _ _ _ _ _ _ _ _ _ _ _ E) in Hc].
  destruct (planned_outcome rp Hf _ _ _ _ _ _ _ _ _ _ _ _ _ _ _ _ _ _ E) as (t & revision & h & -> & Eh & Ev & O1 & O2).
  destruct (task_viewed t Efs) as [v Ht]. destruct (handoff_built t v (sha256_hex raw) revision Ht) as (h' & Eh' & Hh). rewrite Eh in Eh'. injection Eh' as <-.
  destruct (validate_judged stack (rooted root rp) real t h v (own_view v (sha256_hex raw)) raw registry L1 L2 S1 S2 (nothing_produced (rooted root rp) real Hr) Efs Ht Hh) as (ff & Ef & Hff).
  rewrite Ev in Ef. injection Ef as <-. destruct (proj1 Hff eq_refl) as (_ & Hg & Hful). exists p, raw, text, t, v, h, registry. split_and!; try done.
  intros c Hin. by eapply claim_registered.
Qed.

(** ** Runs *)

Module Examples.
Import HandoffProofs.Examples.
#[local] Existing Instance a_host.

Definition own_task : dict json := dset a_task "claims" (names ["CLAIM-SAFE-001"]).
Definition own_registry (status : string) : json :=
  JObj [(lit "version", JInt 1);
        (lit "claims", JList [JObj [(lit "id", JStr "CLAIM-SAFE-001"); (lit "status", JStr (lit status)); (lit "subject", JStr "guard");
          (lit "statement", JStr "It holds."); (lit "updated", JStr "2026-01-01");
          (lit "evidence", JList [JObj [(lit "path", JStr "docs/guard.md"); (lit "kind", JStr "doc")]]);
          (lit "validation", JList [JStr "make lint"])]])].
Definition own_repo (task : dict json) (status : string) : repo := {|
  r_root := at_root []; r_resolve := Ok;
  r_is_file := fun p => Ok (path_eqb p (at_root ["tasks"; "one.json"]));
  r_exists := fun p => Ok (existsb (path_eqb p) [at_root ["docs"; "claims"; "registry.yml"]; at_root ["docs"; "guard.md"]]);
  r_read := fun p =>
    if path_eqb p (at_root ["tasks"; "one.json"]) then Ok (written (JObj task))
    else if path_eqb p (at_root ["docs"; "claims"; "registry.yml"]) then Ok (lit "---" ++ [10%N] ++ written (own_registry status))
    else r_read a_repo p;
|}.
(** How often Git was asked for bytes, the question from which the working tree differs, and a disk. *)
Record world : Type := World { w_asked : nat; w_touched : nat; w_disk : disk }.
Definition asked (w : world) : world := World (S (w_asked w)) (w_touched w) (w_disk w).
Definition around (rp : repo) : Surroundings world := {|
  files w := (rp, w);
  git_text args w := (Ok (0, if bool_decide (lit "HEAD" ∈ args) then repeat 97%N 40 ++ [10%N] else lit "/srv/repo" ++ [10%N]), w);
  git_bytes args w :=
    (Ok (0, if bool_decide (args = LS_UNTRACKED) then lit "notes" ++ [0%N]
            else if (w_touched w <=? w_asked w)%nat then lit "diff" else []), asked w);
  lstat _ w := (Ok (LStat 1 2 33188 5 7), w); readlink _ w := (Ok [], w); content_of _ w := (Ok (lit "hello"), w);
  resolve_strict p w := (Ok p, w); utc_timestamp w := (Ok (lit "2026-03-01T10:00:00.000000Z"), w);
  new_run_id w := (Ok (lit "RUN-20260301T100000Z-0123456789ab"), w);
|}.
#[local] Instance a_disk : Disks world := {|
  disk_of := w_disk; with_disk w k := World (w_asked w) (w_touched w) k; disk_with _ _ := eq_refl;
  cwd _ := at_root []; resolve p w := (Ok p, w); is_symlink _ w := (Ok false, w); exists_ _ w := (Ok false, w);
  is_dir _ w := (Ok true, w); stat_of _ w := (Ok 0%N, w); token_hex w := (Ok (lit "0123456789abcdef01234567"), w);
|}.
Definition own_world (touched : nat) : world := World 0 touched (Disk ∅ 1 [] [] []).
Definition no_msg (e : exn) : pystr := [].
Definition own_run (task : dict json) (status : string) (task_file : string) (touched : nat) : result failure dry_run_outcome * world :=
  run_dry_run (surroundings := around (own_repo task status)) no_msg 20 (fun _ _ => None) (at_root []) (lit task_file) None false
    (own_world touched).
(** The exit code, or the code of the error. *)
Definition told (o : result failure dry_run_outcome * world) : result pystr Z :=
  match fst o with
  | Ok o => Ok (o_exit_code o)
  | Err (Runner e) => Err (e_code e)
  | Err (Other e) => Err (lit (exc_name (exn_class e)))
  end.

Example planned : told (own_run own_task "established" "tasks/one.json" 99) = Ok 0.
Proof. vm_compute. reflexivity. Qed.
Example contradicted : told (own_run own_task "rejected" "tasks/one.json" 99) = Ok 1.
Proof. vm_compute. reflexivity. Qed.
(** The working tree changes between the first fingerprint and the second. *)
Example mutated : told (own_run own_task "established" "tasks/one.json" 5) = Err (lit "REPO_MUTATED_DURING_DRY_RUN").
Proof. vm_compute. reflexivity. Qed.
(** A task that the schema and the guard admit, but that no dry run can plan. *)
Example never_planned : told (own_run (dset own_task "expected_evidence" (names ["./report.json"])) "established" "tasks/one.json" 99) =
  Err (lit "HANDOFF_VALIDATION_FAILED").
Proof. vm_compute. reflexivity. Qed.
(** A path with an empty part is said to be refused, and is taken. *)
Example dotted_task_path : told (own_run own_task "established" "./tasks//one.json" 99) = Ok 0.
Proof. vm_compute. reflexivity. Qed.

Lemma own_handoff_exact_witness : exists v h, is_task own_task v /\
  handoff_of own_task (sha256_hex (written (JObj own_task))) (repeat 97%N 40) = Ok h /\
  (may_be_given own_task v [] ->
   judges (validate_handoff 20 (rooted (at_root []) (own_repo own_task "established")) (JObj own_task) (JObj h) (written (JObj own_task)) [])
     (valid handoff_schema (JObj h) handoff_schema /\ forall e, e ∈ tv_expected v -> exists ps, file_parts e ps)).
Proof.
  apply (own_handoff_exact 20 (rooted (at_root []) (own_repo own_task "established")) (at_root []) own_task).
  - vm_compute. reflexivity.
  - vm_compute. reflexivity.
  - vm_compute. reflexivity.
  - vm_compute. reflexivity.
  - reflexivity.
  - apply (validate_valid 20 (JObj own_task) task_schema task_schema "$" []); vm_compute; reflexivity.
Defined.
Lemma own_run_plans : exists o w',
  run_dry_run_with (surroundings := around (own_repo own_task "established")) no_msg 20 (fun _ _ => None)
    (@repository_state_bytes _ (around (own_repo own_task "established"))) (@resolve_git_head _ (around (own_repo own_task "established")))
    (at_root []) "tasks/one.json" None false (own_world 99) = (Ok o, w') /\ o_exit_code o = 0.
Proof. eexists _, _. split; [vm_compute; reflexivity|reflexivity]. Qed.
Lemma own_run_ends : exists o w',
  run_dry_run (surroundings := around (own_repo own_task "established")) no_msg 20 (fun _ _ => None)
    (at_root []) "tasks/one.json" None false (own_world 99) = (Ok o, w').
Proof. eexists _, _. vm_compute. reflexivity. Qed.
Lemma planned_run_sound_witness : exists p raw v h, r_read (own_repo own_task "established") p = Ok raw /\
  is_handoff h (own_view v (sha256_hex raw)) /\
  fulfils (rooted (at_root []) (own_repo own_task "established")) (at_root []) v (own_view v (sha256_hex raw)) raw.
Proof.
  destruct own_run_plans as (o & w' & E & Hc).
  destruct (planned_run_sound (surroundings := around (own_repo own_task "established")) no_msg 20 (fun _ _ => None)
    (@repository_state_bytes _ (around (own_repo own_task "established"))) (@resolve_git_head _ (around (own_repo own_task "established")))
    (own_repo own_task "established") (at_root []) (at_root []) (at_root []) "tasks/one.json" None false (own_world 99) (own_world 99) o w')
    as (p & raw & text & t & v & h & registry & (E1 & _ & _) & _ & _ & _ & _ & _ & Hh & Hf).
  - done.
  - reflexivity.
  - vm_compute. reflexivity.
  - vm_compute. reflexivity.
  - vm_compute. reflexivity.
  - vm_compute. reflexivity.
  - reflexivity.
  - exact E.
  - exact Hc.
  - exists p, raw, v, h. by split_and!.
Defined.
Lemma dry_run_watches_repository_witness : exists w2 w',
  unchanged_between (surroundings := around (own_repo own_task "established")) (at_root []) (own_world 99) w2 w'.
Proof.
  destruct own_run_ends as (o & w' & E). eexists _, w'.
  apply (dry_run_watches_repository (surroundings := around (own_repo own_task "established")) no_msg 20 (fun _ _ => None) (at_root [])
    "tasks/one.json" (own_world 99) (at_root []) (own_world 99) (lit "2026-03-01T10:00:00.000000Z") (own_world 99)
    (sha256 (stream (GitView (repeat 97%N 40) [] [] [Untracked (lit "notes") (lit "file") (lit "644") (sha256 (lit "hello"))]))) _ (Ok o) w').
  - reflexivity.
  - reflexivity.
  - vm_compute. reflexivity.
  - exact E.
Defined.
End Examples.
