(* ===== verification/ReleaseVerify.v ===== *)
(** * The public release verifier

    scripts/ops/verify_public_release_commit.py: reading the two public endpoints, parsing the
    declared artifact tree, and [evaluate], which compares both endpoints with the expected commit.
    An endpoint read back from a stored receipt may hold any JSON value, so the fields of
    [EndpointResult] that Python leaves unchecked are values. *)

From S2P Require Import Prelude PyStr Json Sha256.
Open Scope Z_scope.

Section verify.
Context `{PyHost}.

Definition MAX_SAFE_INTEGER : Z := Z.shiftl 1 53 - 1.
Definition UNATTESTED_PROVENANCE : pystr := lit "unattested".
Definition LIMITED_PASS_STATUS : pystr := lit "consistency_pass_unattested".
Definition LIMITED_PASS_SCOPE : pystr := lit "identity_and_declared_artifact_consistency".
Definition ARTIFACT_TREE_KEYS : list pystr :=
  [lit "schema_version"; lit "sha256"; lit "file_count"; lit "compile_revision"; lit "provenance"].

Definition StrictJsonError : exc_class := Sub "StrictJsonError" ValueError.

(** [COMMIT_RE] and [SHA256_RE] under [fullmatch]. *)
Definition is_commit_str (s : pystr) : bool := all_hex_of_length 40 s.
Definition is_sha256_str (s : pystr) : bool := all_hex_of_length 64 s.

(** [json.loads] with [object_pairs_hook] and [parse_constant]. *)
Fixpoint strict_object_pairs_from (result : dict json) (pairs : list (pystr * json))
    : Prelude.result exn (dict json) :=
  match pairs with
  | [] => Ok result
  | (key, value) :: pairs' =>
      if dmem result key then raise StrictJsonError (lit "duplicate JSON key: " ++ key)
      else strict_object_pairs_from (dset result key value) pairs'
  end.
Definition strict_object_pairs : list (pystr * json) -> result exn (dict json) :=
  strict_object_pairs_from [].
Definition reject_nonfinite_constant (value : pystr) : result exn json :=
  raise StrictJsonError (lit "non-finite JSON number: " ++ value).

Record ArtifactTreeResult : Type := ArtifactTree {
  at_schema_version : option Z;
  at_sha256 : option pystr;
  at_file_count : option Z;
  at_compile_revision : option pystr;
  at_provenance : option pystr;
  at_error : option pystr;
}.

Record EndpointResult : Type := Endpoint {
  ep_url : pystr;
  ep_status : json;
  ep_commit : json;
  ep_version : json;
  ep_headers : dict pystr;
  ep_error : json;
  ep_artifact_tree : option ArtifactTreeResult;
}.

Record VerificationResult : Type := Verification {
  vr_schema_version : Z;
  vr_expected_commit : pystr;
  vr_verified_at : pystr;
  vr_pass : bool;
  vr_status : pystr;
  vr_pass_scope : pystr;
  vr_identity_verified : bool;
  vr_artifact_tree_declaration_verified : bool;
  vr_attestation_verified : bool;
  vr_provenance_status : pystr;
  vr_reasons : list pystr;
  vr_limitations : list pystr;
  vr_frontend : EndpointResult;
  vr_api : EndpointResult;
}.

Definition validate_commit (value : pystr) : result exn pystr :=
  let candidate := strip value in
  if is_commit_str candidate then Ok candidate
  else raise ValueError "expected commit must be a full 40-character lowercase hexadecimal SHA".

(** ** Reading an endpoint *)

Definition normalize_header (normalized : dict pystr) (kv : pystr * pystr) : dict pystr :=
  let key := lower (fst kv) in
  dset normalized key
    match dget normalized key with
    | Some (c :: r) => (c :: r) ++ lit ", " ++ snd kv
    | _ => snd kv
    end.
Definition normalize_headers (items : list (pystr * pystr)) : dict pystr :=
  foldl normalize_header [] items.

(** [int(text)] on an HTTP header value (latin-1, so the only decimal digits are ASCII). *)
Fixpoint int_digits (acc : Z) (prev_digit : bool) (s : pystr) : option Z :=
  match s with
  | [] => if prev_digit then Some acc else None
  | c :: s' =>
      if ascii_digit c then int_digits (10 * acc + Z.of_N (c - 48)) true s'
      else if (c =? 95)%N && prev_digit then int_digits acc false s'
      else None
  end.
Definition py_int (text : pystr) : option Z :=
  match strip text with
  | 43%N :: s => int_digits 0 false s
  | 45%N :: s => Z.opp <$> int_digits 0 false s
  | s => int_digits 0 false s
  end.

Definition check_declared (content_length : option pystr) (max_response_bytes : Z)
    : result exn unit :=
  match content_length with
  | Some text =>
      match py_int text with
      | None => raise ValueError "invalid Content-Length header"
      | Some declared =>
          if (declared <? 0) || (max_response_bytes <? declared) then
            raise ValueError (lit "response exceeds byte limit: " ++ show_Z declared ++ lit " > "
                              ++ show_Z max_response_bytes)
          else Ok tt
      end
  | None => Ok tt
  end.
Definition read_bounded (content_length : option pystr) (body : bytes) (max_response_bytes : Z)
    : result exn bytes :=
  check_declared content_length max_response_bytes ;;
  let raw := take (Z.to_nat (max_response_bytes + 1)) body in
  if max_response_bytes <? Z.of_nat (length raw) then
    raise ValueError (lit "response exceeds byte limit: more than " ++ show_Z max_response_bytes
                      ++ lit " bytes")
  else Ok raw.

(** The error clauses of [_parse_artifact_tree], in order. *)
Definition artifact_tree_errors (raw : dict json) : list pystr :=
  let missing_keys := sort_str (List.filter (fun k => negb (dmem raw k)) ARTIFACT_TREE_KEYS) in
  let unknown_keys :=
    sort_str (List.filter (fun k => negb (str_in k ARTIFACT_TREE_KEYS)) (dkeys raw)) in
  (if (0 <? length missing_keys)%nat
   then [lit "missing fields: " ++ join ", " missing_keys] else []) ++
  (if (0 <? length unknown_keys)%nat
   then [lit "unknown fields: " ++ join ", " unknown_keys] else []) ++
  match dget raw "schema_version" with
  | Some (JInt 1) => []
  | _ => [lit "schema_version must equal 1"]
  end ++
  match dget raw "sha256" with
  | Some (JStr s) =>
      if is_sha256_str s then [] else [lit "sha256 must be a full lowercase SHA-256 digest"]
  | _ => [lit "sha256 must be a full lowercase SHA-256 digest"]
  end ++
  match dget raw "file_count" with
  | Some (JInt n) =>
      if (1 <=? n) && (n <=? MAX_SAFE_INTEGER) then []
      else [lit "file_count must be a positive safe integer"]
  | _ => [lit "file_count must be a positive safe integer"]
  end ++
  match dget raw "compile_revision" with
  | Some (JStr s) =>
      if is_commit_str s then [] else [lit "compile_revision must be a full lowercase Git commit SHA"]
  | _ => [lit "compile_revision must be a full lowercase Git commit SHA"]
  end ++
  match dget raw "provenance" with
  | Some (JStr (_ :: _)) => []
  | _ => [lit "provenance must be a non-empty string"]
  end.

Definition strict_int (v : option json) : option Z :=
  match v with Some (JInt z) => Some z | _ => None end.
Definition only_str (v : option json) : option pystr :=
  match v with Some (JStr s) => Some s | _ => None end.

Definition parse_artifact_tree (payload : dict json) : option ArtifactTreeResult :=
  match dget payload "artifact_tree" with
  | None => None
  | Some (JObj raw) =>
      let errors := artifact_tree_errors raw in
      Some {| at_schema_version := strict_int (dget raw "schema_version");
              at_sha256 := only_str (dget raw "sha256");
              at_file_count := strict_int (dget raw "file_count");
              at_compile_revision := only_str (dget raw "compile_revision");
              at_provenance := only_str (dget raw "provenance");
              at_error := match errors with [] => None | _ => Some (join "; " errors) end |}
  | Some _ =>
      Some (ArtifactTree None None None None None (Some (lit "artifact_tree is not an object")))
  end.

(** What [urlopen] does for one request. *)
Inductive exchange : Type :=
  | Response (status : Z) (headers : list (pystr * pystr)) (content_length : option pystr)
      (final_url : pystr) (body : bytes)
  | HttpFailure (code : Z) (headers : list (pystr * pystr)) (reason : pystr)
  | TransportFailure (text : pystr).

(** [loads] is [json.loads] with the two hooks above: a value, or the text of an exception that is
    caught.  [RecursionError], and the [ValueError] of an integer of more than 4300 digits, are not:
    they end the program, and are no answer of [loads]. *)
Definition fetch_endpoint (loads : bytes -> result pystr json) (url : pystr)
    (max_response_bytes : Z) (e : exchange) : EndpointResult :=
  let failed status headers text := Endpoint url status JNull JNull headers (JStr text) None in
  match e with
  | HttpFailure code headers reason => failed (JInt code) (normalize_headers headers) reason
  | TransportFailure text => failed (JInt 0) [] text
  | Response status items content_length final_url body =>
      let headers := normalize_headers items in
      if negb (str_eqb final_url url) then
        failed (JInt status) headers (lit "unexpected redirect target: " ++ final_url)
      else
        match read_bounded content_length body max_response_bytes with
        | Err exc => failed (JInt status) headers (exn_msg exc)
        | Ok raw =>
            match loads raw with
            | Err exc => failed (JInt status) headers (lit "invalid JSON: " ++ exc)
            | Ok (JObj payload) =>
                {| ep_url := url; ep_status := JInt status;
                   ep_commit := match dget payload "commit" with
                                | Some (JStr s) => JStr s | _ => JNull end;
                   ep_version := match dget payload "version" with
                                 | Some (JStr s) => JStr s | _ => JNull end;
                   ep_headers := headers; ep_error := JNull;
                   ep_artifact_tree := parse_artifact_tree payload |}
            | Ok _ => failed (JInt status) headers (lit "JSON body is not an object")
            end
        end
  end.

(** ** Evaluation *)

(** Header values in the receipt are strings; [repr] of an absent one is [None]. *)
Definition opt_json (o : option pystr) : json := match o with Some s => JStr s | None => JNull end.
(** [s or fallback] *)
Definition or_else (o : option pystr) (fallback : pystr) : pystr :=
  match o with Some (c :: s) => c :: s | _ => fallback end.

Definition endpoint_reasons (expected_commit name : pystr) (result : EndpointResult)
    : list pystr :=
  let expected_short := take 8 expected_commit in
  (if truthy (ep_error result)
   then [name ++ lit " readback failed: " ++ to_str (ep_error result)] else []) ++
  (if negb (py_eq (ep_status result) (JInt 200))
   then [name ++ lit " returned HTTP " ++ to_str (ep_status result) ++ lit ", expected 200"]
   else []) ++
  (if negb (py_eq (ep_commit result) (JStr expected_commit))
   then [name ++ lit " commit mismatch: expected " ++ expected_commit ++ lit ", got "
         ++ repr (ep_commit result)] else []) ++
  (if negb (py_eq (ep_version result) (JStr expected_short)) && str_eqb name "frontend"
   then [lit "frontend version mismatch: expected " ++ expected_short ++ lit ", got "
         ++ repr (ep_version result)] else []).

Definition header_reasons (expected_commit : pystr) (frontend api : EndpointResult)
    : list pystr :=
  let expected_short := take 8 expected_commit in
  let frontend_cache := lower (default [] (dget (ep_headers frontend) "cache-control")) in
  let api_build := dget (ep_headers api) "x-weltgewebe-api-build" in
  let edge_build := dget (ep_headers api) "x-weltgewebe-build" in
  (if negb (contains "no-store" frontend_cache)
   then [lit "frontend version readback is not served with Cache-Control: no-store"] else []) ++
  (if negb (bool_decide (api_build = Some expected_commit))
   then [lit "API build header mismatch: expected " ++ expected_commit ++ lit ", got "
         ++ repr (opt_json api_build)] else []) ++
  (if negb (bool_decide (edge_build = Some expected_short))
   then [lit "edge build header mismatch: expected " ++ expected_short ++ lit ", got "
         ++ repr (opt_json edge_build)] else []).

Definition artifact_reasons (expected_commit : pystr) (tree : option ArtifactTreeResult)
    : list pystr :=
  match tree with
  | None => [lit "frontend artifact_tree declaration is missing"]
  | Some t =>
      match at_error t with
      | Some (c :: e) => [lit "frontend artifact_tree declaration is invalid: " ++ c :: e]
      | _ =>
          (if negb (bool_decide (at_compile_revision t = Some expected_commit))
           then [lit "frontend artifact_tree compile_revision mismatch: expected "
                 ++ expected_commit ++ lit ", got " ++ repr (opt_json (at_compile_revision t))]
           else []) ++
          (if negb (bool_decide (at_provenance t = Some UNATTESTED_PROVENANCE))
           then [lit "frontend artifact_tree provenance is unsupported: expected "
                 ++ repr_str UNATTESTED_PROVENANCE
                 ++ lit " until an attestation verifier is implemented, got "
                 ++ repr (opt_json (at_provenance t))] else [])
      end
  end.

Definition provenance_status (tree : option ArtifactTreeResult) : pystr :=
  match tree with
  | None => lit "missing"
  | Some t =>
      match at_error t with
      | Some (_ :: _) => or_else (at_provenance t) "invalid"
      | _ => or_else (at_provenance t) "missing"
      end
  end.

Definition is_nil {A} (l : list A) : bool := match l with [] => true | _ => false end.

(** [now] is the ISO time stamp of the call. *)
Definition evaluate (now expected_commit : pystr) (frontend api : EndpointResult)
    : VerificationResult :=
  let identity_reasons :=
    endpoint_reasons expected_commit "frontend" frontend ++
    endpoint_reasons expected_commit "api" api ++
    header_reasons expected_commit frontend api in
  let tree_reasons := artifact_reasons expected_commit (ep_artifact_tree frontend) in
  let reasons := identity_reasons ++ tree_reasons in
  let pass_ := is_nil reasons in
  {| vr_schema_version := 3;
     vr_expected_commit := expected_commit;
     vr_verified_at := now;
     vr_pass := pass_;
     vr_status := if pass_ then LIMITED_PASS_STATUS else lit "failed";
     vr_pass_scope := if pass_ then LIMITED_PASS_SCOPE else lit "none";
     vr_identity_verified := is_nil identity_reasons;
     vr_artifact_tree_declaration_verified := is_nil tree_reasons;
     vr_attestation_verified := false;
     vr_provenance_status := provenance_status (ep_artifact_tree frontend);
     vr_reasons := reasons;
     vr_limitations :=
       if pass_ then
         [lit "the public verifier does not reconstruct the deployed artifact tree";
          lit "artifact provenance is explicitly unattested"]
       else [];
     vr_frontend := frontend;
     vr_api := api |}.

(** ** The receipt *)

Definition opt_int_json (o : option Z) : json := match o with Some z => JInt z | None => JNull end.

Definition artifact_tree_json (t : option ArtifactTreeResult) : json :=
  match t with
  | None => JNull
  | Some t =>
      JObj [(lit "schema_version", opt_int_json (at_schema_version t));
            (lit "sha256", opt_json (at_sha256 t));
            (lit "file_count", opt_int_json (at_file_count t));
            (lit "compile_revision", opt_json (at_compile_revision t));
            (lit "provenance", opt_json (at_provenance t));
            (lit "error", opt_json (at_error t))]
  end.

Definition endpoint_json (e : EndpointResult) : json :=
  JObj [(lit "url", JStr (ep_url e)); (lit "status", ep_status e); (lit "commit", ep_commit e);
        (lit "version", ep_version e);
        (lit "headers", JObj ((fun kv => (fst kv, JStr (snd kv))) <$> ep_headers e));
        (lit "error", ep_error e);
        (lit "artifact_tree", artifact_tree_json (ep_artifact_tree e))].

(** [as_json]: [asdict], with [pass_] renamed to [pass] (and so moved to the end). *)
Definition as_json (r : VerificationResult) : json :=
  JObj [(lit "schema_version", JInt (vr_schema_version r));
        (lit "expected_commit", JStr (vr_expected_commit r));
        (lit "verified_at", JStr (vr_verified_at r));
        (lit "status", JStr (vr_status r));
        (lit "pass_scope", JStr (vr_pass_scope r));
        (lit "identity_verified", JBool (vr_identity_verified r));
        (lit "artifact_tree_declaration_verified",
          JBool (vr_artifact_tree_declaration_verified r));
        (lit "attestation_verified", JBool (vr_attestation_verified r));
        (lit "provenance_status", JStr (vr_provenance_status r));
        (lit "reasons", JList (JStr <$> vr_reasons r));
        (lit "limitations", JList (JStr <$> vr_limitations r));
        (lit "frontend", endpoint_json (vr_frontend r));
        (lit "api", endpoint_json (vr_api r));
        (lit "pass", JBool (vr_pass r))].

(** ** The polling loop of [main] *)

(** One turn: the two readings, and [time.monotonic()] after the receipt is written. *)
Record turn : Type := Turn { t_frontend : EndpointResult; t_api : EndpointResult; t_clock : Z }.

(** Exit code and the receipt written last; [None] when [fuel] turns were not enough. *)
Fixpoint poll (fuel : nat) (now expected : pystr) (deadline : Z) (turns : nat -> turn) (i : nat)
    : option (Z * VerificationResult) :=
  match fuel with
  | O => None
  | S fuel' =>
      let t := turns i in
      let result := evaluate now expected (t_frontend t) (t_api t) in
      if vr_pass result then Some (0, result)
      else if deadline <=? t_clock t then Some (1, result)
      else poll fuel' now expected deadline turns (S i)
  end.

(** ** Specification *)

(** The public release of [commit]: what both endpoints must show at once. *)
Record released (commit : pystr) (frontend api : EndpointResult) : Prop := Released {
  rel_no_error : truthy (ep_error frontend) = false /\ truthy (ep_error api) = false;
  rel_status : py_eq (ep_status frontend) (JInt 200) = true /\
               py_eq (ep_status api) (JInt 200) = true;
  rel_commit : ep_commit frontend = JStr commit /\ ep_commit api = JStr commit;
  rel_version : ep_version frontend = JStr (take 8 commit);
  rel_no_store :
    contains "no-store" (lower (default [] (dget (ep_headers frontend) "cache-control"))) = true;
  rel_api_build : dget (ep_headers api) "x-weltgewebe-api-build" = Some commit;
  rel_edge_build : dget (ep_headers api) "x-weltgewebe-build" = Some (take 8 commit);
  rel_tree : exists t, ep_artifact_tree frontend = Some t /\
    or_else (at_error t) [] = [] /\ at_compile_revision t = Some commit /\
    at_provenance t = Some UNATTESTED_PROVENANCE;
}.

End verify.

(** ** Lemmas *)

Section lemmas.
Context `{PyHost}.

Lemma when_nil {A} (b : bool) (x : A) : (if b then [x] else []) = [] <-> b = false.
Proof. by destruct b. Qed.
Lemma is_nil_true {A} (l : list A) : is_nil l = true <-> l = [].
Proof. by destruct l. Qed.
Lemma bool_decide_negb P `{Decision P} : negb (bool_decide P) = false <-> P.
Proof. by rewrite negb_false_iff, bool_decide_eq_true. Qed.

Lemma endpoint_reasons_nil commit name e :
  endpoint_reasons commit name e = [] <->
  truthy (ep_error e) = false /\ py_eq (ep_status e) (JInt 200) = true /\
  ep_commit e = JStr commit /\ (name = lit "frontend" -> ep_version e = JStr (take 8 commit)).
Proof.
  unfold endpoint_reasons. rewrite !app_nil, !when_nil, !negb_false_iff, py_eq_str.
  rewrite andb_false_iff, negb_false_iff, py_eq_str, str_eqb_neq. 
  split; intros (? & ? & ? & Hv); (split_and!; [done..|]).
  - destruct Hv; [done|]. by intros ->.
  - destruct (decide (name = lit "frontend")) as [->|]; [left; auto|by right].
Qed.

Lemma header_reasons_nil commit f a :
  header_reasons commit f a = [] <->
  contains "no-store" (lower (default [] (dget (ep_headers f) "cache-control"))) = true /\
  dget (ep_headers a) "x-weltgewebe-api-build" = Some commit /\
  dget (ep_headers a) "x-weltgewebe-build" = Some (take 8 commit).
Proof.
  unfold header_reasons. rewrite !app_nil, !when_nil, negb_false_iff.
  by rewrite !(bool_decide_negb _).
Qed.

Lemma artifact_reasons_nil commit tree :
  artifact_reasons commit tree = [] <->
  exists t, tree = Some t /\ or_else (at_error t) [] = [] /\
    at_compile_revision t = Some commit /\ at_provenance t = Some UNATTESTED_PROVENANCE.
Proof.
  unfold artifact_reasons, or_else. destruct tree as [t|]; [|naive_solver].
  destruct (at_error t) as [[|c e]|] eqn:E.
  2: { split; [done|]. intros (t' & [= <-] & He & _). by rewrite E in He. }
  all: rewrite !app_nil, !when_nil, !(bool_decide_negb _); split;
    [intros [? ?]; exists t; by rewrite E|by intros (t' & [= <-] & _ & ? & ?)].
Qed.

Lemma evaluate_reasons_nil now commit f a :
  vr_reasons (evaluate now commit f a) = [] <-> released commit f a.
Proof.
  cbn. rewrite !app_nil, !endpoint_reasons_nil, header_reasons_nil, artifact_reasons_nil. split.
  - intros ((Hf & Ha & Hh) & Ht). destruct Hf as (? & ? & ? & Hv), Ha as (? & ? & ? & _),
      Hh as (? & ? & ?). constructor; auto.
  - intros [[] [] [] ? ? ? ? ?]. split_and!; auto. by intros ?%str_eqb_eq.
Qed.

Lemma vr_pass_reasons now commit f a :
  vr_pass (evaluate now commit f a) = true <-> vr_reasons (evaluate now commit f a) = [].
Proof. apply is_nil_true. Qed.

(** *** The declared artifact tree *)

Lemma join_nonempty (sep : pystr) l : l <> [] -> Forall (fun x => x <> []) l -> join sep l <> [].
Proof. by destruct l as [|[|c x] [|y l]]; [done|intros _ []%Forall_cons..| |]. Qed.

Lemma filter_nil {A} (p : A -> bool) l : List.filter p l = [] <-> forall x, x ∈ l -> p x = false.
Proof.
  induction l as [|x l IH]; cbn.
  - split; [|done]. by intros _ x ?%not_elem_of_nil.
  - setoid_rewrite elem_of_cons. destruct (p x) eqn:E; [|naive_solver].
    split; [done|]. intros Hall. specialize (Hall x (or_introl eq_refl)). congruence.
Qed.

Lemma sorted_filter_nil (p : pystr -> bool) l (m : pystr) :
  (if (0 <? length (sort_str (List.filter p l)))%nat then [m] else []) = [] <->
  forall x, x ∈ l -> p x = false.
Proof.
  rewrite when_nil, Nat.ltb_ge, Nat.le_0_r. unfold sort_str. rewrite length_sort_by.
  rewrite length_zero_iff_nil. apply filter_nil.
Qed.

(** The keys and the values a declaration must have. *)
Record tree_declared (raw : dict json) : Prop := TreeDeclared {
  td_keys : forall k, k ∈ dkeys raw <-> k ∈ ARTIFACT_TREE_KEYS;
  td_version : dget raw "schema_version" = Some (JInt 1);
  td_sha256 : exists s, dget raw "sha256" = Some (JStr s) /\ is_sha256_str s = true;
  td_count : exists n, dget raw "file_count" = Some (JInt n) /\ 1 <= n <= MAX_SAFE_INTEGER;
  td_revision : exists s, dget raw "compile_revision" = Some (JStr s) /\ is_commit_str s = true;
  td_provenance : exists c s, dget raw "provenance" = Some (JStr (c :: s));
}.

Lemma artifact_tree_errors_nil raw : artifact_tree_errors raw = [] <-> tree_declared raw.
Proof.
  unfold artifact_tree_errors. rewrite !app_nil, !sorted_filter_nil.
  setoid_rewrite negb_false_iff. setoid_rewrite dmem_spec. setoid_rewrite str_in_elem. split.
  - intros (Hm & Hu & Hv & Hs & Hn & Hr & Hp). constructor.
    + intros k. split; auto.
    + destruct (dget raw "schema_version") as [[| |[|[]|]| | | |]|]; done.
    + destruct (dget raw "sha256") as [[| | | |s| |]|]; try done.
      destruct (is_sha256_str s) eqn:?; [eauto|done].
    + destruct (dget raw "file_count") as [[| |n| | | |]|]; try done.
      destruct (Z.leb_spec 1 n), (Z.leb_spec n MAX_SAFE_INTEGER); try done. exists n. auto.
    + destruct (dget raw "compile_revision") as [[| | | |s| |]|]; try done.
      destruct (is_commit_str s) eqn:?; [eauto|done].
    + destruct (dget raw "provenance") as [[| | | |[|c s]| |]|]; try done. eauto.
  - intros [Hk Hv (s & Hs & Es) (n & Hn & En) (r & Hr & Er) (c & p & Hp)].
    rewrite Hv, Hs, Es, Hn, Hr, Er, Hp. split_and!; try done; try (intros; by apply Hk).
    rewrite (proj2 (Z.leb_le _ _) (proj1 En)), (proj2 (Z.leb_le _ _) (proj2 En)). done.
Qed.

Lemma parse_tree_ok raw payload :
  dget payload "artifact_tree" = Some (JObj raw) -> tree_declared raw ->
  parse_artifact_tree payload =
    Some (ArtifactTree (strict_int (dget raw "schema_version")) (only_str (dget raw "sha256"))
            (strict_int (dget raw "file_count")) (only_str (dget raw "compile_revision"))
            (only_str (dget raw "provenance")) None).
Proof.
  intros E Ht%artifact_tree_errors_nil. unfold parse_artifact_tree. by rewrite E, Ht.
Qed.

Lemma parse_tree_no_error payload t :
  parse_artifact_tree payload = Some t -> at_error t = None ->
  exists raw, dget payload "artifact_tree" = Some (JObj raw) /\ tree_declared raw /\
    t = ArtifactTree (strict_int (dget raw "schema_version")) (only_str (dget raw "sha256"))
          (strict_int (dget raw "file_count")) (only_str (dget raw "compile_revision"))
          (only_str (dget raw "provenance")) None.
Proof.
  unfold parse_artifact_tree. intros E He.
  destruct (dget payload "artifact_tree") as [[| | | | | |raw]|] eqn:Ed; try done;
    try (injection E as <-; done).
  injection E as <-. cbn [at_error] in He.
  destruct (artifact_tree_errors raw) eqn:Ee; [|done].
  exists raw. split_and!; [done|by apply artifact_tree_errors_nil|done].
Qed.

(** An error text is never empty. *)
Lemma parse_tree_error_text payload t :
  parse_artifact_tree payload = Some t -> at_error t <> Some [].
Proof.
  unfold parse_artifact_tree. destruct (dget payload "artifact_tree") as [[| | | | | |raw]|];
    intros [= <-]; try done.
  cbn [at_error]. assert (Forall (fun x => x <> []) (artifact_tree_errors raw)) as Hf.
  { unfold artifact_tree_errors. rewrite !Forall_app. split_and!; repeat destr_match;
      by repeat constructor. }
  destruct (artifact_tree_errors raw) as [|x l]; [done|]. intros E.
  apply (f_equal (default [0%N])) in E. revert E. by apply (join_nonempty "; ").
Qed.

(** *** The polling loop *)

Lemma poll_result fuel now commit deadline turns i code r :
  poll fuel now commit deadline turns i = Some (code, r) ->
  exists j, (i <= j)%nat /\ (j < i + fuel)%nat /\
    r = evaluate now commit (t_frontend (turns j)) (t_api (turns j)) /\
    (forall k, (i <= k < j)%nat -> t_clock (turns k) < deadline /\
       ~ released commit (t_frontend (turns k)) (t_api (turns k))) /\
    (code = 0 /\ released commit (t_frontend (turns j)) (t_api (turns j)) \/
     code = 1 /\ deadline <= t_clock (turns j) /\
       ~ released commit (t_frontend (turns j)) (t_api (turns j))).
Proof.
  revert i; induction fuel as [|n IH]; intros i; cbn [poll]; [done|].
  destruct (vr_pass _) eqn:Ep.
  - intros [= <- <-]. exists i. rewrite vr_pass_reasons, evaluate_reasons_nil in Ep.
    split_and!; auto; try lia; intros; lia.
  - assert (~ released commit (t_frontend (turns i)) (t_api (turns i))) as Hn
      by (rewrite <-(evaluate_reasons_nil now), <-vr_pass_reasons; congruence).
    destruct (Z.leb_spec deadline (t_clock (turns i))).
    + intros [= <- <-]. exists i. split_and!; auto; try lia; intros; lia.
    + intros (j & Hj1 & Hj2 & Hr & Hk & Hc)%IH. exists j. split_and!; auto; try lia.
      intros k Hk'. destruct (decide (k = i)) as [->|]; [done|]. apply Hk. lia.
Qed.

Lemma poll_enough fuel now commit deadline turns i :
  (forall k, t_clock (turns k) < t_clock (turns (S k))) ->
  deadline - t_clock (turns i) < Z.of_nat fuel ->
  (0 < fuel)%nat -> exists code r, poll fuel now commit deadline turns i = Some (code, r).
Proof.
  intros Hclock. revert i; induction fuel as [|n IH]; intros i Hf Hpos; [lia|]. cbn [poll].
  destruct (vr_pass _); [eauto|].
  destruct (Z.leb_spec deadline (t_clock (turns i))); [eauto|].
  apply IH; [specialize (Hclock i); lia|lia].
Qed.

End lemmas.

(** *** Endpoint readings *)

Section readings.
Context `{PyHost}.

(** The bytes read are the whole body, which fits the budget, and so did a declared length. *)
Definition bounded_body (content_length : option pystr) (body : bytes) (max : Z) : Prop :=
  Z.of_nat (length body) <= max /\
  forall text, content_length = Some text ->
    exists declared, py_int text = Some declared /\ 0 <= declared <= max.

Lemma check_declared_ok content_length max :
  check_declared content_length max = Ok tt <->
  forall text, content_length = Some text ->
    exists declared, py_int text = Some declared /\ 0 <= declared <= max.
Proof.
  unfold check_declared. destruct content_length as [text|]; [|by split].
  split.
  - intros Hc text' [= <-]. destruct (py_int text) as [d|]; [|done].
    destruct (Z.ltb_spec d 0), (Z.ltb_spec max d); try done. eauto.
  - intros Ht. destruct (Ht text eq_refl) as (d & -> & ?).
    by destruct (Z.ltb_spec d 0), (Z.ltb_spec max d); try lia.
Qed.

Lemma read_bounded_ok content_length body max raw :
  read_bounded content_length body max = Ok raw <->
  raw = body /\ bounded_body content_length body max.
Proof.
  unfold read_bounded, bounded_body. rewrite <-check_declared_ok.
  destruct (check_declared content_length max) as [[]|e]; cbn; [|naive_solver].
  rewrite length_take.
  destruct (Z.ltb_spec max (Z.of_nat (Nat.min (Z.to_nat (max + 1)) (length body)))) as [Hlt|Hge].
  - split; [done|]. intros (_ & ? & _). lia.
  - rewrite take_ge by lia. split; [intros [= <-]; split_and!; auto; lia|by intros [-> _]].
Qed.

(** What a reading without an error went through. *)
Record read_back (loads : bytes -> result pystr json) (url : pystr) (max : Z) (e : exchange)
    (r : EndpointResult) : Prop := ReadBack {
  rb_exchange : exists status items content_length body payload,
    e = Response status items content_length url body /\
    bounded_body content_length body max /\
    loads body = Ok (JObj payload) /\
    r = Endpoint url (JInt status)
          match dget payload "commit" with Some (JStr s) => JStr s | _ => JNull end
          match dget payload "version" with Some (JStr s) => JStr s | _ => JNull end
          (normalize_headers items) JNull (parse_artifact_tree payload)
}.

Lemma fetch_endpoint_tree loads url max e t :
  ep_artifact_tree (fetch_endpoint loads url max e) = Some t ->
  exists payload, parse_artifact_tree payload = Some t.
Proof.
  unfold fetch_endpoint. destruct e as [st items cl fin body| |]; try done.
  destruct (negb _); [done|]. destruct (read_bounded _ _ _); [|done].
  destruct (loads _) as [[| | | | | |payload]|]; try done. by exists payload.
Qed.

Lemma normalized_keys items acc :
  NoDup (dkeys acc) -> NoDup (dkeys (foldl normalize_header acc items)).
Proof.
  revert acc; induction items as [|kv items IH]; intros acc Hn; cbn; [done|].
  apply IH. by apply NoDup_dset.
Qed.

End readings.

(** ** Properties *)

Section properties.
Context `{PyHost}.

(** [evaluate] passes exactly when both endpoints show the release of the expected commit at
    once: no reading error, HTTP 200 and the full commit on both, the short version and [no-store]
    on the frontend, both build headers on the API and a well-formed, unattested artifact-tree
    declaration of that commit.  The reasons are empty in that case only, each flag of the receipt
    is determined by them, and no receipt ever claims an attestation. *)
Theorem evaluate_exact now commit frontend api :
  let r := evaluate now commit frontend api in
  (vr_pass r = true <-> released commit frontend api) /\
  (vr_reasons r = [] <-> released commit frontend api) /\
  (vr_pass r = vr_identity_verified r && vr_artifact_tree_declaration_verified r) /\
  (vr_status r = LIMITED_PASS_STATUS <-> vr_pass r = true) /\
  (vr_limitations r = [] <-> vr_pass r = false) /\
  vr_attestation_verified r = false.
Proof.
  cbn zeta. rewrite vr_pass_reasons, evaluate_reasons_nil. split_and!; [done..| | | |done].
  - cbn. by destruct (_ ++ _ ++ _), (artifact_reasons _ _).
  - rewrite <-(evaluate_reasons_nil now), <-vr_pass_reasons. cbn. by destruct (is_nil _).
  - cbn. by destruct (is_nil _).
Qed.

(** A declared artifact tree is free of errors exactly when it is an object with the five
    contract keys and no other, version 1, a SHA-256 digest, a file count between 1 and 2^53 - 1,
    a full commit and a provenance; its values are then taken over unchanged, and an absent
    declaration is told apart from an invalid one. *)
Theorem parse_artifact_tree_exact payload :
  (parse_artifact_tree payload = None <-> dget payload "artifact_tree" = None) /\
  forall t, parse_artifact_tree payload = Some t ->
    (at_error t = None <->
     exists raw, dget payload "artifact_tree" = Some (JObj raw) /\ tree_declared raw) /\
    (at_error t = None -> forall raw, dget payload "artifact_tree" = Some (JObj raw) ->
     t = ArtifactTree (Some 1) (only_str (dget raw "sha256")) (strict_int (dget raw "file_count"))
           (only_str (dget raw "compile_revision")) (only_str (dget raw "provenance")) None).
Proof.
  split.
  - unfold parse_artifact_tree. by destruct (dget payload "artifact_tree") as [[]|].
  - intros t Ht. split; [split|].
    + intros He. destruct (parse_tree_no_error _ _ Ht He) as (raw & ? & ? & _). eauto.
    + intros (raw & Hd & Hr). rewrite (parse_tree_ok raw) in Ht by done. by injection Ht as <-.
    + intros He raw Hd. destruct (parse_tree_no_error _ _ Ht He) as (raw' & Hd' & Hr & ->).
      rewrite Hd in Hd'. injection Hd' as <-. by rewrite (td_version _ Hr).
Qed.

Lemma parse_artifact_tree_exact_witness :
  exists t, parse_artifact_tree [(lit "artifact_tree", JObj [])] = Some t /\ at_error t <> None.
Proof.
  destruct (parse_artifact_tree [(lit "artifact_tree", JObj [])]) as [t|] eqn:E; [|by vm_compute in E].
  exists t. split; [done|]. intros He.
  destruct (proj2 (parse_artifact_tree_exact _) t E) as [[Hx _] _].
  destruct (Hx He) as (raw & Hd & Hr). vm_compute in Hd. injection Hd as <-.
  by discriminate (td_version _ Hr).
Defined.

(** A reading carries no error exactly when the exchange answered at the requested address
    with a body (and any declared length) within the byte limit that parses to an object; then
    commit, version, headers and tree are those of the answer.  Every other exchange yields an
    error text and neither commit, version nor tree. *)
Theorem fetch_endpoint_exact loads url max e :
  let r := fetch_endpoint loads url max e in
  (ep_error r = JNull <-> read_back loads url max e r) /\
  (ep_error r <> JNull ->
     ep_commit r = JNull /\ ep_version r = JNull /\ ep_artifact_tree r = None).
Proof.
  cbn zeta. split; [split|].
  - intros He. constructor. unfold fetch_endpoint in *. destruct e as [st items cl fin body| |]; try done.
    destruct (str_eqb_spec fin url) as [->|]; [|done]. cbn in *.
    destruct (read_bounded cl body max) as [raw|] eqn:Er; [|done].
    apply read_bounded_ok in Er as [-> Hb].
    destruct (loads body) as [[| | | | | |payload]|] eqn:El; try done. by eexists _, _, _, _, _.
  - intros [(st & items & cl & body & payload & -> & Hb & El & Hr)]. by rewrite Hr.
  - unfold fetch_endpoint. intros He. repeat destr_match; cbn in *; done.
Qed.

(** C22: the polling loop ends, whatever is read from the endpoints, once the clock moves: it exits 0
    at the first turn that shows the release and otherwise 1 at the first turn read after the
    deadline, and the receipt it leaves is the evaluation of that last turn.  (A body whose JSON
    raises what [fetch_endpoint] does not catch gives no reading; it ends the program.) *)
Theorem poll_exact fuel now commit deadline turns
    (Hclock : forall k, t_clock (turns k) < t_clock (turns (S k)))
    (Hfuel : deadline - t_clock (turns O) < Z.of_nat fuel) (Hpos : (0 < fuel)%nat) :
  exists code j,
    let shows k := released commit (t_frontend (turns k)) (t_api (turns k)) in
    poll fuel now commit deadline turns 0 =
      Some (code, evaluate now commit (t_frontend (turns j)) (t_api (turns j))) /\
    (forall k, (k < j)%nat -> t_clock (turns k) < deadline /\ ~ shows k) /\
    (code = 0 /\ shows j \/ code = 1 /\ deadline <= t_clock (turns j) /\ ~ shows j).
Proof.
  destruct (poll_enough fuel now commit deadline turns 0 Hclock Hfuel Hpos) as (code & r & Hr).
  destruct (poll_result _ _ _ _ _ _ _ _ Hr) as (j & _ & _ & -> & Hk & Hc).
  exists code, j. cbn zeta. split_and!; auto. intros k Hk'. apply Hk. lia.
Qed.

End properties.

(** A release to run the theorems on. *)
Definition demo_commit : pystr := replicate 40 97%N.
Definition demo_tree : json :=
  JObj [(lit "schema_version", JInt 1); (lit "sha256", JStr (replicate 64 48%N));
        (lit "file_count", JInt 3); (lit "compile_revision", JStr demo_commit);
        (lit "provenance", JStr UNATTESTED_PROVENANCE)].
Definition demo_exchange (url : pystr) (commit : pystr) : exchange :=
  Response 200
    [(lit "Cache-Control", lit "No-Store"); (lit "X-Weltgewebe-Api-Build", commit);
     (lit "x-weltgewebe-build", take 8 commit)]
    (Some (lit "1")) url [0%N].
Definition demo_loads (commit : pystr) (_ : bytes) : result pystr json :=
  Ok (JObj [(lit "commit", JStr commit); (lit "version", JStr (take 8 commit));
            (lit "artifact_tree", demo_tree)]).
Definition demo_endpoint (url : pystr) (commit : pystr) : EndpointResult :=
  @fetch_endpoint ascii_host (demo_loads commit) url 1024 (demo_exchange url commit).

Example demo_passes :
  vr_pass (@evaluate ascii_host [] demo_commit (demo_endpoint "f" demo_commit)
             (demo_endpoint "a" demo_commit)) = true.
Proof. by vm_compute. Qed.
Example demo_other_fails :
  vr_pass (@evaluate ascii_host [] demo_commit (demo_endpoint "f" (replicate 40 98%N))
             (demo_endpoint "a" demo_commit)) = false.
Proof. by vm_compute. Qed.

Lemma fetch_endpoint_exact_witness :
  let r := @fetch_endpoint ascii_host (fun _ => Ok (JObj [])) (lit "u") 1
             (Response 200 [] (Some (lit "2")) (lit "u") [123; 125]%N) in
  ep_error r <> JNull /\ ep_artifact_tree r = None.
Proof.
  split; [by vm_compute|].
  apply (proj2 (@fetch_endpoint_exact ascii_host (fun _ => Ok (JObj [])) (lit "u") 1
    (Response 200 [] (Some (lit "2")) (lit "u") [123; 125]%N))). by vm_compute.
Defined.

(** The release appears on the second turn. *)
Definition demo_turns (k : nat) : turn :=
  Turn (demo_endpoint "f" (if (k =? 0)%nat then replicate 40 98%N else demo_commit))
    (demo_endpoint "a" demo_commit) (Z.of_nat k).

Lemma poll_exact_witness :
  exists j, @poll ascii_host 12 [] demo_commit 10 demo_turns 0 =
    Some (0, @evaluate ascii_host [] demo_commit (t_frontend (demo_turns j)) (t_api (demo_turns j))).
Proof.
  destruct (@poll_exact ascii_host 12 [] demo_commit 10 demo_turns) as (code & j & Hp & _ & Hc).
  - intros k. cbn. lia.
  - vm_compute. done.
  - lia.
  - exists j. destruct Hc as [[-> _]|[-> _]]; [done|].
    exfalso. revert Hp.
    assert (fst <$> @poll ascii_host 12 [] demo_commit 10 demo_turns 0 = Some 0) as E by by vm_compute.
    intros Hp. rewrite Hp in E. done.
Defined.
