(* ===== verification/LiveState.v ===== *)
(** * Classifying the production live state

    scripts/ops/classify_production_live_state.py: [classify] compares a verifier receipt with the
    main lineage, [with_schaubild] adds the release convergence receipt, [fingerprint] names an
    alert.  Git and the clock are arguments: [is_ancestor] and [rollout_start] are the closures
    that [main] passes, [now] is [int(time.time())]. *)

From S2P Require Import Prelude PyStr Json Sha256 ReleaseVerify.
Open Scope Z_scope.

Inductive live_state : Type :=
  | current | superseded | pending | stale | divergent | invalid | outage | monitor_failure.

#[global] Instance live_state_eq_dec : EqDecision live_state.
Proof. solve_decision. Defined.

Definition state_name (s : live_state) : pystr :=
  match s with
  | current => lit "current" | superseded => lit "superseded" | pending => lit "pending"
  | stale => lit "stale" | divergent => lit "divergent" | invalid => lit "invalid"
  | outage => lit "outage" | monitor_failure => lit "monitor_failure"
  end.

(** [NON_ALERTING_STATES] *)
Definition non_alerting (s : live_state) : bool :=
  match s with current | superseded | pending => true | _ => false end.

Definition SCHAUBILD_SCHEMA : pystr := lit "weltgewebe-schauwerk-release-convergence.v1".
Definition DEFAULT_PENDING_GRACE_SECONDS : Z := 1200.

Inductive schaubild_cause : Type := only | also.

Record Classification : Type := Classified {
  c_schema_version : Z;
  c_state : live_state;
  c_alert : bool;
  c_expected_commit : pystr;
  c_main_commit : pystr;
  c_live_commit : option pystr;
  c_reason : pystr;
  c_frontend_commit : option pystr;
  c_api_commit : option pystr;
  c_schaubild : option schaubild_cause;
  c_causes : list pystr;
}.

Section live_state.
Context `{PyHost}.

Definition is_commit (v : json) : bool := match v with JStr s => is_commit_str s | _ => false end.
Definition as_commit (v : json) : option pystr :=
  match v with JStr s => if is_commit_str s then Some s else None | _ => None end.

Definition schaubild_name (s : schaubild_cause) : pystr :=
  match s with only => lit "only" | also => lit "also" end.

(** ** Fingerprints *)

(** [s or 'none'] *)
Definition or_none (o : option pystr) : pystr := or_else o (lit "none").

Definition fingerprint_base (c : Classification) : pystr :=
  match c_live_commit c with
  | None =>
      if negb (is_nil (or_else (c_frontend_commit c) [])) ||
         negb (is_nil (or_else (c_api_commit c) []))
      then state_name (c_state c) ++ lit ":" ++ or_none (c_frontend_commit c) ++ lit "/"
           ++ or_none (c_api_commit c)
      else state_name (c_state c) ++ lit ":" ++ or_none None
  | live => state_name (c_state c) ++ lit ":" ++ or_none live
  end.

Definition causes_digest (causes : list pystr) : result exc_class pystr :=
  text ← utf8_encode (join [10%N] (sort_str causes));
  Ok (take 12 (sha256_hex text)).

Definition fingerprint (c : Classification) : result exc_class pystr :=
  identity ← (if is_nil (c_causes c) then Ok (fingerprint_base c)
              else digest ← causes_digest (c_causes c);
                   Ok (fingerprint_base c ++ lit "#" ++ digest));
  Ok match c_schaubild c with
     | Some s => identity ++ lit "+schaubild-" ++ schaubild_name s
     | None => identity
     end.

(** ** Git *)

(** A completed [subprocess.run]. *)
Record process : Type := Process { returncode : Z; stdout : pystr }.

Section git.
Context (git : list pystr -> process) (repo : pystr).

Definition git_is_ancestor (ancestor descendant : pystr) : option bool :=
  let completed := git [lit "-C"; repo; lit "merge-base"; lit "--is-ancestor"; ancestor; descendant] in
  if returncode completed =? 0 then Some true
  else if returncode completed =? 1 then Some false
  else None.

(** [%ct] prints ASCII digits, on which [isdigit] and [int] are computed. *)
Definition git_commit_time (commit : pystr) : option Z :=
  let completed := git [lit "-C"; repo; lit "show"; lit "-s"; lit "--format=%ct"; commit] in
  let raw := strip (stdout completed) in
  if negb (returncode completed =? 0) || negb (negb (is_nil raw) && forallb ascii_digit raw)
  then None else py_int raw.

Definition git_rollout_start (live target : pystr) : option Z :=
  let completed := git [lit "-C"; repo; lit "rev-list"; lit "--first-parent"; lit "--reverse";
                        live ++ lit ".." ++ target] in
  let lines := split_ws (stdout completed) in
  if negb (returncode completed =? 0) then None
  else match lines with first :: _ => git_commit_time first | [] => None end.
End git.

(** ** Revalidating a stored receipt *)

Definition no_attribute {A} (v : json) (name : pystr) : result exn A :=
  raise AttributeError (lit "'" ++ type_name v ++ lit "' object has no attribute '" ++ name ++ lit "'").

(** The declared tree is parsed again; the stored parser result must agree with it. *)
Definition checked_tree (tree : json) : result exn (option ArtifactTreeResult) :=
  match tree with
  | JObj entries =>
      match dget entries "error" with
      | None => raise ValueError "artifact_tree has no parser result"
      | Some stored =>
          let declared := List.filter (fun kv => negb (str_eqb (fst kv) "error")) entries in
          let parsed := parse_artifact_tree [(lit "artifact_tree", JObj declared)] in
          if py_eq (opt_json (parsed ≫= at_error)) stored then Ok parsed
          else raise ValueError "artifact_tree parser result contradicts declaration"
      end
  | _ => Ok None
  end.

Definition stored_headers (v : json) : result exn (dict pystr) :=
  if negb (truthy v) then Ok []
  else match v with
       | JObj entries =>
           Ok (foldl (fun acc kv => dset acc (lower (fst kv)) (to_str (snd kv))) [] entries)
       | _ => no_attribute v "items"
       end.

Definition stored_endpoint (raw : json) : result exn EndpointResult :=
  match raw with
  | JObj _ =>
      tree ← checked_tree (get raw "artifact_tree");
      headers ← stored_headers (get raw "headers");
      Ok {| ep_url := (let u := get raw "url" in if truthy u then to_str u else []);
            ep_status := get raw "status";
            ep_commit := get raw "commit";
            ep_version := get raw "version";
            ep_headers := headers;
            ep_error := get raw "error";
            ep_artifact_tree := tree |}
  | _ => no_attribute raw "get"
  end.

Definition revalidate_against (receipt : json) (commit : pystr) : list pystr :=
  match
    (f ← item receipt "frontend"; frontend ← stored_endpoint f;
     a ← item receipt "api"; api ← stored_endpoint a;
     Ok (vr_reasons (evaluate [] commit frontend api)))
  with
  | Ok reasons => reasons
  | Err exc =>
      [lit "receipt cannot be revalidated against " ++ commit ++ lit ": " ++ exn_msg exc]
  end.

(** ** Classification *)

Definition seconds (z : Z) : pystr := show_Z z ++ lit "s".

Section classify.
Context (expected_commit main_commit : pystr) (now pending_grace_seconds : Z).
Context (is_ancestor : pystr -> pystr -> option bool)
  (rollout_start : pystr -> pystr -> option Z).

(** [if is_ancestor(a, b)]: an unknown answer counts as no. *)
Definition ancestor (a b : pystr) : bool := default false (is_ancestor a b).

Definition classified (observed : option pystr * option pystr) (state : live_state)
    (live : option pystr) (reason : pystr) (causes : list pystr) : Classification :=
  {| c_schema_version := 1; c_state := state; c_alert := negb (non_alerting state);
     c_expected_commit := expected_commit; c_main_commit := main_commit; c_live_commit := live;
     c_reason := reason; c_frontend_commit := fst observed; c_api_commit := snd observed;
     c_schaubild := None; c_causes := causes |}.

(** The [lag] closure: production serves the main commit [live], [target] is owed. *)
Definition lag (receipt : json) (observed : option pystr * option pystr) (live target : pystr)
    : Classification :=
  let result state reason causes := classified observed state (Some live) reason causes in
  match revalidate_against receipt live with
  | (_ :: _) as failures => result invalid (join "; " failures) failures
  | [] =>
      match rollout_start live target with
      | None =>
          result stale (lit "rollout start after " ++ live ++ lit " is unknown; treating lag as stale")
            []
      | Some owed_since =>
          let age := now - owed_since in
          if age <? 0 then
            result stale (lit "the first commit after " ++ live ++ lit " is dated " ++ seconds (- age)
                          ++ lit " in the future") []
          else if age <? pending_grace_seconds then
            result pending
              (lit "older main commit " ++ live ++ lit " is live; rollout towards " ++ target
               ++ lit " is owed for " ++ seconds age ++ lit " (grace "
               ++ seconds pending_grace_seconds ++ lit ")") []
          else
            result stale
              (lit "older main commit " ++ live ++ lit " is still live " ++ seconds age
               ++ lit " after the next main commit landed") []
      end
  end.

Definition readback_failures (frontend api : json) : list pystr :=
  flat_map (fun ne =>
    if truthy (get (snd ne) "error") || negb (py_eq (get (snd ne) "status") (JInt 200)) then
      [fst ne ++ lit " readback failed: HTTP " ++ repr (get (snd ne) "status") ++ lit ", error "
       ++ repr (get (snd ne) "error")]
    else [])
    [(lit "frontend", frontend); (lit "api", api)].

(** The contradictions inside a receipt that claims to have passed. *)
Definition proof_failures (receipt : json) (live : pystr) : list pystr :=
  (if negb (py_eq (get receipt "schema_version") (JInt 3))
   then [lit "production verifier receipt schema_version is not 3"] else []) ++
  (if negb (py_eq (get receipt "expected_commit") (JStr expected_commit))
   then [lit "production verifier receipt expected_commit mismatch"] else []) ++
  (if negb (py_eq (get receipt "reasons") (JList []))
   then [lit "production verifier receipt pass contradicts reasons"] else []) ++
  revalidate_against receipt live.

(** The expected commit itself is live. *)
Definition classify_expected_live (receipt : json) (observed : option pystr * option pystr)
    (live : pystr) : Classification :=
  let result state reason causes := classified observed state (Some live) reason causes in
  match get receipt "pass" with
  | JBool true =>
      match proof_failures receipt live with
      | (_ :: _) as failures => result invalid (join "; " failures) failures
      | [] =>
          if str_eqb main_commit expected_commit then
            result current "expected commit is live and consistent" []
          else if ancestor live main_commit then lag receipt observed live main_commit
          else result divergent
                 (lit "live commit " ++ live ++ lit " is not on main " ++ main_commit) []
      end
  | _ =>
      let causes := match get receipt "reasons" with
                    | JList (r :: rs) => to_str <$> (r :: rs)
                    | _ => [lit "receipt did not pass"]
                    end in
      result invalid (join "; " causes) causes
  end.

(** Another commit than the expected one is live on both endpoints. *)
Definition classify_other_live (receipt : json) (observed : option pystr * option pystr)
    (live : pystr) : Classification :=
  let result state reason causes := classified observed state (Some live) reason causes in
  let expected_is_older := is_ancestor expected_commit live in
  if default false expected_is_older then
    if ancestor live main_commit then
      if negb (str_eqb live main_commit) then lag receipt observed live main_commit
      else
        match revalidate_against receipt live with
        | (_ :: _) as failures => result invalid (join "; " failures) failures
        | [] => result superseded
                  (lit "newer main commit " ++ live ++ lit " containing " ++ expected_commit
                   ++ lit " is live") []
        end
    else result divergent (lit "live commit " ++ live ++ lit " is not on main " ++ main_commit) []
  else
    let live_is_older := is_ancestor live expected_commit in
    if default false live_is_older then lag receipt observed live expected_commit
    else
      match expected_is_older, live_is_older with
      | Some _, Some _ =>
          result divergent (lit "live commit " ++ live ++ lit " diverges from " ++ expected_commit) []
      | _, _ =>
          result divergent (lit "live commit " ++ live ++ lit " is unknown to the main history") []
      end.

Definition as_object (v : json) : json := if is_dict v then v else JObj [].

Definition classify (receipt : json) : Classification :=
  if negb (is_dict receipt) then
    classified (None, None) monitor_failure None
      "production live receipt is missing or unreadable" []
  else
    let frontend := as_object (get receipt "frontend") in
    let api := as_object (get receipt "api") in
    let frontend_commit := get frontend "commit" in
    let api_commit := get api "commit" in
    let observed := (as_commit frontend_commit, as_commit api_commit) in
    let failed reason := classified observed divergent None reason [reason] in
    match readback_failures frontend api with
    | (_ :: _) as failures => classified observed outage None (join "; " failures) failures
    | [] =>
        match observed with
        | (Some f, Some a) =>
            if negb (str_eqb f a) then
              failed (lit "frontend serves " ++ f ++ lit ", API serves " ++ a)
            else if str_eqb f expected_commit then classify_expected_live receipt observed f
            else classify_other_live receipt observed f
        | _ =>
            failed (lit "live commit is not a full SHA on both endpoints: frontend "
                    ++ repr frontend_commit ++ lit ", API " ++ repr api_commit)
        end
    end.
End classify.

(** ** The release convergence receipt *)

(** [IMAGE_DIGEST_RE]: [^sha256:[0-9a-f]{64}$] under [fullmatch]. *)
Definition is_image_digest (v : json) : bool :=
  match v with
  | JStr s => match strip_prefix "sha256:" s with Some d => all_hex_of_length 64 d | None => false end
  | _ => false
  end.

Definition schaubild_proof_problem (payload : json) : option pystr :=
  let locked := get payload "locked_source_commit" in
  let desired := get payload "desired_source_commit" in
  let digest := get payload "locked_image_digest" in
  let run_id := get payload "desired_workflow_run_id" in
  let published := get payload "desired_published_at" in
  if negb (py_eq (get payload "schema_version") (JStr SCHAUBILD_SCHEMA)) then
    Some (lit "schema " ++ repr (get payload "schema_version") ++ lit ", expected "
          ++ repr_str SCHAUBILD_SCHEMA)
  else if negb (is_commit locked && is_commit desired) || negb (py_eq locked desired) then
    Some (lit "no agreeing release pair: locked " ++ repr locked ++ lit ", desired " ++ repr desired)
  else if negb (is_image_digest digest) then
    Some (lit "locked_image_digest " ++ repr digest ++ lit " is not a sha256 image digest")
  else if negb match run_id with JInt z => 0 <? z | _ => false end then
    Some (lit "desired_workflow_run_id " ++ repr run_id ++ lit " is not a positive integer")
  else
    let parsed := host_fromisoformat (replace "Z" "+00:00" (to_str published)) in
    if negb (is_str published && match parsed with Some (_, aware) => aware | None => false end) then
      Some (lit "desired_published_at " ++ repr published ++ lit " is not a timestamp with timezone")
    else None.

(** [read] is [json.loads(path.read_text())]: a value or the text of an exception that is caught. *)
Definition schaubild_failure (read : result pystr json) : option pystr :=
  match read with
  | Err exc => Some (lit "Schaubild release convergence receipt is unreadable: " ++ exc)
  | Ok (JObj entries as payload) =>
      if negb (py_eq (get payload "state") (JStr "current")) ||
         negb match get payload "action_required" with JBool false => true | _ => false end
      then
        let details :=
          flat_map (fun key =>
            match dget entries key with
            | Some v => lit ", " ++ key ++ lit " " ++ repr v
            | None => []
            end) [lit "locked_source_commit"; lit "desired_source_commit"; lit "error"] in
        Some (lit "Schaubild release convergence is not current: state "
              ++ repr (get payload "state") ++ lit ", action_required "
              ++ repr (get payload "action_required") ++ details)
      else
        match schaubild_proof_problem payload with
        | Some problem =>
            Some (lit "Schaubild release convergence receipt reports current without proof: "
                  ++ problem)
        | None => None
        end
  | Ok _ => Some (lit "Schaubild release convergence receipt is not an object")
  end.

Definition with_schaubild (c : Classification) (failure : option pystr) : Classification :=
  match failure with
  | None => c
  | Some f =>
      if c_alert c then
        {| c_schema_version := c_schema_version c; c_state := c_state c; c_alert := c_alert c;
           c_expected_commit := c_expected_commit c; c_main_commit := c_main_commit c;
           c_live_commit := c_live_commit c; c_reason := c_reason c ++ lit "; " ++ f;
           c_frontend_commit := c_frontend_commit c; c_api_commit := c_api_commit c;
           c_schaubild := Some also; c_causes := c_causes c ++ [f] |}
      else
        {| c_schema_version := c_schema_version c; c_state := invalid; c_alert := true;
           c_expected_commit := c_expected_commit c; c_main_commit := c_main_commit c;
           c_live_commit := c_live_commit c; c_reason := f;
           c_frontend_commit := c_frontend_commit c; c_api_commit := c_api_commit c;
           c_schaubild := Some only; c_causes := [f] |}
  end.

(** ** [main] *)

(** [load_receipt]: anything but an object reads as [None]. *)
Definition load_receipt (read : result pystr json) : json :=
  match read with Ok (JObj d) => JObj d | _ => JNull end.

(** The payload written for the alert job: [asdict] and the fingerprint. *)
Definition classification_payload (c : Classification) (print : pystr) : json :=
  JObj [(lit "schema_version", JInt (c_schema_version c));
        (lit "state", JStr (state_name (c_state c)));
        (lit "alert", JBool (c_alert c));
        (lit "expected_commit", JStr (c_expected_commit c));
        (lit "main_commit", JStr (c_main_commit c));
        (lit "live_commit", opt_json (c_live_commit c));
        (lit "reason", JStr (c_reason c));
        (lit "frontend_commit", opt_json (c_frontend_commit c));
        (lit "api_commit", opt_json (c_api_commit c));
        (lit "schaubild", opt_json (schaubild_name <$> c_schaubild c));
        (lit "causes", JList (JStr <$> c_causes c));
        (lit "fingerprint", JStr print)].

(** The classification [main] reports; [schaubild] is given with [--schaubild-receipt]. *)
Definition run_classification (expected_commit main_commit : pystr) (grace now : Z)
    (is_ancestor : pystr -> pystr -> option bool) (rollout_start : pystr -> pystr -> option Z)
    (receipt : result pystr json) (schaubild : option (result pystr json)) : Classification :=
  let c := classify expected_commit main_commit now grace is_ancestor rollout_start
             (load_receipt receipt) in
  match schaubild with
  | Some read => with_schaubild c (schaubild_failure read)
  | None => c
  end.

(** Exit code and payload; code 2 rejects the arguments before anything is classified. *)
Definition classify_main (expected_commit main_commit : pystr) (grace now : Z)
    (is_ancestor : pystr -> pystr -> option bool) (rollout_start : pystr -> pystr -> option Z)
    (receipt : result pystr json) (schaubild : option (result pystr json))
    : result exc_class (Z * option json) :=
  if negb (is_commit_str expected_commit && is_commit_str main_commit) || (grace <? 0) then
    Ok (2, None)
  else
    let c := run_classification expected_commit main_commit grace now is_ancestor rollout_start
               receipt schaubild in
    print ← fingerprint c;
    Ok (if c_alert c then 1 else 0, Some (classification_payload c print)).

End live_state.

(** ** Specification *)

Section spec.
Context `{PyHost}.

(** The receipt shows the release of [commit], judged from its stored readings. *)
Definition stored_release (receipt : json) (commit : pystr) : Prop :=
  exists f a, (item receipt "frontend" ≫= stored_endpoint) = Ok f /\
    (item receipt "api" ≫= stored_endpoint) = Ok a /\ released commit f a.

(** Both endpoints answered, and with the same full commit. *)
Record shows_commit (receipt : json) (commit : pystr) : Prop := ShowsCommit {
  sc_dict : is_dict receipt = true;
  sc_readable : readback_failures (as_object (get receipt "frontend"))
                  (as_object (get receipt "api")) = [];
  sc_frontend : get (as_object (get receipt "frontend")) "commit" = JStr commit;
  sc_api : get (as_object (get receipt "api")) "commit" = JStr commit;
  sc_full : is_commit_str commit = true;
}.

(** The claims of the receipt about itself. *)
Definition claims_pass (receipt : json) (expected : pystr) : Prop :=
  get receipt "pass" = JBool true /\ py_eq (get receipt "schema_version") (JInt 3) = true /\
  get receipt "expected_commit" = JStr expected /\ get receipt "reasons" = JList [].

End spec.

(** ** Lemmas *)

Section lemmas.
Context `{PyHost}.

Lemma stored_endpoint_fields raw e :
  stored_endpoint raw = Ok e ->
  is_dict raw = true /\ ep_status e = get raw "status" /\ ep_commit e = get raw "commit" /\
  ep_version e = get raw "version" /\ ep_error e = get raw "error".
Proof.
  unfold stored_endpoint. destruct raw; try done.
  intros (tree & _ & (headers & _ & [= <-])%bind_ok)%bind_ok. done.
Qed.

Lemma revalidate_nil receipt commit :
  revalidate_against receipt commit = [] <-> stored_release receipt commit.
Proof.
  unfold revalidate_against, stored_release.
  destruct (item receipt "frontend") as [fr|e]; cbn; [|naive_solver].
  destruct (stored_endpoint fr) as [f|e]; cbn; [|naive_solver].
  destruct (item receipt "api") as [ar|e]; cbn; [|naive_solver].
  destruct (stored_endpoint ar) as [a|e]; cbn; [|naive_solver].
  pose proof (evaluate_reasons_nil [] commit f a) as He. cbn in He. rewrite He. naive_solver.
Qed.

Lemma get_item receipt k :
  item receipt k = Ok (get receipt k) \/ (is_ok (item receipt k) = false /\ get receipt k = JNull).
Proof.
  destruct receipt as [| | | | | |d]; cbn; try (by right).
  by destruct (dget d k); cbn; [left|right].
Qed.

Lemma stored_item receipt k e :
  (item receipt k ≫= stored_endpoint) = Ok e ->
  is_dict receipt = true /\ stored_endpoint (get receipt k) = Ok e.
Proof.
  destruct (get_item receipt k) as [E|[E _]]; [rewrite E|by destruct (item receipt k)].
  cbn. intros He. split; [|done]. destruct (stored_endpoint_fields _ _ He) as [Hd _].
  by destruct receipt.
Qed.

(** An endpoint that was read: no error and HTTP 200. *)
Definition answered (e : json) : Prop :=
  truthy (get e "error") = false /\ py_eq (get e "status") (JInt 200) = true.

Lemma readback_nil frontend api :
  readback_failures frontend api = [] <-> answered frontend /\ answered api.
Proof.
  unfold readback_failures, answered. cbn [flat_map fst snd].
  rewrite app_nil_r, app_nil, !when_nil, !orb_false_iff, !negb_false_iff. done.
Qed.

Lemma stored_release_shows receipt commit :
  is_commit_str commit = true -> stored_release receipt commit -> shows_commit receipt commit.
Proof.
  intros Hc (f & a & Hf & Ha & Hr).
  apply stored_item in Hf as [Hd Hf]. apply stored_item in Ha as [_ Ha].
  apply stored_endpoint_fields in Hf as (Hfd & Hfs & Hfc & _ & Hfe).
  apply stored_endpoint_fields in Ha as (Had & Has & Hac & _ & Hae).
  destruct Hr as [[Ef Ea] [Sf Sa] [Cf Ca] _ _ _ _ _].
  constructor; unfold as_object; rewrite ?Hfd, ?Had; try congruence.
  apply readback_nil. unfold answered. by rewrite <-Hfe, <-Hae, <-Hfs, <-Has.
Qed.

Lemma as_commit_Some v c : as_commit v = Some c <-> v = JStr c /\ is_commit_str c = true.
Proof.
  destruct v as [| | | |s| |]; cbn; try naive_solver.
  destruct (is_commit_str s) eqn:?; [|naive_solver congruence]. split; [by intros [= <-]|by intros [[= <-] _]].
Qed.

Section lag.
Context (expected main : pystr) (now grace : Z) (rollout : pystr -> pystr -> option Z).

(** [lag] is pending inside the window, invalid without a released receipt, and stale otherwise. *)
Definition in_window (live target : pystr) : Prop :=
  exists owed, rollout live target = Some owed /\ owed <= now < owed + grace.

Lemma lag_state receipt observed live target :
  let s := c_state (lag expected main now grace rollout receipt observed live target) in
  (s = pending <-> stored_release receipt live /\ in_window live target) /\
  (s = stale <-> stored_release receipt live /\ ~ in_window live target) /\
  (s = invalid <-> ~ stored_release receipt live).
Proof.
  cbn zeta. unfold lag, in_window. pose proof (revalidate_nil receipt live) as Hr.
  destruct (revalidate_against receipt live) as [|x l]; cbn.
  2: { assert (~ stored_release receipt live) by (by intros ?%Hr). naive_solver. }
  assert (stored_release receipt live) by by apply Hr.
  destruct (rollout live target) as [owed|]; [|naive_solver].
  destruct (Z.ltb_spec (now - owed) 0); [|destruct (Z.ltb_spec (now - owed) grace)]; cbn.
  1,3: assert (~ exists o, Some owed = Some o /\ o <= now < o + grace)
         by (intros (o & [= <-] & ?); lia); naive_solver.
  assert (exists o, Some owed = Some o /\ o <= now < o + grace)
    by (exists owed; split; [done|lia]). naive_solver.
Qed.

Lemma lag_cases receipt observed live target :
  let s := c_state (lag expected main now grace rollout receipt observed live target) in
  s = pending \/ s = stale \/ s = invalid.
Proof. cbn zeta. unfold lag. repeat (destr_match; cbn; auto). Qed.

Lemma lag_alert receipt observed live target :
  let c := lag expected main now grace rollout receipt observed live target in
  c_alert c = negb (non_alerting (c_state c)).
Proof. cbn zeta. unfold lag. repeat (destr_match; cbn; auto). Qed.

End lag.

Section cases.
Context (expected main : pystr) (now grace : Z)
  (is_ancestor : pystr -> pystr -> option bool) (rollout : pystr -> pystr -> option Z).
Let verdict := classify expected main now grace is_ancestor rollout.

Lemma classified_state observed state live reason causes :
  let c := classified expected main observed state live reason causes in
  c_state c = state /\ c_alert c = negb (non_alerting state).
Proof. done. Qed.

(** What [classify] does, by what the receipt shows. *)
Lemma classify_shown receipt c :
  shows_commit receipt c ->
  verdict receipt =
    if str_eqb c expected
    then classify_expected_live expected main now grace is_ancestor rollout receipt
           (Some c, Some c) c
    else classify_other_live expected main now grace is_ancestor rollout receipt
           (Some c, Some c) c.
Proof.
  intros [Hd Hr Hf Ha Hc]. unfold verdict, classify. rewrite Hd, Hr, Hf, Ha. cbn.
  rewrite Hc. by rewrite str_eqb_refl.
Qed.

Lemma classify_not_shown receipt :
  (forall c, ~ shows_commit receipt c) -> c_alert (verdict receipt) = true /\
  (c_state (verdict receipt) = monitor_failure \/ c_state (verdict receipt) = outage \/
   c_state (verdict receipt) = divergent).
Proof.
  intros Hn. unfold verdict, classify. destruct (is_dict receipt) eqn:Hd; cbn [negb]; [|by auto].
  set (fr := as_object (get receipt "frontend")) in *.
  set (ar := as_object (get receipt "api")) in *.
  destruct (readback_failures fr ar) eqn:Hr; [|by auto].
  destruct (as_commit (get fr "commit")) as [f|] eqn:Hf; [|by auto].
  destruct (as_commit (get ar "commit")) as [a|] eqn:Ha; [|by auto].
  apply as_commit_Some in Hf as [Hf Hc]. apply as_commit_Some in Ha as [Ha _].
  destruct (str_eqb_spec f a) as [<-|]; [|by auto].
  exfalso. apply (Hn f). by constructor.
Qed.

Lemma proof_failures_nil receipt live :
  proof_failures expected receipt live = [] <->
  py_eq (get receipt "schema_version") (JInt 3) = true /\
  get receipt "expected_commit" = JStr expected /\ get receipt "reasons" = JList [] /\
  stored_release receipt live.
Proof.
  unfold proof_failures. rewrite !app_nil, !when_nil, !negb_false_iff, revalidate_nil, py_eq_str.
  assert (py_eq (get receipt "reasons") (JList []) = true <-> get receipt "reasons" = JList [])
    as ->; [|done].
  split; [|by intros ->]. by destruct (get receipt "reasons") as [| | | | |[]|].
Qed.

Lemma classify_alert receipt :
  c_alert (verdict receipt) = negb (non_alerting (c_state (verdict receipt))).
Proof.
  unfold verdict, classify, classify_expected_live, classify_other_live.
  repeat (destr_match; cbn; try done; try apply lag_alert).
Qed.

End cases.

End lemmas.

(** ** Properties *)

Section properties.
Context `{PyHost}.
Context (expected main : pystr) (now grace : Z)
  (is_ancestor : pystr -> pystr -> option bool) (rollout : pystr -> pystr -> option Z).
Let verdict := classify expected main now grace is_ancestor rollout.
Let known_ancestor (a b : pystr) : Prop := is_ancestor a b = Some true.

Lemma ancestor_known a b : ancestor is_ancestor a b = true <-> known_ancestor a b.
Proof. unfold ancestor, known_ancestor. by destruct (is_ancestor a b) as [[]|]. Qed.

(** The rollout that production owes while it serves [live]. *)
Inductive owes (receipt : json) : pystr -> pystr -> Prop :=
  | owes_moved_on :
      main <> expected -> claims_pass receipt expected -> known_ancestor expected main ->
      owes receipt expected main
  | owes_intermediate live :
      live <> expected -> live <> main -> known_ancestor expected live ->
      known_ancestor live main -> owes receipt live main
  | owes_older live :
      live <> expected -> ~ known_ancestor expected live -> known_ancestor live expected ->
      owes receipt live expected.

(** [lag] gives neither of the two states of a finished rollout. *)
Lemma lag_unfinished receipt observed live target :
  let s := c_state (lag expected main now grace rollout receipt observed live target) in
  s <> current /\ s <> superseded.
Proof.
  cbn zeta.
  destruct (lag_cases expected main now grace rollout receipt observed live target)
    as [-> | [-> | ->]]; done.
Qed.

Lemma iff_false (P Q : Prop) : ~ P -> ~ Q -> (P <-> Q).
Proof. tauto. Qed.

Lemma owes_expected receipt target :
  owes receipt expected target <->
  target = main /\ main <> expected /\ claims_pass receipt expected /\ known_ancestor expected main.
Proof. split; [inversion 1; subst; done|intros (-> & ? & ? & ?); by constructor]. Qed.

Lemma owes_newer receipt live target :
  live <> expected -> known_ancestor expected live ->
  owes receipt live target <-> target = main /\ live <> main /\ known_ancestor live main.
Proof. intros ??. split; [inversion 1; subst; done|intros (-> & ? & ?); by constructor]. Qed.

Lemma owes_not_newer receipt live target :
  live <> expected -> ~ known_ancestor expected live ->
  owes receipt live target <-> target = expected /\ known_ancestor live expected.
Proof. intros ??. split; [inversion 1; subst; done|intros (-> & ?); by constructor]. Qed.

(** The two branches behind a receipt that shows one commit. *)
Lemma expected_live_state receipt observed :
  let c := classify_expected_live expected main now grace is_ancestor rollout receipt observed expected in
  (c_state c = current <->
     main = expected /\ claims_pass receipt expected /\ stored_release receipt expected) /\
  c_state c <> superseded /\
  (c_state c = pending <-> exists target, owes receipt expected target /\
     stored_release receipt expected /\ in_window now grace rollout expected target).
Proof.
  cbn zeta. unfold classify_expected_live. setoid_rewrite owes_expected.
  assert (claims_pass receipt expected /\ stored_release receipt expected <->
    get receipt "pass" = JBool true /\ proof_failures expected receipt expected = []) as Hp
    by (rewrite proof_failures_nil; unfold claims_pass; tauto).
  assert (get receipt "pass" = JBool true /\ proof_failures expected receipt expected = [] \/
    ~ (claims_pass receipt expected /\ stored_release receipt expected) /\
    c_state (classify_expected_live expected main now grace is_ancestor rollout receipt observed
               expected) = invalid) as [[Eg Ef]|[Hno Hs]].
  { rewrite Hp. unfold classify_expected_live.
    destruct (get receipt "pass") as [|[]| | | | |];
      try (right; split; [by intros [? ?]|by destruct (proof_failures _ _ _)]).
    destruct (proof_failures _ _ _); [by left|right; split; [by intros [_ ?]|done]]. }
  - destruct (proj2 Hp (conj Eg Ef)) as [Hcl Hr]. rewrite Eg, Ef.
    destruct (str_eqb_spec main expected) as [->|Hne]; cbn.
    { split_and!; [tauto|done|]. apply iff_false; [done|]. by intros (? & (_ & ? & _) & _). }
    destruct (ancestor is_ancestor expected main) eqn:Ea.
    + apply ancestor_known in Ea.
      destruct (lag_unfinished receipt observed expected main) as [Hn1 Hn2].
      split_and!; [apply iff_false; tauto|done|].
      rewrite (proj1 (lag_state expected main now grace rollout receipt observed expected main)).
      naive_solver.
    + cbn. assert (~ known_ancestor expected main) by (rewrite <-ancestor_known; congruence).
      split_and!; [apply iff_false; [done|tauto]|done|apply iff_false; [done|naive_solver]].
  - fold (classify_expected_live expected main now grace is_ancestor rollout receipt observed expected).
    rewrite Hs. split_and!; [apply iff_false; [done|tauto]|done|].
    apply iff_false; [done|]. by intros (? & (_ & _ & ? & _) & ? & _); auto.
Qed.

Lemma other_live_state receipt observed live :
  live <> expected ->
  let c := classify_other_live expected main now grace is_ancestor rollout receipt observed live in
  c_state c <> current /\
  (c_state c = superseded <-> live = main /\ known_ancestor expected main /\
     known_ancestor main main /\ stored_release receipt main) /\
  (c_state c = pending <-> exists target, owes receipt live target /\
     stored_release receipt live /\ in_window now grace rollout live target).
Proof.
  intros Hne. cbn zeta. unfold classify_other_live.
  destruct (decide (is_ancestor expected live = Some true)) as [Ho|Ho];
    fold (known_ancestor expected live) in Ho.
  - setoid_rewrite owes_newer; [|done..]. rewrite Ho. cbn.
    destruct (ancestor is_ancestor live main) eqn:Ea.
    + apply ancestor_known in Ea. destruct (str_eqb_spec live main) as [->|Hm]; cbn [negb].
      * pose proof (revalidate_nil receipt main) as Hr.
        assert (~ exists target, (target = main /\ main <> main /\ known_ancestor main main) /\
          stored_release receipt main /\ in_window now grace rollout main target) by naive_solver.
        destruct (revalidate_against receipt main) as [|x l]; cbn;
          (split_and!; [done| |by apply iff_false]).
        -- assert (stored_release receipt main) by by apply Hr. tauto.
        -- apply iff_false; [done|]. by intros (_ & _ & _ & ?%Hr).
      * destruct (lag_unfinished receipt observed live main) as [Hn1 Hn2].
        split_and!; [done|apply iff_false; tauto|].
        rewrite (proj1 (lag_state expected main now grace rollout receipt observed live main)).
        naive_solver.
    + assert (~ known_ancestor live main) by (rewrite <-ancestor_known; congruence). cbn.
      split_and!; [done|apply iff_false; [done|naive_solver]|apply iff_false; [done|naive_solver]].
  - setoid_rewrite owes_not_newer; [|done..].
    assert (~ (live = main /\ known_ancestor expected main /\ known_ancestor main main /\
               stored_release receipt main)) by (intros (-> & ? & _); done).
    assert (default false (is_ancestor expected live) = false) as ->
      by (unfold known_ancestor in Ho; by destruct (is_ancestor expected live) as [[]|]).
    destruct (decide (is_ancestor live expected = Some true)) as [Hl|Hl];
      fold (known_ancestor live expected) in Hl.
    + rewrite Hl. cbn. destruct (lag_unfinished receipt observed live expected) as [Hn1 Hn2].
      split_and!; [done|by apply iff_false|].
      rewrite (proj1 (lag_state expected main now grace rollout receipt observed live expected)).
      naive_solver.
    + assert (default false (is_ancestor live expected) = false) as ->
        by (unfold known_ancestor in Hl; by destruct (is_ancestor live expected) as [[]|]).
      assert (forall b1 b2 : option bool, let s := c_state match b1, b2 with
        | Some _, Some _ => classified expected main observed divergent (Some live)
            (lit "live commit " ++ live ++ lit " diverges from " ++ expected) []
        | _, _ => classified expected main observed divergent (Some live)
            (lit "live commit " ++ live ++ lit " is unknown to the main history") [] end in
        s = divergent) as -> by by intros [] [].
      split_and!; [done|by apply iff_false|apply iff_false; [done|naive_solver]].
Qed.

(** The state of a receipt, from its branch. *)
Lemma shown_or_not receipt :
  (exists c, shows_commit receipt c) \/ (forall c, ~ shows_commit receipt c).
Proof.
  destruct (is_dict receipt) eqn:Hd; [|by right; intros c [? _ _ _ _]; congruence].
  destruct (readback_failures (as_object (get receipt "frontend"))
              (as_object (get receipt "api"))) eqn:Hr; [|by right; intros c [_ ? _ _ _]; congruence].
  destruct (get (as_object (get receipt "frontend")) "commit") as [| | | |f| |] eqn:Hf;
    try (right; intros c [_ _ ? _ _]; congruence).
  destruct (get (as_object (get receipt "api")) "commit") as [| | | |a| |] eqn:Ha;
    try (right; intros c [_ _ _ ? _]; congruence).
  destruct (decide (f = a)) as [<-|Hne]; [|right; intros c [_ _ ? ? _]; congruence].
  destruct (is_commit_str f) eqn:Hc; [|right; intros c [_ _ ? _ ?]; congruence].
  left. exists f. by constructor.
Qed.

Lemma shows_commit_unique receipt a b : shows_commit receipt a -> shows_commit receipt b -> a = b.
Proof. intros [_ _ Ha _ _] [_ _ Hb _ _]. congruence. Qed.

(** [classify] answers [current] exactly when main is still the expected commit, the receipt
    claims to have passed for it without reasons, and its stored readings, evaluated again, show
    the release of that commit: a forged or partial [pass] is no proof. *)
Theorem classify_current_exact receipt :
  c_state (classify expected main now grace is_ancestor rollout receipt) = current <->
  is_commit_str expected = true /\ main = expected /\ claims_pass receipt expected /\
  stored_release receipt expected.
Proof.
  destruct (shown_or_not receipt) as [[c Hc]|Hno].
  - rewrite (classify_shown _ _ _ _ _ _ _ c Hc). pose proof (sc_full _ _ Hc) as Hfull.
    destruct (str_eqb_spec c expected) as [->|Hne].
    + rewrite (proj1 (expected_live_state receipt _)). tauto.
    + apply iff_false; [apply (other_live_state receipt _ c Hne)|].
      intros (He & -> & _ & Hr). apply Hne.
      by eapply shows_commit_unique; [|apply stored_release_shows].
  - apply iff_false.
    + destruct (classify_not_shown expected main now grace is_ancestor rollout receipt Hno)
        as [_ [Hs|[Hs|Hs]]]; by rewrite Hs.
    + intros (He & _ & _ & Hr). by eapply Hno, stored_release_shows.
Qed.

(** [classify] answers [superseded] exactly when main's head is another full commit than the
    expected one, contains it, and passes every receipt check in the stored readings. *)
Theorem classify_superseded_exact receipt :
  c_state (classify expected main now grace is_ancestor rollout receipt) = superseded <->
  is_commit_str main = true /\ main <> expected /\ is_ancestor expected main = Some true /\
  is_ancestor main main = Some true /\ stored_release receipt main.
Proof.
  destruct (shown_or_not receipt) as [[c Hc]|Hno].
  - rewrite (classify_shown _ _ _ _ _ _ _ c Hc). pose proof (sc_full _ _ Hc) as Hfull.
    destruct (str_eqb_spec c expected) as [->|Hne].
    + apply iff_false; [apply expected_live_state|]. intros (Hm & Hne & _ & _ & Hr).
      apply Hne. by eapply shows_commit_unique; [apply stored_release_shows|].
    + rewrite (proj1 (proj2 (other_live_state receipt _ c Hne))). split.
      * intros (-> & ? & ? & ?). done.
      * intros (Hm & _ & ? & ? & Hr). split_and!; try done.
        by eapply shows_commit_unique; [|apply stored_release_shows].
  - apply iff_false.
    + destruct (classify_not_shown expected main now grace is_ancestor rollout receipt Hno)
        as [_ [Hs|[Hs|Hs]]]; by rewrite Hs.
    + intros (He & _ & _ & _ & Hr). by eapply Hno, stored_release_shows.
Qed.

(** [classify] answers [pending] exactly when the readings show the complete release of an
    older main commit, and the rollout production owes from there began no later than now and less
    than the grace period ago: lag alone is excused, and only for that long. *)
Theorem classify_pending_exact receipt :
  c_state (classify expected main now grace is_ancestor rollout receipt) = pending <->
  exists live target, is_commit_str live = true /\ owes receipt live target /\
    stored_release receipt live /\ in_window now grace rollout live target.
Proof.
  destruct (shown_or_not receipt) as [[c Hc]|Hno].
  - rewrite (classify_shown _ _ _ _ _ _ _ c Hc). pose proof (sc_full _ _ Hc) as Hfull.
    assert ((exists live target, is_commit_str live = true /\ owes receipt live target /\
      stored_release receipt live /\ in_window now grace rollout live target) <->
      exists target, owes receipt c target /\ stored_release receipt c /\
        in_window now grace rollout c target) as ->.
    { split; [|naive_solver]. intros (live & target & Hl & Ho & Hr & Hw).
      assert (live = c) as -> by (by eapply shows_commit_unique; [apply stored_release_shows|]).
      eauto. }
    destruct (str_eqb_spec c expected) as [->|Hne].
    + apply expected_live_state.
    + by apply other_live_state.
  - apply iff_false.
    + destruct (classify_not_shown expected main now grace is_ancestor rollout receipt Hno)
        as [_ [Hs|[Hs|Hs]]]; by rewrite Hs.
    + intros (live & target & Hl & _ & Hr & _). by eapply Hno, stored_release_shows.
Qed.

End properties.

(** ** The grace period on a real history *)

(** What git answers about the first-parent history [h] of main, oldest commit first. *)
Class MainHistory (git : list pystr -> process) (repo : pystr) (h : list pystr) : Prop := {
  mh_full : Forall (fun c => is_commit_str c = true) h;
  mh_nodup : NoDup h;
  mh_merge_base i j a b : h !! i = Some a -> h !! j = Some b ->
    returncode (git [lit "-C"; repo; lit "merge-base"; lit "--is-ancestor"; a; b]) =
      if (i <=? j)%nat then 0 else 1;
  mh_rev_list i j a b : h !! i = Some a -> h !! j = Some b ->
    git [lit "-C"; repo; lit "rev-list"; lit "--first-parent"; lit "--reverse"; a ++ lit ".." ++ b] =
      Process 0 (flat_map (fun c => c ++ [10%N]) (take (j - i) (drop (S i) h)));
}.

Section history.
Context `{PyHost} {git repo h} `{MainHistory git repo h}.

Lemma history_full i c : h !! i = Some c -> is_commit_str c = true.
Proof. intros Hi. by apply (Forall_lookup_1 _ _ _ _ mh_full Hi). Qed.

Lemma history_ancestor i j a b :
  h !! i = Some a -> h !! j = Some b ->
  git_is_ancestor git repo a b = Some (bool_decide (i <= j)%nat).
Proof.
  intros Ha Hb. unfold git_is_ancestor. rewrite (mh_merge_base i j a b Ha Hb).
  destruct (Nat.leb_spec i j); [by rewrite bool_decide_true|].
  rewrite bool_decide_false by lia. done.
Qed.

Lemma history_rollout_start i j a b first :
  (i < j)%nat -> h !! i = Some a -> h !! j = Some b -> h !! S i = Some first ->
  git_rollout_start git repo a b = git_commit_time git repo first.
Proof.
  intros Hij Ha Hb Hf. unfold git_rollout_start. rewrite (mh_rev_list i j a b Ha Hb). cbn [returncode stdout].
  rewrite (drop_S _ _ _ Hf). destruct (j - i)%nat as [|k] eqn:Ek; [lia|].
  cbn [take flat_map]. apply history_full, hex_no_space in Hf as [Hs Hl].
  rewrite <-app_assoc. cbn [app]. rewrite split_ws_first; [done| |done|done]. by destruct first.
Qed.

Section window.
Context (receipt : json) (i : nat) (live first expected main : pystr) (landed now grace : Z).
Context (Hlive : h !! i = Some live) (Hfirst : h !! S i = Some first).
Context (Hlanded : git_commit_time git repo first = Some landed).
Context (Hreceipt : stored_release receipt live).

Definition window_state : live_state :=
  if (landed <=? now) && (now <? landed + grace) then pending else stale.

Lemma history_lag observed target j :
  (i < j)%nat -> h !! j = Some target ->
  c_state (lag expected main now grace (git_rollout_start git repo) receipt observed live target) =
    window_state.
Proof.
  intros Hj Ht. unfold window_state.
  destruct (lag_state expected main now grace (git_rollout_start git repo) receipt observed live
    target) as (Hp & Hs & _). unfold in_window in *.
  rewrite (history_rollout_start i j live target first), Hlanded in * by done.
  destruct (Z.leb_spec landed now), (Z.ltb_spec now (landed + grace)); cbn.
  1: apply Hp; eauto. all: apply Hs; split; [done|]; intros (? & [= <-] & ?); lia.
Qed.
End window.

Lemma history_inj x y a b : h !! x = Some a -> h !! y = Some b -> (a = b <-> x = y).
Proof.
  intros Hx Hy. split; [intros ->; by eapply NoDup_lookup; [apply mh_nodup|..]|].
  intros ->. congruence.
Qed.

(** Main only moves the target, never the clock.  When production serves the complete release
    of the main commit number [i], the state is [pending] exactly from the landing of the next
    main commit until the grace period is over and [stale] outside, whichever later commit is
    expected or at the head of main. *)
Theorem pending_window_fixed receipt i e m live expected main first landed now grace
    (Hlive : h !! i = Some live) (Hexpected : h !! e = Some expected) (Hmain : h !! m = Some main)
    (Hfirst : h !! S i = Some first) (Hlanded : git_commit_time git repo first = Some landed)
    (Hbehind : (i < m)%nat) (Horder : (e <= m)%nat)
    (Hreceipt : stored_release receipt live) (Hclaims : e = i -> claims_pass receipt expected) :
  c_state (classify expected main now grace (git_is_ancestor git repo) (git_rollout_start git repo)
             receipt) =
  if (landed <=? now) && (now <? landed + grace) then pending else stale.
Proof.
  change (if (landed <=? now) && _ then _ else _) with (window_state landed now grace).
  assert (shows_commit receipt live) as Hshow
    by (apply stored_release_shows; [by eapply history_full|done]).
  assert (live <> main) as Hlm by (rewrite (history_inj i m); [lia|done..]).
  assert (ancestor (git_is_ancestor git repo) live main = true) as Hanc.
  { unfold ancestor. erewrite history_ancestor by done. cbn. rewrite bool_decide_true by lia. done. }
  rewrite (classify_shown _ _ _ _ _ _ _ live Hshow).
  destruct (str_eqb_spec live expected) as [->|Hne].
  - specialize (Hclaims (proj1 (history_inj _ _ _ _ Hexpected Hlive) eq_refl)).
    unfold classify_expected_live. rewrite (proj1 Hclaims).
    rewrite (proj2 (proof_failures_nil expected receipt expected))
      by (destruct Hclaims as (_ & ? & ? & ?); done).
    apply not_eq_sym, str_eqb_neq in Hlm as ->. rewrite Hanc. by eapply (history_lag _ i).
  - unfold classify_other_live. erewrite (history_ancestor e i), (history_ancestor i e) by done.
    destruct (decide (e <= i)%nat) as [Hle|Hle].
    + rewrite bool_decide_true by done. cbn. rewrite Hanc.
      apply str_eqb_neq in Hlm as ->. by eapply (history_lag _ i).
    + rewrite bool_decide_false by done. cbn. rewrite bool_decide_true by lia.
      apply (history_lag _ i _ _ _ _ _ _ _ Hlive Hfirst Hlanded Hreceipt _ _ e); [lia|done].
Qed.

End history.

(** ** Outcome of a run *)

Section outcome.
Context `{PyHost}.

(** A text that [encode()] accepts: no surrogate. *)
Definition encodable (s : pystr) : bool := forallb (fun c => negb (in_range 55296 57343 c)) s.

Lemma utf8_encode_ok s : is_ok (utf8_encode s) = encodable s.
Proof.
  induction s as [|c s IH]; [done|]. cbn [utf8_encode encodable forallb].
  fold (encodable s). rewrite <-IH. unfold utf8_encode1, in_range.
  destruct (N.ltb_spec c 128), (N.ltb_spec c 2048), (N.leb_spec 55296 c), (N.leb_spec c 57343);
    cbn; try lia; try done; try (destruct (c <? 65536)%N); by destruct (utf8_encode s).
Qed.

Lemma encodable_join sep l :
  encodable sep = true -> encodable (join sep l) = true <-> Forall (fun s => encodable s = true) l.
Proof.
  intros Hs. unfold encodable in *. induction l as [|x l IH]; [by split; [constructor|]|].
  rewrite Forall_cons, <-IH. destruct l as [|y l].
  - cbn [join]. split; [by split|by intros [? _]].
  - change (join sep (x :: y :: l)) with (x ++ sep ++ join sep (y :: l)).
    rewrite !forallb_app, !andb_true_iff. tauto.
Qed.

Lemma fingerprint_total c :
  is_ok (fingerprint c) = true <-> Forall (fun s => encodable s = true) (c_causes c).
Proof.
  unfold fingerprint, causes_digest. destruct (c_causes c) as [|x l] eqn:E; cbn [is_nil].
  { split; [constructor|]. cbn. by destruct (c_schaubild c). }
  rewrite <-(encodable_join [10%N]) by done. 
  assert (encodable (join [10%N] (x :: l)) = encodable (join [10%N] (sort_str (x :: l)))) as ->.
  { apply eq_true_iff_eq. rewrite !encodable_join by done. unfold sort_str. by rewrite sort_by_perm. }
  rewrite <-utf8_encode_ok. destruct (utf8_encode _); cbn; [|done].
  by destruct (c_schaubild c).
Qed.

(** What every classification is. *)
Record well_formed (expected main : pystr) (c : Classification) : Prop := WellFormed {
  wf_version : c_schema_version c = 1;
  wf_expected : c_expected_commit c = expected;
  wf_main : c_main_commit c = main;
  wf_alert : c_alert c = negb (non_alerting (c_state c));
  wf_commits : Forall (fun o => forall s, o = Some s -> is_commit_str s = true)
                 [c_live_commit c; c_frontend_commit c; c_api_commit c];
  wf_current : c_state c = current -> main = expected /\ c_live_commit c = Some expected;
}.

Lemma well_formed_with_schaubild expected main c failure :
  well_formed expected main c -> well_formed expected main (with_schaubild c failure).
Proof.
  intros [Hv He Hm Ha Hc Hcur]. unfold with_schaubild. destruct failure; [|by constructor].
  destruct (c_alert c) eqn:E; constructor; try done.
Qed.

Section classified.
Context (expected main : pystr) (now grace : Z)
  (is_ancestor : pystr -> pystr -> option bool) (rollout : pystr -> pystr -> option Z).

Lemma well_formed_classified observed state live reason causes :
  (forall s, fst observed = Some s -> is_commit_str s = true) ->
  (forall s, snd observed = Some s -> is_commit_str s = true) ->
  (forall s, live = Some s -> is_commit_str s = true) ->
  (state = current -> main = expected /\ live = Some expected) ->
  well_formed expected main (classified expected main observed state live reason causes).
Proof.
  intros ????. constructor; try done. rewrite !Forall_cons, Forall_nil. done.
Qed.

Lemma classify_well_formed receipt :
  well_formed expected main (classify expected main now grace is_ancestor rollout receipt).
Proof.
  unfold classify. destruct (is_dict receipt); cbn [negb]; [|by apply well_formed_classified].
  destruct (as_commit (get (as_object (get receipt "frontend")) "commit")) as [f|] eqn:Ef;
    destruct (as_commit (get (as_object (get receipt "api")) "commit")) as [a|] eqn:Ea;
    (destruct (readback_failures _ _); [|apply well_formed_classified; try done;
       cbn; intros s [= <-]; first [by apply as_commit_Some in Ef as [_ ?]
                                   |by apply as_commit_Some in Ea as [_ ?]]]).
  2-4: apply well_formed_classified; try done; cbn; intros s [= <-];
       first [by apply as_commit_Some in Ef as [_ ?]|by apply as_commit_Some in Ea as [_ ?]].
  apply as_commit_Some in Ef as [_ Hf]. apply as_commit_Some in Ea as [_ Ha].
  destruct (str_eqb_spec f a) as [<-|]; cbn [negb].
  2: { apply well_formed_classified; try done; cbn; by intros s [= <-]. }
  assert (forall state reason causes, (state = current -> main = expected /\ f = expected) ->
    well_formed expected main (classified expected main (Some f, Some f) state (Some f) reason causes))
    as Hw.
  { intros ??? Hc. apply well_formed_classified; cbn; try by intros s [= <-]. by intros [-> ->]%Hc. }
  destruct (str_eqb_spec f expected) as [->|].
  - unfold classify_expected_live, lag. destruct (get receipt "pass") as [|[]| | | | |];
      try by apply Hw.
    destruct (proof_failures _ _ _); [|by apply Hw].
    destruct (str_eqb_spec main expected); [by apply Hw|]. repeat (destr_match; try by apply Hw).
  - unfold classify_other_live, lag. repeat (destr_match; try by apply Hw).
Qed.
End classified.

(** A Schaubild receipt that proves convergence. *)
Record converged (payload : json) : Prop := Converged {
  cv_state : get payload "state" = JStr "current";
  cv_action : get payload "action_required" = JBool false;
  cv_schema : get payload "schema_version" = JStr SCHAUBILD_SCHEMA;
  cv_pair : exists c, is_commit_str c = true /\ get payload "locked_source_commit" = JStr c /\
    get payload "desired_source_commit" = JStr c;
  cv_digest : is_image_digest (get payload "locked_image_digest") = true;
  cv_run : exists n, get payload "desired_workflow_run_id" = JInt n /\ 0 < n;
  cv_published : exists s t, get payload "desired_published_at" = JStr s /\
    host_fromisoformat (replace "Z" "+00:00" s) = Some (t, true);
}.

Lemma proof_problem_None payload :
  schaubild_proof_problem payload = None <->
  get payload "schema_version" = JStr SCHAUBILD_SCHEMA /\
  (exists c, is_commit_str c = true /\ get payload "locked_source_commit" = JStr c /\
     get payload "desired_source_commit" = JStr c) /\
  is_image_digest (get payload "locked_image_digest") = true /\
  (exists n, get payload "desired_workflow_run_id" = JInt n /\ 0 < n) /\
  exists s t, get payload "desired_published_at" = JStr s /\
    host_fromisoformat (replace "Z" "+00:00" s) = Some (t, true).
Proof.
  unfold schaubild_proof_problem. split.
  - assert (forall (b : bool) (x : pystr) r, (if negb b then Some x else r) = None ->
      b = true /\ r = None) as Hstep by (by intros []).
    intros [Hs Hp]%Hstep. apply py_eq_str in Hs.
    rewrite <-negb_andb, <-andb_assoc in Hp || rewrite <-negb_andb in Hp.
    apply Hstep in Hp as [Hl Hp]. apply Hstep in Hp as [Hd Hp]. apply Hstep in Hp as [Hn Hp].
    apply Hstep in Hp as [Ht _]. split_and!; [done| |done| |].
    + destruct (get payload "locked_source_commit") as [| | | |c| |]; try done.
      destruct (get payload "desired_source_commit") as [| | | |d| |]; try by rewrite ?andb_false_r in Hl.
      cbn in Hl. rewrite !andb_true_iff, str_eqb_eq in Hl. destruct Hl as [[? ?] ->] || destruct Hl as (? & ? & ->).
      eauto.
    + destruct (get payload "desired_workflow_run_id") as [| |n| | | |]; try done.
      exists n. split; [done|]. by apply Z.ltb_lt.
    + destruct (get payload "desired_published_at") as [| | | |s| |]; try done. cbn in Ht.
      destruct (host_fromisoformat _) as [[t []]|] eqn:E; try done. eauto.
  - intros (Hs & (c & Hc & Hl & Hd) & Hi & (n & Hn & Hpos) & s & t & Hp & Ht).
    rewrite Hs, Hl, Hd, Hi, Hn, Hp. change (to_str (JStr s)) with s. rewrite Ht. cbn.
    apply Z.ltb_lt in Hpos as ->. by rewrite str_eqb_refl, Hc, (str_eqb_refl c).
Qed.

Lemma schaubild_failure_None read :
  schaubild_failure read = None <-> exists entries, read = Ok (JObj entries) /\ converged (JObj entries).
Proof.
  destruct read as [[| | | | | |entries]|]; try (split; [done|by intros (? & [=] & _)]).
  unfold schaubild_failure. set (payload := JObj entries).
  assert (converged payload <-> (get payload "state" = JStr "current" /\
    get payload "action_required" = JBool false) /\ schaubild_proof_problem payload = None) as Hc.
  { rewrite proof_problem_None. split; [by intros []|]. intros ([] & ? & ? & ? & ? & ?).
    by constructor. }
  transitivity (converged payload); [|split; [eauto|by intros (? & [= <-] & ?)]].
  rewrite Hc, <-py_eq_str. clear Hc. clearbody payload.
  destruct (py_eq (get payload "state") (JStr "current")); cbn; [|naive_solver].
  assert (get payload "action_required" = JBool false <->
    match get payload "action_required" with JBool false => true | _ => false end = true) as ->
    by (by destruct (get payload "action_required") as [|[]| | | | |]).
  destruct (match get payload "action_required" with JBool false => true | _ => false end);
    cbn; [|naive_solver].
  destruct (schaubild_proof_problem payload); naive_solver.
Qed.

Lemma run_well_formed expected main grace now is_ancestor rollout receipt schaubild :
  well_formed expected main
    (run_classification expected main grace now is_ancestor rollout receipt schaubild).
Proof.
  unfold run_classification. destruct schaubild; [apply well_formed_with_schaubild|];
    apply classify_well_formed.
Qed.

(** The run exits 0 exactly for a non-alerting lineage state together with a converged
    Schaubild receipt (when one is asked for), and it reports [current] only then; a Schaubild
    failure always alerts and never hides another alert.  It writes a payload for every receipt
    unless a cause holds a surrogate, which has no UTF-8 encoding. *)
Theorem classify_main_exact expected main grace now is_ancestor rollout receipt schaubild
    (Hexpected : is_commit_str expected = true) (Hmain : is_commit_str main = true)
    (Hgrace : 0 <= grace) :
  let c0 := classify expected main now grace is_ancestor rollout (load_receipt receipt) in
  let c := run_classification expected main grace now is_ancestor rollout receipt schaubild in
  let run := classify_main expected main grace now is_ancestor rollout receipt schaubild in
  let proven := forall read, schaubild = Some read ->
    exists entries, read = Ok (JObj entries) /\ converged (JObj entries) in
  (is_ok run = true <-> Forall (fun s => encodable s = true) (c_causes c)) /\
  (forall code payload, run = Ok (code, payload) ->
    (code = 0 <-> non_alerting (c_state c0) = true /\ proven) /\ (code = 0 \/ code = 1) /\
    exists print, fingerprint c = Ok print /\ payload = Some (classification_payload c print)) /\
  (c_state c = current <-> c_state c0 = current /\ proven) /\
  (non_alerting (c_state c0) = false -> c_state c = c_state c0).
Proof.
  cbn zeta. unfold classify_main. rewrite Hexpected, Hmain, (proj2 (Z.ltb_ge _ _) Hgrace). cbn [andb orb negb].
  set (c0 := classify expected main now grace is_ancestor rollout (load_receipt receipt)).
  set (c := run_classification expected main grace now is_ancestor rollout receipt schaubild).
  assert (c_alert c0 = negb (non_alerting (c_state c0))) as H0 by apply classify_alert.
  assert (c_alert c = negb (non_alerting (c_state c))) as H1
    by (eapply wf_alert, run_well_formed).
  assert ((c = c0 /\ forall read, schaubild = Some read -> schaubild_failure read = None) \/
    (non_alerting (c_state c) = false /\ exists read, schaubild = Some read /\
       schaubild_failure read <> None)) as Hsch.
  { subst c. unfold run_classification, with_schaubild. fold c0. destruct schaubild as [read|]; [|by left].
    destruct (schaubild_failure read) eqn:E.
    - right. split; [|exists read; by rewrite E]. destruct (c_alert c0) eqn:Ea; [|done].
      cbn. by destruct (non_alerting (c_state c0)).
    - left. split; [done|]. by intros ? [= <-]. }
  setoid_rewrite <-schaubild_failure_None. split_and!.
  - rewrite <-fingerprint_total. by destruct (fingerprint c).
  - intros code payload (print & Hp & [= <- <-])%bind_ok. rewrite H1. split_and!; [| |eauto].
    + destruct Hsch as [[-> Hn]|[Hn (read & Hr & Hf)]].
      * by destruct (non_alerting (c_state c0)); naive_solver.
      * rewrite Hn. cbn. naive_solver.
    + destruct (non_alerting (c_state c)); auto.
  - destruct Hsch as [[-> Hn]|[Hn (read & Hr & Hf)]]; [naive_solver|].
    split; [by intros E; rewrite E in Hn|]. intros [_ Hx]. by destruct (Hf (Hx read Hr)).
  - intros Hn. subst c. unfold run_classification, with_schaubild. fold c0.
    rewrite H0, Hn. cbn. destruct schaubild as [read|]; [|done]. by destruct (schaubild_failure read).
Qed.

(** ** Fingerprints *)

Definition base_char (c : N) : bool := negb (c =? 35)%N && negb (c =? 43)%N.
Definition state_char (c : N) : bool := negb (c =? 58)%N.
Definition side_char (c : N) : bool := negb (c =? 47)%N.

Lemma hex_base c : lower_hex c = true -> base_char c = true /\ side_char c = true.
Proof.
  unfold lower_hex, ascii_digit, in_range, base_char, side_char.
  rewrite orb_true_iff, !andb_true_iff, !N.leb_le, !negb_true_iff, !N.eqb_neq. lia.
Qed.

Lemma commit_chars s :
  is_commit_str s = true ->
  forallb base_char s = true /\ forallb side_char s = true /\ length s = 40%nat.
Proof.
  unfold is_commit_str, all_hex_of_length. rewrite andb_true_iff, Nat.eqb_eq. intros [? Hs].
  split_and!; [| |done]; eapply forallb_weaken; try exact Hs; intros c Hc; by destruct (hex_base c Hc).
Qed.

Lemma or_none_inj o1 o2 :
  (forall s, o1 = Some s -> is_commit_str s = true) ->
  (forall s, o2 = Some s -> is_commit_str s = true) -> or_none o1 = or_none o2 -> o1 = o2.
Proof.
  assert (forall s, is_commit_str s = true -> or_none (Some s) = s /\ s <> lit "none") as Hs.
  { intros s (_ & _ & Hl)%commit_chars. split; [by destruct s|by intros ->]. }
  intros H1 H2 E. destruct o1 as [s|], o2 as [t|]; [..|done].
  - destruct (Hs s (H1 s eq_refl)) as [Es _], (Hs t (H2 t eq_refl)) as [Et _]. congruence.
  - destruct (Hs s (H1 s eq_refl)) as [Es Hn]. by rewrite Es in E.
  - destruct (Hs t (H2 t eq_refl)) as [Et Hn]. by rewrite Et in E.
Qed.

(** The part of the fingerprint after the state. *)
Definition identity_part (c : Classification) : pystr :=
  match c_live_commit c with
  | Some s => or_none (Some s)
  | None =>
      match c_frontend_commit c, c_api_commit c with
      | None, None => or_none None
      | f, a => or_none f ++ 47%N :: or_none a
      end
  end.

Lemma fingerprint_base_parts expected main c :
  well_formed expected main c ->
  fingerprint_base c = state_name (c_state c) ++ 58%N :: identity_part c.
Proof.
  intros Hc. pose proof (wf_commits _ _ _ Hc) as Hs. rewrite !Forall_cons in Hs.
  destruct Hs as (_ & Hf & Ha & _). unfold fingerprint_base, identity_part.
  destruct (c_live_commit c); [done|].
  assert (forall o, (forall s, o = Some s -> is_commit_str s = true) ->
    is_nil (or_else o []) = bool_decide (o = None)) as Hn.
  { intros [[|x s]|] Ho; [by specialize (Ho [] eq_refl)|done|done]. }
  rewrite (Hn _ Hf), (Hn _ Ha).
  destruct (c_frontend_commit c), (c_api_commit c); done.
Qed.

Lemma or_none_chars o :
  (forall s, o = Some s -> is_commit_str s = true) ->
  forallb side_char (or_none o) = true /\ forallb base_char (or_none o) = true.
Proof.
  intros Ho. destruct o as [s|]; [|done]. destruct (commit_chars s (Ho s eq_refl)) as (? & ? & ?).
  by destruct s.
Qed.

(** What a fingerprint tells apart, down to the digest of its causes. *)
Definition sides (c : Classification) : option pystr * option pystr :=
  match c_live_commit c with
  | None => (c_frontend_commit c, c_api_commit c)
  | Some _ => (None, None)
  end.
Definition cause_key (c : Classification) : option (result exc_class pystr) :=
  if is_nil (c_causes c) then None else Some (causes_digest (c_causes c)).
Definition same_alert (c1 c2 : Classification) : Prop :=
  c_state c1 = c_state c2 /\ c_live_commit c1 = c_live_commit c2 /\ sides c1 = sides c2 /\
  c_schaubild c1 = c_schaubild c2 /\ cause_key c1 = cause_key c2.

Lemma identity_part_chars expected main c :
  well_formed expected main c -> forallb base_char (identity_part c) = true.
Proof.
  intros Hc. pose proof (wf_commits _ _ _ Hc) as Hs. rewrite !Forall_cons in Hs.
  destruct Hs as (Hl & Hf & Ha & _). unfold identity_part.
  destruct (c_live_commit c) as [l|]; [by apply or_none_chars|].
  destruct (or_none_chars _ Hf) as [_ Bf], (or_none_chars _ Ha) as [_ Ba].
  destruct (c_frontend_commit c), (c_api_commit c); rewrite ?forallb_app, ?Bf; cbn [forallb];
    rewrite ?Ba; done.
Qed.

Lemma identity_part_inj e1 m1 e2 m2 c1 c2 :
  well_formed e1 m1 c1 -> well_formed e2 m2 c2 -> identity_part c1 = identity_part c2 ->
  c_live_commit c1 = c_live_commit c2 /\ sides c1 = sides c2.
Proof.
  intros H1 H2. pose proof (wf_commits _ _ _ H1) as S1. pose proof (wf_commits _ _ _ H2) as S2.
  rewrite !Forall_cons in S1, S2. destruct S1 as (L1 & F1 & A1 & _), S2 as (L2 & F2 & A2 & _).
  unfold identity_part, sides.
  assert (forall o p q, (forall s, o = Some s -> is_commit_str s = true) ->
    (forall s, p = Some s -> is_commit_str s = true) -> or_none o <> or_none p ++ 47%N :: q) as Hno.
  { intros o p q Ho Hp E. destruct (or_none_chars o Ho) as [Co _], (or_none_chars p Hp) as [Cp _].
    rewrite <-(app_nil_r (or_none o)) in E. apply (run_unique side_char) in E as [_ E]; done. }
  assert (forall f g a b, (forall s, f = Some s -> is_commit_str s = true) ->
    (forall s, g = Some s -> is_commit_str s = true) ->
    (forall s, a = Some s -> is_commit_str s = true) ->
    (forall s, b = Some s -> is_commit_str s = true) ->
    or_none f ++ 47%N :: or_none a = or_none g ++ 47%N :: or_none b -> f = g /\ a = b) as Hside.
  { intros f g a b Hf Hg Ha Hb E. destruct (or_none_chars f Hf) as [Cf _], (or_none_chars g Hg) as [Cg _].
    apply (run_unique side_char) in E as [Ef [= Ea]]; [|done..]. split; by apply or_none_inj. }
  destruct (c_live_commit c1) as [l1|], (c_live_commit c2) as [l2|]; intros E.
  - by apply or_none_inj in E as ->.
  - exfalso. destruct (c_frontend_commit c2), (c_api_commit c2);
      try (eapply Hno; [..|exact E]; eassumption).
    by apply or_none_inj in E.
  - exfalso. symmetry in E. destruct (c_frontend_commit c1), (c_api_commit c1);
      try (eapply Hno; [..|exact E]; eassumption).
    by apply or_none_inj in E.
  - split; [done|]. destruct (c_frontend_commit c1), (c_api_commit c1), (c_frontend_commit c2),
      (c_api_commit c2); try done; try (destruct (Hside _ _ _ _ F1 F2 A1 A2 E); congruence);
      exfalso; try (eapply Hno; [..|exact E]; eassumption);
      try (symmetry in E; eapply Hno; [..|exact E]; eassumption).
Qed.

Lemma state_name_chars s :
  forallb state_char (state_name s) = true /\ forallb base_char (state_name s) = true.
Proof. by destruct s. Qed.
Lemma state_name_inj s t : state_name s = state_name t -> s = t.
Proof. by destruct s, t. Qed.

(** The parts behind the identity: the digest of the causes and the Schaubild mark. *)
Definition print_suffix (k : option (result exc_class pystr)) (s : option schaubild_cause) : pystr :=
  match k with Some (Ok digest) => 35%N :: digest | _ => [] end ++
  match s with Some s => lit "+schaubild-" ++ schaubild_name s | None => [] end.

Lemma fingerprint_parts c p :
  fingerprint c = Ok p ->
  p = fingerprint_base c ++ print_suffix (cause_key c) (c_schaubild c) /\
  (forall r, cause_key c = Some r -> exists d, r = Ok d /\ forallb lower_hex d = true).
Proof.
  unfold fingerprint, print_suffix, cause_key. destruct (is_nil (c_causes c)); cbn.
  - intros [= <-]. split; [|done]. destruct (c_schaubild c); [done|by rewrite app_nil_r].
  - destruct (causes_digest (c_causes c)) as [d|] eqn:E; [|done]. intros [= <-]. split.
    + rewrite app_assoc. destruct (c_schaubild c); cbn; by rewrite <-?app_assoc, ?app_nil_r.
    + intros r [= <-]. exists d. split; [done|]. unfold causes_digest in E.
      apply bind_ok in E as (text & _ & [= <-]).
      pose proof (proj2 (proj1 (all_hex_spec _ _) (sha256_hex_shape text))) as Hh.
      apply forallb_forall. intros x Hx. rewrite Forall_forall in Hh.
      apply Hh. apply list_elem_of_In in Hx. by apply (subseteq_take 12) in Hx.
Qed.

Lemma print_suffix_inj k1 k2 s1 s2 :
  (forall r, k1 = Some r -> exists d, r = Ok d /\ forallb lower_hex d = true) ->
  (forall r, k2 = Some r -> exists d, r = Ok d /\ forallb lower_hex d = true) ->
  print_suffix k1 s1 = print_suffix k2 s2 -> k1 = k2 /\ s1 = s2.
Proof.
  assert (forall s t : option schaubild_cause,
    match s with Some s => lit "+schaubild-" ++ schaubild_name s | None => [] end =
    match t with Some s => lit "+schaubild-" ++ schaubild_name s | None => [] end -> s = t) as Hs
    by (intros [[]|] [[]|]; done).
  assert (forall s : option schaubild_cause,
    stops lower_hex match s with Some s => lit "+schaubild-" ++ schaubild_name s | None => [] end)
    as Hstop by (intros [[]|]; done).
  intros H1 H2. unfold print_suffix. destruct k1 as [r1|], k2 as [r2|].
  - destruct (H1 r1 eq_refl) as (d1 & -> & Hd1), (H2 r2 eq_refl) as (d2 & -> & Hd2).
    cbn [app]. intros [= E]. apply (run_unique lower_hex) in E as [-> E]; [|done..]. by rewrite (Hs _ _ E).
  - destruct (H1 r1 eq_refl) as (d1 & -> & _). cbn [app]. by destruct s2 as [[]|].
  - destruct (H2 r2 eq_refl) as (d2 & -> & _). cbn [app]. by destruct s1 as [[]|].
  - cbn [app]. intros E. by rewrite (Hs _ _ E).
Qed.

(** Two alerts have the same fingerprint exactly when they agree in state, live commit (or, when
    there is no single one, in what each endpoint serves), Schaubild mark and the digest of their
    set of causes: whatever else changes is deduplicated, and nothing of these is. *)
Theorem fingerprint_exact e1 m1 e2 m2 c1 c2 p1 p2
    (Hwf1 : well_formed e1 m1 c1) (Hwf2 : well_formed e2 m2 c2)
    (Hp1 : fingerprint c1 = Ok p1) (Hp2 : fingerprint c2 = Ok p2) :
  p1 = p2 <-> same_alert c1 c2.
Proof.
  destruct (fingerprint_parts c1 p1 Hp1) as [-> K1], (fingerprint_parts c2 p2 Hp2) as [-> K2].
  rewrite (fingerprint_base_parts _ _ _ Hwf1), (fingerprint_base_parts _ _ _ Hwf2). split.
  - assert (forall e m c, well_formed e m c ->
      forallb base_char (state_name (c_state c) ++ 58%N :: identity_part c) = true) as Hb.
    { intros e m c Hc. rewrite forallb_app. destruct (state_name_chars (c_state c)) as [_ ->].
      cbn [forallb]. by rewrite (identity_part_chars _ _ _ Hc). }
    assert (forall k s, (forall r, k = Some r -> exists d, r = Ok d /\ forallb lower_hex d = true) ->
      stops base_char (print_suffix k s)) as Hstop.
    { intros k s Hk. unfold print_suffix. destruct k as [r|]; [|by destruct s as [[]|]].
      by destruct (Hk r eq_refl) as (d & -> & _). }
    intros E. apply (run_unique base_char) in E as [E1 E2]; [|by eauto..].
    apply (run_unique state_char) in E1 as [Es [= Ei]]; [|by try apply state_name_chars..].
    apply state_name_inj in Es. destruct (identity_part_inj _ _ _ _ _ _ Hwf1 Hwf2 Ei).
    by destruct (print_suffix_inj _ _ _ _ K1 K2 E2).
  - intros (Es & El & Ed & Eb & Ek). rewrite Es, Eb, Ek. do 2 f_equal.
    unfold identity_part, sides in *. rewrite <-El in *.
    destruct (c_live_commit c1); [done|]. by injection Ed as -> ->.
Qed.
End outcome.

(** ** From the verifier to the classifier *)

Section handover.
Context `{PyHost}.

Lemma stored_headers_dict (d acc : dict pystr) :
  NoDup (dkeys (acc ++ d)) -> Forall (fun kv => lower (fst kv) = fst kv) d ->
  foldl (fun acc kv => dset acc (lower (fst kv)) (to_str (snd kv))) acc
    ((fun kv => (fst kv, JStr (snd kv))) <$> d) = acc ++ d.
Proof.
  revert acc; induction d as [|[k v] d IH]; intros acc Hn Hl; cbn; [by rewrite app_nil_r|].
  apply Forall_cons in Hl as [Hk Hl]. cbn in Hk. rewrite Hk.
  unfold dkeys in Hn. rewrite fmap_app in Hn. cbn in Hn.
  rewrite dset_fresh.
  - rewrite IH; [by rewrite <-app_assoc| |done].
    unfold dkeys. rewrite !fmap_app. cbn. by rewrite <-app_assoc.
  - apply NoDup_app in Hn as (_ & Hd & _). intros Hin. apply (Hd k Hin). by left.
Qed.

Lemma ascii_lower_idemp s : forallb is_ascii s = true -> lower (lower s) = lower s.
Proof.
  intros Hs. unfold lower. rewrite Hs.
  assert (forall c, is_ascii c = true ->
    is_ascii (ascii_tolower c) = true /\ ascii_tolower (ascii_tolower c) = ascii_tolower c) as Hc.
  { intros c. unfold is_ascii, ascii_tolower at 1 3 4. intros Hc%N.ltb_lt.
    destruct (ascii_upper c) eqn:E; unfold ascii_tolower; [|rewrite E; split; [by apply N.ltb_lt|done]].
    unfold ascii_upper, in_range in *. apply andb_true_iff in E. rewrite !N.leb_le in E.
    assert ((c + 32 <=? 90)%N = false) as -> by (apply N.leb_gt; lia).
    rewrite andb_false_r. split; [apply N.ltb_lt; lia|done]. }
  assert (forallb is_ascii (ascii_tolower <$> s) = true) as ->.
  { induction s as [|c s IH]; [done|]. cbn in *. apply andb_true_iff in Hs as [H1 H2].
    rewrite IH by done. by destruct (Hc c H1) as [-> _]. }
  induction s as [|c s IH]; [done|]. cbn in *. apply andb_true_iff in Hs as [H1 H2].
  destruct (Hc c H1) as [_ ->]. f_equal. by apply IH.
Qed.

(** Field names are ASCII in HTTP. *)
Definition ascii_names (items : list (pystr * pystr)) : Prop :=
  Forall (fun kv => forallb is_ascii (fst kv) = true) items.

Lemma normalized_lower items acc :
  ascii_names items -> Forall (fun k => lower k = k) (dkeys acc) ->
  Forall (fun k => lower k = k) (dkeys (foldl normalize_header acc items)).
Proof.
  revert acc; induction items as [|kv items IH]; intros acc Hi Ha; cbn; [done|].
  apply Forall_cons in Hi as [Hk Hi]. apply IH; [done|].
  unfold normalize_header. rewrite dkeys_dset. destruct (dmem acc _); [done|].
  apply Forall_app. split; [done|]. apply Forall_singleton. by apply ascii_lower_idemp.
Qed.

Lemma stored_headers_normalized items :
  ascii_names items ->
  stored_headers (JObj ((fun kv => (fst kv, JStr (snd kv))) <$> normalize_headers items)) =
    Ok (normalize_headers items).
Proof.
  intros Hi. assert (NoDup (dkeys (normalize_headers items))) as Hn
    by (apply normalized_keys; constructor).
  assert (Forall (fun k => lower k = k) (dkeys (normalize_headers items))) as Hl
    by (by apply normalized_lower).
  unfold stored_headers. destruct (normalize_headers items) as [|x l] eqn:E; [done|].
  cbn [truthy fmap list_fmap negb]. f_equal.
  apply (stored_headers_dict (x :: l) []); [done|]. by apply Forall_fmap in Hl.
Qed.

Lemma checked_tree_stored payload t :
  parse_artifact_tree payload = Some t -> at_error t = None ->
  checked_tree (artifact_tree_json (Some t)) = Ok (Some t).
Proof.
  intros Hp He. destruct (parse_tree_no_error _ _ Hp He) as (raw & _ & Hr & ->).
  destruct Hr as [_ Hv (s & Hs & Es) (n & Hn & En) (r & Hr & Er) (c & p & Hpr)].
  rewrite Hv, Hs, Hn, Hr, Hpr. cbn [strict_int only_str].
  set (declared := [(lit "schema_version", JInt 1); (lit "sha256", JStr s);
    (lit "file_count", JInt n); (lit "compile_revision", JStr r); (lit "provenance", JStr (c :: p))]).
  assert (tree_declared declared) as Hd.
  { constructor; [|done|by exists s|by exists n|by exists r|by exists c, p]. done. }
  unfold checked_tree, artifact_tree_json.
  change (dget _ "error") with (Some JNull).
  change (List.filter _ _) with declared. cbv beta iota zeta.
  by rewrite (parse_tree_ok declared) by done.
Qed.

(** A reading whose tree, if any, was parsed without error. *)
Definition tree_ok (e : EndpointResult) : Prop :=
  forall t, ep_artifact_tree e = Some t -> at_error t = None.

Definition exchange_names (e : exchange) : Prop :=
  match e with
  | Response _ items _ _ _ | HttpFailure _ items _ => ascii_names items
  | TransportFailure _ => True
  end.

(** The declaration of the tree, once stored, is parsed to the same error, so that the receipt can be
    judged again. *)
Definition rereads (e : EndpointResult) : Prop := exists t, checked_tree (artifact_tree_json (ep_artifact_tree e)) = Ok t.
Lemma tree_ok_rereads loads url max e :
  tree_ok (fetch_endpoint loads url max e) ->
  checked_tree (artifact_tree_json (ep_artifact_tree (fetch_endpoint loads url max e))) =
    Ok (ep_artifact_tree (fetch_endpoint loads url max e)).
Proof.
  intros Ht. destruct (ep_artifact_tree (fetch_endpoint loads url max e)) as [t|] eqn:E; [|done].
  destruct (fetch_endpoint_tree _ _ _ _ _ E) as [payload Hp]. by eapply checked_tree_stored, Ht.
Qed.

Definition with_tree (e : EndpointResult) (t : option ArtifactTreeResult) : EndpointResult :=
  Endpoint (ep_url e) (ep_status e) (ep_commit e) (ep_version e) (ep_headers e) (ep_error e) t.
Lemma stored_endpoint_read loads url max e t :
  exchange_names e -> let r := fetch_endpoint loads url max e in
  checked_tree (artifact_tree_json (ep_artifact_tree r)) = Ok t ->
  stored_endpoint (endpoint_json r) = Ok (with_tree r t).
Proof.
  intros Hn r Hc. unfold r in *.
  assert (stored_headers (JObj ((fun kv => (fst kv, JStr (snd kv))) <$>
    ep_headers (fetch_endpoint loads url max e))) =
    Ok (ep_headers (fetch_endpoint loads url max e))) as Hh.
  { destruct e as [st items cl fin body|code items reason|text]; cbn in *;
      [|by apply stored_headers_normalized|done].
    destruct (negb _); [by apply stored_headers_normalized|].
    destruct (read_bounded _ _ _); [|by apply stored_headers_normalized].
    destruct (loads _) as [[]|]; by apply stored_headers_normalized. }
  destruct (fetch_endpoint loads url max e) as [u st cm ve hd er tr] eqn:E.
  unfold stored_endpoint, endpoint_json. cbn [ep_url ep_status ep_commit ep_version ep_headers
    ep_error ep_artifact_tree] in *.
  change (get _ "artifact_tree") with (artifact_tree_json tr).
  change (get _ "headers") with (JObj ((fun kv => (fst kv, JStr (snd kv))) <$> hd)).
  rewrite Hc, Hh. cbn [mbind result_bind]. unfold with_tree. do 2 f_equal.
  change (get _ "url") with (JStr u). by destruct u.
Qed.
Lemma stored_endpoint_rereads e r : stored_endpoint (endpoint_json e) = Ok r -> rereads e.
Proof. intros (t & E & _)%bind_ok. by exists t. Qed.

(** C7: verifier and classifier agree.  The receipt [verify_public_release_commit] writes for two
    endpoint readings, whose header names are ASCII, is classified [current] for its own commit, with
    main still there, exactly when the verifier passed it and the declaration of the API's artifact tree
    parses again to the error it was stored with, as every declaration without error and a missing one
    do; the verifier does not judge that tree, so it passes releases that the classifier calls invalid
    ([unread_api_tree]). *)
Theorem receipt_current_iff_released now commit loads url_f url_a max ef ea time grace
    is_ancestor rollout
    (Hcommit : is_commit_str commit = true)
    (Hnames : exchange_names ef /\ exchange_names ea) :
  let frontend := fetch_endpoint loads url_f max ef in
  let api := fetch_endpoint loads url_a max ea in
  (c_state (classify commit commit time grace is_ancestor rollout
             (as_json (evaluate now commit frontend api))) = current <->
   vr_pass (evaluate now commit frontend api) = true /\ rereads api) /\
  (tree_ok api -> rereads api).
Proof.
  cbn zeta. set (f := fetch_endpoint loads url_f max ef). set (a := fetch_endpoint loads url_a max ea).
  set (receipt := as_json (evaluate now commit f a)). split; [split|].
  - intros Hc. destruct (shown_or_not receipt) as [[c Hs]|Hno].
    + rewrite (classify_shown _ _ _ _ _ _ _ c Hs) in Hc. destruct (str_eqb_spec c commit) as [Heq|Hne].
      * subst c. apply (expected_live_state commit commit time grace is_ancestor rollout) in Hc
          as (_ & [Hp _] & (f' & a' & _ & Ha & _)).
        change (get receipt "pass") with (JBool (vr_pass (evaluate now commit f a))) in Hp.
        split; [by injection Hp|by apply (stored_endpoint_rereads a a')].
      * by destruct (other_live_state commit commit time grace is_ancestor rollout receipt
          (Some c, Some c) c Hne) as [Hn _].
    + destruct (classify_not_shown commit commit time grace is_ancestor rollout receipt Hno)
        as [_ [Hs|[Hs|Hs]]]; by rewrite Hs in Hc.
  - intros [Hp [t Ht]]. assert (Hr := Hp). rewrite vr_pass_reasons, evaluate_reasons_nil in Hr.
    assert (tree_ok f) as Htf.
    { intros u Hu. destruct (rel_tree _ _ _ Hr) as (t' & Ht' & He & _). rewrite Hu in Ht'.
      injection Ht' as <-. destruct (fetch_endpoint_tree _ _ _ _ _ Hu) as [payload Hpl].
      apply parse_tree_error_text in Hpl. by destruct (at_error u) as [[|x l]|]. }
    assert (stored_release receipt commit) as Hrel.
    { exists (with_tree f (ep_artifact_tree f)), (with_tree a t). destruct Hnames as [Hf Ha]. split_and!.
      - exact (stored_endpoint_read loads url_f max ef _ Hf (tree_ok_rereads _ _ _ _ Htf)).
      - exact (stored_endpoint_read loads url_a max ea _ Ha Ht).
      - by destruct Hr; constructor. }
    assert (shows_commit receipt commit) as Hs by by apply stored_release_shows.
    rewrite (classify_shown _ _ _ _ _ _ _ commit Hs), str_eqb_refl.
    apply expected_live_state. split_and!; [done| |done].
    apply vr_pass_reasons in Hp as Hn.
    unfold claims_pass, receipt. split_and!; [|done|done|].
    + change (JBool (vr_pass (evaluate now commit f a)) = JBool true). by rewrite Hp.
    + change (JList (JStr <$> vr_reasons (evaluate now commit f a)) = JList []). by rewrite Hn.
  - intros Ht. exists (ep_artifact_tree a). by apply tree_ok_rereads.
Qed.
End handover.

(** ** Concrete runs *)

Definition demo_commit_of (k : nat) : pystr := replicate 40 (97 + N.of_nat k)%N.
Definition demo_receipt (live expected : pystr) : json :=
  let read url := @fetch_endpoint ascii_host
    (fun _ => Ok (JObj [(lit "commit", JStr live); (lit "version", JStr (take 8 live));
                        (lit "artifact_tree",
                          match demo_tree with
                          | JObj t => JObj (dset t "compile_revision" (JStr live))
                          | v => v
                          end)])) url 1024 (demo_exchange url live) in
  as_json (@evaluate ascii_host [] expected (read (lit "f")) (read (lit "a"))).

Definition demo_history : list pystr := demo_commit_of <$> seq 0 4.
Definition demo_index (c : pystr) : nat := default 9%nat (find_index (str_eqb c) demo_history).
Definition demo_git (args : list pystr) : process :=
  match args with
  | [_; _; command; _; a; b] =>
      if str_eqb command "merge-base" then
        Process (if (demo_index a <=? demo_index b)%nat then 0 else 1) []
      else if str_eqb command "rev-list" then
        let '(i, j) := (demo_index (take 40 b), demo_index (drop 42 b)) in
        Process 0 (flat_map (fun c => c ++ [10%N]) (take (j - i) (drop (S i) demo_history)))
      else Process 0 (show_Z (1000 * Z.of_nat (demo_index b)) ++ [10%N])
  | _ => Process 128 []
  end.

Lemma demo_lookup i c : demo_history !! i = Some c -> (i < 4)%nat /\ c = demo_commit_of i.
Proof.
  intros Hi. assert (i < 4)%nat as Hl by by apply lookup_lt_Some in Hi.
  split; [done|]. do 4 (destruct i as [|i]; [by injection Hi|]). lia.
Qed.

#[local] Instance demo_main_history : MainHistory demo_git (lit ".") demo_history.
Proof.
  constructor.
  - by repeat constructor.
  - by apply (bool_decide_unpack _); vm_compute.
  - intros i j a b [Hi ->]%demo_lookup [Hj ->]%demo_lookup.
    do 4 (destruct i as [|i]; [do 4 (destruct j as [|j]; [by vm_compute|]); lia|]). lia.
  - intros i j a b [Hi ->]%demo_lookup [Hj ->]%demo_lookup.
    do 4 (destruct i as [|i]; [do 4 (destruct j as [|j]; [by vm_compute|]); lia|]). lia.
Qed.

#[local] Existing Instance ascii_host.

Lemma demo_stored_release : stored_release (demo_receipt (demo_commit_of 0) (demo_commit_of 1)) (demo_commit_of 0).
Proof. apply revalidate_nil. by vm_compute. Qed.

(** Production serves commit 0; commit 1 landed at 1000 and is expected, main is at 3. *)
Lemma pending_window_fixed_witness :
  (forall now, 1000 <= now < 2200 ->
     c_state (classify (demo_commit_of 1) (demo_commit_of 3) now 1200
       (git_is_ancestor demo_git (lit ".")) (git_rollout_start demo_git (lit "."))
       (demo_receipt (demo_commit_of 0) (demo_commit_of 1))) = pending) /\
  c_state (classify (demo_commit_of 1) (demo_commit_of 3) 2200 1200
       (git_is_ancestor demo_git (lit ".")) (git_rollout_start demo_git (lit "."))
       (demo_receipt (demo_commit_of 0) (demo_commit_of 1))) = stale.
Proof.
  assert (forall now, c_state (classify (demo_commit_of 1) (demo_commit_of 3) now 1200
       (git_is_ancestor demo_git (lit ".")) (git_rollout_start demo_git (lit "."))
       (demo_receipt (demo_commit_of 0) (demo_commit_of 1))) =
     if (1000 <=? now) && (now <? 1000 + 1200) then pending else stale) as Hw.
  { intros now. apply (pending_window_fixed (h := demo_history) _ 0 1 3 (demo_commit_of 0)
      (demo_commit_of 1) (demo_commit_of 3) (demo_commit_of 1));
      [done|done|done|done|by vm_compute|lia|lia|apply demo_stored_release|done]. }
  split.
  - intros now Hn. rewrite Hw, (proj2 (Z.leb_le _ _)), (proj2 (Z.ltb_lt _ _)) by lia. done.
  - by rewrite Hw.
Defined.

Lemma classify_main_exact_witness :
  let run := classify_main (demo_commit_of 1) (demo_commit_of 1) 1200 0 (fun _ _ => None)
    (fun _ _ => None) (Ok (demo_receipt (demo_commit_of 1) (demo_commit_of 1))) None in
  exists payload, run = Ok (0, Some payload) /\ get payload "state" = JStr "current".
Proof.
  cbn zeta.
  destruct (classify_main_exact (demo_commit_of 1) (demo_commit_of 1) 1200 0 (fun _ _ => None)
    (fun _ _ => None) (Ok (demo_receipt (demo_commit_of 1) (demo_commit_of 1))) None)
    as (Hok & Hrun & _ & _); [done|done|lia|].
  destruct (classify_main _ _ _ _ _ _ _ _) as [[code payload]|] eqn:E.
  2: { destruct Hok as [_ Hok]. discriminate Hok.
       replace (c_causes _) with (@nil pystr) by by vm_compute. constructor. }
  destruct (Hrun code payload eq_refl) as (Hc & _ & print & _ & ->).
  assert (code = 0) as -> by (apply Hc; split; [by vm_compute|done]).
  eexists. split; [done|]. by vm_compute.
Defined.

Definition demo_classification (receipt : json) : Classification :=
  classify (demo_commit_of 1) (demo_commit_of 1) 0 1200 (fun _ _ => Some false) (fun _ _ => None) receipt.
Definition demo_split : json :=
  JObj [(lit "frontend", JObj [(lit "status", JInt 200); (lit "commit", JStr (demo_commit_of 1))]);
        (lit "api", JObj [(lit "status", JInt 200); (lit "commit", JStr (demo_commit_of 2))])].

Lemma fingerprint_exact_witness :
  exists p1 p2, fingerprint (demo_classification demo_split) = Ok p1 /\
    fingerprint (demo_classification JNull) = Ok p2 /\ p1 <> p2.
Proof.
  eexists _, _. split; [by vm_compute|]. split; [by vm_compute|].
  rewrite (fingerprint_exact (demo_commit_of 1) (demo_commit_of 1) (demo_commit_of 1)
    (demo_commit_of 1) (demo_classification demo_split) (demo_classification JNull));
    [|apply classify_well_formed|apply classify_well_formed|by vm_compute|by vm_compute].
  intros (Hs & _). by vm_compute in Hs.
Defined.

(** An API whose declaration is no object: the verifier passes the release, and the classifier finds
    that the receipt contradicts itself. *)
Example unread_api_tree :
  let loads := fun _ => Ok (JObj [(lit "commit", JStr demo_commit); (lit "version", JStr (take 8 demo_commit)); (lit "artifact_tree", JNull)]) in
  let result := evaluate [] demo_commit (demo_endpoint "f" demo_commit) (fetch_endpoint loads (lit "a") 1024 (demo_exchange (lit "a") demo_commit)) in
  vr_pass result = true /\
  c_state (classify demo_commit demo_commit 0 1200 (fun _ _ => None) (fun _ _ => None) (as_json result)) = invalid.
Proof. by vm_compute. Qed.

Lemma receipt_current_iff_released_witness :
  c_state (classify demo_commit demo_commit 0 1200 (fun _ _ => None) (fun _ _ => None)
    (as_json (evaluate [] demo_commit (demo_endpoint "f" demo_commit) (demo_endpoint "a" demo_commit))))
  = current.
Proof.
  apply (receipt_current_iff_released [] demo_commit (demo_loads demo_commit) (lit "f") (lit "a") 1024
    (demo_exchange (lit "f") demo_commit) (demo_exchange (lit "a") demo_commit) 0 1200).
  - done.
  - split; by repeat constructor.
  - split; [by vm_compute|]. eexists. vm_compute. reflexivity.
Defined.
