(* ===== verification/AlertIssue.v ===== *)
(** * The production alert issue

    scripts/ops/production_alert_issue.py: one GitHub issue per incident.  The client methods are
    written over [IssueApi], the REST calls of GitHub (a service); [reconcile] and [drill] are
    written over the client, as in the source.  [Store] is a concrete repository with the
    documented behaviour of those calls, on which the state machine of the alert is stated. *)

From S2P Require Import Prelude PyStr Json Sha256 ReleaseVerify LiveState.
Open Scope Z_scope.

(** ** The REST calls *)

Class IssueApi (S : Type) : Type := {
  (** GET /issues?state=open&labels=...&sort=created&direction=asc&per_page=100 *)
  api_open_issues : pystr -> eff S (list json);
  (** GET /issues/n/comments?per_page=100&page=p *)
  api_comments : json -> Z -> eff S (list json);
  (** POST /labels: the status of the [HTTPError], if any *)
  api_create_label : pystr -> eff S (option Z);
  (** POST /issues, POST /issues/n/assignees: the issue as GitHub answers it *)
  api_create_issue : pystr -> pystr -> pystr -> eff S json;
  api_add_assignee : json -> pystr -> eff S json;
  (** POST /issues/n/comments, PATCH /issues/n *)
  api_comment : json -> pystr -> eff S unit;
  api_close : json -> eff S unit;
}.

Definition ALERT_LABEL : pystr := lit "production-alert".
Definition DRILL_LABEL : pystr := lit "production-alert-drill".
Definition ALERT_BOT_LOGIN : pystr := lit "github-actions[bot]".
Definition ALERT_BOT_ID : Z := 41898282.
Definition MARKER_OPEN : pystr := lit "<!-- production-alert-fingerprint: ".
Definition MARKER_CLOSE : pystr := lit " -->".
Definition ALERTING_STATES : list pystr :=
  [lit "stale"; lit "divergent"; lit "invalid"; lit "outage"; lit "monitor_failure"].
Definition NON_ALERTING_STATES : list pystr := [lit "current"; lit "superseded"; lit "pending"].

(** ** Markers *)

Definition marker (fingerprint : pystr) : pystr := MARKER_OPEN ++ fingerprint ++ MARKER_CLOSE.

(** The longest prefix of non-space characters, and the rest. *)
Fixpoint span_nonspace (s : pystr) : pystr * pystr :=
  match s with
  | [] => ([], [])
  | c :: s' => if is_space c then ([], s) else let '(a, b) := span_nonspace s' in (c :: a, b)
  end.

(** [FINGERPRINT_RE] at the start of [s]: the group and what follows the match.  [\S+] cannot give
    back the space that must follow it, so the longest run is the only candidate. *)
Definition match_marker (s : pystr) : option (pystr * pystr) :=
  match strip_prefix MARKER_OPEN s with
  | Some rest =>
      match span_nonspace rest with
      | ([], _) => None
      | (fp, after) =>
          match strip_prefix MARKER_CLOSE after with Some r => Some (fp, r) | None => None end
      end
  | None => None
  end.

(** [FINGERPRINT_RE.finditer(s)], the groups in order. *)
Fixpoint find_markers (fuel : nat) (s : pystr) : list pystr :=
  match fuel, s with
  | O, _ | _, [] => []
  | S n, _ :: s' =>
      match match_marker s with
      | Some (fp, rest) => fp :: find_markers n rest
      | None => find_markers n s'
      end
  end.
Definition markers (s : pystr) : list pystr := find_markers (length s) s.

Definition trusted_alert_author (entry : json) : bool :=
  let user := get entry "user" in
  is_dict user && py_eq (get user "id") (JInt ALERT_BOT_ID) &&
  py_eq (get user "login") (JStr ALERT_BOT_LOGIN).

(** [entry.get("body") or ""] as text. *)
Definition body_text (entry : json) : result exn pystr :=
  match get entry "body" with
  | JStr s => Ok s
  | v => if truthy v then raise TypeError "expected string or bytes-like object" else Ok []
  end.

Definition fingerprint_step (fingerprint : option pystr) (entry : json)
    : result exn (option pystr) :=
  if negb (is_dict entry) || negb (trusted_alert_author entry) then Ok fingerprint
  else text ← body_text entry;
       Ok match List.rev (markers text) with fp :: _ => Some fp | [] => fingerprint end.

Definition latest_fingerprint (issue : json) (comments : list json)
    : result exn (option pystr) :=
  foldM fingerprint_step None (issue :: comments).

(** ** Classifications *)

Section alert.
Context `{PyHost}.

Definition alert_monitor_failure (reason : pystr) : result exc_class json :=
  bytes ← utf8_encode reason;
  Ok (JObj [(lit "state", JStr "monitor_failure"); (lit "alert", JBool true);
            (lit "reason", JStr reason); (lit "expected_commit", JNull);
            (lit "main_commit", JNull); (lit "live_commit", JNull);
            (lit "fingerprint", JStr (lit "monitor_failure:none#" ++ take 12 (sha256_hex bytes)))]).

(** [re.fullmatch(r"\S+", s)] *)
Definition all_nonspace (s : pystr) : bool :=
  negb (is_nil s) && forallb (fun c => negb (is_space c)) s.

Definition schema_problem (payload : json) : option pystr :=
  let live := get payload "live_commit" in
  let fp := get payload "fingerprint" in
  if negb (py_eq (get payload "schema_version") (JInt 1)) then
    Some (lit "schema_version " ++ repr (get payload "schema_version"))
  else if negb (is_commit (get payload "expected_commit")) then
    Some (lit "expected_commit is not a full SHA")
  else if negb (is_commit (get payload "main_commit")) then
    Some (lit "main_commit is not a full SHA")
  else if negb (is_none live) && negb (is_commit live) then
    Some (lit "live_commit is neither null nor a full SHA")
  else if negb (is_str (get payload "reason")) then Some (lit "reason is not a string")
  else if negb match fp with JStr s => all_nonspace s | _ => false end then
    Some (lit "no usable fingerprint")
  else if py_eq (get payload "state") (JStr "current") &&
          negb (py_eq live (get payload "expected_commit") &&
                py_eq (get payload "expected_commit") (get payload "main_commit")) then
    Some (lit "current without the expected main head live")
  else None.

(** [path] is [None] without a file; otherwise the value read, or the text of the exception. *)
Definition load_classification (path : option (result pystr json)) : result exc_class json :=
  match path with
  | None => alert_monitor_failure "no classification was produced"
  | Some (Err exc) => alert_monitor_failure (lit "classification is unreadable: " ++ exc)
  | Some (Ok payload) =>
      match payload, get payload "state" with
      | JObj _, JStr state =>
          let alert := get payload "alert" in
          if negb (str_in state (ALERTING_STATES ++ NON_ALERTING_STATES)) then
            alert_monitor_failure (lit "classification has unknown state " ++ repr_str state)
          else if negb match alert with
                       | JBool b => Bool.eqb b (str_in state ALERTING_STATES)
                       | _ => false
                       end then
            alert_monitor_failure (lit "classification alert flag " ++ repr alert
                             ++ lit " contradicts state " ++ repr_str state)
          else match schema_problem payload with
               | Some problem => alert_monitor_failure (lit "classification is malformed: " ++ problem)
               | None => Ok payload
               end
      | _, _ => alert_monitor_failure "classification has no state"
      end
  end.

Definition details (classification : json) (run_url : pystr) : pystr :=
  let field k := to_str (get classification k) in
  join [10%N]
    [lit "- Zustand: `" ++ field "state" ++ lit "`";
     lit "- Grund: " ++ field "reason";
     lit "- Erwarteter Commit: `" ++ field "expected_commit" ++ lit "`";
     lit "- Live-Commit: `" ++ field "live_commit" ++ lit "`";
     lit "- Frontend-Commit: `" ++ field "frontend_commit" ++ lit "`";
     lit "- API-Commit: `" ++ field "api_commit" ++ lit "`";
     lit "- main: `" ++ field "main_commit" ++ lit "`";
     lit "- Lauf: " ++ run_url].

(** ** The client *)

Section client.
Context {S : Type} `{IssueApi S}.
Context (assignee : option pystr).

(** [open_issues]: no pull requests, and for the alert label only the service identity's. *)
Definition open_issues (label : pystr) : eff S (list json) :=
  issues ← api_open_issues label;
  let result := List.filter (fun i => negb match i with JObj d => dmem d "pull_request" | _ => false end) issues in
  mret (if str_eqb label ALERT_LABEL then List.filter trusted_alert_author result else result).

Definition has_assignee (issue : json) : bool :=
  match assignee with
  | None => false
  | Some a =>
      existsb (fun account =>
        is_dict account &&
        match get account "login" with JStr l => str_eqb (casefold l) (casefold a) | _ => false end)
        match get issue "assignees" with JList l => l | _ => [] end
  end.

Definition require_assignee (issue : json) : eff S unit :=
  match assignee with
  | Some (_ :: _) =>
      if has_assignee issue then mret tt
      else throw ValueError (lit "issue #" ++ to_str (get issue "number")
                             ++ lit " has no verified alert assignee")
  | _ => mret tt
  end.

Definition ensure_assignee (issue : json) : eff S unit :=
  match assignee with
  | Some (c :: a) =>
      if has_assignee issue then mret tt
      else match get issue "number" with
           | JInt n =>
               if n <? 1 then throw ValueError "alert issue has invalid number"
               else updated ← api_add_assignee (JInt n) (c :: a); require_assignee updated
           | _ => throw ValueError "alert issue has invalid number"
           end
  | _ => throw ValueError "production alert assignee is not configured"
  end.

(** Follow the pages until one is not full; [fuel] bounds the number of pages. *)
Fixpoint comment_pages (fuel : nat) (number : json) (page : Z) (result : list json)
    : eff S (list json) :=
  match fuel with
  | O => throw RecursionError "more comment pages than the bound of the model"
  | Datatypes.S fuel' =>
      batch ← api_comments number page;
      if (length batch <? 100)%nat then mret (result ++ batch)
      else comment_pages fuel' number (page + 1) (result ++ batch)
  end.
Context (page_bound : nat).
Definition comments (number : json) : eff S (list json) := comment_pages page_bound number 1 [].

Definition ensure_label (label : pystr) : eff S unit :=
  code ← api_create_label label;
  match code with
  | None => mret tt
  | Some c => if c =? 422 then mret tt else throw HTTPError (lit "HTTP Error " ++ show_Z c)
  end.

Definition label_names (issue : json) : list json :=
  flat_map (fun i => if is_dict i then [get i "name"] else [])
    match get issue "labels" with JList l => l | _ => [] end.

Definition close_drill (number : Z) : eff S unit :=
  try_except [OSError; ValueError] (api_close (JInt number))
    (fun _ => throw ValueError (lit "drill issue #" ++ show_Z number
                                ++ lit " is unverified and could not be closed")).

Definition create_issue (title body label : pystr) : eff S json :=
  ensure_label label ;;
  issue ← api_create_issue title body label;
  try_except [OSError; ValueError]
    ((if py_in (JStr label) (label_names issue) then mret tt
      else throw ValueError (lit "issue #" ++ to_str (get issue "number")
                             ++ lit " was created without label " ++ repr_str label)) ;;
     match assignee with
     | Some (_ :: _) => ensure_assignee issue ;; mret issue
     | _ => mret issue
     end)
    (fun e =>
       match get issue "number" with
       | JInt number =>
           if str_eqb label DRILL_LABEL && (0 <? number)
           then close_drill number ;; pure (Err e)
           else pure (Err e)
       | _ => pure (Err e)
       end).

(** ** Reconciliation *)

Definition issue_number (issue : json) : eff S json := pure (item issue "number").

Definition opening_body (classification : json) (run_url fingerprint : pystr) : pystr :=
  lit "Der Production-Live-Contract meldet einen Zustand, der Handeln braucht." ++ [10; 10]%N
  ++ details classification run_url ++ [10; 10]%N
  ++ lit "Dieses Issue wird geschlossen, sobald ein Lauf den aktuellen main-Stand wieder als live und konsistent nachweist."
  ++ [10; 10]%N ++ marker fingerprint.
Definition change_body (classification : json) (run_url fingerprint : pystr) : pystr :=
  lit "Der Alarm hat sich geändert." ++ [10; 10]%N ++ details classification run_url
  ++ [10; 10]%N ++ marker fingerprint.
Definition recovery_body (classification : json) (run_url : pystr) : pystr :=
  lit "Erholt: Der aktuelle main-Stand ist wieder live und konsistent." ++ [10; 10]%N
  ++ details classification run_url.

(** [str(classification.get("fingerprint") or f"{state}:none")] *)
Definition alert_fingerprint (classification : json) : pystr :=
  let fp := get classification "fingerprint" in
  if truthy fp then to_str fp else to_str (get classification "state") ++ lit ":none".

Inductive action : Type := opened | updated | unchanged | resolved | drilled.

Definition reconcile_alert (classification : json) (run_url : pystr) (issue : option json)
    : eff S action :=
  let fingerprint := alert_fingerprint classification in
  match issue with
  | None =>
      create_issue (lit "Produktionsalarm: " ++ to_str (get classification "state"))
        (opening_body classification run_url fingerprint) ALERT_LABEL ;;
      mret opened
  | Some issue =>
      number ← issue_number issue;
      all ← comments number;
      latest ← pure (latest_fingerprint issue all);
      let changed := negb (bool_decide (latest = Some fingerprint)) in
      (if changed then api_comment number (change_body classification run_url fingerprint)
       else mret tt) ;;
      ensure_assignee issue ;;
      mret (if changed then updated else unchanged)
  end.

Definition reconcile (classification : json) (run_url : pystr) : eff S action :=
  open_alerts ← open_issues ALERT_LABEL;
  let issue := head open_alerts in
  match get classification "alert" with
  | JBool true => reconcile_alert classification run_url issue
  | _ =>
      match issue with
      | Some issue =>
          if py_eq (get classification "state") (JStr "current") then
            number ← issue_number issue;
            api_comment number (recovery_body classification run_url) ;;
            api_close number ;;
            mret resolved
          else ensure_assignee issue ;; mret unchanged
      | None => mret unchanged
      end
  end.

Definition drill (run_url : pystr) : eff S action :=
  issue ← create_issue "Produktionsalarm-Probe"
    (lit "Kontrollierter Testalarm des Production-Live-Contracts. Wenn diese Meldung angekommen ist, funktioniert die Zustellung."
     ++ [10; 10]%N ++ lit "- Lauf: " ++ run_url) DRILL_LABEL;
  number ← issue_number issue;
  try_finally (api_comment number "Probe beendet; das Issue wird geschlossen.")
    (api_close number) ;;
  mret drilled.
End client.
End alert.

(** ** Lemmas: markers *)

Lemma strip_prefix_line p a t r :
  10%N ∉ p -> strip_prefix p (a ++ 10%N :: t) = Some r ->
  exists a', a = p ++ a' /\ r = a' ++ 10%N :: t.
Proof.
  unfold strip_prefix. destruct (startswith p (a ++ 10%N :: t)) eqn:E; [|done]. intros Hp [= <-].
  apply startswith_spec in E as [u Hu].
  assert (exists a', a = p ++ a') as [a' ->].
  { clear -Hp Hu. revert a Hu; induction p as [|c p IH]; intros [|d a] Hu; cbn in *; eauto.
    - injection Hu as <- _. destruct Hp. by left.
    - injection Hu as -> Hu. apply not_elem_of_cons in Hp as [_ Hp].
      destruct (IH Hp a Hu) as [a' ->]. eauto. }
  exists a'. split; [done|]. by rewrite <-app_assoc, drop_app_length.
Qed.

Lemma span_line a t fp after :
  span_nonspace (a ++ 10%N :: t) = (fp, after) ->
  exists a', a = fp ++ a' /\ after = a' ++ 10%N :: t.
Proof.
  revert fp after; induction a as [|c a IH]; intros fp after; cbn.
  - intros [= <- <-]. by exists [].
  - destruct (is_space c); [intros [= <- <-]; by exists (c :: a)|].
    destruct (span_nonspace (a ++ 10%N :: t)) as [x y]. intros [= <- <-].
    destruct (IH x y eq_refl) as (a' & -> & ->). by exists a'.
Qed.

(** A match never crosses the end of a line. *)
Lemma match_marker_line a t fp rest :
  match_marker (a ++ 10%N :: t) = Some (fp, rest) ->
  exists a', rest = a' ++ 10%N :: t /\ (length a' < length a)%nat.
Proof.
  unfold match_marker. destruct (strip_prefix MARKER_OPEN _) as [r|] eqn:E1; [|done].
  apply strip_prefix_line in E1 as (a1 & -> & ->); [|by_compute].
  destruct (span_nonspace (a1 ++ 10%N :: t)) as [[|c x] after] eqn:E2; [done|].
  apply span_line in E2 as (a2 & -> & ->).
  destruct (strip_prefix MARKER_CLOSE _) as [r|] eqn:E3; [|done]. intros [= <- <-].
  apply strip_prefix_line in E3 as (a3 & -> & ->); [|by_compute].
  exists a3. split; [done|]. rewrite !length_app. cbn. lia.
Qed.

Lemma span_nonspace_stop fp x t :
  no_space fp = true -> is_space x = true -> span_nonspace (fp ++ x :: t) = (fp, x :: t).
Proof.
  intros Hf Hx. induction fp as [|c fp IH]; cbn in *; [by rewrite Hx|].
  apply andb_true_iff in Hf as [Hc Hf]. apply negb_true_iff in Hc as ->. by rewrite IH.
Qed.

Lemma all_nonspace_spec s : all_nonspace s = true <-> s <> [] /\ no_space s = true.
Proof.
  unfold all_nonspace, no_space. rewrite andb_true_iff, negb_true_iff.
  destruct s; cbn; naive_solver.
Qed.

Lemma MARKER_OPEN_head : MARKER_OPEN = 60%N :: drop 1 MARKER_OPEN.
Proof. by vm_compute. Qed.
Lemma MARKER_CLOSE_head : MARKER_CLOSE = 32%N :: drop 1 MARKER_CLOSE.
Proof. by vm_compute. Qed.

Lemma strip_prefix_app p s : strip_prefix p (p ++ s) = Some s.
Proof.
  unfold strip_prefix. rewrite (proj2 (startswith_spec _ _)) by eauto. by rewrite drop_app_length.
Qed.

Lemma match_marker_marker fp : all_nonspace fp = true -> match_marker (marker fp) = Some (fp, []).
Proof.
  intros [Hne Hf]%all_nonspace_spec. unfold match_marker, marker. rewrite strip_prefix_app.
  assert (span_nonspace (fp ++ MARKER_CLOSE) = (fp, MARKER_CLOSE)) as ->
    by (rewrite MARKER_CLOSE_head; by apply span_nonspace_stop).
  destruct fp as [|c fp]; [done|]. rewrite <-(app_nil_r MARKER_CLOSE) at 2.
  by rewrite strip_prefix_app.
Qed.

Lemma marker_head fp : exists m, marker fp = 60%N :: m.
Proof. unfold marker. rewrite MARKER_OPEN_head. eexists. reflexivity. Qed.

Lemma match_marker_newline t : match_marker (10%N :: t) = None.
Proof. unfold match_marker, strip_prefix. by rewrite MARKER_OPEN_head. Qed.

Lemma find_markers_cons n c s :
  find_markers (S n) (c :: s) =
    match match_marker (c :: s) with
    | Some (fp, rest) => fp :: find_markers n rest
    | None => find_markers n s
    end.
Proof. reflexivity. Qed.

Lemma find_markers_marker n fp : all_nonspace fp = true -> find_markers (S n) (marker fp) = [fp].
Proof.
  intros Hf. pose proof (match_marker_marker fp Hf) as Hm. destruct (marker_head fp) as [m Em].
  rewrite Em in *. clear Em. rewrite find_markers_cons, Hm. by destruct n.
Qed.

(** The marker on the last line of a body is the last match in it, whatever the lines above say. *)
Lemma find_markers_last n pre fp :
  all_nonspace fp = true -> (length pre + 1 < n)%nat ->
  last (find_markers n (pre ++ 10%N :: marker fp)) = Some fp.
Proof.
  intros Hf. revert pre; induction n as [|n IH]; intros pre Hn; [lia|].
  destruct pre as [|c pre]; cbn [length] in Hn; cbn [app].
  - rewrite find_markers_cons, match_marker_newline. destruct n as [|n]; [lia|].
    by rewrite find_markers_marker.
  - rewrite find_markers_cons. destruct (match_marker _) as [[x rest]|] eqn:E.
    + apply (match_marker_line (c :: pre)) in E as (a' & -> & Hl). cbn [length] in Hl.
      rewrite last_cons, IH by lia. done.
    + apply IH. lia.
Qed.

Lemma rev_head_last {A} (l : list A) : head (List.rev l) = last l.
Proof. rewrite <-head_reverse. f_equal. unfold reverse. by rewrite rev_alt. Qed.

Lemma length_marked pre fp : (length pre + 1 < length (pre ++ 10%N :: marker fp))%nat.
Proof.
  destruct (marker_head fp) as [m Em]. rewrite Em, length_app. cbn [length]. lia.
Qed.

Lemma markers_last pre fp :
  all_nonspace fp = true -> last (markers (pre ++ 10%N :: marker fp)) = Some fp.
Proof. intros Hf. exact (find_markers_last _ pre fp Hf (length_marked pre fp)). Qed.

(** ** Lemmas: classifications *)

Section loaded.
Context `{PyHost}.

Lemma hex_text_no_space s : Forall (fun c => lower_hex c = true) s -> no_space s = true.
Proof.
  intros Hs. apply forallb_forall. intros x Hx%list_elem_of_In.
  rewrite Forall_forall in Hs. by apply lower_hex_no_space, Hs.
Qed.

Lemma digest_no_space n m : no_space (take n (sha256_hex m)) = true.
Proof.
  apply hex_text_no_space, Forall_take. by apply (all_hex_spec 64), sha256_hex_shape.
Qed.

Lemma no_space_app a b : no_space (a ++ b) = no_space a && no_space b.
Proof. apply forallb_app. Qed.

Lemma alert_monitor_failure_fields reason cls :
  alert_monitor_failure reason = Ok cls ->
  get cls "state" = JStr "monitor_failure" /\ get cls "alert" = JBool true /\
  exists s, get cls "fingerprint" = JStr s /\ all_nonspace s = true.
Proof.
  unfold alert_monitor_failure. intros (b & _ & [= <-])%bind_ok. split_and!; [done..|].
  exists (lit "monitor_failure:none#" ++ take 12 (sha256_hex b)). split; [done|].
  apply all_nonspace_spec. split; [done|]. by rewrite no_space_app, digest_no_space.
Qed.

(** What [reconcile] may rely on. *)
Definition loaded (cls : json) : Prop := exists path, load_classification path = Ok cls.

Lemma schema_problem_fingerprint payload :
  schema_problem payload = None ->
  exists s, get payload "fingerprint" = JStr s /\ all_nonspace s = true.
Proof.
  assert (forall (b : bool) (x : pystr) r, (if b then Some x else r) = None -> b = false /\ r = None)
    as Hstep by (by intros []).
  unfold schema_problem. intros [_ Hp]%Hstep. do 4 apply Hstep in Hp as [_ Hp].
  apply Hstep in Hp as [Hf _]. apply negb_false_iff in Hf.
  destruct (get payload "fingerprint"); try done. eauto.
Qed.

Lemma loaded_facts cls :
  loaded cls ->
  (exists b, get cls "alert" = JBool b) /\
  exists s, get cls "fingerprint" = JStr s /\ all_nonspace s = true.
Proof.
  intros [path Hl]. unfold load_classification in Hl.
  assert (forall reason, alert_monitor_failure reason = Ok cls ->
    (exists b, get cls "alert" = JBool b) /\
    exists s, get cls "fingerprint" = JStr s /\ all_nonspace s = true) as Hm
    by (intros r (_ & ? & ?)%alert_monitor_failure_fields; eauto).
  destruct path as [[payload|exc]|]; [|by eapply Hm..].
  destruct payload as [| | | | | |d]; try by eapply Hm.
  destruct (get (JObj d) "state") as [| | | |state| |]; try by eapply Hm.
  destruct (negb (str_in _ _)); [by eapply Hm|].
  destruct (get (JObj d) "alert") as [|b| | | | |] eqn:Ea; cbn [negb] in Hl; try by eapply Hm.
  destruct (negb (Bool.eqb _ _)); [by eapply Hm|].
  destruct (schema_problem (JObj d)) eqn:Es; [by eapply Hm|]. injection Hl as <-.
  split; [by exists b|by apply schema_problem_fingerprint].
Qed.

Lemma alert_fingerprint_loaded cls s :
  get cls "fingerprint" = JStr s -> all_nonspace s = true -> alert_fingerprint cls = s.
Proof.
  intros Hf [Hne _]%all_nonspace_spec. unfold alert_fingerprint. rewrite Hf. by destruct s.
Qed.

Lemma loaded_fingerprint cls : loaded cls -> all_nonspace (alert_fingerprint cls) = true.
Proof. intros (_ & s & Hf & Hs)%loaded_facts. by erewrite alert_fingerprint_loaded. Qed.

(** *** From the classifier *)

Lemma or_none_no_space o :
  (forall s, o = Some s -> is_commit_str s = true) -> no_space (or_none o) = true.
Proof.
  intros Ho. destruct o as [s|]; [|done].
  destruct (hex_no_space 40 s (Ho s eq_refl)) as [Hs _]. by destruct s.
Qed.

Lemma fingerprint_nonspace expected main c p :
  well_formed expected main c -> fingerprint c = Ok p -> all_nonspace p = true.
Proof.
  intros Hc Hp. pose proof (wf_commits _ _ _ Hc) as Hs. rewrite !Forall_cons in Hs.
  destruct Hs as (Hl & Hf & Ha & _). apply fingerprint_parts in Hp as [-> Hk].
  rewrite (fingerprint_base_parts _ _ _ Hc).
  apply all_nonspace_spec. split; [by destruct (c_state c)|].
  assert (no_space (identity_part c) = true) as Hi.
  { unfold identity_part. destruct (c_live_commit c) as [l|]; [by apply or_none_no_space|].
    apply or_none_no_space in Hf, Ha.
    destruct (c_frontend_commit c), (c_api_commit c); rewrite ?no_space_app, ?Hf; try done;
      change (no_space (47%N :: ?x)) with (no_space x); by rewrite Ha. }
  assert (no_space (print_suffix (cause_key c) (c_schaubild c)) = true) as Hx.
  { unfold print_suffix. rewrite no_space_app. apply andb_true_iff. split.
    - destruct (cause_key c) as [r|]; [|done]. destruct (Hk r eq_refl) as (d & -> & Hd).
      by eapply (forallb_weaken _ _ d), Hd; apply lower_hex_no_space.
    - by destruct (c_schaubild c) as [[]|]. }
  rewrite !no_space_app, Hx. change (no_space (58%N :: ?x)) with (no_space x). rewrite Hi.
  by destruct (c_state c).
Qed.

Lemma payload_keys c p :
  exists d, classification_payload c p = JObj d /\ NoDup (dkeys d).
Proof. eexists. split; [reflexivity|]. by_compute. Qed.

Lemma schema_problem_None payload expected main live reason fp :
  get payload "schema_version" = JInt 1 ->
  get payload "expected_commit" = JStr expected -> is_commit_str expected = true ->
  get payload "main_commit" = JStr main -> is_commit_str main = true ->
  get payload "live_commit" = opt_json live -> (forall s, live = Some s -> is_commit_str s = true) ->
  get payload "reason" = JStr reason ->
  get payload "fingerprint" = JStr fp -> all_nonspace fp = true ->
  (get payload "state" = JStr "current" -> main = expected /\ live = Some expected) ->
  schema_problem payload = None.
Proof.
  intros Hv He Hec Hm Hmc Hl Hlc Hr Hf Hfp Hcur. unfold schema_problem.
  rewrite Hv, He, Hm, Hl, Hr, Hf. cbn [is_commit is_str py_eq num_eqb int_of]. rewrite Hec, Hmc, Hfp.
  assert (negb (is_none (opt_json live)) && negb (is_commit (opt_json live)) = false) as ->.
  { destruct live as [s|]; [|done]. cbn. by rewrite (Hlc s). }
  cbn [negb Z.eqb Pos.eqb]. destruct (py_eq (get payload "state") (JStr "current")) eqn:E; [|done].
  apply py_eq_str in E. destruct (Hcur E) as [-> ->]. cbn. by rewrite !str_eqb_refl.
Qed.

End loaded.

(** ** Properties *)

Section properties.
Context `{PyHost}.

Lemma state_known s :
  str_in (state_name s) (ALERTING_STATES ++ NON_ALERTING_STATES) = true /\
  str_in (state_name s) ALERTING_STATES = negb (non_alerting s).
Proof. by destruct s. Qed.

Lemma payload_loads expected main c p entries d :
  is_commit_str expected = true -> is_commit_str main = true -> well_formed expected main c ->
  fingerprint c = Ok p -> classification_payload c p = JObj d -> entries ≡ₚ d ->
  load_classification (Some (Ok (JObj entries))) = Ok (JObj entries) /\
  get (JObj entries) "alert" = JBool (c_alert c) /\
  get (JObj entries) "state" = JStr (state_name (c_state c)) /\
  alert_fingerprint (JObj entries) = p.
Proof.
  intros He Hm Hc Hp Hd Hperm.
  assert (forall k, get (JObj entries) k = get (classification_payload c p) k) as Hget.
  { intros k. destruct (payload_keys c p) as (d' & Hd' & Hn). rewrite Hd in *. injection Hd' as <-.
    cbn. f_equal. symmetry. by apply dget_perm. }
  pose proof (fingerprint_nonspace _ _ _ _ Hc Hp) as Hfp.
  destruct (state_known (c_state c)) as [Hk1 Hk2].
  assert (schema_problem (JObj entries) = None) as Hs.
  { pose proof (wf_commits _ _ _ Hc) as Hw. apply Forall_cons in Hw as [Hw _].
    apply (schema_problem_None _ expected main (c_live_commit c) (c_reason c) p);
      try rewrite Hget; try done.
    - change (JInt (c_schema_version c) = JInt 1). by rewrite (wf_version _ _ _ Hc).
    - change (JStr (c_expected_commit c) = JStr expected). by rewrite (wf_expected _ _ _ Hc).
    - change (JStr (c_main_commit c) = JStr main). by rewrite (wf_main _ _ _ Hc).
    - change (JStr (state_name (c_state c)) = JStr "current" -> main = expected /\
        c_live_commit c = Some expected).
      intros [= Hcur]. apply (wf_current _ _ _ Hc). by apply state_name_inj. }
  assert (get (JObj entries) "alert" = JBool (c_alert c)) as Ha by by rewrite Hget.
  assert (get (JObj entries) "state" = JStr (state_name (c_state c))) as Hst by by rewrite Hget.
  split_and!; [|done|done|].
  - unfold load_classification. rewrite Hst, Ha, Hk1, Hk2, (wf_alert _ _ _ Hc), Bool.eqb_reflx, Hs.
    done.
  - apply alert_fingerprint_loaded; [|done]. by rewrite Hget.
Qed.

(** Classifier and alert client agree.  Every payload a classifier run writes is accepted by
    [load_classification] unchanged, in whatever order its keys are read back: the alert flag is
    the exit code, the fingerprint is the classifier's, and no run is turned into a
    [monitor_failure] on the way. *)
Theorem classification_accepted expected main grace now is_ancestor rollout receipt schaubild
    code payload entries d
    (Hrun : classify_main expected main grace now is_ancestor rollout receipt schaubild =
              Ok (code, Some payload))
    (Hpayload : payload = JObj d) (Hread : entries ≡ₚ d) :
  let c := run_classification expected main grace now is_ancestor rollout receipt schaubild in
  load_classification (Some (Ok (JObj entries))) = Ok (JObj entries) /\
  get (JObj entries) "alert" = JBool (negb (code =? 0)) /\
  get (JObj entries) "state" = JStr (state_name (c_state c)) /\
  fingerprint c = Ok (alert_fingerprint (JObj entries)).
Proof.
  cbn zeta. unfold classify_main in Hrun.
  destruct (is_commit_str expected) eqn:He; [|done]. destruct (is_commit_str main) eqn:Hm; [|done].
  destruct (grace <? 0); [done|]. cbn [andb negb orb] in Hrun.
  set (c := run_classification _ _ _ _ _ _ _ _) in *.
  apply bind_ok in Hrun as (p & Hp & Hrun). injection Hrun as <- Hpl.
  destruct (payload_loads expected main c p entries d He Hm) as (Hl & Ha & Hs & Hf);
    [apply run_well_formed|done|congruence|done|].
  rewrite Hl, Ha, Hs, Hp, Hf. split_and!; try done. by destruct (c_alert c).
Qed.

Lemma trusted_filter fp l :
  foldM fingerprint_step fp l =
  foldM fingerprint_step fp (List.filter (fun e => is_dict e && trusted_alert_author e) l).
Proof.
  assert (forall fp e, is_dict e && trusted_alert_author e = false -> fingerprint_step fp e = Ok fp)
    as Hskip.
  { intros fp0 e He. unfold fingerprint_step. by rewrite <-negb_andb, He. }
  revert fp; induction l as [|e l IH]; intros fp; [done|]. cbn [foldM List.filter].
  destruct (is_dict e && trusted_alert_author e) eqn:E; [|rewrite (Hskip _ _ E); apply IH].
  cbn [foldM]. destruct (fingerprint_step fp e); cbn; [apply IH|done].
Qed.

Lemma step_marked shown entry text fp :
  is_dict entry = true -> trusted_alert_author entry = true ->
  get entry "body" = JStr (text ++ 10%N :: marker fp) -> all_nonspace fp = true ->
  fingerprint_step shown entry = Ok (Some fp).
Proof.
  intros Hd Ht Hb Hf. unfold fingerprint_step, body_text. rewrite Hd, Ht, Hb.
  cbn [negb orb mbind result_bind]. pose proof (markers_last text fp Hf) as Hm.
  rewrite <-rev_head_last in Hm. destruct (List.rev _); [done|]. by injection Hm as ->.
Qed.

(** Only entries of the verified service identity count.  Two comment lists that agree on its
    entries show the same fingerprint, whatever others wrote, hidden markers included; and the
    marker at the end of the last trusted entry is what is read, whatever the text above it. *)
Theorem latest_fingerprint_trusted issue1 issue2 comments1 comments2 :
  (List.filter (fun e => is_dict e && trusted_alert_author e) (issue1 :: comments1) =
   List.filter (fun e => is_dict e && trusted_alert_author e) (issue2 :: comments2) ->
   latest_fingerprint issue1 comments1 = latest_fingerprint issue2 comments2) /\
  (forall entry text fp shown, is_dict entry = true -> trusted_alert_author entry = true ->
     get entry "body" = JStr (text ++ 10%N :: marker fp) -> all_nonspace fp = true ->
     latest_fingerprint issue1 comments1 = Ok shown ->
     latest_fingerprint issue1 (comments1 ++ [entry]) = Ok (Some fp)).
Proof.
  unfold latest_fingerprint. split.
  - intros E. rewrite trusted_filter, E. symmetry. apply trusted_filter.
  - intros entry text fp shown Hd Ht Hb Hf Hs.
    change (issue1 :: comments1 ++ [entry]) with ((issue1 :: comments1) ++ [entry]).
    rewrite foldM_app, Hs. cbn [mbind result_bind foldM].
    by rewrite (step_marked shown entry text fp).
Qed.

End properties.

#[local] Existing Instance ascii_host.

Lemma classification_accepted_witness :
  exists entries, load_classification (Some (Ok (JObj entries))) = Ok (JObj entries) /\
    get (JObj entries) "alert" = JBool true.
Proof.
  destruct (classify_main (demo_commit_of 1) (demo_commit_of 1) 1200 0 (fun _ _ => None)
    (fun _ _ => None) (Err []) None) as [[code [[| | | | | |d]|]]|] eqn:E; try by vm_compute in E.
  assert (code = 1) as -> by (vm_compute in E; by injection E).
  destruct (classification_accepted (demo_commit_of 1) (demo_commit_of 1) 1200 0 (fun _ _ => None)
    (fun _ _ => None) (Err []) None 1 (JObj d) (sort_items d) d E eq_refl (sort_by_perm _ _))
    as (Hl & Ha & _).
  exists (sort_items d). split; [exact Hl|exact Ha].
Defined.

Definition demo_entry (login : pystr) (id : Z) (body : pystr) : json :=
  JObj [(lit "user", JObj [(lit "login", JStr login); (lit "id", JInt id)]); (lit "body", JStr body)].

Lemma latest_fingerprint_trusted_witness :
  latest_fingerprint (demo_entry ALERT_BOT_LOGIN ALERT_BOT_ID (10%N :: marker "stale:a"))
    [demo_entry "mallory" 7 (10%N :: marker "none:b")] = Ok (Some (lit "stale:a")) /\
  latest_fingerprint JNull ([] ++ [demo_entry ALERT_BOT_LOGIN ALERT_BOT_ID ([] ++ 10%N :: marker "x:y")])
    = Ok (Some (lit "x:y")).
Proof.
  split.
  - rewrite (proj1 (latest_fingerprint_trusted _
      (demo_entry ALERT_BOT_LOGIN ALERT_BOT_ID (10%N :: marker "stale:a")) _ [])); by vm_compute.
  - apply (proj2 (latest_fingerprint_trusted JNull JNull [] []) _ [] (lit "x:y") None); by vm_compute.
Defined.
