(* ===== verification/AlertStore.v ===== *)
(** * A repository under the alert client

    [Store] is a repository with the documented behaviour of the REST calls of [IssueApi]: issues
    in creation order, listed by label a hundred at a time, comments in pages, labels that must
    exist before they stick, assignees GitHub may refuse.  A script of faults says which calls are
    refused or lose their answer.  On it the state machine of the production alert is stated: the
    abstract state is the fingerprint of the open alert, and every run of [reconcile] refines one
    step of it. *)

From S2P Require Import Prelude PyStr Effects Json JsonText Sha256 ReleaseVerify LiveState AlertIssue.
Open Scope Z_scope.

(** ** The repository *)

Record note : Type := Note { nt_user : json; nt_body : pystr }.

Record issue : Type := Issue {
  i_number : Z;
  i_title : pystr;
  i_body : pystr;
  i_labels : list pystr;
  i_user : json;
  i_assignees : list pystr;
  i_open : bool;
  i_pull : bool;
  i_notes : list note;
}.

Record Store : Type := MkStore {
  st_issues : list issue;
  st_labels : list pystr;
  st_next : Z;
  st_faults : list fault;
}.

Definition bot : json := JObj [(lit "login", JStr ALERT_BOT_LOGIN); (lit "id", JInt ALERT_BOT_ID)].
Definition login_json (a : pystr) : json := JObj [(lit "login", JStr a)].
Definition label_json (l : pystr) : json := JObj [(lit "name", JStr l)].
Definition note_json (n : note) : json :=
  JObj [(lit "user", nt_user n); (lit "body", JStr (nt_body n))].
Definition issue_json (i : issue) : json :=
  JObj ([(lit "number", JInt (i_number i)); (lit "title", JStr (i_title i));
         (lit "body", JStr (i_body i)); (lit "user", i_user i);
         (lit "labels", JList (label_json <$> i_labels i));
         (lit "assignees", JList (login_json <$> i_assignees i))]
        ++ if i_pull i then [(lit "pull_request", JObj [])] else []).

Definition set_issues (s : Store) (l : list issue) : Store :=
  MkStore l (st_labels s) (st_next s) (st_faults s).
Definition add_note (n : note) (i : issue) : issue :=
  Issue (i_number i) (i_title i) (i_body i) (i_labels i) (i_user i) (i_assignees i) (i_open i)
    (i_pull i) (i_notes i ++ [n]).
Definition close_issue (i : issue) : issue :=
  Issue (i_number i) (i_title i) (i_body i) (i_labels i) (i_user i) (i_assignees i) false
    (i_pull i) (i_notes i).
Definition assign (a : pystr) (i : issue) : issue :=
  Issue (i_number i) (i_title i) (i_body i) (i_labels i) (i_user i) (i_assignees i ++ [a])
    (i_open i) (i_pull i) (i_notes i).

Definition numbered (n : Z) (i : issue) : bool := i_number i =? n.
Definition lookup_issue (n : Z) (s : Store) : option issue :=
  List.find (numbered n) (st_issues s).
Definition on_issue (n : Z) (f : issue -> issue) (s : Store) : Store :=
  set_issues s ((fun i => if numbered n i then f i else i) <$> st_issues s).
Definition page_of {A} (page : Z) (l : list A) : list A :=
  take 100 (drop (100 * (Z.to_nat page - 1)) l).
Definition labelled (label : pystr) (i : issue) : bool := i_open i && str_in label (i_labels i).

#[export] Program Instance store_faulty : Faulty Store := {|
  faults := st_faults;
  with_faults s fs := MkStore (st_issues s) (st_labels s) (st_next s) fs;
|}.
Solve Obligations with by intros []. 

Definition missing {A} : eff Store A := throw HTTPError "HTTP Error 404: Not Found".

Section api.
(** Whom GitHub lets assign. *)
Context (assignable : pystr -> bool).

Definition at_number {A} (number : json) (m : Z -> issue -> eff Store A) : eff Store A := fun s =>
  match number with
  | JInt n => match lookup_issue n s with Some i => m n i s | None => missing s end
  | _ => missing s
  end.

#[export] Instance store_api : IssueApi Store := {|
  api_open_issues label := call (fun s =>
    (Ok (issue_json <$> take 100 (List.filter (labelled label) (st_issues s))), s));
  api_comments number page := call (at_number number (fun _ i s =>
    (Ok (note_json <$> page_of page (i_notes i)), s)));
  api_create_label label := call (fun s =>
    if str_in label (st_labels s) then (Ok (Some 422), s)
    else (Ok None, MkStore (st_issues s) (st_labels s ++ [label]) (st_next s) (st_faults s)));
  api_create_issue title body label := call (fun s =>
    let i := Issue (st_next s) title body
               (if str_in label (st_labels s) then [label] else []) bot [] true false [] in
    (Ok (issue_json i),
     MkStore (st_issues s ++ [i]) (st_labels s) (st_next s + 1) (st_faults s)));
  api_add_assignee number a := call (at_number number (fun n i s =>
    let f := if assignable a then assign a else id in
    (Ok (issue_json (f i)), on_issue n f s)));
  api_comment number body := call (at_number number (fun n i s =>
    (Ok tt, on_issue n (add_note (Note bot body)) s)));
  api_close number := call (at_number number (fun n i s => (Ok tt, on_issue n close_issue s)));
|}.
End api.

(** ** The abstract state *)

Definition trusted (i : issue) : bool := trusted_alert_author (issue_json i).
Definition is_alert (i : issue) : bool := labelled ALERT_LABEL i && negb (i_pull i) && trusted i.
Definition alerts (s : Store) : list issue := List.filter is_alert (st_issues s).
Definition foreign (s : Store) : list issue :=
  List.filter (fun i => labelled ALERT_LABEL i && negb (is_alert i)) (st_issues s).

(** The last marker a trusted author left on an issue. *)
Definition last_marker (body : pystr) (otherwise : option pystr) : option pystr :=
  match List.rev (markers body) with fp :: _ => Some fp | [] => otherwise end.
Definition trusted_note (n : note) : bool := trusted_alert_author (note_json n).
Definition shown_fingerprint (i : issue) : option pystr :=
  foldl (fun fp n => if trusted_note n then last_marker (nt_body n) fp else fp)
    (if trusted i then last_marker (i_body i) None else None) (i_notes i).

(** [None] without an open alert, otherwise the fingerprint it shows. *)
Definition view (s : Store) : option (option pystr) := head (shown_fingerprint <$> alerts s).

Definition is_alerting (classification : json) : bool :=
  match get classification "alert" with JBool b => b | _ => false end.

(** One abstract run: what a classification does to the alert. *)
Definition alert_step `{PyHost} (classification : json) (shown : option (option pystr))
    : action * option (option pystr) :=
  let fp := alert_fingerprint classification in
  if is_alerting classification then
    match shown with
    | None => (opened, Some (Some fp))
    | Some f => if decide (f = Some fp) then (unchanged, shown) else (updated, Some (Some fp))
    end
  else
    match shown with
    | Some _ =>
        if py_eq (get classification "state") (JStr "current") then (resolved, None)
        else (unchanged, shown)
    | None => (unchanged, None)
    end.

(** Issue numbers are distinct, positive and below the next one; there is at most one alert, and
    the listing has room for every labelled issue. *)
Record sound (s : Store) : Prop := Sound {
  sd_nodup : NoDup (i_number <$> st_issues s);
  sd_numbers : Forall (fun i => 0 < i_number i < st_next s) (st_issues s);
  sd_single : (length (alerts s) <= 1)%nat;
  sd_room : (length (foreign s) < 100)%nat;
  sd_next : 0 < st_next s;
}.

(** ** Lemmas: reading the repository *)

Lemma filter_fmap {A B} (p : B -> bool) (f : A -> B) l :
  List.filter p (f <$> l) = f <$> List.filter (fun x => p (f x)) l.
Proof. induction l as [|x l IH]; cbn; [done|]. rewrite IH. by destruct (p (f x)). Qed.

Lemma filter_filter {A} (p q : A -> bool) l :
  List.filter p (List.filter q l) = List.filter (fun x => q x && p x) l.
Proof.
  induction l as [|x l IH]; cbn; [done|]. destruct (q x); cbn; [|done]. by rewrite IH.
Qed.

Lemma filter_ext_b {A} (p q : A -> bool) l :
  (forall x, p x = q x) -> List.filter p l = List.filter q l.
Proof. intros E. induction l as [|x l IH]; cbn; [done|]. by rewrite E, IH. Qed.

Lemma length_split {A} (p q : A -> bool) l :
  length (List.filter p l) =
    (length (List.filter (fun x => p x && q x) l) +
     length (List.filter (fun x => p x && negb (p x && q x)) l))%nat.
Proof. induction l as [|x l IH]; cbn; [done|]. destruct (p x), (q x); cbn; lia. Qed.

(** What the listing shows of an issue. *)
Lemma issue_json_user i : get (issue_json i) "user" = i_user i.
Proof. reflexivity. Qed.
Lemma issue_json_number i : get (issue_json i) "number" = JInt (i_number i).
Proof. reflexivity. Qed.
Lemma item_number `{PyHost} i : item (issue_json i) "number" = Ok (JInt (i_number i)).
Proof. reflexivity. Qed.
Lemma issue_json_assignees i : get (issue_json i) "assignees" = JList (login_json <$> i_assignees i).
Proof. reflexivity. Qed.
Lemma issue_json_pull i :
  match issue_json i with JObj d => dmem d "pull_request" | _ => false end = i_pull i.
Proof. unfold issue_json. by destruct (i_pull i). Qed.

Lemma is_alert_labelled i : is_alert i = labelled ALERT_LABEL i && (negb (i_pull i) && trusted i).
Proof. unfold is_alert. by rewrite andb_assoc. Qed.

Lemma labelled_bound s :
  sound s -> (length (List.filter (labelled ALERT_LABEL) (st_issues s)) <= 100)%nat.
Proof.
  intros [_ _ Hs Hr _]. rewrite (length_split _ (fun i => negb (i_pull i) && trusted i)).
  unfold alerts, foreign in *.
  rewrite (filter_ext_b is_alert (fun x => labelled ALERT_LABEL x && (negb (i_pull x) && trusted x)))
    in Hs by apply is_alert_labelled.
  rewrite (filter_ext_b (fun i => labelled ALERT_LABEL i && negb (is_alert i))
    (fun x => labelled ALERT_LABEL x && negb (labelled ALERT_LABEL x && (negb (i_pull x) && trusted x))))
    in Hr by (intros; by rewrite is_alert_labelled).
  lia.
Qed.

(** The JSON list that [open_issues] makes of the answer. *)
Lemma listed_alerts s :
  sound s ->
  List.filter trusted_alert_author
    (List.filter (fun i => negb match i with JObj d => dmem d "pull_request" | _ => false end)
       (issue_json <$> take 100 (List.filter (labelled ALERT_LABEL) (st_issues s)))) =
  issue_json <$> alerts s.
Proof.
  intros Hs. rewrite take_ge by by apply labelled_bound.
  rewrite filter_fmap, filter_fmap, filter_filter, filter_filter. unfold alerts. f_equal.
  apply filter_ext_b. intros i. unfold is_alert, trusted. by rewrite issue_json_pull, andb_assoc.
Qed.

Lemma step_entry fp e body :
  is_dict e = true -> get e "body" = JStr body ->
  fingerprint_step fp e = Ok (if trusted_alert_author e then last_marker body fp else fp).
Proof.
  intros Hd Hb. unfold fingerprint_step, body_text. rewrite Hd, Hb.
  by destruct (trusted_alert_author e).
Qed.

Lemma foldM_notes fp l :
  foldM fingerprint_step fp (note_json <$> l) =
  Ok (foldl (fun fp n => if trusted_note n then last_marker (nt_body n) fp else fp) fp l).
Proof.
  revert fp; induction l as [|n l IH]; intros fp; [done|].
  cbn [fmap list_fmap foldM foldl]. rewrite (step_entry fp (note_json n) (nt_body n)) by done.
  apply IH.
Qed.

Lemma latest_shown i :
  latest_fingerprint (issue_json i) (note_json <$> i_notes i) = Ok (shown_fingerprint i).
Proof.
  unfold latest_fingerprint, shown_fingerprint. cbn [foldM].
  rewrite (step_entry None (issue_json i) (i_body i)) by done. apply foldM_notes.
Qed.

Lemma find_number l i :
  NoDup (i_number <$> l) -> i ∈ l -> List.find (numbered (i_number i)) l = Some i.
Proof.
  intros Hn Hi. induction l as [|j l IH]; [by apply elem_of_nil in Hi|].
  cbn in *. apply NoDup_cons in Hn as [Hj Hn]. unfold numbered at 1.
  destruct (Z.eqb_spec (i_number j) (i_number i)) as [E|E].
  - apply elem_of_cons in Hi as [->|Hi]; [done|]. destruct Hj. rewrite E.
    by apply (list_elem_of_fmap_2 i_number).
  - apply elem_of_cons in Hi as [->|Hi]; [done|]. by apply IH.
Qed.

Lemma elem_of_filter_b {A} (p : A -> bool) l x : x ∈ List.filter p l <-> x ∈ l /\ p x = true.
Proof. rewrite !list_elem_of_In. apply filter_In. Qed.

Lemma lookup_alert s i : sound s -> i ∈ alerts s -> lookup_issue (i_number i) s = Some i.
Proof.
  intros Hs [Hi _]%elem_of_filter_b. apply find_number; [apply sd_nodup|done]. done.
Qed.

(** ** Lemmas: writing to the repository *)

(** A change of one issue that keeps its number and what the listing depends on. *)
Record keeps_listing (f : issue -> issue) : Prop := KeepsListing {
  kl_number i : i_number (f i) = i_number i;
  kl_labelled i : labelled ALERT_LABEL (f i) = labelled ALERT_LABEL i;
  kl_alert i : is_alert (f i) = is_alert i;
}.

Lemma keeps_listing_note n : keeps_listing (add_note n).
Proof. done. Qed.
Lemma keeps_listing_assign a : keeps_listing (assign a).
Proof. done. Qed.
Lemma keeps_listing_id : keeps_listing id.
Proof. done. Qed.

Lemma filter_update {A} (p q : A -> bool) (f : A -> A) l :
  (forall x, p (f x) = p x) ->
  List.filter p ((fun x => if q x then f x else x) <$> l) =
  (fun x => if q x then f x else x) <$> List.filter p l.
Proof.
  intros Hp. rewrite filter_fmap. f_equal. apply filter_ext_b. intros x. by destruct (q x).
Qed.

Lemma alerts_on_issue n f s :
  keeps_listing f ->
  alerts (on_issue n f s) = (fun i => if numbered n i then f i else i) <$> alerts s.
Proof. intros Hf. apply filter_update, Hf. Qed.

Lemma foreign_on_issue n f s :
  keeps_listing f ->
  foreign (on_issue n f s) = (fun i => if numbered n i then f i else i) <$> foreign s.
Proof.
  intros Hf. apply filter_update. intros i. by rewrite (kl_labelled _ Hf), (kl_alert _ Hf).
Qed.

Lemma numbers_on_issue n f s :
  (forall i, i_number (f i) = i_number i) ->
  i_number <$> st_issues (on_issue n f s) = i_number <$> st_issues s.
Proof.
  intros Hf. cbn. rewrite <-list_fmap_compose. apply list_fmap_ext. intros _ i _. cbn.
  by destruct (numbered n i).
Qed.

Lemma Forall_numbers (P : Z -> Prop) l :
  Forall (fun i => P (i_number i)) l <-> Forall P (i_number <$> l).
Proof. by rewrite Forall_fmap. Qed.

Lemma sound_on_issue n f s : keeps_listing f -> sound s -> sound (on_issue n f s).
Proof.
  intros Hf [Hn Hp Hs Hr Hx]. pose proof (numbers_on_issue n f s (kl_number _ Hf)) as En.
  constructor; [by rewrite En| | | |done].
  - apply (Forall_numbers (fun k => 0 < k < st_next s)). rewrite En. by apply Forall_numbers.
  - by rewrite alerts_on_issue, length_fmap.
  - by rewrite foreign_on_issue, length_fmap.
Qed.

Lemma filter_length_le {A} (p q : A -> bool) l :
  (forall x, p x = true -> q x = true) ->
  (length (List.filter p l) <= length (List.filter q l))%nat.
Proof.
  intros Hpq. induction l as [|x l IH]; cbn; [done|].
  destruct (p x) eqn:E; [rewrite (Hpq x E); cbn; lia|]. destruct (q x); cbn; lia.
Qed.

(** Closing an issue takes it off the listing and touches no other. *)
Lemma labelled_close i : labelled ALERT_LABEL (close_issue i) = false.
Proof. done. Qed.
Lemma is_alert_close i : is_alert (close_issue i) = false.
Proof. done. Qed.

Lemma alerts_close n s :
  alerts (on_issue n close_issue s) = List.filter (fun i => negb (numbered n i)) (alerts s).
Proof.
  unfold alerts, on_issue. cbn [st_issues set_issues]. rewrite filter_fmap.
  induction (st_issues s) as [|i l IH]; [done|]. cbn [List.filter].
  destruct (numbered n i) eqn:E; [rewrite is_alert_close|]; destruct (is_alert i); cbn [fmap list_fmap List.filter];
    rewrite ?E; cbn [negb]; try apply IH. f_equal. apply IH.
Qed.

Lemma sound_close n s : sound s -> sound (on_issue n close_issue s).
Proof.
  intros [Hn Hp Hs Hr Hx]. pose proof (numbers_on_issue n close_issue s (fun _ => eq_refl)) as En.
  constructor; [by rewrite En| | | |done].
  - apply (Forall_numbers (fun k => 0 < k < st_next s)). rewrite En. by apply Forall_numbers.
  - rewrite alerts_close. etransitivity; [apply List.filter_length_le|done].
  - eapply Nat.le_lt_trans; [|exact Hr]. unfold foreign, on_issue. cbn [st_issues set_issues].
    rewrite filter_fmap, length_fmap. apply filter_length_le. intros i.
    destruct (numbered n i); [by rewrite labelled_close|done].
Qed.

(** Appending an issue with the next number. *)
Definition append_issue (i : issue) (s : Store) : Store :=
  MkStore (st_issues s ++ [i]) (st_labels s) (st_next s + 1) (st_faults s).

Lemma alerts_append i s : alerts (append_issue i s) = alerts s ++ if is_alert i then [i] else [].
Proof. unfold alerts. cbn. by rewrite List.filter_app. Qed.

Lemma sound_append i s :
  sound s -> i_number i = st_next s ->
  (is_alert i = true -> alerts s = []) ->
  (labelled ALERT_LABEL i = true -> is_alert i = false -> (length (foreign s) + 1 < 100)%nat) ->
  sound (append_issue i s).
Proof.
  intros [Hn Hp Hs Hr Hx] Ei Ha Hf. constructor; cbn [append_issue st_issues st_next]; [| | | |lia].
  - rewrite fmap_app, NoDup_app. split_and!; [done| |apply NoDup_singleton].
    intros k Hk Hk'. apply list_elem_of_singleton in Hk' as ->. rewrite Ei in Hk.
    apply (Forall_numbers (fun k => 0 < k < st_next s)) in Hp. rewrite Forall_forall in Hp.
    specialize (Hp _ Hk). cbn in Hp. lia.
  - apply Forall_app. split; [eapply Forall_impl; [exact Hp|cbn; lia]|].
    apply Forall_singleton. lia.
  - rewrite alerts_append, length_app. destruct (is_alert i) eqn:E; [rewrite Ha by done; done|cbn; lia].
  - unfold foreign in *. cbn. rewrite List.filter_app, length_app. cbn.
    destruct (labelled ALERT_LABEL i) eqn:El, (is_alert i) eqn:E; cbn; try lia.
Qed.

(** What an issue of the client becomes. *)
Lemma bot_trusted_json n t b l a o p c :
  trusted_alert_author (issue_json (Issue n t b l bot a o p c)) = true.
Proof. unfold trusted_alert_author. rewrite issue_json_user. by vm_compute. Qed.

Lemma bot_trusted i : i_user i = bot -> trusted i = true.
Proof.
  intros Hu. unfold trusted, trusted_alert_author. rewrite issue_json_user, Hu. by vm_compute.
Qed.

(** ** Runs without faults *)

Section runs.
Context `{PyHost} (assignable : pystr -> bool) (assignee : pystr) (Hassignee : assignee <> []).
#[local] Instance runs_api : IssueApi Store := store_api assignable.

(** More pages than any issue has. *)
Definition page_bound (s : Store) : nat :=
  S (list_sum ((fun i => length (i_notes i)) <$> st_issues s)).

(** One run of the alert job. *)
Definition run (classification : json) (run_url : pystr) : eff Store action := fun s =>
  reconcile (Some assignee) (page_bound s) classification run_url s.

Lemma at_number_found {A} n (m : Z -> issue -> eff Store A) s i :
  lookup_issue n s = Some i -> at_number (JInt n) m s = m n i s.
Proof. unfold at_number. by intros ->. Qed.

(** The calls, one by one. *)
Section calls.
Context (s : Store) (Hc : calm s).

Lemma call_open_issues label :
  api_open_issues label s =
    (Ok (issue_json <$> take 100 (List.filter (labelled label) (st_issues s))), s).
Proof. exact (call_calm _ s Hc). Qed.

Lemma call_create_label label :
  api_create_label label s =
    if str_in label (st_labels s) then (Ok (Some 422), s)
    else (Ok None, MkStore (st_issues s) (st_labels s ++ [label]) (st_next s) (st_faults s)).
Proof. exact (call_calm _ s Hc). Qed.

Lemma call_create_issue title body label :
  let i := Issue (st_next s) title body
             (if str_in label (st_labels s) then [label] else []) bot [] true false [] in
  api_create_issue title body label s = (Ok (issue_json i), append_issue i s).
Proof. exact (call_calm _ s Hc). Qed.

Context (n : Z) (i : issue) (Hl : lookup_issue n s = Some i).

Lemma call_comments page :
  api_comments (JInt n) page s = (Ok (note_json <$> page_of page (i_notes i)), s).
Proof. etransitivity; [exact (call_calm _ s Hc)|]. exact (at_number_found n _ s i Hl). Qed.

Lemma call_add_assignee a :
  let f := if assignable a then assign a else id in
  api_add_assignee (JInt n) a s = (Ok (issue_json (f i)), on_issue n f s).
Proof. etransitivity; [exact (call_calm _ s Hc)|]. exact (at_number_found n _ s i Hl). Qed.

Lemma call_comment body :
  api_comment (JInt n) body s = (Ok tt, on_issue n (add_note (Note bot body)) s).
Proof. etransitivity; [exact (call_calm _ s Hc)|]. exact (at_number_found n _ s i Hl). Qed.

Lemma call_close : api_close (JInt n) s = (Ok tt, on_issue n close_issue s).
Proof. etransitivity; [exact (call_calm _ s Hc)|]. exact (at_number_found n _ s i Hl). Qed.
End calls.

Lemma open_issues_calm s :
  calm s -> sound s -> open_issues ALERT_LABEL s = (Ok (issue_json <$> alerts s), s).
Proof.
  intros Hc Hs. unfold open_issues. erewrite eff_bind_ok by by apply call_open_issues.
  rewrite str_eqb_refl. unfold mret, eff_ret. by rewrite listed_alerts.
Qed.

Lemma comment_pages_calm fuel n page result i s :
  calm s -> lookup_issue n s = Some i -> 1 <= page ->
  (length (drop (100 * (Z.to_nat page - 1)) (i_notes i)) < 100 * fuel)%nat ->
  comment_pages fuel (JInt n) page result s =
    (Ok (result ++ (note_json <$> drop (100 * (Z.to_nat page - 1)) (i_notes i))), s).
Proof.
  intros Hc Hl. revert page result; induction fuel as [|fuel IH]; intros page result Hp Hf; [lia|].
  cbn [comment_pages]. erewrite eff_bind_ok by by apply call_comments.
  unfold page_of. rewrite length_fmap, length_take.
  assert (drop (100 * (Z.to_nat (page + 1) - 1)) (i_notes i) =
    drop 100 (drop (100 * (Z.to_nat page - 1)) (i_notes i))) as Hnext
    by (rewrite drop_drop; f_equal; lia).
  set (rest := drop (100 * (Z.to_nat page - 1)) (i_notes i)) in *.
  destruct (Nat.ltb_spec (Nat.min 100 (length rest)) 100) as [Hlt|Hge].
  - rewrite take_ge by lia. done.
  - rewrite IH; [rewrite Hnext|lia|rewrite Hnext, length_drop; lia].
    by rewrite <-app_assoc, <-fmap_app, take_drop.
Qed.

(** Every comment is read, however many pages there are. *)
Lemma comments_calm bound n i s :
  calm s -> lookup_issue n s = Some i -> (length (i_notes i) < 100 * bound)%nat ->
  comments bound (JInt n) s = (Ok (note_json <$> i_notes i), s).
Proof.
  intros Hc Hl Hb. unfold comments. rewrite (comment_pages_calm _ _ _ _ i) by (done || lia). done.
Qed.

Lemma page_bound_enough s i : i ∈ st_issues s -> (length (i_notes i) < 100 * page_bound s)%nat.
Proof.
  intros Hi. unfold page_bound. apply list_elem_of_split in Hi as (l1 & l2 & ->).
  rewrite fmap_app, fmap_cons, list_sum_app. cbn [list_sum foldr]. lia.
Qed.

Lemma has_assignee_self i : assignee ∈ i_assignees i -> has_assignee (Some assignee) (issue_json i) = true.
Proof.
  intros Hi. unfold has_assignee. rewrite issue_json_assignees. apply existsb_exists.
  exists (login_json assignee). split.
  - apply list_elem_of_In. by apply list_elem_of_fmap_2.
  - change (str_eqb (casefold assignee) (casefold assignee) = true). apply str_eqb_refl.
Qed.

Lemma on_issue_id n s : on_issue n id s = s.
Proof.
  unfold on_issue, set_issues. destruct s as [l lb nx fs]. cbn. f_equal.
  rewrite <-(list_fmap_id l) at 2. apply list_fmap_ext. intros _ x _. by destruct (numbered n x).
Qed.

Lemma require_assignee_owner v :
  require_assignee (S := Store) (Some assignee) v =
    if has_assignee (Some assignee) v then mret tt
    else throw ValueError (lit "issue #" ++ to_str (get v "number")
                           ++ lit " has no verified alert assignee").
Proof. unfold require_assignee. by destruct assignee. Qed.

Lemma ensure_assignee_owner v :
  ensure_assignee (Some assignee) v =
    if has_assignee (Some assignee) v then mret tt
    else match get v "number" with
         | JInt n =>
             if n <? 1 then throw ValueError "alert issue has invalid number"
             else updated ← api_add_assignee (JInt n) assignee;
                  require_assignee (Some assignee) updated
         | _ => throw ValueError "alert issue has invalid number"
         end.
Proof. unfold ensure_assignee. by destruct assignee. Qed.

(** [ensure_assignee]: at most the assignees of the issue change, and it succeeds when GitHub
    accepts the owner. *)
Lemma ensure_assignee_calm n i s :
  calm s -> lookup_issue n s = Some i -> i_number i = n -> 0 < n ->
  exists r f, ensure_assignee (Some assignee) (issue_json i) s = (r, on_issue n f s) /\
    (f = id \/ f = assign assignee) /\
    (r = Ok tt \/ exists e, r = Err e /\ exn_class e = ValueError) /\
    (assignable assignee = true -> r = Ok tt).
Proof.
  intros Hc Hl Hn Hpos. rewrite ensure_assignee_owner.
  destruct (has_assignee (Some assignee) (issue_json i)) eqn:Eh.
  { exists (Ok tt), id. rewrite on_issue_id. split_and!; auto. }
  rewrite issue_json_number, Hn. destruct (Z.ltb_spec n 1); [lia|].
  erewrite eff_bind_ok by by apply call_add_assignee. rewrite require_assignee_owner.
  destruct (assignable assignee) eqn:Ep.
  - rewrite has_assignee_self by (cbn; apply elem_of_app; right; by apply list_elem_of_singleton).
    exists (Ok tt), (assign assignee). split_and!; auto.
  - cbn [id]. rewrite Eh. eexists _, id. split_and!; [reflexivity|auto| |done].
    right. by eexists.
Qed.

(** *** Messages: every issue opened and every comment written is one notification. *)

Definition messages (s : Store) : nat :=
  (length (st_issues s) + list_sum ((fun i => length (i_notes i)) <$> st_issues s))%nat.

Lemma messages_same n f s :
  (forall i, length (i_notes (f i)) = length (i_notes i)) -> messages (on_issue n f s) = messages s.
Proof.
  intros Hf. unfold messages, on_issue. cbn [st_issues set_issues]. rewrite length_fmap.
  f_equal. f_equal. rewrite <-list_fmap_compose. apply list_fmap_ext. intros _ i _. cbn.
  by destruct (numbered n i).
Qed.

Lemma notes_once n m l i :
  NoDup (i_number <$> l) -> List.find (numbered n) l = Some i ->
  list_sum ((fun i => length (i_notes (if numbered n i then add_note m i else i))) <$> l) =
    S (list_sum ((fun i => length (i_notes i)) <$> l)).
Proof.
  induction l as [|j l IH]; [done|]. rewrite !fmap_cons, !list_sum_cons. cbn [List.find].
  intros [Hj Hn]%NoDup_cons Hf. destruct (numbered n j) eqn:E.
  - assert ((fun i => length (i_notes (if numbered n i then add_note m i else i))) <$> l =
            (fun i => length (i_notes i)) <$> l) as ->.
    { apply list_fmap_ext. intros k x Hx. destruct (numbered n x) eqn:Ex; [|done].
      destruct Hj. unfold numbered in E, Ex. apply Z.eqb_eq in E, Ex. rewrite E, <-Ex.
      by apply (list_elem_of_fmap_2 i_number), list_elem_of_lookup_2 with k. }
    cbn [i_notes add_note]. rewrite length_app. cbn [length]. lia.
  - rewrite IH by done. lia.
Qed.

Lemma messages_note n m s i :
  sound s -> lookup_issue n s = Some i -> messages (on_issue n (add_note m) s) = S (messages s).
Proof.
  intros Hs Hl. unfold messages, on_issue. cbn [st_issues set_issues]. rewrite length_fmap.
  rewrite <-list_fmap_compose. unfold compose.
  rewrite (notes_once n m _ i); [lia|apply sd_nodup; done|done].
Qed.

Lemma messages_append i s : i_notes i = [] -> messages (append_issue i s) = S (messages s).
Proof.
  intros Hn. unfold messages, append_issue. cbn [st_issues].
  rewrite length_app, fmap_app, list_sum_app. cbn. rewrite Hn. cbn. lia.
Qed.

(** *** What an alert shows after each write. *)

Lemma shown_assign a i : shown_fingerprint (assign a i) = shown_fingerprint i.
Proof. reflexivity. Qed.

Lemma shown_note n i :
  shown_fingerprint (add_note n i) =
    if trusted_note n then last_marker (nt_body n) (shown_fingerprint i) else shown_fingerprint i.
Proof.
  unfold shown_fingerprint. cbn [i_notes add_note]. rewrite foldl_app. cbn [foldl].
  change (trusted (add_note n i)) with (trusted i). reflexivity.
Qed.

Lemma bot_note body : trusted_note (Note bot body) = true.
Proof. unfold trusted_note, trusted_alert_author. cbn [note_json]. by vm_compute. Qed.

Lemma last_marker_line pre fp otherwise :
  all_nonspace fp = true -> last_marker (pre ++ 10%N :: marker fp) otherwise = Some fp.
Proof.
  intros Hf. unfold last_marker. pose proof (markers_last pre fp Hf) as Hm.
  rewrite <-rev_head_last in Hm. by destruct (List.rev _).
Qed.

(** Whatever precedes it, the marker stands on a line of its own. *)
Lemma own_line (a m : pystr) : a ++ [10; 10]%N ++ m = (a ++ [10%N]) ++ 10%N :: m.
Proof. by rewrite <-app_assoc. Qed.

Lemma opening_body_line cls url fp : exists pre, opening_body cls url fp = pre ++ 10%N :: marker fp.
Proof.
  unfold opening_body. set (m := marker fp). clearbody m. do 4 rewrite app_assoc.
  rewrite own_line. by eexists.
Qed.
Lemma change_body_line cls url fp : exists pre, change_body cls url fp = pre ++ 10%N :: marker fp.
Proof.
  unfold change_body. set (m := marker fp). clearbody m. do 2 rewrite app_assoc.
  rewrite own_line. by eexists.
Qed.

(** *** The writes of [reconcile]. *)

Definition add_label (label : pystr) (s : Store) : Store :=
  if str_in label (st_labels s) then s
  else MkStore (st_issues s) (st_labels s ++ [label]) (st_next s) (st_faults s).

Lemma add_label_in label s : str_in label (st_labels (add_label label s)) = true.
Proof.
  unfold add_label. destruct (str_in label (st_labels s)) eqn:E; [done|].
  apply str_in_elem. cbn. apply elem_of_app. right. by apply list_elem_of_singleton.
Qed.

Lemma sound_add_label label s : sound s -> sound (add_label label s).
Proof. unfold add_label. destruct (str_in _ _); [done|]. by intros []. Qed.

Lemma ensure_label_calm label s : calm s -> ensure_label label s = (Ok tt, add_label label s).
Proof.
  intros Hc. unfold ensure_label, mbind, eff_bind. rewrite call_create_label by done.
  unfold add_label. by destruct (str_in _ _).
Qed.

Definition new_issue (label : pystr) (n : Z) (title body : pystr) : issue :=
  Issue n title body [label] bot [] true false [].
Definition new_alert := new_issue ALERT_LABEL.

Lemma new_alert_is_alert n title body : is_alert (new_alert n title body) = true.
Proof.
  unfold is_alert. rewrite bot_trusted by done. unfold labelled. cbn [i_open i_labels new_alert new_issue i_pull].
  rewrite (proj2 (str_in_elem _ _)) by by left. done.
Qed.

Lemma new_issue_label label n title body :
  py_in (JStr label) (label_names (issue_json (new_issue label n title body))) = true.
Proof. unfold py_in. change (label_names _) with [JStr label]. cbn. by rewrite str_eqb_refl. Qed.

(** What the exception handler of [create_issue] guards. *)
Definition checked (label : pystr) (v : json) : eff Store json :=
  (if py_in (JStr label) (label_names v) then mret tt
   else throw ValueError (lit "issue #" ++ to_str (get v "number")
                          ++ lit " was created without label " ++ repr_str label)) ;;
  (ensure_assignee (Some assignee) v ;; mret v).
Definition stranded (label : pystr) (v : json) (e : exn) : eff Store json :=
  match get v "number" with
  | JInt number =>
      if str_eqb label DRILL_LABEL && (0 <? number)
      then close_drill number ;; pure (Err e)
      else pure (Err e)
  | _ => pure (Err e)
  end.

Lemma create_issue_owner title body label :
  create_issue (Some assignee) title body label =
    (ensure_label label ;; v ← api_create_issue title body label;
     try_except [OSError; ValueError] (checked label v) (stranded label v)).
Proof. unfold create_issue, checked, stranded. by destruct assignee. Qed.

(** The issue is published before its owner is checked. *)
Lemma published_calm title body label s :
  calm s -> sound s ->
  let n := st_next s in
  let i := new_issue label n title body in
  let s1 := append_issue i (add_label label s) in
  create_issue (Some assignee) title body label s =
    try_except [OSError; ValueError] (checked label (issue_json i)) (stranded label (issue_json i)) s1 /\
  calm s1 /\ lookup_issue n s1 = Some i /\
  exists r f, checked label (issue_json i) s1 = (r, on_issue n f s1) /\
    (f = id \/ f = assign assignee) /\
    ((exists v, r = Ok v /\ v = issue_json i) \/ exists e, r = Err e /\ exn_class e = ValueError) /\
    (assignable assignee = true -> exists v, r = Ok v).
Proof.
  intros Hc Hs. cbn zeta. set (i := new_issue label (st_next s) title body).
  set (s0 := add_label label s). set (s1 := append_issue i s0).
  assert (calm s0) as Hc0 by (unfold s0, add_label, calm; by destruct (str_in _ _)).
  assert (st_next s0 = st_next s) as Hn0 by (unfold s0, add_label; by destruct (str_in _ _)).
  assert (sound s0) as Hs0 by by apply sound_add_label.
  assert (api_create_issue title body label s0 = (Ok (issue_json i), s1)) as Ecr.
  { rewrite call_create_issue by done. unfold s1, i, new_issue. rewrite <-Hn0.
    assert (str_in label (st_labels s0) = true) as -> by apply add_label_in. done. }
  assert (lookup_issue (st_next s) s1 = Some i) as Hl.
  { apply (find_number _ i).
    - cbn. rewrite fmap_app. apply NoDup_app. split_and!; [apply Hs0| |apply NoDup_singleton].
      intros k Hk Hk'. apply list_elem_of_singleton in Hk' as ->.
      pose proof (sd_numbers _ Hs0) as Hp. apply (Forall_numbers (fun k => 0 < k < st_next s0)) in Hp.
      rewrite Forall_forall in Hp. specialize (Hp _ Hk). cbn in Hp. lia.
    - cbn. apply elem_of_app. right. by apply list_elem_of_singleton. }
  split_and!; [|done|done|].
  - rewrite create_issue_owner. rewrite (eff_bind_ok _ _ _ _ _ (ensure_label_calm label s Hc)).
    fold s0. by rewrite (eff_bind_ok _ _ _ _ _ Ecr).
  - destruct (ensure_assignee_calm (st_next s) i s1) as (r & f & Er & Hf & Hr & Ha);
      [done|done|done|apply Hs|].
    unfold checked. pose proof (new_issue_label label (st_next s) title body) as Hlab.
    fold i in Hlab. rewrite Hlab. unfold mbind at 1 2, eff_bind at 1 2, mret at 1, eff_ret at 1.
    rewrite Er. destruct Hr as [->|(e & -> & He)].
    + eexists _, f. split_and!; [reflexivity|done|left; by eexists|by eexists].
    + exists (Err e), f. split_and!; [done|done|right; by eexists|by intros ?%Ha].
Qed.

Lemma create_calm title body s :
  calm s -> sound s ->
  let i := new_alert (st_next s) title body in
  exists r f, create_issue (Some assignee) title body ALERT_LABEL s =
      (r, on_issue (st_next s) f (append_issue i (add_label ALERT_LABEL s))) /\
    (f = id \/ f = assign assignee) /\
    ((exists v, r = Ok v) \/ exists e, r = Err e /\ exn_class e = ValueError) /\
    (assignable assignee = true -> exists v, r = Ok v).
Proof.
  intros Hc Hs i.
  destruct (published_calm title body ALERT_LABEL s Hc Hs) as (-> & _ & _ & r & f & Er & Hf & Hr & Ha).
  exists r, f. unfold try_except. fold i in Er |- *. change (new_issue ALERT_LABEL) with new_alert in *.
  fold i in Er |- *. rewrite Er. destruct Hr as [(v & -> & _)|(e & -> & He)].
  - split_and!; [done|done|left; by eexists|done].
  - rewrite He. change (existsb (issubclass ValueError) [OSError; ValueError]) with true.
    unfold stranded. rewrite issue_json_number. change (str_eqb ALERT_LABEL DRILL_LABEL) with false.
    cbn [andb]. split_and!; [done|done|right; by eexists|done].
Qed.

(** What a run leaves behind: a sound repository showing [shown], [k] notifications later. *)
Definition left (s : Store) (shown : option (option pystr)) (k : nat) (s' : Store) : Prop :=
  sound s' /\ calm s' /\ view s' = shown /\ messages s' = (messages s + k)%nat.

(** A run with action [act]: it fails only where GitHub refuses the owner. *)
Definition outcome (act : action) (r : result exn action) : Prop :=
  (r = Ok act \/ exists e, r = Err e /\ exn_class e = ValueError) /\
  (assignable assignee = true -> r = Ok act).

Lemma view_single s i : alerts s = [i] -> view s = Some (shown_fingerprint i).
Proof. unfold view. by intros ->. Qed.

Lemma owner_keeps f : f = id \/ f = assign assignee ->
  keeps_listing f /\ (forall i, shown_fingerprint (f i) = shown_fingerprint i) /\
  (forall i, i_notes (f i) = i_notes i).
Proof. by intros [->| ->]. Qed.

Lemma left_owner s i f :
  sound s -> calm s -> alerts s = [i] -> f = id \/ f = assign assignee ->
  left s (view s) 0 (on_issue (i_number i) f s).
Proof.
  intros Hs Hc Ha (Hk & Hsh & Hno)%owner_keeps. split_and!.
  - by apply sound_on_issue.
  - done.
  - unfold view. rewrite alerts_on_issue, Ha by done. cbn. unfold numbered.
    by rewrite Z.eqb_refl, Hsh.
  - rewrite messages_same; [lia|]. intros j. by rewrite Hno.
Qed.

(** An alerting run without an open alert opens one. *)
Lemma run_opens cls url s :
  sound s -> calm s -> loaded cls -> alerts s = [] ->
  exists r s', reconcile_alert (Some assignee) (page_bound s) cls url None s = (r, s') /\
    outcome opened r /\ left s (Some (Some (alert_fingerprint cls))) 1 s'.
Proof.
  intros Hs Hc Hl Ha. unfold reconcile_alert.
  set (fp := alert_fingerprint cls). set (body := opening_body cls url fp).
  destruct (create_calm (lit "Produktionsalarm: " ++ to_str (get cls "state")) body s Hc Hs)
    as (r & f & Er & Hf & Hr & Hok).
  set (s1 := add_label ALERT_LABEL s) in *. set (i := new_alert _ _ _) in *.
  assert (alerts s1 = [] /\ messages s1 = messages s /\ calm s1 /\ st_next s1 = st_next s)
    as (Ha1 & Hm1 & Hc1 & Hn1) by (unfold s1, add_label; by destruct (str_in _ _)).
  assert (sound (append_issue i s1)) as Hs2.
  { apply sound_append; [by apply sound_add_label|done|done|].
    unfold i. by rewrite new_alert_is_alert. }
  assert (alerts (append_issue i s1) = [i]) as Ha2
    by (rewrite alerts_append, Ha1; unfold i; by rewrite new_alert_is_alert).
  destruct (left_owner (append_issue i s1) i f) as (L1 & L2 & L3 & L4); [done..|].
  exists (match r with Ok _ => Ok opened | Err e => Err e end), (on_issue (st_next s) f (append_issue i s1)).
  split_and!.
  - unfold mbind, eff_bind. rewrite Er. by destruct r.
  - split.
    + destruct Hr as [[v ->]|(e & -> & He)]; [by left|right; by exists e].
    + intros [v ->]%Hok. done.
  - split_and!; [exact L1|exact L2| |].
    + etransitivity; [exact L3|]. rewrite (view_single _ i Ha2). f_equal.
      unfold shown_fingerprint, i. rewrite bot_trusted by done. cbn [i_notes new_alert foldl i_body].
      destruct (opening_body_line cls url fp) as [pre Hpre]. unfold body. rewrite Hpre.
      apply last_marker_line. by apply loaded_fingerprint.
    + etransitivity; [exact L4|]. rewrite messages_append by done. lia.
Qed.

(** A comment of the client on the open alert. *)
Lemma left_comment s i body :
  sound s -> calm s -> alerts s = [i] ->
  left s (Some (last_marker body (shown_fingerprint i))) 1
    (on_issue (i_number i) (add_note (Note bot body)) s).
Proof.
  intros Hs Hc Ha. split_and!.
  - apply sound_on_issue; [apply keeps_listing_note|done].
  - done.
  - unfold view. rewrite alerts_on_issue, Ha by apply keeps_listing_note. cbn [fmap list_fmap head].
    unfold numbered. by rewrite Z.eqb_refl, shown_note, bot_note.
  - rewrite (messages_note _ _ _ i); [lia|done|]. apply lookup_alert; [done|]. rewrite Ha. by left.
Qed.

Lemma single_alert s i :
  sound s -> alerts s = [i] ->
  lookup_issue (i_number i) s = Some i /\ 0 < i_number i /\ i ∈ st_issues s.
Proof.
  intros Hs Ha. assert (i ∈ alerts s) as Hi by (rewrite Ha; by left).
  split; [by apply lookup_alert|]. apply elem_of_filter_b in Hi as [Hi _]. split; [|done].
  pose proof (sd_numbers _ Hs) as Hp. rewrite Forall_forall in Hp. by apply Hp in Hi as [? _].
Qed.

(** An alerting run with an open alert comments exactly when the fingerprint changed. *)
Lemma run_comments cls url s i :
  sound s -> calm s -> loaded cls -> alerts s = [i] ->
  let fp := alert_fingerprint cls in
  let same := bool_decide (shown_fingerprint i = Some fp) in
  exists r s', reconcile_alert (Some assignee) (page_bound s) cls url (Some (issue_json i)) s = (r, s') /\
    outcome (if same then unchanged else updated) r /\
    left s (Some (Some fp)) (if same then 0 else 1)%nat s'.
Proof.
  intros Hs Hc Hl Ha. cbn zeta. unfold reconcile_alert. set (fp := alert_fingerprint cls).
  destruct (single_alert s i Hs Ha) as (Hlk & Hpos & Hin).
  rewrite (eff_bind_ok _ _ _ (JInt (i_number i)) s) by done.
  rewrite (eff_bind_ok _ _ _ _ _ (comments_calm _ _ i s Hc Hlk (page_bound_enough s i Hin))).
  rewrite (eff_bind_ok _ _ _ (shown_fingerprint i) s) by (unfold pure; by rewrite latest_shown).
  destruct (bool_decide_reflect (shown_fingerprint i = Some fp)) as [Heq|Hne]; cbn [negb].
  - rewrite (eff_bind_ok _ _ _ tt s) by done.
    destruct (ensure_assignee_calm (i_number i) i s Hc Hlk eq_refl Hpos) as (r & f & Er & Hf & Hr & Hok).
    pose proof (left_owner s i f Hs Hc Ha Hf) as Hleft. rewrite (view_single s i Ha), Heq in Hleft.
    unfold mbind, eff_bind. rewrite Er.
    exists (match r with Ok _ => Ok unchanged | Err e => Err e end), (on_issue (i_number i) f s).
    split_and!; [by destruct r| |exact Hleft].
    split; [destruct Hr as [->|(e & -> & He)]; [by left|right; by exists e]|by intros ->%Hok].
  - set (note := Note bot (change_body cls url fp)).
    set (s1 := on_issue (i_number i) (add_note note) s).
    rewrite (eff_bind_ok _ _ _ _ _ (call_comment s Hc _ _ Hlk _)).
    pose proof (left_comment s i (change_body cls url fp) Hs Hc Ha) as (L1 & L2 & L3 & L4).
    fold note s1 in L1, L2, L3, L4.
    assert (alerts s1 = [add_note note i]) as Ha1.
    { unfold s1. rewrite alerts_on_issue, Ha by apply keeps_listing_note. cbn [fmap list_fmap].
      unfold numbered. by rewrite Z.eqb_refl. }
    destruct (single_alert s1 _ L1 Ha1) as (Hlk1 & _ & _).
    destruct (ensure_assignee_calm (i_number i) (add_note note i) s1 L2 Hlk1 eq_refl Hpos)
      as (r & f & Er & Hf & Hr & Hok).
    destruct (left_owner s1 (add_note note i) f L1 L2 Ha1 Hf) as (M1 & M2 & M3 & M4).
    change (ensure_assignee (Some assignee) (issue_json i)) with
      (ensure_assignee (S := Store) (Some assignee) (issue_json (add_note note i))).
    fold note. fold s1. unfold mbind, eff_bind. rewrite Er.
    exists (match r with Ok _ => Ok updated | Err e => Err e end), (on_issue (i_number i) f s1).
    split_and!; [by destruct r| |split_and!].
    + split; [destruct Hr as [->|(e & -> & He)]; [by left|right; by exists e]|by intros ->%Hok].
    + exact M1.
    + exact M2.
    + etransitivity; [exact M3|]. rewrite L3. f_equal.
      destruct (change_body_line cls url fp) as [pre ->]. apply last_marker_line.
      by apply loaded_fingerprint.
    + etransitivity; [exact M4|]. rewrite L4. lia.
Qed.

Lemma run_calm cls url s :
  sound s -> calm s -> loaded cls ->
  exists r s', run cls url s = (r, s') /\
    outcome (fst (alert_step cls (view s))) r /\
    left s (snd (alert_step cls (view s)))
      (match fst (alert_step cls (view s)) with unchanged => 0 | _ => 1 end)%nat s'.
Proof.
  intros Hs Hc Hl. unfold run, reconcile. rewrite (eff_bind_ok _ _ _ _ _ (open_issues_calm s Hc Hs)).
  unfold alert_step, is_alerting. destruct (loaded_facts cls Hl) as [[b Hb] _]. rewrite Hb.
  pose proof (sd_single _ Hs) as Hsingle.
  destruct (alerts s) as [|i [|j l]] eqn:Ha; [| |cbn in Hsingle; lia]; cbn [fmap list_fmap head].
  - assert (view s = None) as -> by (unfold view; by rewrite Ha). destruct b.
    + by apply run_opens.
    + exists (Ok unchanged), s. split_and!; [done|by split; [left|]|].
      split_and!; [done|done|unfold view; by rewrite Ha|cbn; lia].
  - rewrite (view_single s i Ha). destruct b.
    + destruct (run_comments cls url s i Hs Hc Hl Ha) as (r & s' & Er & Ho & Hleft).
      exists r, s'. cbn zeta in *. rewrite Er.
      destruct (decide (shown_fingerprint i = Some (alert_fingerprint cls))) as [E|E];
        [rewrite bool_decide_true in Ho, Hleft by done; rewrite E
        |rewrite bool_decide_false in Ho, Hleft by done]; done.
    + destruct (single_alert s i Hs Ha) as (Hlk & Hpos & Hin).
      destruct (py_eq (get cls "state") (JStr "current")).
      * pose proof (left_comment s i (recovery_body cls url) Hs Hc Ha) as (L1 & L2 & L3 & L4).
        set (s1 := on_issue (i_number i) (add_note (Note bot (recovery_body cls url))) s) in *.
        rewrite (eff_bind_ok _ _ _ (JInt (i_number i)) s) by done.
        rewrite (eff_bind_ok _ _ _ _ _ (call_comment s Hc _ _ Hlk _)).
        assert (alerts s1 = [add_note (Note bot (recovery_body cls url)) i]) as Ha1.
        { unfold s1. rewrite alerts_on_issue, Ha by apply keeps_listing_note. cbn [fmap list_fmap].
          unfold numbered. by rewrite Z.eqb_refl. }
        destruct (single_alert s1 _ L1 Ha1) as (Hlk1 & _ & _).
        rewrite (eff_bind_ok _ _ _ tt _ (call_close s1 L2 _ _ Hlk1)).
        eexists _, _. split_and!; [reflexivity|by split; [left|]|]. cbn [fst snd]. split_and!.
        -- by apply sound_close.
        -- done.
        -- unfold view. rewrite alerts_close, Ha1. cbn [List.filter].
           unfold numbered. cbn [i_number add_note]. by rewrite Z.eqb_refl.
        -- rewrite messages_same by done. rewrite L4. lia.
      * destruct (ensure_assignee_calm (i_number i) i s Hc Hlk eq_refl Hpos)
          as (r & f & Er & Hf & Hr & Hok).
        pose proof (left_owner s i f Hs Hc Ha Hf) as Hleft. rewrite (view_single s i Ha) in Hleft.
        unfold mbind, eff_bind. rewrite Er.
        exists (match r with Ok _ => Ok unchanged | Err e => Err e end), (on_issue (i_number i) f s).
        split_and!; [by destruct r| |exact Hleft].
        split; [destruct Hr as [->|(e & -> & He)]; [by left|right; by exists e]|by intros ->%Hok].
Qed.

(** ** Runs under faults *)

Lemma hoare_at {A} (P : Store -> Prop) number (m : Z -> issue -> eff Store A) :
  (forall n i s, lookup_issue n s = Some i -> P s -> P (snd (m n i s))) ->
  hoare P (at_number number m) P.
Proof.
  intros Hm s Hs. unfold at_number. destruct number; try done.
  destruct (lookup_issue _ s) eqn:E; [by eapply Hm|done].
Qed.
(** Sound, and every alert of [s0] still there: what all calls but closing and opening keep. *)
Definition carries (s0 s : Store) : Prop :=
  sound s /\ forall i, i ∈ alerts s0 -> exists i', i' ∈ alerts s /\ i_number i' = i_number i.

#[local] Instance carries_steady s0 : Steady (carries s0).
Proof. intros s fs [[] ?]. by split. Qed.

Lemma carries_on_issue s0 n f s : keeps_listing f -> carries s0 s -> carries s0 (on_issue n f s).
Proof.
  intros Hf [Hs Hc]. split; [by apply sound_on_issue|]. intros i Hi.
  destruct (Hc i Hi) as (i' & Hi' & Hn). rewrite alerts_on_issue by done.
  exists (if numbered n i' then f i' else i').
  split; [by apply (list_elem_of_fmap_2 (fun i => if numbered n i then f i else i))|].
  rewrite <-Hn. destruct (numbered n i'); [apply Hf|done].
Qed.

Lemma hoare_comments s0 bound number : hoare (carries s0) (comments bound number) (carries s0).
Proof.
  unfold comments. generalize 1 (@nil json).
  induction bound as [|bound IH]; intros page acc; cbn [comment_pages]; [apply hoare_throw|].
  apply (hoare_bind (carries s0)).
  - apply hoare_call; [apply _|done|]. by apply hoare_at.
  - intros batch. destruct (length batch <? 100)%nat; [apply hoare_ret|apply IH].
Qed.

Lemma hoare_add_assignee s0 number a :
  hoare (carries s0) (api_add_assignee number a) (carries s0).
Proof.
  apply hoare_call; [apply _|done|]. apply hoare_at. intros n i s _ Hs.
  apply carries_on_issue; [|done]. by destruct (assignable a).
Qed.

Lemma hoare_comment s0 number body : hoare (carries s0) (api_comment number body) (carries s0).
Proof.
  apply hoare_call; [apply _|done|]. apply hoare_at. intros n i s _ Hs.
  apply carries_on_issue; [apply keeps_listing_note|done].
Qed.

Lemma hoare_close s number : hoare (carries s) (api_close number) sound.
Proof.
  intros s1 Hs. cut (hoare sound (api_close number) sound); [intros Hh; apply Hh, Hs|].
  clear s1 Hs. apply hoare_call; [by intros s1 fs []|done|]. apply hoare_at.
  intros n i s1 _ Hs. by apply sound_close.
Qed.

Lemma hoare_require s0 v : hoare (carries s0) (require_assignee (Some assignee) v) (carries s0).
Proof.
  rewrite require_assignee_owner. destruct (has_assignee _ _); auto using hoare_ret, hoare_throw.
Qed.

Lemma hoare_ensure s0 v : hoare (carries s0) (ensure_assignee (Some assignee) v) (carries s0).
Proof.
  rewrite ensure_assignee_owner. destruct (has_assignee _ _); [apply hoare_ret|].
  destruct (get v "number") as [| |n| | | |]; try apply hoare_throw.
  destruct (n <? 1); [apply hoare_throw|].
  apply (hoare_bind (carries s0)); [apply hoare_add_assignee|intros; apply hoare_require].
Qed.

(** The listing under faults: either the exact answer or an exception, and nothing changes. *)
Lemma open_issues_faulty s :
  sound s -> exists r fs, open_issues ALERT_LABEL s = (r, with_faults s fs) /\
    (r = Ok (issue_json <$> alerts s) \/ exists e, r = Err e).
Proof.
  intros Hs. unfold open_issues, mbind, eff_bind.
  destruct (st_faults s) as [|f fs] eqn:Ef.
  { rewrite call_open_issues by done. rewrite str_eqb_refl. unfold mret, eff_ret.
    rewrite listed_alerts by done. eexists _, []. split; [|by left].
    rewrite <-Ef. by destruct s. }
  cbn [api_open_issues runs_api store_api]. unfold call. change (faults s) with (st_faults s). rewrite Ef.
  destruct f as [|e|e]; [|by eexists _, _; split; [|right; eexists]..].
  rewrite str_eqb_refl. unfold mret, eff_ret. cbn [with_faults store_faulty st_issues].
  rewrite listed_alerts by done. eexists _, fs. split; [done|by left].
Qed.

(** Opening an alert under faults: at most one, and only where there was none. *)
Definition vacant (s : Store) : Prop := sound s /\ alerts s = [].

Lemma create_faulty title body s :
  vacant s -> sound (snd (create_issue (Some assignee) title body ALERT_LABEL s)).
Proof.
  intros Hs. assert (Steady vacant) as Hst by (intros s1 fs [[] ?]; by split).
  assert (Steady sound) as Hss by by intros s1 fs [].
  assert (hoare vacant (ensure_label ALERT_LABEL) vacant) as Hlabel.
  { unfold ensure_label. apply (hoare_bind vacant).
    - apply hoare_call; [done|done|]. intros s1 Hs1. cbn.
      destruct (str_in _ _); [done|]. destruct Hs1 as [[] ?]. by split.
    - intros [c|]; [destruct (c =? 422)|]; auto using hoare_ret, hoare_throw. }
  assert (hoare vacant (api_create_issue title body ALERT_LABEL) sound) as Hcreate.
  { apply hoare_call; [done|by intros ? []|]. intros s1 [Hs1 Ha]. cbn [snd].
    apply sound_append; [done|done|done|].
    unfold labelled, is_alert, trusted. cbn [i_open i_labels i_pull].
    destruct (str_in ALERT_LABEL (st_labels s1)); [|by cbn].
    intros _. rewrite bot_trusted_json. unfold labelled. cbn [i_open i_labels].
    rewrite (proj2 (str_in_elem _ _)) by by left. done. }
  assert (forall v, hoare sound (ensure_assignee (Some assignee) v) sound) as Hens.
  { intros v s1 Hs1. destruct (hoare_ensure s1 v s1) as [Hk _]; [by split; eauto|done]. }
  assert (forall v, hoare sound (try_except [OSError; ValueError] (checked ALERT_LABEL v)
    (stranded ALERT_LABEL v)) sound) as Htry.
  { intros v. apply hoare_try.
    - apply (hoare_bind sound); [destruct (py_in _ _); auto using hoare_ret, hoare_throw|].
      intros _. apply (hoare_bind sound); auto using hoare_ret.
    - intros e. unfold stranded. change (str_eqb ALERT_LABEL DRILL_LABEL) with false. cbn [andb].
      destruct (get v "number"); apply hoare_pure. }
  rewrite create_issue_owner. unfold mbind, eff_bind. specialize (Hlabel s Hs).
  destruct (ensure_label ALERT_LABEL s) as [[[]|e] s1]; [|apply Hlabel]. cbn [snd] in Hlabel.
  specialize (Hcreate s1 Hlabel).
  destruct (api_create_issue title body ALERT_LABEL s1) as [[v|e] s2]; [|done]. by apply Htry.
Qed.

(** A run that may not close the alert. *)
Definition resolves (cls : json) : bool :=
  negb (is_alerting cls) && py_eq (get cls "state") (JStr "current").

Lemma carries_refl s : sound s -> carries s s.
Proof. split; [done|]. eauto. Qed.

Lemma alert_branch_faulty cls url s i s1 :
  carries s s1 ->
  carries s (snd (reconcile_alert (Some assignee) (page_bound s) cls url (Some i) s1)).
Proof.
  unfold reconcile_alert. revert s1. fold (hoare (carries s)
    (number ← issue_number i;
     all ← comments (page_bound s) number;
     latest ← pure (latest_fingerprint i all);
     let changed := negb (bool_decide (latest = Some (alert_fingerprint cls))) in
     (if changed then api_comment number (change_body cls url (alert_fingerprint cls))
      else mret tt) ;;
     ensure_assignee (Some assignee) i ;;
     mret (if changed then updated else unchanged)) (carries s)).
  apply (hoare_bind (carries s)); [apply hoare_pure|intros number].
  apply (hoare_bind (carries s)); [apply hoare_comments|intros all].
  apply (hoare_bind (carries s)); [apply hoare_pure|intros latest]. cbn zeta.
  apply (hoare_bind (carries s)); [destruct (negb _); [apply hoare_comment|apply hoare_ret]|intros _].
  apply (hoare_bind (carries s)); [apply hoare_ensure|intros _; apply hoare_ret].
Qed.

Lemma run_faulty cls url s :
  sound s -> loaded cls ->
  sound (snd (run cls url s)) /\
  (resolves cls = false -> carries s (snd (run cls url s))).
Proof.
  intros Hs Hl. unfold run, reconcile, resolves.
  destruct (open_issues_faulty s Hs) as (r & fs & Er & Hr).
  assert (carries s (with_faults s fs)) as Hc by (apply steady, carries_refl; done).
  destruct Hr as [->|[e ->]]; [|rewrite (eff_bind_err _ _ _ _ _ Er); by split; [apply Hc|]].
  rewrite (eff_bind_ok _ _ _ _ _ Er).
  unfold is_alerting. destruct (loaded_facts cls Hl) as [[b ->] _].
  destruct b; cbn [negb andb].
  - assert (carries s (snd (reconcile_alert (Some assignee) (page_bound s) cls url
      (head (issue_json <$> alerts s)) (with_faults s fs)))) as Hd; [|by split; [apply Hd|]].
    destruct (alerts s) as [|i l] eqn:Ha; cbn [fmap list_fmap head]; [|by apply alert_branch_faulty].
    assert (sound (snd (reconcile_alert (Some assignee) (page_bound s) cls url None
      (with_faults s fs)))) as Hso.
    { unfold reconcile_alert, mbind, eff_bind.
      pose proof (create_faulty (lit "Produktionsalarm: " ++ to_str (get cls "state"))
        (opening_body cls url (alert_fingerprint cls)) (with_faults s fs)) as Hcr.
      destruct (create_issue _ _ _ _ _) as [[v|e] s2]; apply Hcr; split; try apply Hc; done. }
    split; [done|]. rewrite Ha. by intros i ?%elem_of_nil.
  - destruct (head (issue_json <$> alerts s)) as [i|]; [|by split; [apply Hc|]].
    destruct (py_eq (get cls "state") (JStr "current")).
    + split; [|done]. revert Hc. generalize (with_faults s fs) as s1. intros s1 Hc.
      unfold mbind, eff_bind, issue_number, pure.
      destruct (item i "number") as [number|e]; [|apply Hc].
      pose proof (hoare_comment s number (recovery_body cls url) s1 Hc) as H1.
      destruct (api_comment number _ s1) as [[[]|e] s2]; [|apply H1]. cbn [snd] in H1.
      pose proof (hoare_close s number s2 H1) as H2.
      by destruct (api_close number s2) as [[[]|e] s3].
    + assert (hoare (carries s) (ensure_assignee (Some assignee) i ;; mret unchanged) (carries s))
        as Hh by (apply (hoare_bind (carries s)); [apply hoare_ensure|intros _; apply hoare_ret]).
      split; [|intros _]; apply (Hh _ Hc).
Qed.

(** ** Properties *)

(** C8: while GitHub answers every call, the classification is one that was loaded, at most one alert of
    the job is open and fewer than a hundred open issues of others carry its label (more would fill the
    one page the job reads: [listing_limit_duplicates]), one run of the alert job refines one step of the
    abstract alert: a new alert opens one issue, a changed fingerprint adds one comment, the same
    fingerprint adds nothing, [current] comments and closes, and [pending] and [superseded] leave the
    alert alone.  Such a run fails only where GitHub does not accept the owner as assignee, and then the
    alert is already published. *)
Theorem reconcile_refines cls url s
    (Hsound : sound s) (Hcalm : calm s) (Hloaded : loaded cls) :
  exists r s', run cls url s = (r, s') /\
    outcome (fst (alert_step cls (view s))) r /\
    left s (snd (alert_step cls (view s)))
      (match fst (alert_step cls (view s)) with unchanged => 0 | _ => 1 end)%nat s'.
Proof. by apply run_calm. Qed.

(** C9: whichever calls GitHub refuses or leaves unanswered during a run, the repository stays
    sound (never a second alert, never a lost number), the open alert is closed by nothing but a
    [current] classification, and repeating the run without faults shows the alert's fingerprint. *)
Theorem reconcile_faults_safe cls url s (Hsound : sound s) (Hloaded : loaded cls) :
  let s' := snd (run cls url s) in
  sound s' /\
  (resolves cls = false ->
     forall i, i ∈ alerts s -> exists i', i' ∈ alerts s' /\ i_number i' = i_number i) /\
  (is_alerting cls = true ->
     view (snd (run cls url (with_faults s' []))) = Some (Some (alert_fingerprint cls))).
Proof.
  cbn zeta. destruct (run_faulty cls url s Hsound Hloaded) as [Hs Hc]. split_and!; [done| |].
  - intros Hr. by apply Hc.
  - intros Ha. set (s1 := with_faults _ []).
    destruct (run_calm cls url s1) as (r & s' & -> & _ & _ & _ & Hv & _); [|done|done|].
    { unfold s1. by destruct Hs; split. }
    cbn [snd]. rewrite Hv. unfold alert_step. rewrite Ha.
    destruct (view s1) as [f|]; [|done]. by destruct (decide _) as [->|].
Qed.

(** What others do to the repository between runs. *)
Inductive world_step : Store -> Store -> Prop :=
  | ws_note n m s : trusted_note m = false -> world_step s (on_issue n (add_note m) s)
  | ws_assign n a s : world_step s (on_issue n (assign a) s)
  | ws_open i s :
      i_number i = st_next s -> is_alert i = false ->
      (labelled ALERT_LABEL i = true -> (length (foreign s) + 1 < 100)%nat) ->
      world_step s (append_issue i s)
  | ws_close n s :
      (forall i, lookup_issue n s = Some i -> is_alert i = false) ->
      world_step s (on_issue n close_issue s).

Lemma world_step_view s s' :
  world_step s s' -> sound s -> calm s -> sound s' /\ calm s' /\ view s' = view s.
Proof.
  intros Hw Hs Hc. destruct Hw as [n m s Hm|n a s|i s Hn Ha Hr|n s Hn].
  - split_and!; [by apply sound_on_issue; [apply keeps_listing_note|]|done|].
    unfold view. rewrite alerts_on_issue by apply keeps_listing_note.
    destruct (alerts s) as [|i l]; [done|]. cbn. destruct (numbered n i); [|done].
    by rewrite shown_note, Hm.
  - split_and!; [by apply sound_on_issue; [apply keeps_listing_assign|]|done|].
    unfold view. rewrite alerts_on_issue by apply keeps_listing_assign.
    destruct (alerts s) as [|i l]; [done|]. cbn. by destruct (numbered n i).
  - split_and!; [|done|unfold view; by rewrite alerts_append, Ha, app_nil_r].
    apply sound_append; [done|done|by rewrite Ha|auto].
  - split_and!; [by apply sound_close|done|]. unfold view. rewrite alerts_close.
    assert (forall l, (forall i, i ∈ l -> numbered n i = false) ->
      List.filter (fun i => negb (numbered n i)) l = l) as Hall.
    { induction l as [|i l IH]; intros Hl; [done|]. cbn. rewrite Hl by by left. cbn. f_equal.
      apply IH. intros j Hj. apply Hl. by right. }
    rewrite Hall; [done|]. intros i Hi. apply not_true_iff_false. intros E%Z.eqb_eq.
    pose proof (lookup_alert s i Hs Hi) as Hlk. rewrite E in Hlk. apply Hn in Hlk.
    apply elem_of_filter_b in Hi as [_ Hi]. congruence.
Qed.

(** Runs of the job, with anything others do before, between and after them. *)
Inductive history : Store -> list (json * result exn action) -> Store -> Prop :=
  | hs_end s : history s [] s
  | hs_world s s1 s' l : world_step s s1 -> history s1 l s' -> history s l s'
  | hs_run cls url s r s1 s' l :
      run cls url s = (r, s1) -> history s1 l s' -> history s ((cls, r) :: l) s'.

(** The abstract machine on a list of classifications. *)
Fixpoint alert_trace (l : list json) (shown : option (option pystr))
    : list action * option (option pystr) :=
  match l with
  | [] => ([], shown)
  | cls :: l' =>
      let '(act, shown1) := alert_step cls shown in
      let '(acts, shown2) := alert_trace l' shown1 in (act :: acts, shown2)
  end.

(** C1: over any history of runs on loaded classifications, interleaved with comments (hidden markers
    included), assignments, new and closed issues of others, the job's actions and the alert it leaves are
    those of the abstract machine on the classifications alone, and depend on nothing the others did:
    provided that GitHub answers every call and accepts the owner as assignee, that at the start at most
    one alert of the job is open, and that always fewer than a hundred open issues of others carry its
    label (with more a second alert is opened: [listing_limit_duplicates]). *)
Theorem history_refines s l s'
    (Hhistory : history s l s') (Hsound : sound s) (Hcalm : calm s)
    (Hloaded : Forall loaded (fst <$> l)) (Howner : assignable assignee = true) :
  (snd <$> l, view s') =
    let '(acts, shown) := alert_trace (fst <$> l) (view s) in (Ok <$> acts, shown).
Proof.
  induction Hhistory as [s|s s1 s' l Hw Hh IH|cls url s r s1 s' l Hr Hh IH]; [done|..].
  - destruct (world_step_view s s1 Hw Hsound Hcalm) as (Hs1 & Hc1 & <-). by apply IH.
  - cbn [fmap list_fmap] in Hloaded. apply Forall_cons in Hloaded as [Hcls Hl].
    destruct (run_calm cls url s Hsound Hcalm Hcls) as (r' & s1' & Er & [_ Hok] & Hs1 & Hc1 & Hv & _).
    rewrite Er in Hr. injection Hr as <- <-. specialize (IH Hs1 Hc1 Hl).
    cbn [fmap list_fmap fst snd alert_trace]. rewrite (Hok Howner).
    destruct (alert_step cls (view s)) as [act shown1]. cbn [fst snd] in *. rewrite Hv in IH.
    destruct (alert_trace (fst <$> l) shown1) as [acts shown2]. by injection IH as -> ->.
Qed.

(** *** The drill *)

Definition open_numbers (s : Store) : list Z := i_number <$> List.filter i_open (st_issues s).

Lemma open_numbers_on_issue n f s :
  (forall i, i_open (f i) = i_open i /\ i_number (f i) = i_number i) ->
  open_numbers (on_issue n f s) = open_numbers s.
Proof.
  intros Hf. unfold open_numbers, on_issue. cbn [st_issues set_issues].
  rewrite filter_update by apply Hf. rewrite <-list_fmap_compose. apply list_fmap_ext.
  intros _ i _. cbn. destruct (numbered n i); [apply Hf|done].
Qed.

Lemma open_numbers_close n s :
  open_numbers (on_issue n close_issue s) = List.filter (fun k => negb (k =? n)) (open_numbers s).
Proof.
  unfold open_numbers, on_issue. cbn [st_issues set_issues].
  induction (st_issues s) as [|i l IH]; [done|]. rewrite fmap_cons. cbn [List.filter].
  destruct (numbered n i) eqn:E; cbn [i_open close_issue]; destruct (i_open i);
    rewrite ?fmap_cons; cbn [List.filter]; unfold numbered in E; rewrite ?E; cbn [negb];
    try apply IH. f_equal. apply IH.
Qed.

Lemma filter_fresh n l :
  (forall k, k ∈ l -> k < n) -> List.filter (fun k => negb (k =? n)) (l ++ [n]) = l.
Proof.
  intros Hl. rewrite List.filter_app. cbn. rewrite Z.eqb_refl, app_nil_r.
  induction l as [|k l IH]; [done|]. cbn.
  assert (k < n) by (apply Hl; by left). destruct (Z.eqb_spec k n); [lia|]. cbn. f_equal.
  apply IH. intros j Hj. apply Hl. by right.
Qed.

Lemma open_numbers_drilled s label title body f g :
  sound s ->
  (forall i, i_open (f i) = i_open i /\ i_number (f i) = i_number i) ->
  (forall i, i_open (g i) = i_open i /\ i_number (g i) = i_number i) ->
  open_numbers (on_issue (st_next s) close_issue (on_issue (st_next s) g (on_issue (st_next s) f
    (append_issue (new_issue label (st_next s) title body) (add_label label s))))) = open_numbers s.
Proof.
  intros Hs Hf Hg. rewrite open_numbers_close, !open_numbers_on_issue by done.
  assert (open_numbers (append_issue (new_issue label (st_next s) title body) (add_label label s)) =
    open_numbers s ++ [st_next s]) as ->.
  { unfold open_numbers, append_issue, add_label. cbn [st_issues].
    rewrite List.filter_app, fmap_app. by destruct (str_in _ _). }
  apply filter_fresh. intros k (i & -> & [Hi _]%elem_of_filter_b)%list_elem_of_fmap.
  pose proof (sd_numbers _ Hs) as Hp. rewrite Forall_forall in Hp. by apply Hp in Hi as [_ ?].
Qed.

Lemma lookup_on_issue n f s i :
  (forall i, i_number (f i) = i_number i) -> lookup_issue n s = Some i ->
  lookup_issue n (on_issue n f s) = Some (f i).
Proof.
  intros Hf. unfold lookup_issue, on_issue. cbn [st_issues set_issues].
  induction (st_issues s) as [|j l IH]; [done|]. cbn [List.find fmap list_fmap].
  destruct (numbered n j) eqn:E.
  - intros [= ->]. unfold numbered in *. by rewrite Hf, E.
  - rewrite E. apply IH.
Qed.

(** A drill never leaves an open issue behind: whether GitHub confirms the owner or the drill
    stops there with an error, exactly the issues open before are open after it, and no alert is
    touched. *)
Theorem drill_leaves_nothing url s (Hsound : sound s) (Hcalm : calm s) :
  exists r s', drill (Some assignee) url s = (r, s') /\ open_numbers s' = open_numbers s /\
    (r = Ok drilled \/ exists e, r = Err e /\ exn_class e = ValueError) /\
    (assignable assignee = true -> r = Ok drilled).
Proof.
  unfold drill. set (title := lit "Produktionsalarm-Probe"). set (body := _ ++ _).
  set (n := st_next s).
  destruct (published_calm title body DRILL_LABEL s Hcalm Hsound)
    as (E & Hc1 & Hl1 & r & f & Er & Hf & Hr & Ha). fold n in E, Hl1, Er.
  set (i := new_issue DRILL_LABEL n title body) in *.
  set (s1 := append_issue i (add_label DRILL_LABEL s)) in *.
  assert (forall i, i_open (f i) = i_open i /\ i_number (f i) = i_number i) as Hfk
    by (by destruct Hf as [->| ->]).
  set (s2 := on_issue n f s1) in *.
  assert (lookup_issue n s2 = Some (f i)) as Hl2 by (apply lookup_on_issue; [apply Hfk|done]).
  assert (0 < n) as Hpos by apply Hsound.
  unfold try_except in E. rewrite Er in E.
  destruct Hr as [(v & -> & ->)|(e & -> & He)].
  - rewrite (eff_bind_ok _ _ _ _ _ E). rewrite (eff_bind_ok _ _ _ (JInt n) s2) by done.
    set (note := Note bot (lit "Probe beendet; das Issue wird geschlossen.")).
    assert (lookup_issue n (on_issue n (add_note note) s2) = Some (add_note note (f i))) as Hl3
      by by apply lookup_on_issue.
    exists (Ok drilled), (on_issue n close_issue (on_issue n (add_note note) s2)).
    split_and!; [|by apply (open_numbers_drilled s DRILL_LABEL title body f (add_note note))|by left|done].
    unfold mbind, eff_bind, try_finally. rewrite (call_comment s2 Hc1 _ _ Hl2). fold note.
    by rewrite (call_close (on_issue n (add_note note) s2) Hc1 _ _ Hl3).
  - rewrite He in E. change (existsb (issubclass ValueError) [OSError; ValueError]) with true in E.
    unfold stranded in E. rewrite issue_json_number in E. cbn [i_number i new_issue] in E.
    change (str_eqb DRILL_LABEL DRILL_LABEL) with true in E. rewrite (proj2 (Z.ltb_lt 0 n) Hpos) in E.
    cbn [andb] in E. unfold close_drill, try_except in E.
    assert ((match api_close (JInt n) s2 with
      | (Ok a, s') => (Ok a, s')
      | (Err e0, s') =>
          if existsb (issubclass (exn_class e0)) [OSError; ValueError]
          then throw ValueError (lit "drill issue #" ++ show_Z n
                 ++ lit " is unverified and could not be closed") s'
          else (Err e0, s')
      end) = (Ok tt, on_issue n close_issue s2)) as Ecl by by rewrite (call_close s2 Hc1 _ _ Hl2).
    unfold mbind at 1, eff_bind at 1 in E. rewrite Ecl in E.
    rewrite (eff_bind_err _ _ _ _ _ E). eexists (Err e), _. split_and!; [reflexivity| |right; by eexists|].
    + rewrite <-(open_numbers_drilled s DRILL_LABEL title body f id) by done.
      fold n i s1 s2. by rewrite on_issue_id.
    + intros Hx. by destruct (Ha Hx).
Qed.
End runs.

(** ** Concrete repositories *)

#[local] Existing Instance ascii_host.

Definition owner : pystr := lit "operator".
Definition empty_store (fs : list fault) : Store := MkStore [] [] 1 fs.
Definition demo_alert : json := match load_classification None with Ok cls => cls | Err _ => JNull end.

Lemma demo_alert_loaded : loaded demo_alert.
Proof. exists None. by vm_compute. Qed.
Lemma empty_store_sound fs : sound (empty_store fs).
Proof. constructor; [constructor|constructor|cbn; lia|cbn; lia|cbn; lia]. Qed.
Lemma owner_nonempty : owner <> [].
Proof. done. Qed.

(** A hundred older issues of others under the alert label, and the open alert behind them. *)
Definition crowded : Store :=
  let stranger := JObj [(lit "login", JStr "mallory"); (lit "id", JInt 7)] in
  MkStore
    (((fun k => Issue (Z.of_nat k) [] [] [ALERT_LABEL] stranger [] true false []) <$> seq 1 100) ++
     [Issue 101 [] (opening_body demo_alert [] (alert_fingerprint demo_alert)) [ALERT_LABEL] bot [owner]
        true false []])
    [ALERT_LABEL] 102 [].

(** The deduplication has a bound: the client reads one page of a hundred labelled issues before
    it drops the untrusted ones, so with a hundred older labelled issues of others an alert that is
    open with the very fingerprint of the run is not found, and the run opens a second one. *)
Theorem listing_limit_duplicates :
  let '(r, s') := run (fun _ => true) owner demo_alert [] crowded in
  shown_fingerprint <$> alerts crowded = [Some (alert_fingerprint demo_alert)] /\
  r = Ok opened /\
  shown_fingerprint <$> alerts s' = [Some (alert_fingerprint demo_alert); Some (alert_fingerprint demo_alert)].
Proof. vm_compute. split; [reflexivity|split; reflexivity]. Qed.

Lemma reconcile_refines_witness :
  exists r s', run (fun _ => true) owner demo_alert [] (empty_store []) = (r, s') /\
    view s' = Some (Some (alert_fingerprint demo_alert)) /\ messages s' = 1%nat.
Proof.
  destruct (reconcile_refines (fun _ => true) owner owner_nonempty demo_alert [] (empty_store []))
    as (r & s' & E & _ & _ & _ & Hv & Hm);
    [apply empty_store_sound|done|apply demo_alert_loaded|].
  exists r, s'. split; [exact E|]. split; [exact Hv|]. exact Hm.
Defined.

(** The answer to the creation is lost; the next run finds the alert and opens no other. *)
Definition lost_answer : list fault := [passes; passes; lost (Exn OSError "timeout")].

Lemma reconcile_faults_safe_witness :
  let s' := snd (run (fun _ => true) owner demo_alert [] (empty_store lost_answer)) in
  sound s' /\ view (snd (run (fun _ => true) owner demo_alert [] (with_faults s' []))) =
    Some (Some (alert_fingerprint demo_alert)).
Proof.
  cbn zeta. destruct (reconcile_faults_safe (fun _ => true) owner owner_nonempty demo_alert []
    (empty_store lost_answer)) as (Hs & _ & Hv); [apply empty_store_sound|apply demo_alert_loaded|].
  split; [exact Hs|]. apply Hv. by vm_compute.
Defined.

(** An alert, a hidden marker by someone else, and the same alert again. *)
Definition demo_history_end : Store :=
  snd (run (fun _ => true) owner demo_alert []
    (on_issue 1 (add_note (Note (JObj []) (10%N :: marker "current:none")))
      (snd (run (fun _ => true) owner demo_alert [] (empty_store []))))).

Lemma history_refines_witness :
  snd <$> [(demo_alert, Ok opened); (demo_alert, Ok unchanged : result exn action)] =
    [Ok opened; Ok unchanged] /\
  view demo_history_end = Some (Some (alert_fingerprint demo_alert)).
Proof.
  assert (history (fun _ => true) owner (empty_store [])
    [(demo_alert, Ok opened); (demo_alert, Ok unchanged)] demo_history_end) as Hh.
  { eapply (hs_run _ _ _ []); [apply pair_snd; by vm_compute|].
    eapply hs_world; [apply (ws_note 1 (Note (JObj []) (10%N :: marker "current:none"))); by vm_compute|].
    eapply (hs_run _ _ _ []); [apply pair_snd; by vm_compute|]. apply hs_end. }
  pose proof (history_refines (fun _ => true) owner owner_nonempty _ _ _ Hh (empty_store_sound [])
    eq_refl) as Hr.
  split; [done|]. assert (Forall loaded (fst <$> [(demo_alert, Ok opened : result exn action); (demo_alert, Ok unchanged)]))
    as Hl by (repeat constructor; apply demo_alert_loaded).
  specialize (Hr Hl eq_refl).
  assert (alert_trace (fst <$> [(demo_alert, Ok opened : result exn action); (demo_alert, Ok unchanged)])
    (view (empty_store [])) = ([opened; unchanged], Some (Some (alert_fingerprint demo_alert)))) as Et
    by by vm_compute.
  rewrite Et in Hr. apply (f_equal snd) in Hr. cbn [snd] in Hr. exact Hr.
Defined.

Lemma drill_leaves_nothing_witness :
  exists r s', @drill _ Store (store_api (fun _ => false)) (Some owner) [] (empty_store []) = (r, s') /\
    open_numbers s' = [].
Proof.
  destruct (drill_leaves_nothing (fun _ => false) owner owner_nonempty [] (empty_store []))
    as (r & s' & E & Ho & _); [apply empty_store_sound|done|].
  exists r, s'. split; [exact E|exact Ho].
Defined.
