(* ===== verification/Dispatch.v ===== *)
(** * The transport of watcher events

    scripts/ops/independent_production_watch_dispatch.py: the journal is read in rows, a durable
    cursor says how far the external transport got, and [dispatch] publishes the alarms behind it,
    writing the cursor after every row.  The contents of the journal and of the cursor file and
    what reached the network are the state [world]; what [stat] says of the files is an argument
    of a run ([readings]).  Publishing and writing are calls under a script of faults, so a crash
    at any point is an outcome. *)

From S2P Require Import Prelude PyStr Effects Json JsonText Sha256.
Open Scope Z_scope.

Definition SERVER : pystr := lit "https://ntfy.sh".
Definition CURSOR_KIND : pystr := lit "weltgewebe.watch-transport-cursor.v1".
Definition MAX_JOURNAL_BYTES : Z := 32 * 1024 * 1024.
Definition MAX_LINE_BYTES : Z := 65536.
Definition MAX_CURSOR_BYTES : Z := 8192.
Definition MAX_BATCH : nat := 8.
Definition EVENTS : list pystr := [lit "ALARM"; lit "RECOVERY"; lit "MONITOR_DATA_FAILURE"].
Definition TRANSPORT_NON_CLAIMS : list pystr :=
  [lit "external_device_delivery"; lit "human_acknowledgment"; lit "exactly_once_network_effect";
   lit "production_recovery"].
Definition TransportBlocked : exc_class := Sub "TransportBlocked" ValueError.

Definition blocked {A} (m : string) : result exn A := raise TransportBlocked m.

(** ** Files *)

Inductive file_kind : Type := regular | directory | other_kind.
Record stat : Type := Stat {
  st_kind : file_kind; st_nlink : Z; st_uid : Z; st_mode : Z; st_size : Z;
  st_dev : Z; st_ino : Z; st_mtime_ns : Z; st_ctime_ns : Z;
}.
Definition is_regular (s : stat) : bool := match st_kind s with regular => true | _ => false end.
Definition is_directory (s : stat) : bool := match st_kind s with directory => true | _ => false end.

(** [before] and [after] are the two [fstat] calls, [content] what the reads can return; the mode
    masks are 0o077 and 0o022, the directory mode below is 0o700. *)
Definition checked_identity (uid limit : Z) (private : bool) (before : stat) : result exn unit :=
  if negb (is_regular before) || negb (st_nlink before =? 1) || negb (st_uid before =? uid)
     || (limit <? st_size before)
     || negb (Z.land (st_mode before) (if private then 63 else 18) =? 0) then
    blocked "file identity, ownership, permissions or budget invalid"
  else Ok tt.
Definition checked_unchanged (before after : stat) : result exn unit :=
  if (st_dev before =? st_dev after) && (st_ino before =? st_ino after)
     && (st_size before =? st_size after) && (st_mtime_ns before =? st_mtime_ns after)
     && (st_ctime_ns before =? st_ctime_ns after) then Ok tt
  else blocked "file changed during read".
Definition checked_bytes (uid limit : Z) (private : bool) (before after : stat) (content : bytes)
    : result exn bytes :=
  checked_identity uid limit private before ;;
  let data := take (Z.to_nat (st_size before)) content in
  if Z.of_nat (length data) <? st_size before then blocked "file shortened during read"
  else checked_unchanged before after ;; Ok data.

Definition private_dir (uid : Z) (info : stat) : result exn unit :=
  if negb (is_directory info) || negb (st_uid info =? uid) || negb (st_mode info =? 448) then
    blocked "state or topic directory must be owner-only"
  else Ok tt.

(** [[A-Za-z0-9-]{32,128}\Z] under [fullmatch]. *)
Definition topic_ok (topic : pystr) : bool :=
  (32 <=? length topic)%nat && (length topic <=? 128)%nat &&
  forallb (fun c => ascii_digit c || ascii_upper c || ascii_lower_p c || (c =? 45)%N) topic.

(** Everything [stat] and [open] say to one run. *)
Record readings : Type := Readings {
  r_uid : Z;
  r_dir : stat;
  r_topic_dir : stat;
  r_topic : stat * stat * bytes;
  r_journal : stat * stat;
  r_cursor : stat * stat;
}.

Definition read_topic (r : readings) : result exn pystr :=
  private_dir (r_uid r) (r_topic_dir r) ;;
  let '(before, after, bytes) := r_topic r in
  content ← checked_bytes (r_uid r) 256 true before after bytes;
  if negb (forallb is_ascii content) then blocked "topic must be ASCII"
  else
    let topic := strip content in
    if topic_ok topic then Ok topic
    else blocked "topic must be an opaque 32-128 character identifier".

(** ** The journal *)

(** [raw.splitlines(keepends=True)] on bytes. *)
Fixpoint splitlines (raw : bytes) : list bytes :=
  match raw with
  | [] => []
  | c :: rest =>
      if (c =? 10)%N then [c] :: splitlines rest
      else if (c =? 13)%N then
        match rest with
        | d :: rest' => if (d =? 10)%N then [c; d] :: splitlines rest' else [c] :: splitlines rest
        | [] => [[c]]
        end
      else match splitlines rest with [] => [[c]] | l :: ls => (c :: l) :: ls end
  end.

Record row : Type := Row { row_end : Z; row_line : bytes; row_event : json }.

Section journal.
(** [json.loads] on a line: a value, or the exception it ends with. *)
Context (loads : bytes -> result exn json).

Definition event_name (event : json) : pystr :=
  match get event "event" with JStr s => s | _ => [] end.

(** [row.get("event") not in EVENTS] raises on an unhashable value. *)
Definition event_contract (event : json) : result exn bool :=
  match event with
  | JObj _ =>
      match get event "event" with
      | JList _ | JObj _ => raise TypeError "unhashable type"
      | JStr s => Ok (str_in s EVENTS && is_str (get event "checked_at_utc") && is_list (get event "issues"))
      | _ => Ok false
      end
  | _ => Ok false
  end.

Fixpoint journal_rows (start : Z) (lines : list bytes) : result exn (list row) :=
  match lines with
  | [] => Ok []
  | line :: lines' =>
      let stop := start + Z.of_nat (length line) in
      if negb ((2 <=? Z.of_nat (length line)) && (Z.of_nat (length line) <=? MAX_LINE_BYTES)) then
        blocked "journal event exceeds bounded line size"
      else
        match loads line with
        | Err e =>
            if issubclass (exn_class e) ValueError then blocked "invalid journal JSON" else Err e
        | Ok event =>
            ok ← event_contract event;
            if ok : bool then
              rows ← journal_rows stop lines'; Ok (Row stop line event :: rows)
            else blocked "invalid journal event contract"
        end
  end.

Definition ends_line (raw : bytes) : bool :=
  match List.rev raw with [] => true | c :: _ => (c =? 10)%N end.

Definition parse_journal (raw : bytes) : result exn (list row) :=
  if negb (ends_line raw) then blocked "incomplete journal tail"
  else journal_rows 0 (splitlines raw).

End journal.

(** ** The cursor *)

Record cursor : Type := Cursor {
  c_device : Z;
  c_inode : Z;
  c_offset : Z;
  c_prefix_sha256 : pystr;
  c_topic_sha256 : pystr;
  c_accepted : Z;
  c_seen_ids : list pystr;
  c_last_acceptance : json;
}.

Definition cursor_json (c : cursor) : json :=
  JObj [(lit "kind", JStr CURSOR_KIND); (lit "journal_device", JInt (c_device c));
        (lit "journal_inode", JInt (c_inode c)); (lit "offset", JInt (c_offset c));
        (lit "prefix_sha256", JStr (c_prefix_sha256 c));
        (lit "topic_sha256", JStr (c_topic_sha256 c)); (lit "accepted", JInt (c_accepted c));
        (lit "seen_ids", JList (JStr <$> c_seen_ids c));
        (lit "last_acceptance", c_last_acceptance c);
        (lit "previous_history_not_delivered", JBool true)].

Definition CURSOR_KEYS : list pystr := dkeys (match cursor_json (Cursor 0 0 0 [] [] 0 [] JNull) with
                                              | JObj d => d | _ => [] end).

Definition hex_strings (v : json) : option (list pystr) :=
  match v with
  | JList l =>
      foldr (fun x acc =>
        match x, acc with
        | JStr s, Some ids => if all_hex_of_length 64 s then Some (s :: ids) else None
        | _, _ => None
        end) (Some []) l
  | _ => None
  end.

(** The shape a cursor file must have; the two digests are compared afterwards. *)
Definition cursor_shape (identity : Z * Z) (raw_length : Z) (value : json)
    : option (Z * Z * list pystr * json) :=
  match value with
  | JObj d =>
      if negb (forallb (fun k => str_in k CURSOR_KEYS) (dkeys d) && forallb (dmem d) CURSOR_KEYS)
      then None
      else
        match get value "journal_device", get value "journal_inode", get value "offset",
              get value "accepted", get value "previous_history_not_delivered",
              hex_strings (get value "seen_ids")
        with
        | JInt device, JInt inode, JInt offset, JInt accepted, JBool true, Some seen =>
            let last := get value "last_acceptance" in
            if py_eq (get value "kind") (JStr CURSOR_KIND)
               && (device =? fst identity) && (inode =? snd identity)
               && (0 <=? offset) && (offset <=? raw_length) && (0 <=? accepted)
               && (length seen <=? 32)%nat && (is_none last || is_dict last)
            then Some (offset, accepted, seen, last) else None
        | _, _, _, _, _, _ => None
        end
  | _ => None
  end.

Definition digest_of (raw : bytes) (offset : Z) : pystr := sha256_hex (take (Z.to_nat offset) raw).

(** The byte before the offset; an offset of 0 needs none. *)
Definition offset_ends_line (raw : bytes) (offset : Z) : bool :=
  (offset =? 0) || ends_line (take (Z.to_nat offset) raw).

Definition read_cursor (identity : Z * Z) (raw : bytes) (topic : pystr) (value : json)
    : result exn cursor :=
  match cursor_shape identity (Z.of_nat (length raw)) value with
  | None => blocked "invalid or rebound transport cursor"
  | Some (offset, accepted, seen, last) =>
      let topic_sha256 := sha256_hex topic in
      if negb (py_eq (get value "topic_sha256") (JStr topic_sha256)) then
        blocked "transport recipient changed without explicit enrollment"
      else if negb (py_eq (get value "prefix_sha256") (JStr (digest_of raw offset))) then
        blocked "journal prefix changed since transport acknowledgment"
      else if negb (offset_ends_line raw offset) then
        blocked "cursor does not end on a complete journal record"
      else Ok (Cursor (fst identity) (snd identity) offset (digest_of raw offset) topic_sha256 accepted
                 seen last)
  end.

(** ** The world *)

(** What one notification request carries. *)
Record request : Type := Request {
  rq_url : pystr; rq_message : pystr; rq_title : pystr; rq_priority : pystr; rq_tags : pystr;
  rq_event_id : pystr;
}.

(** [w_sent] is what reached the service, [w_codes] the statuses it will answer (then 200). *)
Record world : Type := World {
  w_journal : bytes;
  w_cursor : option json;
  w_sent : list request;
  w_codes : list Z;
  w_faults : list fault;
}.
Definition set_cursor (v : json) (w : world) : world :=
  World (w_journal w) (Some v) (w_sent w) (w_codes w) (w_faults w).

#[export] Program Instance world_faulty : Faulty world := {|
  faults := w_faults;
  with_faults w fs := World (w_journal w) (w_cursor w) (w_sent w) (w_codes w) fs;
|}.
Solve Obligations with by intros [].

(** A call on the temporary file (of a fresh name) or on the directory: the world has neither. *)
Definition aside : eff world unit := call (fun w => (Ok tt, w)).
(** [os.replace(temporary, path)] *)
Definition replace_cursor (v : json) : eff world unit := call (fun w => (Ok tt, set_cursor v w)).

(** In the order of the source: [os.open] of the temporary file, then [fdopen], [write], [flush],
    [fsync] and the [close] of the [with] block, [os.replace], and [os.open], [os.fsync] and [os.close]
    of the directory; the [unlink] of the clean-up may fail in its turn. *)
Definition write_cursor `{PyHost} (c : cursor) : eff world unit :=
  let value := cursor_json c in
  if MAX_CURSOR_BYTES <? Z.of_nat (length (ascii_json value ++ [10%N])) then
    throw TransportBlocked "transport cursor exceeds size budget"
  else
    aside ;;
    try_finally
      (aside ;;
       try_finally (aside ;; aside ;; aside) aside ;;
       replace_cursor value ;;
       aside ;;
       try_finally aside aside)
      (try_except [FileNotFoundError] aside (fun _ => mret tt)).

(** [[a-z][a-z0-9_]{0,63}] under [fullmatch]. *)
Definition code_ok (s : pystr) : bool :=
  match s with
  | c :: s' => ascii_lower_p c && (length s' <=? 63)%nat &&
               forallb (fun c => ascii_lower_p c || ascii_digit c || (c =? 95)%N) s'
  | [] => false
  end.

Definition event_issues (event : json) : list json :=
  match get event "issues" with JList l => l | _ => [] end.
Definition issue_code (x : json) : list pystr :=
  match x with
  | JObj _ => match get x "code" with JStr s => if code_ok s then [s] else [] | _ => [] end
  | _ => []
  end.
Fixpoint dedup_str (l : list pystr) : list pystr :=
  match l with
  | [] => []
  | x :: l' => if str_in x l' then dedup_str l' else x :: dedup_str l'
  end.

Definition ntfy_request (topic : pystr) (event : json) (event_id : pystr) : request :=
  let codes := sort_str (dedup_str (flat_map issue_code (event_issues event))) in
  let status := event_name event in
  let alarm := str_eqb status "ALARM" in
  {| rq_url := SERVER ++ lit "/" ++ topic;
     rq_message := lit "Commonthing production " ++ status ++ lit ": "
       ++ (match codes with [] => lit "incident transition" | _ => join ", " (take 12 codes) end)
       ++ lit " (event " ++ take 16 event_id ++ lit ")";
     rq_title := lit "Commonthing: " ++ status;
     rq_priority := if alarm then lit "5" else lit "3";
     rq_tags := if alarm then lit "warning" else lit "white_check_mark";
     rq_event_id := event_id |}.

(** [urlopen] on that request. *)
Definition post_ntfy (topic : pystr) (event : json) (event_id : pystr) : eff world Z :=
  call (fun w =>
    (Ok (default 200 (head (w_codes w))),
     World (w_journal w) (w_cursor w) (w_sent w ++ [ntfy_request topic event event_id])
       (tail (w_codes w)) (w_faults w))).

(** ** Enrollment and dispatch *)

Section runs.
Context `{PyHost} (loads : bytes -> result exn json).

Definition identity_of (s : stat) : Z * Z := (st_dev s, st_ino s).

Definition journal_snapshot (r : readings) : eff world (bytes * (Z * Z) * list row) := fun w =>
  (raw ← checked_bytes (r_uid r) MAX_JOURNAL_BYTES false (fst (r_journal r)) (snd (r_journal r))
           (w_journal w);
   rows ← parse_journal loads raw;
   Ok (raw, identity_of (fst (r_journal r)), rows), w).

Definition fresh_cursor (identity : Z * Z) (raw : bytes) (topic : pystr) : cursor :=
  Cursor (fst identity) (snd identity) (Z.of_nat (length raw)) (sha256_hex raw) (sha256_hex topic) 0 []
    JNull.

Definition no_cursor : eff world unit := fun w =>
  match w_cursor w with
  | Some _ => throw TransportBlocked "existing transport enrollment cannot be silently replaced" w
  | None => (Ok tt, w)
  end.

Definition enroll (r : readings) (acknowledge_prior_history : bool) : eff world Z :=
  if negb acknowledge_prior_history then
    throw TransportBlocked "enrollment must acknowledge old events are not delivered"
  else
    pure (private_dir (r_uid r) (r_dir r)) ;;
    topic ← pure (read_topic r);
    no_cursor ;;
    '(raw, identity, _) ← journal_snapshot r;
    write_cursor (fresh_cursor identity raw topic) ;;
    mret (Z.of_nat (length raw)).

(** The parsed text of the cursor file is the value [w_cursor]; its other checks come first. *)
Definition load_cursor (r : readings) (raw : bytes) (identity : Z * Z) (topic : pystr)
    : eff world cursor := fun w =>
  match w_cursor w with
  | None => (raise OSError "[Errno 2] No such file or directory: 'transport-cursor.json'", w)
  | Some value =>
      (checked_identity (r_uid r) MAX_CURSOR_BYTES true (fst (r_cursor r)) ;;
       checked_unchanged (fst (r_cursor r)) (snd (r_cursor r)) ;;
       read_cursor identity raw topic value, w)
  end.

Definition alarming (event : json) : bool :=
  str_in (event_name event) [lit "ALARM"; lit "RECOVERY"].
Definition last_n {A} (n : nat) (l : list A) : list A := drop (length l - n) l.

(** [now] is the time stamp of the acceptance. *)
Definition accept (now : pystr) (c : cursor) (event : json) (event_id : pystr) (code : Z) : cursor :=
  Cursor (c_device c) (c_inode c) (c_offset c) (c_prefix_sha256 c) (c_topic_sha256 c)
    (c_accepted c + 1) (last_n 32 (c_seen_ids c ++ [event_id]))
    (JObj [(lit "event_id", JStr event_id); (lit "event", get event "event");
           (lit "http_status", JInt code); (lit "accepted_at", JStr now);
           (lit "does_not_establish", JList (JStr <$> TRANSPORT_NON_CLAIMS))]).
Definition advance (raw : bytes) (stop : Z) (c : cursor) : cursor :=
  Cursor (c_device c) (c_inode c) stop (digest_of raw stop) (c_topic_sha256 c) (c_accepted c)
    (c_seen_ids c) (c_last_acceptance c).

(** The publishing part of one row. *)
Definition publish_row (topic now : pystr) (c : cursor) (r : row) : eff world (cursor * nat) :=
  let event_id := sha256_hex (row_line r) in
  if alarming (row_event r) && negb (str_in event_id (c_seen_ids c)) then
    code ← post_ntfy topic (row_event r) event_id;
    if existsb (Z.eqb code) [200; 201; 202] then mret (accept now c (row_event r) event_id code, 1%nat)
    else throw TransportBlocked "remote transport was not accepted"
  else mret (c, O).

Fixpoint dispatch_rows (topic now : pystr) (raw : bytes) (rows : list row) (c : cursor)
    (processed accepted : nat) : eff world (cursor * nat * nat) :=
  match rows with
  | [] => mret (c, processed, accepted)
  | r :: rows' =>
      if row_end r <=? c_offset c then dispatch_rows topic now raw rows' c processed accepted
      else if (MAX_BATCH <=? processed)%nat then mret (c, processed, accepted)
      else
        '(c1, k) ← publish_row topic now c r;
        let c2 := advance raw (row_end r) c1 in
        write_cursor c2 ;;
        dispatch_rows topic now raw rows' c2 (S processed) (accepted + k)
  end.

Record summary : Type := Summary { sm_processed : nat; sm_accepted : nat; sm_more_pending : bool }.

Definition dispatch (r : readings) (now : pystr) : eff world summary :=
  pure (private_dir (r_uid r) (r_dir r)) ;;
  topic ← pure (read_topic r);
  '(raw, identity, rows) ← journal_snapshot r;
  c ← load_cursor r raw identity topic;
  '(c', processed, accepted) ← dispatch_rows topic now raw rows c 0 0;
  mret (Summary processed accepted (c_offset c' <? Z.of_nat (length raw))).
End runs.

(** ** Lemmas: the size of a cursor *)

Section sizes.
Context `{PyHost}.

Definition acceptance (event_id event : pystr) (code : Z) (now : pystr) : json :=
  JObj [(lit "event_id", JStr event_id); (lit "event", JStr event);
        (lit "http_status", JInt code); (lit "accepted_at", JStr now);
        (lit "does_not_establish", JList (JStr <$> TRANSPORT_NON_CLAIMS))].

Definition small_text (n : nat) (s : pystr) : Prop := forallb plain_char s = true /\ (length s <= n)%nat.
Definition small_int (z : Z) : Prop := Z.abs z < 2 ^ 63.

(** What the transport itself writes into a cursor. *)
Record compact (c : cursor) : Prop := Compact {
  cp_device : small_int (c_device c);
  cp_inode : small_int (c_inode c);
  cp_offset : small_int (c_offset c);
  cp_accepted : small_int (c_accepted c);
  cp_prefix : small_text 64 (c_prefix_sha256 c);
  cp_topic : small_text 64 (c_topic_sha256 c);
  cp_seen : (length (c_seen_ids c) <= 32)%nat;
  cp_ids : Forall (small_text 64) (c_seen_ids c);
  cp_last : c_last_acceptance c = JNull \/
    exists event_id event code now, c_last_acceptance c = acceptance event_id event code now /\
      small_text 64 event_id /\ small_text 64 event /\ small_int code /\ small_text 64 now;
}.

Lemma size_text n s : small_text n s -> (length (canonical_json (JStr s)) <= n + 2)%nat.
Proof. intros [Hs Hl]. cbn [canonical_json]. rewrite length_quote by done. lia. Qed.
Lemma size_int z : small_int z -> (length (canonical_json (JInt z)) <= 64)%nat.
Proof. intros Hz. cbn [canonical_json]. by apply (length_show_Z z 63). Qed.

Lemma size_texts n l :
  Forall (small_text n) l ->
  (length (canonical_json (JList (JStr <$> l))) <= 2 + length l * (n + 3))%nat.
Proof.
  intros Hl. etransitivity; [apply length_canonical_list|]. rewrite <-list_fmap_compose.
  apply Nat.add_le_mono_l. induction Hl as [|s l Hs Hl IH]; [done|].
  rewrite fmap_cons, list_sum_cons. pose proof (size_text n s Hs). unfold compose in *.
  cbn [length]. lia.
Qed.

(** An object is no longer than bounds for its keys and values allow. *)
Lemma size_obj d (bounds : list (nat * nat)) :
  Forall2 (fun kv b => (length (quote (fst kv)) <= fst b)%nat /\
                       (length (canonical_json (snd kv)) <= snd b)%nat) d bounds ->
  (length (canonical_json (JObj d)) <= 2 + list_sum ((fun b => fst b + snd b + 2) <$> bounds))%nat.
Proof.
  intros Hd. etransitivity; [apply length_canonical_obj|]. apply Nat.add_le_mono_l.
  induction Hd as [|[k v] [m n] d bounds [Hk Hv] Hd IH]; [done|].
  rewrite !fmap_cons, !list_sum_cons. cbn [fst snd] in *. lia.
Qed.

(** The keys of the two objects are literals of at most 40 characters. *)
Ltac bound_entries :=
  repeat (apply List.Forall2_cons; cbn [fst snd];
    [split; [apply (bool_decide_unpack _); vm_compute; exact I
            |eapply Nat.le_trans; [eassumption|cbn; lia]]|]);
  try apply List.Forall2_nil.

Lemma size_acceptance event_id event code now :
  small_text 64 event_id -> small_text 64 event -> small_int code -> small_text 64 now ->
  (length (canonical_json (acceptance event_id event code now)) <= 750)%nat.
Proof.
  intros Hi%size_text He%size_text Hc%size_int Hn%size_text.
  assert (Forall (small_text 64) TRANSPORT_NON_CLAIMS) as Ht
    by (repeat (constructor; [split; [by vm_compute|by_compute]|]); constructor).
  apply size_texts in Ht.
  etransitivity; [apply (size_obj _ [(40, 66); (40, 66); (40, 64); (40, 66); (40, 2 + 4 * 67)]%nat)|cbn; lia].
  bound_entries.
Qed.

Lemma size_cursor c :
  compact c -> (length (canonical_json (cursor_json c)) <= 4500)%nat.
Proof.
  intros [Hd%size_int Hi%size_int Ho%size_int Ha%size_int Hp%size_text Ht%size_text Hs Hids%size_texts Hl].
  assert (length (canonical_json (JList (JStr <$> c_seen_ids c))) <= 2150)%nat by lia.
  assert (length (canonical_json (c_last_acceptance c)) <= 750)%nat.
  { destruct Hl as [->|(i & e & k & n & -> & ? & ? & ? & ?)]; [by_compute|by apply size_acceptance]. }
  assert (length (canonical_json (JStr CURSOR_KIND)) <= 64)%nat by by_compute.
  assert (length (canonical_json (JBool true)) <= 64)%nat by by_compute.
  etransitivity; [apply (size_obj _ [(40, 64); (40, 64); (40, 64); (40, 64); (40, 66); (40, 66); (40, 64);
    (40, 2150); (40, 750); (40, 64)]%nat)|cbn; lia].
  bound_entries.
Qed.

Lemma plain_texts n l : Forall (small_text n) l -> plain_json (JList (JStr <$> l)) = true.
Proof. induction 1 as [|s l [Hs _] Hl IH]; [done|]. cbn in *. by rewrite Hs. Qed.

Lemma plain_cursor c : compact c -> plain_json (cursor_json c) = true.
Proof.
  intros [Hd Hi Ho Ha [Hp _] [Ht _] Hs Hids%plain_texts Hl].
  assert (plain_json (c_last_acceptance c) = true) as Hp'.
  { destruct Hl as [->|(i & e & k & n & -> & [Hi' _] & [He _] & _ & [Hn _])]; [done|].
    unfold acceptance. cbn [plain_json forallb fst snd]. rewrite Hi', He, Hn. by_compute. }
  unfold cursor_json. cbn [plain_json forallb fst snd] in *. rewrite Hp, Ht, Hids, Hp'.
  by_compute.
Qed.

Lemma cursor_fits c :
  compact c -> Z.of_nat (length (ascii_json (cursor_json c) ++ [10%N])) <= MAX_CURSOR_BYTES.
Proof.
  intros Hc. rewrite ascii_json_plain by (by apply plain_cursor).
  rewrite length_app. pose proof (size_cursor c Hc). unfold MAX_CURSOR_BYTES. cbn [length]. lia.
Qed.
End sizes.

(** ** Lemmas: what a cursor file must say *)

Definition cursor_valid (c : cursor) : Prop :=
  0 <= c_accepted c /\ (length (c_seen_ids c) <= 32)%nat /\
  Forall (fun s => all_hex_of_length 64 s = true) (c_seen_ids c) /\
  is_none (c_last_acceptance c) || is_dict (c_last_acceptance c) = true.

(** The cursor speaks of this journal file, of this prefix of it, and of this recipient. *)
Record tracks (identity : Z * Z) (raw : bytes) (topic : pystr) (c : cursor) : Prop := Tracks {
  tk_identity : identity = (c_device c, c_inode c);
  tk_offset : 0 <= c_offset c <= Z.of_nat (length raw);
  tk_prefix : c_prefix_sha256 c = digest_of raw (c_offset c);
  tk_topic : c_topic_sha256 c = sha256_hex topic;
  tk_line : offset_ends_line raw (c_offset c) = true;
}.

Lemma hex_strings_texts l :
  hex_strings (JList (JStr <$> l)) =
  if forallb (all_hex_of_length 64) l then Some l else None.
Proof.
  cbn [hex_strings]. induction l as [|s l IH]; [done|]. rewrite fmap_cons. cbn [foldr forallb].
  rewrite IH. destruct (forallb _ l), (all_hex_of_length 64 s); done.
Qed.

Lemma cursor_shape_json identity n c :
  cursor_shape identity n (cursor_json c) =
  if (c_device c =? fst identity) && (c_inode c =? snd identity)
     && (0 <=? c_offset c) && (c_offset c <=? n) && (0 <=? c_accepted c)
     && (length (c_seen_ids c) <=? 32)%nat
     && (is_none (c_last_acceptance c) || is_dict (c_last_acceptance c))
     && forallb (all_hex_of_length 64) (c_seen_ids c)
  then Some (c_offset c, c_accepted c, c_seen_ids c, c_last_acceptance c) else None.
Proof.
  unfold cursor_shape.
  change (get (cursor_json c) "journal_device") with (JInt (c_device c)).
  change (get (cursor_json c) "journal_inode") with (JInt (c_inode c)).
  change (get (cursor_json c) "offset") with (JInt (c_offset c)).
  change (get (cursor_json c) "accepted") with (JInt (c_accepted c)).
  change (get (cursor_json c) "previous_history_not_delivered") with (JBool true).
  change (get (cursor_json c) "seen_ids") with (JList (JStr <$> c_seen_ids c)).
  change (get (cursor_json c) "last_acceptance") with (c_last_acceptance c).
  change (get (cursor_json c) "kind") with (JStr CURSOR_KIND).
  rewrite hex_strings_texts. unfold cursor_json at 1.
  match goal with |- (if negb ?b then _ else _) = _ => replace b with true by (symmetry; reflexivity) end.
  cbn [negb]. replace (py_eq (JStr CURSOR_KIND) (JStr CURSOR_KIND)) with true by (symmetry; by_compute).
  rewrite andb_true_l. destruct (forallb _ (c_seen_ids c)); [by rewrite andb_true_r|].
  by rewrite andb_false_r.
Qed.

Lemma read_cursor_json identity raw topic c c' :
  read_cursor identity raw topic (cursor_json c) = Ok c' <->
  c' = c /\ cursor_valid c /\ tracks identity raw topic c.
Proof.
  unfold read_cursor. rewrite cursor_shape_json.
  change (get (cursor_json c) "topic_sha256") with (JStr (c_topic_sha256 c)).
  change (get (cursor_json c) "prefix_sha256") with (JStr (c_prefix_sha256 c)).
  cbn [py_eq]. split.
  - destr_match; [|done].
    rewrite !andb_true_iff, !Z.eqb_eq, !Z.leb_le, Nat.leb_le in *.
    destruct (str_eqb_spec (c_topic_sha256 c) (sha256_hex topic)) as [Ht|]; [|done].
    destruct (str_eqb_spec (c_prefix_sha256 c) (digest_of raw (c_offset c))) as [Hp|]; [|done].
    destruct (offset_ends_line raw (c_offset c)) eqn:El; [|done]. cbn [negb].
    intros [= <-]. destruct_and!. rewrite forallb_Forall in *. split_and!.
    + rewrite <-Hp, <-Ht. destruct c; cbn in *; congruence.
    + by split_and!.
    + constructor; auto. destruct identity; cbn in *; congruence.
  - intros (-> & (Ha & Hs & Hids & Hl) & [-> [] Hp Ht El]). cbn [fst snd].
    rewrite !Z.eqb_refl, Hl. rewrite (proj2 (Z.leb_le _ _)), (proj2 (Z.leb_le (c_offset c) _)),
      (proj2 (Z.leb_le 0 (c_accepted c))), (proj2 (Nat.leb_le _ _)), (proj2 (forallb_Forall _ _)) by done.
    cbn [andb]. rewrite Ht, Hp, !str_eqb_refl, El. cbn [negb]. f_equal. rewrite <-Ht, <-Hp.
    by destruct c.
Qed.

Lemma tracks_app identity raw more topic c :
  tracks identity raw topic c -> tracks identity (raw ++ more) topic c.
Proof.
  intros [Hi Ho Hp Ht Hl].
  assert (take (Z.to_nat (c_offset c)) (raw ++ more) = take (Z.to_nat (c_offset c)) raw) as E.
  { rewrite take_app_le; [done|lia]. }
  constructor; auto.
  - rewrite length_app. lia.
  - unfold digest_of. by rewrite E.
  - unfold offset_ends_line in *. by rewrite E.
Qed.

(** ** Lemmas: lines and rows *)

Lemma splitlines_concat raw : concat (splitlines raw) = raw.
Proof.
  induction raw as [raw IH] using (induction_ltof1 _ (@length N)). unfold ltof in IH.
  destruct raw as [|c raw]; [done|]. cbn [splitlines].
  destruct (N.eqb_spec c 10) as [->|]; [cbn; rewrite IH; [done|cbn; lia]|].
  destruct (N.eqb_spec c 13) as [->|].
  - destruct raw as [|d raw]; [done|].
    destruct (N.eqb_spec d 10) as [->|].
    + cbn. rewrite IH; [done|cbn; lia].
    + cbn [concat]. rewrite IH; [done|cbn; lia].
  - pose proof (IH raw ltac:(cbn; lia)) as Hr.
    destruct (splitlines raw) as [|l ls]; cbn in *; by rewrite <-Hr.
Qed.

(** A text without carriage returns. *)
Definition no_cr (raw : bytes) : Prop := Forall (fun c => c <> 13%N) raw.

Lemma splitlines_cons c raw :
  c <> 13%N -> splitlines (c :: raw) =
  if (c =? 10)%N then [c] :: splitlines raw
  else match splitlines raw with [] => [[c]] | l :: ls => (c :: l) :: ls end.
Proof. intros Hc. cbn [splitlines]. by rewrite (proj2 (N.eqb_neq c 13) Hc). Qed.

Lemma splitlines_nonnil c raw : splitlines (c :: raw) <> [].
Proof. cbn. repeat destr_match; done. Qed.

Lemma splitlines_nil raw : splitlines raw = [] -> raw = [].
Proof. destruct raw as [|c raw]; [done|]. intros H. by apply splitlines_nonnil in H. Qed.

Lemma ends_line_cons c d raw : ends_line (c :: d :: raw) = ends_line (d :: raw).
Proof.
  unfold ends_line. cbn [List.rev]. generalize (List.rev raw). intros l.
  destruct l; done.
Qed.

Lemma ends_line_app raw : ends_line raw = true <-> raw = [] \/ exists l, raw = l ++ [10%N].
Proof.
  unfold ends_line. destruct raw as [|c raw _] using rev_ind.
  - split; auto.
  - rewrite List.rev_unit. cbn. rewrite N.eqb_eq. split.
    + intros ->. right. by exists raw.
    + intros [H|[l H]]; [by destruct raw|]. by apply app_inj_tail in H as [_ ->].
Qed.

(** Lines of a text that ends a line, followed by more. *)
Lemma splitlines_app a b :
  no_cr a -> ends_line a = true -> splitlines (a ++ b) = splitlines a ++ splitlines b.
Proof.
  induction 1 as [|c a Hc Ha IH]; [done|]. intros He. cbn [app].
  rewrite !splitlines_cons by done. destruct (N.eqb_spec c 10) as [->|Hn].
  - destruct a as [|d a]; [done|]. rewrite ends_line_cons in He. by rewrite IH.
  - destruct a as [|d a].
    + unfold ends_line in He. cbn in He. by apply N.eqb_eq in He.
    + rewrite ends_line_cons in He. rewrite IH by done.
      destruct (splitlines (d :: a)) eqn:E; [by apply splitlines_nonnil in E|done].
Qed.

(** Each line of such a text ends one. *)
Lemma splitlines_end a l :
  no_cr a -> ends_line a = true -> l ∈ splitlines a -> ends_line l = true /\ l <> [].
Proof.
  induction 1 as [|c a Hc Ha IH] in l |- *; [by intros _ ?%elem_of_nil|]. intros He.
  rewrite splitlines_cons by done. destruct (N.eqb_spec c 10) as [->|Hn].
  - intros [->|Hl]%elem_of_cons; [done|]. apply IH; [|done].
    destruct a; [done|]. by rewrite ends_line_cons in He.
  - destruct a as [|d a].
    { unfold ends_line in He. cbn in He. by apply N.eqb_eq in He. }
    rewrite ends_line_cons in He.
    destruct (splitlines (d :: a)) as [|m ms] eqn:E; [by apply splitlines_nonnil in E|].
    intros [->|Hl]%elem_of_cons.
    + destruct (IH m) as [Hm Hmn]; [done|by left|]. split; [|done].
      destruct m as [|x m]; [done|]. by rewrite ends_line_cons.
    + apply IH; [done|by right].
Qed.

(** The first line, and the lines of what follows it. *)
Lemma splitlines_first a l ls :
  no_cr a -> splitlines a = l :: ls -> splitlines (concat ls) = ls /\ (ls <> [] -> splitlines l = [l]).
Proof.
  intros Ha. revert l ls. induction Ha as [|c a Hc Ha IH]; intros l ls; [done|].
  rewrite splitlines_cons by done. destruct (N.eqb_spec c 10) as [->|Hn].
  - intros [= <- <-]. by rewrite splitlines_concat.
  - destruct (splitlines a) as [|m ms] eqn:E; intros [= <- <-]; [done|].
    destruct (IH _ _ eq_refl) as [H1 H2]. split; [done|]. intros Hms.
    rewrite splitlines_cons by done. rewrite (proj2 (N.eqb_neq _ _) Hn), H2 by done. done.
Qed.

Lemma no_cr_concat ls : no_cr (concat ls) <-> Forall no_cr ls.
Proof.
  induction ls as [|l ls IH]; cbn; [by split; constructor|].
  unfold no_cr in *. by rewrite Forall_app, IH, Forall_cons.
Qed.

Lemma splitlines_drop a n : no_cr a -> splitlines (concat (drop n (splitlines a))) = drop n (splitlines a).
Proof.
  revert a; induction n as [|n IH]; intros a Ha; [by rewrite drop_0, splitlines_concat|].
  destruct (splitlines a) as [|l ls] eqn:E; [done|]. cbn [drop].
  destruct (splitlines_first a l ls Ha E) as [Hls _]. rewrite <-Hls. apply IH.
  assert (Forall no_cr (l :: ls)) as Hall by (rewrite <-E; apply no_cr_concat; by rewrite splitlines_concat).
  apply Forall_cons in Hall as [_ Hall]. by apply no_cr_concat.
Qed.

Lemma ends_line_concat ls : Forall (fun l => ends_line l = true) ls -> ends_line (concat ls) = true.
Proof.
  induction 1 as [|l ls Hl _ IH]; [done|]. cbn. apply ends_line_app in IH as [->|[b ->]].
  - by rewrite app_nil_r.
  - apply ends_line_app. right. exists (l ++ b). by rewrite (assoc_L (++)).
Qed.

Lemma ends_line_join a b : ends_line a = true -> ends_line b = true -> ends_line (a ++ b) = true.
Proof. intros Ha Hb. pose proof (ends_line_concat [a; b]). cbn in *. rewrite app_nil_r in *. auto. Qed.

Lemma ends_line_drop o raw : ends_line raw = true -> ends_line (drop o raw) = true.
Proof.
  intros [->|[b ->]]%ends_line_app; [by rewrite drop_nil|].
  destruct (Nat.le_gt_cases o (length b)) as [Hle|Hgt].
  - rewrite drop_app_le by done. apply ends_line_app. eauto.
  - rewrite drop_ge; [done|]. rewrite length_app. cbn. lia.
Qed.

Lemma next_line raw o l ls :
  no_cr raw -> ends_line raw = true -> (o <= length raw)%nat ->
  ends_line (take o raw) = true -> splitlines (drop o raw) = l :: ls ->
  drop o (take (o + length l) raw) = l /\ splitlines l = [l] /\
  ends_line (take (o + length l) raw) = true /\ (o + length l <= length raw)%nat /\
  splitlines (drop (o + length l) raw) = ls.
Proof.
  intros Hcr He Ho Heo Hs. pose proof (Forall_drop _ o _ Hcr) as Hcr'.
  assert (drop o raw = l ++ concat ls) as Hd.
  { rewrite <-(splitlines_concat (drop o raw)). by rewrite Hs. }
  assert (raw = take o raw ++ l ++ concat ls) as Hr by by rewrite <-Hd, take_drop.
  pose proof (ends_line_drop o _ He) as He'.
  destruct (splitlines_end _ l Hcr' He') as [Hel Hne]; [rewrite Hs; by left|].
  destruct (splitlines_first _ l ls Hcr' Hs) as [Hls Hl1].
  assert (take (o + length l) raw = take o raw ++ l) as Ht.
  { rewrite Hr at 1. rewrite take_app_ge by (rewrite length_take; lia).
    rewrite length_take, Nat.min_l by lia. f_equal. rewrite take_app_le by lia.
    apply take_ge. lia. }
  assert (splitlines l = [l]) as Hsl.
  { destruct ls as [|m ms]; [|by apply Hl1]. cbn in Hd. by rewrite app_nil_r in Hd; rewrite <-Hd at 1. }
  split_and!; try done.
  - rewrite Ht, drop_app_ge by (rewrite length_take; lia).
    rewrite length_take, Nat.min_l by lia. by rewrite Nat.sub_diag.
  - rewrite Ht. by apply ends_line_join.
  - apply (f_equal length) in Hr. rewrite !length_app, length_take in Hr. lia.
  - rewrite <-Hls. f_equal. rewrite <-drop_drop, Hd. rewrite drop_app_ge by lia.
    by rewrite Nat.sub_diag.
Qed.

Section rows.
Context (loads : bytes -> result exn json).

(** Parsed rows that follow each other from [start] on. *)
Fixpoint rows_at (start : Z) (rows : list row) : Prop :=
  match rows with
  | [] => True
  | r :: rows' =>
      row_end r = start + Z.of_nat (length (row_line r)) /\ row_line r <> [] /\
      loads (row_line r) = Ok (row_event r) /\ event_contract (row_event r) = Ok true /\
      rows_at (row_end r) rows'
  end.

Lemma journal_rows_at start lines rows :
  journal_rows loads start lines = Ok rows -> row_line <$> rows = lines /\ rows_at start rows.
Proof.
  revert start rows; induction lines as [|l lines IH]; intros start rows; cbn [journal_rows].
  - by intros [= <-].
  - destruct ((2 <=? _) && _) eqn:Hl; [|done]. cbn [negb].
    destruct (loads l) as [ev|x] eqn:El; [|by destruct (issubclass _ _)].
    destruct (event_contract ev) as [ok|] eqn:Ec; cbn; [|done]. destruct ok; [|done].
    intros (rest & Hr & [= <-])%bind_ok. apply IH in Hr as [<- Hr]. cbn. split_and!; try done.
    apply andb_true_iff in Hl as [Hl _]. apply Z.leb_le in Hl. by destruct l.
Qed.

Lemma rows_at_app start a b :
  rows_at start (a ++ b) <->
  rows_at start a /\ rows_at (start + Z.of_nat (length (concat (row_line <$> a)))) b.
Proof.
  revert start; induction a as [|r a IH]; intros start; cbn.
  - rewrite Z.add_0_r. naive_solver.
  - rewrite IH, length_app, Nat2Z.inj_add, Z.add_assoc. split.
    + intros (E & ? & ? & ? & ? & Hb). rewrite <-E. by split_and!.
    + intros ((E & ? & ? & ? & ?) & Hb). rewrite <-E in Hb. by split_and!.
Qed.

Lemma rows_at_end start a :
  rows_at start a ->
  Forall (fun r => row_end r <= start + Z.of_nat (length (concat (row_line <$> a)))) a.
Proof.
  revert start; induction a as [|r a IH]; intros start; cbn; [constructor|].
  intros (E & _ & _ & _ & Ha). rewrite length_app. constructor; [lia|].
  eapply Forall_impl; [by apply IH|]. cbn. intros. lia.
Qed.

(** The rows up to a line boundary are its lines, and the rest are the lines after it. *)
Lemma journal_split raw rows o :
  parse_journal loads raw = Ok rows -> no_cr raw -> 0 <= o <= Z.of_nat (length raw) ->
  offset_ends_line raw o = true ->
  exists before pending, rows = before ++ pending /\
    Forall (fun r => row_end r <= o) before /\ rows_at o pending /\
    row_line <$> pending = splitlines (drop (Z.to_nat o) raw).
Proof.
  unfold parse_journal. destruct (ends_line raw) eqn:He; [|done]. cbn [negb].
  intros [Hl Hr]%journal_rows_at Hcr Ho Hend.
  assert (splitlines raw = splitlines (take (Z.to_nat o) raw) ++ splitlines (drop (Z.to_nat o) raw)) as Hs.
  { rewrite <-(take_drop (Z.to_nat o) raw) at 1. apply splitlines_app; [by apply Forall_take|].
    unfold offset_ends_line in Hend. destruct (Z.eqb_spec o 0) as [->|]; done. }
  rewrite Hs in Hl. apply fmap_app_inv in Hl as (a & b & Ha & Hb & ->).
  apply rows_at_app in Hr as [Hra Hrb].
  assert (0 + Z.of_nat (length (concat (row_line <$> a))) = o) as Eo.
  { rewrite <-Ha, splitlines_concat, length_take. lia. }
  exists a, b. split_and!; try done.
  - pose proof (rows_at_end 0 a Hra) as He'. by rewrite Eo in He'.
  - by rewrite <-Eo.
Qed.
End rows.

(** ** Delivery over histories *)

Section delivery.
Context `{PyHost} (loads : bytes -> result exn json).

(** The lines that call for a notification. *)
Definition alarm_line (l : bytes) : bool :=
  match loads l with Ok event => alarming event | Err _ => false end.

Definition request_of (topic : pystr) (l : bytes) (rq : request) : Prop :=
  exists event, loads l = Ok event /\ alarming event = true /\
    rq = ntfy_request topic event (sha256_hex l).

(** What an enrollment fixed: the length of the journal then, the recipient, and what had been sent. *)
Record enrolled : Type := Enrolled { en_start : nat; en_topic_sha256 : pystr; en_sent : list request }.

(** A complete line written after the enrollment. *)
Definition written_line (e : enrolled) (journal : bytes) (l : bytes) : Prop :=
  exists stop, (stop <= length journal)%nat /\ ends_line (take stop journal) = true /\
    l ∈ splitlines (drop (en_start e) (take stop journal)).

Definition notifies (e : enrolled) (journal : bytes) (rq : request) : Prop :=
  exists topic l, sha256_hex topic = en_topic_sha256 e /\ written_line e journal l /\
    request_of topic l rq.

(** [c] answers for everything between the enrollment and its offset, and everything sent since is
    the notification of a journal line written after the enrollment. *)
Record covered (e : enrolled) (journal : bytes) (sent : list request) (c : cursor) : Prop := Covered {
  cv_no_cr : no_cr journal;
  cv_start : Z.of_nat (en_start e) <= c_offset c <= Z.of_nat (length journal);
  cv_start_line : ends_line (take (en_start e) journal) = true;
  cv_line : ends_line (take (Z.to_nat (c_offset c)) journal) = true;
  cv_topic : c_topic_sha256 c = en_topic_sha256 e;
  cv_sent : exists new, sent = en_sent e ++ new /\ Forall (notifies e journal) new /\
    Forall (fun i => i ∈ rq_event_id <$> new) (c_seen_ids c) /\
    Forall (fun l => alarm_line l = true -> sha256_hex l ∈ rq_event_id <$> new)
      (splitlines (drop (en_start e) (take (Z.to_nat (c_offset c)) journal)));
}.

Definition durable (e : enrolled) (w : world) : Prop :=
  exists c, w_cursor w = Some (cursor_json c) /\ covered e (w_journal w) (w_sent w) c.

(** The watcher appends, the transport runs under some answers and faults, somebody enrolls again. *)
Inductive watch_step : world -> world -> Prop :=
  | step_append w more :
      no_cr more ->
      watch_step w (World (w_journal w ++ more) (w_cursor w) (w_sent w) (w_codes w) (w_faults w))
  | step_dispatch w r now codes fs :
      watch_step w (snd (dispatch loads r now
        (World (w_journal w) (w_cursor w) (w_sent w) codes fs)))
  | step_enroll w r ack fs :
      watch_step w (snd (enroll loads r ack
        (World (w_journal w) (w_cursor w) (w_sent w) (w_codes w) fs))).

(** Appending moves neither the start nor the offset. *)
Lemma covered_append e j sent c more :
  no_cr more -> covered e j sent c -> covered e (j ++ more) sent c.
Proof.
  intros Hm [Hcr Hs Hsl Hl Ht (new & Hn & Hrq & Hseen & Hall)].
  assert (forall n, (n <= length j)%nat -> take n (j ++ more) = take n j) as Htake
    by (intros; by rewrite take_app_le).
  constructor; [|rewrite length_app; lia|rewrite Htake by lia; done|rewrite Htake by lia; done|done|].
  - by apply Forall_app.
  - exists new. rewrite (Htake (Z.to_nat _)) by lia. split_and!; try done.
    eapply Forall_impl; [exact Hrq|]. intros rq (topic & l & Htop & (stop & Hle & He & Hin) & Hreq).
    exists topic, l. split_and!; try done. exists stop. rewrite Htake by done.
    rewrite length_app. split_and!; try done. lia.
Qed.

Lemma lines_between e j sent c stop :
  covered e j sent c -> c_offset c <= stop <= Z.of_nat (length j) ->
  splitlines (drop (en_start e) (take (Z.to_nat stop) j)) =
  splitlines (drop (en_start e) (take (Z.to_nat (c_offset c)) j)) ++
  splitlines (drop (Z.to_nat (c_offset c)) (take (Z.to_nat stop) j)).
Proof.
  intros [Hcr Hs Hsl Hl _ _] Hstop.
  set (a := drop (en_start e) (take (Z.to_nat (c_offset c)) j)) in *.
  set (b := drop (Z.to_nat (c_offset c)) (take (Z.to_nat stop) j)) in *.
  assert (drop (en_start e) (take (Z.to_nat stop) j) = a ++ b) as ->.
  { unfold a, b. rewrite <-(take_drop (Z.to_nat (c_offset c)) (take (Z.to_nat stop) j)) at 1.
    rewrite take_take, Nat.min_l by lia.
    rewrite drop_app_le; [done|]. rewrite length_take. lia. }
  apply splitlines_app; unfold a; [by apply Forall_drop, Forall_take|].
  by apply ends_line_drop.
Qed.

(** A line is done once it asks for nothing or its notification has been sent. *)
Lemma covered_advance e j sent c raw stop :
  covered e j sent c -> c_offset c <= stop <= Z.of_nat (length j) ->
  ends_line (take (Z.to_nat stop) j) = true ->
  (exists new, sent = en_sent e ++ new /\
     Forall (fun l => alarm_line l = true -> sha256_hex l ∈ rq_event_id <$> new)
       (splitlines (drop (Z.to_nat (c_offset c)) (take (Z.to_nat stop) j)))) ->
  covered e j sent (advance raw stop c).
Proof.
  intros Hc Hstop He (new' & E & Hmore). pose proof (lines_between _ _ _ _ _ Hc Hstop) as Hb.
  destruct Hc as [Hcr Hs Hsl Hl Ht (new & -> & Hrq & Hseen & Hall)].
  apply app_inv_head in E as <-.
  constructor; cbn; [done|lia|done|done|done|]. exists new. split_and!; try done.
  rewrite Hb. by apply Forall_app.
Qed.

Lemma covered_send e j sent c rq :
  covered e j sent c -> notifies e j rq -> covered e j (sent ++ [rq]) c.
Proof.
  intros [Hcr Hs Hsl Hl Ht (new & -> & Hrq & Hseen & Hall)] Hn.
  constructor; try done. exists (new ++ [rq]). rewrite fmap_app. split_and!.
  - by rewrite (assoc_L (++)).
  - apply Forall_app. by repeat constructor.
  - eapply Forall_impl; [exact Hseen|]. intros. apply elem_of_app. auto.
  - eapply Forall_impl; [exact Hall|]. cbn. intros. apply elem_of_app. auto.
Qed.

Lemma elem_of_last_n {A} n (l : list A) x : x ∈ last_n n l -> x ∈ l.
Proof. unfold last_n. intros Hx. rewrite <-(take_drop (length l - n) l). apply elem_of_app. auto. Qed.

Lemma covered_accept e j sent c now event i code :
  covered e j sent c -> (exists new, sent = en_sent e ++ new /\ i ∈ rq_event_id <$> new) ->
  covered e j sent (accept now c event i code).
Proof.
  intros [Hcr Hs Hsl Hl Ht (new & -> & Hrq & Hseen & Hall)] (new' & E & Hi).
  apply app_inv_head in E as <-.
  constructor; try done. exists new. split_and!; try done. cbn.
  rewrite Forall_forall in *. intros x Hx%elem_of_last_n.
  apply elem_of_app in Hx as [Hx|Hx]; [by apply Hseen|]. by apply list_elem_of_singleton in Hx as ->.
Qed.

(** The three ends of a call: done, refused, done but the answer lost. *)
Lemma call_cases {S A} `{Faulty S} (m : eff S A) s :
  exists fs, call m s = m (with_faults s fs) \/
    exists x, call m s = (Err x, with_faults s fs) \/ call m s = (Err x, snd (m (with_faults s fs))).
Proof.
  unfold call. destruct (faults s) as [|[|x|x] fs] eqn:Ef.
  - exists []. left. by rewrite <-Ef, with_same.
  - exists fs. by left.
  - exists fs. right. exists x. by left.
  - exists fs. right. exists x. by right.
Qed.

(** A computation that at most writes the cursor [v], and has written it when it returns. *)
Definition writes (v : json) (w : world) (res : result exn unit * world) : Prop :=
  exists fs, snd res = with_faults (set_cursor v w) fs \/
             snd res = with_faults w fs /\ exists x, fst res = Err x.
(** One that leaves the cursor. *)
Definition keeps {A} (m : eff world A) : Prop :=
  forall w, exists fs, snd (m w) = with_faults w fs.

Lemma aside_keeps : keeps aside.
Proof.
  intros w. unfold aside. match goal with |- context [call ?m w] =>
    destruct (call_cases m w) as (fs & [->|(x & [->| ->])]) end; by exists fs.
Qed.
Lemma bind_keeps {A B} (m : eff world A) (f : A -> eff world B) :
  keeps m -> (forall a, keeps (f a)) -> keeps (m ≫= f).
Proof.
  intros Hm Hf w. unfold mbind, eff_bind. destruct (Hm w) as (fs & E).
  destruct (m w) as [[a|x] w1]; cbn in E; subst w1; [|by exists fs].
  destruct (Hf a (with_faults w fs)) as (fs' & E). by exists fs'.
Qed.
Lemma finally_keeps {A} (m : eff world A) (cleanup : eff world unit) :
  keeps m -> keeps cleanup -> keeps (try_finally m cleanup).
Proof.
  intros Hm Hc w. unfold try_finally. destruct (Hm w) as (fs & E).
  destruct (m w) as [r w1]; cbn in E; subst w1.
  destruct (Hc (with_faults w fs)) as (fs' & E). exists fs'. rewrite with_with in E.
  by destruct (cleanup _) as [[] ?].
Qed.
Lemma except_keeps {A} classes (m : eff world A) h :
  keeps m -> (forall x, keeps (h x)) -> keeps (try_except classes m h).
Proof.
  intros Hm Hh w. unfold try_except. destruct (Hm w) as (fs & E).
  destruct (m w) as [[a|x] w1]; cbn in E; subst w1; [by exists fs|].
  destruct (existsb _ _); [|by exists fs].
  destruct (Hh x (with_faults w fs)) as (fs' & E). by exists fs'.
Qed.
Lemma ret_keeps {A} (a : A) : keeps (mret a).
Proof. intros w. exists (w_faults w). by destruct w. Qed.
#[local] Hint Resolve aside_keeps bind_keeps finally_keeps except_keeps ret_keeps : core.

(** What surrounds the writing computation does not matter. *)
Lemma before_writes {A} (m : eff world A) (f : A -> eff world unit) v w :
  keeps m -> (forall a w, writes v w (f a w)) -> writes v w ((m ≫= f) w).
Proof.
  intros Hm Hf. unfold mbind, eff_bind. destruct (Hm w) as (fs & E).
  destruct (m w) as [[a|x] w1]; cbn in E; subst w1.
  - destruct (Hf a (with_faults w fs)) as (fs' & [E|[E Hx]]); exists fs'; [left; exact E|right; by split].
  - exists fs. right. split; [done|]. by exists x.
Qed.
Lemma after_writes (m : eff world unit) (f : unit -> eff world unit) v w :
  writes v w (m w) -> keeps (f tt) -> writes v w ((m ≫= f) w).
Proof.
  intros (fs & E) Hf. unfold mbind, eff_bind. destruct (m w) as [[[]|x] w1]; cbn in E.
  - destruct E as [->|[-> (x & [=])]]. destruct (Hf (with_faults (set_cursor v w) fs)) as (fs' & E).
    exists fs'. left. exact E.
  - by exists fs.
Qed.
Lemma finally_writes (m cleanup : eff world unit) v w :
  writes v w (m w) -> keeps cleanup -> writes v w (try_finally m cleanup w).
Proof.
  intros (fs & E) Hc. unfold try_finally. destruct (m w) as [r w1]; cbn in E.
  destruct E as [->|[-> (x & ->)]];
    (match goal with |- context [cleanup ?w1] => destruct (Hc w1) as (fs' & E') end);
    (destruct (cleanup _) as [r' w2]; cbn in E'; subst w2; exists fs'; destruct r'; [|]);
    try (by left); right; (split; [done|]); by eexists.
Qed.

Lemma write_cursor_writes `{PyHost} c w : writes (cursor_json c) w (write_cursor c w).
Proof.
  unfold write_cursor. destruct (_ <? _).
  { exists (w_faults w). right. split; [by destruct w|]. by eexists. }
  apply before_writes; [auto|]. intros _ w1. apply finally_writes; [|auto].
  apply before_writes; [auto|]. intros _ w2. apply before_writes; [auto|]. intros _ w3.
  apply after_writes; [|auto]. unfold replace_cursor.
  match goal with |- context [call ?m w3] => destruct (call_cases m w3) as (fs & [->|(x & [->| ->])]) end;
    exists fs; [by left|right|by left]. split; [done|]. by exists x.
Qed.

(** What publishing one row leaves behind, whatever happens. *)
Definition published (e : enrolled) (w w1 : world) (c : cursor) (l : bytes)
    (res : result exn (cursor * nat)) : Prop :=
  w_journal w1 = w_journal w /\ w_cursor w1 = w_cursor w /\
  covered e (w_journal w) (w_sent w1) c /\
  match res with
  | Ok (c1, _) =>
      c_offset c1 = c_offset c /\ covered e (w_journal w) (w_sent w1) c1 /\
      (alarm_line l = true -> exists new, w_sent w1 = en_sent e ++ new /\
                                          sha256_hex l ∈ rq_event_id <$> new)
  | Err _ => True
  end.

Lemma publish_safe e topic now c r w :
  covered e (w_journal w) (w_sent w) c -> sha256_hex topic = en_topic_sha256 e ->
  written_line e (w_journal w) (row_line r) -> loads (row_line r) = Ok (row_event r) ->
  published e w (snd (publish_row topic now c r w)) c (row_line r) (fst (publish_row topic now c r w)).
Proof.
  intros Hc Ht Hl Hloads. unfold publish_row.
  destruct (alarming (row_event r) && _) eqn:Ha.
  - apply andb_true_iff in Ha as [Ha _].
    set (rq := ntfy_request topic (row_event r) (sha256_hex (row_line r))).
    assert (notifies e (w_journal w) rq) as Hrq.
    { exists topic, (row_line r). split_and!; try done. by exists (row_event r). }
    pose proof (covered_send _ _ _ _ _ Hc Hrq) as Hc1.
    assert (exists new, w_sent w ++ [rq] = en_sent e ++ new /\
              sha256_hex (row_line r) ∈ rq_event_id <$> new) as Hnew.
    { destruct Hc as [_ _ _ _ _ (new & -> & _)]. exists (new ++ [rq]).
      rewrite (assoc_L (++)), fmap_app. split; [done|]. apply elem_of_app. right. by left. }
    unfold mbind, eff_bind, post_ntfy.
    match goal with |- context [call ?m w] => destruct (call_cases m w) as (fs & [->|(x & [->| ->])]) end;
      cbn; fold rq; [|done|done].
    destruct (_ || _); cbn; [|done].
    split_and!; try done. by apply covered_accept.
  - unfold published. cbn. split_and!; try done. intros Hal. unfold alarm_line in Hal. rewrite Hloads in Hal.
    rewrite Hal in Ha. apply negb_false_iff, str_in_elem in Ha.
    destruct Hc as [_ _ _ _ _ (new & -> & _ & Hseen & _)]. exists new. split; [done|].
    rewrite Forall_forall in Hseen. by apply Hseen.
Qed.

Lemma rows_safe e topic now raw rest rows c w p a :
  w_journal w = raw ++ rest -> ends_line raw = true -> w_cursor w = Some (cursor_json c) ->
  covered e (w_journal w) (w_sent w) c -> sha256_hex topic = en_topic_sha256 e ->
  c_offset c <= Z.of_nat (length raw) -> rows_at loads (c_offset c) rows ->
  row_line <$> rows = splitlines (drop (Z.to_nat (c_offset c)) raw) ->
  durable e (snd (dispatch_rows topic now raw rows c p a w)).
Proof.
  intros Hraw He Hw Hc Ht Hlen Hat Hlines. revert c w p a Hraw Hw Hc Hlen Hat Hlines.
  induction rows as [|r rows IH]; intros c w p a Hraw Hw Hc Hlen Hat Hlines; [by exists c|].
  cbn [dispatch_rows]. destruct Hat as (Hend & Hne & Hloads & _ & Hat).
  assert (0 < length (row_line r))%nat as Hpos by (destruct (row_line r); [done|cbn; lia]).
  rewrite (proj2 (Z.leb_gt _ _)) by lia.
  destruct (MAX_BATCH <=? p)%nat; [by exists c|].
  assert (forall n, (n <= length raw)%nat -> take n (w_journal w) = take n raw) as Htake
    by (intros; by rewrite Hraw, take_app_le).
  pose proof (cv_start _ _ _ _ Hc) as Hstart. rewrite fmap_cons in Hlines. symmetry in Hlines.
  pose proof (cv_line _ _ _ _ Hc) as Hco. rewrite Htake in Hco by lia.
  assert (no_cr raw) as Hcr
    by (pose proof (cv_no_cr _ _ _ _ Hc) as Hcr; rewrite Hraw in Hcr; by apply Forall_app in Hcr as [? _]).
  destruct (next_line raw (Z.to_nat (c_offset c)) _ _ Hcr He ltac:(lia) Hco Hlines)
    as (Hl & Hsl & Hel & Hle & Hrest).
  replace (Z.to_nat (c_offset c) + length (row_line r))%nat with (Z.to_nat (row_end r)) in * by lia.
  assert (length raw <= length (w_journal w))%nat by (rewrite Hraw, length_app; lia).
  rewrite <-Htake in Hl, Hel by done.
  assert (c_offset c <= row_end r <= Z.of_nat (length (w_journal w))) as Hstop by lia.
  assert (written_line e (w_journal w) (row_line r)) as Hwl.
  { exists (Z.to_nat (row_end r)). split_and!; [lia|done|].
    rewrite (lines_between _ _ _ _ _ Hc Hstop), Hl, Hsl. apply elem_of_app. right. by left. }
  pose proof (publish_safe e topic now c r w Hc Ht Hwl Hloads) as Hpub.
  unfold mbind, eff_bind. destruct (publish_row topic now c r w) as [[[c1 k]|x] w1];
    destruct Hpub as (Hj & Hcur & Hc0 & Hpub); cbn [fst snd] in *.
  2:{ exists c. by rewrite Hj, Hcur. }
  destruct Hpub as (Hoff & Hc1 & Hdone).
  assert (covered e (w_journal w) (w_sent w1) (advance raw (row_end r) c1)) as Hc2.
  { apply covered_advance; [done|lia|done|]. rewrite Hoff, Hl, Hsl.
    destruct (alarm_line (row_line r)) eqn:Ha.
    - destruct (Hdone eq_refl) as (new & E & Hin). exists new. by repeat constructor.
    - destruct Hc1 as [_ _ _ _ _ (new & E & _)]. exists new. split; [done|]. constructor; [|done].
      congruence. }
  set (c2 := advance raw (row_end r) c1) in *.
  destruct (write_cursor_writes c2 w1) as (fs & E).
  destruct (write_cursor c2 w1) as [[[]|x] w2]; cbn [fst snd] in E.
  - destruct E as [->|[_ (x & [=])]]. apply IH; cbn; rewrite ?Hj; try done. lia.
  - destruct E as [->|[-> _]]; [exists c2|exists c]; cbn; by rewrite Hj, ?Hcur.
Qed.

Lemma checked_bytes_prefix uid limit private before after content raw :
  checked_bytes uid limit private before after content = Ok raw ->
  exists rest, content = raw ++ rest /\ Z.of_nat (length raw) <= Z.max 0 limit.
Proof.
  unfold checked_bytes, checked_identity. destruct (_ || _) eqn:Hc; [done|]. cbn.
  destruct (Z.of_nat _ <? _); [done|]. destruct (checked_unchanged _ _); cbn; [|done]. intros [= <-].
  exists (drop (Z.to_nat (st_size before)) content). rewrite take_drop. split; [done|].
  rewrite !orb_false_iff, Z.ltb_ge in Hc. rewrite length_take. lia.
Qed.

Lemma dispatch_durable e w r now codes fs :
  durable e w -> durable e (snd (dispatch loads r now (World (w_journal w) (w_cursor w) (w_sent w) codes fs))).
Proof.
  intros (c & Hcur & Hc). set (w0 := World _ _ _ codes fs).
  assert (durable e w0) as Hw0 by by exists c.
  unfold dispatch, mbind, eff_bind, pure, journal_snapshot, load_cursor.
  destruct (private_dir _ _); [|done]. destruct (read_topic r) as [topic|]; [|done].
  destruct (checked_bytes _ _ _ _ _ _) as [raw|] eqn:Hraw; cbn; [|done].
  apply checked_bytes_prefix in Hraw as (rest & Hraw & _). cbn in Hraw.
  destruct (parse_journal loads raw) as [rows|] eqn:Hrows; cbn; [|done].
  rewrite Hcur. destruct (checked_identity _ _ _ _); cbn; [|done].
  destruct (checked_unchanged _ _); cbn; [|done].
  destruct (read_cursor _ _ _ _) as [c'|] eqn:Hrc; [|done].
  apply read_cursor_json in Hrc as (-> & _ & [_ Ho _ Ht Hl]).
  pose proof (cv_no_cr _ _ _ _ Hc) as Hcr. rewrite Hraw in Hcr. apply Forall_app in Hcr as [Hcr _].
  destruct (journal_split loads raw rows (c_offset c) Hrows Hcr Ho Hl)
    as (done_rows & pending & -> & Hdone & Hat & Hlines).
  assert (ends_line raw = true) as He
    by (unfold parse_journal in Hrows; by destruct (ends_line raw)).
  assert (forall p a, dispatch_rows topic now raw (done_rows ++ pending) c p a =
                      dispatch_rows topic now raw pending c p a) as ->.
  { clear -Hdone. induction Hdone as [|x l Hx Hl IH]; [done|]. intros p a. cbn [app dispatch_rows].
    rewrite (proj2 (Z.leb_le _ _) Hx). apply IH. }
  pose proof (rows_safe e topic now raw rest pending c w0 0 0 Hraw He Hcur Hc) as Hsafe.
  rewrite <-(cv_topic _ _ _ _ Hc) in Hsafe.
  specialize (Hsafe (eq_sym Ht) ltac:(lia) Hat Hlines).
  by destruct (dispatch_rows topic now raw pending c 0 0 w0) as [[[[? ?] ?]|] ?].
Qed.

Lemma enroll_durable e w r ack fs :
  durable e w -> durable e (snd (enroll loads r ack (World (w_journal w) (w_cursor w) (w_sent w) (w_codes w) fs))).
Proof.
  intros (c & Hcur & Hc). set (w0 := World _ _ _ _ fs).
  assert (durable e w0) as Hw0 by by exists c.
  unfold enroll, mbind, eff_bind, pure, no_cursor. destruct ack; [|done]. cbn [negb].
  destruct (private_dir _ _); [|done]. destruct (read_topic r) as [topic|]; [|done].
  change (w_cursor w0) with (w_cursor w). by rewrite Hcur.
Qed.

Lemma watch_steps_durable e w w' : durable e w -> rtc watch_step w w' -> durable e w'.
Proof.
  intros Hd. induction 1 as [w|w w1 w' Hstep Hrest IH]; [done|]. apply IH. clear IH Hrest.
  destruct Hstep; [|by apply dispatch_durable|by apply enroll_durable].
  destruct Hd as (c & Hcur & Hc). exists c. split; [done|]. by apply covered_append.
Qed.
End delivery.

(** ** Lemmas: a run without faults *)

Section calm.
Context `{PyHost} (loads : bytes -> result exn json).

(** The notifications of [rows] for a transport that remembers [seen], and what it remembers then. *)
Fixpoint deliveries (topic : pystr) (seen : list pystr) (rows : list row) : list request :=
  match rows with
  | [] => []
  | r :: rows' =>
      let i := sha256_hex (row_line r) in
      if alarming (row_event r) && negb (str_in i seen)
      then ntfy_request topic (row_event r) i :: deliveries topic (last_n 32 (seen ++ [i])) rows'
      else deliveries topic seen rows'
  end.

(** The cursor after [rows]. *)
Definition after_row (now : pystr) (raw : bytes) (c : cursor) (r : row) : cursor :=
  let i := sha256_hex (row_line r) in
  advance raw (row_end r)
    (if alarming (row_event r) && negb (str_in i (c_seen_ids c))
     then accept now c (row_event r) i 200 else c).
Definition after_rows (now : pystr) (raw : bytes) : cursor -> list row -> cursor :=
  foldl (after_row now raw).

Lemma small_hex s : all_hex_of_length 64 s = true -> small_text 64 s.
Proof.
  intros [Hl Hs]%all_hex_spec. split; [|lia]. apply forallb_Forall.
  eapply Forall_impl; [exact Hs|]. intros c. cbn beta.
  unfold lower_hex, plain_char, ascii_digit, in_range.
  rewrite !orb_true_iff, !andb_true_iff, !negb_true_iff, !N.eqb_neq, !N.leb_le. lia.
Qed.

Lemma alarming_event event :
  alarming event = true ->
  get event "event" = JStr (event_name event) /\ small_text 64 (event_name event).
Proof.
  unfold alarming, event_name. intros Ha%str_in_elem.
  destruct (get event "event") as [| | | |s| |].
  5: { split; [done|]. rewrite !elem_of_cons in Ha.
       destruct Ha as [->|[->|Ha]]; [split; [reflexivity|by_compute]..|by apply elem_of_nil in Ha]. }
  all: exfalso; rewrite !elem_of_cons, elem_of_nil in Ha; destruct Ha as [Ha|[Ha|Ha]];
    [discriminate Ha|discriminate Ha|done].
Qed.

Lemma length_last_n {A} n (l : list A) : (length (last_n n l) <= n)%nat.
Proof. unfold last_n. rewrite length_drop. lia. Qed.

Lemma Forall_last_n {A} (P : A -> Prop) n l : Forall P l -> Forall P (last_n n l).
Proof. apply Forall_drop. Qed.

(** A cursor that will be read back and that leaves room for [n] more acceptances. *)
Record roomy (n : nat) (c : cursor) : Prop := Roomy {
  ro_valid : cursor_valid c;
  ro_compact : compact c;
  ro_accepted : c_accepted c + Z.of_nat n < 2 ^ 63;
}.

Lemma roomy_weaken m n c : (m <= n)%nat -> roomy n c -> roomy m c.
Proof. intros Hm [Hv Hc Ha]. constructor; [done|done|lia]. Qed.

Lemma after_row_roomy now raw n c r :
  small_text 64 now -> small_int (row_end r) -> roomy (S n) c -> roomy n (after_row now raw c r).
Proof.
  intros Hnow Hend [(Ha & Hs & Hids & Hl) [Hcd Hci Hco Hca Hcp Hct Hcs Hcids Hcl] Hroom].
  pose proof (sha256_hex_shape (row_line r)) as Hi.
  assert (forall k, small_text 64 (digest_of raw k)) as Hd by (intros; apply small_hex, sha256_hex_shape).
  unfold after_row. destruct (alarming (row_event r) && _) eqn:Hal; cbn.
  - apply andb_true_iff in Hal as [[He Hes]%alarming_event _].
    constructor; [split_and!|constructor|]; cbn; try done; try lia.
    + apply length_last_n.
    + apply Forall_last_n, Forall_app. by repeat constructor.
    + unfold small_int. lia.
    + apply length_last_n.
    + apply Forall_last_n, Forall_app. split; [done|]. constructor; [by apply small_hex|constructor].
    + right. rewrite He. exists (sha256_hex (row_line r)), (event_name (row_event r)), 200, now.
      split_and!; [done|by apply small_hex|done|done|done].
  - constructor; [by split_and!|constructor; cbn; auto|cbn; lia].
Qed.

Lemma after_rows_roomy now raw n c rows :
  small_text 64 now -> Forall (fun r => small_int (row_end r)) rows ->
  roomy (length rows + n) c -> roomy n (after_rows now raw c rows).
Proof.
  intros Hnow Hrows. revert c. induction Hrows as [|r rows Hr Hrows IH]; intros c Hc; [done|].
  apply IH. by apply after_row_roomy.
Qed.

Lemma rows_calm topic now raw rows c p a j s :
  small_text 64 now -> Forall (fun r => small_int (row_end r)) rows ->
  roomy (length rows) c -> rows_at loads (c_offset c) rows -> (p <= 8)%nat ->
  let n := Nat.min (8 - p) (length rows) in
  let sent := deliveries topic (c_seen_ids c) (take n rows) in
  let c' := after_rows now raw c (take n rows) in
  dispatch_rows topic now raw rows c p a (World j (Some (cursor_json c)) s [] []) =
  (Ok (c', (p + n)%nat, (a + length sent)%nat), World j (Some (cursor_json c')) (s ++ sent) [] []).
Proof.
  intros Hnow. revert c p a s. induction rows as [|r rows IH]; intros c p a s Hsmall Hroom Hat Hp; cbn zeta.
  { rewrite Nat.min_0_r. cbn. by rewrite !Nat.add_0_r, app_nil_r. }
  apply Forall_cons in Hsmall as [Hr Hsmall].
  destruct Hat as (Hend & Hne & Hloads & _ & Hat). cbn [dispatch_rows].
  assert (0 < length (row_line r))%nat as Hpos by (destruct (row_line r); [done|cbn; lia]).
  rewrite (proj2 (Z.leb_gt _ _)) by lia. change MAX_BATCH with 8%nat.
  destruct (Nat.leb_spec 8 p) as [Hge|Hlt].
  { replace (8 - p)%nat with 0%nat by lia. cbn. by rewrite !Nat.add_0_r, app_nil_r. }
  replace (Nat.min (8 - p) (length (r :: rows))) with (S (Nat.min (8 - S p) (length rows)))
    by (cbn [length]; lia).
  cbn [take]. change (after_rows now raw c (r :: ?l)) with (after_rows now raw (after_row now raw c r) l).
  pose proof (after_row_roomy now raw (length rows) c r Hnow Hr Hroom) as Hroom'.
  set (i := sha256_hex (row_line r)) in *.
  assert (exists c1, after_row now raw c r = advance raw (row_end r) c1 /\
    publish_row topic now c r (World j (Some (cursor_json c)) s [] []) =
      (Ok (c1, length (deliveries topic (c_seen_ids c) [r])),
       World j (Some (cursor_json c)) (s ++ deliveries topic (c_seen_ids c) [r]) [] []) /\
    forall rows', deliveries topic (c_seen_ids c) (r :: rows') =
      deliveries topic (c_seen_ids c) [r] ++ deliveries topic (c_seen_ids (advance raw (row_end r) c1)) rows')
    as (c1 & E & Hpub & Hdel).
  { unfold after_row, publish_row, deliveries. fold i. fold deliveries.
    destruct (alarming (row_event r) && negb (str_in i (c_seen_ids c))).
    - by eexists.
    - rewrite app_nil_r. by eexists. }
  rewrite E in *. set (c2 := advance raw (row_end r) c1) in *.
  rewrite Hdel, length_app, (assoc_L (++)), Nat.add_assoc, <-plus_n_Sm.
  rewrite (eff_bind_ok _ _ _ _ _ Hpub). cbn beta iota. fold c2.
  assert (forall s, write_cursor c2 (World j (Some (cursor_json c)) s [] []) =
    (Ok tt, World j (Some (cursor_json c2)) s [] [])) as Hwrite.
  { intros s0. unfold write_cursor. rewrite (proj2 (Z.ltb_ge _ _)); [done|]. apply cursor_fits, Hroom'. }
  rewrite (eff_bind_ok _ _ _ _ _ (Hwrite _)). apply IH; [done|done|done|lia].
Qed.

(** A run that can open every file and finds the whole journal. *)
Record opens_all (r : readings) (identity : Z * Z) (topic : pystr) (journal : bytes) : Prop := OpensAll {
  oa_dir : private_dir (r_uid r) (r_dir r) = Ok tt;
  oa_topic : read_topic r = Ok topic;
  oa_journal : checked_bytes (r_uid r) MAX_JOURNAL_BYTES false (fst (r_journal r)) (snd (r_journal r))
                 journal = Ok journal;
  oa_identity : identity_of (fst (r_journal r)) = identity;
  oa_cursor : checked_identity (r_uid r) MAX_CURSOR_BYTES true (fst (r_cursor r)) = Ok tt;
  oa_unchanged : checked_unchanged (fst (r_cursor r)) (snd (r_cursor r)) = Ok tt;
}.

(** The lines behind the cursor are the [pending] rows. *)
Record behind (journal : bytes) (c : cursor) (pending : list row) : Prop := Behind {
  bh_lines : row_line <$> pending = splitlines (drop (Z.to_nat (c_offset c)) journal);
  bh_rows : rows_at loads (c_offset c) pending;
}.

Lemma rows_at_weaken start rows r :
  rows_at loads start rows -> r ∈ rows ->
  start < row_end r <= start + Z.of_nat (length (concat (row_line <$> rows))).
Proof.
  revert start; induction rows as [|x rows IH]; intros start; cbn; [by intros _ ?%elem_of_nil|].
  intros (E & Hne & _ & _ & Hat). rewrite length_app.
  assert (0 < length (row_line x))%nat by (destruct (row_line x); [done|cbn; lia]).
  intros [->|Hr]%elem_of_cons; [lia|]. specialize (IH _ Hat Hr). lia.
Qed.

Lemma after_rows_offset now raw c rows :
  rows_at loads (c_offset c) rows ->
  c_offset (after_rows now raw c rows) = c_offset c + Z.of_nat (length (concat (row_line <$> rows))).
Proof.
  revert c; induction rows as [|r rows IH]; intros c; cbn; [lia|].
  intros (E & _ & _ & _ & Hat). rewrite length_app.
  assert (c_offset (after_row now raw c r) = row_end r) as Er by (unfold after_row; by destruct (_ && _)).
  rewrite IH; rewrite Er; [lia|done].
Qed.

(** What the cursor remembers does not depend on the clock. *)
Fixpoint remembered (seen : list pystr) (rows : list row) : list pystr :=
  match rows with
  | [] => seen
  | r :: rows' =>
      let i := sha256_hex (row_line r) in
      remembered (if alarming (row_event r) && negb (str_in i seen) then last_n 32 (seen ++ [i]) else seen)
        rows'
  end.

Lemma after_rows_seen now raw c rows :
  c_seen_ids (after_rows now raw c rows) = remembered (c_seen_ids c) rows.
Proof.
  revert c; induction rows as [|r rows IH]; intros c; [done|]. cbn [after_rows foldl remembered].
  fold (after_rows now raw). rewrite IH. f_equal. unfold after_row. by destruct (_ && _).
Qed.

Lemma deliveries_app topic seen a b :
  deliveries topic seen (a ++ b) = deliveries topic seen a ++ deliveries topic (remembered seen a) b.
Proof.
  revert seen; induction a as [|r a IH]; intros seen; [done|].
  cbn [app deliveries remembered]. destruct (_ && _); [cbn; f_equal|]; apply IH.
Qed.

Lemma after_rows_bound now raw c rows :
  c_device (after_rows now raw c rows) = c_device c /\ c_inode (after_rows now raw c rows) = c_inode c /\
  c_topic_sha256 (after_rows now raw c rows) = c_topic_sha256 c /\
  (c_prefix_sha256 c = digest_of raw (c_offset c) ->
   c_prefix_sha256 (after_rows now raw c rows) = digest_of raw (c_offset (after_rows now raw c rows))).
Proof.
  revert c; induction rows as [|r rows IH]; intros c; [by split_and!|]. cbn [after_rows foldl].
  fold (after_rows now raw). destruct (IH (after_row now raw c r)) as (-> & -> & -> & Hp).
  unfold after_row in *. destruct (_ && _); split_and!; try done; intros _; by apply Hp.
Qed.

Lemma offset_ends_line_take raw o : 0 <= o -> offset_ends_line raw o = ends_line (take (Z.to_nat o) raw).
Proof. intros Ho. unfold offset_ends_line. destruct (Z.eqb_spec o 0) as [->|]; done. Qed.

(** After [n] rows the cursor speaks of the same journal, and the rest is pending. *)
Lemma behind_after now n identity topic journal c pending :
  no_cr journal -> ends_line journal = true -> tracks identity journal topic c ->
  behind journal c pending ->
  let c' := after_rows now journal c (take n pending) in
  tracks identity journal topic c' /\ behind journal c' (drop n pending).
Proof.
  intros Hcr He [Hi Ho Hp Ht Hl] [Hlines Hat] c'.
  destruct (after_rows_bound now journal c (take n pending)) as (Ed & Ei & Et & Ep). fold c' in Ed, Ei, Et, Ep.
  rewrite offset_ends_line_take in Hl by lia.
  pose proof Hat as Hat'. rewrite <-(take_drop n pending) in Hat'. apply rows_at_app in Hat' as [Ha Hb].
  pose proof (after_rows_offset now journal c _ Ha) as Eo. fold c' in Eo. rewrite <-Eo in Hb.
  set (o := Z.to_nat (c_offset c)) in *.
  assert (drop o journal = concat (row_line <$> take n pending) ++ concat (row_line <$> drop n pending)) as Hd.
  { rewrite <-concat_app, <-fmap_app, take_drop. rewrite <-(splitlines_concat (drop o journal)) at 1.
    by rewrite <-Hlines. }
  assert (Z.to_nat (c_offset c') = (o + length (concat (row_line <$> take n pending)))%nat) as Ho' by lia.
  assert (take (Z.to_nat (c_offset c')) journal = take o journal ++ concat (row_line <$> take n pending)) as Htk.
  { rewrite Ho', <-(take_drop o journal) at 1. rewrite take_app_ge by (rewrite length_take; lia).
    f_equal. rewrite length_take, Nat.min_l by lia. rewrite Hd, take_app_le by lia. apply take_ge. lia. }
  split; constructor.
  - by rewrite Ed, Ei.
  - apply (f_equal length) in Hd. rewrite length_drop, length_app in Hd. lia.
  - by apply Ep.
  - by rewrite Et.
  - rewrite offset_ends_line_take by lia. rewrite Htk. apply ends_line_join; [done|].
    apply ends_line_concat, Forall_forall. intros l Hin.
    apply (splitlines_end (drop o journal)); [by apply Forall_drop|by apply ends_line_drop|].
    rewrite <-Hlines. apply list_elem_of_fmap in Hin as (r & -> & Hin). apply list_elem_of_fmap_2.
    rewrite <-(take_drop n pending). apply elem_of_app. auto.
  - rewrite fmap_drop, Hlines, <-(splitlines_drop _ n) by (by apply Forall_drop). f_equal.
    rewrite <-Hlines, <-fmap_drop, Ho', <-drop_drop, Hd, drop_app_ge by lia. by rewrite Nat.sub_diag.
  - done.
Qed.

Lemma rows_at_unique start a b :
  rows_at loads start a -> rows_at loads start b -> row_line <$> a = row_line <$> b -> a = b.
Proof.
  revert start b; induction a as [|[e1 l1 v1] a IH]; intros start [|[e2 l2 v2] b]; cbn; try done.
  intros (-> & _ & H1 & _ & Ha) (-> & _ & H2 & _ & Hb) [= -> E].
  rewrite H1 in H2. injection H2 as ->. f_equal. by eapply IH.
Qed.

Lemma behind_length journal c pending :
  behind journal c pending -> 0 <= c_offset c <= Z.of_nat (length journal) ->
  c_offset c + Z.of_nat (length (concat (row_line <$> pending))) = Z.of_nat (length journal).
Proof.
  intros [Hl _] Ho. replace (concat (row_line <$> pending)) with (drop (Z.to_nat (c_offset c)) journal).
  - rewrite length_drop. lia.
  - rewrite <-(splitlines_concat (drop _ journal)). by rewrite <-Hl.
Qed.

Lemma dispatch_calm r identity topic journal c rows pending now s :
  opens_all r identity topic journal -> parse_journal loads journal = Ok rows -> no_cr journal ->
  tracks identity journal topic c -> small_text 64 now -> roomy (length pending) c ->
  behind journal c pending ->
  let first := take (Nat.min 8 (length pending)) pending in
  let sent := deliveries topic (c_seen_ids c) first in
  let c' := after_rows now journal c first in
  dispatch loads r now (World journal (Some (cursor_json c)) s [] []) =
  (Ok (Summary (length first) (length sent) (c_offset c' <? Z.of_nat (length journal))),
   World journal (Some (cursor_json c')) (s ++ sent) [] []).
Proof.
  intros [Hdir Htopic Hjournal <- Hcst Hunch] Hrows Hcr Htr Hnow Hroom Hb first sent c'.
  destruct (journal_split loads journal rows (c_offset c) Hrows Hcr (tk_offset _ _ _ _ Htr) (tk_line _ _ _ _ Htr))
    as (before & pending' & -> & Hbefore & Hat & Hlines).
  assert (pending' = pending) as ->.
  { apply (rows_at_unique (c_offset c)); [done|apply Hb|]. rewrite Hlines. by rewrite (bh_lines _ _ _ Hb). }
  pose proof (behind_length _ _ _ Hb (tk_offset _ _ _ _ Htr)) as Hlen.
  apply checked_bytes_prefix in Hjournal as Hlimit. destruct Hlimit as (_ & _ & Hlimit).
  change (Z.max 0 MAX_JOURNAL_BYTES) with 33554432 in Hlimit.
  assert (Forall (fun r => small_int (row_end r)) pending) as Hsmall.
  { apply Forall_forall. intros x Hx. destruct (rows_at_weaken _ _ _ Hat Hx).
    pose proof (tk_offset _ _ _ _ Htr). unfold small_int. lia. }
  unfold dispatch. set (w := World _ _ _ _ _).
  rewrite (eff_bind_ok _ _ w tt w) by (unfold pure; by rewrite Hdir).
  rewrite (eff_bind_ok _ _ w topic w) by (unfold pure; by rewrite Htopic).
  rewrite (eff_bind_ok _ _ w (journal, identity_of (fst (r_journal r)), before ++ pending) w)
    by (unfold journal_snapshot; cbn [w w_journal]; rewrite Hjournal; cbn; by rewrite Hrows).
  cbn beta iota.
  rewrite (eff_bind_ok _ _ w c w).
  2:{ unfold load_cursor. cbn [w w_cursor]. rewrite Hcst, Hunch. cbn [mbind result_bind].
      rewrite (proj2 (read_cursor_json _ journal topic c c)); [done|]. split_and!; [done|apply Hroom|done]. }
  assert (forall p a, dispatch_rows topic now journal (before ++ pending) c p a =
                      dispatch_rows topic now journal pending c p a) as ->.
  { clear -Hbefore. induction Hbefore as [|x l Hx Hl IH]; [done|]. intros p a. cbn [app dispatch_rows].
    rewrite (proj2 (Z.leb_le _ _) Hx). apply IH. }
  rewrite (eff_bind_ok _ _ _ _ _ (rows_calm topic now journal pending c 0 0 journal s Hnow Hsmall Hroom Hat
    ltac:(lia))).
  cbn [Nat.sub Nat.add]. unfold sent, c', first. rewrite length_take.
  replace (Nat.min (Nat.min 8 (length pending)) (length pending)) with (Nat.min 8 (length pending)) by lia.
  done.
Qed.

Lemma drain identity topic journal rows :
  parse_journal loads journal = Ok rows -> no_cr journal ->
  forall (runs : list (readings * pystr)),
  Forall (fun run => opens_all (fst run) identity topic journal /\ small_text 64 (snd run)) runs ->
  forall c pending s,
  tracks identity journal topic c -> roomy (length pending) c -> behind journal c pending ->
  exists c',
    foldl (fun w run => snd (dispatch loads (fst run) (snd run) w))
      (World journal (Some (cursor_json c)) s [] []) runs =
    World journal (Some (cursor_json c'))
      (s ++ deliveries topic (c_seen_ids c) (take (8 * length runs) pending)) [] [] /\
    tracks identity journal topic c' /\ behind journal c' (drop (8 * length runs) pending).
Proof.
  intros Hrows Hcr runs Hruns.
  assert (ends_line journal = true) as He
    by (unfold parse_journal in Hrows; by destruct (ends_line journal)).
  induction Hruns as [|[r now] runs [Hr Hnow] Hruns IH]; intros c pending s Htr Hroom Hb.
  { exists c. cbn. by rewrite app_nil_r, drop_0. }
  cbn [foldl fst snd] in *.
  rewrite (dispatch_calm r identity topic journal c rows pending now s Hr Hrows Hcr Htr Hnow Hroom Hb).
  cbn [snd]. set (k := Nat.min 8 (length pending)).
  destruct (behind_after now k identity topic journal c pending Hcr He Htr Hb) as [Htr1 Hb1].
  set (c1 := after_rows now journal c (take k pending)) in *.
  assert (roomy (length (drop k pending)) c1) as Hroom1.
  { apply after_rows_roomy; [done| |].
    - destruct Hr as [_ _ Hj _ _ _]. apply checked_bytes_prefix in Hj as (_ & _ & Hlimit).
      change (Z.max 0 MAX_JOURNAL_BYTES) with 33554432 in Hlimit.
      pose proof (behind_length _ _ _ Hb (tk_offset _ _ _ _ Htr)) as Hlen.
      apply Forall_forall. intros x Hx.
      destruct (rows_at_weaken _ _ x (bh_rows _ _ _ Hb)).
      { rewrite <-(take_drop k pending). apply elem_of_app. auto. }
      pose proof (tk_offset _ _ _ _ Htr). unfold small_int. lia.
    - by rewrite <-length_app, take_drop. }
  destruct (IH c1 (drop k pending) (s ++ deliveries topic (c_seen_ids c) (take k pending)) Htr1 Hroom1 Hb1)
    as (c' & Hw & Htr' & Hb').
  exists c'. rewrite Hw. unfold c1. rewrite after_rows_seen.
  rewrite <-(assoc_L (++)), <-deliveries_app.
  assert (take k pending ++ take (8 * length runs) (drop k pending) = take (8 * S (length runs)) pending) as ->.
  { unfold k. destruct (Nat.le_gt_cases 8 (length pending)).
    - rewrite Nat.min_l by done. rewrite Nat.mul_succ_r, Nat.add_comm. symmetry.
      rewrite <-(take_drop 8 pending) at 1. rewrite take_app_ge by (rewrite length_take; lia).
      rewrite length_take, Nat.min_l by done. do 2 f_equal. lia.
    - rewrite Nat.min_r by lia. rewrite drop_ge, take_nil, app_nil_r by lia. rewrite !take_ge by lia. done. }
  split_and!; try done. rewrite drop_drop in Hb'. unfold k in Hb'. rewrite length_cons.
  destruct (Nat.le_gt_cases 8 (length pending)).
  - rewrite Nat.min_l in Hb' by done. by rewrite Nat.mul_succ_r, Nat.add_comm.
  - rewrite drop_ge in Hb' by lia. by rewrite drop_ge by lia.
Qed.
End calm.

(** ** Lemmas: enrollment *)

Section enrollment.
Context `{PyHost} (loads : bytes -> result exn json).

Lemma enroll_starts r w w0 n :
  no_cr (w_journal w) -> enroll loads r true w = (Ok n, w0) ->
  exists topic, read_topic r = Ok topic /\ 0 <= n /\
    durable loads (Enrolled (Z.to_nat n) (sha256_hex topic) (w_sent w)) w0.
Proof.
  intros Hcr. unfold enroll. cbn [negb].
  unfold mbind, eff_bind, pure, no_cursor, journal_snapshot.
  destruct (private_dir _ _); [|done]. destruct (read_topic r) as [topic|]; [|done].
  destruct (w_cursor w); [done|].
  destruct (checked_bytes _ _ _ _ _ _) as [raw|] eqn:Hraw; cbn [mbind result_bind]; [|done].
  apply checked_bytes_prefix in Hraw as (rest & Hraw & _).
  destruct (parse_journal loads raw) as [rows|] eqn:Hrows; cbn [mbind result_bind]; [|done].
  assert (ends_line raw = true) as He
    by (unfold parse_journal in Hrows; by destruct (ends_line raw)).
  set (c := fresh_cursor _ raw topic).
  destruct (write_cursor_writes c w) as (fs & E).
  destruct (write_cursor c w) as [[[]|x] w2]; cbn [fst snd] in E; [|done].
  destruct E as [->|[_ (x & [=])]].
  intros [= <- <-]. exists topic. split_and!; [done|lia|]. exists c. split; [done|]. cbn.
  rewrite Hraw. rewrite Nat2Z.id.
  constructor; cbn; rewrite ?Nat2Z.id, ?take_app_length; try done.
  - by rewrite <-Hraw.
  - rewrite length_app. lia.
  - exists []. rewrite app_nil_r, drop_all. split_and!; by try constructor.
Qed.
End enrollment.

(** * Properties *)

Section properties.
Context `{PyHost} (loads : bytes -> result exn json).

(** The cursor is a binding to one journal file, one prefix of it and one recipient.  A cursor
    text written by the transport is read back, as itself, exactly when it is well-formed, carries
    the device and inode of the journal and the digest of the topic, and its offset lies behind a
    complete record of the journal whose digest is the recorded one.  Growing the journal keeps all
    that true. *)
Theorem cursor_binding identity raw topic c :
  (forall c', read_cursor identity raw topic (cursor_json c) = Ok c' <->
              c' = c /\ cursor_valid c /\ tracks identity raw topic c) /\
  (forall more, tracks identity raw topic c -> tracks identity (raw ++ more) topic c).
Proof. split; intros; [apply read_cursor_json|by apply tracks_app]. Qed.

(** C2: no alarm is lost and nothing else is sent.  Start from an enrollment, and let the watcher
    append anything to the journal, the transport run any number of times under any readings, any
    statuses of the service and any fault at any call (a crash before or after a request or a write
    of the cursor), and anybody enroll again.  Then the durable cursor still speaks of the
    enrolled recipient, every complete line between the enrollment and the cursor that is an ALARM
    or a RECOVERY has been sent, and everything sent since is the notification of such a line,
    written after the enrollment, to that recipient. *)
Theorem alarms_never_lost r w w0 n w1 :
  no_cr (w_journal w) ->
  enroll loads r true w = (Ok n, w0) ->
  rtc (watch_step loads) w0 w1 ->
  exists c topic new, w_cursor w1 = Some (cursor_json c) /\ read_topic r = Ok topic /\
    c_topic_sha256 c = sha256_hex topic /\
    n <= c_offset c <= Z.of_nat (length (w_journal w1)) /\ w_sent w1 = w_sent w ++ new /\
    (forall l, l ∈ splitlines (drop (Z.to_nat n) (take (Z.to_nat (c_offset c)) (w_journal w1))) ->
       alarm_line loads l = true -> sha256_hex l ∈ rq_event_id <$> new) /\
    Forall (notifies loads (Enrolled (Z.to_nat n) (sha256_hex topic) (w_sent w)) (w_journal w1)) new.
Proof.
  intros Hcr Henroll Hsteps.
  destruct (enroll_starts loads r w w0 n Hcr Henroll) as (topic & Ht & Hn & Hd).
  destruct (watch_steps_durable loads _ _ _ Hd Hsteps) as (c & Hcur & [_ Hs _ _ Htop (new & Hnew & Hrq & _ & Hall)]).
  cbn in *. rewrite Z2Nat.id in Hs by done.
  exists c, topic, new. split_and!; try done; try lia.
  by rewrite Forall_forall in Hall.
Qed.

(** C10: an undisturbed transport drains the backlog.  With the journal at rest, no fault left, a
    service that accepts, a cursor of the transport's own making whose numbers, with the acceptances to
    come, stay below 2^63, and time stamps of at most 64 plain characters, each run handles the next eight records behind the cursor: after any
    number of runs the notifications sent are those of the records handled, in journal order, each
    alarm whose id is not among the last 32 accepted ones once, and nothing else changed; enough
    runs bring the cursor to the end of the journal.  No run fails: the cursor always fits its size
    budget. *)
Theorem backlog_drains identity topic journal c rows pending s (runs : list (readings * pystr)) :
  parse_journal loads journal = Ok rows -> no_cr journal ->
  tracks identity journal topic c -> roomy (length pending) c -> behind loads journal c pending ->
  Forall (fun run => opens_all (fst run) identity topic journal /\ small_text 64 (snd run)) runs ->
  let handled := take (8 * length runs) pending in
  exists c',
    foldl (fun w run => snd (dispatch loads (fst run) (snd run) w))
      (World journal (Some (cursor_json c)) s [] []) runs =
    World journal (Some (cursor_json c')) (s ++ deliveries topic (c_seen_ids c) handled) [] [] /\
    tracks identity journal topic c' /\
    c_offset c' = c_offset c + Z.of_nat (length (concat (row_line <$> handled))) /\
    ((length pending <= 8 * length runs)%nat -> c_offset c' = Z.of_nat (length journal)).
Proof.
  intros Hrows Hcr Htr Hroom Hb Hruns handled.
  destruct (drain loads identity topic journal rows Hrows Hcr runs Hruns c pending s Htr Hroom Hb)
    as (c' & Hw & Htr' & Hb').
  pose proof (behind_length _ _ _ _ Hb (tk_offset _ _ _ _ Htr)) as Hlen.
  pose proof (behind_length _ _ _ _ Hb' (tk_offset _ _ _ _ Htr')) as Hlen'.
  exists c'. split_and!; try done.
  - rewrite <-(take_drop (8 * length runs) pending), fmap_app, concat_app, length_app in Hlen.
    fold handled in Hlen. lia.
  - intros Hle. rewrite drop_ge in Hlen' by done. cbn in Hlen'. lia.
Qed.
End properties.
(** * Witnesses *)

Section demo.
Local Existing Instance ascii_host.

Definition demo_topic : pystr := repeat 97%N 32.
Definition demo_stat (kind : file_kind) (mode : Z) (content : bytes) : stat :=
  Stat kind 1 1000 mode (Z.of_nat (length content)) 7 42 0 0.
Definition demo_readings (journal : bytes) : readings :=
  let file mode content := demo_stat regular mode content in
  {| r_uid := 1000; r_dir := demo_stat directory 448 []; r_topic_dir := demo_stat directory 448 [];
     r_topic := (file 384 demo_topic, file 384 demo_topic, demo_topic);
     r_journal := (file 420 journal, file 420 journal);
     r_cursor := (file 384 [], file 384 []) |}.

(** Every line of the examples is an alarm. *)
Definition demo_event : json :=
  JObj [(lit "event", JStr (lit "ALARM")); (lit "checked_at_utc", JStr (lit "now"));
        (lit "issues", JList [JObj [(lit "code", JStr (lit "deploy_stale"))]])].
Definition demo_loads (line : bytes) : result exn json := Ok demo_event.
Definition demo_line : bytes := lit "{}" ++ [10%N].
Definition demo_start : world := World [] None [] [] [].
Definition demo_enrolled : world := snd (enroll demo_loads (demo_readings []) true demo_start).
Definition demo_appended : world :=
  World (w_journal demo_enrolled ++ demo_line) (w_cursor demo_enrolled) (w_sent demo_enrolled)
    (w_codes demo_enrolled) (w_faults demo_enrolled).
(** The first run dies after the request, the second repeats it. *)
Definition demo_run (fs : list fault) (w : world) : world :=
  snd (dispatch demo_loads (demo_readings demo_line) (lit "now")
         (World (w_journal w) (w_cursor w) (w_sent w) [] fs)).
Definition demo_crash : exn := Exn OSError [].
Definition demo_final : world := demo_run [] (demo_run [lost demo_crash] demo_appended).

Lemma alarms_never_lost_witness :
  length (w_sent demo_final) = 2%nat /\
  exists c topic new, w_cursor demo_final = Some (cursor_json c) /\ read_topic (demo_readings []) = Ok topic /\
    c_topic_sha256 c = sha256_hex topic /\
    0 <= c_offset c <= Z.of_nat (length (w_journal demo_final)) /\ w_sent demo_final = w_sent demo_start ++ new /\
    (forall l, l ∈ splitlines (drop (Z.to_nat 0) (take (Z.to_nat (c_offset c)) (w_journal demo_final))) ->
       alarm_line demo_loads l = true -> sha256_hex l ∈ rq_event_id <$> new) /\
    Forall (notifies demo_loads (Enrolled (Z.to_nat 0) (sha256_hex topic) (w_sent demo_start))
              (w_journal demo_final)) new.
Proof.
  split; [by vm_compute|].
  apply (alarms_never_lost demo_loads (demo_readings []) demo_start demo_enrolled 0 demo_final).
  - constructor.
  - by vm_compute.
  - eapply rtc_l; [apply (step_append demo_loads demo_enrolled demo_line); by_compute|].
    eapply rtc_l; [apply (step_dispatch demo_loads demo_appended (demo_readings demo_line) (lit "now") []
                            [lost demo_crash])|].
    eapply rtc_l; [apply (step_dispatch demo_loads (demo_run [lost demo_crash] demo_appended)
                            (demo_readings demo_line) (lit "now") [] [])|].
    apply rtc_refl.
Defined.

(** Ten identical lines behind a fresh cursor: two runs, one notification. *)
Definition demo_journal : bytes := concat (repeat demo_line 10).
Definition demo_cursor : cursor := Cursor 7 42 0 (sha256_hex []) (sha256_hex demo_topic) 0 [] JNull.
Definition demo_rows : list row :=
  (fun i => Row (3 * Z.of_nat (S i)) demo_line demo_event) <$> seq 0 10.

Lemma backlog_drains_witness :
  parse_journal demo_loads demo_journal = Ok demo_rows /\
  exists c',
    foldl (fun w run => snd (dispatch demo_loads (fst run) (snd run) w))
      (World demo_journal (Some (cursor_json demo_cursor)) [] [] [])
      [(demo_readings demo_journal, lit "now"); (demo_readings demo_journal, lit "now")] =
    World demo_journal (Some (cursor_json c')) ([] ++ deliveries demo_topic [] (take 16 demo_rows)) [] [] /\
    tracks (7, 42) demo_journal demo_topic c' /\
    c_offset c' = 0 + Z.of_nat (length (concat (row_line <$> take 16 demo_rows))) /\
    ((length demo_rows <= 16)%nat -> c_offset c' = Z.of_nat (length demo_journal)).
Proof.
  assert (parse_journal demo_loads demo_journal = Ok demo_rows) as Hparse by by vm_compute.
  split; [done|].
  apply (backlog_drains demo_loads (7, 42) demo_topic demo_journal demo_cursor demo_rows demo_rows []
           [(demo_readings demo_journal, lit "now"); (demo_readings demo_journal, lit "now")]).
  - done.
  - by_compute.
  - constructor; [done|by_compute|by vm_compute|by vm_compute|by vm_compute].
  - constructor.
    + split_and!; [by_compute|by_compute|constructor|by vm_compute].
    + constructor; try (by_compute); try (split; [by vm_compute|by_compute]); try (by left).
    + by_compute.
  - constructor; [by vm_compute|]. vm_compute. by split_and!.
  - repeat constructor; by vm_compute.
Defined.
End demo.
