(* ===== verification/Watch.v ===== *)
(** * The independent production watcher: observation

    scripts/ops/independent_production_watch.py up to [evaluate]: reading the public endpoints with
    one retry ([fetch]), judging one observation against the persisted main observation
    ([evaluate]), and reading that observation back ([read_previous_main_observation]).  Network
    answers, the git process and the clock are arguments; the issue list is a state that survives
    exceptions, as in the source, where a deadline may end an evaluation half-way.  Times are
    microseconds since the epoch. *)

From S2P Require Import Prelude PyStr Effects Json JsonText Sha256.
From Stdlib Require Import SpecFloat.
Open Scope Z_scope.

(** ** Constants *)

Definition LIMIT : nat := 512 * 1024.
Definition seconds (n : Z) : Z := n * 1000000.
Definition THRESHOLD : Z := 45 * 60.
Definition WORKFLOW_URL : pystr :=
  lit "https://api.github.com/repos/heimgewebe/commonthing/actions/workflows/production-live-contract.yml/runs".
Definition URLS : dict pystr :=
  [(lit "frontend", lit "https://commonthing.net/_app/version.json");
   (lit "api", lit "https://commonthing.net/api/version");
   (lit "main", lit "https://api.github.com/repos/heimgewebe/commonthing/commits/main");
   (lit "schedule", WORKFLOW_URL ++ lit "?event=schedule&per_page=2")].
Definition SCHEDULE_COMPLETED_URL : pystr :=
  WORKFLOW_URL ++ lit "?event=schedule&status=completed&per_page=1".
Definition url_of (name : pystr) : pystr :=
  if str_eqb name "schedule_completed" then SCHEDULE_COMPLETED_URL else default [] (dget URLS name).
Definition product (name : pystr) : bool := str_in name [lit "frontend"; lit "api"].

Definition WatchRuntimeExceeded : exc_class := Outside "WatchRuntimeExceeded".
Definition ConfirmedProductHTTPError : exc_class := Sub "ConfirmedProductHTTPError" ValueError.
Definition ConfirmedProductVersionError : exc_class :=
  Sub "ConfirmedProductVersionError" ConfirmedProductHTTPError.
Definition SubprocessError : exc_class := Sub "SubprocessError" Exception.
Definition TimeoutExpired : exc_class := Sub "TimeoutExpired" SubprocessError.

Definition sha_str (v : json) : option pystr :=
  match v with JStr s => if all_hex_of_length 40 s then Some s else None | _ => None end.

(** The issue list as a state. *)
Abbreviation sink := (eff (list json)).

(** ** Times and numbers *)

Section times.
Context `{PyHost}.

(** What a [datetime] can hold: the years 1 to 9999. *)
Definition in_datetime_range (t : Z) : bool := (-62135596800000000 <=? t) && (t <? 253402300800000000).

Definition timestamp (value : json) : option Z :=
  match value with
  | JStr s =>
      match host_fromisoformat (replace "Z" "+00:00" s) with
      | Some (t, aware) =>
          u ← (if aware : bool then Some t else host_local t);
          if in_datetime_range u then Some u else None
      | None => None
      end
  | _ => None
  end.

(** [t.isoformat().replace("+00:00", "Z")] *)
Definition iso (t : Z) : pystr := replace "+00:00" "Z" (host_isoformat t).

(** [timedelta.total_seconds()]: the quotient of the microseconds by a million, rounded once. *)
Definition total_seconds (micro : Z) : spec_float :=
  match micro with
  | 0 => S754_zero false
  | Zpos m => let '(q, e, l) := SFdiv_core_binary 53 1024 (Zpos m) 0 1000000 0 in
              binary_round_aux 53 1024 false q e l
  | Zneg m => let '(q, e, l) := SFdiv_core_binary 53 1024 (Zpos m) 0 1000000 0 in
              binary_round_aux 53 1024 true q e l
  end.

(** [round] of a float: to the nearest integer, ties to the even one. *)
Definition round_magnitude (m e : Z) : Z :=
  if 0 <=? e then m * 2 ^ e
  else
    let d := 2 ^ (- e) in
    let q := m / d in
    match (2 * (m mod d)) ?= d with
    | Lt => q
    | Gt => q + 1
    | Eq => if Z.even q then q else q + 1
    end.
Definition py_round (f : spec_float) : Z :=
  match f with
  | S754_finite false m e => round_magnitude (Zpos m) e
  | S754_finite true m e => - round_magnitude (Zpos m) e
  | _ => 0
  end.

(** [str(type(v))] *)
Definition type_text (v : json) : pystr :=
  match v with
  | JNull => "<class 'NoneType'>" | JBool _ => "<class 'bool'>" | JInt _ => "<class 'int'>"
  | JFloat _ => "<class 'float'>" | JStr _ => "<class 'str'>" | JList _ => "<class 'list'>"
  | JObj _ => "<class 'dict'>"
  end.

(** The first of the largest elements, [max(l, key=key)]. *)
Definition max_by {A} (key : A -> Z) (l : list A) : option A :=
  foldl (fun best x =>
    match best with Some b => if key b <? key x then Some x else Some b | None => Some x end) None l.

(** ** [fetch] *)

(** The end of one [urlopen]: an answer (status, content, [Cache-Control]), the [HTTPError] of a
    status, any other [Exception], or the deadline of the whole run, which is none. *)
Inductive exchange : Type :=
  | Answer (status : Z) (content : bytes) (cache_control : pystr)
  | HttpStatus (code : Z)
  | Failed (e : exn)
  | Deadline (m : pystr).

(** The end of the git process: return code and standard output, one of [OSError], [ValueError] and
    [TimeoutExpired], or the deadline. *)
Inductive git_process : Type :=
  | Finished (code : Z) (stdout : pystr)
  | GitError (e : exn)
  | GitDeadline (m : pystr).

Definition permanent_product_http_failure (name : pystr) (status : Z) : bool :=
  product name && negb (status =? 200) && negb (existsb (Z.eqb status) [408; 425; 429]).

(** The main ref git reports; [None] for an exception the caller handles. *)
Definition git_main_ref (code : Z) (stdout : pystr) : option (dict json) :=
  let sha := take 40 stdout in
  let tail := drop 40 stdout in
  let suffix := [9%N] ++ lit "refs/heads/main" in
  if (code =? 0) && all_hex_of_length 40 sha
     && (str_eqb tail suffix || str_eqb tail (suffix ++ [10%N]))
  then Some [(lit "sha", JStr sha); (lit "observation_transport", JStr (lit "git_https"))]
  else None.

(** One turn of the loop: a value, an exception that leaves [fetch], or a counted failure. *)
Record failure : Type := Failure { fl_product : bool; fl_version : bool; fl_error : pystr }.
Inductive turn : Type :=
  | Got (data : dict json) (cache_control : pystr)
  | Expired (m : pystr)
  | Missed (f : failure).

Definition exn_text (e : exn) : pystr :=
  lit (exc_name (exn_class e)) ++ lit ": " ++ take 150 (exn_msg e).
Definition value_error (name : pystr) (counted version : bool) (m : pystr) : turn :=
  Missed (Failure counted version (exn_text (Exn ValueError m))).

(** [loads] is [json.loads]: a value, or the exception it ends with; [RecursionError] is no [ValueError]
    and counts against nobody, what is no [Exception] is the deadline. *)
Definition read_answer (loads : bytes -> result exn json) (name : pystr) (status : Z) (content : bytes)
    (cache_control : pystr) : turn :=
  if negb (status =? 200) then
    value_error name (permanent_product_http_failure name status) false (lit "HTTP " ++ show_Z status)
  else if (LIMIT <? length content)%nat then
    value_error name (product name) false "response exceeds limit"
  else
    match loads content with
    | Err e =>
        if issubclass (exn_class e) ValueError then
          value_error name (product name) false "invalid JSON response"
        else if issubclass (exn_class e) Exception then Missed (Failure false false (exn_text e))
        else Expired (exn_msg e)
    | Ok (JObj data) =>
        if product name && bool_decide (sha_str (default JNull (dget data "commit")) = None) then
          value_error name true true "invalid public product version commit"
        else Got data cache_control
    | Ok _ => value_error name (product name) false "JSON root not an object"
    end.

Definition fetch_once (loads : bytes -> result exn json) (name : pystr) (x : exchange) (git : git_process)
    : turn :=
  match x with
  | Answer status content cache_control => read_answer loads name status content cache_control
  | HttpStatus code =>
      let missed := Missed (Failure (permanent_product_http_failure name code) false
                              (lit "HTTPError: HTTP " ++ show_Z code)) in
      if str_eqb name "main" && (code =? 403) then
        match git with
        | Finished code stdout =>
            match git_main_ref code stdout with Some data => Got data [] | None => missed end
        | GitError _ => missed
        | GitDeadline m => Expired m
        end
      else missed
  | Failed e => Missed (Failure false false (exn_text e))
  | Deadline m => Expired m
  end.

(** The two attempts, with the git process each would start. *)
Definition attempts : Type := (exchange * git_process) * (exchange * git_process).

Definition fetch (loads : bytes -> result exn json) (name : pystr) (turns : attempts)
    : result exn (dict json * pystr) :=
  let once t := fetch_once loads name (fst t) (snd t) in
  match once (fst turns) with
  | Got data cache => Ok (data, cache)
  | Expired m => raise WatchRuntimeExceeded m
  | Missed f1 =>
      match once (snd turns) with
      | Got data cache => Ok (data, cache)
      | Expired m => raise WatchRuntimeExceeded m
      | Missed f2 =>
          if product name && fl_product f1 && fl_product f2 then
            if fl_version f1 && fl_version f2 then
              raise ConfirmedProductVersionError
                (lit "two confirmed invalid public product version commits: " ++ fl_error f2)
            else raise ConfirmedProductHTTPError
                   (lit "two confirmed product HTTP failures: " ++ fl_error f2)
          else raise ValueError (lit "two reads failed: " ++ fl_error f2)
      end
  end.

(** ** [evaluate]

    The state is the list of issues; the reader answers a name with the data and the cache header. *)

Definition flag (code component : pystr) (actual : json) (expected source severity : pystr)
    (duration : option Z) : sink unit := fun issues =>
  (Ok tt, issues ++ [JObj ([(lit "code", JStr code); (lit "component", JStr component);
     (lit "actual", actual); (lit "expected", JStr expected); (lit "source", JStr (url_of source));
     (lit "severity", JStr severity)]
     ++ match duration with
        | Some d => [(lit "duration_seconds", JInt (py_round (total_seconds d)))]
        | None => []
        end)]).

Definition collected : sink (list json) := fun issues => (Ok issues, issues).

Definition reader : Type := pystr -> result exn (dict json * pystr).

Definition no_store (cache_control : pystr) : bool :=
  str_in (lit "no-store") ((fun p => lower (strip p)) <$> split_on 44 cache_control).

Definition reraise {A} (e : exn) : sink A := fun issues => (Err e, issues).

Definition observe (read : reader) (name : pystr) : sink (option (dict json)) :=
  match read name with
  | Ok (data, header) =>
      if str_eqb name "frontend" && negb (no_store header) then
         flag "frontend_cache" "frontend" (JStr (take 120 header)) "Cache-Control: no-store" "frontend"
           "P1" None ;; mret (Some data)
       else mret (Some data)
  | Err e =>
      let text := JStr (take 200 (exn_msg e)) in
      if issubclass (exn_class e) ConfirmedProductVersionError then
         flag (lit "invalid_commit_" ++ name) "product version response" text
           "canonical commit in two production responses" name "P1" None ;; mret None
       else if issubclass (exn_class e) ConfirmedProductHTTPError then
         flag (lit "unavailable_" ++ name) "product HTTP response" text "HTTP 200 from production" name
           "P1" None ;; mret None
       else if issubclass (exn_class e) Exception then
         flag (lit "unavailable_" ++ name) "observation channel" text "HTTP 200 and valid JSON" name
           (if str_eqb name "schedule" then lit "INFO" else lit "P2") None ;; mret None
       else reraise e
  end.

(** The commit an answer names, or an issue. *)
Definition named_commit (name key severity : pystr) (data : option (dict json)) : sink (option pystr) :=
  match data with
  | None => mret None
  | Some d =>
      let value := default JNull (dget d key) in
      match sha_str value with
      | Some s => mret (Some s)
      | None => flag (lit "invalid_commit_" ++ name) name (JStr (take 100 (to_str value)))
                  "40-character hexadecimal commit" name severity None ;; mret None
      end
  end.

Definition check_divergence (frontend api : option pystr) : sink unit :=
  match frontend, api with
  | Some f, Some a =>
      if str_eqb f a then mret tt
      else flag "frontend_api_diverge" "production commits"
             (JObj [(lit "frontend", JStr f); (lit "api", JStr a)]) "frontend == API" "frontend" "P1" None
  | _, _ => mret tt
  end.

(** When this main commit was first seen. *)
Definition first_seen_of (now : Z) (previous : json) (main : pystr) : Z :=
  match previous with
  | JObj _ =>
      if py_eq (get previous "sha") (JStr main) then
        match timestamp (get previous "first_seen") with
        | Some t => if t <=? now then t else now
        | None => now
        end
      else now
  | _ => now
  end.

(** The recorded start of a divergence, when it is not in the future. *)
Definition recorded_divergence (now : Z) (previous : json) (name : pystr) : option Z :=
  match get previous "diverged_since" with
  | JObj _ as prior =>
      match timestamp (get prior name) with
      | Some t => if t <=? now then Some t else None
      | None => None
      end
  | _ => None
  end.

(** One endpoint against main: the start of its divergence to record, if any. *)
Definition diverged_at (now first_seen : Z) (previous : json) (name main : pystr)
    (commit : option pystr) : option Z :=
  match commit with
  | None => recorded_divergence now previous name
  | Some c =>
      if str_eqb c main then None
      else Some (default first_seen (recorded_divergence now previous name))
  end.

Definition check_stale (now : Z) (name main : pystr) (commit : option pystr) (since : option Z)
    : sink unit :=
  match commit, since with
  | Some c, Some t =>
      if seconds THRESHOLD <=? now - t then
        flag (lit "stale_" ++ name) name (JStr c) main name "P1" (Some (now - t))
      else mret tt
  | _, _ => mret tt
  end.

Definition main_time (now : Z) (data : dict json) : sink unit :=
  let metadata := default JNull (dget data "commit") in
  let committer := match metadata with JObj _ => get metadata "committer" | _ => JNull end in
  let date := match committer with JObj _ => get committer "date" | _ => JNull end in
  let age := (fun t => now - t) <$> timestamp date in
  let unreliable := match age with None => true | Some a => a <? seconds (-120) end in
  if negb (py_eq (default JNull (dget data "observation_transport")) (JStr (lit "git_https")))
     && unreliable
  then flag "main_time_unreliable" "GitHub main"
         (JStr (match age with None => lit "None" | Some a => float_text (total_seconds a) end))
         "valid commit timestamp" "main" "P2" None
  else mret tt.

Definition since_fields (frontend api : option Z) : dict json :=
  match frontend with Some t => [(lit "frontend", JStr (iso t))] | None => [] end
  ++ match api with Some t => [(lit "api", JStr (iso t))] | None => [] end.

Definition observation_json (main : pystr) (first_seen : Z) (frontend api : option Z) : json :=
  JObj ([(lit "sha", JStr main); (lit "first_seen", JStr (iso first_seen))]
        ++ match since_fields frontend api with
           | [] => []
           | d => [(lit "diverged_since", JObj d)]
           end).

(** The part that needs main. *)
Definition main_part (now : Z) (previous : json) (data : dict json) (main : pystr)
    (frontend api : option pystr) : sink json :=
  let first_seen := first_seen_of now previous main in
  let f := diverged_at now first_seen previous (lit "frontend") main frontend in
  let a := diverged_at now first_seen previous (lit "api") main api in
  check_stale now (lit "frontend") main frontend f ;;
  check_stale now (lit "api") main api a ;;
  main_time now data ;;
  mret (observation_json main first_seen f a).

Definition created (r : json) : option Z := timestamp (get r "created_at").
Definition is_scheduled (r : json) : bool :=
  is_dict r && py_eq (get r "event") (JStr (lit "schedule")) && bool_decide (created r <> None).
Definition is_completed (r : json) : bool := py_eq (get r "status") (JStr (lit "completed")).
Definition latest (rows : list json) : option json := max_by (fun r => default 0 (created r)) rows.

(** The newest scheduled run: what to report of it, and the scheduled rows. *)
Definition newest_run (now : Z) (data : dict json) : sink (json * list json) :=
  match dget data "workflow_runs" with
  | Some (JList rows) =>
      let scheduled := List.filter is_scheduled rows in
      match latest scheduled with
      | None =>
          flag "no_schedule" "GitHub schedule" (JStr (lit "no event=schedule"))
            "scheduled run within 45 minutes" "schedule" "INFO" None ;; mret (JNull, [])
      | Some run =>
          let newest := JObj [(lit "created_at", get run "created_at"); (lit "id", get run "id");
                              (lit "status", get run "status"); (lit "conclusion", get run "conclusion")] in
          let age := now - default 0 (created run) in
          (if seconds THRESHOLD <=? age then
             flag "schedule_stale" "GitHub schedule" (get run "created_at")
               "event=schedule within 45 minutes" "schedule" "INFO" (Some age)
           else if age <? seconds (-120) then
             flag "schedule_time_future" "GitHub schedule" (JStr (show_Z (py_round (total_seconds age))))
               "valid timestamp" "schedule" "INFO" None
           else mret tt) ;;
          mret (newest, scheduled)
      end
  | other =>
      flag "invalid_schedule_json" "GitHub schedule" (JStr (type_text (default JNull other)))
        "workflow_runs array" "schedule" "INFO" None ;; mret (JNull, [])
  end.

(** Completed runs from the long history, when the short page shows none. *)
Definition completed_history (read : reader) : sink (list json) :=
  match read (lit "schedule_completed") with
  | Ok (prior, _) =>
      match dget prior "workflow_runs" with
      | Some (JList history) =>
          match List.filter (fun r => is_scheduled r && is_completed r) history with
          | [] => flag "no_completed_schedule" "GitHub completed schedule"
                     (JStr (lit "no completed schedule in history")) "completed event=schedule run"
                     "schedule_completed" "INFO" None ;; mret []
          | completed => mret completed
          end
      | other =>
          flag "invalid_completed_schedule_json" "GitHub completed schedule"
             (JStr (type_text (default JNull other))) "workflow_runs array" "schedule_completed" "INFO"
             None ;; mret []
      end
  | Err e =>
      if issubclass (exn_class e) Exception then
        flag "unavailable_completed_schedule" "GitHub completed schedule"
           (JStr (take 200 (exn_msg e))) "valid completed schedule history" "schedule_completed" "INFO"
           None ;; mret []
      else reraise e
  end.

Definition check_last_done (completed : list json) (source : pystr) : sink unit :=
  match latest completed with
  | Some last =>
      if py_eq (get last "conclusion") (JStr (lit "success")) then mret tt
      else flag "schedule_failed" "GitHub scheduled check" (JStr (to_str (get last "conclusion")))
             "successful scheduled run" source "INFO" None
  | None => mret tt
  end.

Definition completed_part (read : reader) (scheduled : list json) : sink unit :=
  match scheduled with
  | [] => mret tt
  | _ =>
      match List.filter is_completed scheduled with
      | [] => completed ← completed_history read; check_last_done completed "schedule_completed"
      | completed => check_last_done completed "schedule"
      end
  end.

(** A deadline inside the optional schedule part becomes an issue; it comes at most once, from one
    of the two reads. *)
Definition on_deadline {A} (m : sink A) (otherwise : A) : sink A :=
  try_except [WatchRuntimeExceeded] m (fun e =>
    flag "schedule_deadline_exceeded" "GitHub schedule" (JStr (take 160 (exn_msg e)))
      "bounded optional schedule observation" "schedule" "P2" None ;;
    mret otherwise).

Definition schedule_part (read : reader) (now : Z) : sink json :=
  '(newest, scheduled) ← on_deadline
     (data ← observe read (lit "schedule");
      match data with Some d => newest_run now d | None => mret (JNull, []) end) (JNull, []);
  on_deadline (completed_part read scheduled) tt ;;
  mret newest.

Definition has_severity (severity : string) (issue : json) : bool :=
  py_eq (get issue "severity") (JStr (lit severity)).
Definition status_of (issues : list json) : pystr :=
  if existsb (has_severity "P1") issues then lit "ALARM"
  else if existsb (has_severity "P2") issues then lit "MONITOR_DATA_FAILURE"
  else lit "HEALTHY".

Definition commit_fields (frontend api main : option pystr) : dict json :=
  match frontend with Some c => [(lit "frontend", JStr c)] | None => [] end
  ++ match api with Some c => [(lit "api", JStr c)] | None => [] end
  ++ match main with Some c => [(lit "main", JStr c)] | None => [] end.

Definition report (now : Z) (commits : dict json) (main_observation newest_schedule : json)
    (issues : list json) : json :=
  JObj [(lit "checked_at_utc", JStr (iso now)); (lit "status", JStr (status_of issues));
        (lit "commits", JObj commits); (lit "main_observation", main_observation);
        (lit "latest_schedule", newest_schedule); (lit "issues", JList issues)].

Definition evaluate (now : Z) (read : reader) (previous : json) : sink json :=
  fd ← observe read (lit "frontend");
  ad ← observe read (lit "api");
  frontend ← named_commit (lit "frontend") "commit" "P1" fd;
  api ← named_commit (lit "api") "commit" "P1" ad;
  check_divergence frontend api ;;
  md ← observe read (lit "main");
  main ← named_commit (lit "main") "sha" "P2" md;
  observation ← match md, main with
                | Some data, Some m => main_part now previous data m frontend api
                | _, _ => mret JNull
                end;
  newest ← schedule_part read now;
  issues ← collected;
  mret (report now (commit_fields frontend api main) observation newest issues).

(** ** Reading the observation back *)

Definition back_since (raw : json) (name : pystr) : option Z := timestamp (get raw name).

(** [state] is the parsed state file, [None] when there is none; unreadable files raise before. *)
Definition read_previous_main_observation (state : option json) : json :=
  match state with
  | Some (JObj _ as s) =>
      match get s "main_observation" with
      | JObj _ as recorded =>
          match sha_str (get recorded "sha"), timestamp (get recorded "first_seen") with
          | Some sha, Some seen =>
              let raw := get recorded "diverged_since" in
              let since name := match raw with JObj _ => back_since raw name | _ => None end in
              observation_json sha seen (since (lit "frontend")) (since (lit "api"))
          | _, _ => JNull
          end
      | _ => JNull
      end
  | _ => JNull
  end.

(** ** One cycle *)

Definition watcher_failure_report (now : Z) (e : exn) : json :=
  JObj [(lit "checked_at_utc", JStr (iso now)); (lit "status", JStr (lit "MONITOR_DATA_FAILURE"));
        (lit "commits", JObj []); (lit "main_observation", JNull); (lit "latest_schedule", JNull);
        (lit "issues", JList [JObj [(lit "code", JStr (lit "watcher_execution_failed"));
           (lit "component", JStr (lit "watcher")); (lit "actual", JStr (exn_text e));
           (lit "expected", JStr (lit "bounded successful watcher observation"));
           (lit "source", JStr (lit "local watcher execution")); (lit "severity", JStr (lit "P2"))]])].

Definition issues_of (result : json) : list json :=
  match get result "issues" with JList l => l | _ => [] end.
Definition set_fields (v : json) (fields : dict json) : json :=
  match v with JObj d => JObj (foldl (fun d kv => dset d (fst kv) (snd kv)) d fields) | _ => v end.
(** [isinstance(item, dict) and item.get("severity") == "P1"] *)
Definition is_p1 (item : json) : bool := is_dict item && has_severity "P1" item.

(** [state] is the reading of the state file: an exception, no file, or its value. *)
Definition evaluate_cycle (state_path : pystr) (now : Z) (read : reader)
    (state : result exn (option json)) : json :=
  let run previous issues :=
    match evaluate now read previous issues with
    | (Ok r, _) => r
    | (Err e, issues') =>
        let failure := watcher_failure_report now e in
        match List.filter is_p1 issues' with
        | [] => failure
        | confirmed => set_fields failure
            [(lit "issues", JList (issues_of failure ++ confirmed)); (lit "status", JStr (lit "ALARM"))]
        end
    end in
  match state with
  | Ok s => run (read_previous_main_observation s) []
  | Err e =>
      if existsb (issubclass (exn_class e)) [OSError; ValueError] then
        run JNull [JObj [(lit "code", JStr (lit "unverifiable_state"));
              (lit "component", JStr (lit "watcher previous incident state"));
              (lit "actual", JStr (exn_text e)); (lit "expected", JStr (lit "readable prior state.json"));
              (lit "source", JStr state_path); (lit "severity", JStr (lit "P2"))]]
      else watcher_failure_report now e
  end.

(** ** The merge of [record]

    When the evaluation could not read the state but the locked persistence step can, the current
    observation takes over the older anchors; [previous] is the state then read. *)

Definition anchor_read_fault (result : json) : bool :=
  existsb (fun item => is_dict item && py_eq (get item "code") (JStr (lit "unverifiable_state")))
    (issues_of result).

Definition as_dict (v : json) : dict json := match v with JObj d => d | _ => [] end.
(** [a is not None and b is not None and a <= b] *)
Definition le_known (a b : option Z) : bool :=
  match a, b with Some x, Some y => x <=? y | _, _ => false end.
Definition not_after (a b : option Z) : bool :=
  match a, b with Some x, Some y => x <=? y | Some _, None => true | None, _ => false end.

Record merging : Type := Merging { mg_divergence : dict json; mg_issues : list json; mg_alarm : bool }.

Definition merge_anchor (observed : option Z) (old commits : dict json) (name : pystr)
    (divergence : dict json) : option (dict json) :=
  let prior := timestamp (default JNull (dget old name)) in
  match dget divergence name with
  | None =>
      if negb (dmem commits name) && le_known prior observed then
        Some (dset divergence name (JStr (iso (default 0 prior))))
      else None
  | Some fresh =>
      if le_known prior observed && not_after prior (timestamp fresh) then
        Some (dset divergence name (JStr (iso (default 0 prior))))
      else Some divergence
  end.

Definition stale_code (name : pystr) : pystr := lit "stale_" ++ name.
Definition merge_stale (observed : option Z) (commits : dict json) (name : pystr) (m : merging) : merging :=
  let anchor := timestamp (default JNull (dget (mg_divergence m) name)) in
  match anchor, observed, dget commits name, dget commits "main" with
  | Some a, Some o, Some c, Some main =>
      if py_eq c main then m
      else if (seconds THRESHOLD <=? o - a)
              && negb (existsb (fun item => is_dict item && py_eq (get item "code") (JStr (stale_code name)))
                         (mg_issues m)) then
        Merging (mg_divergence m)
          (mg_issues m ++ [JObj [(lit "code", JStr (stale_code name)); (lit "component", JStr name);
             (lit "actual", c); (lit "expected", main); (lit "source", JStr (url_of name));
             (lit "severity", JStr (lit "P1"));
             (lit "duration_seconds", JInt (py_round (total_seconds (o - a))))]]) true
      else m
  | _, _, _, _ => m
  end.

Definition merge_component (observed : option Z) (old commits : dict json) (m : merging) (name : pystr)
    : merging :=
  match merge_anchor observed old commits name (mg_divergence m) with
  | None => m
  | Some d => merge_stale observed commits name (Merging d (mg_issues m) (mg_alarm m))
  end.

Definition merged_first_seen (observed : option Z) (previous_main current_main : json) : json :=
  let prior := timestamp (get previous_main "first_seen") in
  if py_eq (get current_main "sha") (get previous_main "sha") && le_known prior observed
     && not_after prior (timestamp (get current_main "first_seen"))
  then set_fields current_main [(lit "first_seen", JStr (iso (default 0 prior)))] else current_main.

Definition merge_main_observation (result previous : json) : json :=
  let current_main := get result "main_observation" in
  let previous_main := get previous "main_observation" in
  if anchor_read_fault result && is_dict previous_main then
    if is_dict current_main then
      let observed := timestamp (get result "checked_at_utc") in
      let old := as_dict (get previous_main "diverged_since") in
      let m := foldl (merge_component observed old (as_dict (get result "commits")))
                 (Merging (as_dict (get current_main "diverged_since")) (issues_of result) false)
                 [lit "frontend"; lit "api"] in
      let first := merged_first_seen observed previous_main current_main in
      let current := match mg_divergence m with
                     | [] => first
                     | d => set_fields first [(lit "diverged_since", JObj d)]
                     end in
      set_fields result ([(lit "issues", JList (mg_issues m))]
        ++ (if mg_alarm m then [(lit "status", JStr (lit "ALARM"))] else [])
        ++ [(lit "main_observation", current)])
    else set_fields result [(lit "main_observation", previous_main)]
  else if negb (is_dict current_main) then set_fields result [(lit "main_observation", previous_main)]
  else result.
End times.

(** ** Lemmas: what a step of an evaluation adds

    [adds m r b]: whatever was collected before, [m] ends in [r] and adds issues among which there
    is a P1 exactly when [b]. *)

Section adds.
Context `{PyHost}.

Definition any_p1 (issues : list json) : bool := existsb (has_severity "P1") issues.
Definition adds {A} (m : sink A) (r : result exn A) (b : bool) : Prop :=
  forall issues, exists new, m issues = (r, issues ++ new) /\ any_p1 new = b.

Lemma any_p1_app a b : any_p1 (a ++ b) = any_p1 a || any_p1 b.
Proof. apply existsb_app. Qed.

Lemma adds_ret {A} (a : A) : adds (mret a) (Ok a) false.
Proof. intros issues. exists []. by rewrite app_nil_r. Qed.

Lemma adds_err {A} (e : exn) : adds (fun s => (Err e, s)) (Err (A := A) e) false.
Proof. intros issues. exists []. by rewrite app_nil_r. Qed.

Lemma adds_flag code component actual expected source (severity : string) duration :
  adds (flag code component actual expected source severity duration) (Ok tt)
    (str_eqb (lit severity) (lit "P1")).
Proof. intros issues. eexists. split; [reflexivity|]. cbn. by rewrite orb_false_r. Qed.

Lemma adds_bind {A B} (m : sink A) (f : A -> sink B) a r b c :
  adds m (Ok a) b -> adds (f a) r c -> adds (m ≫= f) r (b || c).
Proof.
  intros Hm Hf issues. destruct (Hm issues) as (n1 & E1 & <-).
  destruct (Hf (issues ++ n1)) as (n2 & E2 & <-). exists (n1 ++ n2).
  unfold mbind, eff_bind. rewrite E1, E2, (assoc_L (++)). by rewrite any_p1_app.
Qed.

Lemma adds_bind_err {A B} (m : sink A) (f : A -> sink B) e b :
  adds m (Err e) b -> adds (m ≫= f) (Err e) b.
Proof.
  intros Hm issues. destruct (Hm issues) as (n1 & E1 & <-). exists n1.
  unfold mbind, eff_bind. by rewrite E1.
Qed.

Lemma adds_flag_ret {A} code component actual expected source (severity : string) duration (a : A) b :
  str_eqb (lit severity) (lit "P1") = b ->
  adds (flag code component actual expected source severity duration ;; mret a) (Ok a) b.
Proof.
  intros <-. rewrite <-(orb_false_r (str_eqb _ _)).
  eapply adds_bind; [apply adds_flag|apply adds_ret].
Qed.

Lemma adds_if {A} (c : bool) (m n : sink A) r b d :
  adds m r b -> adds n r d -> adds (if c then m else n) r (if c then b else d).
Proof. by destruct c. Qed.

(** [ends m b]: the same, however [m] ends; [quiet] steps add no P1. *)
Definition ends {A} (m : sink A) (b : bool) : Prop :=
  forall issues, exists r new, m issues = (r, issues ++ new) /\ any_p1 new = b.
Definition quiet {A} (m : sink A) : Prop := ends m false.

Lemma adds_ends {A} (m : sink A) r b : adds m r b -> ends m b.
Proof. intros Hm issues. destruct (Hm issues) as (n & E & Hn). eauto. Qed.

Lemma quiet_ret {A} (a : A) : quiet (mret a).
Proof. eapply adds_ends, adds_ret. Qed.
Lemma quiet_collected : quiet collected.
Proof. intros issues. exists (Ok issues), []. by rewrite app_nil_r. Qed.
Lemma quiet_flag_ret {A} code component actual expected source (severity : string) duration (a : A) :
  str_eqb (lit severity) (lit "P1") = false ->
  quiet (flag code component actual expected source severity duration ;; mret a).
Proof. intros. eapply adds_ends. by apply adds_flag_ret. Qed.

Lemma ends_bind {A B} (m : sink A) (f : A -> sink B) b :
  ends m b -> (forall a, quiet (f a)) -> ends (m ≫= f) b.
Proof.
  intros Hm Hf issues. destruct (Hm issues) as ([a|e] & n & E & Hn); unfold mbind, eff_bind; rewrite E.
  - destruct (Hf a (issues ++ n)) as (r & n2 & -> & Hn2). exists r, (n ++ n2).
    by rewrite (assoc_L (++)), any_p1_app, Hn, Hn2, orb_false_r.
  - by exists (Err e), n.
Qed.
Lemma quiet_bind {A B} (m : sink A) (f : A -> sink B) : quiet m -> (forall a, quiet (f a)) -> quiet (m ≫= f).
Proof. apply ends_bind. Qed.

Lemma adds_then {A B} (m : sink A) (f : A -> sink B) a b c :
  adds m (Ok a) b -> ends (f a) c -> ends (m ≫= f) (b || c).
Proof.
  intros Hm Hf issues. destruct (Hm issues) as (n & E & <-).
  destruct (Hf (issues ++ n)) as (r & n2 & E2 & <-). exists r, (n ++ n2).
  unfold mbind, eff_bind. by rewrite E, E2, (assoc_L (++)), any_p1_app.
Qed.
Lemma adds_stop {A B} (m : sink A) (f : A -> sink B) e b : adds m (Err e) b -> ends (m ≫= f) b.
Proof. intros Hm. eapply adds_ends. by apply adds_bind_err. Qed.

Lemma quiet_try {A} classes (m : sink A) h :
  quiet m -> (forall e, quiet (h e)) -> quiet (try_except classes m h).
Proof.
  intros Hm Hh issues. destruct (Hm issues) as ([a|e] & n & E & Hn); unfold try_except; rewrite E.
  - by exists (Ok a), n.
  - destruct (existsb (issubclass (exn_class e)) classes); [|by exists (Err e), n].
    destruct (Hh e (issues ++ n)) as (r & n2 & -> & Hn2). exists r, (n ++ n2).
    by rewrite (assoc_L (++)), any_p1_app, Hn, Hn2.
Qed.

(** ** What the evaluation finds *)

Definition commit_key (name : pystr) : pystr := if str_eqb name "main" then lit "sha" else lit "commit".

(** The value named by an answer, and the kinds of answer that matter. *)
Definition commit_of (read : reader) (name : pystr) : option pystr :=
  match read name with Ok (d, _) => sha_str (default JNull (dget d (commit_key name))) | Err _ => None end.
Definition confirmed (e : exn) : bool :=
  issubclass (exn_class e) ConfirmedProductVersionError || issubclass (exn_class e) ConfirmedProductHTTPError.
Definition confirmed_failure (read : reader) (name : pystr) : bool :=
  match read name with Err e => confirmed e | Ok _ => false end.
Definition unnamed_commit (read : reader) (name : pystr) : bool :=
  match read name with
  | Ok (d, _) => negb (bool_decide (is_Some (sha_str (default JNull (dget d (commit_key name))))))
  | Err _ => false
  end.
Definition cacheable (read : reader) : bool :=
  match read (lit "frontend") with Ok (_, h) => negb (no_store h) | Err _ => false end.
(** The deadline, or anything else outside [Exception], ends the evaluation here. *)
Definition cut_short (read : reader) (name : pystr) : bool :=
  match read name with
  | Err e => negb (confirmed e || issubclass (exn_class e) Exception)
  | Ok _ => false
  end.
Definition diverged (read : reader) : bool :=
  match commit_of read (lit "frontend"), commit_of read (lit "api") with
  | Some f, Some a => negb (str_eqb f a)
  | _, _ => false
  end.

(** The age of a divergence is measured from the recorded start, else from the first sight of main. *)
Definition stale (now : Z) (read : reader) (previous : json) (name : pystr) : bool :=
  match commit_of read name, commit_of read (lit "main") with
  | Some c, Some m =>
      negb (str_eqb c m) &&
      (seconds THRESHOLD <=?
         now - default (first_seen_of now previous m) (recorded_divergence now previous name))
  | _, _ => false
  end.

(** A production incident: reads in order, each only when none before was cut short. *)
Definition incident (now : Z) (read : reader) (previous : json) : bool :=
  confirmed_failure read (lit "frontend") || cacheable read
  || negb (cut_short read (lit "frontend")) &&
     (confirmed_failure read (lit "api")
      || negb (cut_short read (lit "api")) &&
         (unnamed_commit read (lit "frontend") || unnamed_commit read (lit "api") || diverged read
          || negb (cut_short read (lit "main")) &&
             (stale now read previous (lit "frontend") || stale now read previous (lit "api")))).

Definition answer (read : reader) (name : pystr) : result exn (option (dict json)) :=
  match read name with
  | Ok (d, _) => Ok (Some d)
  | Err e => if confirmed e || issubclass (exn_class e) Exception then Ok None else Err e
  end.

Lemma observe_adds read name :
  adds (observe read name) (answer read name)
    (confirmed_failure read name || str_eqb name "frontend" && cacheable read).
Proof.
  unfold observe, answer, confirmed_failure, cacheable, confirmed.
  destruct (str_eqb_spec name "frontend") as [->|Hn].
  - destruct (read (lit "frontend")) as [[d h]|e].
    + destruct (no_store h); [by apply adds_ret|]. by apply adds_flag_ret.
    + rewrite andb_false_r, orb_false_r. destruct (issubclass _ ConfirmedProductVersionError); [by apply adds_flag_ret|].
      destruct (issubclass _ ConfirmedProductHTTPError); [by apply adds_flag_ret|].
      cbn [orb]. destruct (issubclass _ Exception); [by apply adds_flag_ret|apply adds_err].
  - rewrite andb_false_l, orb_false_r. destruct (read name) as [[d h]|e]; [apply adds_ret|].
    destruct (issubclass _ ConfirmedProductVersionError); [by apply adds_flag_ret|].
    destruct (issubclass _ ConfirmedProductHTTPError); [by apply adds_flag_ret|].
    cbn [orb]. destruct (issubclass _ Exception); [|apply adds_err].
    destruct (str_eqb name "schedule"); by apply adds_flag_ret.
Qed.

Lemma observe_quiet_schedule read : confirmed_failure read (lit "schedule") = false -> quiet (observe read (lit "schedule")).
Proof.
  intros Hc. pose proof (observe_adds read (lit "schedule")) as Ha.
  rewrite Hc in Ha. by eapply adds_ends.
Qed.

Lemma named_commit_adds name key (severity : string) data :
  adds (named_commit name key severity data)
    (Ok (match data with Some d => sha_str (default JNull (dget d key)) | None => None end))
    (match data with
     | Some d => negb (bool_decide (is_Some (sha_str (default JNull (dget d key)))))
                 && str_eqb (lit severity) (lit "P1")
     | None => false
     end).
Proof.
  unfold named_commit. destruct data as [d|]; [|apply adds_ret].
  destruct (sha_str _) as [s|]; cbn [negb bool_decide]; [apply adds_ret|]. by apply adds_flag_ret.
Qed.

Lemma check_divergence_adds f a :
  adds (check_divergence f a) (Ok tt)
    (match f, a with Some x, Some y => negb (str_eqb x y) | _, _ => false end).
Proof.
  unfold check_divergence. destruct f as [x|], a as [y|]; try apply adds_ret.
  destruct (str_eqb x y); [apply adds_ret|]. apply (adds_flag _ _ _ _ _ "P1").
Qed.

Lemma check_stale_adds now name main commit since :
  adds (check_stale now name main commit since) (Ok tt)
    (match commit, since with Some _, Some t => seconds THRESHOLD <=? now - t | _, _ => false end).
Proof.
  unfold check_stale. destruct commit as [c|], since as [t|]; try apply adds_ret.
  destruct (_ <=? _); [apply (adds_flag _ _ _ _ _ "P1")|apply adds_ret].
Qed.

Lemma main_time_adds now data : adds (main_time now data) (Ok tt) false.
Proof. unfold main_time. destruct (_ && _); [apply (adds_flag _ _ _ _ _ "P2")|apply adds_ret]. Qed.

Lemma main_part_adds now read previous data main :
  commit_of read (lit "main") = Some main ->
  let first_seen := first_seen_of now previous main in
  let off name := diverged_at now first_seen previous name main (commit_of read name) in
  adds (main_part now previous data main (commit_of read (lit "frontend")) (commit_of read (lit "api")))
    (Ok (observation_json main first_seen (off (lit "frontend")) (off (lit "api"))))
    (stale now read previous (lit "frontend") || stale now read previous (lit "api")).
Proof.
  intros Hm first_seen off. unfold main_part.
  set (s := stale now read previous (lit "api")). rewrite <-(orb_false_r s), <-(orb_false_r false).
  assert (forall name, stale now read previous name =
    match commit_of read name, off name with
    | Some _, Some t => seconds THRESHOLD <=? now - t | _, _ => false end) as Hs.
  { intros name. unfold stale, off, diverged_at. rewrite Hm. destruct (commit_of read name) as [c|]; [|done].
    by destruct (str_eqb c main). }
  rewrite Hs. unfold s. rewrite Hs.
  eapply adds_bind; [apply check_stale_adds|].
  eapply adds_bind; [apply check_stale_adds|].
  eapply adds_bind; [apply main_time_adds|apply adds_ret].
Qed.

Lemma newest_run_quiet now data : quiet (newest_run now data).
Proof.
  unfold newest_run.
  destruct (dget data "workflow_runs") as [[| | | | |rows|]|]; try (by apply quiet_flag_ret).
  destruct (latest _) as [run|]; [|by apply quiet_flag_ret].
  apply quiet_bind; [|intros; apply quiet_ret].
  destruct (_ <=? _); [eapply adds_ends, (adds_flag _ _ _ _ _ "INFO")|].
  destruct (_ <? _); [eapply adds_ends, (adds_flag _ _ _ _ _ "INFO")|apply quiet_ret].
Qed.

Lemma completed_history_quiet read : quiet (completed_history read).
Proof.
  unfold completed_history. destruct (read _) as [[prior h]|e].
  - destruct (dget prior "workflow_runs") as [[| | | | |rows|]|]; try (by apply quiet_flag_ret).
    destruct (List.filter _ rows); [by apply quiet_flag_ret|apply quiet_ret].
  - destruct (issubclass _ _); [by apply quiet_flag_ret|]. eapply adds_ends, adds_err.
Qed.

Lemma schedule_part_quiet read now :
  confirmed_failure read (lit "schedule") = false -> quiet (schedule_part read now).
Proof.
  intros Hc. unfold schedule_part, on_deadline.
  assert (forall c s, quiet (check_last_done c s)) as Hlast.
  { intros c s. unfold check_last_done. destruct (latest c); [|apply quiet_ret].
    destruct (py_eq _ _); [apply quiet_ret|]. eapply adds_ends, (adds_flag _ _ _ _ _ "INFO"). }
  apply quiet_bind.
  - apply quiet_try; [|intros; by apply quiet_flag_ret].
    apply quiet_bind; [by apply observe_quiet_schedule|].
    intros [d|]; [apply newest_run_quiet|apply quiet_ret].
  - intros [newest scheduled]. apply quiet_bind; [|intros; apply quiet_ret].
    apply quiet_try; [|intros; by apply quiet_flag_ret].
    unfold completed_part. destruct scheduled; [apply quiet_ret|].
    destruct (List.filter _ _); [|apply Hlast].
    apply quiet_bind; [apply completed_history_quiet|auto].
Qed.

(** Only production can fail for certain; [fetch] keeps to it. *)
Definition product_only (read : reader) : Prop :=
  forall name, confirmed_failure read name = true -> product name = true.

Lemma answer_cases read name :
  (cut_short read name = false /\ exists d, answer read name = Ok d /\
     (forall key (severity : string), key = commit_key name ->
      adds (named_commit name key severity d) (Ok (commit_of read name))
        (unnamed_commit read name && str_eqb (lit severity) (lit "P1")))) \/
  (cut_short read name = true /\ exists e, answer read name = Err e).
Proof.
  unfold cut_short, answer, commit_of, unnamed_commit.
  destruct (read name) as [[d h]|e].
  - left. split; [done|]. exists (Some d). split; [done|]. intros key severity ->. apply named_commit_adds.
  - destruct (_ || _); [left|right; eauto]. split; [done|]. exists None. split; [done|].
    intros. apply named_commit_adds.
Qed.

(** The evaluation from the read of main on. *)
Lemma evaluate_tail_ends now read previous (finish : option pystr -> json -> json -> list json -> json) :
  confirmed_failure read (lit "main") = false -> confirmed_failure read (lit "schedule") = false ->
  ends
    (md ← observe read (lit "main");
     main ← named_commit (lit "main") "sha" "P2" md;
     observation ← match md, main with
                   | Some data, Some m =>
                       main_part now previous data m (commit_of read (lit "frontend"))
                         (commit_of read (lit "api"))
                   | _, _ => mret JNull
                   end;
     newest ← schedule_part read now;
     issues ← collected;
     mret (finish main observation newest issues))
    (negb (cut_short read (lit "main")) &&
     (stale now read previous (lit "frontend") || stale now read previous (lit "api"))).
Proof.
  intros Hm Hs. pose proof (observe_adds read (lit "main")) as Om. rewrite Hm in Om.
  change (str_eqb "main" "frontend") with false in Om. cbn [andb orb] in Om.
  destruct (answer_cases read (lit "main")) as [(Cm & md & Am & Nm)|(Cm & e & Am)];
    rewrite Am in Om; rewrite Cm; cbn [negb andb]; [|by apply (adds_stop _ _ e)].
  specialize (Nm "sha" "P2" eq_refl). change (str_eqb (lit "P2") (lit "P1")) with false in Nm.
  rewrite andb_false_r in Nm.
  set (b := stale _ _ _ _ || _). apply (adds_then _ _ _ _ _ Om), (adds_then _ _ _ _ _ Nm).
  assert (forall main o, quiet (newest ← schedule_part read now;
     issues ← collected; mret (finish main o newest issues))) as Hq.
  { intros. apply quiet_bind; [by apply schedule_part_quiet|]. intros n.
    apply quiet_bind; [apply quiet_collected|intros; apply quiet_ret]. }
  destruct (commit_of read (lit "main")) as [m|] eqn:Em.
  - destruct md as [data|].
    + pose proof (main_part_adds now read previous data m Em) as Ho.
      apply (ends_bind _ _ b); [by eapply adds_ends|apply Hq].
    + exfalso. unfold commit_of in Em. unfold answer in Am. by destruct (read (lit "main")) as [[]|].
  - change (ends ?m _) with (ends m b). assert (b = false) as -> by (unfold b, stale; rewrite Em; by repeat destr_match).
    destruct md; (apply quiet_bind; [apply quiet_ret|apply Hq]).
Qed.

Lemma evaluate_ends now read previous :
  product_only read -> ends (evaluate now read previous) (incident now read previous).
Proof.
  intros Hp.
  assert (confirmed_failure read (lit "main") = false) as Hm
    by (destruct (confirmed_failure read (lit "main")) eqn:E; [by apply Hp in E|done]).
  assert (confirmed_failure read (lit "schedule") = false) as Hs
    by (destruct (confirmed_failure read (lit "schedule")) eqn:E; [by apply Hp in E|done]).
  pose proof (observe_adds read (lit "frontend")) as Of.
  pose proof (observe_adds read (lit "api")) as Oa.
  pose proof (observe_adds read (lit "main")) as Om.
  rewrite Hm in Om. change (str_eqb "frontend" "frontend") with true in Of.
  change (str_eqb "api" "frontend") with false in Oa. change (str_eqb "main" "frontend") with false in Om.
  cbn [andb orb] in Of, Oa, Om. rewrite orb_false_r in Oa.
  unfold evaluate, incident.
  destruct (answer_cases read (lit "frontend")) as [(Cf & fd & Af & Nf)|(Cf & e & Af)];
    rewrite Af in Of; rewrite Cf; cbn [negb andb];
    [|rewrite orb_false_r; by apply (adds_stop _ _ e)].
  destruct (answer_cases read (lit "api")) as [(Ca & ad & Aa & Na)|(Ca & e & Aa)];
    rewrite Aa in Oa; rewrite Ca; cbn [negb andb];
    [|rewrite orb_false_r; apply (adds_then _ _ _ _ _ Of); by apply (adds_stop _ _ e)].
  specialize (Nf "commit" "P1" eq_refl). specialize (Na "commit" "P1" eq_refl).
  change (str_eqb (lit "P1") (lit "P1")) with true in Nf, Na. rewrite andb_true_r in Nf, Na.
  pose proof (check_divergence_adds (commit_of read (lit "frontend")) (commit_of read (lit "api"))) as Hd.
  fold (diverged read) in Hd.
  apply (adds_then _ _ _ _ _ Of), (adds_then _ _ _ _ _ Oa).
  rewrite <-!(orb_assoc (unnamed_commit _ _)).
  apply (adds_then _ _ _ _ _ Nf), (adds_then _ _ _ _ _ Na), (adds_then _ _ _ _ _ Hd).
  by apply (evaluate_tail_ends now read previous
    (fun main o n => report now (commit_fields (commit_of read (lit "frontend")) (commit_of read (lit "api")) main) o n)).
Qed.

Lemma fetch_product_only loads turns : product_only (fun name => fetch loads name (turns name)).
Proof.
  intros name. unfold confirmed_failure, fetch, raise.
  destruct (fetch_once _ _ _ _); [done|done|]. destruct (fetch_once _ _ _ _); [done|done|].
  destruct (product name); [done|]. by cbn [andb].
Qed.

(** ** Lemmas: the report *)

Lemma has_severity_dict sev i : has_severity sev i = is_dict i && has_severity sev i.
Proof. by destruct i. Qed.

Lemma adds_value {A} (m : sink A) r b issues a issues' :
  adds m r b -> m issues = (Ok a, issues') -> r = Ok a.
Proof. intros Hm E. destruct (Hm issues) as (n & E' & _). rewrite E in E'. by injection E'. Qed.

(** Each read that lets the evaluation go on names its commit. *)
Lemma read_value read name key (severity : string) d c i1 i2 i3 i4 :
  key = commit_key name ->
  observe read name i1 = (Ok d, i2) ->
  named_commit name key severity d i3 = (Ok c, i4) ->
  answer read name = Ok d /\ c = commit_of read name.
Proof.
  intros Hk Ho Hn. apply (adds_value _ _ _ _ _ _ (observe_adds read name)) in Ho. split; [done|].
  destruct (answer_cases read name) as [(_ & d' & Ha & Hc)|(_ & e & Ha)]; [|congruence].
  rewrite Ho in Ha. injection Ha as <-.
  specialize (Hc key severity Hk). apply (adds_value _ _ _ _ _ _ Hc) in Hn. congruence.
Qed.

Lemma evaluate_report now read previous issues r issues' :
  evaluate now read previous issues = (Ok r, issues') ->
  exists newest, r = report now
    (commit_fields (commit_of read (lit "frontend")) (commit_of read (lit "api")) (commit_of read (lit "main")))
    (match commit_of read (lit "main") with
     | Some m =>
         let first_seen := first_seen_of now previous m in
         let off name := diverged_at now first_seen previous name m (commit_of read name) in
         observation_json m first_seen (off (lit "frontend")) (off (lit "api"))
     | None => JNull
     end) newest issues'.
Proof.
  unfold evaluate. intros E.
  apply eff_bind_inv in E as (fd & i1 & Ef & E). apply eff_bind_inv in E as (ad & i2 & Ea & E).
  apply eff_bind_inv in E as (f & i3 & Nf & E). apply eff_bind_inv in E as (a & i4 & Na & E).
  apply eff_bind_inv in E as ([] & i5 & _ & E). apply eff_bind_inv in E as (md & i6 & Em & E).
  apply eff_bind_inv in E as (m & i7 & Nm & E). apply eff_bind_inv in E as (o & i8 & Eo & E).
  apply eff_bind_inv in E as (n & i9 & _ & E). apply eff_bind_inv in E as (l & i10 & El & E).
  injection El as <- <-. injection E as <- <-. exists n.
  destruct (read_value _ _ _ "P2" _ _ _ _ _ _ eq_refl Em Nm) as [Am ->].
  destruct (read_value _ _ _ "P1" _ _ _ _ _ _ eq_refl Ef Nf) as [_ ->].
  destruct (read_value _ _ _ "P1" _ _ _ _ _ _ eq_refl Ea Na) as [_ ->].
  f_equal.
  destruct (commit_of read (lit "main")) as [main|] eqn:Hm; [|by destruct md; injection Eo].
  destruct md as [data|].
  - apply (adds_value _ _ _ _ _ _ (main_part_adds now read previous data main Hm)) in Eo. by injection Eo.
  - exfalso. unfold commit_of in Hm. unfold answer in Am. by destruct (read (lit "main")) as [[]|].
Qed.

(** No issue of an evaluation claims an unreadable state: that is the caller's to say.  Without a
    previous observation none claims a stale endpoint either. *)
Definition has_code (code : pystr) (item : json) : bool :=
  is_dict item && py_eq (get item "code") (JStr code).
Definition clean (code : pystr) (issues : list json) : Prop := existsb (has_code code) issues = false.
Definition reserved_code (code : pystr) : Prop :=
  code = lit "unverifiable_state" \/ code = stale_code (lit "frontend") \/ code = stale_code (lit "api").
Definition caller_code (previous : json) (code : pystr) : Prop :=
  code = lit "unverifiable_state" \/
  previous = JNull /\ (code = stale_code (lit "frontend") \/ code = stale_code (lit "api")).

(** Whether an issue with the mark [q] has been collected; [q] holds of issues with one code only. *)
Definition marked (q : json -> bool) (b : bool) (issues : list json) : Prop := existsb q issues = b.

Section marks.
Context (code : pystr) (q : json -> bool) (Hq : forall i, q i = true -> has_code code i = true).

Lemma mark_flag b c component actual expected source severity duration :
  str_eqb c code = false -> hoare (marked q b) (flag c component actual expected source severity duration) (marked q b).
Proof.
  intros Hc issues Hi. cbn [flag snd]. unfold marked in *. rewrite existsb_app, Hi. cbn [existsb].
  match goal with |- _ || (q ?i || _) = _ => destruct (q i) eqn:E; [apply Hq in E; change (has_code code i) with (str_eqb c code) in E; congruence|] end.
  by rewrite !orb_false_r.
Qed.
Lemma mark_ret {A} b (a : A) : hoare (marked q b) (mret a : sink A) (marked q b).
Proof. by intros s. Qed.
Lemma mark_reraise {A} b e : hoare (marked q b) (reraise (A := A) e) (marked q b).
Proof. by intros s. Qed.
Lemma mark_collected b : hoare (marked q b) collected (marked q b).
Proof. by intros s. Qed.

Context (Hcode : reserved_code code).

Ltac mark_step :=
  match goal with
  | |- hoare _ (_ ≫= _) _ => apply hoare_bind; [|intros]
  | |- hoare _ (try_except _ _ _) _ => apply hoare_try; [|intros]
  | |- hoare _ (mret _) _ => apply mark_ret
  | |- hoare _ (reraise _) _ => apply mark_reraise
  | |- hoare _ collected _ => apply mark_collected
  | H : reserved_code _ |- hoare _ (flag _ _ _ _ _ _ _) _ =>
      apply mark_flag; destruct H as [->|[->| ->]]; reflexivity
  | |- hoare _ (let _ := _ in _) _ => cbv zeta
  | |- hoare _ (match ?x with _ => _ end) _ => destruct x
  end.

Lemma mark_observe b read name : hoare (marked q b) (observe read name) (marked q b).
Proof. unfold observe. repeat mark_step. Qed.
Lemma mark_named b name key severity d : hoare (marked q b) (named_commit name key severity d) (marked q b).
Proof. unfold named_commit. repeat mark_step. Qed.
Lemma mark_divergence b f a : hoare (marked q b) (check_divergence f a) (marked q b).
Proof. unfold check_divergence. repeat mark_step. Qed.
Lemma mark_main_time b now data : hoare (marked q b) (main_time now data) (marked q b).
Proof. unfold main_time. cbv zeta. repeat mark_step. Qed.
Lemma mark_schedule b read now : hoare (marked q b) (schedule_part read now) (marked q b).
Proof.
  unfold schedule_part, on_deadline, newest_run, completed_part, completed_history, check_last_done.
  repeat (mark_step || apply mark_observe).
Qed.
Lemma mark_stale_other b now name main commit t :
  str_eqb (stale_code name) code = false -> hoare (marked q b) (check_stale now name main commit t) (marked q b).
Proof. intros Hc. unfold check_stale. repeat (destr_match; try apply mark_ret). by apply mark_flag. Qed.

Lemma mark_bind {A B} b c d (m : sink A) (f : A -> sink B) a p :
  adds m (Ok a) p -> hoare (marked q b) m (marked q c) -> hoare (marked q c) (f a) (marked q d) ->
  hoare (marked q b) (m ≫= f) (marked q d).
Proof.
  intros Ha Hm Hf s Hs. destruct (Ha s) as (n & E & _). specialize (Hm s Hs). unfold mbind, eff_bind.
  rewrite E in *. by apply Hf.
Qed.
Lemma mark_stop {A B} b (m : sink A) (f : A -> sink B) e d :
  adds m (Err e) d -> hoare (marked q b) m (marked q b) -> hoare (marked q b) (m ≫= f) (marked q b).
Proof.
  intros Ha Hm s Hs. destruct (Ha s) as (n & E & _). specialize (Hm s Hs). unfold mbind, eff_bind.
  by rewrite E in *.
Qed.
End marks.

Section clean.
Context (previous : json) (code : pystr) (Hcode : caller_code previous code).

Lemma caller_reserved : reserved_code code.
Proof. destruct Hcode as [->|[_ [->| ->]]]; [by left|by right; left|by right; right]. Qed.
Lemma own_code i : has_code code i = true -> has_code code i = true.
Proof. done. Qed.

Lemma clean_stale now name main commit :
  product name = true ->
  hoare (clean code) (check_stale now name main commit
    (diverged_at now (first_seen_of now previous main) previous name main commit)) (clean code).
Proof.
  intros Hn. destruct Hcode as [Hc|[Hp _]].
  - apply (mark_stale_other code _ own_code). rewrite Hc. by destruct name.
  - unfold check_stale. rewrite Hp. destruct commit as [x|]; [|by intros s]. unfold diverged_at.
    destruct (str_eqb x main); [by intros s|]. cbn [default recorded_divergence get first_seen_of].
    rewrite Z.sub_diag. by intros s.
Qed.

Ltac clean_part :=
  apply (mark_observe code _ own_code caller_reserved) || apply (mark_named code _ own_code caller_reserved) ||
  apply (mark_divergence code _ own_code caller_reserved) || apply (mark_main_time code _ own_code caller_reserved) ||
  apply (mark_schedule code _ own_code caller_reserved) || (apply clean_stale; reflexivity) || by intros s.
Lemma clean_main now data m f a : hoare (clean code) (main_part now previous data m f a) (clean code).
Proof. unfold main_part. cbv zeta. repeat (clean_part || (apply hoare_bind; [|intros])). Qed.

Lemma clean_evaluate now read : hoare (clean code) (evaluate now read previous) (clean code).
Proof.
  unfold evaluate.
  repeat (clean_part || apply clean_main || (apply hoare_bind; [|intros]) ||
    match goal with |- hoare _ (match ?x with _ => _ end) _ => destruct x end).
Qed.
End clean.

Lemma status_alarm issues : status_of issues = lit "ALARM" <-> any_p1 issues = true.
Proof.
  unfold status_of. fold (any_p1 issues). destruct (any_p1 issues); [done|].
  destruct (existsb _ _); (split; [|done]); intros E; discriminate E.
Qed.

Lemma filter_p1 issues : List.filter is_p1 issues = [] <-> any_p1 issues = false.
Proof.
  unfold is_p1, any_p1. induction issues as [|i issues IH]; [done|]. cbn.
  rewrite <-has_severity_dict. destruct (has_severity "P1" i); [done|]. apply IH.
Qed.

Lemma cycle_status now read previous initial :
  product_only read -> any_p1 initial = false ->
  let result := match evaluate now read previous initial with
                | (Ok r, _) => r
                | (Err e, issues') =>
                    let failure := watcher_failure_report now e in
                    match List.filter is_p1 issues' with
                    | [] => failure
                    | confirmed => set_fields failure
                        [(lit "issues", JList (issues_of failure ++ confirmed)); (lit "status", JStr (lit "ALARM"))]
                    end
                end in
  get result "status" = JStr (lit "ALARM") <-> incident now read previous = true.
Proof.
  intros Hp Hi. cbn zeta.
  destruct (evaluate_ends now read previous Hp initial) as ([r|e] & new & E & <-); rewrite E.
  - destruct (evaluate_report _ _ _ _ _ _ E) as (n & ->).
    change (get (report now ?c ?o n (initial ++ new)) "status") with (JStr (status_of (initial ++ new))).
    rewrite <-(orb_false_l (any_p1 new)), <-Hi, <-any_p1_app, <-status_alarm. split; congruence.
  - destruct (List.filter is_p1 (initial ++ new)) as [|i l] eqn:Ef.
    + apply filter_p1 in Ef. rewrite any_p1_app, Hi in Ef. cbn in Ef. rewrite Ef.
      split; [|done]. intros Hx. discriminate Hx.
    + destruct (any_p1 new) eqn:En; [done|].
      rewrite (proj2 (filter_p1 _)) in Ef by (by rewrite any_p1_app, Hi, En). done.
Qed.
End adds.

(** * What the answers of a cycle amount to

    The reading of [fetch], told without it: the two attempts at an endpoint as propositions on the
    answers of the network and of git. *)

Section told.
Context `{PyHost} (loads : bytes -> result exn json).

Definition names_commit (data : dict json) (key : string) (c : pystr) : Prop :=
  dget data (lit key) = Some (JStr c) /\ all_hex_of_length 40 c = true.

(** The attempt says [data]: an answer 200 within the limit with a JSON object, which for production
    names its commit, or for main, after a 403, the ref git reports. *)
Definition object_answer (x : exchange) (data : dict json) (cache : pystr) : Prop :=
  exists content, x = Answer 200 content cache /\ (length content <= LIMIT)%nat /\ loads content = Ok (JObj data).
Definition git_answer (git : git_process) (data : dict json) : Prop :=
  exists sha tail, git = Finished 0 (sha ++ tail) /\ all_hex_of_length 40 sha = true /\
    (tail = 9%N :: lit "refs/heads/main" \/ tail = 9%N :: lit "refs/heads/main" ++ [10%N]) /\
    data = [(lit "sha", JStr sha); (lit "observation_transport", JStr (lit "git_https"))].
Definition says (name : pystr) (a : exchange * git_process) (data : dict json) (cache : pystr) : Prop :=
  object_answer (fst a) data cache /\ (product name = true -> exists c, names_commit data "commit" c) \/
  name = lit "main" /\ fst a = HttpStatus 403 /\ git_answer (snd a) data /\ cache = [].

(** The attempt counts against production. *)
Definition lasting (code : Z) : Prop := code <> 200 /\ code <> 408 /\ code <> 425 /\ code <> 429.
Inductive condemns : exchange -> Prop :=
  | condemns_status code content cache : lasting code -> condemns (Answer code content cache)
  | condemns_http code : lasting code -> condemns (HttpStatus code)
  | condemns_size content cache : (LIMIT < length content)%nat -> condemns (Answer 200 content cache)
  | condemns_text content cache e : (length content <= LIMIT)%nat -> loads content = Err e ->
      issubclass (exn_class e) ValueError = true -> condemns (Answer 200 content cache)
  | condemns_shape content cache v : (length content <= LIMIT)%nat -> loads content = Ok v ->
      is_dict v = false -> condemns (Answer 200 content cache)
  | condemns_commit content cache data : (length content <= LIMIT)%nat -> loads content = Ok (JObj data) ->
      (forall c, ~ names_commit data "commit" c) -> condemns (Answer 200 content cache).

(** The deadline of the run falls into the attempt. *)
Definition ends_run (name : pystr) (a : exchange * git_process) : Prop :=
  (exists m, fst a = Deadline m) \/
  (exists content cache e, fst a = Answer 200 content cache /\ (length content <= LIMIT)%nat /\
     loads content = Err e /\ issubclass (exn_class e) ValueError = false /\ issubclass (exn_class e) Exception = false) \/
  (name = lit "main" /\ fst a = HttpStatus 403 /\ exists m, snd a = GitDeadline m).

Lemma names_commit_sha data key :
  match sha_str (default JNull (dget data (lit key))) with
  | Some c => names_commit data key c
  | None => forall c, ~ names_commit data key c
  end.
Proof.
  unfold sha_str, names_commit. destruct (dget data (lit key)) as [[| | | |s| |]|]; cbn [default id]; try naive_solver.
  destruct (all_hex_of_length 40 s) eqn:E; [done|]. intros c [[= ->] Hc]. congruence.
Qed.
Lemma names_commit_sha' data key c : names_commit data key c -> sha_str (default JNull (dget data (lit key))) = Some c.
Proof. intros [E Hc]. rewrite E. cbn. by rewrite Hc. Qed.

Lemma lasting_spec name code : product name = true -> permanent_product_http_failure name code = true <-> lasting code.
Proof.
  intros Hp. unfold permanent_product_http_failure, lasting. rewrite Hp. cbn [existsb].
  rewrite !andb_true_iff, !negb_true_iff, !orb_false_iff, !Z.eqb_neq. naive_solver.
Qed.

Lemma git_main_ref_spec code stdout data : git_main_ref code stdout = Some data <-> git_answer (Finished code stdout) data.
Proof.
  unfold git_main_ref, git_answer. set (suffix := [9%N] ++ lit "refs/heads/main").
  split.
  - destruct ((code =? 0) && _ && _) eqn:E; [|done]. intros [= <-].
    apply andb_true_iff in E as [[Hc%Z.eqb_eq Hs]%andb_true_iff Ht]. exists (take 40 stdout), (drop 40 stdout).
    rewrite take_drop, Hc. split_and!; [done|done| |done]. by apply orb_true_iff in Ht as [Ht%str_eqb_eq|Ht%str_eqb_eq]; auto.
  - intros (sha & tail & [= -> ->] & Hs & Ht & ->).
    assert (length sha = 40%nat) as Hl by (by apply all_hex_spec in Hs as [? _]).
    rewrite take_app_length', drop_app_length' by done. rewrite Hs.
    by destruct Ht as [->| ->]; rewrite str_eqb_refl, ?orb_true_r.
Qed.

(** One turn of the loop, whatever comes. *)
Lemma turn_told name x git :
  match fetch_once loads name x git with
  | Got data cache => says name (x, git) data cache
  | Expired _ => ends_run name (x, git)
  | Missed f => product name = true -> fl_product f = true <-> condemns x
  end.
Proof.
  destruct x as [status content cache|code|e|m]; cbn [fetch_once]; [| |intros _; split; [done|by inversion 1]|by left; exists m].
  - unfold read_answer. destruct (Z.eqb_spec status 200) as [->|Hne]; cbn [negb].
    2:{ intros Hp. cbn [value_error fl_product]. rewrite lasting_spec by done. split; [by constructor|]. inversion 1; done. }
    destruct (Nat.ltb_spec LIMIT (length content)) as [Hl|Hl].
    { intros Hp. cbn [value_error fl_product]. rewrite Hp. split; [by constructor|done]. }
    destruct (loads content) as [v|e] eqn:El.
    + destruct (is_dict v) eqn:Ed.
      2:{ assert (product name = true -> product name = true <-> condemns (Answer 200 content cache)) as G
            by (intros Hp; split; [intros _; by eapply condemns_shape|done]).
          by destruct v. }
      destruct v as [| | | | | |data]; try done. pose proof (names_commit_sha data "commit") as Hc.
      destruct (product name) eqn:Ep; cbn [andb].
      * destruct (sha_str _) as [c|] eqn:Es.
        -- rewrite bool_decide_false by done. left. split; [by exists content|]. intros _. by exists c.
        -- rewrite bool_decide_true by done. intros _. split; [|done]. intros _. by eapply condemns_commit.
      * left. split; [by exists content|]. cbn. congruence.
    + destruct (issubclass (exn_class e) ValueError) eqn:Ev.
      { intros Hp. cbn [value_error fl_product]. rewrite Hp. split; [|done]. intros _. by eapply condemns_text. }
      destruct (issubclass (exn_class e) Exception) eqn:Ex.
      * intros _. cbn [fl_product]. split; [done|]. inversion 1; simplify_eq; try congruence; [by destruct (proj1 H2)|lia].
      * right. left. by exists content, cache, e.
  - assert (product name = true -> permanent_product_http_failure name code = true <-> condemns (HttpStatus code)) as G.
    { intros Hp. rewrite lasting_spec by done. split; [by constructor|]. by inversion 1. }
    destruct (str_eqb_spec name "main") as [->|]; [|exact G]. destruct (Z.eqb_spec code 403) as [->|]; [|exact G].
    cbn [andb]. destruct git as [code stdout|e|m]; [|exact G|right; right; by split_and!; [| |exists m]].
    destruct (git_main_ref code stdout) as [data|] eqn:Eg; [|exact G].
    right. split_and!; try done. by apply git_main_ref_spec.
Qed.

(** Each of the three excludes the others and decides the turn. *)
Lemma says_turn name x git data cache : says name (x, git) data cache -> fetch_once loads name x git = Got data cache.
Proof.
  intros [[(content & Hx & Hl & El) Hc]|(-> & Hx & Hg & ->)]; cbn [fst snd] in *; subst x; cbn [fetch_once].
  - unfold read_answer. change (negb (200 =? 200)) with false. cbv iota.
    rewrite (proj2 (Nat.ltb_ge _ _)) by done. rewrite El. destruct (product name); cbn [andb]; [|done].
    destruct (Hc eq_refl) as (c & E%names_commit_sha'). by rewrite E.
  - change (str_eqb (lit "main") "main" && (403 =? 403)) with true. cbv iota.
    destruct (snd (HttpStatus 403, git)) eqn:E; cbn in E; subst git.
    + apply git_main_ref_spec in Hg. by rewrite Hg.
    + by destruct Hg as (? & ? & ? & _).
    + by destruct Hg as (? & ? & ? & _).
Qed.
Lemma ends_turn name x git : ends_run name (x, git) -> exists m, fetch_once loads name x git = Expired m.
Proof.
  intros [(m & E)|[(content & cache & e & E & Hl & El & Ev & Ee)|(-> & E & m & Eg)]]; cbn [fst snd] in *; subst.
  - by exists m.
  - exists (exn_msg e). cbn [fetch_once]. unfold read_answer. change (negb (200 =? 200)) with false. cbv iota.
    rewrite (proj2 (Nat.ltb_ge _ _)) by done. by rewrite El, Ev, Ee.
  - by exists m.
Qed.

Definition missed (name : pystr) (a : exchange * git_process) : Prop :=
  (forall data cache, ~ says name a data cache) /\ ~ ends_run name a.
(** The two attempts together. *)
Definition told (name : pystr) (t : attempts) (data : dict json) (cache : pystr) : Prop :=
  says name (fst t) data cache \/ missed name (fst t) /\ says name (snd t) data cache.
Definition cut (name : pystr) (t : attempts) : Prop :=
  ends_run name (fst t) \/ missed name (fst t) /\ ends_run name (snd t).
Definition condemned (t : attempts) : Prop := condemns (fst (fst t)) /\ condemns (fst (snd t)).

Lemma missed_turn name x git : missed name (x, git) <-> exists f, fetch_once loads name x git = Missed f.
Proof.
  pose proof (turn_told name x git) as Ht. split.
  - intros [Hs He]. destruct (fetch_once _ _ _ _); [by destruct (Hs _ _ Ht)|done|eauto].
  - intros (f & E). split; [intros d c Hs%says_turn; congruence|]. intros (m & Em)%ends_turn. congruence.
Qed.

Lemma condemns_turn name x git : product name = true -> condemns x ->
  exists f, fetch_once loads name x git = Missed f /\ fl_product f = true.
Proof.
  intros Hp Hx. pose proof (turn_told name x git) as Ht.
  assert (exists f, fetch_once loads name x git = Missed f) as [f E]; [|exists f; rewrite E in Ht; by split; [|apply Ht]].
  clear Ht. destruct Hx as [code content cache Hc|code Hc|content cache Hl|content cache e Hl El Ev|content cache v Hl El Ed|content cache data Hl El Hc];
    cbn [fetch_once]; unfold read_answer; change (negb (200 =? 200)) with false; cbv iota;
    try rewrite (proj2 (Nat.ltb_ge _ _) Hl); try rewrite (proj2 (Nat.ltb_lt _ _) Hl); try rewrite El; try (by eexists).
  - destruct (Z.eqb_spec code 200); [by destruct Hc|by eexists].
  - destruct (str_eqb_spec name "main") as [->|]; [discriminate Hp|by eexists].
  - rewrite Ev. by eexists.
  - destruct v; try done; by eexists.
  - rewrite Hp. pose proof (names_commit_sha data "commit") as Hn. cbn [andb].
    destruct (sha_str _) as [c|]; [by destruct (Hc c)|]. rewrite bool_decide_true by done. by eexists.
Qed.

Lemma told_fetch name t data cache : fetch loads name t = Ok (data, cache) <-> told name t data cache.
Proof.
  destruct t as [[x git] [y git']]. unfold fetch, told. cbn [fst snd]. rewrite missed_turn.
  pose proof (turn_told name x git) as H1. pose proof (turn_told name y git') as H2. split.
  - destruct (fetch_once loads name x git) as [d c|m|f1]; [by intros [= <- <-]; left|done|]. intros E. right. split; [eauto|].
    destruct (fetch_once loads name y git') as [d c|m|f2]; [by injection E as <- <-|done|].
    by destruct (product name && _ && _), (fl_version f1 && fl_version f2).
  - intros [Hs|[(f & ->) Hs]]; by rewrite (says_turn _ _ _ _ _ Hs).
Qed.
Lemma cut_fetch turns name : cut_short (fun name => fetch loads name (turns name)) name = true <-> cut name (turns name).
Proof.
  unfold cut_short, cut. destruct (turns name) as [[x git] [y git']]. unfold fetch. cbn [fst snd]. rewrite missed_turn.
  pose proof (turn_told name x git) as H1. pose proof (turn_told name y git') as H2. split.
  - destruct (fetch_once loads name x git) as [d c|m|f1]; [done|by left|]. intros E. right. split; [eauto|].
    destruct (fetch_once loads name y git') as [d c|m|f2]; [done|done|].
    by destruct (product name && _ && _), (fl_version f1 && fl_version f2).
  - intros [(m & ->)%ends_turn|[(f & ->) (m & ->)%ends_turn]]; done.
Qed.
Lemma condemned_fetch turns name : product name = true ->
  confirmed_failure (fun name => fetch loads name (turns name)) name = true <-> condemned (turns name).
Proof.
  intros Hp. unfold confirmed_failure, condemned. destruct (turns name) as [[x git] [y git']]. unfold fetch. cbn [fst snd].
  pose proof (turn_told name x git) as H1. pose proof (turn_told name y git') as H2. split.
  - destruct (fetch_once loads name x git) as [d c|m|f1]; [done|done|].
    destruct (fetch_once loads name y git') as [d c|m|f2]; [done|done|].
    rewrite Hp. cbn [andb]. intros E.
    destruct (fl_product f1) eqn:E1, (fl_product f2) eqn:E2; [split; [by apply H1|by apply H2]|done..].
  - intros [(f1 & -> & E1)%(condemns_turn name x git Hp) (f2 & -> & E2)%(condemns_turn name y git' Hp)].
    rewrite Hp, E1, E2. by destruct (fl_version f1 && fl_version f2).
Qed.

(** ** An incident, in these words *)

Context (now : Z) (turns : pystr -> attempts) (previous : json).
#[local] Abbreviation read := (fun name => fetch loads name (turns name)).

(** The endpoint names the commit [c]. *)
Definition names (name : pystr) (c : pystr) : Prop :=
  exists data cache, told name (turns name) data cache /\ names_commit data (if str_eqb name "main" then "sha" else "commit") c.

Inductive production_incident : Prop :=
  | frontend_fails : condemned (turns (lit "frontend")) -> production_incident
  | frontend_cached data cache : told (lit "frontend") (turns (lit "frontend")) data cache ->
      no_store cache = false -> production_incident
  | api_fails : ~ cut (lit "frontend") (turns (lit "frontend")) -> condemned (turns (lit "api")) -> production_incident
  | endpoints_differ f a : names (lit "frontend") f -> names (lit "api") a -> f <> a -> production_incident
  | endpoint_behind name c m :
      product name = true -> names name c -> names (lit "main") m -> c <> m ->
      ~ cut (lit "frontend") (turns (lit "frontend")) -> ~ cut (lit "api") (turns (lit "api")) ->
      seconds THRESHOLD <= now - default (first_seen_of now previous m) (recorded_divergence now previous name) ->
      production_incident.

Lemma commit_of_names name c : commit_of read name = Some c <-> names name c.
Proof.
  unfold commit_of, names, commit_key. split.
  - destruct (fetch loads name (turns name)) as [[d h]|e] eqn:E; [|done]. intros Hc. exists d, h. split; [by apply told_fetch|].
    destruct (str_eqb name "main").
    + pose proof (names_commit_sha d "sha") as Hn. by rewrite Hc in Hn.
    + pose proof (names_commit_sha d "commit") as Hn. by rewrite Hc in Hn.
  - intros (d & h & E%told_fetch & Hn%names_commit_sha'). rewrite E. by destruct (str_eqb name "main").
Qed.
Lemma told_not_cut name data cache : told name (turns name) data cache -> ~ cut name (turns name).
Proof. intros E%told_fetch Hc%cut_fetch. unfold cut_short in Hc. by rewrite E in Hc. Qed.
Lemma names_not_cut name c : names name c -> ~ cut name (turns name).
Proof. intros (d & h & Ht & _). by eapply told_not_cut. Qed.
Lemma condemned_not_cut name : product name = true -> condemned (turns name) -> ~ cut name (turns name).
Proof.
  intros Hp Hc%(condemned_fetch _ _ Hp) Hx%cut_fetch. unfold confirmed_failure in Hc. unfold cut_short in Hx.
  destruct (fetch _ _ _); [done|]. by rewrite Hc in Hx.
Qed.
Lemma product_named name : product name = true -> unnamed_commit read name = false.
Proof.
  intros Hp. unfold unnamed_commit. destruct (fetch loads name (turns name)) as [[d h]|e] eqn:E; [|done].
  assert (commit_key name = lit "commit") as ->.
  { unfold commit_key. by destruct (str_eqb_spec name "main") as [->|]. }
  apply told_fetch in E as [[[_ Hc]|(-> & _)]|[_ [[_ Hc]|(-> & _)]]]; try done;
    destruct (Hc Hp) as (c & Hn%names_commit_sha'); by rewrite Hn.
Qed.
Lemma cut_bool name : negb (cut_short read name) = true <-> ~ cut name (turns name).
Proof. rewrite negb_true_iff, <-not_true_iff_false, cut_fetch. done. Qed.
Lemma stale_behind name : stale now read previous name = true <->
  exists c m, names name c /\ names (lit "main") m /\ c <> m /\
    seconds THRESHOLD <= now - default (first_seen_of now previous m) (recorded_divergence now previous name).
Proof.
  setoid_rewrite <-commit_of_names. unfold stale. destruct (commit_of read name) as [c|], (commit_of read (lit "main")) as [m|];
    try (split; [done|naive_solver]).
  rewrite andb_true_iff, negb_true_iff, str_eqb_neq, Z.leb_le. naive_solver.
Qed.

Lemma incident_told : incident now read previous = true <-> production_incident.
Proof.
  unfold incident. rewrite !product_named by done. cbn [orb].
  repeat rewrite ?orb_true_iff, ?andb_true_iff. rewrite !cut_bool, !condemned_fetch by done.
  rewrite !stale_behind. unfold cacheable, diverged. split.
  - intros [[Hf|Hca]|[Hnf [Ha|[Hna [Hd|[_ [Hs|Hs]]]]]]].
    + by apply frontend_fails.
    + destruct (fetch loads (lit "frontend") _) as [[d h]|] eqn:E; [|done]. apply told_fetch in E. apply negb_true_iff in Hca.
      by eapply frontend_cached.
    + by apply api_fails.
    + destruct (commit_of read (lit "frontend")) as [f|] eqn:Ef; [|done]. destruct (commit_of read (lit "api")) as [a|] eqn:Ea; [|done].
      apply commit_of_names in Ef, Ea. apply negb_true_iff, str_eqb_neq in Hd. by eapply endpoints_differ.
    + destruct Hs as (c & m & ? & ? & ? & ?). by eapply (endpoint_behind (lit "frontend") c m).
    + destruct Hs as (c & m & ? & ? & ? & ?). by eapply (endpoint_behind (lit "api") c m).
  - intros [Hf|d h Ht Hh|Hn Ha|f a Hf Ha Hne|name c m Hp Hc Hm Hne Hf Ha Ht].
    + by left; left.
    + left. right. apply told_fetch in Ht. by rewrite Ht, Hh.
    + right. split; [done|by left].
    + right. split; [by eapply names_not_cut|]. right. split; [by eapply names_not_cut|]. left.
      apply commit_of_names in Hf, Ha. rewrite Hf, Ha. by apply negb_true_iff, str_eqb_neq.
    + right. split; [done|]. right. split; [done|]. right. split; [by eapply names_not_cut|].
      apply str_in_elem in Hp. rewrite !elem_of_cons, elem_of_nil in Hp. destruct Hp as [->|[->|[]]]; [left|right]; eauto 10.
Qed.
End told.

(** * Properties of one cycle *)

Section cycle.
Context `{PyHost}.

Definition state_handled (state : result exn (option json)) : bool :=
  match state with
  | Ok _ => true
  | Err e => existsb (issubclass (exn_class e)) [OSError; ValueError]
  end.
Definition prior (state : result exn (option json)) : json :=
  match state with Ok s => read_previous_main_observation s | Err _ => JNull end.

(** C16: a watch cycle reports [ALARM] exactly when the state file was read or its reading failed
    with an [OSError] or a [ValueError], and there is a production incident, whatever the endpoints,
    GitHub, git and the deadline do.  An incident is: two attempts at the frontend or the API that
    both count against production (a lasting HTTP status, an answer over the limit, no JSON object,
    no commit); a frontend answer without [no-store]; frontend and API on different commits; or an
    endpoint that has been off main for 45 minutes by the recorded clock.  Each counts as soon as the
    reads it needs are done, also when the deadline cuts the cycle short later; nothing of GitHub's
    schedule raises or hides an alarm.  A state that could not be read has no recorded clock, so that
    no endpoint is behind in that cycle; any other exception of its reading, such as
    [RecursionError], ends the cycle as a monitor failure without the evaluation, whatever production
    does. *)
Theorem cycle_alarm_exact loads turns state_path now state :
  let result := evaluate_cycle state_path now (fun name => fetch loads name (turns name)) state in
  (get result "status" = JStr (lit "ALARM") <->
   state_handled state = true /\ production_incident loads now turns (prior state)) /\
  (state_handled state = false -> get result "status" = JStr (lit "MONITOR_DATA_FAILURE")).
Proof.
  cbn zeta. rewrite <-incident_told. pose proof (fetch_product_only loads turns) as Hp.
  unfold evaluate_cycle. destruct state as [s|e]; cbn [state_handled prior].
  - rewrite cycle_status by done. naive_solver.
  - destruct (existsb _ _).
    + rewrite cycle_status by done. naive_solver.
    + split; [split; [intros Hx; discriminate Hx|naive_solver]|done].
Qed.
End cycle.

(** ** The issue of an endpoint behind main

    An evaluation reports it once the reads of both endpoints and of main are done, and exactly when
    the endpoint is [stale]. *)

Section reported.
Context `{PyHost}.

Definition reports_stale (name : pystr) (issue : json) : bool := has_code (stale_code name) issue && is_p1 issue.
Lemma reports_code name i : reports_stale name i = true -> has_code (stale_code name) i = true.
Proof. by intros [? _]%andb_true_iff. Qed.
Lemma stale_reserved name : product name = true -> reserved_code (stale_code name).
Proof.
  intros Hp%str_in_elem. rewrite !elem_of_cons, elem_of_nil in Hp.
  destruct Hp as [->|[->|[]]]; [by right; left|by right; right].
Qed.

Lemma mark_stale_own now name main commit t :
  hoare (marked (reports_stale name) false) (check_stale now name main commit t)
    (marked (reports_stale name)
       (match commit, t with Some _, Some t => seconds THRESHOLD <=? now - t | _, _ => false end)).
Proof.
  intros issues Hi. unfold check_stale. destruct commit as [c|], t as [t|]; try exact Hi.
  destruct (_ <=? _); [|exact Hi]. unfold marked in *. cbn [flag snd]. rewrite existsb_app, Hi. cbn [existsb orb].
  rewrite orb_false_r. transitivity (str_eqb (stale_code name) (stale_code name) && true); [reflexivity|by rewrite str_eqb_refl].
Qed.

Lemma mark_main_part now read previous data main name :
  product name = true -> commit_of read (lit "main") = Some main ->
  hoare (marked (reports_stale name) false)
    (main_part now previous data main (commit_of read (lit "frontend")) (commit_of read (lit "api")))
    (marked (reports_stale name) (stale now read previous name)).
Proof.
  intros Hp Hm. pose proof (stale_reserved name Hp) as Hr. pose proof (reports_code name) as Hq.
  set (off name := diverged_at now (first_seen_of now previous main) previous name main (commit_of read name)).
  assert (stale now read previous name = match commit_of read name, off name with
    | Some _, Some t => seconds THRESHOLD <=? now - t | _, _ => false end) as ->.
  { unfold stale, off, diverged_at. rewrite Hm. destruct (commit_of read name) as [c|]; [|done]. by destruct (str_eqb c main). }
  unfold main_part. cbv zeta. change (diverged_at _ _ _ ?n _ _) with (off n).
  apply str_in_elem in Hp. rewrite !elem_of_cons, elem_of_nil in Hp. destruct Hp as [->|[->|[]]].
  - eapply mark_bind; [apply check_stale_adds|apply mark_stale_own|].
    eapply mark_bind; [apply check_stale_adds|by apply (mark_stale_other _ _ Hq)|].
    eapply mark_bind; [apply main_time_adds|by apply (mark_main_time _ _ Hq)|by intros s].
  - eapply mark_bind; [apply check_stale_adds|by apply (mark_stale_other _ _ Hq)|].
    eapply mark_bind; [apply check_stale_adds|apply mark_stale_own|].
    eapply mark_bind; [apply main_time_adds|by apply (mark_main_time _ _ Hq)|by intros s].
Qed.

(** The reads that an evaluation needs to judge the endpoints. *)
Definition read_all (read : reader) : bool :=
  negb (cut_short read (lit "frontend")) && negb (cut_short read (lit "api")) && negb (cut_short read (lit "main")).

Lemma mark_evaluate now read previous name : product name = true ->
  hoare (marked (reports_stale name) false) (evaluate now read previous)
    (marked (reports_stale name) (read_all read && stale now read previous name)).
Proof.
  intros Hp. pose proof (stale_reserved name Hp) as Hr. pose proof (reports_code name) as Hq.
  unfold evaluate, read_all.
  pose proof (observe_adds read (lit "frontend")) as Of. pose proof (observe_adds read (lit "api")) as Oa.
  pose proof (observe_adds read (lit "main")) as Om.
  destruct (answer_cases read (lit "frontend")) as [(Cf & fd & Af & Nf)|(Cf & e & Af)];
    rewrite Af in Of; rewrite Cf; cbn [negb andb];
    [|eapply mark_stop; [exact Of|by apply (mark_observe _ _ Hq)]].
  eapply mark_bind; [exact Of|by apply (mark_observe _ _ Hq)|].
  destruct (answer_cases read (lit "api")) as [(Ca & ad & Aa & Na)|(Ca & e & Aa)];
    rewrite Aa in Oa; rewrite Ca; cbn [negb andb];
    [|eapply mark_stop; [exact Oa|by apply (mark_observe _ _ Hq)]].
  eapply mark_bind; [exact Oa|by apply (mark_observe _ _ Hq)|].
  eapply mark_bind; [by apply (Nf "commit" "P1")|by apply (mark_named _ _ Hq)|].
  eapply mark_bind; [by apply (Na "commit" "P1")|by apply (mark_named _ _ Hq)|].
  eapply mark_bind; [apply check_divergence_adds|by apply (mark_divergence _ _ Hq)|].
  destruct (answer_cases read (lit "main")) as [(Cm & md & Am & Nm)|(Cm & e & Am)];
    rewrite Am in Om; rewrite Cm; cbn [negb andb];
    [|eapply mark_stop; [exact Om|by apply (mark_observe _ _ Hq)]].
  eapply mark_bind; [exact Om|by apply (mark_observe _ _ Hq)|].
  eapply mark_bind; [by apply (Nm "sha" "P2")|by apply (mark_named _ _ Hq)|].
  assert (forall b (f : json -> json -> list json -> json) o,
    hoare (marked (reports_stale name) b)
      (newest ← schedule_part read now; issues ← collected; mret (f o newest issues)) (marked (reports_stale name) b)) as Hrest.
  { intros b f o. apply hoare_bind; [by apply (mark_schedule _ _ Hq)|]. intros n. apply hoare_bind; [by intros s|]. intros l. by intros s. }
  destruct (commit_of read (lit "main")) as [m|] eqn:Em.
  - destruct md as [data|].
    + eapply mark_bind; [by apply (main_part_adds now read previous)|by apply mark_main_part|].
      apply (Hrest _ (fun o n l => report now (commit_fields (commit_of read (lit "frontend")) (commit_of read (lit "api")) (Some m)) o n l)).
    + exfalso. unfold commit_of in Em. unfold answer in Am. by destruct (read (lit "main")) as [[]|].
  - assert (stale now read previous name = false) as -> by (unfold stale; rewrite Em; by destruct (commit_of read name)).
    assert (hoare (marked (reports_stale name) false)
      (observation ← mret JNull; newest ← schedule_part read now; issues ← collected;
       mret (report now (commit_fields (commit_of read (lit "frontend")) (commit_of read (lit "api")) None) observation newest issues))
      (marked (reports_stale name) false)) as Hg.
    { apply hoare_bind; [by intros s|]. intros o.
      apply (Hrest _ (fun o n l => report now (commit_fields (commit_of read (lit "frontend")) (commit_of read (lit "api")) None) o n l)). }
    by destruct md.
Qed.

Lemma marked_filter name issues b :
  marked (reports_stale name) b issues -> marked (reports_stale name) b (List.filter is_p1 issues).
Proof.
  unfold marked. intros <-. induction issues as [|i l IH]; [done|]. cbn [List.filter existsb].
  destruct (is_p1 i) eqn:E; cbn [existsb]; rewrite IH; [done|]. unfold reports_stale at 2. by rewrite E, andb_false_r.
Qed.

(** So does the report of the cycle, also when the deadline ends the evaluation later. *)
Lemma cycle_reports state_path now read state name : product name = true ->
  existsb (reports_stale name) (issues_of (evaluate_cycle state_path now read (Ok state))) =
  read_all read && stale now read (prior (Ok state)) name.
Proof.
  intros Hp. pose proof (mark_evaluate now read (prior (Ok state)) name Hp [] eq_refl) as Hm.
  unfold evaluate_cycle. cbn [prior] in *. destruct (evaluate now read _ []) as [[r|e] issues] eqn:E; cbn [snd] in Hm.
  - destruct (evaluate_report _ _ _ _ _ _ E) as (n & ->). exact Hm.
  - apply marked_filter in Hm. destruct (List.filter is_p1 issues) as [|i l] eqn:Ef; [|].
    + unfold marked in Hm. cbn [existsb] in Hm. rewrite <-Hm. unfold issues_of, watcher_failure_report. cbn [get dget].
      unfold reports_stale. cbn. by destruct (str_eqb _ _).
    + change (issues_of (set_fields (watcher_failure_report now e) [(lit "issues", JList (issues_of (watcher_failure_report now e) ++ i :: l)); (lit "status", JStr (lit "ALARM"))]))
        with (issues_of (watcher_failure_report now e) ++ i :: l).
      rewrite existsb_app. unfold marked in Hm. rewrite Hm.
      assert (existsb (reports_stale name) (issues_of (watcher_failure_report now e)) = false) as ->; [|done].
      apply not_true_iff_false. intros (x & [<-|[]] & [_ Hx]%andb_true_iff)%existsb_exists. discriminate Hx.
Qed.
End reported.

(** ** The clock behind the staleness alarms *)

(** [isoformat] and [fromisoformat] are inverse on what a [datetime] can hold. *)
Class ClockText `{PyHost} : Prop :=
  iso_back : forall t, in_datetime_range t = true -> timestamp (JStr (iso t)) = Some t.

(** The persisted observation: the main commit, when it was first seen, and since when each endpoint
    has been off main. *)
Record clock : Type := Clock {
  ck_main : pystr; ck_seen : Z; ck_frontend : option Z; ck_api : option Z;
}.
Definition since (name : pystr) (c : clock) : option Z :=
  if str_eqb name "frontend" then ck_frontend c else ck_api c.

Section clock.
Context `{PyHost} `{!ClockText}.

Definition clock_json (c : clock) : json :=
  observation_json (ck_main c) (ck_seen c) (ck_frontend c) (ck_api c).

Definition in_range_opt (t : option Z) : Prop := forall x, t = Some x -> in_datetime_range x = true.
Record clock_ok (c : clock) : Prop := ClockOk {
  co_main : all_hex_of_length 40 (ck_main c) = true;
  co_seen : in_datetime_range (ck_seen c) = true;
  co_frontend : in_range_opt (ck_frontend c);
  co_api : in_range_opt (ck_api c);
}.

(** One observation on the abstract clock. *)
Definition up_to (now : Z) (t : option Z) : option Z :=
  match t with Some x => if x <=? now then Some x else None | None => None end.
Definition tick (now : Z) (main : pystr) (frontend api : option pystr) (c : option clock) : clock :=
  let seen := match c with
              | Some c => if str_eqb (ck_main c) main && (ck_seen c <=? now) then ck_seen c else now
              | None => now
              end in
  let off commit old :=
    match commit with
    | None => up_to now old
    | Some x => if str_eqb x main then None else Some (default seen (up_to now old))
    end in
  Clock main seen (off frontend (c ≫= ck_frontend)) (off api (c ≫= ck_api)).

Lemma get_sha m s f a : get (observation_json m s f a) "sha" = JStr m.
Proof. reflexivity. Qed.
Lemma get_seen m s f a : get (observation_json m s f a) "first_seen" = JStr (iso s).
Proof. reflexivity. Qed.
Lemma get_since m s f a :
  get (observation_json m s f a) "diverged_since" =
  match since_fields f a with [] => JNull | d => JObj d end.
Proof. unfold observation_json. by destruct (since_fields f a). Qed.
Lemma observation_dict m s f a : exists d, observation_json m s f a = JObj d.
Proof. by eexists. Qed.

Lemma dget_since_fields f a name :
  product name = true ->
  dget (since_fields f a) name =
  (fun t => JStr (iso t)) <$> (if str_eqb name "frontend" then f else a).
Proof.
  intros Hn. apply str_in_elem in Hn. rewrite !elem_of_cons, elem_of_nil in Hn.
  destruct Hn as [->|[->|[]]]; by destruct f, a.
Qed.

(** What the persisted observation says of an endpoint. *)
Lemma since_back c name :
  clock_ok c -> product name = true ->
  match get (clock_json c) "diverged_since" with
  | JObj _ as d => timestamp (get d name)
  | _ => None
  end = since name c.
Proof.
  intros [_ _ Hf Ha] Hn. unfold clock_json. rewrite get_since.
  pose proof (dget_since_fields (ck_frontend c) (ck_api c) name Hn) as Hd.
  assert (forall t, since name c = Some t -> in_datetime_range t = true) as Ht
    by (unfold since; destruct (str_eqb name "frontend"); auto).
  fold (since name c) in Hd.
  destruct (since_fields (ck_frontend c) (ck_api c)) as [|kv d] eqn:E.
  - cbn in Hd. by destruct (since name c).
  - cbn [get]. rewrite Hd. destruct (since name c) as [t|]; cbn; [|done]. apply iso_back. auto.
Qed.

Lemma read_back_clock state c :
  clock_ok c -> is_dict state = true -> get state "main_observation" = clock_json c ->
  read_previous_main_observation (Some state) = clock_json c.
Proof.
  intros Hc Hd Hs. destruct state as [| | | | | |d]; try done. cbn [read_previous_main_observation].
  rewrite Hs. pose proof (since_back c (lit "frontend") Hc eq_refl) as Hf.
  pose proof (since_back c (lit "api") Hc eq_refl) as Ha. destruct Hc as [Hm Hseen _ _].
  unfold back_since.
  assert (get (clock_json c) "sha" = JStr (ck_main c)) as Esha by reflexivity.
  assert (get (clock_json c) "first_seen" = JStr (iso (ck_seen c))) as Eseen by reflexivity.
  assert (exists d', clock_json c = JObj d') as [d' Ev] by (by eexists).
  rewrite Ev in *. rewrite Esha, Eseen, iso_back by done. unfold sha_str. rewrite Hm.
  etransitivity; [|exact Ev]. unfold clock_json.
  change (ck_frontend c) with (since (lit "frontend") c). change (ck_api c) with (since (lit "api") c).
  rewrite <-Hf, <-Ha. by destruct (get (JObj d') "diverged_since").
Qed.

Lemma first_seen_clock now c main :
  clock_ok c ->
  first_seen_of now (clock_json c) main =
  if str_eqb (ck_main c) main && (ck_seen c <=? now) then ck_seen c else now.
Proof.
  intros [_ Hs _ _]. unfold first_seen_of.
  assert (get (clock_json c) "sha" = JStr (ck_main c)) as -> by reflexivity.
  assert (get (clock_json c) "first_seen" = JStr (iso (ck_seen c))) as -> by reflexivity.
  unfold clock_json at 1, observation_json. cbn [py_eq]. rewrite iso_back by done.
  by destruct (str_eqb (ck_main c) main).
Qed.

Lemma recorded_clock now c name :
  clock_ok c -> product name = true ->
  recorded_divergence now (clock_json c) name = up_to now (since name c).
Proof.
  intros Hc Hn. rewrite <-(since_back c name) by done. unfold recorded_divergence, up_to.
  by destruct (get (clock_json c) "diverged_since").
Qed.

Lemma in_range_up_to now t : in_range_opt t -> in_range_opt (up_to now t).
Proof. intros Ht x. unfold up_to. destruct t as [y|]; [|done]. destruct (y <=? now); [|done]. intros [= <-]. auto. Qed.

Lemma tick_ok now m f a c :
  all_hex_of_length 40 m = true -> in_datetime_range now = true -> (forall x, c = Some x -> clock_ok x) ->
  clock_ok (tick now m f a c).
Proof.
  intros Hm Hn Hc. unfold tick.
  set (seen := match c with Some c => _ | None => now end).
  assert (in_datetime_range seen = true) as Hseen.
  { unfold seen. destruct c as [c|]; [|done]. destruct (_ && _); [|done]. by apply (Hc c). }
  assert (forall (commit : option pystr) (old : option Z), in_range_opt old ->
    in_range_opt (match commit with
                  | None => up_to now old
                  | Some x => if str_eqb x m then None else Some (default seen (up_to now old))
                  end)) as Hoff.
  { intros [x|] old Ho; [|by apply in_range_up_to]. destruct (str_eqb x m); [done|].
    intros y [= <-]. apply (in_range_up_to now) in Ho. destruct (up_to now old); [by apply Ho|done]. }
  constructor; cbn [ck_main ck_seen ck_frontend ck_api]; [done|done| |]; apply Hoff;
    destruct c as [c|]; cbn; [by apply Hc|done|by apply Hc|done].
Qed.
End clock.

Section persisted.
Context `{PyHost} `{!ClockText}.

(** The observation part of the state after a cycle: what [record] keeps of it. *)
Definition next_state (state_path : pystr) (state : json) (now : Z) (read : reader) : json :=
  let result := evaluate_cycle state_path now read (Ok (Some state)) in
  JObj [(lit "main_observation", get (merge_main_observation result state) "main_observation")].

Definition clock_value (c : option clock) : json := match c with Some c => clock_json c | None => JNull end.
(** A state that holds the clock [c], or no observation yet. *)
Record holds (state : json) (c : option clock) : Prop := Holds {
  hd_dict : is_dict state = true;
  hd_value : get state "main_observation" = clock_value c;
  hd_ok : forall x, c = Some x -> clock_ok x;
}.

(** Whether this evaluation gets as far as naming main. *)
Definition named_main (now : Z) (read : reader) (state : json) : option pystr :=
  match evaluate now read (read_previous_main_observation (Some state)) [] with
  | (Ok _, _) => commit_of read (lit "main")
  | _ => None
  end.

Lemma read_previous_holds state c :
  holds state c -> read_previous_main_observation (Some state) = clock_value c.
Proof.
  intros [Hd Hv Hok]. destruct c as [c|].
  - apply read_back_clock; auto.
  - destruct state as [| | | | | |d]; try done. cbn in *. by rewrite Hv.
Qed.

Lemma tick_json now read c m :
  (forall x, c = Some x -> clock_ok x) ->
  (let first_seen := first_seen_of now (clock_value c) m in
   let off name := diverged_at now first_seen (clock_value c) name m (commit_of read name) in
   observation_json m first_seen (off (lit "frontend")) (off (lit "api"))) =
  clock_json (tick now m (commit_of read (lit "frontend")) (commit_of read (lit "api")) c).
Proof.
  intros Hok. cbn zeta. unfold tick, clock_json. cbn [ck_main ck_seen ck_frontend ck_api].
  destruct c as [c|]; cbn [clock_value mbind option_bind].
  - specialize (Hok c eq_refl). rewrite first_seen_clock by done. unfold diverged_at.
    by rewrite !recorded_clock by done.
  - reflexivity.
Qed.

Lemma merge_unfaulted result state :
  anchor_read_fault result = false -> is_dict result = true ->
  get (merge_main_observation result state) "main_observation" =
  if is_dict (get result "main_observation") then get result "main_observation"
  else get state "main_observation".
Proof.
  intros Hf Hd. unfold merge_main_observation. rewrite Hf. cbn [andb].
  destruct (is_dict (get result "main_observation")); cbn [negb]; [done|].
  destruct result as [| | | | | |d]; try done. cbn [set_fields foldl fst snd get].
  by rewrite dget_dset, str_eqb_refl.
Qed.

Lemma anchor_fault_report now c o n issues :
  anchor_read_fault (report now c o n issues) = existsb (has_code (lit "unverifiable_state")) issues.
Proof. reflexivity. Qed.

Lemma clean_filter code issues : clean code issues -> clean code (List.filter is_p1 issues).
Proof.
  unfold clean. induction issues as [|i l IH]; [done|]. cbn. intros [Hi Hl]%orb_false_iff.
  destruct (is_p1 i); cbn; [rewrite Hi; cbn|]; auto.
Qed.

(** One cycle on the persisted clock. *)
Lemma next_state_clock state_path state now read c :
  holds state c -> in_datetime_range now = true ->
  exists c', holds (next_state state_path state now read) c' /\
    c' = match named_main now read state with
         | Some m => Some (tick now m (commit_of read (lit "frontend")) (commit_of read (lit "api")) c)
         | None => c
         end.
Proof.
  intros Hs Hnow. pose proof (read_previous_holds state c Hs) as Hprev.
  pose proof (clean_evaluate (clock_value c) _ (or_introl eq_refl) now read [] eq_refl) as Hclean.
  eexists. split; [|reflexivity]. unfold next_state, evaluate_cycle, named_main. rewrite Hprev.
  destruct (evaluate now read (clock_value c) []) as [[r|e] issues] eqn:E; cbn [snd] in Hclean.
  - destruct (evaluate_report _ _ _ _ _ _ E) as (n & ->).
    rewrite merge_unfaulted by done. change (get (report now ?x ?o n issues) "main_observation") with o.
    destruct (commit_of read (lit "main")) as [m|] eqn:Em.
    + rewrite (tick_json now read c m (hd_ok _ _ Hs)).
      change (is_dict (clock_json ?x)) with true. cbn iota. constructor; [done|done|].
      intros x [= <-]. apply tick_ok; [|done|apply Hs].
      unfold commit_of in Em. destruct (read (lit "main")) as [[d h]|]; [|done].
      unfold sha_str in Em. destruct (default JNull _); try done. destruct (all_hex_of_length 40 _) eqn:?; naive_solver.
    + constructor; [done|apply Hs|apply Hs].
  - rewrite merge_unfaulted.
    + destruct (List.filter is_p1 issues); (constructor; [done|apply Hs|apply Hs]).
    + apply clean_filter in Hclean. destruct (List.filter is_p1 issues) as [|i l]; [done|]. exact Hclean.
    + by destruct (List.filter is_p1 issues).
Qed.
End persisted.

(** ** Lemmas: the clock over many cycles *)

Section cycles.
Context `{PyHost} `{!ClockText}.

(** An endpoint seen on main's own commit. *)
Definition converged (read : reader) (name : pystr) : Prop :=
  exists m, commit_of read name = Some m /\ commit_of read (lit "main") = Some m.

Lemma tick_since now read m c name t :
  product name = true -> since name c = Some t -> t <= now -> commit_of read (lit "main") = Some m ->
  ~ converged read name ->
  since name (tick now m (commit_of read (lit "frontend")) (commit_of read (lit "api")) (Some c)) = Some t.
Proof.
  intros Hn Ht Hle Hm Hnc. apply str_in_elem in Hn. rewrite !elem_of_cons, elem_of_nil in Hn.
  assert (forall commit old, old = Some t ->
    (forall x, commit = Some x -> str_eqb x m = false) ->
    match commit with
    | None => up_to now old
    | Some x => if str_eqb x m then None
                else Some (default (if str_eqb (ck_main c) m && (ck_seen c <=? now) then ck_seen c else now)
                             (up_to now old))
    end = Some t) as Hoff.
  { intros commit old -> Hx. unfold up_to. destruct (Z.leb_spec t now); [|lia].
    destruct commit as [x|]; [|done]. by rewrite (Hx x). }
  assert (forall x, commit_of read name = Some x -> str_eqb x m = false) as Hx.
  { intros x Ex. apply str_eqb_neq. intros ->. apply Hnc. by exists m. }
  destruct Hn as [->|[->|[]]]; apply Hoff; done.
Qed.

Lemma named_main_commit now read state m :
  named_main now read state = Some m -> commit_of read (lit "main") = Some m.
Proof. unfold named_main. by destruct (evaluate _ _ _ _) as [[] ?]. Qed.

(** A poll at [now] that does not see the endpoint converged. *)
Definition unresolved (name : pystr) (t : Z) (poll : Z * reader) : Prop :=
  t <= fst poll /\ in_datetime_range (fst poll) = true /\ ~ converged (snd poll) name.
Definition next_of (state_path : pystr) (state : json) (poll : Z * reader) : json :=
  next_state state_path state (fst poll) (snd poll).

Lemma since_persists state_path name t polls :
  product name = true -> Forall (unresolved name t) polls ->
  forall state c, holds state (Some c) -> since name c = Some t ->
  exists c', holds (foldl (next_of state_path) state polls) (Some c') /\ since name c' = Some t.
Proof.
  intros Hn. induction 1 as [|[now read] polls (Hle & Hnow & Hnc) Hpolls IH]; intros state c Hs Hc; [eauto|].
  cbn [foldl]. cbn [fst snd] in *.
  destruct (next_state_clock state_path state now read (Some c) Hs Hnow) as (c1 & H1 & ->).
  destruct (named_main now read state) as [m|] eqn:Em; [|by apply (IH _ c)].
  eapply IH; [exact H1|]. apply tick_since; try done. by eapply named_main_commit.
Qed.

Lemma stale_holds state c now read name t :
  product name = true -> holds state (Some c) -> since name c = Some t -> t <= now ->
  stale now read (read_previous_main_observation (Some state)) name =
  match commit_of read name, commit_of read (lit "main") with
  | Some x, Some m => negb (str_eqb x m) && (seconds THRESHOLD <=? now - t)
  | _, _ => false
  end.
Proof.
  intros Hn Hs Hc Hle. rewrite (read_previous_holds state (Some c) Hs). unfold stale. cbn [clock_value].
  rewrite recorded_clock by (try done; by apply Hs). rewrite Hc. unfold up_to.
  by rewrite (proj2 (Z.leb_le _ _)).
Qed.
End cycles.

(** * Properties of the clock *)

Section clock_properties.
Context `{PyHost} `{!ClockText}.

(** C17: the persisted observation refines the abstract clock.  Reading the state back, evaluating
    and merging amounts to one [tick] on (main, first seen, off main since) whenever the cycle gets
    as far as naming main, and otherwise leaves the clock as it was: the text form, the deadline,
    lost answers and unreadable fields never move it. *)
Theorem observation_refines state_path state now read c :
  holds state c -> in_datetime_range now = true ->
  holds (next_state state_path state now read)
    (match named_main now read state with
     | Some m => Some (tick now m (commit_of read (lit "frontend")) (commit_of read (lit "api")) c)
     | None => c
     end).
Proof. intros Hs Hn. by destruct (next_state_clock state_path state now read c Hs Hn) as (c' & Hc & <-). Qed.

(** C18: nothing but convergence stops the staleness clock.  Once an endpoint is recorded off main
    since [t], then whatever polls follow, with whatever answers, new main commits, failures and
    deadlines, the record still says [t] as long as no poll sees the endpoint on main's commit; and
    the report of a further cycle contains the P1 issue that the endpoint is stale exactly when both
    endpoints and main were read before any deadline, the endpoint names another commit than main
    and [t] is 45 minutes ago or more. *)
Theorem stale_clock_persists state_path name t polls state c now read :
  product name = true -> holds state (Some c) -> since name c = Some t ->
  Forall (unresolved name t) polls -> t <= now ->
  let final := foldl (next_of state_path) state polls in
  (exists c', holds final (Some c') /\ since name c' = Some t) /\
  existsb (reports_stale name) (issues_of (evaluate_cycle state_path now read (Ok (Some final)))) =
  read_all read &&
  match commit_of read name, commit_of read (lit "main") with
  | Some x, Some m => negb (str_eqb x m) && (seconds THRESHOLD <=? now - t)
  | _, _ => false
  end.
Proof.
  intros Hn Hs Hc Hpolls Hle final.
  destruct (since_persists state_path name t polls Hn Hpolls state c Hs Hc) as (c' & Hs' & Hc').
  split; [eauto|]. rewrite cycle_reports by done. f_equal. by eapply stale_holds.
Qed.
End clock_properties.

(** ** Lemmas: the merge after a failed read *)

Section merge.
Context `{PyHost} `{!ClockText}.

Definition off_main (m : pystr) (commit : option pystr) : bool :=
  match commit with Some x => negb (str_eqb x m) | None => false end.

(** The clock the merge leaves: as [tick], but an endpoint newly off main counts from this poll. *)
Definition merged_since (now : Z) (m : pystr) (commit : option pystr) (old : option Z) : option Z :=
  match commit with
  | None => up_to now old
  | Some x => if str_eqb x m then None else Some (default now (up_to now old))
  end.
Definition overdue (now : Z) (m : pystr) (commit : option pystr) (old : option Z) : bool :=
  off_main m commit && (seconds THRESHOLD <=? now - default now (up_to now old)).

Definition iso_json (t : option Z) : option json := (fun t => JStr (iso t)) <$> t.

Lemma le_known_up_to now old : le_known old (Some now) = bool_decide (is_Some (up_to now old)).
Proof. destruct old as [t|]; cbn; [|done]. by destruct (t <=? now). Qed.
Lemma up_to_Some now old t : up_to now old = Some t -> old = Some t /\ t <= now.
Proof. destruct old as [x|]; cbn; [|done]. destruct (Z.leb_spec x now); naive_solver. Qed.

Lemma merge_component_spec now m (commit : option pystr) (old_at : option Z) old commits mg name :
  in_datetime_range now = true -> in_range_opt old_at ->
  dget old name = iso_json old_at ->
  dget commits name = JStr <$> commit -> dget commits "main" = Some (JStr m) ->
  dget (mg_divergence mg) name = iso_json (if off_main m commit then Some now else None) ->
  clean (stale_code name) (mg_issues mg) ->
  let mg' := merge_component (Some now) old commits mg name in
  (forall n, dget (mg_divergence mg') n =
     if str_eqb n name then iso_json (merged_since now m commit old_at) else dget (mg_divergence mg) n) /\
  mg_alarm mg' = mg_alarm mg || overdue now m commit old_at /\
  (forall code, code <> stale_code name -> clean code (mg_issues mg) -> clean code (mg_issues mg')).
Proof.
  intros Hnow Hold Eold Ecommit Emain Ediv Hclean. cbn zeta.
  assert (timestamp (default JNull (dget old name)) = old_at) as Eprior.
  { rewrite Eold. destruct old_at as [t|]; cbn; [apply iso_back; auto|done]. }
  unfold merge_component, merge_anchor, overdue, off_main in *. rewrite Eprior, Ediv, le_known_up_to.
  destruct commit as [x|]; cbn [fmap option_fmap option_map] in Ecommit.
  - destruct (str_eqb x m) eqn:Exm; cbn [negb iso_json fmap option_fmap option_map andb].
    + unfold dmem. rewrite Ecommit. cbn [negb andb]. split_and!; [|by rewrite orb_false_r|done].
      intros n. cbn [merged_since]. rewrite Exm. destruct (str_eqb_spec n name) as [->|]; [|done].
      by rewrite Ediv.
    + assert (timestamp (JStr (iso now)) = Some now) as -> by by apply iso_back.
      match goal with |- context [match ?x with Some d => merge_stale _ _ _ _ | None => _ end] => set (d := x) end.
      assert (exists e, d = Some e /\ (forall n, dget e n =
        if str_eqb n name then Some (JStr (iso (default now (up_to now old_at)))) else dget (mg_divergence mg) n))
        as (e & -> & He).
      { unfold d. destruct (up_to now old_at) as [t|] eqn:Eu; cbn [default].
        - destruct (up_to_Some _ _ _ Eu) as [-> Ht]. cbn. rewrite (proj2 (Z.leb_le _ _) Ht). eexists. split; [done|].
          intros n. apply dget_dset.
        - eexists. split; [done|]. intros n. destruct (str_eqb_spec n name) as [->|]; [|done]. by rewrite Ediv. }
      unfold merge_stale. cbn [mg_divergence mg_issues mg_alarm]. rewrite He, str_eqb_refl. change (default JNull (Some ?x)) with x.
      assert (in_datetime_range (default now (up_to now old_at)) = true) as Hr.
      { destruct (up_to now old_at) as [t|] eqn:Eu; [|done]. destruct (up_to_Some _ _ _ Eu) as [-> _]. by apply Hold. }
      rewrite iso_back by done. rewrite Ecommit, Emain. cbn [py_eq]. rewrite Exm.
      fold (has_code (stale_code name)). unfold clean in Hclean.
      change (existsb (fun item => is_dict item && py_eq (get item "code") (JStr (stale_code name))) (mg_issues mg))
        with (existsb (has_code (stale_code name)) (mg_issues mg)).
      rewrite Hclean. cbn [negb]. rewrite andb_true_r.
      destruct (seconds THRESHOLD <=? _); cbn [mg_divergence mg_issues mg_alarm].
      * split_and!; [|by rewrite orb_true_r|].
        -- intros n. rewrite He. cbn [merged_since]. by rewrite Exm.
        -- intros code Hne Hc. unfold clean in *. rewrite existsb_app, Hc. cbn [existsb orb].
           match goal with |- has_code code ?i || _ = _ => change (has_code code i) with (str_eqb (stale_code name) code) end.
           by rewrite (proj2 (str_eqb_neq _ _)).
      * split_and!; [|by rewrite orb_false_r|done]. intros n. rewrite He. cbn [merged_since]. by rewrite Exm.
  - unfold dmem. rewrite Ecommit. cbn [negb andb iso_json fmap option_fmap option_map].
    destruct (up_to now old_at) as [t|] eqn:Eu.
    + change (bool_decide (is_Some (Some t))) with true. cbn iota. destruct (up_to_Some _ _ _ Eu) as [-> Ht]. cbn [default].
      unfold merge_stale. cbn [mg_divergence mg_issues mg_alarm]. rewrite dget_dset, str_eqb_refl, Ecommit.
      change (default JNull (Some ?x)) with x. change (default 0 (Some t)) with t.
      rewrite iso_back by (by apply Hold). cbn [mg_divergence mg_issues mg_alarm].
      split_and!; [|by rewrite orb_false_r|done]. intros n. rewrite dget_dset. cbn [merged_since]. by rewrite Eu.
    + change (bool_decide (is_Some (@None Z))) with false. cbn iota.
      split_and!; [|by rewrite orb_false_r|done]. intros n. cbn [merged_since]. rewrite Eu.
      destruct (str_eqb_spec n name) as [->|]; [|done]. by rewrite Ediv.
Qed.

Definition merged_clock (now : Z) (m : pystr) (read : reader) (c : clock) : clock :=
  Clock m (if str_eqb (ck_main c) m && (ck_seen c <=? now) then ck_seen c else now)
    (merged_since now m (commit_of read (lit "frontend")) (ck_frontend c))
    (merged_since now m (commit_of read (lit "api")) (ck_api c)).

Lemma get_set1 d k v n : get (set_fields (JObj d) [(k, v)]) n = if str_eqb n k then v else get (JObj d) n.
Proof. cbn [set_fields foldl fst snd get]. rewrite dget_dset. by destruct (str_eqb n k). Qed.

(** The observation of an evaluation that had no previous one. *)
Lemma off_alone now m name read :
  diverged_at now (first_seen_of now JNull m) JNull name m (commit_of read name) =
  if off_main m (commit_of read name) then Some now else None.
Proof. unfold diverged_at, off_main. destruct (commit_of read name) as [x|]; [|done]. by destruct (str_eqb x m). Qed.

Lemma timestamp_iso_json t :
  in_range_opt t -> timestamp (default JNull (iso_json t)) = t.
Proof. destruct t as [t|]; cbn; [|done]. intros Ht. apply iso_back. auto. Qed.

Lemma merged_since_range now m commit old :
  in_datetime_range now = true -> in_range_opt old -> in_range_opt (merged_since now m commit old).
Proof.
  intros Hn Ho. unfold merged_since. pose proof (in_range_up_to now old Ho) as Hu.
  destruct commit as [x|]; [|done]. destruct (str_eqb x m); [done|]. intros y [= <-].
  destruct (up_to now old); [by apply Hu|done].
Qed.

(** The folded components. *)
Lemma merge_fold now m read c issues :
  in_datetime_range now = true -> clock_ok c -> commit_of read (lit "main") = Some m ->
  clean (stale_code (lit "frontend")) issues -> clean (stale_code (lit "api")) issues ->
  let f := commit_of read (lit "frontend") in let a := commit_of read (lit "api") in
  let start := since_fields (if off_main m f then Some now else None) (if off_main m a then Some now else None) in
  let mg := foldl (merge_component (Some now) (since_fields (ck_frontend c) (ck_api c))
                     (commit_fields f a (Some m))) (Merging start issues false) [lit "frontend"; lit "api"] in
  dget (mg_divergence mg) "frontend" = iso_json (merged_since now m f (ck_frontend c)) /\
  dget (mg_divergence mg) "api" = iso_json (merged_since now m a (ck_api c)) /\
  mg_alarm mg = overdue now m f (ck_frontend c) || overdue now m a (ck_api c).
Proof.
  intros Hn [_ _ Hf Ha] Hm Cf Ca f a start mg.
  set (old := since_fields (ck_frontend c) (ck_api c)) in *. set (commits := commit_fields f a (Some m)) in *.
  assert (forall x y, dget (since_fields x y) "frontend" = iso_json x) as Sf by (by intros [] []).
  assert (forall x y, dget (since_fields x y) "api" = iso_json y) as Sa by (by intros [] []).
  set (mg1 := merge_component (Some now) old commits (Merging start issues false) (lit "frontend")).
  destruct (merge_component_spec now m f (ck_frontend c) old commits (Merging start issues false) (lit "frontend"))
    as (D1 & A1 & I1); try done; [apply Sf|by destruct f, a|by destruct f, a|apply Sf|].
  fold mg1 in D1, A1, I1.
  destruct (merge_component_spec now m a (ck_api c) old commits mg1 (lit "api")) as (D2 & A2 & _);
    try done; [apply Sa|by destruct f, a|by destruct f, a| |by apply I1|].
  { rewrite D1. change (str_eqb "api" "frontend") with false. apply Sa. }
  change mg with (merge_component (Some now) old commits mg1 (lit "api")).
  rewrite !D2, D1, A2, A1. cbn [mg_alarm orb]. split_and!; done.
Qed.

Lemma as_dict_since m s f a : as_dict (get (observation_json m s f a) "diverged_since") = since_fields f a.
Proof. rewrite get_since. by destruct (since_fields f a). Qed.

Lemma merged_first now m c f0 a0 :
  in_datetime_range now = true -> clock_ok c ->
  let first := merged_first_seen (Some now) (clock_json c) (observation_json m now f0 a0) in
  (exists d, first = JObj d) /\ get first "sha" = JStr m /\
  get first "first_seen" = JStr (iso (if str_eqb (ck_main c) m && (ck_seen c <=? now) then ck_seen c else now)) /\
  get first "diverged_since" = get (observation_json m now f0 a0) "diverged_since".
Proof.
  intros Hn [_ Hs _ _]. unfold merged_first_seen. cbn zeta.
  change (get (observation_json m now f0 a0) "sha") with (JStr m).
  change (get (clock_json c) "sha") with (JStr (ck_main c)).
  change (get (clock_json c) "first_seen") with (JStr (iso (ck_seen c))).
  change (get (observation_json m now f0 a0) "first_seen") with (JStr (iso now)).
  rewrite !iso_back by done. cbn [py_eq le_known not_after]. rewrite (str_eqb_sym m).
  destruct (str_eqb (ck_main c) m); cbn [andb]; [|split_and!; [by eexists|done..]].
  destruct (ck_seen c <=? now); cbn [andb]; [|split_and!; [by eexists|done..]].
  split_and!; [by eexists|done|done|]. unfold observation_json at 1. by rewrite get_set1.
Qed.

(** Reading back the merged observation. *)
Lemma read_merged now m read c first d :
  in_datetime_range now = true -> clock_ok c -> all_hex_of_length 40 m = true ->
  (exists d', first = JObj d') -> get first "sha" = JStr m ->
  get first "first_seen" = JStr (iso (ck_seen (merged_clock now m read c))) ->
  dget d "frontend" = iso_json (ck_frontend (merged_clock now m read c)) ->
  dget d "api" = iso_json (ck_api (merged_clock now m read c)) ->
  (d = [] -> as_dict (get first "diverged_since") = []) ->
  forall state', is_dict state' = true ->
  get state' "main_observation" =
    match d with [] => first | _ => set_fields first [(lit "diverged_since", JObj d)] end ->
  read_previous_main_observation (Some state') = clock_json (merged_clock now m read c).
Proof.
  intros Hn [_ Hseen Hf Ha] Hm [d' ->] Esha Eseen Ef Ea Hnil state' Hd Hs.
  destruct state' as [| | | | | |ds]; try done. cbn [read_previous_main_observation]. rewrite Hs.
  assert (in_datetime_range (ck_seen (merged_clock now m read c)) = true) as Hr
    by (cbn; by destruct (_ && _)).
  pose proof (merged_since_range now m (commit_of read (lit "frontend")) _ Hn Hf) as Rf.
  pose proof (merged_since_range now m (commit_of read (lit "api")) _ Hn Ha) as Ra.
  assert (exists o, match d with [] => JObj d' | _ => set_fields (JObj d') [(lit "diverged_since", JObj d)] end
                    = JObj o) as [o Eo] by (destruct d; by eexists).
  rewrite Eo.
  assert (get (JObj o) "sha" = JStr m) as ->
    by (rewrite <-Eo; destruct d; [done|rewrite get_set1; exact Esha]).
  assert (get (JObj o) "first_seen" = JStr (iso (ck_seen (merged_clock now m read c)))) as ->
    by (rewrite <-Eo; destruct d; [done|rewrite get_set1; exact Eseen]).
  rewrite iso_back by done. unfold sha_str. rewrite Hm. unfold back_since.
  assert (forall name, match get (JObj o) "diverged_since" with
                       | JObj _ => timestamp (get (get (JObj o) "diverged_since") name) | _ => None end
                       = timestamp (default JNull (dget d name))) as Hat.
  { intros name. rewrite <-Eo. destruct d as [|kv d].
    - specialize (Hnil eq_refl). destruct (get (JObj d') "diverged_since"); try done. cbn in Hnil. by subst.
    - rewrite get_set1. done. }
  rewrite !Hat, Ef, Ea. rewrite !timestamp_iso_json by done. done.
Qed.

Lemma sha_of_commit read m : commit_of read (lit "main") = Some m -> all_hex_of_length 40 m = true.
Proof.
  unfold commit_of. destruct (read (lit "main")) as [[d h]|]; [|done].
  unfold sha_str. destruct (default JNull _); try done. destruct (all_hex_of_length 40 _) eqn:E; [|done].
  by intros [= <-].
Qed.

Lemma merge_report now read c state newest issues m :
  in_datetime_range now = true -> holds state (Some c) -> commit_of read (lit "main") = Some m ->
  clean (stale_code (lit "frontend")) issues -> clean (stale_code (lit "api")) issues ->
  existsb (has_code (lit "unverifiable_state")) issues = true ->
  let f := commit_of read (lit "frontend") in let a := commit_of read (lit "api") in
  let result := report now (commit_fields f a (Some m))
    (observation_json m now (if off_main m f then Some now else None) (if off_main m a then Some now else None))
    newest issues in
  let merged := merge_main_observation result state in
  read_previous_main_observation (Some merged) = clock_json (merged_clock now m read c) /\
  get merged "status" =
    JStr (if overdue now m f (ck_frontend c) || overdue now m a (ck_api c) then lit "ALARM" else status_of issues).
Proof.
  intros Hn [Hd Hv Hok] Hm Cf Ca Hfault f a result merged. specialize (Hok c eq_refl). cbn [clock_value] in Hv.
  set (obs := observation_json m now _ _) in *.
  assert (merged = let mg := foldl (merge_component (Some now) (since_fields (ck_frontend c) (ck_api c))
      (commit_fields f a (Some m))) (Merging (since_fields (if off_main m f then Some now else None)
                                             (if off_main m a then Some now else None)) issues false)
      [lit "frontend"; lit "api"] in
    let first := merged_first_seen (Some now) (clock_json c) obs in
    let current := match mg_divergence mg with [] => first | d => set_fields first [(lit "diverged_since", JObj d)] end in
    set_fields result ([(lit "issues", JList (mg_issues mg))]
        ++ (if mg_alarm mg then [(lit "status", JStr (lit "ALARM"))] else [])
        ++ [(lit "main_observation", current)])) as Emerged.
  { unfold merged, merge_main_observation. rewrite Hv.
    change (anchor_read_fault result) with (existsb (has_code (lit "unverifiable_state")) issues). rewrite Hfault.
    change (is_dict (clock_json c)) with true. cbn [andb].
    change (get result "main_observation") with obs. change (is_dict obs) with true.
    change (get result "checked_at_utc") with (JStr (iso now)). rewrite (iso_back now Hn).
    assert (as_dict (get (clock_json c) "diverged_since") = since_fields (ck_frontend c) (ck_api c)) as ->
      by apply as_dict_since.
    assert (as_dict (get obs "diverged_since") = since_fields (if off_main m f then Some now else None)
                                                    (if off_main m a then Some now else None)) as ->
      by apply as_dict_since.
    reflexivity. }
  destruct (merge_fold now m read c issues Hn Hok Hm Cf Ca) as (Df & Da & Alarm). fold f a in Df, Da, Alarm.
  cbn zeta in Emerged.
  set (mg := foldl _ _ _) in *. clearbody mg merged.
  destruct (merged_first now m c (if off_main m f then Some now else None) (if off_main m a then Some now else None) Hn Hok)
    as (Fd & Fsha & Fseen & Fdiv). fold obs in Fd, Fsha, Fseen, Fdiv.
  set (first := merged_first_seen _ _ _) in *. clearbody first.
  split.
  - eapply (read_merged now m read c first (mg_divergence mg)); try done; [by apply (sha_of_commit read)| | |].
    + intros Enil. rewrite Fdiv. unfold obs. rewrite as_dict_since. rewrite Enil in Df, Da.
      unfold merged_since in Df, Da. unfold off_main.
      destruct f as [x|]; [destruct (str_eqb x m); [|done]|]; destruct a as [y|]; try done;
        by destruct (str_eqb y m).
    + rewrite Emerged. by destruct (mg_alarm mg).
    + rewrite Emerged. destruct (mg_alarm mg), (mg_divergence mg); reflexivity.
  - rewrite <-Alarm, Emerged. by destruct (mg_alarm mg).
Qed.
End merge.

Section merge_properties.
Context `{PyHost} `{!ClockText}.

(** A state file that could not be read for the evaluation costs no alarm that its record would
    have raised.  When the locked persistence step can read it, the merged observation reads back as
    a clock with the recorded first sight of main and the recorded starts of every divergence still
    unresolved, and the report is an [ALARM] exactly for an incident seen without the record or an
    endpoint overdue by it.  That clock is the one an undisturbed evaluation would have persisted,
    with one exception: an endpoint newly off a main commit seen before counts from this poll and
    not from the first sight of that commit. *)
Theorem merge_after_fault loads turns state_path now e state c :
  let read name := fetch loads name (turns name) in
  let result := evaluate_cycle state_path now read (Err e) in
  in_datetime_range now = true -> holds state (Some c) -> state_handled (Err e) = true ->
  get result "main_observation" <> JNull ->
  let merged := merge_main_observation result state in
  exists m, commit_of read (lit "main") = Some m /\
    let after := merged_clock now m read c in
    let direct := tick now m (commit_of read (lit "frontend")) (commit_of read (lit "api")) (Some c) in
    read_previous_main_observation (Some merged) = clock_json after /\
    (get merged "status" = JStr (lit "ALARM") <->
     incident now read JNull = true \/
     overdue now m (commit_of read (lit "frontend")) (ck_frontend c) = true \/
     overdue now m (commit_of read (lit "api")) (ck_api c) = true) /\
    ck_main after = ck_main direct /\ ck_seen after = ck_seen direct /\
    forall name, product name = true ->
      since name after = since name direct \/
      up_to now (since name c) = None /\ off_main m (commit_of read name) = true /\
      since name after = Some now /\ since name direct = Some (ck_seen direct).
Proof.
  cbn zeta. intros Hn Hs He Hobs. set (read name := _) in *.
  pose proof (fetch_product_only loads turns : product_only read) as Hp.
  unfold evaluate_cycle in *. cbn [state_handled] in He. rewrite He in *.
  set (initial := [JObj _]) in *.
  assert (any_p1 initial = false) as Hi by reflexivity.
  destruct (evaluate_ends now read JNull Hp initial) as (r & new & E & Hinc).
  pose proof (clean_evaluate JNull (stale_code (lit "frontend")) (or_intror (conj eq_refl (or_introl eq_refl)))
                now read initial eq_refl) as Cf.
  pose proof (clean_evaluate JNull (stale_code (lit "api")) (or_intror (conj eq_refl (or_intror eq_refl)))
                now read initial eq_refl) as Ca.
  rewrite E in *. cbn [snd] in Cf, Ca.
  destruct r as [r|x]; [|exfalso; apply Hobs; by destruct (List.filter is_p1 _)].
  destruct (evaluate_report _ _ _ _ _ _ E) as (newest & ->).
  destruct (commit_of read (lit "main")) as [m|] eqn:Hm; [|by exfalso; apply Hobs].
  exists m. split; [done|]. cbv zeta beta. rewrite !off_alone.
  destruct (merge_report now read c state newest (initial ++ new) m Hn Hs Hm Cf Ca eq_refl) as [Hread Hstatus].
  change (first_seen_of now JNull m) with now. split_and!.
  - exact Hread.
  - rewrite Hstatus, <-Hinc.
    assert (any_p1 new = any_p1 (initial ++ new)) as -> by by rewrite any_p1_app, Hi.
    rewrite <-status_alarm. destruct (overdue _ _ _ (ck_frontend c)), (overdue _ _ _ (ck_api c)); cbn [orb];
      (split; [intros Hx|]); try (by auto); try (intros [?|[?|?]]; congruence).
    injection Hx as Hx. auto.
  - done.
  - done.
  - intros name Hname. apply str_in_elem in Hname. rewrite !elem_of_cons, elem_of_nil in Hname.
    assert (forall commit old, let seen := if str_eqb (ck_main c) m && (ck_seen c <=? now) then ck_seen c else now in
      let direct := match commit with None => up_to now old
                    | Some x => if str_eqb x m then None else Some (default seen (up_to now old)) end in
      merged_since now m commit old = direct \/
      up_to now old = None /\ off_main m commit = true /\ merged_since now m commit old = Some now /\
      direct = Some seen) as Hcase.
    { intros [x|] old; cbn; [|by left]. destruct (str_eqb x m); [by left|].
      destruct (up_to now old); [by left|]. right. by split_and!. }
    destruct Hname as [->|[->|[]]]; apply Hcase.
Qed.
End merge_properties.

(** * Witnesses *)

(** A host whose time texts are the numbers themselves. *)
Definition parse_Z (s : pystr) : option Z :=
  Z.of_int <$> DecimalString.NilZero.int_of_string (String.string_of_list_ascii (Ascii.ascii_of_N <$> s)).
Definition clock_host : PyHost := {|
  host_lower := id; host_casefold := id; host_nfkc_casefold := id;
  host_word := fun _ => false; host_digit := fun _ => false; host_printable := fun _ => true;
  host_float_repr := fun _ => lit "0.0"; host_re := fun p => Ok (contains p);
  host_fromisoformat := fun s => (fun t => (t, true)) <$> parse_Z s;
  host_isoformat := show_Z; host_local := Some;
  host_upper := id; host_nfc := id; host_control := fun _ => false; host_json_depth := 100; host_json_error := fun _ => []; host_int := fun _ => None;
|}.


Lemma parse_show z : parse_Z (show_Z z) = Some z.
Proof.
  unfold parse_Z. rewrite show_Z_bytes, <-list_fmap_compose.
  rewrite (list_fmap_ext _ id _ ).
  - rewrite list_fmap_id, String.string_of_list_ascii_of_string.
    destruct (to_int_not_nil z). rewrite DecimalString.NilZero.isi by done. cbn. by rewrite DecimalZ.of_to.
  - intros _ a _. unfold compose. apply Ascii.ascii_N_embedding.
Qed.

Lemma show_Z_without x z : num_char x = false -> Forall (fun c => c <> x) (show_Z z).
Proof. intros Hx. eapply Forall_impl; [apply show_Z_chars|]. intros c Hc ->. cbn in Hc. congruence. Qed.

#[export] Instance clock_host_text : @ClockText clock_host.
Proof.
  intros t Ht. unfold iso. cbn [host_isoformat clock_host].
  change (lit "+00:00") with (43%N :: lit "00:00"). rewrite replace_absent by by apply show_Z_without.
  unfold timestamp. cbn [host_fromisoformat clock_host].
  change (lit "Z") with (90%N :: []). rewrite replace_absent by by apply show_Z_without.
  rewrite parse_show. cbn. by rewrite Ht.
Qed.

Section demo.
Local Existing Instance clock_host.

Definition demo_sha (c : N) : pystr := repeat c 40.
(** Production answers commit [p], GitHub answers main [m], its schedule nothing. *)
Definition demo_loads (content : bytes) : result exn json :=
  Ok (JObj [(lit "commit", JStr content); (lit "sha", JStr content)]).
Definition demo_turns (p m : pystr) (name : pystr) : attempts :=
  let a := if product name then Answer 200 p (lit "public, no-store")
           else if str_eqb name "main" then Answer 200 m [] else HttpStatus 500 in
  ((a, Finished 1 []), (a, Finished 1 [])).
Definition demo_read (p m : pystr) : reader := fun name => fetch demo_loads name (demo_turns p m name).

Definition demo_clock : clock := Clock (demo_sha 97) 1000 (Some 2000) None.
Definition demo_state : json := JObj [(lit "main_observation", clock_json demo_clock)].
Lemma demo_holds : holds demo_state (Some demo_clock).
Proof.
  constructor; [done|done|]. intros x [= <-]. constructor; [done|done| |done]. by intros x [= <-].
Qed.

(** Main moves on; the frontend was off main before. *)
Lemma observation_refines_witness :
  holds (next_state [] demo_state (seconds 1) (demo_read (demo_sha 97) (demo_sha 98)))
    (Some (Clock (demo_sha 98) (seconds 1) (Some 2000) (Some (seconds 1)))).
Proof.
  pose proof (observation_refines [] demo_state (seconds 1) (demo_read (demo_sha 97) (demo_sha 98))
    (Some demo_clock) demo_holds eq_refl) as Hx.
  assert (named_main (seconds 1) (demo_read (demo_sha 97) (demo_sha 98)) demo_state = Some (demo_sha 98)) as En
    by by vm_compute.
  rewrite En in Hx. exact Hx.
Defined.

(** The API fails twice: an alarm, but none where the reading of the state ends unhandled. *)
Definition failing_turns (name : pystr) : attempts :=
  if str_eqb name "api" then ((HttpStatus 500, Finished 1 []), (HttpStatus 502, Finished 1 []))
  else demo_turns (demo_sha 97) (demo_sha 97) name.
Lemma cycle_alarm_exact_witness :
  let result state := evaluate_cycle [] 0 (fun name => fetch demo_loads name (failing_turns name)) state in
  get (result (Ok (Some demo_state))) "status" = JStr (lit "ALARM") /\
  get (result (Err (Exn RecursionError []))) "status" = JStr (lit "MONITOR_DATA_FAILURE").
Proof.
  intros result. split.
  - apply (proj1 (cycle_alarm_exact demo_loads failing_turns [] 0 (Ok (Some demo_state)))). split; [done|].
    apply api_fails; [|split; constructor; by repeat split].
    by intros Hx%cut_fetch.
  - by apply (proj2 (cycle_alarm_exact demo_loads failing_turns [] 0 (Err (Exn RecursionError [])))).
Defined.

(** Two polls under two main commits: the alarm comes 45 minutes after the recorded start. *)
Lemma stale_clock_persists_witness :
  let polls := [(seconds 60, demo_read (demo_sha 97) (demo_sha 98));
                (seconds 120, demo_read (demo_sha 97) (demo_sha 99))] in
  let final := foldl (next_of []) demo_state polls in
  let reported now := existsb (reports_stale (lit "frontend"))
    (issues_of (evaluate_cycle [] now (demo_read (demo_sha 97) (demo_sha 99)) (Ok (Some final)))) in
  reported (2000 + seconds 2700) = true /\ reported (1999 + seconds 2700) = false.
Proof.
  intros polls final reported.
  assert (Forall (unresolved (lit "frontend") 2000) polls) as Hp.
  { repeat constructor; cbn [fst snd]; [by vm_compute| |by vm_compute|];
      intros (m & Ef & Em); vm_compute in Ef, Em; congruence. }
  split; unfold reported, final.
  - rewrite (proj2 (stale_clock_persists [] (lit "frontend") 2000 polls demo_state demo_clock
      (2000 + seconds 2700) (demo_read (demo_sha 97) (demo_sha 99)) eq_refl demo_holds eq_refl Hp
      ltac:(vm_compute; discriminate))).
    by vm_compute.
  - rewrite (proj2 (stale_clock_persists [] (lit "frontend") 2000 polls demo_state demo_clock
      (1999 + seconds 2700) (demo_read (demo_sha 97) (demo_sha 99)) eq_refl demo_holds eq_refl Hp
      ltac:(vm_compute; discriminate))).
    by vm_compute.
Defined.

(** The frontend is overdue by a record the evaluation could not read. *)
Lemma merge_after_fault_witness :
  let read := demo_read (demo_sha 97) (demo_sha 98) in
  let result := evaluate_cycle [] (seconds 3000) read (Err (Exn OSError [])) in
  get result "status" <> JStr (lit "ALARM") /\
  get (merge_main_observation result demo_state) "status" = JStr (lit "ALARM").
Proof.
  intros read result. split; [by vm_compute|].
  destruct (merge_after_fault demo_loads (demo_turns (demo_sha 97) (demo_sha 98)) [] (seconds 3000)
    (Exn OSError []) demo_state demo_clock eq_refl demo_holds eq_refl ltac:(by vm_compute))
    as (m & Hm & _ & [_ Hst] & _).
  apply Hst. right. left.
  assert (m = demo_sha 98) as -> by (vm_compute in Hm; by injection Hm as <-).
  by vm_compute.
Defined.
End demo.
