(* ===== verification/WatchJournal.v ===== *)
(** * The independent production watcher: the event journal

    scripts/ops/independent_production_watch.py: the append-only journal that [Dispatch] transports.
    [append_durable_events] repairs a torn tail, appends one batch and rolls back on failure; every
    system call runs under the script of faults, and a write may be short, so that a crash or a full
    disk at any point is an outcome.  The bounded scans of the journal are compared with what they
    mean on the whole text. *)

From S2P Require Import Prelude PyStr Effects Json JsonText Sha256 Dispatch Watch.
Open Scope Z_scope.

(** ** Scans *)

(** [data.rfind(b"\n")] *)
Fixpoint rfind_newline (data : bytes) : option nat :=
  match data with
  | [] => None
  | c :: data' =>
      match rfind_newline data' with
      | Some i => Some (S i)
      | None => if (c =? 10)%N then Some O else None
      end
  end.

Definition SCAN_BLOCK : nat := Z.to_nat 65536.

(** The backward block scan from [cursor]; [fuel] bounds the number of blocks. *)
Fixpoint scan_back (fuel : nat) (content : bytes) (cursor : nat) : option nat :=
  match fuel with
  | O => None
  | S fuel' =>
      match cursor with
      | O => Some O
      | _ =>
          let start := (cursor - SCAN_BLOCK)%nat in
          match rfind_newline (take (cursor - start) (drop start content)) with
          | Some newline => Some (start + newline + 1)%nat
          | None => scan_back fuel' content start
          end
      end
  end.

Definition last_complete_journal_offset (content : bytes) (expected_end : nat) : result exn nat :=
  if negb (length content =? expected_end)%nat then
    raise OSError "journal changed while inspecting incomplete tail"
  else Ok (default O (scan_back (S expected_end) content expected_end)).

(** [reader.readline(limit)] on a binary file: the chunk and what is left. *)
Fixpoint readline (limit : nat) (content : bytes) : bytes * bytes :=
  match limit, content with
  | O, _ => ([], content)
  | _, [] => ([], [])
  | S limit', c :: content' =>
      if (c =? 10)%N then ([c], content')
      else let '(chunk, rest) := readline limit' content' in (c :: chunk, rest)
  end.

Fixpoint scan_lines (fuel : nat) (expected content : bytes) (at_line_start : bool) : bool :=
  match fuel with
  | O => false
  | S fuel' =>
      match readline (length expected + 1) content with
      | ([], _) => false
      | (chunk, rest) =>
          if at_line_start && bool_decide (chunk = expected) then true
          else scan_lines fuel' expected rest (ends_line chunk)
      end
  end.

Section journal.
Context `{PyHost}.

(** One journal row. *)
Definition journal_line (event : json) : bytes := ascii_json event ++ [10%N].

(** [_transition_already_journaled] on the bytes of the journal, [None] when there is none. *)
Definition transition_already_journaled (content : option bytes) (entry : json) : bool :=
  match content with
  | Some content => scan_lines (S (length content)) (journal_line (get entry "payload")) content true
  | None => false
  end.

(** ** The append *)

(** [jf_writes] says how many bytes each write accepts (then all). *)
Record journal : Type := Journal {
  jf_bytes : bytes;
  jf_committed : list pystr;
  jf_writes : list nat;
  jf_faults : list fault;
}.
#[export] Program Instance journal_faulty : Faulty journal := {|
  faults := jf_faults;
  with_faults j fs := Journal (jf_bytes j) (jf_committed j) (jf_writes j) fs;
|}.
Solve Obligations with by intros [].

Definition ftruncate (size : nat) : eff journal unit :=
  call (fun j => (Ok tt, Journal (take size (jf_bytes j)) (jf_committed j) (jf_writes j) (jf_faults j))).
Definition fsync : eff journal unit := call (fun j => (Ok tt, j)).
Definition write_all (payload : bytes) : eff journal nat :=
  call (fun j =>
    let k := Nat.min (default (length payload) (head (jf_writes j))) (length payload) in
    (Ok k, Journal (jf_bytes j ++ take k payload) (jf_committed j) (tail (jf_writes j)) (jf_faults j))).
Definition commit_names (names : list pystr) : eff journal unit := fun j =>
  (Ok tt, Journal (jf_bytes j) (jf_committed j ++ names) (jf_writes j) (jf_faults j)).
Definition size_of : eff journal nat := fun j => (Ok (length (jf_bytes j)), j).

Definition complete_end_of (expected_end : nat) : eff journal nat := fun j =>
  (last_complete_journal_offset (jf_bytes j) expected_end, j).

(** Discard an unterminated suffix; the end from which to append. *)
Definition repair_tail (previous_end : nat) : eff journal nat :=
  match previous_end with
  | O => mret O
  | _ =>
      complete_end ← complete_end_of previous_end;
      if (complete_end <? previous_end)%nat then
        ftruncate complete_end ;; fsync ;; fsync ;; mret complete_end
      else mret previous_end
  end.

Definition event_names (events : list json) : list pystr := event_name <$> events.

Definition append_batch (payload : bytes) (names : list pystr) : eff journal unit :=
  written ← write_all payload;
  (if (written =? length payload)%nat then mret tt
   else throw OSError "short event history append") ;;
  fsync ;; fsync ;; commit_names names.

Definition rollback (previous_end : nat) (append_error : exn) : eff journal unit :=
  try_except [OSError] (ftruncate previous_end ;; fsync) (fun rollback_error =>
    throw OSError (lit "event append failed: " ++ exn_msg append_error ++ lit "; rollback failed: "
                   ++ exn_msg rollback_error)) ;;
  pure (Err append_error).

Definition append_durable_events (events : list json) : eff journal unit :=
  let payload := concat (journal_line <$> events) in
  size ← size_of;
  previous_end ← repair_tail size;
  try_except [OSError; WatchRuntimeExceeded] (append_batch payload (event_names events))
    (rollback previous_end).
End journal.

(** ** Lemmas: the scans *)

Lemma rfind_spec (data : list N) :
  match rfind_newline data with
  | Some i => data !! i = Some 10%N /\ forall j, (i < j)%nat -> data !! j <> Some 10%N
  | None => Forall (fun c => c <> 10%N) data
  end.
Proof.
  induction data as [|c data IH]; cbn [rfind_newline]; [constructor|].
  destruct (rfind_newline data) as [i|].
  - destruct IH as [Hi Hj]. split; [done|]. intros [|j] Hlt; [lia|]. apply Hj. lia.
  - destruct (N.eqb_spec c 10) as [->|Hc].
    + split; [done|]. intros [|j] Hlt; [lia|]. cbn. intros Hx.
      rewrite Forall_lookup in IH. by apply (IH j) in Hx.
    + by constructor.
Qed.

(** The end of the last complete line: a newline just before it, and none behind. *)
Definition last_end (raw : list N) (o : nat) : Prop :=
  (o <= length raw)%nat /\ ends_line (take o raw) = true /\ Forall (fun c => c <> 10%N) (drop o raw).

Lemma ends_line_take_S (raw : list N) i : raw !! i = Some 10%N -> ends_line (take (S i) raw) = true.
Proof. intros Hi. rewrite (take_S_r _ _ _ Hi). apply ends_line_app. eauto. Qed.

Lemma scan_back_spec (content : list N) fuel cursor :
  (cursor < fuel)%nat -> (cursor <= length content)%nat -> Forall (fun c => c <> 10%N) (drop cursor content) ->
  exists o, scan_back fuel content cursor = Some o /\ last_end content o.
Proof.
  revert cursor; induction fuel as [|fuel IH]; intros cursor Hf Hc Hd; [lia|]. cbn [scan_back].
  destruct cursor as [|cursor]; [by exists O|].
  set (start := (S cursor - SCAN_BLOCK)%nat).
  pose proof (rfind_spec (take (S cursor - start) (drop start content))) as Hr.
  assert (0 < SCAN_BLOCK)%nat as Hb by (unfold SCAN_BLOCK; lia).
  assert (start <= cursor)%nat by (unfold start; lia).
  clearbody start.
  assert (Forall (fun c => c <> 10%N) (drop (S cursor) content)) as Hd' by done.
  rewrite Forall_lookup in Hd'.
  destruct (rfind_newline _) as [i|].
  - destruct Hr as [Hi Hj]. rewrite lookup_take in Hi. destruct (decide (i < S cursor - start)%nat); [|done].
    rewrite lookup_drop in Hi. eexists. split; [done|]. split_and!.
    + apply lookup_lt_Some in Hi. lia.
    + replace (start + i + 1)%nat with (S (start + i)) by lia. by apply ends_line_take_S.
    + apply Forall_lookup. intros k c Hk. rewrite lookup_drop in Hk. intros ->.
      destruct (decide (start + i + 1 + k < S cursor)%nat).
      * apply (Hj (S (i + k))); [lia|]. rewrite lookup_take, decide_True by lia. rewrite lookup_drop.
        by replace (start + S (i + k))%nat with (start + i + 1 + k)%nat by lia.
      * apply (Hd' (start + i + 1 + k - S cursor)%nat 10%N); [|done]. rewrite lookup_drop.
        by replace (S cursor + (start + i + 1 + k - S cursor))%nat with (start + i + 1 + k)%nat by lia.
  - apply IH; [lia|lia|]. apply Forall_lookup. intros k c Hk. rewrite lookup_drop in Hk.
    rewrite Forall_lookup in Hr. destruct (decide (k < S cursor - start)%nat).
    + apply (Hr k c). by rewrite lookup_take, decide_True, lookup_drop.
    + apply (Hd' (start + k - S cursor)%nat c). rewrite lookup_drop.
      by replace (S cursor + (start + k - S cursor))%nat with (start + k)%nat by lia.
Qed.

Lemma last_end_unique raw o1 o2 : last_end raw o1 -> last_end raw o2 -> o1 = o2.
Proof.
  assert (forall x y, last_end raw x -> last_end raw y -> (x < y)%nat -> False) as Hlt.
  { intros x y (_ & _ & Hx) (Hy & Hl & _) Hxy.
    apply ends_line_app in Hl as [Hl|[l Hl]].
    - apply (f_equal length) in Hl. rewrite length_take in Hl. cbn in Hl. lia.
    - assert (raw !! (y - 1)%nat = Some 10%N) as Hn.
      { assert (take y raw !! (y - 1)%nat = Some 10%N) as Ht.
        { rewrite Hl. apply (f_equal length) in Hl. rewrite length_take, length_app in Hl. cbn in Hl.
          rewrite lookup_app_r by lia. by replace (y - 1 - length l)%nat with O by lia. }
        rewrite lookup_take in Ht. by destruct (decide (y - 1 < y)%nat). }
      rewrite Forall_lookup in Hx. apply (Hx (y - 1 - x)%nat 10%N); [|done].
      rewrite lookup_drop. by replace (x + (y - 1 - x))%nat with (y - 1)%nat by lia. }
  intros H1 H2. destruct (Nat.lt_trichotomy o1 o2) as [Hl|[Hl|Hl]]; [by destruct (Hlt o1 o2)|done|by destruct (Hlt o2 o1)].
Qed.

(** The complete part of a journal text. *)
Definition complete_end (raw : list N) : nat := default O (scan_back (S (length raw)) raw (length raw)).
Definition whole (raw : list N) : list N := take (complete_end raw) raw.

Lemma complete_end_spec raw : last_end raw (complete_end raw).
Proof.
  unfold complete_end. destruct (scan_back_spec raw (S (length raw)) (length raw)) as (o & -> & Ho); [lia|lia| |done].
  by rewrite drop_all.
Qed.

Lemma whole_unique raw o : last_end raw o -> whole raw = take o raw.
Proof. intros Ho. unfold whole. by rewrite (last_end_unique _ _ _ Ho (complete_end_spec raw)). Qed.

(** ** Lemmas: the line scan *)

Definition no_newline (l : list N) : Prop := Forall (fun c => c <> 10%N) l.

Lemma readline_spec limit content chunk rest :
  readline limit content = (chunk, rest) ->
  content = chunk ++ rest /\ ((0 < limit)%nat -> content <> [] -> chunk <> []) /\
  exists p, no_newline p /\ (chunk = p \/ chunk = p ++ [10%N]).
Proof.
  revert content chunk rest; induction limit as [|limit IH]; intros content chunk rest; cbn [readline].
  - intros [= <- <-]. split_and!; [done|lia|]. exists []. by split; [constructor|left].
  - destruct content as [|c content].
    + intros [= <- <-]. split_and!; [done|done|]. exists []. by split; [constructor|left].
    + destruct (N.eqb_spec c 10) as [->|Hc].
      * intros [= <- <-]. split_and!; [done|done|]. exists []. by split; [constructor|right].
      * destruct (readline limit content) as [ch r] eqn:E. intros [= <- <-].
        destruct (IH _ _ _ E) as (-> & _ & p & Hp & Hch). split_and!; [done|done|].
        exists (c :: p). split; [by constructor|]. destruct Hch as [->| ->]; auto.
Qed.

Lemma readline_line limit p b :
  no_newline p -> (length p < limit)%nat -> readline limit (p ++ 10%N :: b) = (p ++ [10%N], b).
Proof.
  intros Hp; revert limit; induction Hp as [|c p Hc Hp IH]; intros [|limit] Hl; cbn in *; try lia; [done|].
  rewrite (proj2 (N.eqb_neq c 10) Hc), IH by lia. done.
Qed.

Lemma ends_line_last a x : x <> [] -> ends_line (a ++ x) = ends_line x.
Proof.
  intros Hx. unfold ends_line. rewrite List.rev_app_distr. destruct (List.rev x) eqn:E; [|done].
  exfalso. apply Hx. apply (f_equal (@List.rev N)) in E. by rewrite List.rev_involutive in E.
Qed.

Lemma ends_line_no_newline p : no_newline p -> ends_line p = true -> p = [].
Proof.
  intros Hp [->|[l ->]]%ends_line_app; [done|]. apply Forall_app in Hp as [_ Hp]. by inversion Hp.
Qed.

(** A row at a line start, here or after some lines. *)
Definition row_at (start : bool) (expected content : list N) : Prop :=
  (start = true /\ exists b, content = expected ++ b) \/
  exists a b, a <> [] /\ ends_line a = true /\ content = a ++ expected ++ b.

Lemma scan_lines_spec p fuel content start :
  no_newline p -> (length content < fuel)%nat ->
  scan_lines fuel (p ++ [10%N]) content start = true <-> row_at start (p ++ [10%N]) content.
Proof.
  intros Hp. set (expected := p ++ [10%N]).
  assert (expected <> []) as Hne by (unfold expected; by destruct p).
  revert content start; induction fuel as [|fuel IH]; intros content start Hf; [lia|]. cbn [scan_lines].
  destruct (readline (length expected + 1) content) as [chunk rest] eqn:E.
  destruct (readline_spec _ _ _ _ E) as (Hc & Hnn & q & Hq & Hch).
  destruct (decide (content = [])) as [->|Hcn].
  { destruct chunk; [|done]. split; [done|]. intros [[_ [b Hb]]|(a & b & Ha & _ & Hb)].
    - destruct expected; done.
    - destruct a; done. }
  assert (chunk <> []) as Hchn by (apply Hnn; [lia|done]).
  destruct chunk as [|c0 chunk0] eqn:Echunk; [done|]. rewrite <-Echunk in *.
  destruct (start && bool_decide (chunk = expected)) eqn:Eb.
  { split; [intros _|done]. apply andb_true_iff in Eb as [-> Eb]. apply bool_decide_eq_true in Eb.
    left. split; [done|]. exists rest. by rewrite <-Eb. }
  assert (length rest < fuel)%nat.
  { apply (f_equal length) in Hc. rewrite length_app in Hc. destruct chunk; cbn in *; [done|lia]. }
  rewrite IH by done. split.
  - intros [[He [b Hb]]|(a & b & Ha & He & Hb)].
    + right. exists chunk, b. by rewrite Hc, Hb.
    + right. exists (chunk ++ a), b. split_and!; [by destruct chunk|by rewrite ends_line_last|].
      by rewrite Hc, Hb, <-(assoc_L (++)).
  - intros [[-> [b Hb]]|(a & b & Ha & He & Hb)].
    + exfalso. rewrite Hb in E. unfold expected in E at 2. rewrite <-(assoc_L (++)) in E.
      change ([10%N] ++ b) with (10%N :: b) in E. rewrite readline_line in E by (try done; unfold expected; rewrite length_app; cbn; lia).
      injection E as <- _. cbn in Eb. by rewrite bool_decide_eq_true_2 in Eb.
    + rewrite Hc in Hb. destruct (Nat.le_gt_cases (length chunk) (length a)) as [Hle|Hgt].
      * assert (a = chunk ++ drop (length chunk) a) as Ea.
        { rewrite <-(take_drop (length chunk) a) at 1. f_equal.
          apply (f_equal (take (length chunk))) in Hb. rewrite take_app_length, take_app_le in Hb by done. done. }
        set (a' := drop (length chunk) a) in *. clearbody a'. subst a.
        rewrite <-(assoc_L (++)) in Hb. apply app_inv_head in Hb.
        destruct a' as [|x a'].
        -- left. rewrite app_nil_r in He. by split; [|exists b].
        -- right. exists (x :: a'), b. by rewrite ends_line_last in He.
      * exfalso. assert (chunk = a ++ drop (length a) chunk) as Ec.
        { rewrite <-(take_drop (length a) chunk) at 1. f_equal.
          apply (f_equal (take (length a))) in Hb. rewrite take_app_length, take_app_le in Hb by lia. done. }
        assert (drop (length a) chunk <> []) as Hd.
        { intros Hd. apply (f_equal length) in Hd. rewrite length_drop in Hd. cbn in Hd. lia. }
        apply ends_line_app in He as [->|[l ->]]; [done|].
        destruct (List.exists_last Hd) as (d & y & Ed). rewrite Ed in Ec. clear Ed Hd.
        unfold no_newline in Hq. destruct Hch as [Hch|Hch]; rewrite Ec in Hch.
        -- rewrite <-Hch, !Forall_app in Hq. destruct Hq as [[_ Hq] _]. by inversion Hq.
        -- rewrite (assoc_L (++)) in Hch. apply app_inj_tail in Hch as [<- _].
           rewrite !Forall_app in Hq. destruct Hq as [[_ Hq] _]. by inversion Hq.
Qed.

(** ** Lemmas: rows are single lines *)

Section rows.
Context `{PyHost}.

Lemma hex_pad_printable n c : printable (hex_pad n c).
Proof.
  unfold hex_pad. apply Forall_fmap. induction (rev (seq 0 n)) as [|i l IH]; constructor; [|done].
  assert (N.land (N.shiftr c (4 * N.of_nat i)) 15 < 16)%N as Hl
    by (change 15%N with (N.ones 4); rewrite N.land_ones; by apply N.mod_lt).
  unfold compose, hex_digit, in_range. destruct (N.ltb_spec (N.land (N.shiftr c (4 * N.of_nat i)) 15) 10);
    rewrite andb_true_iff, !N.leb_le; lia.
Qed.

(** The escaped text is printable whatever the value: neither newline nor carriage return. *)
Lemma ascii_json_printable v : printable (ascii_json v).
Proof.
  unfold ascii_json. induction (canonical_json v) as [|c s IH]; [constructor|]. cbn [flat_map].
  apply printable_app. split; [|done]. unfold ascii_escape.
  assert (forall u, printable (escape_unit u)) as Hu.
  { intros u. unfold escape_unit. apply printable_app. split; [by apply printable_dec|apply hex_pad_printable]. }
  destruct (in_range 32 126 c) eqn:E; [by repeat constructor|].
  destruct (c <? 65536)%N; [apply Hu|]. apply printable_app. by split; apply Hu.
Qed.

Lemma printable_without x s : in_range 32 126 x = false -> printable s -> Forall (fun c => c <> x) s.
Proof. intros Hx Hs. eapply Forall_impl; [exact Hs|]. intros c Hc ->. cbn in Hc. congruence. Qed.

Lemma journal_line_no_newline event : no_newline (ascii_json event).
Proof. apply printable_without; [done|apply ascii_json_printable]. Qed.

Lemma journal_line_no_cr event : no_cr (journal_line event).
Proof.
  apply Forall_app. split; [|by repeat constructor]. apply printable_without; [done|apply ascii_json_printable].
Qed.

Lemma journal_line_ends event : ends_line (journal_line event) = true.
Proof. apply ends_line_app. right. by eexists. Qed.

Lemma lines_end events : ends_line (concat (journal_line <$> events)) = true.
Proof. apply ends_line_concat, Forall_fmap, Forall_forall. intros e _. apply journal_line_ends. Qed.

(** A cut of a batch leaves some whole rows and a piece of the next. *)
Lemma take_rows n events :
  exists k piece, take n (concat (journal_line <$> events)) = concat (journal_line <$> take k events) ++ piece /\
    no_newline piece.
Proof.
  revert n; induction events as [|e events IH]; intros n.
  - exists O, []. split; [by destruct n|apply List.Forall_nil].
  - cbn [fmap list_fmap concat]. destruct (Nat.le_gt_cases (length (journal_line e)) n) as [Hle|Hlt].
    + destruct (IH (n - length (journal_line e))%nat) as (k & piece & Ek & Hp).
      exists (S k), piece. split; [|done]. cbn [take fmap list_fmap concat].
      rewrite take_app_ge, Ek by done. by rewrite (assoc_L (++)).
    + exists O, (take n (journal_line e)). cbn [take fmap list_fmap concat app].
      rewrite take_app_le by lia. split; [done|].
      unfold journal_line in Hlt |- *. rewrite length_app in Hlt. cbn [length] in Hlt.
      rewrite take_app_le by lia. apply Forall_take, journal_line_no_newline.
Qed.

Lemma whole_app kept rows piece :
  ends_line kept = true -> ends_line rows = true -> no_newline piece ->
  whole (kept ++ rows ++ piece) = kept ++ rows.
Proof.
  intros Hk Hr Hp. rewrite (assoc_L (++)). rewrite (whole_unique _ (length (kept ++ rows))).
  - by rewrite take_app_length.
  - split_and!; [rewrite !length_app; lia|rewrite take_app_length; by apply ends_line_join|by rewrite drop_app_length].
Qed.

(** ** Lemmas: the append *)

Definition same_names (j j' : journal) : Prop := jf_committed j' = jf_committed j.

Lemma fsync_cases j :
  exists r fs, fsync j = (r, Journal (jf_bytes j) (jf_committed j) (jf_writes j) fs).
Proof.
  unfold fsync. match goal with |- context [call ?m j] => destruct (call_cases m j) as (fs & [->|(x & [->| ->])]) end;
    by eexists _, fs.
Qed.

Lemma ftruncate_cases size j :
  exists r b fs, ftruncate size j = (r, Journal b (jf_committed j) (jf_writes j) fs) /\
    (b = take size (jf_bytes j) \/ b = jf_bytes j /\ r <> Ok tt).
Proof.
  unfold ftruncate. match goal with |- context [call ?m j] => destruct (call_cases m j) as (fs & [->|(x & [->| ->])]) end.
  - eexists _, _, fs. split; [reflexivity|]. by left.
  - eexists _, _, fs. split; [reflexivity|]. by right.
  - eexists _, _, fs. split; [reflexivity|]. by left.
Qed.

Lemma write_cases payload j :
  exists r k ws fs, write_all payload j = (r, Journal (jf_bytes j ++ take k payload) (jf_committed j) ws fs) /\
    forall n, r = Ok n -> n = k /\ (k <= length payload)%nat.
Proof.
  unfold write_all. match goal with |- context [call ?m j] => destruct (call_cases m j) as (fs & [->|(x & [->| ->])]) end;
    cbn [snd].
  - set (k := Nat.min _ _). eexists _, k, _, fs. split; [reflexivity|]. intros n [= <-]. split; [done|]. unfold k. lia.
  - eexists _, O, _, fs. split; [by cbn; rewrite app_nil_r|]. done.
  - set (k := Nat.min _ _). eexists _, k, _, fs. by split; [reflexivity|].
Qed.

(** The repair leaves the journal as it was or cuts the torn tail, and succeeds only at the end of
    the complete part. *)
Lemma repair_spec j :
  let '(r, j1) := repair_tail (length (jf_bytes j)) j in
  jf_committed j1 = jf_committed j /\ jf_writes j1 = jf_writes j /\
  (jf_bytes j1 = jf_bytes j \/ jf_bytes j1 = whole (jf_bytes j)) /\
  forall e, r = Ok e -> e = complete_end (jf_bytes j) /\ jf_bytes j1 = whole (jf_bytes j).
Proof.
  pose proof (complete_end_spec (jf_bytes j)) as (Hle & _ & _).
  unfold repair_tail. destruct (length (jf_bytes j)) as [|n] eqn:El.
  { apply nil_length_inv in El. cbn. rewrite El. split_and!; auto. by intros e [= <-]. }
  unfold mbind, eff_bind, complete_end_of, last_complete_journal_offset. rewrite El, Nat.eqb_refl. cbn [negb].
  rewrite <-El. fold (complete_end (jf_bytes j)).
  destruct (Nat.ltb_spec (complete_end (jf_bytes j)) (length (jf_bytes j))) as [Hlt|Hge].
  - destruct (ftruncate_cases (complete_end (jf_bytes j)) j) as (r & b & fs & -> & Hb).
    destruct r as [[]|x]; [|cbn; split_and!; [done|done| |done]; destruct Hb as [->|[-> _]]; auto].
    destruct Hb as [->|[_ Hb]]; [|done].
    match goal with |- context [fsync ?a] => destruct (fsync_cases a) as (r1 & fs1 & ->) end.
    destruct r1 as [[]|x]; [|cbn; split_and!; auto; done].
    match goal with |- context [fsync ?a] => destruct (fsync_cases a) as (r2 & fs2 & ->) end.
    destruct r2 as [[]|x]; cbn; split_and!; auto; [|done]. by intros e [= <-].
  - unfold mret, eff_ret. assert (whole (jf_bytes j) = jf_bytes j) as Hw by (unfold whole; rewrite take_ge; [done|lia]).
    rewrite Hw. split_and!; auto. intros e [= <-]. split; [lia|done].
Qed.

Lemma batch_spec payload names j1 :
  let '(r, j2) := append_batch payload names j1 in
  (exists n, jf_bytes j2 = jf_bytes j1 ++ take n payload) /\
  (r = Ok tt -> jf_bytes j2 = jf_bytes j1 ++ payload /\ jf_committed j2 = jf_committed j1 ++ names) /\
  (r <> Ok tt -> jf_committed j2 = jf_committed j1).
Proof.
  unfold append_batch, mbind, eff_bind.
  destruct (write_cases payload j1) as (r & k & ws & fs & -> & Hk).
  destruct r as [w|x]; [|cbn; split_and!; eauto; done]. destruct (Hk w eq_refl) as [-> Hle].
  destruct (Nat.eqb_spec k (length payload)) as [->|Hne]; [|cbn; split_and!; eauto; done].
  cbn [mret eff_ret]. rewrite take_ge by lia.
  assert (exists n, payload = take n payload) as [n Hn] by (exists (length payload); by rewrite take_ge).
  match goal with |- context [fsync ?a] => destruct (fsync_cases a) as (r1 & fs1 & ->) end.
  destruct r1 as [[]|x]; [|cbn; split_and!; [exists n; by rewrite <-Hn|done|done]].
  match goal with |- context [fsync ?a] => destruct (fsync_cases a) as (r2 & fs2 & ->) end.
  destruct r2 as [[]|x]; cbn; split_and!; try done; exists n; by rewrite <-Hn.
Qed.

Lemma rollback_spec size e j2 :
  let '(r, j3) := rollback size e j2 in
  r <> Ok tt /\ jf_committed j3 = jf_committed j2 /\
  (jf_bytes j3 = jf_bytes j2 \/ jf_bytes j3 = take size (jf_bytes j2)) /\
  (jf_faults j2 = [] -> jf_bytes j3 = take size (jf_bytes j2)).
Proof.
  unfold rollback. unfold mbind at 1, eff_bind at 1, try_except at 1. unfold mbind at 1, eff_bind at 1.
  destruct (jf_faults j2) as [|f0 fs0] eqn:Ef.
  { destruct j2 as [b c ws f]. cbn in Ef. subst f. cbn. split_and!; auto. }
  clear Ef.
  destruct (ftruncate_cases size j2) as (r & b & fs & -> & Hb).
  assert (b = jf_bytes j2 \/ b = take size (jf_bytes j2)) as Hb' by (destruct Hb as [->|[-> _]]; auto).
  destruct r as [[]|x].
  - match goal with |- context [fsync ?a] => destruct (fsync_cases a) as (r1 & fs1 & ->) end.
    destruct r1 as [[]|x]; [by cbn; split_and!|]. destruct (existsb _ _); by cbn; split_and!.
  - destruct (existsb _ _); by cbn; split_and!.
Qed.

Lemma whole_ends raw : ends_line (whole raw) = true.
Proof. apply complete_end_spec. Qed.

Lemma whole_whole raw : whole (whole raw) = whole raw.
Proof.
  rewrite (whole_unique (whole raw) (length (whole raw))); [by apply take_ge|].
  split_and!; [done|rewrite take_ge by done; apply whole_ends|by rewrite drop_all].
Qed.

Lemma whole_cut kept n events :
  ends_line kept = true ->
  exists k, whole (kept ++ take n (concat (journal_line <$> events))) = kept ++ concat (journal_line <$> take k events).
Proof.
  intros Hk. destruct (take_rows n events) as (k & piece & -> & Hp). exists k.
  apply whole_app; [done|apply lines_end|done].
Qed.

(** Every end of an append. *)
Lemma append_spec events j :
  let '(r, j') := append_durable_events events j in
  let kept := whole (jf_bytes j) in
  let payload := concat (journal_line <$> events) in
  (jf_bytes j' = jf_bytes j \/ exists n, jf_bytes j' = kept ++ take n payload) /\
  (r = Ok tt -> jf_bytes j' = kept ++ payload /\ jf_committed j' = jf_committed j ++ event_names events) /\
  (r <> Ok tt -> jf_committed j' = jf_committed j).
Proof.
  unfold append_durable_events. cbv zeta. unfold mbind at 1, eff_bind at 1. cbn [size_of].
  unfold mbind at 1, eff_bind at 1.
  pose proof (repair_spec j) as Hrep. destruct (repair_tail (length (jf_bytes j)) j) as [r j1].
  destruct Hrep as (Hnames & _ & Hbytes & Hok).
  assert (jf_bytes j1 = jf_bytes j \/
          exists n, jf_bytes j1 = whole (jf_bytes j) ++ take n (concat (journal_line <$> events))) as Hb1
    by (destruct Hbytes; [by left|right; exists O; by rewrite take_0, app_nil_r]).
  destruct r as [e|x]; [|by split_and!].
  destruct (Hok e eq_refl) as [-> Hw]. unfold try_except.
  pose proof (batch_spec (concat (journal_line <$> events)) (event_names events) j1) as Hbatch.
  destruct (append_batch _ _ j1) as [r2 j2]. rewrite Hw, Hnames in Hbatch. destruct Hbatch as ([n Hn] & Hb2 & Hb3).
  destruct r2 as [[]|x]; [split_and!; [right; by exists n|auto|done]|].
  destruct (existsb _ _); [|split_and!; [right; by exists n|done|intros _; by apply Hb3]].
  pose proof (rollback_spec (complete_end (jf_bytes j)) x j2) as Hroll.
  destruct (rollback _ x j2) as [r3 j3]. destruct Hroll as (Hr & Hc & Hb & _).
  split_and!; [right| |].
  - destruct Hb as [->| ->]; [by exists n|]. exists O. rewrite Hn, take_0, app_nil_r.
    assert (complete_end (jf_bytes j) = length (whole (jf_bytes j))) as ->.
    { unfold whole. rewrite length_take, Nat.min_l; [done|apply complete_end_spec]. }
    by rewrite take_app_length.
  - intros Hx. by destruct Hr.
  - intros _. rewrite Hc. by apply Hb3.
Qed.

Lemma whole_lines raw events :
  whole (whole raw ++ concat (journal_line <$> events)) = whole raw ++ concat (journal_line <$> events).
Proof.
  rewrite <-(app_nil_r (concat _)), whole_app; [by rewrite app_nil_r|apply whole_ends|apply lines_end|constructor].
Qed.

(** The complete part grows by rows of the batch. *)
Lemma append_grows events j :
  let '(r, j') := append_durable_events events j in
  (exists k, whole (jf_bytes j') = whole (jf_bytes j) ++ concat (journal_line <$> take k events)) /\
  (r = Ok tt -> jf_bytes j' = whole (jf_bytes j) ++ concat (journal_line <$> events) /\
                jf_committed j' = jf_committed j ++ event_names events) /\
  (r <> Ok tt -> jf_committed j' = jf_committed j).
Proof.
  pose proof (append_spec events j) as Ha. destruct (append_durable_events events j) as [r j'].
  destruct Ha as (Hb & Hok & Herr). split_and!; [|done|done].
  destruct Hb as [->|[n ->]]; [exists O; cbn; by rewrite app_nil_r|]. apply whole_cut, whole_ends.
Qed.

(** Nothing fails by itself: a torn tail is repaired and the batch appended. *)
Lemma append_calm events j :
  jf_faults j = [] -> jf_writes j = [] -> fst (append_durable_events events j) = Ok tt.
Proof.
  destruct j as [b c ws f]. cbn [jf_faults jf_writes]. intros -> ->.
  assert (exists e b', repair_tail (length b) (Journal b c [] []) = (Ok e, Journal b' c [] [])) as (e & b' & Er).
  { unfold repair_tail. destruct (length b) as [|n] eqn:El; [by eexists _, _|].
    unfold mbind, eff_bind, complete_end_of, last_complete_journal_offset. cbn [jf_bytes].
    rewrite El, Nat.eqb_refl. cbn [negb]. destruct (_ <? _)%nat; by eexists _, _. }
  unfold append_durable_events. cbv zeta. unfold mbind at 1, eff_bind at 1. cbn [size_of jf_bytes].
  unfold mbind at 1, eff_bind at 1. rewrite Er. unfold try_except, append_batch, mbind, eff_bind, write_all.
  set (payload := concat _). clearbody payload. cbn [call faults journal_faulty jf_faults].
  unfold call. cbn. rewrite Nat.min_id, Nat.eqb_refl. done.
Qed.
End rows.

Section journal_properties.
Context `{PyHost}.

(** The transition stands in the text as a whole row. *)
Definition in_row (entry : json) (raw : bytes) : Prop :=
  exists before after, raw = before ++ journal_line (get entry "payload") ++ after /\
    ends_line before = true.

Lemma journaled_row content entry :
  transition_already_journaled (Some content) entry = true <-> in_row entry content.
Proof.
  cbn [transition_already_journaled]. unfold journal_line.
  rewrite scan_lines_spec by (try lia; apply journal_line_no_newline). unfold row_at, in_row, journal_line. split.
  - intros [[_ [b ->]]|(a & b & _ & He & ->)]; [by exists [], b|by exists a, b].
  - intros (a & b & -> & He). destruct a as [|x a]; [left; split; [done|by exists b]|right].
    by exists (x :: a), b.
Qed.

(** The backward block scan finds the end of the last complete line, whatever the blocks cut:
    the text before it is empty or ends in a newline and none follows. *)
Theorem last_complete_offset_exact content :
  exists o, last_complete_journal_offset content (length content) = Ok o /\ last_end content o /\
    forall o', last_end content o' -> o' = o.
Proof.
  exists (complete_end content). split_and!; [|apply complete_end_spec|].
  - unfold last_complete_journal_offset. by rewrite Nat.eqb_refl.
  - intros o' Ho. apply (last_end_unique content); [done|apply complete_end_spec].
Qed.

(** A transition counts as journaled exactly when its text stands in the journal as a whole row,
    from a line start to its newline.  The scan keeps no more than one row in memory, and neither a
    row that contains the text, nor a torn tail, nor a longer line makes it answer yes. *)
Theorem already_journaled_exact content entry :
  transition_already_journaled (Some content) entry = true <->
  exists before after, content = before ++ journal_line (get entry "payload") ++ after /\
    ends_line before = true.
Proof. exact (journaled_row content entry). Qed.

(** C21: the journal only ever grows by whole rows.  Whatever is refused, lost or cut short while a
    batch is appended to a journal in whatever state a crash left, the complete rows afterwards are
    the complete rows before, followed by the first [k] rows of the batch; success means all of
    them, nothing else behind them, and their names committed, and failure commits no name.  Without
    a fault or a short write the append succeeds. *)
Theorem append_whole_rows events j :
  let '(r, j') := append_durable_events events j in
  exists k, whole (jf_bytes j') = whole (jf_bytes j) ++ concat (journal_line <$> take k events) /\
    (r = Ok tt -> whole (jf_bytes j') = whole (jf_bytes j) ++ concat (journal_line <$> events) /\
                  jf_bytes j' = whole (jf_bytes j') /\
                  jf_committed j' = jf_committed j ++ event_names events) /\
    (r <> Ok tt -> jf_committed j' = jf_committed j) /\
    (jf_faults j = [] -> jf_writes j = [] -> r = Ok tt).
Proof.
  pose proof (append_grows events j) as Ha. pose proof (append_calm events j) as Hcalm.
  destruct (append_durable_events events j) as [r j']. cbn [fst] in Hcalm.
  destruct Ha as ([k Hk] & Hok & Herr). exists k. split_and!; [done| |done|done].
  intros Hr. destruct (Hok Hr) as (Hb & Hn). split_and!; [|by rewrite Hb, whole_lines|done].
  by rewrite Hb, whole_lines.
Qed.
End journal_properties.
