(* ===== verification/WatchOutbox.v ===== *)
(** * The independent production watcher: the transition outbox

    scripts/ops/independent_production_watch.py: the transitions waiting for the journal live in the
    state and heartbeat snapshots.  Here they are read with their checks
    ([pending_transition_entries]), new observations are admitted only while there is room
    ([observation_admitted]), and a cycle that cannot read its state carries everything confirmed
    over into the next heartbeat ([record_unverifiable_prior_state]). *)

From S2P Require Import Prelude PyStr Effects Json JsonText Sha256 Dispatch Watch.
Open Scope Z_scope.

Definition OUTBOX_NORMAL_LIMIT : nat := 16.
Definition OUTBOX_SURGE_LIMIT : nat := OUTBOX_NORMAL_LIMIT + 1.
Definition OUTBOX_MAX_BYTES : Z := 8 * 1024 * 1024.
Definition OUTBOX_ADMISSION_RESERVE : Z := 2 * 65536.

Section outbox.
Context `{PyHost}.

(** [json.dumps(value, sort_keys=True)]: as the compact text, with a blank after each separator. *)
Fixpoint spaced_json (v : json) : pystr :=
  match v with
  | JList l => [91%N] ++ join [44%N; 32%N] (spaced_json <$> l) ++ [93%N]
  | JObj d =>
      [123%N] ++
      join [44%N; 32%N] ((fun kt => quote (fst kt) ++ [58%N; 32%N] ++ snd kt) <$>
                     sort_items ((fun kv => (fst kv, spaced_json (snd kv))) <$> d))
      ++ [125%N]
  | _ => canonical_json v
  end.
Definition dumps (v : json) : pystr := flat_map ascii_escape (spaced_json v).

(** [v not in {...}] for a set of strings: an unhashable value raises. *)
Definition in_strings (v : json) (l : list pystr) : result exn bool :=
  match v with
  | JList _ | JObj _ => raise TypeError "unhashable type"
  | JStr s => Ok (str_in s l)
  | _ => Ok false
  end.

(** [payload.get("issues")] restricted to the P1 with a code. *)
Definition coded (item : json) : option pystr :=
  match get item "code" with JStr (c :: s) => Some (c :: s) | _ => None end.
Definition coded_p1 (item : json) : bool := is_p1 item && bool_decide (is_Some (coded item)).

Definition entry_keys (entry : json) : bool :=
  match entry with
  | JObj d => forallb (fun k => str_in k [lit "event"; lit "payload"]) (dkeys d)
              && dmem d "event" && dmem d "payload"
  | _ => false
  end.

Definition payload_checked (event payload : json) : result exn bool :=
  known ← in_strings event [lit "ALARM"; lit "RECOVERY"];
  if negb known || negb (is_dict payload) || negb (py_eq (get payload "event") event) then Ok false
  else
    status ← in_strings (get payload "status") [lit "ALARM"; lit "HEALTHY"; lit "MONITOR_DATA_FAILURE"];
    Ok (status && bool_decide (is_Some (timestamp (get payload "checked_at_utc")))
        && is_list (get payload "issues") && (Z.of_nat (length (dumps payload)) <=? 65536)).

(** Overflow must be a genuine transition. *)
Definition overflow_evidence (event payload : json) : result exn unit :=
  let alarm_status := py_eq (get payload "status") (JStr (lit "ALARM")) in
  let p1 := existsb coded_p1 (issues_of payload) in
  if py_eq event (JStr (lit "ALARM")) && (negb alarm_status || negb p1) then
    raise ValueError "invalid overflow ALARM evidence"
  else if py_eq event (JStr (lit "RECOVERY")) && (alarm_status || p1) then
    raise ValueError "invalid overflow RECOVERY evidence"
  else Ok tt.

Definition check_entry (surplus : bool) (entry : json) : result exn unit :=
  if negb (entry_keys entry) then raise ValueError "malformed pending transition entry"
  else
    let event := get entry "event" in
    let payload := get entry "payload" in
    ok ← payload_checked event payload;
    if ok : bool then if surplus then overflow_evidence event payload else Ok tt
    else raise ValueError "invalid pending transition payload".

Definition entry_size (entry : json) : Z := Z.of_nat (length (ascii_json entry)) + 1.

(** The loop; [ordinary] entries are left before the overflow begins. *)
Fixpoint validate_entries (ordinary : nat) (size : Z) (validated entries : list json)
    : result exn (list json) :=
  match entries with
  | [] => Ok validated
  | entry :: entries' =>
      check_entry (ordinary =? 0)%nat entry ;;
      let size' := size + entry_size entry in
      if OUTBOX_MAX_BYTES <? size' then raise ValueError "pending outbox exceeds byte budget"
      else validate_entries (pred ordinary) size'
             (if py_in entry validated then validated else validated ++ [entry]) entries'
  end.

Definition list_field (snapshot : json) (key : string) (limit : option nat) (m : string)
    : result exn (list json) :=
  match snapshot with
  | JObj d =>
      match dget d key with
      | None => Ok []
      | Some (JList l) =>
          if match limit with Some n => (n <? length l)%nat | None => false end
          then raise ValueError m else Ok l
      | Some _ => raise ValueError m
      end
  | _ => Ok []
  end.

Definition pending_transition_entries (snapshot : json) : result exn (list json) :=
  match snapshot with
  | JObj _ =>
      ordinary ← list_field snapshot "pending_transitions" (Some OUTBOX_SURGE_LIMIT)
                   "malformed pending transition outbox";
      overflow ← list_field snapshot "pending_surge_overflow" None "malformed pending surge overflow";
      validate_entries (length ordinary) 2 [] (ordinary ++ overflow)
  | _ => Ok []
  end.

(** ** Admission *)

(** Reading one snapshot file. *)
Inductive snapshot_file : Type :=
  | Missing
  | Corrupt
  | Unreadable
  | Snapshot (v : json).

(** [anchor] says that this is the state file, whose corruption does not stop an observation. *)
Definition admits (anchor : bool) (file : snapshot_file) : bool :=
  match file with
  | Missing => true
  | Corrupt => anchor
  | Unreadable => false
  | Snapshot v =>
      match pending_transition_entries v with
      | Err _ => false
      | Ok pending =>
          foldr Z.add 0 (entry_size <$> pending) <=? OUTBOX_MAX_BYTES - OUTBOX_ADMISSION_RESERVE
      end
  end.
Definition observation_admitted (state heartbeat : snapshot_file) : bool :=
  admits true state && admits false heartbeat.

(** ** A cycle whose prior state cannot be verified *)

(** Collect what is not yet seen, keeping the order. *)
Definition seen_list : Type := list pystr * list json.
Definition confirm (acc : seen_list) (item : json) : seen_list :=
  if is_p1 item then
    match coded item with
    | Some code => if str_in code (fst acc) then acc else (code :: fst acc, snd acc ++ [item])
    | None => acc
    end
  else acc.
Definition retained_issue (code actual : pystr) : json :=
  JObj [(lit "code", JStr code); (lit "component", JStr (lit "prior watcher P1"));
        (lit "actual", JStr (take 160 actual)); (lit "expected", JStr (lit "confirmed recovery"));
        (lit "source", JStr (lit "local persisted heartbeat")); (lit "severity", JStr (lit "P1"))].
Definition retain (acc : seen_list) (item : json) : seen_list :=
  match item with
  | JList [JStr code; JStr actual] =>
      if str_in code (fst acc) then acc else (code :: fst acc, snd acc ++ [retained_issue code actual])
  | _ => acc
  end.

Definition list_of (v : json) : list json := match v with JList l => l | _ => [] end.
Definition confirmed_issues (result heartbeat : json) : list json :=
  let acc := foldl confirm ([], []) (issues_of result) in
  let acc := foldl confirm acc (issues_of heartbeat) in
  snd (foldl retain acc (list_of (get heartbeat "retained_prior_p1"))).

Definition add_new (intent : list json) (entry : json) : list json :=
  if py_in entry intent then intent else intent ++ [entry].
(** The entries of an anchor; one that cannot be read counts for none. *)
Definition readable_entries (anchor : json) : list json :=
  match pending_transition_entries anchor with Ok l => l | Err _ => [] end.
Definition durable_intent (heartbeat result : json) : list json :=
  foldl add_new [] (readable_entries heartbeat ++ readable_entries result).

Definition pending_codes (intent : list json) : list pystr :=
  flat_map (fun entry =>
    if py_eq (get entry "event") (JStr (lit "ALARM")) then
      flat_map (fun item => if is_p1 item then match get item "code" with JStr c => [c] | _ => [] end else [])
        (issues_of (get entry "payload"))
    else []) intent.

Definition ISSUE_URL : pystr := lit "https://github.com/heimgewebe/commonthing/issues/1939".
(** [{key: value for ... if key not in {...}}] *)
Definition without_outbox (result : json) : dict json :=
  match result with
  | JObj d => List.filter (fun kv => negb (str_in (fst kv)
                [lit "pending_transitions"; lit "pending_surge_overflow"])) d
  | _ => []
  end.
Definition provisional_alarm (result : json) (newly_confirmed : list json) : json :=
  JObj [(lit "event", JStr (lit "ALARM"));
        (lit "payload", set_fields (JObj [(lit "event", JStr (lit "ALARM"))])
           (without_outbox result ++
            [(lit "status", JStr (lit "ALARM")); (lit "issues", JList newly_confirmed);
             (lit "state_read_unverified", JBool true); (lit "issue_url", JStr ISSUE_URL)]))].

Definition with_provisional (state_read_uncertain : bool) (result : json) (intent : list json) : list json :=
  if state_read_uncertain && py_eq (get result "status") (JStr (lit "ALARM")) then
    match snd (foldl confirm (pending_codes intent, []) (issues_of result)) with
    | [] => intent
    | newly_confirmed => intent ++ [provisional_alarm result newly_confirmed]
    end
  else intent.

Definition outbox_fields (intent : list json) : dict json :=
  (lit "pending_transitions", JList (take OUTBOX_SURGE_LIMIT intent)) ::
  match drop OUTBOX_SURGE_LIMIT intent with
  | [] => []
  | rest => [(lit "pending_surge_overflow", JList rest)]
  end.

Definition unverifiable_issue (state_path cause : pystr) : json :=
  JObj [(lit "code", JStr (lit "unverifiable_state")); (lit "component", JStr (lit "watcher incident state"));
        (lit "actual", JStr (take 150 cause));
        (lit "expected", JStr (lit "readable well-formed prior state.json"));
        (lit "source", JStr state_path); (lit "severity", JStr (lit "P2"))].

(** The heartbeat to write; an exception leaves the present one in place. *)
Definition record_unverifiable_prior_state (state_path : pystr) (now : Z) (result heartbeat : json)
    (cause : pystr) (state_read_uncertain : bool) : Prelude.result exn json :=
  let at_time := default now (timestamp (get result "checked_at_utc")) in
  let confirmed := confirmed_issues result heartbeat in
  let failure := set_fields (watcher_failure_report at_time (Exn ValueError cause))
    ((lit "issues", JList (unverifiable_issue state_path cause :: confirmed))
     :: (lit "observation_status", get result "status")
     :: match confirmed with [] => [] | _ => [(lit "status", JStr (lit "ALARM"))] end) in
  let intent := with_provisional state_read_uncertain result (durable_intent heartbeat result) in
  match intent with
  | [] => Ok failure
  | _ =>
      pending_transition_entries (JObj (outbox_fields intent)) ;;
      Ok (set_fields failure (outbox_fields intent))
  end.
End outbox.

(** ** Lemmas: validation *)

Section validation.
Context `{PyHost}.

(** What every entry read from an outbox is. *)
Record transition (entry : json) : Prop := Transition {
  tr_keys : entry_keys entry = true;
  tr_event : get entry "event" = JStr (lit "ALARM") \/ get entry "event" = JStr (lit "RECOVERY");
  tr_payload : is_dict (get entry "payload") = true;
  tr_same : py_eq (get (get entry "payload") "event") (get entry "event") = true;
  tr_status : exists s, get (get entry "payload") "status" = JStr s /\
    s ∈ [lit "ALARM"; lit "HEALTHY"; lit "MONITOR_DATA_FAILURE"];
  tr_time : is_Some (timestamp (get (get entry "payload") "checked_at_utc"));
  tr_issues : is_list (get (get entry "payload") "issues") = true;
  tr_size : Z.of_nat (length (dumps (get entry "payload"))) <= 65536;
}.

Lemma in_strings_true v l : in_strings v l = Ok true -> exists s, v = JStr s /\ s ∈ l.
Proof. destruct v; cbn; try done. intros [= Hs]. apply str_in_elem in Hs. eauto. Qed.

Lemma check_entry_weaken entry : check_entry true entry = Ok tt -> check_entry false entry = Ok tt.
Proof.
  unfold check_entry. destruct (entry_keys entry); [|done]. cbn [negb].
  destruct (payload_checked _ _) as [[]|]; done.
Qed.

Lemma check_entry_transition surplus entry : check_entry surplus entry = Ok tt -> transition entry.
Proof.
  intros Hc. assert (check_entry false entry = Ok tt) as Hf by (destruct surplus; [by apply check_entry_weaken|done]).
  clear Hc. unfold check_entry in Hf. destruct (entry_keys entry) eqn:Ek; [|done]. cbn [negb] in Hf.
  destruct (payload_checked _ _) as [[]|] eqn:Ep; try done. clear Hf.
  unfold payload_checked in Ep. apply bind_ok in Ep as (known & Hk & Ep).
  destruct known; [|done]. apply in_strings_true in Hk as (s & Hs & Hin).
  destruct (is_dict (get entry "payload")) eqn:Ed; [|done].
  destruct (py_eq (get (get entry "payload") "event") (get entry "event")) eqn:Ee; [|done].
  cbn [negb orb] in Ep. apply bind_ok in Ep as (st & Hst & Ep). injection Ep as Ep.
  rewrite !andb_true_iff, bool_decide_eq_true, Z.leb_le in Ep. destruct Ep as [[[-> Ht] Hl] Hz].
  apply in_strings_true in Hst as (s' & Hs' & Hin').
  constructor; try done; [|eauto].
  rewrite !elem_of_cons, elem_of_nil in Hin. destruct Hin as [->|[->|[]]]; auto.
Qed.

Definition total_size (l : list json) : Z := foldr Z.add 0 (entry_size <$> l).
Lemma entry_size_pos e : 0 < entry_size e.
Proof. unfold entry_size. lia. Qed.
Lemma total_size_pos l : 0 <= total_size l.
Proof. unfold total_size. induction l as [|e l IH]; cbn; [done|]. pose proof (entry_size_pos e). unfold entry_size in *. lia. Qed.
Lemma total_size_cons e l : total_size (e :: l) = entry_size e + total_size l.
Proof. reflexivity. Qed.
Lemma total_size_app a b : total_size (a ++ b) = total_size a + total_size b.
Proof. induction a as [|e a IH]; [done|]. cbn [app]. rewrite !total_size_cons. lia. Qed.

(** No entry repeats an earlier one. *)
Definition distinct (l : list json) : Prop := forall i e, l !! i = Some e -> py_in e (take i l) = false.

Lemma distinct_snoc l e : distinct l -> py_in e l = false -> distinct (l ++ [e]).
Proof.
  intros Hl He i x Hx. destruct (decide (i < length l)%nat) as [Hi|Hi].
  - rewrite lookup_app_l in Hx by done. rewrite take_app_le by lia. by apply Hl.
  - pose proof (lookup_lt_Some _ _ _ Hx) as Hlt. rewrite length_app in Hlt. cbn in Hlt.
    assert (i = length l) as -> by lia. rewrite lookup_app_r, Nat.sub_diag in Hx by lia.
    injection Hx as <-. by rewrite take_app_length.
Qed.

(** The outcome of a validation that succeeds. *)
Lemma validate_ok ordinary size validated entries out :
  validate_entries ordinary size validated entries = Ok out ->
  distinct validated -> (ordinary = O \/ (length validated + ordinary <= OUTBOX_SURGE_LIMIT)%nat) ->
  exists new, out = validated ++ new /\ distinct out /\ total_size new <= total_size entries /\
    (entries <> [] -> size + total_size entries <= OUTBOX_MAX_BYTES) /\
    (forall j e, new !! j = Some e -> check_entry false e = Ok tt /\
       ((OUTBOX_SURGE_LIMIT <= length validated + j)%nat -> check_entry true e = Ok tt)) /\
    (forall e, e ∈ entries -> e ∈ out \/ py_in e out = true).
Proof.
  revert ordinary size validated out.
  induction entries as [|e entries IH]; intros ordinary size validated out; cbn [validate_entries].
  { intros [= <-] Hd _. exists []. rewrite app_nil_r. split_and!; try done. by intros e ?%elem_of_nil. }
  destruct (check_entry (ordinary =? 0)%nat e) as [[]|] eqn:Ec; [|done]. cbn [mbind result_bind].
  destruct (Z.ltb_spec OUTBOX_MAX_BYTES (size + entry_size e)) as [|Hsz]; [done|].
  assert (check_entry false e = Ok tt) as Hcf
    by (destruct (ordinary =? 0)%nat; [by apply check_entry_weaken|done]).
  destruct (py_in e validated) eqn:Ein; intros Hv Hd Ho.
  - destruct (IH _ _ _ _ Hv Hd) as (new & -> & Hd' & Hle & Hmax & Hnew & Hin); [destruct ordinary; cbn [Nat.pred]; lia|].
    exists new. rewrite total_size_cons. pose proof (entry_size_pos e). split_and!; try done; [lia| |].
    + intros _. destruct entries; [change (total_size []) with 0; lia|]. specialize (Hmax ltac:(done)). lia.
    + intros x [->|Hx]%elem_of_cons; [|by apply Hin]. right. unfold py_in in *. by rewrite existsb_app, Ein.
  - destruct (IH _ _ _ _ Hv) as (new & -> & Hd' & Hle & Hmax & Hnew & Hin).
    { by apply distinct_snoc. }
    { rewrite length_app. cbn [length]. destruct ordinary; cbn [Nat.pred]; lia. }
    exists (e :: new). rewrite <-(assoc_L (++)) in Hd', Hin |- *. cbn [app] in *.
    rewrite !total_size_cons. split_and!; try done; [lia| | |].
    + intros _. destruct entries; [change (total_size []) with 0; lia|]. specialize (Hmax ltac:(done)). lia.
    + intros [|j] x Hx; cbn in Hx.
      * injection Hx as <-. split; [done|]. intros Hj.
        assert (ordinary = O) as -> by lia. done.
      * destruct (Hnew j x Hx) as [H1 H2]. split; [done|]. intros Hj. apply H2. rewrite length_app. cbn [length]. lia.
    + intros x [->|Hx]%elem_of_cons; [|by apply Hin]. left. apply elem_of_app. right. by left.
Qed.

(** Entries that pass the checks at their places are read back as they are. *)
Lemma validates_again ordinary size before rest :
  distinct (before ++ rest) -> size + total_size rest <= OUTBOX_MAX_BYTES ->
  (forall j e, rest !! j = Some e -> check_entry false e = Ok tt /\
     ((ordinary <= j)%nat -> check_entry true e = Ok tt)) ->
  validate_entries ordinary size before rest = Ok (before ++ rest).
Proof.
  revert ordinary size before; induction rest as [|e rest IH]; intros ordinary size before Hd Hs Hc;
    cbn [validate_entries]; [by rewrite app_nil_r|].
  rewrite total_size_cons in Hs. pose proof (total_size_pos rest).
  destruct (Hc O e eq_refl) as [Hf Ht].
  assert (check_entry (ordinary =? 0)%nat e = Ok tt) as ->
    by (destruct (Nat.eqb_spec ordinary 0); [apply Ht; lia|done]).
  cbn [mbind result_bind]. rewrite (proj2 (Z.ltb_ge _ _)) by lia.
  assert (py_in e before = false) as ->.
  { specialize (Hd (length before) e). rewrite take_app_length in Hd. apply Hd.
    by rewrite lookup_app_r, Nat.sub_diag by lia. }
  replace (before ++ e :: rest) with ((before ++ [e]) ++ rest) in * by (by rewrite <-(assoc_L (++))).
  apply IH; [done|lia|]. intros j x Hx. destruct (Hc (S j) x Hx) as [H1 H2]. split; [done|].
  intros Hj. apply H2. destruct ordinary; lia.
Qed.

(** A queue that can be written. *)
Record queue_ok (l : list json) : Prop := QueueOk {
  qo_distinct : distinct l;
  qo_size : 2 + total_size l <= OUTBOX_MAX_BYTES;
  qo_checked : forall j e, l !! j = Some e -> check_entry false e = Ok tt /\
    ((OUTBOX_SURGE_LIMIT <= j)%nat -> check_entry true e = Ok tt);
}.

Lemma entries_of_fields d l :
  dget d "pending_transitions" = Some (JList (take OUTBOX_SURGE_LIMIT l)) ->
  dget d "pending_surge_overflow" =
    match drop OUTBOX_SURGE_LIMIT l with [] => None | rest => Some (JList rest) end ->
  pending_transition_entries (JObj d) =
  validate_entries (length (take OUTBOX_SURGE_LIMIT l)) 2 [] l.
Proof.
  intros H1 H2. unfold pending_transition_entries, list_field. rewrite H1, H2.
  rewrite (proj2 (Nat.ltb_ge _ _)) by (rewrite length_take; lia). cbn [mbind result_bind].
  destruct (drop OUTBOX_SURGE_LIMIT l) as [|e rest] eqn:Ed; cbn [mbind result_bind];
    f_equal; rewrite <-(take_drop OUTBOX_SURGE_LIMIT l) at 2; by rewrite Ed.
Qed.

Lemma outbox_lookup l :
  dget (outbox_fields l) "pending_transitions" = Some (JList (take OUTBOX_SURGE_LIMIT l)) /\
  dget (outbox_fields l) "pending_surge_overflow" =
    match drop OUTBOX_SURGE_LIMIT l with [] => None | rest => Some (JList rest) end.
Proof. split; [reflexivity|]. unfold outbox_fields. by destruct (drop OUTBOX_SURGE_LIMIT l). Qed.

Lemma queue_read_back l d :
  queue_ok l -> dget d "pending_transitions" = Some (JList (take OUTBOX_SURGE_LIMIT l)) ->
  dget d "pending_surge_overflow" =
    match drop OUTBOX_SURGE_LIMIT l with [] => None | rest => Some (JList rest) end ->
  pending_transition_entries (JObj d) = Ok l.
Proof.
  intros [Hd Hs Hc] H1 H2. rewrite (entries_of_fields d l H1 H2). rewrite length_take.
  apply (validates_again _ _ []); [done|done|]. intros j e Hj. destruct (Hc j e Hj) as [Hf Ht].
  split; [done|]. intros Hm. apply Ht. apply lookup_lt_Some in Hj. lia.
Qed.

Lemma pending_queue_ok snapshot l :
  pending_transition_entries snapshot = Ok l -> l = [] \/ queue_ok l.
Proof.
  unfold pending_transition_entries. destruct snapshot as [| | | | | |d]; try (intros [= <-]; by left).
  intros (ordinary & Ho & Hv)%bind_ok. apply bind_ok in Hv as (overflow & Hf & Hv).
  assert (length ordinary <= OUTBOX_SURGE_LIMIT)%nat as Hlen.
  { unfold list_field in Ho. destruct (dget d "pending_transitions") as [[| | | | |o|]|]; try done;
      [|injection Ho as <-; cbn; lia].
    destruct (Nat.ltb_spec OUTBOX_SURGE_LIMIT (length o)); [done|]. by injection Ho as <-. }
  destruct (validate_ok _ _ _ _ _ Hv) as (new & -> & Hd & Hle & Hmax & Hnew & _);
    [by intros i e ?|right; cbn [length]; lia|].
  cbn [app] in *. destruct new as [|e0 new0] eqn:En; [by left|right]. rewrite <-En in *. constructor; [done| |exact Hnew].
  assert (ordinary ++ overflow <> []) as Hne.
  { intros Hn. rewrite Hn in Hle. cbn in Hv. rewrite Hn in Hv. cbn in Hv. by rewrite En in Hv. }
  specialize (Hmax Hne). lia.
Qed.
End validation.

(** ** Lemmas: the texts of an entry *)

Section texts.
Context `{PyHost}.

(** A list is not longer with wider separators and wider parts. *)
Lemma length_escaped_join s1 s2 l m :
  (length (flat_map ascii_escape s1) <= length (flat_map ascii_escape s2))%nat ->
  Forall2 (fun a b => length (flat_map ascii_escape a) <= length (flat_map ascii_escape b))%nat l m ->
  (length (flat_map ascii_escape (join s1 l)) <= length (flat_map ascii_escape (join s2 m)))%nat.
Proof.
  intros Hs. induction 1 as [|a b l m Hab Hl IH]; [done|].
  destruct Hl as [|a' b' l m ? ?]; [done|].
  change (join s1 (a :: a' :: l)) with (a ++ s1 ++ join s1 (a' :: l)).
  change (join s2 (b :: b' :: m)) with (b ++ s2 ++ join s2 (b' :: m)).
  rewrite !flat_map_app, !length_app. lia.
Qed.

(** The compact text of a value is not longer than the text with blanks. *)
Lemma ascii_json_dumps v : (length (ascii_json v) <= length (dumps v))%nat.
Proof.
  unfold ascii_json, dumps. induction v as [|b|z|f|s|l IH|d IH] using json_ind; try done.
  - cbn [canonical_json spaced_json]. rewrite !flat_map_app, !length_app.
    enough (length (flat_map ascii_escape (join [44%N] (canonical_json <$> l))) <=
      length (flat_map ascii_escape (join [44%N; 32%N] (spaced_json <$> l))))%nat by lia.
    apply length_escaped_join; [vm_compute; lia|]. induction IH; constructor; done.
  - cbn [canonical_json spaced_json]. rewrite !sort_items_fmap, !flat_map_app, !length_app.
    enough (forall e, Forall (fun kv => length (flat_map ascii_escape (canonical_json (snd kv))) <=
                                 length (flat_map ascii_escape (spaced_json (snd kv))))%nat e ->
      length (flat_map ascii_escape (join [44%N] ((fun kt => quote (fst kt) ++ [58%N] ++ snd kt) <$>
        ((fun kv => (fst kv, canonical_json (snd kv))) <$> e)))) <=
      length (flat_map ascii_escape (join [44%N; 32%N] ((fun kt => quote (fst kt) ++ [58%N; 32%N] ++ snd kt) <$>
        ((fun kv => (fst kv, spaced_json (snd kv))) <$> e)))))%nat as Hj.
    { specialize (Hj (sort_items d)). assert (Forall (fun kv => length (flat_map ascii_escape (canonical_json (snd kv))) <=
          length (flat_map ascii_escape (spaced_json (snd kv))))%nat (sort_items d)) as Hd
        by (unfold sort_items; by rewrite (sort_by_perm key_leb d)).
      apply Nat.add_le_mono_l, Nat.add_le_mono_r. exact (Hj Hd). }
    intros e He. apply length_escaped_join; [vm_compute; lia|]. rewrite <-!list_fmap_compose.
    induction He as [|[k v] e Hv He IHe]; constructor; [|done]. cbn [compose fst snd].
    change (compose ?f ?g (k, v)) with (f (g (k, v))). cbn [fst snd] in *.
    rewrite !flat_map_app, !length_app. cbn [flat_map app length]. cbn in Hv |- *. lia.
Qed.

(** The entry [record] builds for a transition. *)
Definition new_entry (event : pystr) (payload : json) : json :=
  JObj [(lit "event", JStr event); (lit "payload", payload)].

Lemma new_entry_size event payload :
  event = lit "ALARM" \/ event = lit "RECOVERY" ->
  entry_size (new_entry event payload) <= Z.of_nat (length (ascii_json payload)) + 34.
Proof.
  intros He. unfold entry_size, new_entry, ascii_json. rewrite canonical_obj.
  change (sort_items [(lit "event", JStr event); (lit "payload", payload)])
    with [(lit "event", JStr event); (lit "payload", payload)].
  cbn [fmap list_fmap join]. unfold item_text. cbn [fst snd canonical_json].
  rewrite !flat_map_app, !length_app.
  assert (length (flat_map ascii_escape (quote event)) <= 10)%nat by (by destruct He as [-> | ->]; vm_compute; lia).
  replace (length (flat_map ascii_escape (quote (lit "event")))) with 7%nat by (vm_compute; reflexivity).
  replace (length (flat_map ascii_escape (quote (lit "payload")))) with 9%nat by (vm_compute; reflexivity).
  cbn [flat_map app]. rewrite !app_nil_r.
  repeat match goal with |- context [length (ascii_escape ?c)] => 
    change (length (ascii_escape c)) with 1%nat end. lia.
Qed.
End texts.

(** ** The queue *)

Section queue.
Context `{PyHost}.

(** Reading the outbox of a snapshot either raises or gives well-formed transitions: every entry
    has exactly an event and a payload that agree, with a known status, a date, a list of issues and
    at most 65536 characters of text; no entry repeats an earlier one; the texts with their
    separators stay within eight megabytes; and past the seventeenth an ALARM shows a coded P1 and a
    RECOVERY none. *)
Theorem pending_entries_typed snapshot entries :
  pending_transition_entries snapshot = Ok entries ->
  Forall transition entries /\ distinct entries /\ total_size entries <= OUTBOX_MAX_BYTES /\
  forall j e, entries !! j = Some e -> (OUTBOX_SURGE_LIMIT <= j)%nat ->
    let p1 := existsb coded_p1 (issues_of (get e "payload")) in
    let alarming := py_eq (get (get e "payload") "status") (JStr (lit "ALARM")) in
    if py_eq (get e "event") (JStr (lit "ALARM")) then alarming && p1 = true else alarming || p1 = false.
Proof.
  intros [->|[Hd Hs Hc]]%pending_queue_ok.
  { split_and!; [done|by intros i e ?|vm_compute; done|by intros i e ?]. }
  split_and!; [|done|lia|].
  - apply Forall_lookup. intros j e Hj. destruct (Hc j e Hj) as [Hf _]. by eapply check_entry_transition.
  - intros j e Hj Hm. destruct (Hc j e Hj) as [Hf Ht]. specialize (Ht Hm).
    apply check_entry_transition in Hf. unfold check_entry in Ht.
    destruct (entry_keys e); [|done]. cbn [negb] in Ht.
    destruct (payload_checked _ _) as [[]|]; try done. cbn [mbind result_bind] in Ht.
    unfold overflow_evidence in Ht. cbn zeta.
    destruct (tr_event e Hf) as [Ev|Ev]; rewrite Ev in Ht |- *;
      change (py_eq (JStr (lit "ALARM")) (JStr (lit "ALARM"))) with true in *;
      change (py_eq (JStr (lit "RECOVERY")) (JStr (lit "ALARM"))) with false in *;
      change (py_eq (JStr (lit "ALARM")) (JStr (lit "RECOVERY"))) with false in *;
      change (py_eq (JStr (lit "RECOVERY")) (JStr (lit "RECOVERY"))) with true in *;
      cbn [andb] in Ht;
      destruct (py_eq (get (get e "payload") "status") _), (existsb coded_p1 _); done.
Qed.

Lemma dget_set_all (d fs : dict json) n :
  NoDup (dkeys fs) ->
  dget (foldl (fun d kv => dset d (fst kv) (snd kv)) d fs) n =
  match dget fs n with Some v => Some v | None => dget d n end.
Proof.
  revert d; induction fs as [|[k v] fs IH]; intros d Hn; [done|].
  cbn [dkeys fmap list_fmap fst] in Hn. apply NoDup_cons in Hn as [Hk Hn].
  cbn [foldl fst snd dget]. rewrite IH by done. destruct (str_eqb_spec n k) as [->|Hne].
  - rewrite (proj2 (dget_None fs k)) by done. by rewrite dget_dset, str_eqb_refl.
  - destruct (dget fs n); [done|]. rewrite dget_dset. by rewrite (proj2 (str_eqb_neq n k)).
Qed.

Lemma outbox_nodup (l : list json) : NoDup (dkeys (outbox_fields l)).
Proof.
  unfold outbox_fields. destruct (drop OUTBOX_SURGE_LIMIT l); [apply NoDup_singleton|].
  apply NoDup_cons. split; [|apply NoDup_singleton]. by intros [=]%list_elem_of_singleton.
Qed.

Lemma pending_ext d e :
  dget d "pending_transitions" = dget e "pending_transitions" ->
  dget d "pending_surge_overflow" = dget e "pending_surge_overflow" ->
  pending_transition_entries (JObj d) = pending_transition_entries (JObj e).
Proof. intros H1 H2. unfold pending_transition_entries, list_field. by rewrite H1, H2. Qed.

(** Fields around the outbox do not matter. *)
Lemma pending_set_fields d l :
  dget d "pending_surge_overflow" = None ->
  pending_transition_entries (set_fields (JObj d) (outbox_fields l)) =
  pending_transition_entries (JObj (outbox_fields l)).
Proof.
  intros Hd. apply pending_ext; rewrite dget_set_all by apply outbox_nodup.
  - by destruct (outbox_lookup l) as [-> _].
  - destruct (outbox_lookup l) as [_ ->]. by destruct (drop OUTBOX_SURGE_LIMIT l).
Qed.

(** A queue read from one snapshot and written into another one, the first seventeen entries and
    the surge apart, is read back entry for entry: no rewriting of the heartbeat or state loses,
    reorders or merges pending transitions. *)
Theorem outbox_roundtrip snapshot d l :
  pending_transition_entries snapshot = Ok l ->
  dget d "pending_surge_overflow" = None ->
  pending_transition_entries (set_fields (JObj d) (outbox_fields l)) = Ok l.
Proof.
  intros Hl Hd. rewrite pending_set_fields by done.
  apply pending_queue_ok in Hl as [->|Hq]; [reflexivity|].
  apply queue_read_back; [done| |]; by destruct (outbox_lookup l).
Qed.

(** C20: While an observation is admitted, neither snapshot is so full that a new transition could not
    be queued: appending any new entry that passes the checks gives an outbox that is read back
    whole. *)
Theorem admitted_room state heartbeat file v l event payload :
  observation_admitted state heartbeat = true ->
  file = state \/ file = heartbeat -> file = Snapshot v ->
  pending_transition_entries v = Ok l ->
  check_entry true (new_entry event payload) = Ok tt -> py_in (new_entry event payload) l = false ->
  pending_transition_entries (JObj (outbox_fields (l ++ [new_entry event payload]))) =
    Ok (l ++ [new_entry event payload]).
Proof.
  intros Ha Hf -> Hl Hc Hn.
  assert (total_size l <= OUTBOX_MAX_BYTES - OUTBOX_ADMISSION_RESERVE) as Hroom.
  { unfold observation_admitted in Ha. apply andb_true_iff in Ha as [Hs Hh].
    destruct Hf as [<-|<-]; cbn [admits] in *; rewrite Hl in *; by apply Z.leb_le. }
  pose proof (check_entry_transition _ _ Hc) as Ht.
  assert (event = lit "ALARM" \/ event = lit "RECOVERY") as He.
  { destruct (tr_event _ Ht) as [E|E]; [left|right]; by injection E. }
  pose proof (new_entry_size event payload He) as Hz. pose proof (tr_size _ Ht) as Hp.
  change (get (new_entry event payload) "payload") with payload in Hp.
  pose proof (ascii_json_dumps payload) as Hle.
  apply queue_read_back; [|by destruct (outbox_lookup (l ++ [new_entry event payload]))..].
  apply pending_queue_ok in Hl. constructor.
  - apply distinct_snoc; [|done]. destruct Hl as [->|[Hd _ _]]; [by intros i e ?|done].
  - rewrite total_size_app, total_size_cons. change (total_size []) with 0.
    change OUTBOX_MAX_BYTES with 8388608 in *. change OUTBOX_ADMISSION_RESERVE with 131072 in *. lia.
  - intros j e Hj. apply lookup_app_Some in Hj as [Hj|[_ Hj]].
    + destruct Hl as [->|[_ _ Hq]]; [done|by apply Hq].
    + destruct (j - length l)%nat as [|k]; [|by destruct k]. injection Hj as <-.
      split; [by apply check_entry_weaken|done].
Qed.
End queue.

(** ** What an unverifiable state keeps *)

Section unverifiable.
Context `{PyHost}.

(** Every code seen has a P1 that carries it, and only P1 are kept. *)
Definition covers (acc : seen_list) : Prop :=
  (forall c, c ∈ fst acc -> exists i, i ∈ snd acc /\ get i "code" = JStr c) /\
  Forall (fun i => is_p1 i = true) (snd acc).
(** [acc'] has seen what [acc] has. *)
Definition extends (acc acc' : seen_list) : Prop := forall c, c ∈ fst acc -> c ∈ fst acc'.

Lemma extends_refl acc : extends acc acc.
Proof. by intros c. Qed.
#[local] Hint Resolve extends_refl : core.

Lemma coded_code item c : coded item = Some c -> get item "code" = JStr c.
Proof. unfold coded. destruct (get item "code") as [| | | |[|n s]| |]; try done. by intros [= <-]. Qed.

Lemma str_in_false s l : str_in s l = false -> s ∉ l.
Proof. intros Hf Hi. apply str_in_elem in Hi. congruence. Qed.

Lemma covers_add c i acc :
  covers acc -> is_p1 i = true -> get i "code" = JStr c ->
  covers (c :: fst acc, snd acc ++ [i]) /\ extends acc (c :: fst acc, snd acc ++ [i]).
Proof.
  intros [Hc Hp] Hi Hg. split; [split|]; cbn [fst snd].
  - intros c' [->|Hin]%elem_of_cons; [exists i; split; [apply elem_of_app; right; by left|done]|].
    destruct (Hc c' Hin) as (i' & Hi' & Hg'). exists i'. split; [apply elem_of_app; by left|done].
  - apply Forall_app. split; [done|]. by constructor.
  - intros c' Hin. by right.
Qed.

Lemma confirm_step acc item :
  covers acc -> covers (confirm acc item) /\ extends acc (confirm acc item) /\
  (forall c, is_p1 item = true -> coded item = Some c -> c ∈ fst (confirm acc item)).
Proof.
  intros Hc. unfold confirm. destruct (is_p1 item) eqn:Ep; [|by split_and!].
  destruct (coded item) as [code|] eqn:Ec; [|by split_and!].
  destruct (str_in code (fst acc)) eqn:Es.
  - split_and!; [done..|]. intros c _ [= <-]. by apply str_in_elem.
  - destruct (covers_add code item acc Hc Ep (coded_code _ _ Ec)) as [H1 H2].
    split_and!; [done..|]. intros c _ [= <-]. by left.
Qed.

Lemma retain_step acc item :
  covers acc -> covers (retain acc item) /\ extends acc (retain acc item) /\
  (forall c a, item = JList [JStr c; JStr a] -> c ∈ fst (retain acc item)).
Proof.
  intros Hc. unfold retain.
  destruct item as [| | | | |[|[| | | |code| |] [|[| | | |actual| |] [|? ?]]]|]; try by split_and!.
  destruct (str_in code (fst acc)) eqn:Es.
  - split_and!; [done..|]. intros c a [= <- <-]. by apply str_in_elem.
  - destruct (covers_add code (retained_issue code actual) acc Hc) as [H1 H2]; [done..|].
    split_and!; [done..|]. intros c a [= <- <-]. by left.
Qed.

(** A fold of such steps covers what each step adds. *)
Lemma fold_covers (step : seen_list -> json -> seen_list) (adds : json -> pystr -> Prop) :
  (forall acc item, covers acc -> covers (step acc item) /\ extends acc (step acc item) /\
     forall c, adds item c -> c ∈ fst (step acc item)) ->
  forall items acc, covers acc -> covers (foldl step acc items) /\ extends acc (foldl step acc items) /\
     forall item c, item ∈ items -> adds item c -> c ∈ fst (foldl step acc items).
Proof.
  intros Hs. induction items as [|i items IH]; intros acc Hc; cbn [foldl].
  { split_and!; [done..|]. by intros item c ?%elem_of_nil. }
  destruct (Hs acc i Hc) as (H1 & H2 & H3). destruct (IH (step acc i) H1) as (H4 & H5 & H6).
  split_and!; [done|intros c Hi; by apply H5, H2|].
  intros item c [->|Hin]%elem_of_cons Ha; [by apply H5, H3|by eapply H6].
Qed.

Definition shown (code : pystr) (issues : list json) : Prop :=
  exists i, i ∈ issues /\ is_p1 i = true /\ get i "code" = JStr code.

Lemma confirmed_issues_cover result heartbeat :
  Forall (fun i => is_p1 i = true) (confirmed_issues result heartbeat) /\
  (forall item c, item ∈ issues_of result ++ issues_of heartbeat -> is_p1 item = true ->
     coded item = Some c -> shown c (confirmed_issues result heartbeat)) /\
  (forall c a, JList [JStr c; JStr a] ∈ list_of (get heartbeat "retained_prior_p1") ->
     shown c (confirmed_issues result heartbeat)).
Proof.
  pose proof (fold_covers confirm (fun item c => is_p1 item = true /\ coded item = Some c)) as Hcf.
  pose proof (fold_covers retain (fun item c => exists a, item = JList [JStr c; JStr a])) as Hrt.
  destruct (Hcf ltac:(intros acc item Hc; destruct (confirm_step acc item Hc) as (?&?&?); naive_solver)
    (issues_of result) ([], [])) as (Ha1 & Ha2 & Ha3).
  { split; [by intros c ?%elem_of_nil|constructor]. }
  destruct (Hcf ltac:(intros acc item Hc; destruct (confirm_step acc item Hc) as (?&?&?); naive_solver)
    (issues_of heartbeat) _ Ha1) as (Hb1 & Hb2 & Hb3).
  destruct (Hrt ltac:(intros acc item Hc; destruct (retain_step acc item Hc) as (?&?&?); naive_solver)
    (list_of (get heartbeat "retained_prior_p1")) _ Hb1) as ([Hc1 Hp] & Hc2 & Hc3).
  unfold confirmed_issues. cbn zeta.
  set (final := foldl retain _ _) in *.
  assert (forall c, c ∈ fst final -> shown c (snd final)) as Hshown.
  { intros c Hin. destruct (Hc1 c Hin) as (i & Hi & Hg). exists i. split_and!; [done| |done].
    rewrite Forall_forall in Hp. by apply Hp. }
  split_and!; [done| |].
  - intros item c [Hin|Hin]%elem_of_app H1 H2; apply Hshown, Hc2; [apply Hb2, (Ha3 item)|apply (Hb3 item)]; done.
  - intros c a Hin. apply Hshown. eapply Hc3; [done|by eexists].
Qed.

(** ** The carried queue *)

Definition kept (entry : json) (l : list json) : Prop := entry ∈ l \/ py_in entry l = true.

Lemma add_new_distinct intent entry : distinct intent -> distinct (add_new intent entry).
Proof. intros Hd. unfold add_new. destruct (py_in entry intent) eqn:E; [done|]. by apply distinct_snoc. Qed.

Lemma add_new_kept intent entries :
  distinct intent ->
  distinct (foldl add_new intent entries) /\
  (exists more, foldl add_new intent entries = intent ++ more) /\
  (forall e, e ∈ entries -> kept e (foldl add_new intent entries)).
Proof.
  revert intent; induction entries as [|e entries IH]; intros intent Hd; cbn [foldl].
  { split_and!; [done|exists []; by rewrite app_nil_r|]. by intros e ?%elem_of_nil. }
  destruct (IH (add_new intent e) (add_new_distinct _ _ Hd)) as (H1 & [more Hm] & H3).
  assert (exists more', add_new intent e = intent ++ more' /\ kept e (intent ++ more')) as (more' & Ha & Hk).
  { unfold add_new. destruct (py_in e intent) eqn:E.
    - exists []. rewrite app_nil_r. split; [done|by right].
    - exists [e]. split; [done|left]. apply elem_of_app. right. by left. }
  split_and!; [done|exists (more' ++ more); by rewrite Hm, Ha, <-(assoc_L (++))|].
  intros x [->|Hx]%elem_of_cons; [|by apply H3]. rewrite Hm, Ha.
  destruct Hk as [Hk|Hk]; [left; apply elem_of_app; by left|right]. unfold py_in in *. by rewrite existsb_app, Hk.
Qed.

(** Validation keeps a first part without repetitions as it is. *)
Lemma validate_prefix ordinary size before a b out :
  validate_entries ordinary size before (a ++ b) = Ok out -> distinct (before ++ a) ->
  exists more, out = before ++ a ++ more.
Proof.
  revert ordinary size before; induction a as [|e a IH]; intros ordinary size before Hv Hd.
  - cbn [app] in *. clear Hd. revert ordinary size before Hv.
    induction b as [|e b IH]; intros ordinary size before; cbn [validate_entries].
    { intros [= <-]. exists []. by rewrite app_nil_r. }
    destruct (check_entry _ e); [|done]. cbn [mbind result_bind].
    destruct (Z.ltb _ _); [done|]. intros [more ->]%IH.
    destruct (py_in e before); [by eexists|]. exists (e :: more). by rewrite <-(assoc_L (++)).
  - cbn [app validate_entries] in Hv. destruct (check_entry _ e); [|done]. cbn [mbind result_bind] in Hv.
    destruct (Z.ltb _ _); [done|].
    assert (py_in e before = false) as Hn.
    { specialize (Hd (length before) e). rewrite take_app_length in Hd. apply Hd.
      by rewrite lookup_app_r, Nat.sub_diag by lia. }
    rewrite Hn in Hv. apply IH in Hv as [more ->]; [|by rewrite <-(assoc_L (++))].
    exists more. by rewrite <-!(assoc_L (++)).
Qed.

Lemma with_provisional_prefix uncertain result intent :
  exists more, with_provisional uncertain result intent = intent ++ more.
Proof.
  unfold with_provisional. destruct (uncertain && _); [|exists []; by rewrite app_nil_r].
  destruct (snd _) as [|i l]; [exists []; by rewrite app_nil_r|by eexists].
Qed.
End unverifiable.

Section carried.
Context `{PyHost}.

(** The failure report before the outbox is added. *)
Definition unverified_failure (state_path : pystr) (now : Z) (result heartbeat : json) (cause : pystr) : json :=
  set_fields (watcher_failure_report (default now (timestamp (get result "checked_at_utc"))) (Exn ValueError cause))
    ((lit "issues", JList (unverifiable_issue state_path cause :: confirmed_issues result heartbeat))
     :: (lit "observation_status", get result "status")
     :: match confirmed_issues result heartbeat with
        | [] => [] | _ => [(lit "status", JStr (lit "ALARM"))] end).

Lemma unverified_fields state_path now result heartbeat cause :
  exists d, unverified_failure state_path now result heartbeat cause = JObj d /\
    dget d "issues" = Some (JList (unverifiable_issue state_path cause :: confirmed_issues result heartbeat)) /\
    dget d "status" = Some (JStr (match confirmed_issues result heartbeat with
      | [] => lit "MONITOR_DATA_FAILURE" | _ => lit "ALARM" end)) /\
    dget d "pending_transitions" = None /\ dget d "pending_surge_overflow" = None.
Proof.
  unfold unverified_failure, watcher_failure_report.
  destruct (confirmed_issues result heartbeat); eexists; split; [reflexivity| |reflexivity|];
    split_and!; reflexivity.
Qed.

Lemma get_beside_outbox d l n :
  dget (outbox_fields l) n = None -> get (set_fields (JObj d) (outbox_fields l)) n = get (JObj d) n.
Proof.
  intros Hn. unfold get, set_fields. rewrite (dget_set_all d (outbox_fields l)) by apply outbox_nodup.
  by rewrite Hn.
Qed.

Lemma recorded_report state_path now result heartbeat cause uncertain report :
  record_unverifiable_prior_state state_path now result heartbeat cause uncertain = Ok report ->
  let intent := with_provisional uncertain result (durable_intent heartbeat result) in
  let failure := unverified_failure state_path now result heartbeat cause in
  get report "issues" = get failure "issues" /\ get report "status" = get failure "status" /\
  exists queue, pending_transition_entries report = Ok queue /\
    exists more, queue = durable_intent heartbeat result ++ more.
Proof.
  intros Hr. cbn zeta. unfold record_unverifiable_prior_state in Hr.
  fold (unverified_failure state_path now result heartbeat cause) in Hr. cbn zeta in Hr.
  destruct (unverified_fields state_path now result heartbeat cause) as (d & Hf & _ & _ & Hp & Ho).
  rewrite Hf in Hr |- *.
  destruct (with_provisional_prefix uncertain result (durable_intent heartbeat result)) as [more Hw].
  rewrite Hw in Hr.
  destruct (add_new_kept [] (readable_entries heartbeat ++ readable_entries result)) as (Hd & _ & _);
    [by intros i e ?|]. fold (durable_intent heartbeat result) in Hd.
  destruct (durable_intent heartbeat result ++ more) as [|e l] eqn:El.
  - injection Hr as <-. apply app_nil in El as [-> _]. split_and!; [done..|].
    exists []. split; [|by exists []]. unfold pending_transition_entries, list_field. by rewrite Hp, Ho.
  - apply bind_ok in Hr as (queue & Hq & Hr). rewrite <-El in *.
    assert (report = set_fields (JObj d) (outbox_fields (durable_intent heartbeat result ++ more))) as ->
      by congruence. clear Hr.
    split_and!; [apply get_beside_outbox; unfold outbox_fields; by destruct (drop OUTBOX_SURGE_LIMIT _)..|].
    exists queue. split; [by rewrite pending_set_fields|].
    rewrite (entries_of_fields _ (durable_intent heartbeat result ++ more)) in Hq
      by (by destruct (outbox_lookup (durable_intent heartbeat result ++ more))).
    by apply validate_prefix in Hq.
Qed.

End carried.

(** ** Witnesses *)

#[local] Existing Instance clock_host.

Definition demo_issue (code : string) : json :=
  JObj [(lit "code", JStr (lit code)); (lit "severity", JStr (lit "P1"))].
Definition demo_payload (event status : string) (issues : list json) : json :=
  JObj [(lit "event", JStr (lit event)); (lit "status", JStr (lit status));
        (lit "checked_at_utc", JStr (iso 0)); (lit "issues", JList issues)].
Definition demo_entry : json := new_entry (lit "ALARM") (demo_payload "ALARM" "ALARM" [demo_issue "down"]).
Definition demo_recovery : json := new_entry (lit "RECOVERY") (demo_payload "RECOVERY" "HEALTHY" []).
Definition demo_snapshot : json := JObj [(lit "pending_transitions", JList [demo_entry; demo_recovery; demo_entry])].

Lemma demo_pending : pending_transition_entries demo_snapshot = Ok [demo_entry; demo_recovery].
Proof. vm_compute. reflexivity. Qed.

Lemma pending_entries_typed_witness :
  pending_transition_entries demo_snapshot = Ok [demo_entry; demo_recovery] /\
  Forall transition [demo_entry; demo_recovery].
Proof.
  split; [apply demo_pending|].
  exact (proj1 (pending_entries_typed demo_snapshot [demo_entry; demo_recovery] demo_pending)).
Defined.

Lemma outbox_roundtrip_witness :
  pending_transition_entries (set_fields (JObj [(lit "pending_transitions", JList []); (lit "status", JNull)])
    (outbox_fields [demo_entry; demo_recovery])) = Ok [demo_entry; demo_recovery].
Proof. apply (outbox_roundtrip demo_snapshot); [apply demo_pending|reflexivity]. Defined.

Lemma admitted_room_witness :
  pending_transition_entries (JObj (outbox_fields ([demo_entry; demo_recovery] ++
    [new_entry (lit "ALARM") (demo_payload "ALARM" "ALARM" [demo_issue "stale"])]))) =
  Ok ([demo_entry; demo_recovery] ++ [new_entry (lit "ALARM") (demo_payload "ALARM" "ALARM" [demo_issue "stale"])]).
Proof.
  apply (admitted_room Corrupt (Snapshot demo_snapshot) (Snapshot demo_snapshot) demo_snapshot);
    [vm_compute; reflexivity|by right|done|apply demo_pending|vm_compute; reflexivity|vm_compute; reflexivity].
Defined.

Definition demo_result : json := demo_payload "ALARM" "ALARM" [demo_issue "stale"].
Definition demo_heartbeat : json :=
  JObj [(lit "issues", JList [demo_issue "down"]);
        (lit "retained_prior_p1", JList [JList [JStr (lit "old"); JStr (lit "gone")]]);
        (lit "pending_transitions", JList [demo_entry; demo_recovery; demo_entry])].

