(* ===== verification/WatchRecord.v ===== *)
(** * The independent production watcher: recording a cycle

    scripts/ops/independent_production_watch.py: [record] turns one observation into durable incident
    state.  The store holds the two snapshots, the journal and the report being recorded, which the
    code mutates in place; every read, write and sync is a call under the script of faults.  The
    phases of [record] follow each other as in the source, an early [return] ending the rest:
    reading the prior state (or rebuilding a lost one), the pending queue, the provisional P1 of
    unreadable cycles, recovery epochs, the assessment of the observation, and the writes.
    [persist_cycle] and [run_cycle] are the fallback around it and the cron entry point. *)

From S2P Require Import Prelude PyStr Effects Json JsonText Sha256 Dispatch Watch WatchJournal WatchOutbox.
Open Scope Z_scope.

(** ** The store *)

(** What reading a file gives: an exception, no file, or a value. *)
Abbreviation content := (result exn (option json)).

(** A journal that does not exist is an empty one. *)
Record store : Type := Store {
  st_state : content;
  st_heartbeat : content;
  st_events : journal;
  st_report : json;
}.
#[export] Program Instance store_faulty : Faulty store := {|
  faults s := jf_faults (st_events s);
  with_faults s fs :=
    Store (st_state s) (st_heartbeat s) (with_faults (st_events s) fs) (st_report s);
|}.
Solve Obligations with by intros [? ? [] ?].

Definition read_state : eff store (option json) := call (fun s => (st_state s, s)).
Definition read_heartbeat : eff store (option json) := call (fun s => (st_heartbeat s, s)).
Definition read_events : eff store bytes := call (fun s => (Ok (jf_bytes (st_events s)), s)).
Definition report_now : eff store json := fun s => (Ok (st_report s), s).
Definition put_report (report : json) : eff store unit := fun s =>
  (Ok tt, Store (st_state s) (st_heartbeat s) (st_events s) report).

(** [write_json]: the new file replaces the old one at once; read back, its keys are sorted. *)
Definition write_state (value : json) : eff store unit := call (fun s =>
  (Ok tt, Store (Ok (Some (norm value))) (st_heartbeat s) (st_events s) (st_report s))).
Definition write_heartbeat (value : json) : eff store unit := call (fun s =>
  (Ok tt, Store (st_state s) (Ok (Some (norm value))) (st_events s) (st_report s))).

Definition on_events {A} (m : eff journal A) : eff store A := fun s =>
  let '(r, j) := m (st_events s) in (r, Store (st_state s) (st_heartbeat s) j (st_report s)).
(** Without [committed_event_names]. *)
Definition uncommitted (m : eff journal unit) : eff journal unit := fun j =>
  let '(r, j') := m j in (r, Journal (jf_bytes j') (jf_committed j) (jf_writes j') (jf_faults j')).

(** The outcome of a computation as a value. *)
Definition attempt {A} (m : eff store A) : eff store (result exn A) := fun s =>
  let '(r, s') := m s in (Ok r, s').

(** A phase of [record] ends it ([inl]) or goes on with a value. *)
Abbreviation stage A := (eff store (option pystr + A)).
Definition leave {A} (event : option pystr) : stage A := mret (inl event).
Definition next {A} (a : A) : stage A := mret (inr a).
Definition stage_bind {A B} (m : stage A) (k : A -> stage B) : stage B :=
  r ← m; match r with inl event => leave event | inr a => k a end.
Notation "x <~ m ; k" := (stage_bind m (fun x => k))
  (at level 20, m at level 100, k at level 200, only parsing) : py_scope.
Notation "' x <~ m ; k" := (stage_bind m (fun x => k))
  (at level 20, x pattern, m at level 100, k at level 200, only parsing) : py_scope.

Definition caught (classes : list exc_class) (e : exn) : bool := existsb (issubclass (exn_class e)) classes.
Definition class_text (e : exn) : pystr := lit (exc_name (exn_class e)).

(** ** Values *)

Section values.
Context `{PyHost}.

Definition field_is (v : json) (key value : string) : bool := py_eq (get v key) (JStr (lit value)).
Definition field_in (v : json) (key : string) (values : list string) : bool :=
  existsb (fun value => field_is v key value) values.
Definition is_event (event : string) (entry : json) : bool := field_is entry "event" event.
Definition known_before (a b : option Z) : bool :=
  match a, b with Some x, Some y => x <? y | _, _ => false end.
Definition subset_str (a b : list pystr) : bool := forallb (fun c => str_in c b) a.
Definition intersects (a b : list pystr) : bool := existsb (fun c => str_in c b) a.
Definition repeats (l : list pystr) : bool := negb (bool_decide (NoDup l)).

(** An incident as the state keeps it: [[code, actual]]. *)
Definition episode : Type := pystr * pystr.
Definition episode_json (e : episode) : json := JList [JStr (fst e); JStr (snd e)].
Definition episode_of (v : json) : option episode :=
  match v with JList [JStr code; JStr actual] => Some (code, actual) | _ => None end.
Definition episode_eqb (a b : episode) : bool := str_eqb (fst a) (fst b) && str_eqb (snd a) (snd b).
Definition episode_leb (a b : episode) : bool :=
  if str_eqb (fst a) (fst b) then str_leb (snd a) (snd b) else str_leb (fst a) (fst b).
Definition sort_episodes : list episode -> list episode := sort_by episode_leb.
Definition codes_of (l : list episode) : list pystr := fst <$> l.

(** [str(item.get("actual", ""))[:160]] *)
Definition actual_text (item : json) : pystr :=
  take 160 (to_str (match item with JObj d => default (JStr []) (dget d "actual") | _ => JStr [] end)).
(** [isinstance(item, dict) and item.get("severity") == "P1" and isinstance(item.get("code"), str)] *)
Definition p1_code (item : json) : option pystr :=
  if is_p1 item then match get item "code" with JStr code => Some code | _ => None end else None.
Definition p1_codes (items : list json) : list pystr := omap p1_code items.

Definition P1_UNVERIFIABLE_ON : dict (list pystr) :=
  [(lit "frontend_cache", [lit "unavailable_frontend"; lit "invalid_commit_frontend"]);
   (lit "invalid_commit_frontend", [lit "unavailable_frontend"]);
   (lit "invalid_commit_api", [lit "unavailable_api"]);
   (lit "frontend_api_diverge", [lit "unavailable_frontend"; lit "unavailable_api";
      lit "invalid_commit_frontend"; lit "invalid_commit_api"]);
   (lit "stale_frontend", [lit "unavailable_frontend"; lit "unavailable_main";
      lit "invalid_commit_frontend"; lit "invalid_commit_main"]);
   (lit "stale_api", [lit "unavailable_api"; lit "unavailable_main";
      lit "invalid_commit_api"; lit "invalid_commit_main"])].
Definition unverifiable_on (code : pystr) : list pystr := default [] (dget P1_UNVERIFIABLE_ON code).

(** The state as [record] keeps it in memory. *)
Definition state_json (severe : list episode) (uncertain : list pystr) (main_observation checked : json)
    : dict json :=
  [(lit "severe", JList (episode_json <$> severe)); (lit "uncertain", JList (JStr <$> uncertain));
   (lit "main_observation", main_observation); (lit "checked_at_utc", checked)].
Definition rebuilt_state (severe : list episode) (heartbeat : json) : json :=
  JObj (state_json severe [] (get heartbeat "main_observation") (get heartbeat "checked_at_utc")).
End values.

(** ** The journal as evidence *)

Section recording.
Context `{PyHost} (loads : bytes -> result exn json) (state_path events_path : pystr).

Definition JOURNAL_LINE : nat := Z.to_nat 65536.

(** The lines of the journal in order; [last] is the latest transition so far. *)
Fixpoint last_transition (fuel : nat) (content : bytes) (last : option json) : result exn (option json) :=
  match fuel with
  | O => Ok last
  | S fuel' =>
      match readline (JOURNAL_LINE + 1) content with
      | ([], _) => Ok last
      | (line, rest) =>
          if (JOURNAL_LINE <? length line)%nat || negb (ends_line line) then
            raise ValueError "unverifiable journal line"
          else
            match loads line with
            | Ok (JObj _ as event) =>
                transition ← in_strings (get event "event") [lit "ALARM"; lit "RECOVERY"];
                last_transition fuel' rest (if transition : bool then Some event else last)
            | Ok _ => raise ValueError "invalid journal record"
            | Err e => Err e
            end
      end
  end.

Definition sync_events : eff store unit := on_events fsync ;; on_events fsync.

Definition last_journaled_transition : eff store (option json) :=
  content ← read_events;
  last ← pure (last_transition (S (length content)) content None);
  sync_events ;;
  mret last.

(** Bytes seen in the journal are synced before they count. *)
Definition journaled (entry : json) : eff store bool :=
  content ← read_events;
  if transition_already_journaled (Some content) entry then sync_events ;; mret true else mret false.

(** ** A lost state *)

Fixpoint distinct_p1 (seen : list pystr) (items : list json) : option (list episode) :=
  match items with
  | [] => Some []
  | item :: items' =>
      if is_p1 item then
        match coded item with
        | Some code =>
            if str_in code seen then None
            else cons (code, actual_text item) <$> distinct_p1 (code :: seen) items'
        | None => None
        end
      else distinct_p1 seen items'
  end.

Definition ADMISSIBLE_P2 : list pystr :=
  [lit "unavailable_frontend"; lit "unavailable_api"; lit "unavailable_main"; lit "invalid_commit_main";
   lit "main_time_unreliable"; lit "schedule_deadline_exceeded"; lit "event_log_write_failed"].

Fixpoint admissible_codes (items : list json) : option (list pystr) :=
  match items with
  | [] => Some []
  | item :: items' =>
      if negb (is_dict item) || field_is item "severity" "P1" then None
      else if field_is item "severity" "P2" then
        match get item "code" with
        | JStr code => if str_in code ADMISSIBLE_P2 then cons code <$> admissible_codes items' else None
        | _ => None
        end
      else if field_is item "severity" "INFO" then admissible_codes items'
      else None
  end.

(** An observation that cannot vouch for the end of the old incidents. *)
Definition masks (old_codes : list pystr) (observed : json) : bool :=
  match get observed "issues" with
  | JList items =>
      match admissible_codes items with
      | Some p2 => existsb (fun code => intersects (unverifiable_on code) p2) old_codes
      | None => true
      end
  | _ => true
  end.

Definition recovered_state (heartbeat result recovery journal : json) : option json :=
  let journal_at := timestamp (get journal "checked_at_utc") in
  let recovery_at := timestamp (get recovery "checked_at_utc") in
  let heartbeat_at := timestamp (get heartbeat "checked_at_utc") in
  let observed_at := timestamp (get result "checked_at_utc") in
  if negb (known_before journal_at recovery_at && le_known recovery_at heartbeat_at
           && le_known heartbeat_at observed_at) then None
  else
    match get journal "issues" with
    | JList old_issues =>
        match distinct_p1 [] old_issues with
        | Some ((_ :: _) as severe) =>
            if existsb (masks (codes_of severe)) [recovery; result] then None
            else Some (rebuilt_state (sort_episodes severe) heartbeat)
        | _ => None
        end
    | _ => None
    end.

Definition verified_lost_state_recovery (heartbeat : json) : eff store (option json) :=
  result ← report_now;
  if negb (is_dict heartbeat) || negb (field_in result "status" ["HEALTHY"; "MONITOR_DATA_FAILURE"])
  then mret None
  else
    entries ← pure (pending_transition_entries heartbeat);
    match entries with
    | [entry] =>
        let recovery := get entry "payload" in
        if negb (is_event "RECOVERY" entry)
           || negb (field_in recovery "status" ["HEALTHY"; "MONITOR_DATA_FAILURE"]) then mret None
        else
          last ← last_journaled_transition;
          match last with
          | Some journal =>
              if is_event "ALARM" journal && field_is journal "status" "ALARM" then
                mret (recovered_state heartbeat result recovery journal)
              else mret None
          | None => mret None
          end
    | _ => mret None
    end.

(** [_record_unverifiable_prior_state] replaces the report and is what the heartbeat becomes. *)
Definition unverifiable {A} (now : Z) (heartbeat : json) (cause : pystr) (uncertain : bool) : stage A :=
  result ← report_now;
  failure ← pure (record_unverifiable_prior_state state_path now result heartbeat cause uncertain);
  put_report failure ;;
  write_heartbeat failure ;;
  leave (Some (lit "MONITOR_DATA_FAILURE")).

(** [try: m  except classes as exc: return _record_unverifiable_prior_state(...)] *)
Definition or_unverifiable {A} (now : Z) (heartbeat : json) (classes : list exc_class) (cause : pystr)
    (m : eff store A) : stage A :=
  r ← attempt m;
  match r with
  | Ok a => next a
  | Err e =>
      if caught classes e then unverifiable now heartbeat (cause ++ class_text e) false else pure (Err e)
  end.

(** *** Rebuilding a lost state from a reconfirmed alarm *)

Definition put_all {V} (d fields : dict V) : dict V :=
  foldl (fun d kv => dset d (fst kv) (snd kv)) d fields.
(** Code to detail of the P1 in a list of issues; a later one replaces an earlier one. *)
Definition shown_actuals (items : list json) : dict pystr :=
  foldl (fun d item => match p1_code item with
                       | Some code => dset d code (actual_text item)
                       | None => d
                       end) [] items.
Definition prior_actuals (heartbeat : json) : dict pystr :=
  let shown := shown_actuals (issues_of heartbeat) in
  put_all shown
    (foldl (fun d item => match episode_of item with
                          | Some (code, actual) =>
                              if dmem shown code then d else dset d code (take 160 actual)
                          | None => d
                          end) [] (list_of (get heartbeat "retained_prior_p1"))).

Definition prior_alarm (heartbeat : json) : bool :=
  field_is heartbeat "status" "ALARM" || truthy (get heartbeat "retained_prior_p1")
  || truthy (get heartbeat "pending_transitions") || existsb is_p1 (issues_of heartbeat).

Definition pending_alarm_codes (pending : list json) : list json :=
  match pending with
  | [entry] =>
      if is_event "ALARM" entry then
        (fun item => get item "code") <$> List.filter is_p1 (issues_of (get entry "payload"))
      else []
  | _ => []
  end.

Definition journal_precedes_pending (journal : option json) (pending : list json) : bool :=
  match journal, pending with
  | None, _ => true
  | Some last, [entry] =>
      let payload := get entry "payload" in
      (py_eq last payload && is_event "ALARM" last)
      || (is_event "RECOVERY" last
          && known_before (timestamp (get last "checked_at_utc")) (timestamp (get payload "checked_at_utc")))
  | Some _, _ => false
  end.

Definition nonempty_str (v : json) : bool := match v with JStr (_ :: _) => true | _ => false end.
Definition str_of (v : json) : option pystr := match v with JStr s => Some s | _ => None end.

Definition pending_replay (heartbeat : json) (journal : option json) (pending : list json)
    (actuals : dict pystr) : bool :=
  let codes := pending_alarm_codes pending in
  let names := omap str_of codes in
  journal_precedes_pending journal pending && (length pending =? 1)%nat
  && field_is heartbeat "status" "ALARM" && negb (length codes =? 0)%nat
  && forallb nonempty_str codes && negb (repeats names)
  && subset_str names (dkeys actuals) && subset_str (dkeys actuals) names.

(** The P1 of the last journaled ALARM, [None] when its issues are malformed. *)
Definition journaled_codes (journal : option json) : option (list pystr) :=
  match journal with
  | Some last =>
      if is_event "ALARM" last then
        match get last "issues" with
        | JList items =>
            Some (p1_codes items
                  ++ omap (fun item => match item with JList [JStr code; _] => Some code | _ => None end)
                       (list_of (get last "retained_prior_p1")))
        | _ => None
        end
      else Some []
  | None => Some []
  end.

Definition lift {A} (m : eff store A) : stage A := a ← m; next a.

Definition reconfirmed_state (now : Z) (heartbeat : json) : stage (json * bool) :=
  let actuals := prior_actuals heartbeat in
  let abandon cause := unverifiable now heartbeat cause false in
  '(pending, journal) <~ or_unverifiable now heartbeat [OSError; ValueError; TypeError]
      (lit "cannot validate lost-state journal: ")
      (pending ← pure (pending_transition_entries heartbeat);
       journal ← last_journaled_transition;
       mret (pending, journal));
  result <~ lift report_now;
  let confirmed_now := shown_actuals (issues_of result) in
  let replay := pending_replay heartbeat journal pending actuals in
  if (length actuals =? 0)%nat || negb (subset_str (dkeys actuals) (dkeys confirmed_now))
     || (negb (length pending =? 0)%nat && negb replay)
  then abandon "state.json missing while heartbeat retains incident evidence"
  else
    match journaled_codes journal with
    | None => abandon "last ALARM journal payload malformed"
    | Some codes =>
        if subset_str (dkeys actuals) codes || replay then
          let severe := (fun ca => (fst ca, default (snd ca) (dget confirmed_now (fst ca)))) <$> actuals in
          next (rebuilt_state (sort_episodes severe) heartbeat, false)
        else
          match journal with
          | Some last =>
              if is_event "RECOVERY" last then next (JObj [], true)
              else abandon "state.json missing and active journal disagrees with heartbeat"
          | None => next (JObj [], true)
          end
    end.

(** The prior state, and whether there is none. *)
Definition lost_state (now : Z) (heartbeat : json) : stage (json * bool) :=
  if is_dict heartbeat then
    recovery <~ or_unverifiable now heartbeat [OSError; ValueError; TypeError]
      (lit "cannot verify lost-state recovery: ") (verified_lost_state_recovery heartbeat);
    match recovery with
    | Some preimage => next (preimage, false)
    | None => if prior_alarm heartbeat then reconfirmed_state now heartbeat else next (JObj [], true)
    end
  else next (JObj [], true).

Definition prior_state (now : Z) (heartbeat : json) : stage (json * bool) :=
  r ← attempt read_state;
  match r with
  | Ok None => lost_state now heartbeat
  | Ok (Some (JObj _ as previous)) => next (previous, false)
  | Ok (Some _) => unverifiable now heartbeat "state root is not object" true
  | Err e =>
      if caught [OSError] e then
        unverifiable now heartbeat (lit "unreadable state JSON: " ++ class_text e) true
      else if caught [ValueError] e then
        unverifiable now heartbeat (lit "malformed state JSON: " ++ class_text e) true
      else pure (Err e)
  end.

(** ** The pending queue *)

(** [not serialized_poll and last is not None and (checked is None or checked < last)] *)
Definition outdated (serialized : bool) (report anchor : json) : bool :=
  let last := timestamp (get anchor "checked_at_utc") in
  let checked := timestamp (get report "checked_at_utc") in
  negb serialized && bool_decide (is_Some last)
  && match checked with None => true | Some _ => known_before checked last end.

Definition severe_of (no_prior : bool) (previous : json) : option (list episode) :=
  if no_prior then Some []
  else match get previous "severe" with JList items => mapM episode_of items | _ => None end.
Definition SCHEDULE_CODES : list pystr := [lit "schedule_stale"; lit "schedule_failed"; lit "no_schedule"].

(** The entries not yet in the journal. *)
Fixpoint unjournaled (entries : list json) : eff store (list json) :=
  match entries with
  | [] => mret []
  | entry :: entries' =>
      found ← journaled entry;
      rest ← unjournaled entries';
      mret (if found : bool then rest else entry :: rest)
  end.

Definition pending_queue (previous heartbeat : json) : eff store (list json) :=
  a ← pure (pending_transition_entries previous);
  b ← pure (pending_transition_entries heartbeat);
  unjournaled (foldl add_new [] (a ++ b)).

(** ** Provisional alarms of unreadable cycles *)

Definition is_provisional (entry : json) : bool :=
  is_event "ALARM" entry
  && match get (get entry "payload") "state_read_unverified" with JBool true => true | _ => false end.

Definition tentative_entries (previous heartbeat : json) (pending : list json) : list json :=
  foldl add_new []
    (List.filter (fun entry => is_provisional entry && py_in entry pending)
       (readable_entries previous ++ readable_entries heartbeat)).

(** The torn tail is repaired before the journal is read as evidence. *)
Definition repaired_journal : eff store (option json) :=
  content ← read_events;
  (if ends_line content then mret tt else on_events (append_durable_events [])) ;;
  last_journaled_transition.

(** [l.remove(x)] *)
Fixpoint remove_first (x : json) (l : list json) : list json :=
  match l with
  | [] => []
  | y :: l' => if py_eq y x then l' else y :: remove_first x l'
  end.

Definition coded_p1_codes (items : list json) : list pystr :=
  omap (fun item => if is_p1 item then coded item else None) items.
Definition add_episodes (severe : list episode) (items : list json) : list episode :=
  foldl (fun severe item =>
           match (if is_p1 item then coded item else None) with
           | Some code =>
               if str_in code (codes_of severe) then severe else severe ++ [(code, actual_text item)]
           | None => severe
           end) severe items.

(** A pending recovery behind position [i] that the state already knows of. *)
Definition followed_by_recovery (entries : list json) (i : nat) (at_time state_checked : option Z) : bool :=
  existsb (fun later =>
    let payload := get later "payload" in
    let later_at := timestamp (get payload "checked_at_utc") in
    is_event "RECOVERY" later && field_in payload "status" ["HEALTHY"; "MONITOR_DATA_FAILURE"]
    && is_list (get payload "issues") && negb (existsb is_p1 (issues_of payload))
    && known_before at_time later_at && le_known later_at state_checked)
    (drop (S i) entries).

Definition timeline : Type := list json * list episode.

(** One provisional alarm: dropped as known, kept in the queue, or taken as an older episode; an
    inconsistent one gives the cause. *)
Definition admit_tentative (checked state_checked : option Z) (state_entries : list json)
    (journal : option json) (journal_codes : list pystr) (acc : timeline) (entry : json)
    : Prelude.result pystr timeline :=
  let '(pending, severe) := acc in
  let payload := get entry "payload" in
  let at_time := timestamp (get payload "checked_at_utc") in
  let items := issues_of payload in
  let position := find_index (fun value => py_eq value entry) state_entries in
  let followed := match position with
                  | Some i => followed_by_recovery state_entries i at_time state_checked
                  | None => false
                  end in
  let codes := coded_p1_codes items in
  let reconciled := bool_decide (is_Some position) && negb (length codes =? 0)%nat
                    && (subset_str codes (codes_of severe) || followed) in
  if (length items =? 0)%nat || negb (field_is payload "status" "ALARM")
     || negb (le_known at_time checked) || (known_before at_time state_checked && negb reconciled)
     || match journal with
        | Some last => negb (le_known (timestamp (get last "checked_at_utc")) at_time)
        | None => false
        end
  then Err (lit "unverifiable transient P1 timeline")
  else if (length codes =? 0)%nat || repeats codes || negb (length codes =? length items)%nat
  then Err (lit "malformed transient P1 evidence")
  else if subset_str codes (codes_of severe) && subset_str codes journal_codes then
    Ok (remove_first entry pending, severe)
  else if followed then Ok (pending, severe)
  else Ok (pending, add_episodes severe items).

Definition reconcile_tentative (now : Z) (previous heartbeat : json) (pending : list json)
    (old_severe : list episode) : stage timeline :=
  match tentative_entries previous heartbeat pending with
  | [] => next (pending, old_severe)
  | tentative =>
      journal <~ or_unverifiable now heartbeat [OSError; ValueError; TypeError]
        (lit "cannot verify tentative P1 journal: ") repaired_journal;
      result <~ lift report_now;
      match match journal with
            | Some last =>
                if is_event "ALARM" last then
                  match get last "issues" with JList items => Some (p1_codes items) | _ => None end
                else Some []
            | None => Some []
            end with
      | None => unverifiable now heartbeat "tentative P1 conflicts with invalid ALARM journal" false
      | Some journal_codes =>
          match foldM (admit_tentative (timestamp (get result "checked_at_utc"))
                         (timestamp (get previous "checked_at_utc")) (readable_entries previous)
                         journal journal_codes) (pending, old_severe) tentative with
          | Ok (pending, severe) => next (pending, sort_episodes severe)
          | Err cause => unverifiable now heartbeat cause false
          end
      end
  end.

(** ** Recovery epochs and the surge of the last heartbeat *)

(** The heartbeat proves a recovery that the state does not: its old incidents are over. *)
Definition recovery_proved (result previous heartbeat : json) (pending : list json) : bool :=
  let state_pending := readable_entries previous in
  let heartbeat_time := timestamp (get heartbeat "checked_at_utc") in
  let state_time := timestamp (get previous "checked_at_utc") in
  match last (readable_entries heartbeat) with
  | Some recovery =>
      let payload := get recovery "payload" in
      let recovery_time := timestamp (get payload "checked_at_utc") in
      let retried_into_state :=
        py_in recovery state_pending && le_known recovery_time state_time
        && field_is result "status" "ALARM" && existsb is_p1 (issues_of result)
        && known_before recovery_time (timestamp (get result "checked_at_utc")) in
      let only_in_heartbeat :=
        negb (py_in recovery state_pending) && bool_decide (recovery_time = heartbeat_time) in
      is_event "RECOVERY" recovery && field_in result "status" ["ALARM"; "HEALTHY"]
      && field_in payload "status" ["HEALTHY"; "MONITOR_DATA_FAILURE"]
      && is_list (get payload "issues") && negb (existsb is_p1 (issues_of payload))
      && py_in recovery pending
      && match last pending with Some tail => py_eq tail recovery | None => false end
      && le_known state_time heartbeat_time && (only_in_heartbeat || retried_into_state)
  | None => false
  end.

(** The overflow ALARMs after its last RECOVERY are current. *)
Fixpoint until_recovery (entries : list json) : list json :=
  match entries with
  | [] => []
  | entry :: entries' => if is_event "RECOVERY" entry then [] else entry :: until_recovery entries'
  end.
Definition surge_episodes (heartbeat : json) (severe : list episode) : list episode :=
  foldl (fun severe entry => add_episodes severe (issues_of (get entry "payload"))) severe
    (until_recovery (rev (list_of (get heartbeat "pending_surge_overflow")))).

Definition prior_episodes (result previous heartbeat : json) (pending : list json)
    (severe : list episode) : list episode :=
  let severe := if is_dict heartbeat && recovery_proved result previous heartbeat pending
                then [] else severe in
  if is_dict heartbeat then sort_episodes (surge_episodes heartbeat severe) else severe.

(** ** The assessment of the observation *)

(** The codes of every report are strings. *)
Definition code_text (v : json) : Prelude.result exn pystr :=
  match v with JStr code => Ok code | _ => raise TypeError "code is not a string" end.
Definition issue_code (issue : json) : Prelude.result exn pystr := item issue "code" ≫= code_text.
(** [[f(x) for x in issues if x["severity"] == severity]] *)
Fixpoint with_severity {A} (severity : string) (f : json -> Prelude.result exn A) (issues : list json)
    : Prelude.result exn (list A) :=
  match issues with
  | [] => Ok []
  | x :: issues' =>
      found ← item x "severity";
      if py_eq found (JStr (lit severity)) then
        a ← f x; rest ← with_severity severity f issues'; Ok (a :: rest)
      else with_severity severity f issues'
  end.
Definition issue_episode (issue : json) : Prelude.result exn episode :=
  code ← issue_code issue;
  actual ← item issue "actual";
  Ok (code, take 160 (to_str actual)).
Definition detected_episodes (report : json) : Prelude.result exn (list episode) :=
  sort_episodes <$> with_severity "P1" issue_episode (issues_of report).
Fixpoint all_codes (issues : list json) : Prelude.result exn (list pystr) :=
  match issues with
  | [] => Ok []
  | x :: issues' => code ← issue_code x; rest ← all_codes issues'; Ok (code :: rest)
  end.

(** An old incident that this observation cannot clear. *)
Definition unclearable (report : json) (observed uncertain : list pystr) (code : pystr) : bool :=
  let commits := as_dict (get report "commits") in
  let name := default code (strip_prefix "stale_" code) in
  let still_stale :=
    str_in code [lit "stale_frontend"; lit "stale_api"]
    && match dget commits name, dget commits "main" with
       | Some c, Some main => negb (py_eq c main)
       | _, _ => false
       end in
  intersects (unverifiable_on code) observed || still_stale
  || (str_in code [lit "unavailable_frontend"; lit "unavailable_api"] && str_in code uncertain)
  || str_in "watcher_execution_failed" observed || str_in "unverifiable_state" observed.

Definition retain_old (report : json) (observed uncertain shown : list pystr) (severe : list episode)
    (old : episode) : list episode :=
  if str_in (fst old) shown then severe
  else if negb (existsb (episode_eqb old) severe) && unclearable report observed uncertain (fst old)
  then severe ++ [old] else severe.

Definition set_field (report : json) (key : string) (v : json) : json := set_fields report [(lit key, v)].
Definition episodes_json (l : list episode) : json := JList (episode_json <$> l).
Definition is_empty {A} (l : list A) : bool := match l with [] => true | _ => false end.

Record assessment : Type := Assessment {
  as_report : json;
  as_severe : list episode;
  as_uncertain : list pystr;
  as_observed : list pystr;
  as_transition : option pystr;
  as_uncertainty : bool;
}.

(** A cycle at capacity observes nothing: the old incidents stay. *)
Definition carry_over (at_capacity : bool) (report : json) (old_severe severe : list episode)
    : json * list episode :=
  if at_capacity then
    (if is_empty old_severe then report
     else set_fields report [(lit "retained_prior_p1", episodes_json old_severe);
            (lit "observation_status", get report "status"); (lit "status", JStr (lit "ALARM"))],
     old_severe)
  else (report, severe).

(** The report with its retained incidents. *)
Definition with_retained (report : json) (severe detected : list episode) : json :=
  let retained := List.filter (fun e => negb (existsb (episode_eqb e) detected)) severe in
  let report := if is_empty retained then report
                else set_fields report [(lit "observation_status", get report "status");
                       (lit "retained_prior_p1", episodes_json retained)] in
  if is_empty severe then report else set_field report "status" (JStr (lit "ALARM")).

Definition transition_of (old_severe severe : list episode) : option pystr :=
  if negb (subset_str (codes_of severe) (codes_of old_severe)) then Some (lit "ALARM")
  else if negb (is_empty old_severe) && is_empty severe then Some (lit "RECOVERY") else None.

Definition assess (suppressed : bool) (old_severe : list episode) (old_uncertain : list json)
    (report : json) : Prelude.result exn assessment :=
  detected ← detected_episodes report;
  uncertain ← sort_str <$> with_severity "P2" issue_code (issues_of report);
  observed ← all_codes (issues_of report);
  let '(report, severe) := carry_over (suppressed && str_in "watcher_outbox_at_capacity" observed)
                             report old_severe detected in
  let severe := sort_episodes
    (foldl (retain_old report observed uncertain (codes_of detected)) severe old_severe) in
  Ok {| as_report := with_retained report severe detected;
        as_severe := severe;
        as_uncertain := uncertain;
        as_observed := observed;
        as_transition := transition_of old_severe severe;
        as_uncertainty :=
          negb (is_empty uncertain) && negb (py_eq (JList (JStr <$> uncertain)) (JList old_uncertain)) |}.

(** ** Queueing and writing *)

Definition entry_with (event : pystr) (report : json) : json :=
  new_entry event (JObj (put_all [(lit "event", JStr event)]
                           (without_outbox report ++ [(lit "issue_url", JStr ISSUE_URL)]))).
(** The outbox already ends in a RECOVERY that no ALARM follows. *)
Definition recovery_waiting (pending : list json) : bool :=
  match find_index (is_event "RECOVERY") (rev pending) with
  | Some i => negb (existsb (is_event "ALARM") (take i (rev pending)))
  | None => false
  end.
Definition queue_transition (report : json) (transition : option pystr) (pending : list json) : list json :=
  match transition with
  | Some event =>
      if str_eqb event "RECOVERY" && recovery_waiting pending then pending
      else add_new pending (entry_with event report)
  | None => pending
  end.

(** A RECOVERY at the head of [pending] that must wait: [unknown] codes make the observation
    uncertain, [continuing] says that an old P1 is still active. *)
Definition replay_blocked (unknown continuing : bool) (entry : json) (later : list json) : bool :=
  is_event "RECOVERY" entry && (unknown || (continuing && negb (existsb (is_event "ALARM") later))).
(** The first entries of the queue that may be journaled, among the first [n]. *)
Fixpoint ready (unknown continuing : bool) (n : nat) (pending : list json) : list json :=
  match n, pending with
  | S n', entry :: later =>
      if replay_blocked unknown continuing entry later then []
      else entry :: ready unknown continuing n' later
  | _, _ => []
  end.

Definition ddel (d : dict json) (k : string) : dict json :=
  List.filter (fun kv => negb (str_eqb (fst kv) k)) d.
Definition del_field (report : json) (k : string) : json :=
  match report with JObj d => JObj (ddel d k) | _ => report end.
(** The report with the present queue. *)
Definition with_outbox (report : json) (pending : list json) : json :=
  let report := del_field report "pending_surge_overflow" in
  if is_empty pending then del_field report "pending_transitions"
  else set_fields report (outbox_fields pending).

Definition snapshot_json (report : json) (severe : list episode) (uncertain : list pystr) (checked : json)
    : json :=
  JObj (state_json severe uncertain (get report "main_observation") checked
        ++ omap (fun k => (fun v => (lit k, v)) <$> dget (as_dict report) k)
             ["pending_transitions"; "pending_surge_overflow"]%string).

Definition persist_snapshots (severe : list episode) (uncertain : list pystr) (pending : list json)
    (heartbeat_first : bool) : eff store unit :=
  report ← report_now;
  let report := with_outbox report pending in
  put_report report ;;
  checked ← pure (item report "checked_at_utc");
  (if heartbeat_first then write_heartbeat report else mret tt) ;;
  write_state (snapshot_json report severe uncertain checked) ;;
  (if heartbeat_first then mret tt else write_heartbeat report).

Definition pending_bytes (pending : list json) : Z := foldr Z.add 0 (entry_size <$> pending).

(** Before a queue past its normal limit takes more, its old part must go to the journal. *)
Definition drain (now : Z) (heartbeat : json) (a : assessment) (unknown continuing : bool)
    (pending : list json) (old_count : nat) : stage (list json * option pystr) :=
  if (OUTBOX_NORMAL_LIMIT <? length pending)%nat then
    _ <~ lift (persist_snapshots (as_severe a) (as_uncertain a) pending
                 (existsb (is_event "RECOVERY") pending));
    let ready_old := ready unknown continuing old_count pending in
    if (length ready_old <? length pending - OUTBOX_NORMAL_LIMIT)%nat then
      unverifiable now heartbeat "pending transition outbox at capacity with blocked recovery" false
    else
      _ <~ or_unverifiable now heartbeat [OSError] (lit "pending outbox drain failed: ")
        (on_events (uncommitted (append_durable_events ((fun e => get e "payload") <$> ready_old))));
      next (drop (length ready_old) pending, event_name <$> last ready_old)
  else next (pending, None).

Definition monitor_event (report : json) : json :=
  JObj (put_all [(lit "event", JStr (lit "MONITOR_DATA_FAILURE"))]
          (without_outbox report ++ [(lit "issue_url", JStr ISSUE_URL)])).

Definition append_failed_issue (e : exn) : json :=
  JObj [(lit "code", JStr (lit "event_log_write_failed"));
        (lit "component", JStr (lit "watcher event history")); (lit "actual", JStr (exn_text e));
        (lit "expected", JStr (lit "append and fsync local event history"));
        (lit "source", JStr events_path); (lit "severity", JStr (lit "P2"))].
Definition report_failed_append (a : assessment) (e : exn) (report : json) : json :=
  let report := set_field report "issues" (JList (issues_of report ++ [append_failed_issue e])) in
  if is_empty (as_severe a) then
    set_fields report [(lit "observation_status", get report "status");
                       (lit "status", JStr (lit "MONITOR_DATA_FAILURE"))]
  else report.
(** [sorted(set(uncertain) | {code})] *)
Definition add_code (code : pystr) (codes : list pystr) : list pystr :=
  sort_str (remove_dups (code :: codes)).

(** Journal what is ready: the queue left, the uncertain codes and whether the append failed. *)
Definition replay (a : assessment) (pending ready_pending : list json) (monitor : bool)
    : eff store (list json * list pystr * bool) :=
  report ← report_now;
  match ((fun e => get e "payload") <$> ready_pending) ++ (if monitor then [monitor_event report] else []) with
  | [] => mret (pending, as_uncertain a, false)
  | events =>
      appended ← attempt (on_events (append_durable_events events));
      match appended with
      | Ok _ =>
          mret (List.filter (fun entry => negb (py_in entry ready_pending)) pending, as_uncertain a, false)
      | Err e =>
          if caught [OSError] e then
            put_report (report_failed_append a e report) ;;
            mret (pending, add_code "event_log_write_failed" (as_uncertain a), true)
          else pure (Err e)
      end
  end.

(** The event to announce for what was replayed. *)
Definition replayed_event (previous heartbeat : json) (ready_pending : list json) : option pystr :=
  match List.filter (fun entry => negb (py_in entry (readable_entries previous))
                                  && negb (py_in entry (readable_entries heartbeat))) ready_pending with
  | entry :: _ => Some (event_name entry)
  | [] => event_name <$> head ready_pending
  end.

Definition first_event (a b : option pystr) : option pystr := match a with Some _ => a | None => b end.

(** ** [record] *)

Definition commit_phase (now : Z) (suppressed : bool) (previous heartbeat : json) (a : assessment)
    (old_severe : list episode) (old_pending : list json) : stage (option pystr) :=
  let unknown := intersects [lit "watcher_execution_failed"; lit "unverifiable_state"] (as_observed a) in
  let continuing := intersects (codes_of old_severe) (codes_of (as_severe a)) in
  let pending := queue_transition (as_report a)
                   (if suppressed then None else as_transition a) old_pending in
  if negb (is_empty pending) && (OUTBOX_MAX_BYTES <? pending_bytes pending) then
    unverifiable now heartbeat "pending transition storage exhausted: observer must stop" false
  else
    '(pending, drained) <~ drain now heartbeat a unknown continuing pending (length old_pending);
    let ready_pending := if suppressed then [] else ready unknown continuing (length pending) pending in
    let recovery_first := existsb (is_event "RECOVERY") ready_pending in
    _ <~ lift (if is_empty ready_pending then mret tt
               else persist_snapshots (as_severe a) (as_uncertain a) pending recovery_first);
    '(pending, uncertain, failed) <~ lift (replay a pending ready_pending (as_uncertainty a));
    _ <~ lift (if negb recovery_first || failed || negb (is_empty ready_pending)
               then persist_snapshots (as_severe a) uncertain pending false else mret tt);
    let new_event := first_event (as_transition a)
                       (if as_uncertainty a then Some (lit "MONITOR_DATA_FAILURE") else None) in
    next (first_event new_event
            (first_event (if failed then None else replayed_event previous heartbeat ready_pending) drained)).

(** A heartbeat that cannot be read counts as none. *)
Definition last_heartbeat : eff store json :=
  try_except [OSError; ValueError] (content ← read_heartbeat; mret (default JNull content))
    (fun _ => mret JNull).

Definition record_stages (now : Z) (serialized suppressed : bool) (heartbeat : json)
    : stage (option pystr) :=
  report <~ lift report_now;
  if is_dict heartbeat && outdated serialized report heartbeat then leave None
  else
    '(previous, no_prior) <~ prior_state now heartbeat;
    let report := merge_main_observation report previous in
    _ <~ lift (put_report report);
    match severe_of no_prior previous with
    | None => unverifiable now heartbeat "missing or malformed severe incident list" false
    | Some raw_severe =>
        if outdated serialized report previous then leave None
        else
          let old_severe :=
            sort_episodes (List.filter (fun e => negb (str_in (fst e) SCHEDULE_CODES)) raw_severe) in
          pending <~ or_unverifiable now heartbeat [OSError; ValueError; TypeError]
            (lit "invalid pending transition outbox: ") (pending_queue previous heartbeat);
          '(pending, old_severe) <~ reconcile_tentative now previous heartbeat pending old_severe;
          let old_severe := prior_episodes report previous heartbeat pending old_severe in
          a <~ lift (pure (assess suppressed old_severe (list_of (get previous "uncertain")) report));
          _ <~ lift (put_report (as_report a));
          commit_phase now suppressed previous heartbeat a old_severe pending
    end.

(** What [record] returns: the event to announce, if any. *)
Definition record (now : Z) (serialized suppressed : bool) : eff store (option pystr) :=
  heartbeat ← last_heartbeat;
  r ← record_stages now serialized suppressed heartbeat;
  match r with inl event => mret event | inr event => mret event end.

(** ** The fallback and the entry point *)

(** [clock n] is the [n]-th reading of the time in a cycle. *)
Definition is_healthy (report : json) : bool := field_is report "status" "HEALTHY".

Definition fallback_report (now : Z) (result : json) (e : exn) : json :=
  let failure := watcher_failure_report now e in
  let failure := match get result "main_observation" with
                 | JObj _ as completed => set_field failure "main_observation" completed
                 | _ => failure
                 end in
  match List.filter is_p1 (issues_of result) with
  | [] => failure
  | observed => set_fields failure
      [(lit "issues", JList (issues_of failure ++ observed)); (lit "status", JStr (lit "ALARM"))]
  end.

Definition committed : eff store (list pystr) := fun s => (Ok (jf_committed (st_events s)), s).
Definition forget_committed : eff store unit :=
  on_events (fun j => (Ok tt, Journal (jf_bytes j) [] (jf_writes j) (jf_faults j))).

(** The exit code of a cycle whose observation is the report of the store. *)
Definition persist_cycle (clock : nat -> Z) (suppressed : bool) : eff store Z :=
  forget_committed ;;
  recorded ← attempt (record (clock 1%nat) true suppressed);
  match recorded with
  | Ok _ => result ← report_now; mret (if is_healthy result then 0 else 2)
  | Err e =>
      if caught [WatchRuntimeExceeded; Exception] e then
        result ← report_now;
        put_report (fallback_report (clock 2%nat) result e) ;;
        names ← committed;
        try_except [WatchRuntimeExceeded; Exception]
          (record (clock 3%nat) true (intersects [lit "ALARM"; lit "RECOVERY"] names) ;; mret tt)
          (fun _ => mret tt) ;;
        mret 2
      else pure (Err e)
  end.

(** The readings of [_observation_admitted]. *)
Definition snapshot_of (read : content) : Prelude.result exn snapshot_file :=
  match read with
  | Ok None => Ok Missing
  | Ok (Some v) => Ok (Snapshot v)
  | Err e =>
      if caught [ValueError] e then Ok Corrupt
      else if caught [OSError] e then Ok Unreadable else Err e
  end.
Definition admitted : eff store bool :=
  state ← attempt read_state;
  file ← pure (snapshot_of state);
  if admits true file then
    heartbeat ← attempt read_heartbeat;
    file ← pure (snapshot_of heartbeat);
    mret (admits false file)
  else mret false.

Definition capacity_report (now : Z) : json :=
  let e := Exn ValueError (lit "durable watcher outbox at capacity or unverifiable") in
  let failure := watcher_failure_report now e in
  set_field failure "issues" (JList ((fun issue => set_fields issue
    [(lit "code", JStr (lit "watcher_outbox_at_capacity"));
     (lit "component", JStr (lit "watcher durable event queue"));
     (lit "expected", JStr (lit "journal drain frees admission headroom"));
     (lit "source", JStr state_path)]) <$> issues_of failure)).

(** The cron entry point, without [--dry-run]; [held] says that another poll holds the lock. *)
Definition run_cycle (clock : nat -> Z) (read : reader) (held : bool) : eff store Z :=
  if held then mret 2
  else
    admission ← admitted;
    (if admission : bool then
       state ← attempt read_state;
       put_report (evaluate_cycle state_path (clock 0%nat) read state)
     else put_report (capacity_report (clock 0%nat))) ;;
    persist_cycle clock (negb admission).
End recording.
