(* ===== verification/WatchRecordProofs.v ===== *)
(** * The independent production watcher: what recording a cycle guarantees

    The theorems about [WatchRecord].  The journal part of a store only grows by whole rows ([grow]);
    on top of that a small program logic ([meets]) carries an assertion about one pending transition
    through every call, refused or lost, of [record]. *)

From S2P Require Import Prelude PyStr Effects Json JsonText Sha256 Dispatch Watch WatchJournal WatchOutbox WatchRecord.
From stdpp Require Import relations.
Open Scope Z_scope.

(** ** Lemmas: rows of a journal text *)

Section row.
Context `{PyHost}.

Lemma ends_line_snoc (p : list N) : ends_line (p ++ [10%N]) = true.
Proof. apply ends_line_app. right. by eexists. Qed.

(** A prefix that ends a line lies in the complete part. *)
Lemma prefix_whole (a b : list N) : ends_line a = true -> exists b', whole (a ++ b) = a ++ b'.
Proof.
  intros Ha. destruct (complete_end_spec (a ++ b)) as (Hle & He & Hd).
  destruct (Nat.le_gt_cases (length a) (complete_end (a ++ b))) as [Hl|Hl].
  - exists (take (complete_end (a ++ b) - length a) b). unfold whole. by rewrite take_app_ge.
  - exfalso. apply ends_line_app in Ha as [->|[l ->]]; [cbn in Hl; lia|].
    rewrite length_app in Hl. cbn [length] in Hl. rewrite Forall_lookup in Hd.
    apply (Hd (length l - complete_end ((l ++ [10%N]) ++ b))%nat 10%N); [|done].
    rewrite lookup_drop. replace (complete_end _ + _)%nat with (length l) by lia.
    rewrite lookup_app_l by (rewrite length_app; cbn [length]; lia). by apply list_lookup_middle.
Qed.

Lemma ends_line_row before event : ends_line before = true -> ends_line (before ++ journal_line event) = true.
Proof. intros _. unfold journal_line. rewrite (assoc_L (++)). apply ends_line_snoc. Qed.

Lemma in_row_whole entry raw : in_row entry (whole raw) <-> in_row entry raw.
Proof.
  split; intros (a & b & Hr & Ha).
  - exists a, (b ++ drop (complete_end raw) raw). split; [|done].
    rewrite <-(take_drop (complete_end raw) raw) at 1. fold (whole raw). rewrite Hr. by rewrite <-!(assoc_L (++)).
  - destruct (prefix_whole (a ++ journal_line (get entry "payload")) b) as [b' Hb]; [by apply ends_line_row|].
    exists a, b'. split; [|done]. rewrite Hr. by rewrite (assoc_L (++)), Hb, <-(assoc_L (++)).
Qed.

Lemma in_row_app entry raw more : in_row entry raw -> in_row entry (raw ++ more).
Proof. intros (a & b & -> & Ha). exists a, (b ++ more). by rewrite <-!(assoc_L (++)). Qed.

Lemma in_row_appended entry entries raw :
  entry ∈ entries -> in_row entry (whole raw ++ concat (journal_line <$> ((fun e => get e "payload") <$> entries))).
Proof.
  intros (i & Hi)%list_elem_of_lookup. rewrite <-(take_drop_middle entries i entry Hi).
  rewrite !fmap_app, !fmap_cons, concat_app. cbn [concat].
  eexists (whole raw ++ concat (journal_line <$> _)), _. split; [by rewrite <-!(assoc_L (++))|].
  apply ends_line_join; [apply whole_ends|apply lines_end].
Qed.
End row.

(** ** Growth: what happens between two writes *)

Section growth.
Context `{PyHost}.

Definition events_of (s : store) : bytes := jf_bytes (st_events s).

(** The snapshots stay, the journal gains whole rows. *)
Definition grow (s s' : store) : Prop :=
  st_state s' = st_state s /\ st_heartbeat s' = st_heartbeat s /\
  exists rows, whole (events_of s') = whole (events_of s) ++ concat (journal_line <$> rows).

#[export] Instance grow_preorder : PreOrder grow.
Proof.
  split.
  - intros s. split_and!; [done..|]. exists []. by rewrite app_nil_r.
  - intros s1 s2 s3 (H1 & H2 & r1 & H3) (H4 & H5 & r2 & H6). split_and!; [congruence..|].
    exists (r1 ++ r2). by rewrite H6, H3, fmap_app, concat_app, (assoc_L (++)).
Qed.

Lemma grow_quiet s s' :
  st_state s' = st_state s -> st_heartbeat s' = st_heartbeat s -> events_of s' = events_of s -> grow s s'.
Proof. intros H1 H2 H3. split_and!; [done..|]. exists []. by rewrite H3, app_nil_r. Qed.

Lemma grow_row s s' entry : grow s s' -> in_row entry (events_of s) -> in_row entry (events_of s').
Proof. intros (_ & _ & rows & Hr). rewrite <-!(in_row_whole entry (events_of _)), Hr. apply in_row_app. Qed.

Definition grows {A} (m : eff store A) : Prop := forall s, grow s (snd (m s)).

Lemma grows_pure {A} (r : result exn A) : grows (pure r).
Proof. by intros s. Qed.
Lemma grows_ret {A} (a : A) : grows (mret a).
Proof. by intros s. Qed.
Lemma grows_bind {A B} (m : eff store A) (f : A -> eff store B) :
  grows m -> (forall a, grows (f a)) -> grows (m ≫= f).
Proof.
  intros Hm Hf s. unfold mbind, eff_bind. specialize (Hm s). destruct (m s) as [[a|e] s1]; [|done].
  etrans; [exact Hm|apply Hf].
Qed.
Lemma grows_attempt {A} (m : eff store A) : grows m -> grows (attempt m).
Proof. intros Hm s. specialize (Hm s). unfold attempt. by destruct (m s). Qed.
Lemma grow_faults s fs : grow s (with_faults s fs).
Proof. by apply grow_quiet. Qed.
Lemma grows_call {A} (m : eff store A) : grows m -> grows (call m).
Proof.
  intros Hm s. unfold call. destruct (faults s) as [|[]fs]; [apply Hm|..];
    (etrans; [apply (grow_faults s fs)|]); [apply Hm|done|apply Hm].
Qed.
Lemma grows_report : grows report_now.
Proof. by intros s. Qed.
Lemma grows_put report : grows (put_report report).
Proof. intros s. by apply grow_quiet. Qed.
Lemma grows_read_state : grows read_state.
Proof. apply grows_call. by intros s. Qed.
Lemma grows_read_heartbeat : grows read_heartbeat.
Proof. apply grows_call. by intros s. Qed.
Lemma grows_read_events : grows read_events.
Proof. apply grows_call. by intros s. Qed.

Lemma grows_events {A} (m : eff journal A) :
  (forall j, exists rows, whole (jf_bytes (snd (m j))) = whole (jf_bytes j) ++ concat (journal_line <$> rows)) ->
  grows (on_events m).
Proof.
  intros Hm s. specialize (Hm (st_events s)). unfold on_events. destruct (m (st_events s)) as [r j].
  by split_and!.
Qed.
Lemma fsync_bytes j : jf_bytes (snd (fsync j)) = jf_bytes j.
Proof. by destruct (fsync_cases j) as (r & fs & ->). Qed.
Lemma grows_sync : grows sync_events.
Proof.
  apply grows_bind; [|intros _]; (apply grows_events; intros j; exists []; by rewrite fsync_bytes, app_nil_r).
Qed.
Lemma grows_append events : grows (on_events (append_durable_events events)).
Proof.
  apply grows_events. intros j. pose proof (append_grows events j) as Ha.
  destruct (append_durable_events events j) as [r j']. destruct Ha as ([k Hk] & _). by eexists.
Qed.
Lemma grows_uncommitted events : grows (on_events (uncommitted (append_durable_events events))).
Proof.
  apply grows_events. intros j. unfold uncommitted. pose proof (append_grows events j) as Ha.
  destruct (append_durable_events events j) as [r j']. destruct Ha as ([k Hk] & _). by eexists.
Qed.
End growth.

Create HintDb grow discriminated.
#[export] Hint Resolve grows_pure grows_ret grows_report grows_put grows_read_state grows_read_heartbeat
  grows_read_events grows_sync grows_append grows_uncommitted grows_attempt : grow.

(** Walk through a computation that only grows the journal. *)
Ltac grows_step :=
  first [progress eauto 2 with grow | apply grows_bind; [|intros ?] | progress cbv beta
        | match goal with |- grows (match ?x with _ => _ end) => destruct x end].
Ltac grows := repeat grows_step.

Section evidence.
Context `{PyHost} (loads : bytes -> result exn json).

Lemma grows_last : grows (last_journaled_transition loads).
Proof. unfold last_journaled_transition. grows. Qed.
Lemma grows_journaled entry : grows (journaled entry).
Proof. unfold journaled. grows. Qed.
Lemma grows_unjournaled entries : grows (unjournaled entries).
Proof.
  induction entries as [|entry entries IH]; cbn [unjournaled]; [grows|].
  apply grows_bind; [apply grows_journaled|intros found]. grows.
Qed.
#[local] Hint Resolve grows_last grows_unjournaled : grow.
Lemma grows_recovery heartbeat : grows (verified_lost_state_recovery loads heartbeat).
Proof. unfold verified_lost_state_recovery. grows. Qed.
Lemma grows_queue previous heartbeat : grows (pending_queue previous heartbeat).
Proof. unfold pending_queue. grows. Qed.
Lemma grows_repaired : grows (repaired_journal loads).
Proof. unfold repaired_journal. grows. Qed.
End evidence.

(** ** What a snapshot holds once written *)

Lemma dget_insert {V} (kv : pystr * V) (d : dict V) k :
  dget (insert_by key_leb kv d) k = if str_eqb k (fst kv) then Some (snd kv) else dget d k.
Proof.
  destruct kv as [k0 v0]. cbn [fst snd]. induction d as [|[k1 v1] d IH]; [done|]. cbn [insert_by].
  unfold key_leb at 1. cbn [fst]. destruct (str_leb k0 k1) eqn:E; [done|]. cbn [dget]. rewrite IH.
  destruct (str_eqb_spec k k1) as [->|]; [|done]. destruct (str_eqb_spec k1 k0) as [->|]; [|done].
  by rewrite str_leb_refl in E.
Qed.
Lemma dget_sorted {V} (d : dict V) k : dget (sort_items d) k = dget d k.
Proof.
  induction d as [|[k0 v0] d IH]; [done|].
  change (sort_items ((k0, v0) :: d)) with (insert_by key_leb (k0, v0) (sort_items d)).
  by rewrite dget_insert, IH.
Qed.
Lemma dget_fmap {V W} (f : V -> W) (d : dict V) k :
  dget ((fun kv => (fst kv, f (snd kv))) <$> d) k = f <$> dget d k.
Proof.
  induction d as [|[k0 v0] d IH]; [done|]. cbn. destruct (str_eqb k k0); [done|exact IH].
Qed.
Lemma get_norm v k : get (norm v) k = norm (get v k).
Proof.
  destruct v as [| | | | | |d]; [done..|]. rewrite norm_obj. unfold get.
  rewrite dget_fmap, dget_sorted. by destruct (dget d k).
Qed.

Definition queue_items (v : json) : list json :=
  list_of (get v "pending_transitions") ++ list_of (get v "pending_surge_overflow").
Definition stored_queue (file : content) : list json :=
  match file with Ok (Some v) => queue_items v | _ => [] end.

Lemma queue_items_norm v : queue_items (norm v) = norm <$> queue_items v.
Proof.
  unfold queue_items. rewrite !get_norm, fmap_app.
  f_equal; match goal with |- context [get v ?k] => by destruct (get v k) end.
Qed.

(** The same transition later: read back from a snapshot, or equal as a Python value. *)
Definition same1 (a b : json) : Prop := b = norm a \/ py_eq a b = true.
Definition same : json -> json -> Prop := rtc same1.

Lemma same_eq a b : py_eq a b = true -> same a b.
Proof. intros E. apply rtc_once. by right. Qed.
Lemma same_norm a : same a (norm a).
Proof. apply rtc_once. by left. Qed.

(** ** What is read back from a snapshot *)

Section read_back.
Context `{PyHost}.

Lemma kept_same e l : kept e l -> exists e', same e e' /\ e' ∈ l.
Proof.
  intros [Hin|Hin]; [exists e; split; [apply rtc_refl|done]|].
  unfold py_in in Hin. apply existsb_exists in Hin as (e' & Hin & E). exists e'.
  split; [by apply same_eq|by apply list_elem_of_In].
Qed.

Lemma validate_sub ordinary size validated entries out :
  validate_entries ordinary size validated entries = Ok out ->
  forall e, e ∈ out -> e ∈ validated ++ entries.
Proof.
  revert ordinary size validated; induction entries as [|x entries IH]; intros ordinary size validated;
    cbn [validate_entries]; [intros [= <-]; by rewrite app_nil_r|].
  destruct (check_entry _ x); [|done]. cbn [mbind result_bind]. destruct (Z.ltb _ _); [done|].
  intros Hv e He. specialize (IH _ _ _ Hv e He). rewrite elem_of_app, elem_of_cons.
  apply elem_of_app in IH as [IH|IH]; [|auto]. destruct (py_in x validated); [auto|].
  apply elem_of_app in IH as [IH| ->%list_elem_of_singleton]; auto.
Qed.

Lemma list_field_items v k limit m l : list_field v k limit m = Ok l -> l = list_of (get v k).
Proof.
  unfold list_field, get. destruct v as [| | | | | |d]; try by intros [= <-].
  destruct (dget d k) as [[| | | | |x|]|]; try done; [|by intros [= <-]].
  destruct (match limit with Some _ => _ | None => _ end); [done|]. by intros [= <-].
Qed.

(** The validated queue and the raw one hold the same transitions. *)
Lemma pending_items v l :
  pending_transition_entries v = Ok l ->
  (forall e, e ∈ l -> e ∈ queue_items v) /\ (forall e, e ∈ queue_items v -> exists e', same e e' /\ e' ∈ l).
Proof.
  unfold pending_transition_entries, queue_items.
  destruct v as [| | | | | |d]; try (intros [= <-]; split; [done|]; by intros e ?%elem_of_nil).
  intros (ordinary & Ho & Hv)%bind_ok. apply bind_ok in Hv as (overflow & Hf & Hv).
  pose proof Ho as Hlen. apply list_field_items in Ho as ->, Hf as ->. split.
  - intros e He. by apply (validate_sub _ _ _ _ _ Hv).
  - intros e He. destruct (validate_ok _ _ _ _ _ Hv) as (new & -> & _ & _ & _ & _ & Hin);
      [by intros i x ?| |by apply kept_same, Hin].
    cbn [length]. unfold list_field in Hlen. unfold get.
    destruct (dget d "pending_transitions") as [[| | | | |o|]|]; try done; [|by left].
    right. destruct (Nat.ltb_spec OUTBOX_SURGE_LIMIT (length o)) as [|Hle]; [done|exact Hle].
Qed.

Lemma add_new_same l entries e :
  e ∈ l ++ entries -> exists e', same e e' /\ e' ∈ foldl add_new l entries.
Proof.
  revert l e; induction entries as [|x entries IH]; intros l e; cbn [foldl].
  { rewrite app_nil_r. exists e. split; [apply rtc_refl|done]. }
  rewrite elem_of_app, elem_of_cons. intros He.
  assert (e ∈ add_new l x ++ entries \/ e = x /\ py_in x l = true) as [Hin|[-> E]].
  { unfold add_new. destruct (py_in x l) eqn:E; rewrite !elem_of_app, ?list_elem_of_singleton; naive_solver. }
  - by apply IH.
  - destruct (kept_same x l (or_intror E)) as (x' & Hs & Hx').
    destruct (IH (add_new l x) x') as (e' & Hs' & Hin').
    { unfold add_new. rewrite E. apply elem_of_app. by left. }
    exists e'. split; [by etrans|done].
Qed.

(** The report written for a state that cannot be verified keeps the queue of the heartbeat. *)
Lemma unverified_queue state_path now result heartbeat cause uncertain report e :
  record_unverifiable_prior_state state_path now result heartbeat cause uncertain = Ok report ->
  e ∈ readable_entries heartbeat -> exists e', same e e' /\ e' ∈ queue_items report.
Proof.
  intros (_ & _ & queue & Hq & more & ->)%recorded_report He.
  destruct (add_new_same [] (readable_entries heartbeat ++ readable_entries result) e) as (e' & Hs & Hin).
  { cbn [app]. apply elem_of_app. by left. }
  exists e'. split; [done|]. apply (proj1 (pending_items _ _ Hq)), elem_of_app. by left.
Qed.
End read_back.

Lemma dget_ddel d k k' : dget (ddel d k) k' = if str_eqb k' k then None else dget d k'.
Proof.
  unfold ddel. induction d as [|[k0 v0] d IH]; cbn [List.filter dget fst]; [by destruct (str_eqb k' k)|].
  destruct (str_eqb_spec k0 k) as [->|Hk]; cbn [negb dget]; rewrite ?IH.
  - by destruct (str_eqb_spec k' k).
  - destruct (str_eqb_spec k' k0) as [->|]; [|done]. by rewrite (proj2 (str_eqb_neq k0 k)).
Qed.

Lemma with_outbox_queue d pending : 
  exists d', with_outbox (JObj d) pending = JObj d' /\
    dget d' "pending_transitions" =
      (if is_empty pending then None else Some (JList (take OUTBOX_SURGE_LIMIT pending))) /\
    dget d' "pending_surge_overflow" =
      match drop OUTBOX_SURGE_LIMIT pending with [] => None | rest => Some (JList rest) end.
Proof.
  unfold with_outbox. destruct pending as [|e pending].
  - eexists. split; [reflexivity|]. rewrite !dget_ddel. split; reflexivity.
  - eexists. split; [reflexivity|]. rewrite !dget_set_all by apply outbox_nodup.
    destruct (outbox_lookup (e :: pending)) as [-> ->]. split; [done|].
    destruct (drop _ _); [|done]. by rewrite dget_ddel.
Qed.

Lemma item_outbox `{PyHost} report pending k v :
  item (with_outbox report pending) k = Ok v -> exists d, report = JObj d.
Proof. unfold with_outbox. destruct report, (is_empty pending); try discriminate; by eexists. Qed.

Lemma split_queue (pending : list json) d :
  dget d "pending_transitions" =
    (if is_empty pending then None else Some (JList (take OUTBOX_SURGE_LIMIT pending))) ->
  dget d "pending_surge_overflow" =
    match drop OUTBOX_SURGE_LIMIT pending with [] => None | rest => Some (JList rest) end ->
  queue_items (JObj d) = pending.
Proof.
  intros H1 H2. unfold queue_items, get. rewrite H1, H2.
  destruct pending as [|e pending]; [done|].
  transitivity (take OUTBOX_SURGE_LIMIT (e :: pending) ++ drop OUTBOX_SURGE_LIMIT (e :: pending)); [|apply take_drop].
  cbn [is_empty]. by destruct (drop _ _).
Qed.

Lemma snapshot_queue severe uncertain checked pending d :
  queue_items (with_outbox (JObj d) pending) = pending /\
  queue_items (snapshot_json (with_outbox (JObj d) pending) severe uncertain checked) = pending.
Proof.
  destruct (with_outbox_queue d pending) as (d' & -> & H1 & H2). split; [by apply split_queue|].
  apply split_queue; [rewrite <-H1|rewrite <-H2]; cbn [as_dict omap list_omap];
    destruct (dget d' (lit "pending_transitions")) as [v|], (dget d' (lit "pending_surge_overflow")) as [w|];
    reflexivity.
Qed.

(** ** One transition through [record] *)

Section held.
Context `{PyHost} (entry : json) (both : bool).

(** Where a pending transition is looked for: the state, and with [both] the heartbeat too. *)
Definition anchors (s : store) : list json :=
  stored_queue (st_state s) ++ (if both then stored_queue (st_heartbeat s) else []).
(** The transition is in [l], in the journal, or a provisional alarm. *)
Definition found (l : list json) (s : store) : Prop :=
  exists e, same entry e /\ (e ∈ l \/ in_row e (events_of s) \/ is_provisional e = true).
Definition held (s : store) : Prop := found (anchors s) s.

Lemma found_mono l l' s s' : grow s s' -> (forall e, e ∈ l -> exists e', same e e' /\ e' ∈ l') ->
  found l s -> found l' s'.
Proof.
  intros Hg Hl (e & He & [Hin|[Hr|Hp]]).
  - destruct (Hl e Hin) as (e' & He' & Hin'). exists e'. split; [by etrans|by left].
  - exists e. split; [done|]. right; left. by eapply grow_row.
  - exists e. auto.
Qed.
Lemma found_grow l s s' : grow s s' -> found l s -> found l s'.
Proof. intros Hg. apply found_mono; [done|]. intros e He. by exists e. Qed.
Lemma held_grow s s' : grow s s' -> held s -> held s'.
Proof.
  intros Hg. unfold held. assert (anchors s' = anchors s) as ->; [|by apply found_grow].
  destruct Hg as (H1 & H2 & _). unfold anchors. by rewrite H1, H2.
Qed.
Lemma found_sub l l' s : (forall e, e ∈ l -> e ∈ l') -> found l s -> found l' s.
Proof. intros Hl. apply (found_mono l l' s s); [done|]. intros e He. exists e. split; [apply rtc_refl|auto]. Qed.

(** [meets P m Q]: from [P], whatever fails, the transition stays held, and a value comes with [Q]. *)
Definition meets {A} (P : store -> Prop) (m : eff store A) (Q : A -> store -> Prop) : Prop :=
  forall s, P s -> held (snd (m s)) /\ forall a, fst (m s) = Ok a -> Q a (snd (m s)).
(** The same for a phase: an early return needs no more than [held]. *)
Definition goes_on {A} (Q : A -> store -> Prop) (r : option pystr + A) (s : store) : Prop :=
  match r with inl _ => True | inr a => Q a s end.

Lemma meets_bind {A B} P (m : eff store A) (f : A -> eff store B) Q R :
  meets P m Q -> (forall a, meets (Q a) (f a) R) -> meets P (m ≫= f) R.
Proof.
  intros Hm Hf s Hs. destruct (Hm s Hs) as [Hi Hq]. unfold mbind, eff_bind.
  destruct (m s) as [[a|e] s1]; [|done]. apply Hf. by apply Hq.
Qed.
Lemma meets_then {A B} P (m : eff store A) (n : eff store B) Q R :
  meets P m (fun _ => Q) -> meets Q n R -> meets P (m ;; n) R.
Proof. intros Hm Hn. eapply meets_bind; [exact Hm|]. intros a. exact Hn. Qed.
Lemma meets_weaken {A} (P P' : store -> Prop) (m : eff store A) (Q Q' : A -> store -> Prop) :
  meets P m Q -> (forall s, P' s -> P s) -> (forall a s, Q a s -> Q' a s) -> meets P' m Q'.
Proof. intros Hm Hp Hq s Hs. destruct (Hm s (Hp s Hs)). auto. Qed.
Lemma meets_stage {A B} P (m : stage A) (k : A -> stage B) Q R :
  meets P m (goes_on Q) -> (forall a, meets (fun s => held s /\ Q a s) (k a) (goes_on R)) ->
  meets P (stage_bind m k) (goes_on R).
Proof.
  intros Hm Hk. unfold stage_bind. intros s Hs. destruct (Hm s Hs) as [Hi Hq].
  unfold mbind, eff_bind. destruct (m s) as [[[ev|a]|e] s1]; cbn [fst snd] in *.
  - split; [done|]. by intros ? [= <-].
  - apply Hk. split; [done|]. by apply (Hq (inr a)).
  - done.
Qed.

(** An assertion that growth preserves. *)
Class Grown (P : store -> Prop) : Prop := grown s s' : grow s s' -> P s -> P s'.
#[export] Instance grown_found l : Grown (found l).
Proof. intros s s' Hg. by apply found_grow. Qed.
#[export] Instance grown_held : Grown held.
Proof. intros s s' Hg. by apply held_grow. Qed.
#[export] Instance grown_and P Q : Grown P -> Grown Q -> Grown (fun s => P s /\ Q s).
Proof. intros HP HQ s s' Hg [Hp Hq]. split; by eapply grown. Qed.

Lemma meets_grows {A} (P : store -> Prop) `{!Grown P} (m : eff store A) :
  grows m -> (forall s, P s -> held s) -> meets P m (fun _ => P).
Proof.
  intros Hm Hp s Hs. assert (P (snd (m s))) by (eapply grown; [apply Hm|done]). auto.
Qed.
Lemma meets_ret {A} (P : store -> Prop) (a : A) : (forall s, P s -> held s) -> meets P (mret a) (fun _ => P).
Proof. intros Hp. intros s Hs. split; [by apply Hp|done]. Qed.

(** *** Writes *)

Lemma call_total {A} (m : eff store A) s :
  (forall s, exists a, fst (m s) = Ok a) ->
  exists fs, snd (call m s) = with_faults s fs \/ snd (call m s) = snd (m (with_faults s fs)).
Proof.
  intros Hm. unfold call. destruct (faults s) as [|[]fs] eqn:E.
  - exists []. right. rewrite <-E. by rewrite with_same.
  - exists fs. by right.
  - exists fs. by left.
  - exists fs. by right.
Qed.

(** The queue is kept in memory while the transition is held. *)
Definition carried (pending : list json) (s : store) : Prop := held s /\ found pending s.

#[export] Instance grown_carried pending : Grown (carried pending).
Proof. apply grown_and; apply _. Qed.
Lemma carried_faults pending s fs : carried pending s -> carried pending (with_faults s fs).
Proof. apply (grown (P := carried pending)), grow_faults. Qed.

Lemma found_stored pending v s : queue_items v = pending -> found pending s -> found (stored_queue (Ok (Some (norm v)))) s.
Proof.
  intros <-. apply found_mono; [done|]. intros e He. exists (norm e). split; [apply same_norm|].
  cbn [stored_queue]. rewrite queue_items_norm. by apply list_elem_of_fmap_2.
Qed.

Lemma carried_write_state pending v :
  queue_items v = pending -> meets (carried pending) (write_state v) (fun _ => carried pending).
Proof.
  intros Hv s [Hh Hf]. enough (carried pending (snd (write_state v s))) as Hc by (split; [apply Hc|by intros]).
  destruct (call_total (fun s => (Ok tt, Store (Ok (Some (norm v))) (st_heartbeat s) (st_events s) (st_report s))) s)
    as (fs & Hs); [by eexists|].
  unfold write_state. destruct Hs as [-> | ->]; cbn [snd].
  - by apply carried_faults.
  - assert (found pending (with_faults s fs)) as Hf' by (by eapply found_grow; [apply grow_faults|]).
    split; [|exact Hf']. unfold held, anchors. cbn [st_state].
    apply (found_sub (stored_queue (Ok (Some (norm v))))); [intros e He; apply elem_of_app; by left|].
    by apply (found_stored pending v (with_faults s fs)).
Qed.

Lemma carried_write_heartbeat pending v :
  queue_items v = pending -> meets (carried pending) (write_heartbeat v) (fun _ => carried pending).
Proof.
  intros Hv s [Hh Hf]. enough (carried pending (snd (write_heartbeat v s))) as Hc by (split; [apply Hc|by intros]).
  destruct (call_total (fun s => (Ok tt, Store (st_state s) (Ok (Some (norm v))) (st_events s) (st_report s))) s)
    as (fs & Hs); [by eexists|].
  unfold write_heartbeat. destruct Hs as [-> | ->]; cbn [snd].
  - by apply carried_faults.
  - assert (found pending (with_faults s fs)) as Hf' by (by eapply found_grow; [apply grow_faults|]).
    split; [|exact Hf']. unfold held, anchors in Hh |- *. cbn [st_state st_heartbeat].
    destruct both.
    + apply (found_sub (stored_queue (Ok (Some (norm v))))); [intros e He; apply elem_of_app; by right|].
      by apply (found_stored pending v (with_faults s fs)).
    + by apply (found_grow _ _ _ (grow_faults s fs)).
Qed.

Lemma meets_pure {A} (P : store -> Prop) (r : result exn A) :
  (forall s, P s -> held s) -> meets P (pure r) (fun a s => r = Ok a /\ P s).
Proof. intros Hp s Hs. split; [by apply Hp|done]. Qed.

Lemma carried_held pending s : carried pending s -> held s.
Proof. by intros []. Qed.
#[local] Hint Resolve carried_held : core.

Lemma carried_persist severe uncertain pending first :
  meets (carried pending) (persist_snapshots severe uncertain pending first) (fun _ => carried pending).
Proof.
  unfold persist_snapshots. eapply meets_bind; [apply (meets_grows (carried pending)); eauto with grow|].
  intros report. cbv beta.
  eapply meets_then; [apply (meets_grows (carried pending)); eauto with grow|].
  eapply meets_bind; [apply (meets_pure (carried pending)); eauto|]. intros checked. cbv beta.
  intros s [Hx Hc]. destruct (item_outbox _ _ _ _ Hx) as [d ->]. clear Hx. revert s Hc.
  destruct (snapshot_queue severe uncertain checked pending d) as [Hr Hs].
  change (meets (carried pending) ((if first then write_heartbeat (with_outbox (JObj d) pending) else mret ()) ;;
    write_state (snapshot_json (with_outbox (JObj d) pending) severe uncertain checked) ;;
    (if first then mret () else write_heartbeat (with_outbox (JObj d) pending))) (fun _ => carried pending)).
  eapply meets_then.
  { destruct first; [by apply carried_write_heartbeat|by apply meets_ret; eauto]. }
  eapply meets_then; [by apply carried_write_state|].
  destruct first; [by apply meets_ret; eauto|by apply carried_write_heartbeat].
Qed.

(** *** Giving up: the heartbeat of an unverifiable cycle *)

(** With [both], the heartbeat a cycle goes by shows the transition. *)
Definition seen_by (heartbeat : json) : Prop :=
  both = true -> exists e, same entry e /\ e ∈ readable_entries heartbeat.

Lemma held_write_heartbeat v :
  (both = true -> exists e, same entry e /\ e ∈ queue_items v) -> meets held (write_heartbeat v) (fun _ => held).
Proof.
  intros Hv. destruct both eqn:Eb.
  - intros s Hs. destruct (Hv eq_refl) as (e & He & Hin).
    assert (carried (queue_items v) s) as Hc by (split; [done|by exists e; auto]).
    destruct (carried_write_heartbeat (queue_items v) v eq_refl s Hc) as [H1 _]. split; [apply H1|by intros].
  - intros s Hs. enough (held (snd (write_heartbeat v s))) as Hc by (split; [done|by intros]).
    destruct (call_total (fun s => (Ok tt, Store (st_state s) (Ok (Some (norm v))) (st_events s) (st_report s))) s)
      as (fs & He); [by eexists|].
    assert (held (with_faults s fs)) as Hf by (apply (held_grow s); [apply grow_faults|done]).
    unfold write_heartbeat. destruct He as [-> | ->]; cbn [snd]; [exact Hf|].
    unfold held, anchors in Hf |- *. rewrite Eb in Hf |- *. exact Hf.
Qed.

Lemma meets_unverifiable {A} state_path now heartbeat cause uncertain (Q : A -> store -> Prop) :
  seen_by heartbeat -> meets held (unverifiable state_path now heartbeat cause uncertain) (goes_on Q).
Proof.
  intros Hb. unfold unverifiable. eapply meets_bind; [apply (meets_grows held); eauto with grow|].
  intros result. cbv beta. eapply meets_bind; [by apply (meets_pure held)|]. intros failure. cbv beta.
  intros s [Hf Hs]. revert s Hs.
  change (meets held (put_report failure ;; write_heartbeat failure ;;
    leave (A := A) (Some (lit "MONITOR_DATA_FAILURE"))) (goes_on Q)).
  eapply meets_then; [apply (meets_grows held); eauto with grow|].
  eapply meets_then.
  { apply held_write_heartbeat. intros Eb. destruct (Hb Eb) as (e & He & Hin).
    destruct (unverified_queue _ _ _ _ _ _ _ _ Hf Hin) as (e' & Hs & Hin'). exists e'. split; [by etrans|done]. }
  intros s Hs. split; [done|]. by intros ? [= <-].
Qed.

Lemma meets_or_unverifiable {A} state_path now heartbeat classes cause (m : eff store A) Q :
  seen_by heartbeat -> meets held m Q ->
  meets held (or_unverifiable state_path now heartbeat classes cause m) (goes_on Q).
Proof.
  intros Hb Hm s Hs. unfold or_unverifiable, mbind, eff_bind, attempt.
  destruct (Hm s Hs) as [Hi Hq]. destruct (m s) as [[a|e] s1]; cbn [fst snd] in *.
  - split; [done|]. intros r [= <-]. by apply Hq.
  - destruct (caught classes e); [by apply meets_unverifiable|done].
Qed.

Lemma meets_lift {A} P (m : eff store A) Q : meets P m Q -> meets P (lift m) (goes_on Q).
Proof.
  intros Hm s Hs. unfold lift, mbind, eff_bind. destruct (Hm s Hs) as [Hi Hq].
  destruct (m s) as [[a|e] s1]; [|done]. split; [done|]. intros r [= <-]. by apply Hq.
Qed.

(** *** Phases that leave the snapshots alone *)

Section stays.
Context (P : store -> Prop) `{!Grown P} (Hheld : forall s, P s -> held s) (heartbeat : json)
  (Hb : seen_by heartbeat).

(** The phase ends the recording or keeps [P]. *)
Definition stays {A} (m : stage A) : Prop := meets P m (goes_on (fun _ => P)).

Lemma stays_next {A} (a : A) : stays (next a).
Proof. intros s Hs. split; [by apply Hheld|]. by intros ? [= <-]. Qed.
Lemma stays_leave {A} event : stays (leave (A := A) event).
Proof. intros s Hs. split; [by apply Hheld|]. by intros ? [= <-]. Qed.
Lemma stays_err {A} e : stays (A := A) (pure (Err e)).
Proof. intros s Hs. split; [by apply Hheld|done]. Qed.
Lemma stays_unverifiable {A} state_path now cause uncertain :
  stays (A := A) (unverifiable state_path now heartbeat cause uncertain).
Proof. intros s Hs. apply meets_unverifiable; [done|by apply Hheld]. Qed.
Lemma stays_lift {A} (m : eff store A) : grows m -> stays (lift m).
Proof. intros Hm. apply meets_lift. by apply meets_grows. Qed.
Lemma stays_bind {A B} (m : stage A) (k : A -> stage B) :
  stays m -> (forall a, stays (k a)) -> stays (stage_bind m k).
Proof.
  intros Hm Hk. eapply meets_stage; [exact Hm|]. intros a. eapply meets_weaken; [apply Hk|by intros s []|done].
Qed.
Lemma stays_attempt {A B} (m : eff store A) (k : result exn A -> stage B) :
  grows m -> (forall r, stays (k r)) -> stays (attempt m ≫= k).
Proof. intros Hm Hk. eapply meets_bind; [by apply (meets_grows P); [apply grows_attempt|]|exact Hk]. Qed.
Lemma stays_or_unverifiable {A} state_path now classes cause (m : eff store A) :
  grows m -> stays (or_unverifiable state_path now heartbeat classes cause m).
Proof.
  intros Hm. unfold or_unverifiable. apply stays_attempt; [done|]. intros [a|e]; [apply stays_next|].
  destruct (caught classes e); [apply stays_unverifiable|apply stays_err].
Qed.
End stays.

End held.

Ltac stays_step :=
  first [ apply stays_next | apply stays_leave | apply stays_err | apply stays_unverifiable
        | apply stays_lift | apply stays_or_unverifiable | apply stays_bind; [|intros ?]
        | apply stays_attempt; [|intros ?] | apply _ | assumption | progress cbv beta zeta
        | match goal with
          | |- stays _ _ _ (match ?x with _ => _ end) => destruct x
          | |- grows _ => progress grows
          end ].
Ltac stays_tac := repeat stays_step.

Section phases.
Context `{PyHost} (loads : bytes -> result exn json) (state_path events_path : pystr).
Context (entry : json) (both : bool).

#[local] Hint Resolve grows_last grows_recovery grows_queue grows_repaired : grow.

Lemma lost_stays (P : store -> Prop) `{!Grown P} now heartbeat :
  (forall s, P s -> held entry both s) -> seen_by entry both heartbeat ->
  stays entry both P (lost_state loads state_path now heartbeat).
Proof. intros Hheld Hb. unfold lost_state, reconfirmed_state. stays_tac. Qed.

(** The snapshots hold no more than what was read from them. *)
Definition read_as (previous heartbeat : json) (s : store) : Prop :=
  (forall e, e ∈ stored_queue (st_state s) -> e ∈ queue_items previous) /\
  (both = true -> forall e, e ∈ stored_queue (st_heartbeat s) -> e ∈ queue_items heartbeat).
Definition heartbeat_as (heartbeat : json) (s : store) : Prop :=
  held entry both s /\ (both = true -> forall e, e ∈ stored_queue (st_heartbeat s) -> e ∈ queue_items heartbeat).

Lemma grown_same (P : content -> content -> Prop) : Grown (fun s => P (st_state s) (st_heartbeat s)).
Proof. intros s s' (H1 & H2 & _). by rewrite H1, H2. Qed.
#[local] Instance grown_read_as previous heartbeat : Grown (read_as previous heartbeat).
Proof. apply (grown_same (fun x y => (forall e, e ∈ stored_queue x -> _) /\ (_ -> forall e, e ∈ stored_queue y -> _))). Qed.
#[local] Instance grown_heartbeat_as heartbeat : Grown (heartbeat_as heartbeat).
Proof.
  apply grown_and; [apply _|]. apply (grown_same (fun x y => _ -> forall e, e ∈ stored_queue y -> _)).
Qed.

Lemma read_state_value c s : fst (read_state s) = Ok c -> st_state (snd (read_state s)) = Ok c.
Proof.
  unfold read_state, call. destruct (faults s) as [|[]fs]; cbn; try done; by intros ->.
Qed.

Lemma prior_meets now heartbeat :
  seen_by entry both heartbeat ->
  meets entry both (heartbeat_as heartbeat) (prior_state loads state_path now heartbeat)
    (goes_on (fun pn => read_as (fst pn) heartbeat)).
Proof.
  intros Hb. unfold prior_state. intros s Hs.
  assert (heartbeat_as heartbeat (snd (read_state s))) as Hs1 by (by apply (grown s); [apply grows_read_state|]).
  unfold mbind, eff_bind, attempt. pose proof (read_state_value) as Hv. specialize (Hv).
  destruct (read_state s) as [[c|e] s1] eqn:Er; cbn [snd] in Hs1.
  - specialize (Hv c s). rewrite Er in Hv. specialize (Hv eq_refl). cbn [snd] in Hv.
    destruct c as [[| | | | | |d]|]; try (apply (meets_unverifiable entry both); [done|by destruct Hs1]).
    + split; [by destruct Hs1|]. intros r [= <-].
      change (read_as (JObj d) heartbeat s1). split; [by rewrite Hv|apply Hs1].
    + assert (Grown (fun s => heartbeat_as heartbeat s /\ st_state s = Ok None)) as Hgr
        by (apply grown_and; [apply _|apply (grown_same (fun x _ => x = Ok None))]).
      destruct (lost_stays (fun s => heartbeat_as heartbeat s /\ st_state s = Ok None) now heartbeat ltac:(by intros ? [[]]) Hb s1 (conj Hs1 Hv)) as [H1 H2].
      split; [done|]. intros [ev|[prev np]] Ha; [done|]. destruct (H2 _ Ha) as [H3 H4].
      cbn [goes_on fst]. split; [by rewrite H4; intros ? ?%elem_of_nil|apply H3].
  - destruct (caught [OSError] e); [apply (meets_unverifiable entry both); [done|by destruct Hs1]|].
    destruct (caught [ValueError] e); [apply (meets_unverifiable entry both); [done|by destruct Hs1]|].
    split; [by destruct Hs1|done].
Qed.

Lemma journaled_true e s : fst (journaled e s) = Ok true -> in_row e (events_of (snd (journaled e s))).
Proof.
  unfold journaled, mbind, eff_bind. pose proof (grows_read_events s) as Hg.
  assert (forall c, fst (read_events s) = Ok c -> c = events_of (snd (read_events s))) as Hc.
  { unfold read_events, call. destruct (faults s) as [|[]fs]; cbn; try done; by intros c [= <-]. }
  destruct (read_events s) as [[c|x] s1]; [|done]. specialize (Hc c eq_refl). cbn [snd] in Hc. subst c.
  destruct (transition_already_journaled _ _) eqn:Et; [|done]. apply journaled_row in Et.
  pose proof (grows_sync s1) as Hs. destruct (sync_events s1) as [[[]|x] s2]; [|done]. intros _.
  by apply (grow_row s1).
Qed.

Lemma unjournaled_cover entries s pending :
  fst (unjournaled entries s) = Ok pending ->
  forall e, e ∈ entries -> e ∈ pending \/ in_row e (events_of (snd (unjournaled entries s))).
Proof.
  revert s pending; induction entries as [|x entries IH]; intros s pending; [by intros _ e ?%elem_of_nil|].
  cbn [unjournaled]. unfold mbind, eff_bind. pose proof (journaled_true x s) as Hx.
  destruct (journaled x s) as [[found|err] s1]; [|done]. cbn [fst snd] in Hx.
  pose proof (grows_unjournaled entries s1) as Hg. specialize (IH s1).
  destruct (unjournaled entries s1) as [[rest|err] s2]; [|done]. cbn [fst snd] in *.
  intros [= <-] e [->|He]%elem_of_cons.
  - destruct found; [right; apply (grow_row s1); auto|left; by left].
  - destruct (IH rest eq_refl e He) as [|]; [left|by right]. destruct found; [done|by right].
Qed.

Lemma queue_meets previous heartbeat :
  meets entry both (fun s => held entry both s /\ read_as previous heartbeat s) (pending_queue previous heartbeat)
    (fun pending s => found entry pending s).
Proof.
  intros s [Hs [Hp Hh]]. split; [eapply (held_grow entry both); [apply grows_queue|done]|].
  unfold pending_queue, mbind, eff_bind, pure.
  destruct (pending_transition_entries previous) as [a|] eqn:Ea; [|done].
  destruct (pending_transition_entries heartbeat) as [b|] eqn:Eb; [|done].
  intros pending Hq. destruct Hs as (e & He & [Hin|Hr]).
  - assert (exists e', same e e' /\ e' ∈ a ++ b) as (e1 & H1 & Hin1).
    { unfold anchors in Hin. apply elem_of_app in Hin as [Hin|Hin].
      - destruct (proj2 (pending_items _ _ Ea) e (Hp e Hin)) as (e' & ? & ?). exists e'. rewrite elem_of_app. auto.
      - destruct both; [|by apply elem_of_nil in Hin].
        destruct (proj2 (pending_items _ _ Eb) e (Hh eq_refl e Hin)) as (e' & ? & ?). exists e'. rewrite elem_of_app. auto. }
    destruct (add_new_same [] (a ++ b) e1 Hin1) as (e2 & H2 & Hin2).
    exists e2. split; [by do 2 (etrans; [eassumption|])|].
    destruct (unjournaled_cover _ s pending Hq e2 Hin2) as [|]; auto.
  - exists e. split; [done|]. right. destruct Hr as [Hr|Hr]; [left|by right].
    eapply grow_row; [apply grows_unjournaled|done].
Qed.

Lemma remove_first_cover x l e : e ∈ l -> e ∈ remove_first x l \/ py_eq e x = true.
Proof.
  induction l as [|y l IH]; [by intros ?%elem_of_nil|]. cbn [remove_first].
  intros [->|He]%elem_of_cons; destruct (py_eq y x) eqn:E; [by right|left; by left|by left|].
  destruct (IH He); [left; by right|by right].
Qed.

Lemma admit_found checked state_checked entries journal codes acc x acc' s :
  is_provisional x = true -> found entry (fst acc) s ->
  admit_tentative checked state_checked entries journal codes acc x = Ok acc' -> found entry (fst acc') s.
Proof.
  intros Hx Hf. unfold admit_tentative. destruct acc as [pending severe]. cbn [fst] in Hf. cbv zeta.
  destruct (_ || _); [done|]. destruct (_ || _); [done|].
  destruct (_ && _); [|by destruct (match find_index _ _ with Some _ => _ | None => _ end); intros [= <-]].
  intros [= <-]. cbn [fst]. destruct Hf as (e & He & [Hin|Hr]); [|exists e; auto].
  destruct (remove_first_cover x pending e Hin) as [|E]; [exists e; auto|].
  exists x. split; [etrans; [exact He|by apply same_eq]|auto].
Qed.

Lemma tentative_provisional previous heartbeat pending x :
  x ∈ tentative_entries previous heartbeat pending -> is_provisional x = true.
Proof.
  unfold tentative_entries. set (l := List.filter _ _).
  assert (forall y, y ∈ l -> is_provisional y = true) as Hl.
  { intros y Hy. apply list_elem_of_In, filter_In in Hy as [_ Hy]. by apply andb_true_iff in Hy as [? _]. }
  assert (forall acc, (forall y, y ∈ acc -> is_provisional y = true) ->
    forall y, y ∈ foldl add_new acc l -> is_provisional y = true) as Hall; [|apply Hall; by intros y ?%elem_of_nil].
  clearbody l. induction l as [|z l IH]; intros acc Ha; [done|]. cbn [foldl]. apply IH.
  - intros y Hy. apply Hl. by right.
  - unfold add_new. destruct (py_in z acc); [done|]. intros y [Hy| ->%list_elem_of_singleton]%elem_of_app; [auto|].
    apply Hl. by left.
Qed.

Lemma tentative_meets now previous heartbeat pending severe :
  seen_by entry both heartbeat ->
  meets entry both (carried entry both pending)
    (reconcile_tentative loads state_path now previous heartbeat pending severe)
    (goes_on (fun ps => found entry (fst ps))).
Proof.
  intros Hb. unfold reconcile_tentative.
  pose proof (tentative_provisional previous heartbeat pending) as Hp.
  destruct (tentative_entries previous heartbeat pending) as [|x l] eqn:Et.
  { intros s [Hs Hf]. split; [done|]. by intros ? [= <-]. }
  assert (forall s, carried entry both pending s -> held entry both s) as Hheld by (by intros s []).
  eapply meets_stage with (Q := fun _ => carried entry both pending).
  { apply (stays_or_unverifiable entry both (carried entry both pending)); eauto with grow. }
  intros journal. eapply meets_stage with (Q := fun _ => carried entry both pending).
  { apply (meets_weaken entry both (carried entry both pending) _ _ (goes_on (fun _ => carried entry both pending)));
      [|by intros s []|done].
    apply (stays_lift entry both (carried entry both pending)); eauto with grow. }
  intros result. cbv beta.
  destruct (match journal with Some _ => _ | None => _ end) as [codes|];
    [|intros s [Hs _]; by apply meets_unverifiable].
  destruct (foldM _ _ _) as [[pending' severe']|cause] eqn:Ef;
    [|intros s [Hs _]; by apply meets_unverifiable].
  intros s [_ [Hs Hf]]. split; [done|]. intros r [= <-]. cbn [goes_on fst].
  refine (foldM_inv (fun acc => found entry (fst acc) s) _ _ _ _ _ _ Ef); [exact Hf|].
  intros acc y acc' Hy Ha Hstep. eapply admit_found; [by apply Hp|exact Ha|exact Hstep].
Qed.

(** *** The commit *)

Lemma queue_transition_found report transition pending s :
  found entry pending s -> found entry (queue_transition report transition pending) s.
Proof.
  apply found_sub. intros e He. unfold queue_transition. destruct transition as [event|]; [|done].
  destruct (_ && _); [done|]. unfold add_new. destruct (py_in _ _); [done|]. apply elem_of_app. by left.
Qed.

Lemma ready_take unknown continuing n pending : exists k, ready unknown continuing n pending = take k pending.
Proof.
  revert pending; induction n as [|n IH]; intros [|x pending]; try by exists O. cbn [ready].
  destruct (replay_blocked _ _ _ _); [by exists O|]. destruct (IH pending) as [k ->]. by exists (S k).
Qed.

(** After a successful append every row of the batch is in the journal. *)
Lemma append_rows entries rest s :
  fst (on_events (append_durable_events (((fun e => get e "payload") <$> entries) ++ rest)) s) = Ok tt ->
  forall e, e ∈ entries ->
    in_row e (events_of (snd (on_events (append_durable_events (((fun e => get e "payload") <$> entries) ++ rest)) s))).
Proof.
  unfold on_events. pose proof (append_grows (((fun e => get e "payload") <$> entries) ++ rest) (st_events s)) as Ha.
  destruct (append_durable_events _ _) as [r j]. destruct Ha as (_ & Hok & _). cbn [fst snd]. intros Hr.
  destruct (Hok Hr) as [Hb _]. intros e He. unfold events_of. cbn [st_events]. rewrite Hb, fmap_app, concat_app.
  rewrite (assoc_L (++)). by apply in_row_app, in_row_appended.
Qed.

Lemma uncommitted_rows entries s :
  fst (on_events (uncommitted (append_durable_events ((fun e => get e "payload") <$> entries))) s) = Ok tt ->
  forall e, e ∈ entries ->
    in_row e (events_of (snd (on_events (uncommitted (append_durable_events
      ((fun e => get e "payload") <$> entries))) s))).
Proof.
  pose proof (append_rows entries [] s) as Ha. rewrite app_nil_r in Ha. revert Ha.
  unfold on_events, uncommitted. by destruct (append_durable_events _ _) as [r j].
Qed.

Lemma found_journaled pending left s s' :
  grow s s' -> (forall e, e ∈ pending -> e ∈ left \/ exists e', same e e' /\ in_row e' (events_of s')) ->
  found entry pending s -> found entry left s'.
Proof.
  intros Hg Hl (e & He & [Hin|[Hr|Hp]]).
  - destruct (Hl e Hin) as [Hin'|(e' & Hs & Hr)]; [exists e; auto|exists e'; split; [by etrans|auto]].
  - exists e. split; [done|]. right; left. by eapply grow_row.
  - exists e. auto.
Qed.

Lemma replay_meets a pending ready_pending monitor :
  meets entry both (carried entry both pending) (replay events_path a pending ready_pending monitor)
    (fun puf => carried entry both (fst (fst puf))).
Proof.
  unfold replay. eapply meets_bind; [apply (meets_grows entry both (carried entry both pending)); eauto with grow; by intros ? []|].
  intros report s Hs. cbv beta in Hs. set (more := if monitor then _ else _).
  destruct (((fun e => get e "payload") <$> ready_pending) ++ more) as [|ev evs] eqn:Ee.
  { split; [by destruct Hs|]. by intros ? [= <-]. }
  rewrite <-Ee. clear ev evs Ee. unfold mbind, eff_bind, attempt.
  pose proof (append_rows ready_pending more s) as Hrows. pose proof (grows_append (((fun e => get e "payload") <$> ready_pending) ++ more) s) as Hg.
  destruct (on_events (append_durable_events _) s) as [[[]|x] s1]; cbn [fst snd] in *.
  - assert (carried entry both (List.filter (fun e => negb (py_in e ready_pending)) pending) s1) as Hc;
      [|split; [by destruct Hc|by intros ? [= <-]]].
    destruct Hs as [Hh Hf]. split; [by apply (held_grow entry both s)|].
    apply (found_journaled pending _ s); [done| |done]. intros e He.
    destruct (py_in e ready_pending) eqn:E.
    + right. destruct (kept_same e ready_pending (or_intror E)) as (e' & He' & Hin). exists e'. split; [done|by apply Hrows].
    + left. apply list_elem_of_In, filter_In. rewrite E. split; [by apply list_elem_of_In|done].
  - assert (carried entry both pending s1) as Hc by (by apply (grown (P := carried entry both pending) s)).
    destruct (caught [OSError] x); [|by split; [destruct Hc|]].
    assert (carried entry both pending (snd (put_report (report_failed_append events_path a x report) s1))) as Hc'
      by (by apply (grown (P := carried entry both pending) s1); [apply grows_put|]).
    split; [by destruct Hc'|by intros ? [= <-]].
Qed.

Lemma drain_meets now heartbeat a unknown continuing pending n :
  seen_by entry both heartbeat ->
  meets entry both (carried entry both pending)
    (drain state_path now heartbeat a unknown continuing pending n)
    (goes_on (fun pd => found entry (fst pd))).
Proof.
  intros Hb. unfold drain. destruct (OUTBOX_NORMAL_LIMIT <? length pending)%nat;
    [|intros s [Hh Hf]; split; [done|by intros ? [= <-]]].
  eapply meets_stage; [apply meets_lift, carried_persist|]. intros _u. cbv beta zeta.
  destruct (_ <? _)%nat; [intros s [Hh _]; by apply meets_unverifiable|].
  destruct (ready_take unknown continuing n pending) as [k Hk].
  set (ready_old := ready unknown continuing n pending) in *.
  eapply meets_weaken with (P := carried entry both pending); [|by intros s []|done].
  eapply meets_stage with (Q := fun _ s => found entry (drop (length ready_old) pending) s).
  - intros s Hs. unfold or_unverifiable, mbind, eff_bind, attempt.
    pose proof (uncommitted_rows ready_old s) as Hrows. pose proof (grows_uncommitted ((fun e => get e "payload") <$> ready_old) s) as Hg.
    destruct (on_events (uncommitted _) s) as [[[]|x] s1]; cbn [fst snd] in *.
    + destruct Hs as [Hh Hf]. split; [by apply (held_grow entry both s)|]. intros r [= <-]. cbn [goes_on].
      apply (found_journaled pending _ s); [done| |done]. intros e He.
      rewrite <-(take_drop k pending), <-Hk in He. apply elem_of_app in He as [He|He].
      * right. exists e. split; [apply rtc_refl|by apply Hrows].
      * left. enough (drop (length ready_old) pending = drop k pending) as -> by done.
        rewrite Hk, length_take. destruct (Nat.le_gt_cases k (length pending)); [by rewrite Nat.min_l|].
        rewrite Nat.min_r, !drop_ge by lia. done.
    + assert (held entry both s1) by (destruct Hs as [Hh _]; by apply (held_grow entry both s)).
      destruct (caught [OSError] x); [by apply meets_unverifiable|done].
  - intros []. intros s [Hh Hf]. split; [done|]. by intros ? [= <-].
Qed.

Lemma commit_meets now suppressed previous heartbeat a old_severe old_pending :
  seen_by entry both heartbeat ->
  meets entry both (carried entry both old_pending)
    (commit_phase state_path events_path now suppressed previous heartbeat a old_severe old_pending)
    (goes_on (fun _ _ => True)).
Proof.
  intros Hb. unfold commit_phase. cbv zeta.
  set (pending := queue_transition _ _ _).
  apply (meets_weaken entry both (carried entry both pending) _ _ (goes_on (fun _ _ => True)));
    [|intros s []; split; [done|by apply queue_transition_found]|done].
  destruct (_ && _); [intros s [Hs _]; by apply meets_unverifiable|].
  eapply meets_stage; [by apply drain_meets|]. intros [left drained]. cbn [fst].
  set (ready_pending := if suppressed then _ else _).
  change (fun s => held entry both s /\ found entry left s) with (carried entry both left).
  eapply meets_stage with (Q := fun _ => carried entry both left).
  { apply meets_lift. destruct (is_empty ready_pending); [|apply carried_persist].
    apply meets_ret. by intros s []. }
  intros _u. cbv beta.
  apply (meets_weaken entry both (carried entry both left) _ _ (goes_on (fun _ _ => True)));
    [|by intros s []|done].
  eapply meets_stage; [apply meets_lift, replay_meets|]. intros [[rest uncertain] failed]. cbn [fst].
  apply (meets_weaken entry both (carried entry both rest) _ _ (goes_on (fun _ _ => True)));
    [|by intros s []|done].
  eapply meets_stage with (Q := fun _ => carried entry both rest).
  { apply meets_lift. destruct (_ || _); [apply carried_persist|].
    apply meets_ret. by intros s []. }
  intros _v s [Hs _]. split; [done|]. by intros [] ?.
Qed.

Lemma stages_meet now serialized suppressed heartbeat :
  seen_by entry both heartbeat ->
  meets entry both (heartbeat_as heartbeat)
    (record_stages loads state_path events_path now serialized suppressed heartbeat) (goes_on (fun _ _ => True)).
Proof.
  intros Hb. unfold record_stages.
  assert (forall s, heartbeat_as heartbeat s -> held entry both s) as Hheld by (by intros s []).
  eapply meets_stage with (Q := fun _ => heartbeat_as heartbeat).
  { apply (stays_lift entry both (heartbeat_as heartbeat)); eauto with grow. }
  intros report. cbv beta. destruct (_ && _); [intros s [Hs _]; split; [done|by intros ? [= <-]]|].
  apply (meets_weaken entry both (heartbeat_as heartbeat) _ _ (goes_on (fun _ _ => True))); [|by intros s []|done].
  eapply meets_stage; [by apply prior_meets|]. intros [previous no_prior]. cbn [fst]. cbv zeta.
  set (known := fun s => held entry both s /\ read_as previous heartbeat s).
  assert (forall s, known s -> held entry both s) as Hknown by (by intros s []).
  assert (Grown known) as Hgrown by (apply grown_and; apply _).
  eapply meets_stage with (Q := fun _ => known).
  { apply (stays_lift entry both known); eauto with grow. }
  intros _u. cbv beta. destruct (severe_of _ _); [|intros s [Hs _]; by apply meets_unverifiable].
  destruct (outdated _ _ _); [intros s [Hs _]; split; [done|by intros ? [= <-]]|].
  apply (meets_weaken entry both known _ _ (goes_on (fun _ _ => True))); [|by intros s []|done].
  eapply meets_stage with (Q := fun pending => found entry pending).
  { intros s Hs. unfold or_unverifiable, mbind, eff_bind, attempt.
    destruct (queue_meets previous heartbeat s Hs) as [H1 H2].
    destruct (pending_queue previous heartbeat s) as [[pending|x] s1]; cbn [fst snd] in *.
    - split; [done|]. intros r [= <-]. by apply H2.
    - destruct (caught _ x); [by apply meets_unverifiable|done]. }
  intros pending. change (fun s => held entry both s /\ found entry pending s) with (carried entry both pending).
  eapply meets_stage; [by apply tentative_meets|]. intros [left severe]. cbn [fst].
  change (fun s => held entry both s /\ found entry left s) with (carried entry both left).
  assert (forall s, carried entry both left s -> held entry both s) as Hleft by (by intros s []).
  eapply meets_stage with (Q := fun _ => carried entry both left).
  { apply (stays_lift entry both (carried entry both left)); eauto with grow. }
  intros a. cbv beta.
  apply (meets_weaken entry both (carried entry both left) _ _ (goes_on (fun _ _ => True))); [|by intros s []|done].
  eapply meets_stage with (Q := fun _ => carried entry both left).
  { apply (stays_lift entry both (carried entry both left)); eauto with grow. }
  intros _v. cbv beta.
  apply (meets_weaken entry both (carried entry both left) _ _ (goes_on (fun _ _ => True))); [|by intros s []|done].
  by apply commit_meets.
Qed.

(** Whatever the last heartbeat is read as. *)
Lemma record_held now serialized suppressed s :
  (forall heartbeat, fst (last_heartbeat s) = Ok heartbeat -> seen_by entry both heartbeat /\
     (both = true -> forall e, e ∈ stored_queue (st_heartbeat s) -> e ∈ queue_items heartbeat)) ->
  held entry both s ->
  held entry both (snd (record loads state_path events_path now serialized suppressed s)).
Proof.
  intros Hboth Hs. unfold record, mbind, eff_bind.
  assert (grows last_heartbeat) as Hg.
  { intros s0. unfold last_heartbeat, try_except, mbind, eff_bind. pose proof (grows_read_heartbeat s0) as Hg.
    destruct (read_heartbeat s0) as [[c|e] s1]; [done|]. by destruct (existsb _ _). }
  specialize (Hg s). destruct (last_heartbeat s) as [[heartbeat|e] s1]; cbn [fst snd] in *;
    [|by apply (held_grow entry both s)].
  destruct (Hboth heartbeat eq_refl) as [Hb Hh].
  destruct (stages_meet now serialized suppressed heartbeat Hb s1) as [H1 _].
  { split; [by apply (held_grow entry both s)|]. intros E. destruct Hg as (_ & -> & _). by apply Hh. }
  by destruct (record_stages _ _ _ _ _ _ _ s1) as [[[ev|ev]|e] s2].
Qed.
End phases.

(** ** No transition is lost *)

Section never_lost.
Context `{PyHost} (loads : bytes -> result exn json) (state_path events_path : pystr).

(** The transition is pending in the state or stands in the journal (or is a provisional alarm). *)
Definition anchored (entry : json) (s : store) : Prop :=
  exists e, same entry e /\
    (e ∈ stored_queue (st_state s) \/ in_row e (events_of s) \/ is_provisional e = true).

Lemma anchored_held entry s : anchored entry s <-> held entry false s.
Proof. unfold held, found, anchors. cbn. by rewrite app_nil_r. Qed.

Lemma record_anchored entry now serialized suppressed s :
  held entry false s -> held entry false (snd (record loads state_path events_path now serialized suppressed s)).
Proof. apply record_held. by intros heartbeat _. Qed.

Lemma grows_forget : grows forget_committed.
Proof. apply grows_events. intros j. exists []. by rewrite app_nil_r. Qed.
Lemma grows_committed : grows committed.
Proof. by intros s. Qed.
Lemma grows_admitted : grows admitted.
Proof. unfold admitted. grows. Qed.

Lemma persist_anchored entry clock suppressed s :
  held entry false s -> held entry false (snd (persist_cycle loads state_path events_path clock suppressed s)).
Proof.
  intros Hs.
  assert (forall now serialized suppressed s, held entry false s ->
    held entry false (snd (attempt (record loads state_path events_path now serialized suppressed) s))) as Hrec.
  { intros now se su s0 Hs0. pose proof (record_anchored entry now se su s0 Hs0) as Hr.
    unfold attempt. by destruct (record _ _ _ _ _ _ s0). }
  unfold persist_cycle, mbind, eff_bind.
  destruct (forget_committed s) as [r s1] eqn:Ef. pose proof (grows_forget s) as Hg. rewrite Ef in Hg.
  assert (held entry false s1) as H1 by (by apply (held_grow entry false s)).
  destruct r as [[]|e]; [|done].
  specialize (Hrec (clock 1%nat) true suppressed s1 H1).
  destruct (attempt _ s1) as [[[ev|e]|e] s2]; cbn [snd] in Hrec; [done| |done].
  destruct (caught _ e); [|done]. cbn [report_now].
  set (s3 := snd (put_report (fallback_report (clock 2%nat) (st_report s2) e) s2)).
  assert (held entry false s3) as H3 by (apply (held_grow entry false s2); [apply grows_put|done]).
  pose proof (record_anchored entry (clock 3%nat) true
    (intersects [lit "ALARM"; lit "RECOVERY"] (jf_committed (st_events s3))) s3 H3) as H4.
  change (put_report (fallback_report (clock 2%nat) (st_report s2) e) s2) with (Ok (E := exn) tt, s3).
  cbn [committed]. unfold try_except.
  destruct (record _ _ _ _ _ _ s3) as [[ev|x] s4]; [done|]. cbn [snd] in H4 |- *.
  by destruct (existsb _ _).
Qed.

(** One run of the watcher by cron, with any fault at any call. *)
Definition restarted (s : store) (faults : list fault) (writes : list nat) : store :=
  Store (st_state s) (st_heartbeat s) (Journal (events_of s) [] writes faults) JNull.
Definition cron (s s' : store) : Prop :=
  exists clock read held faults writes,
    s' = snd (run_cycle loads state_path events_path clock read held (restarted s faults writes)).

(** C3: No transition is lost.  A transition pending in the state file stays pending there or stands in
    the journal as a whole row, through any number of runs of the watcher, whatever they observe and
    whichever reads, writes and syncs fail or lose their answer, including the end of the process in
    the middle of one.  Only provisional alarms of cycles that could not read the state may be
    dropped again. *)
Theorem anchored_forever entry s s' : anchored entry s -> rtc cron s s' -> anchored entry s'.
Proof.
  intros Ha. induction 1 as [s|s s1 s2 (clock & read & other & fs & ws & ->) _ IH]; [done|]. apply IH. clear IH.
  rewrite anchored_held in Ha |- *.
  assert (held entry false (restarted s fs ws)) as Hr by exact Ha.
  unfold run_cycle. destruct other; [exact Hr|]. unfold mbind, eff_bind.
  pose proof (grows_admitted (restarted s fs ws)) as Hg.
  assert (held entry false (snd (admitted (restarted s fs ws)))) as H1 by (by apply (held_grow entry false (restarted s fs ws))).
  destruct (admitted (restarted s fs ws)) as [[admission|e] s1]; [|done]. cbn [snd] in H1.
  set (observe := if admission then _ else _).
  assert (grows observe) as Ho by (unfold observe; grows).
  specialize (Ho s1). destruct (observe s1) as [[[]|e] s3] eqn:Eo; cbn [snd] in Ho.
  - apply persist_anchored. by apply (held_grow entry false s1).
  - by apply (held_grow entry false s1).
Qed.

(** C5: A transition only the heartbeat holds, such as a recovery written there first, survives a
    recording as well: when the heartbeat can be read and its queue passes the checks, the transition
    is afterwards pending in the state or in the heartbeat, or it stands in the journal, at whatever
    later call the recording fails or is cut off; except that a provisional transition, an alarm of a
    cycle that could not read the state, may be dropped once the state is known again. *)
Theorem intent_survives entry heartbeat entries now serialized suppressed s :
  st_heartbeat s = Ok (Some heartbeat) -> pending_transition_entries heartbeat = Ok entries ->
  entry ∈ entries -> head (faults s) = Some passes \/ faults s = [] ->
  let s' := snd (record loads state_path events_path now serialized suppressed s) in
  exists e, same entry e /\
    (e ∈ stored_queue (st_state s') ++ stored_queue (st_heartbeat s') \/ in_row e (events_of s') \/
     is_provisional e = true).
Proof.
  intros Hh Hp Hin Hf. cbn zeta. apply (record_held _ _ _ entry true).
  - assert (fst (last_heartbeat s) = Ok heartbeat) as ->.
    { unfold last_heartbeat, try_except, mbind, eff_bind, read_heartbeat, call.
      destruct Hf as [Hf| ->]; [|by rewrite Hh]. destruct (faults s) as [|f fs]; [done|].
      injection Hf as ->. cbn [st_heartbeat with_faults store_faulty]. by rewrite Hh. }
    intros hb [= <-]. split.
    + intros _. exists entry. split; [apply rtc_refl|]. unfold readable_entries. by rewrite Hp.
    + intros _ e. by rewrite Hh.
  - exists entry. split; [apply rtc_refl|]. left. unfold anchors. apply elem_of_app. right.
    rewrite Hh. by apply (pending_items _ _ Hp).
Qed.
End never_lost.

(** ** Witnesses *)

#[local] Existing Instance clock_host.

Definition demo_pending_state : json :=
  JObj (state_json [(lit "down", lit "500")] [] JNull (JStr (iso 0))
        ++ [(lit "pending_transitions", JList [demo_entry])]).
Definition demo_store : store :=
  Store (Ok (Some demo_pending_state)) (Ok (Some demo_snapshot)) (Journal [] [] [] []) JNull.
Definition demo_answers (c : N) : reader := fun name =>
  if product name then Ok ([(lit "commit", JStr (demo_sha c))], lit "no-store")
  else if str_eqb name "main" then
    Ok ([(lit "sha", JStr (demo_sha c)); (lit "observation_transport", JStr (lit "git_https"))], [])
  else raise ValueError "no schedule".
(** The state is replaced, then the directory sync is lost; the journal gets a short write. *)
Definition demo_faults : list fault :=
  [passes; passes; passes; passes; passes; passes; lost (Exn OSError []); refused (Exn OSError [])].
Definition demo_run : store :=
  snd (run_cycle (fun _ => Err (Exn ValueError [])) [] [] (fun _ => seconds 1) (demo_answers 97) false
         (restarted demo_store demo_faults [3%nat])).

Lemma anchored_forever_witness : anchored demo_entry demo_store /\ anchored demo_entry demo_run.
Proof.
  assert (anchored demo_entry demo_store) as Ha.
  { exists demo_entry. split; [apply rtc_refl|]. left. unfold stored_queue, demo_store. cbn [st_state].
    change (queue_items demo_pending_state) with [demo_entry]. by left. }
  split; [exact Ha|]. apply (anchored_forever (fun _ => Err (Exn ValueError [])) [] [] demo_entry demo_store demo_run Ha).
  apply rtc_once. by exists (fun _ => seconds 1), (demo_answers 97), false, demo_faults, [3%nat].
Defined.

Lemma intent_survives_witness :
  let s' := snd (record (fun _ => Err (Exn ValueError [])) [] [] 0 true false
                   (Store (Ok None) (Ok (Some demo_snapshot)) (Journal [] [] [] (passes :: demo_faults)) demo_result)) in
  exists e, same demo_recovery e /\
    (e ∈ stored_queue (st_state s') ++ stored_queue (st_heartbeat s') \/ in_row e (events_of s') \/
     is_provisional e = true).
Proof.
  apply (intent_survives (fun _ => Err (Exn ValueError [])) [] [] demo_recovery demo_snapshot [demo_entry; demo_recovery]);
    [reflexivity|apply demo_pending|right; by left|by left].
Defined.
