(* ===== verification/WatchVerdict.v ===== *)
(** * The independent production watcher: verdicts

    The assessment of an observation against the incidents the state remembers ([assess] of
    [WatchRecord]): when a transition is an ALARM or a RECOVERY, and what a run of the watcher that
    ends in exit code 0 has established. *)

From S2P Require Import Prelude PyStr Effects Json JsonText Sha256 Dispatch Watch WatchJournal WatchOutbox WatchRecord.
From S2P Require Import WatchRecordProofs.
Open Scope Z_scope.

(** ** Lemmas: issues *)

Section issues.
Context `{PyHost}.

(** An issue of this severity, or of any, with this code. *)
Definition observes (issues : list json) (severity : string) (code : pystr) : Prop :=
  exists issue, issue ∈ issues /\ field_is issue "severity" severity = true /\ get issue "code" = JStr code.
Definition mentions (issues : list json) (code : pystr) : Prop :=
  exists issue, issue ∈ issues /\ get issue "code" = JStr code.

Lemma item_get v k x : item v k = Ok x -> get v k = x.
Proof. unfold get, item. destruct v; try done. destruct (dget d k); [by intros [= ->]|done]. Qed.
Lemma issue_code_get issue code : issue_code issue = Ok code -> get issue "code" = JStr code.
Proof.
  unfold issue_code. intros (v & Hv & Hc)%bind_ok. apply item_get in Hv. rewrite Hv.
  destruct v; try done. by injection Hc as ->.
Qed.

Lemma with_severity_spec {A} severity (f : json -> result exn A) (code : A -> pystr) issues l :
  (forall issue a, f issue = Ok a -> get issue "code" = JStr (code a)) ->
  with_severity severity f issues = Ok l -> forall c, c ∈ code <$> l <-> observes issues severity c.
Proof.
  intros Hf. revert l; induction issues as [|issue issues IH]; intros l; cbn [with_severity].
  { intros [= <-] c. split; [by intros ?%elem_of_nil|]. by intros (i & ?%elem_of_nil & _). }
  intros (found & Hi & Hl)%bind_ok c. apply item_get in Hi.
  assert (field_is issue "severity" severity = py_eq found (JStr (lit severity))) as Es
    by (unfold field_is; by rewrite Hi).
  destruct (py_eq found (JStr (lit severity))).
  - apply bind_ok in Hl as (a & Ha & Hl). apply bind_ok in Hl as (rest & Hr & Hl). injection Hl as <-.
    specialize (IH rest Hr c). rewrite fmap_cons, elem_of_cons, IH. apply Hf in Ha. split.
    + intros [->|(i & Hin & Hs & Hc)]; [exists issue|exists i]; split_and!; auto; [by left|by right].
    + intros (i & [->|Hin]%elem_of_cons & Hs & Hc); [left; congruence|right; by exists i].
  - rewrite (IH l Hl c). split; intros (i & Hin & Hs & Hc).
    + exists i. split_and!; auto. by right.
    + apply elem_of_cons in Hin as [->|Hin]; [congruence|by exists i].
Qed.

Lemma all_codes_spec issues l : all_codes issues = Ok l -> forall c, c ∈ l <-> mentions issues c.
Proof.
  revert l; induction issues as [|issue issues IH]; intros l; cbn [all_codes].
  { intros [= <-] c. split; [by intros ?%elem_of_nil|]. by intros (i & ?%elem_of_nil & _). }
  intros (code & Hc & Hl)%bind_ok. apply bind_ok in Hl as (rest & Hr & Hl). injection Hl as <-.
  apply issue_code_get in Hc. intros c. rewrite elem_of_cons, (IH rest Hr c). split.
  - intros [->|(i & Hin & Hi)]; [exists issue|exists i]; split; auto; [by left|by right].
  - intros (i & [->|Hin]%elem_of_cons & Hi); [left; congruence|right; by exists i].
Qed.

Lemma issue_episode_code issue e : issue_episode issue = Ok e -> get issue "code" = JStr (fst e).
Proof.
  unfold issue_episode. intros (code & Hc & He)%bind_ok. apply issue_code_get in Hc.
  apply bind_ok in He as (actual & _ & He). by injection He as <-.
Qed.

Lemma codes_sorted l c : c ∈ codes_of (sort_episodes l) <-> c ∈ codes_of l.
Proof. unfold codes_of, sort_episodes. by rewrite (sort_by_perm episode_leb l). Qed.

Lemma detected_codes report l :
  detected_episodes report = Ok l -> forall c, c ∈ codes_of l <-> observes (issues_of report) "P1" c.
Proof.
  unfold detected_episodes. destruct (with_severity _ _ _) as [l0|] eqn:E; [|done]. cbn. intros [= <-] c.
  rewrite codes_sorted. eapply with_severity_spec; [|exact E]. apply issue_episode_code.
Qed.

(** ** What an observation cannot clear *)

(** A code of the observation makes the old incident uncertain. *)
Inductive inconclusive (report : json) (code : pystr) : Prop :=
  | masked_by c : c ∈ unverifiable_on code -> mentions (issues_of report) c -> inconclusive report code
  | still_diverged name commit main :
      name = lit "frontend" \/ name = lit "api" -> code = stale_code name ->
      dget (as_dict (get report "commits")) name = Some commit ->
      dget (as_dict (get report "commits")) (lit "main") = Some main ->
      py_eq commit main = false -> inconclusive report code
  | answer_missing :
      code = lit "unavailable_frontend" \/ code = lit "unavailable_api" ->
      observes (issues_of report) "P2" code -> inconclusive report code
  | watcher_failed : mentions (issues_of report) (lit "watcher_execution_failed") -> inconclusive report code
  | state_unread : mentions (issues_of report) (lit "unverifiable_state") -> inconclusive report code.

Lemma intersects_spec a b : intersects a b = true <-> exists c, c ∈ a /\ c ∈ b.
Proof.
  unfold intersects. rewrite existsb_exists. split; intros (c & H1 & H2); exists c.
  - apply str_in_elem in H2. by rewrite list_elem_of_In.
  - rewrite <-list_elem_of_In. by rewrite str_in_elem.
Qed.
Lemma pair_in (c a b : pystr) : str_in c [a; b] = true <-> c = a \/ c = b.
Proof. rewrite str_in_elem, !elem_of_cons, elem_of_nil. naive_solver. Qed.

Lemma unclearable_spec report observed uncertain code :
  (forall c, c ∈ observed <-> mentions (issues_of report) c) ->
  (forall c, c ∈ uncertain <-> observes (issues_of report) "P2" c) ->
  unclearable report observed uncertain code = true <-> inconclusive report code.
Proof.
  intros Ho Hu. unfold unclearable. cbv zeta.
  rewrite !orb_true_iff, !andb_true_iff, intersects_spec, !pair_in, !str_in_elem, !Ho, Hu. split.
  - intros [[[[(c & Hc & Hin)|[Hs Hd]]|[Hc Hin]]|Hw]|Hv]; eauto using inconclusive.
    + eapply masked_by; [exact Hc|by apply Ho].
    + assert (exists name, (name = lit "frontend" \/ name = lit "api") /\ code = stale_code name /\
        default code (strip_prefix (lit "stale_") code) = name) as (name & Hn & -> & En)
        by (destruct Hs as [-> | ->]; [exists (lit "frontend")|exists (lit "api")]; (split; [auto|split; reflexivity])).
      rewrite En in Hd. destruct (dget _ name) eqn:E1; [|done]. destruct (dget _ (lit "main")) eqn:E2; [|done].
      eapply still_diverged; [exact Hn|done|exact E1|exact E2|by apply negb_true_iff].
  - intros [c Hc Hm|name commit main Hn -> E1 E2 Hd|Hc Hm|Hm|Hm].
    + do 4 left. exists c. by rewrite Ho.
    + do 3 left. right. destruct Hn as [-> | ->]; (split; [by first [left; reflexivity|right; reflexivity]|]);
        match goal with |- context [default ?c ?s] =>
          first [change (default c s) with (lit "frontend") | change (default c s) with (lit "api")] end;
        rewrite E1, E2; by rewrite Hd.
    + left; left; right. auto.
    + left; right. auto.
    + right. auto.
Qed.
End issues.

(** ** Transitions *)

Section transitions.
Context `{PyHost}.

Lemma subset_str_spec a b : subset_str a b = true <-> forall c, c ∈ a -> c ∈ b.
Proof.
  unfold subset_str. rewrite forallb_forall. split; intros Hs c Hc.
  - apply str_in_elem, Hs. by apply list_elem_of_In.
  - apply str_in_elem, Hs. by apply list_elem_of_In.
Qed.

Lemma episode_in e l : existsb (episode_eqb e) l = true <-> e ∈ l.
Proof.
  rewrite existsb_exists. split.
  - intros ([c a] & Hin & E). destruct e as [c' a']. unfold episode_eqb in E. cbn in E.
    apply andb_true_iff in E as [->%str_eqb_eq ->%str_eqb_eq]. by apply list_elem_of_In.
  - intros Hin. exists e. split; [by apply list_elem_of_In|]. unfold episode_eqb. by rewrite !str_eqb_refl.
Qed.

Lemma retain_fold report observed uncertain shown old severe e :
  (e ∈ foldl (retain_old report observed uncertain shown) severe old) <->
  (e ∈ severe) \/ (e ∈ old) /\ (fst e ∉ shown) /\ unclearable report observed uncertain (fst e) = true.
Proof.
  revert severe; induction old as [|x old IH]; intros severe; cbn [foldl].
  { split; [auto|]. intros [|[?%elem_of_nil _]]; done. }
  rewrite IH. clear IH. rewrite elem_of_cons.
  assert (e ∈ retain_old report observed uncertain shown severe x <->
    (e ∈ severe) \/ (e = x /\ (fst e ∉ shown) /\ unclearable report observed uncertain (fst e) = true)) as ->;
    [|tauto].
  unfold retain_old. destruct (str_in (fst x) shown) eqn:Es.
  { apply str_in_elem in Es. split; [auto|]. by intros [|(-> & ? & _)]. }
  apply str_in_not in Es. destruct (unclearable _ _ _ (fst x)) eqn:Eu.
  - rewrite andb_true_r. destruct (existsb (episode_eqb x) severe) eqn:Ex; cbn [negb].
    + apply episode_in in Ex. split; [auto|]. by intros [|(-> & _)].
    + rewrite elem_of_app, list_elem_of_singleton. split; [intros [| ->]; auto|intros [|(-> & _)]; auto].
  - rewrite andb_false_r. split; [auto|]. intros [|(-> & _ & ?)]; [done|congruence].
Qed.

(** A cycle that observed nothing, because the queue is full. *)
Definition at_capacity (suppressed : bool) (report : json) : Prop :=
  suppressed = true /\ mentions (issues_of report) (lit "watcher_outbox_at_capacity").

(** The parts of an assessment. *)
Lemma assess_inv suppressed old old_uncertain report a :
  assess suppressed old old_uncertain report = Ok a ->
  (forall c, c ∈ as_observed a <-> mentions (issues_of report) c) /\
  (forall c, c ∈ as_uncertain a <-> observes (issues_of report) "P2" c) /\
  as_transition a = transition_of old (as_severe a) /\
  (~ at_capacity suppressed report ->
     forall e, (observes (issues_of report) "P1" (fst e) -> fst e ∈ codes_of (as_severe a)) /\
       (e ∈ as_severe a -> observes (issues_of report) "P1" (fst e) \/ e ∈ old /\ inconclusive report (fst e)) /\
       (e ∈ old -> inconclusive report (fst e) -> fst e ∈ codes_of (as_severe a))) /\
  (at_capacity suppressed report -> forall e, e ∈ as_severe a <-> e ∈ old).
Proof.
  unfold assess. intros (detected & Hd & Ha)%bind_ok.
  destruct (with_severity "P2" issue_code _) as [u|] eqn:Eu; [|done]. cbn [fmap result_fmap mbind result_bind] in Ha.
  apply bind_ok in Ha as (observed & Ho & Ha).
  pose proof (detected_codes _ _ Hd) as Hdet. pose proof (all_codes_spec _ _ Ho) as Hobs.
  assert (forall c, c ∈ sort_str u <-> observes (issues_of report) "P2" c) as Hunc.
  { intros c. unfold sort_str. rewrite elem_of_sort_by.
    rewrite <-(with_severity_spec "P2" issue_code id _ _ issue_code_get Eu c). by rewrite list_fmap_id. }
  pose proof (Hobs (lit "watcher_outbox_at_capacity")) as Hcap.
  assert (suppressed && str_in (lit "watcher_outbox_at_capacity") observed = true <-> at_capacity suppressed report) as Hc
    by (unfold at_capacity; by rewrite andb_true_iff, str_in_elem, Hcap).
  unfold carry_over in Ha. destruct (suppressed && _) eqn:Ec.
  - injection Ha as <-. cbn [as_observed as_uncertain as_transition as_severe].
    assert (forall e, e ∈ sort_episodes (foldl (retain_old
       (if is_empty old then report else set_fields report [(lit "retained_prior_p1", episodes_json old);
          (lit "observation_status", get report "status"); (lit "status", JStr (lit "ALARM"))])
       observed (sort_str u) (codes_of detected)) old old) <-> e ∈ old) as Hold.
    { intros e. unfold sort_episodes. rewrite elem_of_sort_by, retain_fold. naive_solver. }
    split_and!; [done|done|done| |done]. intros Hn. destruct Hn. by apply Hc.
  - injection Ha as <-. cbn [as_observed as_uncertain as_transition as_severe].
    assert (~ at_capacity suppressed report) as Hn by (intros Hx; apply Hc in Hx; congruence).
    split_and!; [done|done|done| |done]. intros _ e. unfold sort_episodes.
    assert (forall x, x ∈ sort_by episode_leb (foldl (retain_old report observed (sort_str u) (codes_of detected)) detected old)
      <-> x ∈ detected \/ x ∈ old /\ (fst x ∉ codes_of detected) /\ inconclusive report (fst x)) as Hs.
    { intros x. rewrite elem_of_sort_by, retain_fold. by rewrite unclearable_spec. }
    split_and!.
    + intros Hx. apply Hdet in Hx. unfold codes_of in *. apply list_elem_of_fmap in Hx as (x & -> & Hx).
      apply list_elem_of_fmap_2, Hs. by left.
    + intros Hx. apply Hs in Hx as [Hx|(Hx & _ & Hi)]; [left|right; done]. apply Hdet. by apply list_elem_of_fmap_2.
    + intros Hx Hi. destruct (decide (fst e ∈ codes_of detected)) as [Hin|Hin].
      * unfold codes_of in *. apply list_elem_of_fmap in Hin as (x & -> & Hin). apply list_elem_of_fmap_2, Hs. by left.
      * apply list_elem_of_fmap_2, Hs. auto.
Qed.

Lemma transition_alarm old severe :
  transition_of old severe = Some (lit "ALARM") <-> exists c, c ∈ codes_of severe /\ c ∉ codes_of old.
Proof.
  unfold transition_of. destruct (subset_str _ _) eqn:E; cbn [negb].
  - rewrite subset_str_spec in E. split; [|intros (c & H1 & H2); by destruct H2; apply E].
    destruct (negb (is_empty old) && is_empty severe); intros Hx; exfalso; [|discriminate Hx].
    apply (f_equal (option_map (@length N))) in Hx. by vm_compute in Hx.
  - split; [intros _|done]. destruct (decide (Exists (fun c => c ∉ codes_of old) (codes_of severe))) as [Hx|Hx].
    + by apply Exists_exists in Hx.
    + exfalso. apply not_Exists_Forall in Hx; [|intros c; apply _].
      enough (subset_str (codes_of severe) (codes_of old) = true) by congruence.
      apply subset_str_spec. intros c Hc. rewrite Forall_forall in Hx. specialize (Hx c Hc). by apply dec_stable in Hx.
Qed.

Lemma transition_recovery old severe :
  transition_of old severe = Some (lit "RECOVERY") <-> old <> [] /\ severe = [].
Proof.
  unfold transition_of. destruct severe as [|x severe].
  - cbn [codes_of fmap list_fmap subset_str forallb negb is_empty]. rewrite andb_true_r.
    destruct old; cbn [is_empty negb]; by split; [|intros []].
  - cbn [is_empty]. rewrite andb_false_r. split; [|by intros []].
    destruct (negb _); intros Hx; exfalso; [|discriminate Hx].
    apply (f_equal (option_map (@length N))) in Hx. by vm_compute in Hx.
Qed.

(** An observation turns into a transition exactly when it should.  It is an ALARM when it shows a
    P1 whose code no remembered incident has.  It is a RECOVERY when incidents are remembered, it
    shows no P1, and for none of them is the observation inconclusive: not while a required answer
    is missing or malformed, nor while the endpoint still differs from main, nor while a confirmed
    HTTP failure has become a mere timeout, nor after the watcher itself failed.  A cycle that did
    not look, because its queue is full, yields neither. *)
Theorem transition_exact suppressed old old_uncertain report a :
  assess suppressed old old_uncertain report = Ok a ->
  (as_transition a = Some (lit "ALARM") <->
     ~ at_capacity suppressed report /\
     exists code, observes (issues_of report) "P1" code /\ code ∉ codes_of old) /\
  (as_transition a = Some (lit "RECOVERY") <->
     ~ at_capacity suppressed report /\ old <> [] /\
     (forall code, ~ observes (issues_of report) "P1" code) /\
     forall code, code ∈ codes_of old -> ~ inconclusive report code).
Proof.
  intros Ha. destruct (assess_inv _ _ _ _ _ Ha) as (Hobs & _ & -> & Hn & Hc).
  rewrite transition_alarm, transition_recovery.
  assert (at_capacity suppressed report \/ ~ at_capacity suppressed report) as [Hcap|Hcap].
  { specialize (Hobs (lit "watcher_outbox_at_capacity")). unfold at_capacity.
    destruct suppressed; [|right; by intros []].
    destruct (decide (lit "watcher_outbox_at_capacity" ∈ as_observed a)); [left|right]; rewrite <-Hobs; naive_solver. }
  - specialize (Hc Hcap). split; (split; [|by intros [? _]]).
    + intros (c & H1 & H2). destruct H2. unfold codes_of in *.
      apply list_elem_of_fmap in H1 as (e & -> & He). apply list_elem_of_fmap_2. by apply Hc.
    + intros [H1 H2]. destruct old as [|e old]; [done|]. specialize (Hc e). rewrite H2 in Hc.
      exfalso. assert (e ∈ []) as ?%elem_of_nil by (apply Hc; by left). done.
  - specialize (Hn Hcap). split; (split; [|intros [_ Hx]; revert Hx]).
    + intros (c & H1 & H2). split; [done|]. exists c. split; [|done]. unfold codes_of in *.
      apply list_elem_of_fmap in H1 as (e & -> & He). destruct (Hn e) as (_ & He' & _).
      destruct (He' He) as [|[Hin _]]; [done|]. destruct H2. by apply list_elem_of_fmap_2.
    + intros (c & H1 & H2). exists c. split; [|done]. destruct (Hn (c, [])) as (Hx & _). by apply Hx.
    + intros [H1 H2]. split_and!; [done..| |].
      * intros c Hc'. destruct (Hn (c, [])) as (Hx & _). specialize (Hx Hc'). rewrite H2 in Hx. by apply elem_of_nil in Hx.
      * intros c Hc' Hi. unfold codes_of in Hc'. apply list_elem_of_fmap in Hc' as (e & -> & He).
        destruct (Hn e) as (_ & _ & Hx). specialize (Hx He Hi). rewrite H2 in Hx. by apply elem_of_nil in Hx.
    + intros (H1 & H2 & H3). split; [done|]. destruct (as_severe a) as [|e l] eqn:Es; [done|exfalso].
      destruct (Hn e) as (_ & Hx & _). destruct Hx as [Hx|[Hin Hi]]; [by left|by eapply H2|].
      eapply H3; [|exact Hi]. by apply list_elem_of_fmap_2.
Qed.
End transitions.

(** ** Lemmas: the report on the way through [record] *)

Section quiet.
Context `{PyHost}.

(** The computation leaves the report alone. *)
Definition quiet_report {A} (m : eff store A) : Prop := forall s, st_report (snd (m s)) = st_report s.

Lemma quiet_pure {A} (r : result exn A) : quiet_report (pure r).
Proof. by intros s. Qed.
Lemma quiet_mret {A} (a : A) : quiet_report (mret a).
Proof. by intros s. Qed.
Lemma quiet_now : quiet_report report_now.
Proof. by intros s. Qed.
Lemma quiet_then {A B} (m : eff store A) (f : A -> eff store B) :
  quiet_report m -> (forall a, quiet_report (f a)) -> quiet_report (m ≫= f).
Proof.
  intros Hm Hf s. unfold mbind, eff_bind. specialize (Hm s). destruct (m s) as [[a|e] s1]; [|done].
  rewrite Hf. exact Hm.
Qed.
Lemma quiet_attempt {A} (m : eff store A) : quiet_report m -> quiet_report (attempt m).
Proof. intros Hm s. specialize (Hm s). unfold attempt. by destruct (m s). Qed.
Lemma quiet_call {A} (m : eff store A) : quiet_report m -> quiet_report (call m).
Proof. intros Hm s. unfold call. destruct (faults s) as [|[]fs]; [apply Hm| |done|]; (etrans; [apply Hm|done]). Qed.
Lemma quiet_events {A} (m : eff journal A) : quiet_report (on_events m).
Proof. intros s. unfold on_events. by destruct (m (st_events s)). Qed.
Lemma quiet_try_except {A} classes (m : eff store A) h :
  quiet_report m -> (forall e, quiet_report (h e)) -> quiet_report (try_except classes m h).
Proof.
  intros Hm Hh s. unfold try_except. specialize (Hm s). destruct (m s) as [[a|e] s1]; [done|].
  destruct (existsb _ _); [rewrite Hh|]; exact Hm.
Qed.
Lemma quiet_read_state : quiet_report read_state.
Proof. apply quiet_call. by intros s. Qed.
Lemma quiet_read_heartbeat : quiet_report read_heartbeat.
Proof. apply quiet_call. by intros s. Qed.
Lemma quiet_read_events : quiet_report read_events.
Proof. apply quiet_call. by intros s. Qed.
Lemma quiet_write_state v : quiet_report (write_state v).
Proof. apply quiet_call. by intros s. Qed.
Lemma quiet_write_heartbeat v : quiet_report (write_heartbeat v).
Proof. apply quiet_call. by intros s. Qed.

(** A phase that goes on leaves the report alone; one that ends the recording leaves it unhealthy. *)
Definition calls_off {A} (m : stage A) : Prop := forall s,
  match m s with
  | (Ok (inl _), s') => is_healthy (st_report s') = false
  | (Ok (inr _), s') => st_report s' = st_report s
  | (Err _, _) => True
  end.

Lemma calls_off_next {A} (a : A) : calls_off (next a).
Proof. by intros s. Qed.
Lemma calls_off_err {A} e : calls_off (A := A) (pure (Err e)).
Proof. by intros s. Qed.
Lemma calls_off_lift {A} (m : eff store A) : quiet_report m -> calls_off (lift m).
Proof.
  intros Hm s. unfold lift, mbind, eff_bind. specialize (Hm s). destruct (m s) as [[a|e] s1]; done.
Qed.
Lemma calls_off_bind {A B} (m : stage A) (k : A -> stage B) :
  calls_off m -> (forall a, calls_off (k a)) -> calls_off (stage_bind m k).
Proof.
  intros Hm Hk s. unfold stage_bind, mbind, eff_bind. specialize (Hm s).
  destruct (m s) as [[[ev|a]|e] s1]; [done| |done]. specialize (Hk a s1).
  destruct (k a s1) as [[[ev|b]|e] s2]; [done|by rewrite Hk|done].
Qed.
Lemma calls_off_attempt {A B} (m : eff store A) (k : result exn A -> stage B) :
  quiet_report m -> (forall r, calls_off (k r)) -> calls_off (attempt m ≫= k).
Proof.
  intros Hm Hk s. unfold mbind, eff_bind. pose proof (quiet_attempt m Hm s) as Hq.
  destruct (attempt m s) as [[r|e] s1]; [|done]. specialize (Hk r s1). cbn [snd] in Hq.
  destruct (k r s1) as [[[ev|b]|e] s2]; [done|by rewrite Hk|done].
Qed.

Lemma status_not_healthy report status :
  get report "status" = JStr status -> status <> lit "HEALTHY" -> is_healthy report = false.
Proof.
  intros Hs Hn. unfold is_healthy, field_is. rewrite Hs. cbn [py_eq]. by apply str_eqb_neq.
Qed.

Lemma failure_unhealthy state_path now result heartbeat cause uncertain failure :
  record_unverifiable_prior_state state_path now result heartbeat cause uncertain = Ok failure ->
  is_healthy failure = false.
Proof.
  intros (_ & Hs & _)%recorded_report.
  destruct (unverified_fields state_path now result heartbeat cause) as (d & Hd & _ & Hst & _).
  rewrite Hd in Hs. unfold get in Hs at 2. rewrite Hst in Hs.
  eapply status_not_healthy; [exact Hs|]. by destruct (confirmed_issues _ _).
Qed.

(** Giving up leaves an unhealthy report, or fails before it touches the report. *)
Lemma unverifiable_report {A} state_path now heartbeat cause uncertain s :
  let '(r, s') := unverifiable (A := A) state_path now heartbeat cause uncertain s in
  (forall a, r <> Ok (inr a)) /\
  (is_healthy (st_report s') = false \/ st_report s' = st_report s /\ is_ok r = false).
Proof.
  unfold unverifiable. unfold mbind at 1, eff_bind at 1. cbn [report_now].
  unfold mbind at 1, eff_bind at 1. unfold pure.
  destruct (record_unverifiable_prior_state _ _ _ _ _ _) as [failure|e] eqn:Ef; [|by split; [|right]].
  apply failure_unhealthy in Ef. unfold mbind, eff_bind. cbn [put_report].
  pose proof (quiet_write_heartbeat failure (Store (st_state s) (st_heartbeat s) (st_events s) failure)) as Hq.
  destruct (write_heartbeat failure _) as [[[]|e] s1]; cbn [snd st_report] in Hq;
    (split; [done|left]); cbn [leave mret eff_ret]; by rewrite Hq.
Qed.
Lemma calls_off_unverifiable {A} state_path now heartbeat cause uncertain :
  calls_off (A := A) (unverifiable state_path now heartbeat cause uncertain).
Proof.
  intros s. pose proof (unverifiable_report (A := A) state_path now heartbeat cause uncertain s) as Hu.
  destruct (unverifiable _ _ _ _ _ s) as [[[ev|a]|e] s1]; [|by destruct (proj1 Hu a)|done].
  by destruct Hu as [_ [|[]]].
Qed.
Lemma calls_off_or {A} state_path now heartbeat classes cause (m : eff store A) :
  quiet_report m -> calls_off (or_unverifiable state_path now heartbeat classes cause m).
Proof.
  intros Hm. unfold or_unverifiable. apply calls_off_attempt; [done|]. intros [a|e]; [apply calls_off_next|].
  destruct (caught _ _); [apply calls_off_unverifiable|apply calls_off_err].
Qed.
End quiet.

Create HintDb quiet discriminated.
#[export] Hint Resolve quiet_pure quiet_mret quiet_now quiet_attempt quiet_events quiet_read_state
  quiet_read_heartbeat quiet_read_events quiet_write_state quiet_write_heartbeat : quiet.
Ltac quiet_step :=
  first [progress eauto 2 with quiet | apply quiet_then; [|intros ?] | progress cbv beta zeta
        | match goal with |- quiet_report (match ?x with _ => _ end) => destruct x end].
Ltac quiet := repeat quiet_step.
Ltac calls_off_step :=
  first [ apply calls_off_next | apply calls_off_err | apply calls_off_unverifiable | apply calls_off_lift
        | apply calls_off_or | apply calls_off_bind; [|intros ?] | apply calls_off_attempt; [|intros ?]
        | progress cbv beta zeta
        | match goal with
          | |- calls_off (match ?x with _ => _ end) => destruct x
          | |- quiet_report _ => progress quiet
          end ].
Ltac calls_off := repeat calls_off_step.

Section commits.
Context `{PyHost} (loads : bytes -> result exn json) (state_path events_path : pystr).

Lemma quiet_last : quiet_report (last_journaled_transition loads).
Proof. unfold last_journaled_transition, sync_events. quiet. Qed.
Lemma quiet_unjournaled entries : quiet_report (unjournaled entries).
Proof. induction entries; cbn [unjournaled]; unfold journaled, sync_events; quiet. Qed.
#[local] Hint Resolve quiet_last quiet_unjournaled : quiet.
Lemma quiet_recovery heartbeat : quiet_report (verified_lost_state_recovery loads heartbeat).
Proof. unfold verified_lost_state_recovery. quiet. Qed.
Lemma quiet_queue previous heartbeat : quiet_report (pending_queue previous heartbeat).
Proof. unfold pending_queue. quiet. Qed.
Lemma quiet_repaired : quiet_report (repaired_journal loads).
Proof. unfold repaired_journal. quiet. Qed.
#[local] Hint Resolve quiet_recovery quiet_queue quiet_repaired : quiet.

Lemma prior_calls_off now heartbeat : calls_off (prior_state loads state_path now heartbeat).
Proof. unfold prior_state, lost_state, reconfirmed_state. calls_off. Qed.
Lemma tentative_calls_off now previous heartbeat pending severe :
  calls_off (reconcile_tentative loads state_path now previous heartbeat pending severe).
Proof. unfold reconcile_tentative. calls_off. Qed.

(** An unhealthy report stays unhealthy. *)
Definition keeps_bad {A} (m : eff store A) : Prop := forall s,
  is_healthy (st_report s) = false -> is_healthy (st_report (snd (m s))) = false.

Lemma bad_quiet {A} (m : eff store A) : quiet_report m -> keeps_bad m.
Proof. intros Hm s Hs. by rewrite Hm. Qed.
Lemma bad_bind {A B} (m : eff store A) (f : A -> eff store B) :
  keeps_bad m -> (forall a, keeps_bad (f a)) -> keeps_bad (m ≫= f).
Proof.
  intros Hm Hf s Hs. unfold mbind, eff_bind. specialize (Hm s Hs). destruct (m s) as [[a|e] s1]; [|done].
  by apply Hf.
Qed.
Lemma bad_lift {A} (m : eff store A) : keeps_bad m -> keeps_bad (lift m).
Proof. intros Hm. apply bad_bind; [done|]. intros a. by apply bad_quiet. Qed.
Lemma bad_stage {A B} (m : stage A) (k : A -> stage B) :
  keeps_bad m -> (forall a, keeps_bad (k a)) -> keeps_bad (stage_bind m k).
Proof. intros Hm Hk. apply bad_bind; [done|]. intros [ev|a]; [by apply bad_quiet|done]. Qed.
Lemma field_outbox report pending k :
  k = lit "status" \/ k = lit "issues" -> get (with_outbox report pending) k = get report k.
Proof.
  intros Hk. assert (str_eqb k "pending_transitions" = false /\ str_eqb k "pending_surge_overflow" = false) as [H1 H2]
    by (by destruct Hk as [-> | ->]).
  unfold with_outbox. destruct report as [| | | | | |d]; [by destruct (is_empty pending)..|].
  destruct (is_empty pending); cbn [get del_field set_fields].
  - by rewrite !dget_ddel, H1, H2.
  - rewrite dget_set_all by apply outbox_nodup.
    assert (dget (outbox_fields pending) k = None) as ->.
    { unfold outbox_fields. cbn [dget]. change (lit "pending_transitions") with (lit "pending_transitions") in H1.
      rewrite H1. destruct (drop _ _); [done|]. cbn [dget]. by rewrite H2. }
    by rewrite dget_ddel, H2.
Qed.
Lemma healthy_outbox report pending : is_healthy (with_outbox report pending) = is_healthy report.
Proof. unfold is_healthy, field_is. by rewrite field_outbox by by left. Qed.

Lemma bad_persist severe uncertain pending first : keeps_bad (persist_snapshots severe uncertain pending first).
Proof.
  intros s Hs. unfold persist_snapshots. unfold mbind at 1, eff_bind at 1. cbn [report_now].
  unfold mbind at 1, eff_bind at 1. cbn [put_report].
  set (s1 := Store _ _ _ (with_outbox (st_report s) pending)).
  assert (is_healthy (st_report s1) = false) as H1 by (cbn [st_report s1]; by rewrite healthy_outbox).
  clearbody s1. revert s1 H1.
  match goal with |- forall s1, _ -> is_healthy (st_report (snd (?m s1))) = false => change (keeps_bad m) end.
  apply bad_quiet. quiet.
Qed.
Lemma bad_unverifiable {A} now heartbeat cause uncertain :
  keeps_bad (unverifiable (A := A) state_path now heartbeat cause uncertain).
Proof.
  intros s Hs. pose proof (unverifiable_report (A := A) state_path now heartbeat cause uncertain s) as Hu.
  destruct (unverifiable _ _ _ _ _ s) as [r s1]. cbn [snd]. by destruct Hu as [_ [|[-> _]]].
Qed.
Lemma bad_or {A} now heartbeat classes cause (m : eff store A) :
  quiet_report m -> keeps_bad (or_unverifiable state_path now heartbeat classes cause m).
Proof.
  intros Hm. unfold or_unverifiable. apply bad_bind; [by apply bad_quiet, quiet_attempt|]. intros [a|e].
  - by apply bad_quiet.
  - destruct (caught _ _); [apply bad_unverifiable|by apply bad_quiet].
Qed.
Lemma bad_drain now heartbeat a unknown continuing pending n :
  keeps_bad (drain state_path now heartbeat a unknown continuing pending n).
Proof.
  unfold drain. destruct (_ <? _)%nat; [|by apply bad_quiet].
  apply bad_stage; [apply bad_lift, bad_persist|]. intros _u. cbv zeta.
  destruct (_ <? _)%nat; [apply bad_unverifiable|].
  apply bad_stage; [apply bad_or, quiet_events|]. intros _v. by apply bad_quiet.
Qed.

Lemma failed_append_status a e report :
  get (report_failed_append events_path a e report) "status" =
  match report with
  | JObj _ => if is_empty (as_severe a) then JStr (lit "MONITOR_DATA_FAILURE") else get report "status"
  | _ => JNull
  end.
Proof.
  unfold report_failed_append, set_field, set_fields.
  destruct report as [| | | | | |d]; [by destruct (is_empty _)..|].
  destruct (is_empty _); cbn [get].
  - rewrite dget_set_all; [reflexivity|]. apply NoDup_cons. split; [|apply NoDup_singleton].
    by intros [=]%list_elem_of_singleton.
  - rewrite dget_set_all by apply NoDup_singleton. reflexivity.
Qed.
Lemma bad_failed a e report :
  is_healthy report = false -> is_healthy (report_failed_append events_path a e report) = false.
Proof.
  unfold is_healthy, field_is. rewrite failed_append_status. destruct report; try done.
  by destruct (is_empty _).
Qed.
Lemma bad_replay a pending ready_pending monitor : keeps_bad (replay events_path a pending ready_pending monitor).
Proof.
  intros s Hs. unfold replay, mbind, eff_bind. cbn [report_now].
  destruct (_ ++ _) as [|ev evs]; [done|].
  pose proof (quiet_attempt _ (quiet_events (append_durable_events (ev :: evs))) s) as Hq.
  destruct (attempt _ s) as [[[[]|e]|e] s1]; cbn [snd] in Hq;
    [change (is_healthy (st_report s1) = false); by rewrite Hq| |cbn [snd]; by rewrite Hq].
  destruct (caught _ e); [by apply bad_failed|].
  change (is_healthy (st_report s1) = false); by rewrite Hq.
Qed.
Lemma bad_commit now suppressed previous heartbeat a old_severe old_pending :
  keeps_bad (commit_phase state_path events_path now suppressed previous heartbeat a old_severe old_pending).
Proof.
  unfold commit_phase. cbv zeta. destruct (_ && _); [apply bad_unverifiable|].
  apply bad_stage; [apply bad_drain|]. intros [left drained].
  apply bad_stage; [apply bad_lift; destruct (is_empty _); [by apply bad_quiet|apply bad_persist]|]. intros _u.
  apply bad_stage; [apply bad_lift, bad_replay|]. intros [[rest uncertain] failed].
  apply bad_stage; [apply bad_lift; destruct (_ || _); [apply bad_persist|by apply bad_quiet]|]. intros _v.
  by apply bad_quiet.
Qed.

(** *** Successful writes *)

Lemma call_ok {A} (m : eff store A) s a s' :
  call m s = (Ok a, s') -> exists fs, m (with_faults s fs) = (Ok a, s').
Proof.
  unfold call. destruct (faults s) as [|[]fs] eqn:E; try done.
  - intros Hm. exists []. by rewrite <-E, with_same.
  - intros Hm. by exists fs.
Qed.
Lemma write_state_ok v s s' :
  write_state v s = (Ok tt, s') ->
  st_state s' = Ok (Some (norm v)) /\ st_heartbeat s' = st_heartbeat s /\ st_report s' = st_report s.
Proof. by intros (fs & [= <-])%call_ok. Qed.
Lemma write_heartbeat_ok v s s' :
  write_heartbeat v s = (Ok tt, s') ->
  st_state s' = st_state s /\ st_heartbeat s' = Ok (Some (norm v)) /\ st_report s' = st_report s.
Proof. by intros (fs & [= <-])%call_ok. Qed.

Lemma persist_ok severe uncertain pending s s' :
  persist_snapshots severe uncertain pending false s = (Ok tt, s') ->
  let report := with_outbox (st_report s) pending in
  st_report s' = report /\ st_heartbeat s' = Ok (Some (norm report)) /\
  st_state s' = Ok (Some (norm (snapshot_json report severe uncertain (get report "checked_at_utc")))).
Proof.
  unfold persist_snapshots. intros Hp. cbn zeta. unfold mbind at 1, eff_bind at 1 in Hp. cbn [report_now] in Hp.
  unfold mbind at 1, eff_bind at 1 in Hp. cbn [put_report] in Hp.
  unfold mbind at 1, eff_bind at 1, pure in Hp. cbv zeta in Hp.
  destruct (item (with_outbox (st_report s) pending) "checked_at_utc") as [checked|] eqn:Ei; [|done].
  apply item_get in Ei as <-. unfold mbind at 1, eff_bind at 1 in Hp. cbn [mret eff_ret] in Hp.
  apply eff_bind_inv in Hp as ([] & s2 & (H1 & _ & H3)%write_state_ok & (H4 & H5 & H6)%write_heartbeat_ok).
  split_and!; [by rewrite H6, H3|done|by rewrite H4].
Qed.

Lemma replay_ok a pending ready_pending monitor s rest uncertain failed s' :
  replay events_path a pending ready_pending monitor s = (Ok (rest, uncertain, failed), s') ->
  (uncertain = as_uncertain a /\ st_report s' = st_report s) \/
  (is_empty (as_severe a) = true -> is_healthy (st_report s') = false).
Proof.
  unfold replay, mbind, eff_bind. cbn [report_now].
  destruct (_ ++ _) as [|ev evs]; [intros [= _ <- _ <-]; by left|].
  pose proof (quiet_attempt _ (quiet_events (append_durable_events (ev :: evs))) s) as Hq.
  destruct (attempt _ s) as [[[[]|e]|e] s1]; cbn [snd] in Hq; [|destruct (caught _ e)|]; try done.
  - intros [= _ <- _ <-]. by left.
  - intros [= _ _ _ <-]. right. intros He. cbn [st_report].
    unfold is_healthy, field_is. rewrite failed_append_status, He. by destruct (st_report s).
Qed.

(** *** A healthy report from the start *)

Lemma retained_status report severe detected :
  get (with_retained report severe detected) "status" =
  if is_empty severe then get report "status"
  else match report with JObj _ => JStr (lit "ALARM") | _ => JNull end.
Proof.
  unfold with_retained, set_field, set_fields. cbv zeta.
  assert (NoDup (dkeys [(lit "observation_status", get report "status");
    (lit "retained_prior_p1", episodes_json (List.filter (fun e => negb (existsb (episode_eqb e) detected)) severe))])) as Hn.
  { apply NoDup_cons. split; [by intros [=]%list_elem_of_singleton|apply NoDup_singleton]. }
  destruct report as [| | | | | |d]; [by destruct (is_empty (List.filter _ _)), (is_empty severe)..|].
  destruct (is_empty (List.filter _ _)), (is_empty severe); cbn [get]; try done.
  - rewrite dget_set_all by apply NoDup_singleton. reflexivity.
  - rewrite dget_set_all by apply Hn. reflexivity.
  - rewrite dget_set_all by apply NoDup_singleton. reflexivity.
Qed.

Lemma assess_healthy suppressed old old_uncertain report a :
  assess suppressed old old_uncertain report = Ok a -> is_healthy (as_report a) = true ->
  as_severe a = [] /\ is_healthy report = true.
Proof.
  unfold assess. intros (detected & _ & Ha)%bind_ok.
  destruct (with_severity "P2" issue_code _) as [u|]; [|done]. cbn [fmap result_fmap mbind result_bind] in Ha.
  apply bind_ok in Ha as (observed & _ & Ha). unfold carry_over in Ha.
  assert (forall report severe detected, is_healthy (with_retained report severe detected) = true ->
    severe = [] /\ is_healthy report = true) as Hr.
  { intros r sev det. unfold is_healthy, field_is. rewrite retained_status. destruct sev; cbn [is_empty]; [done|].
    by destruct r. }
  destruct (suppressed && _); injection Ha as <-; cbn [as_report as_severe]; intros [Hs Hh]%Hr; split; try done.
  destruct (is_empty old); [done|]. exfalso. revert Hh. unfold is_healthy, field_is, set_fields.
  destruct report as [| | | | | |d]; try done. cbn [get]. rewrite dget_set_all; [by intros Hx|].
  by_compute.
Qed.
End commits.

(** ** A run that ends well *)

Section healthy_run.
Context `{PyHost}.

(** Merging the older anchors adds an issue only together with the alarm. *)
Lemma merge_component_calm observed old commits m name :
  mg_alarm (merge_component observed old commits m name) = false ->
  mg_alarm m = false /\ mg_issues (merge_component observed old commits m name) = mg_issues m.
Proof.
  unfold merge_component. destruct (merge_anchor _ _ _ _ _) as [d|]; [|done]. unfold merge_stale. cbn [mg_divergence].
  destruct (timestamp _); [|done]. destruct observed; [|done]. destruct (dget commits name); [|done].
  destruct (dget commits _); [|done]. destruct (py_eq _ _); [done|]. by destruct (_ && _).
Qed.
Lemma merge_calm observed old commits m names :
  mg_alarm (foldl (merge_component observed old commits) m names) = false ->
  mg_issues (foldl (merge_component observed old commits) m names) = mg_issues m.
Proof.
  revert m; induction names as [|name names IH]; intros m; [done|]. cbn [foldl]. intros Ha. rewrite IH by done.
  apply merge_component_calm. revert Ha. generalize (merge_component observed old commits m name). intros m'.
  clear IH. revert m'; induction names as [|n names IH]; intros m'; [done|]. cbn [foldl].
  intros Ha. by apply IH, merge_component_calm in Ha as [? _].
Qed.

Lemma set_main_other report v k :
  k <> lit "main_observation" -> get (set_fields report [(lit "main_observation", v)]) k = get report k.
Proof.
  intros Hk. unfold set_fields. destruct report as [| | | | | |d]; try done. cbn [foldl fst snd get].
  rewrite dget_dset. by rewrite (proj2 (str_eqb_neq k _)).
Qed.
Lemma merge_healthy report previous :
  is_healthy (merge_main_observation report previous) = true ->
  is_healthy report = true /\ issues_of (merge_main_observation report previous) = issues_of report.
Proof.
  unfold merge_main_observation. cbv zeta.
  assert (forall v, is_healthy (set_fields report [(lit "main_observation", v)]) = true ->
    is_healthy report = true /\ issues_of (set_fields report [(lit "main_observation", v)]) = issues_of report) as Hmain.
  { intros v. unfold is_healthy, field_is, issues_of. by rewrite !set_main_other. }
  destruct (_ && _); [|by destruct (negb _); [apply Hmain|]].
  destruct (is_dict _); [|apply Hmain].
  set (m := foldl _ _ _). set (first := match mg_divergence m with [] => _ | _ => _ end).
  pose proof (merge_calm (timestamp (get report "checked_at_utc"))
    (as_dict (get (get previous "main_observation") "diverged_since")) (as_dict (get report "commits"))
    (Merging (as_dict (get (get report "main_observation") "diverged_since")) (issues_of report) false)
    [lit "frontend"; lit "api"]) as Hm. fold m in Hm.
  unfold is_healthy, field_is, set_fields. destruct report as [| | | | | |d]; try done.
  destruct (mg_alarm m); cbn [app get].
  { rewrite dget_set_all by by_compute. intros Hx. exfalso. revert Hx. vm_compute. done. }
  unfold issues_of at 1. cbn [get]. rewrite !dget_set_all by by_compute. cbn [mg_issues] in Hm.
  specialize (Hm eq_refl). intros Hx. split; [exact Hx|].
  change (match JList (mg_issues m) with JList l => l | _ => [] end = issues_of (JObj d)). exact Hm.
Qed.

(** A healthy evaluation has seen neither a P1 nor a P2. *)
Lemma evaluated_healthy state_path now read state :
  is_healthy (evaluate_cycle state_path now read state) = true ->
  forall severity code, severity = "P1"%string \/ severity = "P2"%string ->
    ~ observes (issues_of (evaluate_cycle state_path now read state)) severity code.
Proof.
  assert (forall previous initial, let result := match evaluate now read previous initial with
      | (Ok r, _) => r
      | (Err e, issues') =>
          let failure := watcher_failure_report now e in
          match List.filter is_p1 issues' with
          | [] => failure
          | confirmed => set_fields failure
              [(lit "issues", JList (issues_of failure ++ confirmed)); (lit "status", JStr (lit "ALARM"))]
          end
      end in is_healthy result = true -> forall severity code, severity = "P1"%string \/ severity = "P2"%string ->
        ~ observes (issues_of result) severity code) as Hrun.
  { intros previous initial. cbn zeta. destruct (evaluate now read previous initial) as [[r|e] issues] eqn:E.
    - destruct (evaluate_report _ _ _ _ _ _ E) as (n & ->).
      unfold is_healthy, field_is. change (get (report now ?c ?o n issues) "status") with (JStr (status_of issues)).
      intros Hs severity code Hsev (i & Hin & Hi & _). unfold status_of in Hs.
      change (issues_of (report now _ _ n issues)) with issues in Hin.
      assert (existsb (has_severity severity) issues = true) as Hex
        by (apply existsb_exists; exists i; split; [by apply list_elem_of_In|exact Hi]).
      destruct Hsev as [-> | ->]; rewrite Hex in Hs; [done|]. by destruct (existsb (has_severity "P1") issues).
    - by destruct (List.filter is_p1 issues). }
  unfold evaluate_cycle. destruct state as [s|e]; [apply Hrun|].
  destruct (existsb _ _); [apply Hrun|done].
Qed.
End healthy_run.

Section exit_code.
Context `{PyHost} (loads : bytes -> result exn json) (state_path events_path : pystr).

(** The end of a commit that leaves a healthy report. *)
Lemma commit_healthy now suppressed previous heartbeat a old_severe old_pending s ev s' :
  commit_phase state_path events_path now suppressed previous heartbeat a old_severe old_pending s = (Ok (inr ev), s') ->
  is_healthy (st_report s') = true -> as_severe a = [] ->
  exists report checked pending,
    st_state s' = Ok (Some (norm (snapshot_json (with_outbox report pending) [] (as_uncertain a) checked))) /\
    st_heartbeat s' = Ok (Some (norm (with_outbox report pending))) /\ is_healthy report = true.
Proof.
  intros Hc Hh Ha. revert Hc. unfold commit_phase. cbv zeta.
  destruct (_ && _).
  { pose proof (unverifiable_report (A := option pystr) state_path now heartbeat
      "pending transition storage exhausted: observer must stop" false s) as Hu.
    destruct (unverifiable _ _ _ _ _ s) as [r s1]. intros [= -> ->]. by destruct (proj1 Hu ev). }
  unfold stage_bind. intros ([x|[left drained]] & s1 & _ & Hc)%eff_bind_inv; [done|].
  set (ready_pending := if suppressed then [] else _) in Hc.
  apply eff_bind_inv in Hc as ([x|_u] & s2 & _ & Hc); [done|].
  apply eff_bind_inv in Hc as ([x|[[rest uncertain] failed]] & s3 & Hr & Hc); [done|].
  apply eff_bind_inv in Hr as (puf & s3' & Hr & [= -> ->]).
  apply eff_bind_inv in Hc as ([x|_v] & s4 & Hp & Hc); [done|]. injection Hc as _ <-.
  apply eff_bind_inv in Hp as (_w & s4' & Hp & [= _ ->]).
  assert (is_empty (as_severe a) = true) as He by by rewrite Ha.
  destruct (_ || _) eqn:Ew.
  - destruct _w. apply persist_ok in Hp as (H1 & H2 & H3). rewrite H1, healthy_outbox in Hh.
    destruct (replay_ok _ _ _ _ _ _ _ _ _ _ Hr) as [[-> _]|Hb]; [|rewrite (Hb He) in Hh; done].
    eexists _, _, _. split_and!; [rewrite Ha in H3; exact H3|exact H2|exact Hh].
  - exfalso. apply orb_false_iff in Ew as [Ew Hne]. apply orb_false_iff in Ew as [Ew _].
    apply negb_false_iff in Ew, Hne. by destruct ready_pending.
Qed.

(** Ending early leaves an unhealthy report. *)
Definition sour {A} (m : stage A) : Prop := forall s x s',
  m s = (Ok (inl x), s') -> is_healthy (st_report s') = false.
Lemma sour_lift {A} (m : eff store A) : sour (lift m).
Proof. intros s x s' (a & s1 & _ & Hn)%eff_bind_inv. discriminate. Qed.
Lemma sour_bind {A B} (m : stage A) (k : A -> stage B) : sour m -> (forall a, sour (k a)) -> sour (stage_bind m k).
Proof.
  intros Hm Hk s x s' ([y|a] & s1 & Hr & Hx)%eff_bind_inv; [|by eapply Hk].
  injection Hx as <- <-. by eapply Hm.
Qed.
Lemma sour_off {A} (m : stage A) : calls_off m -> sour m.
Proof. intros Hm s x s' E. specialize (Hm s). by rewrite E in Hm. Qed.
Lemma sour_commit now suppressed previous heartbeat a old_severe old_pending :
  sour (commit_phase state_path events_path now suppressed previous heartbeat a old_severe old_pending).
Proof.
  unfold commit_phase. cbv zeta. destruct (_ && _); [apply sour_off, calls_off_unverifiable|].
  apply sour_bind; [|intros [left drained]].
  { unfold drain. destruct (_ <? _)%nat; [|by apply sour_off, calls_off_next].
    apply sour_bind; [apply sour_lift|]. intros _u. cbv zeta.
    destruct (_ <? _)%nat; [apply sour_off, calls_off_unverifiable|].
    apply sour_bind; [apply sour_off, calls_off_or, quiet_events|]. intros _v. by apply sour_off, calls_off_next. }
  apply sour_bind; [apply sour_lift|]. intros _u. apply sour_bind; [apply sour_lift|].
  intros [[rest uncertain] failed].
  apply sour_bind; [apply sour_lift|]. intros _w. by apply sour_off, calls_off_next.
Qed.

(** A quiet phase of a recording that ends healthy goes on. *)
Lemma stage_step {A B} (m : stage A) (k : A -> stage B) s r s' :
  calls_off m -> stage_bind m k s = (Ok r, s') -> is_healthy (st_report s') = true ->
  exists a s1, st_report s1 = st_report s /\ k a s1 = (Ok r, s').
Proof.
  intros Hm (x & s1 & Hr & Hk)%eff_bind_inv Hh. specialize (Hm s). rewrite Hr in Hm.
  destruct x as [ev|a]; [|by exists a, s1]. injection Hk as _ <-. congruence.
Qed.
Lemma put_step {B} report (k : unit -> stage B) s r s' :
  stage_bind (lift (put_report report)) k s = (Ok r, s') ->
  exists s1, st_report s1 = report /\ k tt s1 = (Ok r, s').
Proof.
  intros (x & s1 & Hr & Hk)%eff_bind_inv. injection Hr as <- Hs. exists s1. split; [by rewrite <-Hs|exact Hk].
Qed.

Lemma record_healthy now suppressed s ev s' :
  record loads state_path events_path now true suppressed s = (Ok ev, s') -> is_healthy (st_report s') = true ->
  exists report checked pending uncertain,
    st_state s' = Ok (Some (norm (snapshot_json (with_outbox report pending) [] uncertain checked))) /\
    st_heartbeat s' = Ok (Some (norm (with_outbox report pending))) /\ is_healthy report = true /\
    is_healthy (st_report s) = true /\
    forall c, c ∈ uncertain <-> observes (issues_of (st_report s)) "P2" c.
Proof.
  unfold record. intros (heartbeat & s1 & Hl & Hr)%eff_bind_inv Hh.
  assert (st_report s1 = st_report s) as <-.
  { assert (quiet_report last_heartbeat) as Hq by (apply quiet_try_except; [|intros e]; quiet).
    specialize (Hq s). by rewrite Hl in Hq. }
  apply eff_bind_inv in Hr as (r & s2 & Hr & He).
  assert (s2 = s') as -> by (by destruct r; injection He). clear He Hl s.
  unfold record_stages in Hr. apply eff_bind_inv in Hr as (r1 & s3 & Hn & Hr). injection Hn as <- <-.
  change (outdated true (st_report s1) heartbeat) with false in Hr. rewrite andb_false_r in Hr.
  apply stage_step in Hr as ([previous no_prior] & s2 & E2 & Hr); [|apply prior_calls_off|done].
  apply put_step in Hr as (s3 & E3 & Hr).
  destruct (severe_of _ _); [|
    pose proof (unverifiable_report (A := option pystr) state_path now heartbeat "missing or malformed severe incident list" false s3) as Hv;
    rewrite Hr in Hv; destruct Hv as [_ [Hv|[_ Hv]]]; [congruence|done]].
  change (outdated true ?r previous) with false in Hr. cbv iota in Hr.
  apply stage_step in Hr as (pending & s4 & E4 & Hr); [|by apply calls_off_or, quiet_queue|done].
  apply stage_step in Hr as ([left severe] & s5 & E5 & Hr); [|apply tentative_calls_off|done].
  apply eff_bind_inv in Hr as (r1 & s6 & Ha & Hr). apply eff_bind_inv in Ha as (a & s6' & Ha & Hx).
  injection Hx as <- <-. injection Ha as Ha <-.
  apply put_step in Hr as (s7 & E7 & Hr).
  assert (is_healthy (as_report a) = true) as Hra.
  { destruct (is_healthy (as_report a)) eqn:Ea; [done|]. rewrite <-E7 in Ea.
    match type of Hr with commit_phase _ _ ?n ?su ?p ?h ?b ?os ?op ?st = _ =>
      pose proof (bad_commit state_path events_path n su p h b os op st Ea) as Hb end.
    rewrite Hr in Hb. cbn [snd] in Hb. congruence. }
  destruct (assess_healthy _ _ _ _ _ Ha Hra) as [Hsev Hrep].
  destruct (merge_healthy _ _ Hrep) as [Hrs Hiss].
  destruct r as [x|ev']; [apply sour_commit in Hr; congruence|].
  destruct (commit_healthy _ _ _ _ _ _ _ _ _ _ Hr Hh Hsev) as (report & checked & queue & H1 & H2 & H3).
  exists report, checked, queue, (as_uncertain a). split_and!; try done.
  intros c. destruct (assess_inv _ _ _ _ _ Ha) as (_ & Hunc & _). by rewrite Hunc, Hiss.
Qed.

Lemma persist_zero clock suppressed s s' :
  persist_cycle loads state_path events_path clock suppressed s = (Ok 0, s') ->
  exists s1 ev, st_report s1 = st_report s /\
    record loads state_path events_path (clock 1%nat) true suppressed s1 = (Ok ev, s') /\
    is_healthy (st_report s') = true.
Proof.
  unfold persist_cycle. intros ([] & s1 & Hf & Hp)%eff_bind_inv.
  assert (st_report s1 = st_report s) as E1
    by (pose proof (quiet_events (fun j => (Ok tt, Journal (jf_bytes j) [] (jf_writes j) (jf_faults j))) s) as Hq;
        unfold forget_committed in Hf; by rewrite Hf in Hq).
  apply eff_bind_inv in Hp as (r & s2 & Hr & Hp). unfold attempt in Hr.
  destruct (record _ _ _ _ _ _ s1) as [r' s2'] eqn:Er. injection Hr as <- <-. destruct r' as [ev|e].
  - apply eff_bind_inv in Hp as (report & s3 & Hn & Hp). injection Hn as <- <-. injection Hp as Hz <-.
    exists s1, ev. split_and!; [done..|]. by destruct (is_healthy _).
  - exfalso. destruct (caught _ e); [|done]. apply eff_bind_inv in Hp as (report & s3 & _ & Hp).
    apply eff_bind_inv in Hp as (_u & s4 & _ & Hp). apply eff_bind_inv in Hp as (names & s5 & _ & Hp).
    apply eff_bind_inv in Hp as (_v & s6 & _ & Hp). discriminate.
Qed.

(** C4: Exit code 0 can be trusted.  If a run of the watcher ends with it, no other run held the lock,
    the run really looked and what it saw was healthy (no P1 and no P2), and it left behind a state
    without an incident and without an uncertain code, and a healthy heartbeat.  A failed write, a
    state that cannot be verified, a retained incident, a full queue or a journal that refuses its
    rows all end in another code. *)
Theorem exit_zero_sound clock read held s s' :
  run_cycle loads state_path events_path clock read held s = (Ok 0, s') ->
  held = false /\
  (exists prior, let observed := evaluate_cycle state_path (clock 0%nat) read prior in
     is_healthy observed = true /\
     forall severity code, severity = "P1"%string \/ severity = "P2"%string ->
       ~ observes (issues_of observed) severity code) /\
  (exists state, st_state s' = Ok (Some state) /\ get state "severe" = JList [] /\ get state "uncertain" = JList []) /\
  (exists heartbeat, st_heartbeat s' = Ok (Some heartbeat) /\ get heartbeat "status" = JStr (lit "HEALTHY")).
Proof.
  unfold run_cycle. destruct held; [discriminate|]. intros (admission & s1 & _ & Hr)%eff_bind_inv.
  apply eff_bind_inv in Hr as ([] & s2 & Ho & Hr).
  apply persist_zero in Hr as (s3 & ev & E3 & Hr & Hh).
  destruct (record_healthy _ _ _ _ _ Hr Hh) as (report & checked & pending & uncertain & H1 & H2 & H3 & H4 & H5).
  rewrite E3 in H4, H5. destruct admission; [|injection Ho as <-; discriminate H4].
  apply eff_bind_inv in Ho as (prior & s4 & _ & Ho). injection Ho as <-. cbn [st_report] in H4, H5.
  pose proof (evaluated_healthy _ _ _ _ H4) as Hs. split_and!; [done|by exists prior| |].
  - eexists. split; [exact H1|]. rewrite !get_norm. split; [reflexivity|].
    assert (uncertain = []) as ->; [|reflexivity]. destruct uncertain as [|c l]; [done|exfalso].
    apply (Hs "P2"%string c); [by right|]. apply H5. by left.
  - eexists. split; [exact H2|]. rewrite get_norm, field_outbox by by left.
    revert H3. unfold is_healthy, field_is. by intros ->%py_eq_str.
Qed.
End exit_code.

(** ** Witnesses *)

#[local] Existing Instance clock_host.

Definition demo_clear : json :=
  JObj [(lit "status", JStr (lit "HEALTHY")); (lit "issues", JList []); (lit "commits", JObj [])].

Lemma transition_exact_witness :
  exists a, assess false [(lit "stale_api", lit "old")] [] demo_clear = Ok a /\
    (as_transition a = Some (lit "RECOVERY") <->
       ~ at_capacity false demo_clear /\ [(lit "stale_api", lit "old")] <> [] /\
       (forall code, ~ observes (issues_of demo_clear) "P1" code) /\
       forall code, code ∈ codes_of [(lit "stale_api", lit "old")] -> ~ inconclusive demo_clear code) /\
    as_transition a = Some (lit "RECOVERY").
Proof.
  destruct (assess false [(lit "stale_api", lit "old")] [] demo_clear) as [a|] eqn:Ea; [|vm_compute in Ea; discriminate].
  exists a. split; [done|]. split; [exact (proj2 (transition_exact _ _ _ _ _ Ea))|].
  vm_compute in Ea. injection Ea as <-. vm_compute. reflexivity.
Defined.

Definition demo_calm : store * Z :=
  let '(r, s) := run_cycle (fun _ => Err (Exn ValueError [])) [] [] (fun _ => seconds 1) (demo_answers 97) false
                   (Store (Ok None) (Ok None) (Journal [] [] [] []) JNull) in
  (s, match r with Ok z => z | Err _ => 1 end).

Lemma exit_zero_sound_witness :
  snd demo_calm = 0 /\
  exists state, st_state (fst demo_calm) = Ok (Some state) /\ get state "severe" = JList [].
Proof.
  unfold demo_calm.
  destruct (run_cycle (fun _ => Err (Exn ValueError [])) [] [] (fun _ => seconds 1) (demo_answers 97) false
    (Store (Ok None) (Ok None) (Journal [] [] [] []) JNull)) as [r s] eqn:E.
  assert (r = Ok 0) as -> by (apply (f_equal fst) in E; vm_compute in E; symmetry; exact E).
  split; [reflexivity|].
  destruct (exit_zero_sound _ _ _ _ _ _ _ _ E) as (_ & _ & (state & H1 & H2 & _) & _). by exists state.
Defined.
