(* ===== verification/ReviewMarkers.v ===== *)
(** * Markers in comments and pull request texts

    The HTML comments by which the review tooling marks a text (scripts/quality/review_governance.py,
    its regular expressions, with scripts/quality/attention_impact_contract.py): the expressions as
    matchers that return what is left of the text, the left-to-right search for them, and the
    attention contract of changes to product logic. *)

From S2P Require Import Prelude PyStr Sha256.

(** ** Regular expressions *)

(** A letter of a pattern under [re.IGNORECASE]; [İ], [ı], [ſ] and the Kelvin sign fold to ASCII. *)
Definition ci (a c : N) : bool :=
  ((ascii_tolower c =? a) || ((a =? 105) && ((c =? 304) || (c =? 305)))
   || ((a =? 115) && (c =? 383)) || ((a =? 107) && (c =? 8490)))%N.
Fixpoint ci_prefix (p s : pystr) : option pystr :=
  match p, s with
  | [], _ => Some s
  | a :: p', c :: s' => if ci a c then ci_prefix p' s' else None
  | _ :: _, [] => None
  end.

(** [\s*] before a character that is no space *)
Definition skip_space (s : pystr) : pystr := lstrip is_space s.

(** [<!--\s*name] *)
Definition comment_start (name s : pystr) : option pystr :=
  rest ← ci_prefix "<!--" s; ci_prefix name (skip_space rest).
(** [\s*-->] *)
Definition comment_end (s : pystr) : option pystr := ci_prefix "-->" (skip_space s).

(** A match that starts at [ma_start]: its group and the text behind it. *)
Record matched (A : Type) : Type := Matched { ma_start : nat; ma_group : A; ma_rest : pystr }.
Arguments Matched {A}.
Arguments ma_start {A}.
Arguments ma_group {A}.
Arguments ma_rest {A}.

(** [re.finditer]: leftmost matches that do not overlap; the fuel is the length of the text. *)
Fixpoint finditer_from {A} (fuel : nat) (m : pystr -> option (A * pystr)) (pos : nat) (s : pystr)
    : list (matched A) :=
  match fuel, s with
  | S fuel', c :: s' =>
      match m s with
      | Some (a, rest) =>
          Matched pos a rest :: finditer_from fuel' m (pos + (length s - length rest)) rest
      | None => finditer_from fuel' m (S pos) s'
      end
  | _, _ => []
  end.
Definition finditer {A} (m : pystr -> option (A * pystr)) (s : pystr) : list (matched A) :=
  finditer_from (length s) m 0 s.
Definition findall {A} (m : pystr -> option (A * pystr)) (s : pystr) : list A :=
  ma_group <$> finditer m s.

Definition RISK_RE (s : pystr) : option (pystr * pystr) :=
  rest ← comment_start "weltgewebe-risk:" s;
  match skip_space rest with
  | r :: d :: rest' =>
      if ci 114 r && in_range 48 51 d then (fun t => ([r; d], t)) <$> comment_end rest' else None
  | _ => None
  end.

Definition IMPACT_RE (s : pystr) : option (pystr * pystr) :=
  rest ← comment_start "weltgewebe-attention-impact:" s;
  let body := skip_space rest in
  let word w := t ← ci_prefix w body; (fun u => (take (length w) body, u)) <$> comment_end t in
  match word (lit "contract") with Some r => Some r | None => word (lit "none") end.

(** [([^\r\n<>]+?)\s*-->]: the group grows until the end of the comment fits. *)
Definition rationale_char (c : N) : bool := negb (existsb (N.eqb c) [13; 10; 60; 62]%N).
Fixpoint lazy_group (s : pystr) : option (pystr * pystr) :=
  match s with
  | [] => None
  | c :: s' =>
      if rationale_char c then
        match comment_end s' with
        | Some rest => Some ([c], rest)
        | None => (fun gr => (c :: fst gr, snd gr)) <$> lazy_group s'
        end
      else None
  end.
(** The white space before the group gives characters back while the group finds no match. *)
Fixpoint give_back (n : nat) (s : pystr) : option (pystr * pystr) :=
  match lazy_group (drop n s), n with
  | Some r, _ => Some r
  | None, S n' => give_back n' s
  | None, O => None
  end.
Definition RATIONALE_RE (s : pystr) : option (pystr * pystr) :=
  rest ← comment_start "weltgewebe-attention-rationale:" s;
  give_back (run_length is_space rest) rest.

(** [\b] after a word: what follows is no word character. *)
Definition word_end `{PyHost} (s : pystr) : bool := match s with [] => true | c :: _ => negb (is_word c) end.
Definition start_marker `{PyHost} (name s : pystr) : option (unit * pystr) :=
  rest ← comment_start name s; if word_end rest then Some (tt, rest) else None.
Definition EVIDENCE_START_RE `{PyHost} : pystr -> option (unit * pystr) :=
  start_marker "weltgewebe-review-evidence".
Definition FORWARDED_EVIDENCE_START_RE `{PyHost} : pystr -> option (unit * pystr) :=
  start_marker "weltgewebe-forwarded-review".

(** ** Risk classes *)

Inductive risk : Type := R0 | R1 | R2 | R3.
#[global] Instance risk_eq_dec : EqDecision risk.
Proof. solve_decision. Defined.
Definition risk_text (r : risk) : pystr :=
  match r with R0 => lit "R0" | R1 => lit "R1" | R2 => lit "R2" | R3 => lit "R3" end.
Definition risk_of_text (s : pystr) : option risk :=
  List.find (fun r => str_eqb (risk_text r) s) [R0; R1; R2; R3].
Definition RISK_ORDER (r : risk) : nat := match r with R0 => 0 | R1 => 1 | R2 => 2 | R3 => 3 end.
Definition REQUIRED_REVIEWS (r : risk) : nat := match r with R0 => 0 | R1 => 1 | R2 => 2 | R3 => 2 end.

Definition parse_risk_class `{PyHost} (pr_body : pystr) : option risk :=
  match findall RISK_RE pr_body with [r] => risk_of_text (upper r) | _ => None end.

(** ** The attention contract *)

Definition PRODUCT_LOGIC_PREFIXES : list pystr := [lit "apps/"; lit "contracts/domain/"].
Definition MIN_RATIONALE_BYTES : Z := 20.
Definition MAX_RATIONALE_BYTES : Z := 500.

Definition product_path (path : pystr) : bool := existsb (fun p => startswith p path) PRODUCT_LOGIC_PREFIXES.
Definition product_logic_changes (changed_files : list pystr) : list pystr :=
  sort_str (List.filter product_path changed_files).

Definition attention_impact_decision `{PyHost} (pr_body : pystr) : option pystr :=
  match findall IMPACT_RE pr_body with [r] => Some (lower r) | _ => None end.

Definition marker_missing : pystr := lit "product logic changed but the PR body must contain exactly one Attention impact marker: <!-- weltgewebe-attention-impact: contract --> or <!-- weltgewebe-attention-impact: none -->".
Definition rationale_missing : pystr := lit "Attention impact=none requires exactly one rationale marker: <!-- weltgewebe-attention-rationale: concrete reason -->".
Definition rationale_size : pystr := lit "Attention impact rationale must be between 20 and 500 UTF-8 bytes".
Definition rationale_control : pystr := lit "Attention impact rationale contains control characters".
Definition contract_unchanged : pystr := lit "Attention impact=contract requires at least one changed canonical product contract from the canonical product zone".

Definition rationale_errors (rationale : pystr) : result exn (list pystr) :=
  text ← encode rationale;
  let n := Z.of_nat (length text) in
  Ok ((if ((MIN_RATIONALE_BYTES <=? n) && (n <=? MAX_RATIONALE_BYTES))%Z then [] else [rationale_size])
      ++ (if existsb (fun c => (c <? 32)%N && negb (c =? 9)%N) rationale then [rationale_control] else [])).

Section contract.
Context `{PyHost}.

Definition validate_attention_impact_markers (pr_body : pystr) (changed_files : list pystr)
    : result exn (list pystr) :=
  match product_logic_changes changed_files with
  | [] => Ok []
  | _ =>
      match findall IMPACT_RE pr_body with
      | [impact] =>
          if str_eqb (lower impact) "contract" then Ok []
          else
            match findall RATIONALE_RE pr_body with
            | [raw] => rationale_errors (strip raw)
            | _ => Ok [rationale_missing]
            end
      | _ => Ok [marker_missing]
      end
  end.

Definition validate_attention_impact_contract_binding (pr_body : pystr)
    (changed_files canonical_product_docs : list pystr) : result exn (list pystr) :=
  errors ← validate_attention_impact_markers pr_body changed_files;
  match errors, product_logic_changes changed_files with
  | _ :: _, _ | _, [] => Ok errors
  | [], _ =>
      if bool_decide (attention_impact_decision pr_body = Some (lit "contract")) then
        match sort_str (List.filter (fun f => str_in f canonical_product_docs) (remove_dups changed_files)) with
        | [] => Ok [contract_unchanged]
        | _ => Ok []
        end
      else Ok []
  end.
End contract.

(** ** The canonical product documents of the manifest *)

Definition scalar_char (c : N) : bool :=
  ascii_upper c || ascii_lower_p c || ascii_digit c || existsb (N.eqb c) [46; 95; 47; 45]%N.
Definition manifest_scalar (raw field : pystr) : result exn pystr :=
  let value := strip raw in
  if bool_decide (value = []) || negb (forallb scalar_char value) then
    raise ValueError (lit "unsupported " ++ field ++ lit " scalar in trusted manifest")
  else if startswith "/" value || str_in ".." (split_on 47 value) then
    raise ValueError (lit "unsafe " ++ field ++ lit " path in trusted manifest")
  else Ok value.

(** The lines of the product zone, up to the next zone. *)
Definition zone_ends (line : pystr) : bool := startswith "  " line && negb (startswith "    " line).
Fixpoint zone_lines (lines : list pystr) : list pystr :=
  match lines with
  | [] => []
  | l :: lines' => if zone_ends l then [] else l :: zone_lines lines'
  end.

Record zone : Type := Zone {
  z_path : option pystr; z_docs : list pystr; z_in_docs : bool; z_saw_docs : bool }.

Definition zone_line (z : zone) (line : pystr) : result exn zone :=
  if bool_decide (strip line = []) || startswith "#" (skip_space line) then Ok z
  else if startswith "    path:" line then
    match z_path z with
    | Some _ => raise ValueError "trusted product zone defines path more than once"
    | None =>
        path ← manifest_scalar (drop 9 line) "product.path";
        Ok (Zone (Some path) (z_docs z) false (z_saw_docs z))
    end
  else if str_eqb line "    canonical_docs:" then
    if z_saw_docs z then raise ValueError "trusted product zone defines canonical_docs more than once"
    else Ok (Zone (z_path z) (z_docs z) true true)
  else if z_in_docs z && startswith "      - " line then
    doc ← manifest_scalar (drop 8 line) "product.canonical_docs";
    Ok (Zone (z_path z) (z_docs z ++ [doc]) true (z_saw_docs z))
  else if startswith "    " line then Ok (Zone (z_path z) (z_docs z) false (z_saw_docs z))
  else raise ValueError "unsupported indentation in trusted product zone".

Definition canonical_product_docs_from_manifest_text (text : pystr) : result exn (list pystr) :=
  let lines := splitlines text in
  match List.filter (fun il => str_eqb (snd il) "  product:") (enumerate lines) with
  | [(i, _)] =>
      z ← foldM zone_line (Zone None [] false false) (zone_lines (drop (S i) lines));
      match z_path z with
      | None => raise ValueError "trusted product zone must define path"
      | Some path =>
          if negb (z_saw_docs z) || bool_decide (z_docs z = []) then
            raise ValueError "trusted product zone must define canonical_docs"
          else if negb (bool_decide (NoDup (z_docs z))) then
            raise ValueError "trusted product canonical_docs contains duplicates"
          else Ok ((fun doc => rstrip (N.eqb 47) path ++ lit "/" ++ doc) <$> z_docs z)
      end
  | _ => raise ValueError "trusted manifest must define exactly one product zone"
  end.

(** ** The attention contract, as it is meant *)

Section attention.
Context `{PyHost}.

(** The one rationale of a change that claims no impact. *)
Definition rationale_given (pr_body : pystr) : Prop :=
  exists raw text, findall RATIONALE_RE pr_body = [raw] /\ encode (strip raw) = Ok text /\
    (MIN_RATIONALE_BYTES <= Z.of_nat (length text) <= MAX_RATIONALE_BYTES)%Z /\
    Forall (fun c => (32 <= c)%N \/ c = 9%N) (strip raw).

Lemma product_changes_nil files : product_logic_changes files = [] <-> Forall (fun f => product_path f = false) files.
Proof.
  unfold product_logic_changes, sort_str. split.
  - intros E. apply Forall_forall. intros f Hf. destruct (product_path f) eqn:Ep; [|done]. exfalso.
    assert (f ∈ sort_by str_leb (List.filter product_path files)) as Hin.
    { apply elem_of_sort_by, list_elem_of_In, filter_In. split; [by apply list_elem_of_In|done]. }
    rewrite E in Hin. by apply elem_of_nil in Hin.
  - rewrite Forall_forall. intros Hf. destruct (sort_by _ _) as [|f l] eqn:E; [done|]. exfalso.
    assert (f ∈ sort_by str_leb (List.filter product_path files)) as Hin by (rewrite E; by left).
    apply elem_of_sort_by, list_elem_of_In, filter_In in Hin as [Hin Hp].
    rewrite Hf in Hp; [done|by apply list_elem_of_In].
Qed.

Lemma rationale_errors_nil rationale :
  rationale_errors rationale = Ok [] <->
  exists text, encode rationale = Ok text /\
    (MIN_RATIONALE_BYTES <= Z.of_nat (length text) <= MAX_RATIONALE_BYTES)%Z /\
    Forall (fun c => (32 <= c)%N \/ c = 9%N) rationale.
Proof.
  unfold rationale_errors. rewrite bind_ok. apply exist_proper. intros text.
  assert (existsb (fun c => (c <? 32)%N && negb (c =? 9)%N) rationale = false <->
          Forall (fun c => (32 <= c)%N \/ c = 9%N) rationale) as Hc.
  { rewrite <-not_true_iff_false, existsb_exists, Forall_forall. split.
    - intros Hn c Hin. destruct (N.ltb_spec c 32); [|by left]. destruct (N.eqb_spec c 9); [by right|].
      exfalso. apply Hn. exists c. split; [by apply list_elem_of_In|]. apply andb_true_iff.
      split; [by apply N.ltb_lt|]. by apply negb_true_iff, N.eqb_neq.
    - intros Hf (c & Hin & [Hlt Hne]%andb_true_iff). apply list_elem_of_In in Hin.
      apply N.ltb_lt in Hlt. apply negb_true_iff, N.eqb_neq in Hne. destruct (Hf c Hin); lia. }
  rewrite <-Hc.
  destruct (Z.leb_spec MIN_RATIONALE_BYTES (Z.of_nat (length text))),
    (Z.leb_spec (Z.of_nat (length text)) MAX_RATIONALE_BYTES), (existsb _ rationale);
    cbn; intuition (try done; lia).
Qed.

(** The attention contract is met exactly when no file of the product logic changed, or the text
    of the pull request holds one impact marker and this says either "contract" while a canonical
    product document changed, or "none" with one rationale of 20 to 500 UTF-8 bytes that holds no
    control character but tabs. *)
Theorem attention_contract_exact pr_body changed docs :
  validate_attention_impact_contract_binding pr_body changed docs = Ok [] <->
  Forall (fun f => product_path f = false) changed \/
  exists impact, findall IMPACT_RE pr_body = [impact] /\
    ((lower impact = lit "contract" /\ exists f, f ∈ changed /\ f ∈ docs) \/
     (lower impact <> lit "contract" /\ rationale_given pr_body)).
Proof.
  rewrite <-product_changes_nil.
  unfold validate_attention_impact_contract_binding, validate_attention_impact_markers, attention_impact_decision.
  destruct (product_logic_changes changed) as [|f0 fs] eqn:Ep; [cbn; naive_solver|].
  destruct (findall IMPACT_RE pr_body) as [|impact [|i2 l]] eqn:Ei; [cbn; naive_solver| |cbn; naive_solver].
  destruct (str_eqb_spec (lower impact) "contract") as [Ec|Ec].
  - cbn [mbind result_bind]. rewrite bool_decide_true by (by rewrite Ec).
    assert (sort_str (List.filter (fun f => str_in f docs) (remove_dups changed)) = [] <->
            ~ exists f, f ∈ changed /\ f ∈ docs) as Hd.
    { assert (forall f, f ∈ sort_str (List.filter (fun f => str_in f docs) (remove_dups changed)) <->
                f ∈ changed /\ f ∈ docs) as Hf.
      { intros f. unfold sort_str.
        rewrite elem_of_sort_by, list_elem_of_In, filter_In, <-list_elem_of_In, elem_of_remove_dups.
        by rewrite str_in_elem. }
      destruct (sort_str _) as [|f l].
      - split; [|done]. intros _ [f Hin]. by apply Hf, elem_of_nil in Hin.
      - split; [done|]. intros Hn. exfalso. apply Hn. exists f. apply Hf. by left. }
    destruct (sort_str _) as [|f l] eqn:Es.
    + split; [intros [=]|]. intros [[=]|(i & [= <-] & [[_ Hf]|[Hn _]])]; [|done]. by apply Hd in Hf.
    + split; [|done]. intros _. right. exists impact. split; [done|]. left. split; [done|].
      destruct (decide (Exists (fun f => f ∈ docs) changed)) as [(g & Hg & Hg')%Exists_exists|Hn]; [by exists g|].
      exfalso. enough (f :: l = []) by done. apply Hd. intros (g & Hg & Hg'). apply Hn, Exists_exists. by exists g.
  - rewrite bool_decide_false by congruence. unfold rationale_given.
    destruct (findall RATIONALE_RE pr_body) as [|raw [|r2 l]] eqn:Er; cbn [mbind result_bind].
    + naive_solver.
    + pose proof (rationale_errors_nil (strip raw)) as Hr.
      destruct (rationale_errors (strip raw)) as [[|e es]|] eqn:Ee; cbn [mbind result_bind]; naive_solver.
    + naive_solver.
Qed.
End attention.
