(* ===== verification/ReviewDiff.v ===== *)
(** * The diff under review

    scripts/quality/review_governance.py, up to the bundle: the statistics git reports, the paths
    that raise the risk class, the files that cannot be reviewed as text with the fonts pinned by
    hash, the metadata the workflow materialises, and the checks a bundle passes. *)

From S2P Require Import Prelude PyStr Json Sha256 Utf8 ReviewMarkers.
Open Scope Z_scope.

Definition GovernanceError : exc_class := Sub "GovernanceError" RuntimeError.
Definition governance {A} (m : pystr) : result exn A := raise GovernanceError m.

Definition SCHEMA_VERSION : Z := 1.
Definition MAX_ARTIFACT_BYTES : Z := 100 * 1024 * 1024.

(** ** Bytes as text and numbers *)

(** [raw.decode("utf-8", "surrogateescape")] *)
Definition decode_git_path : bytes -> pystr := decode_escaped.

(** [int(b)] of bytes: blanks around, a sign, digits with single underscores between them, at most
    4300 digits. *)
Definition c_space (c : N) : bool := in_range 9 13 c || (c =? 32)%N.
Fixpoint dec_digits (acc : Z) (s : bytes) : option Z :=
  match s with
  | [] => Some acc
  | c :: s' =>
      if ascii_digit c then dec_digits (acc * 10 + (Z.of_N c - 48)) s'
      else if (c =? 95)%N then
        match s' with
        | d :: s'' => if ascii_digit d then dec_digits (acc * 10 + (Z.of_N d - 48)) s'' else None
        | [] => None
        end
      else None
  end.
Definition MAX_STR_DIGITS : Z := 4300.
Definition int_of_bytes (s : bytes) : option Z :=
  let t := rstrip c_space (lstrip c_space s) in
  let '(sign, body) := match t with
    | 45%N :: b => (-1, b) | 43%N :: b => (1, b) | _ => (1, t) end in
  match body with
  | c :: _ =>
      if ascii_digit c && (Z.of_nat (length (List.filter ascii_digit body)) <=? MAX_STR_DIGITS)
      then Z.mul sign <$> dec_digits 0 body else None
  | [] => None
  end.

(** [s.split(c, 1)] when there is a separator. *)
Fixpoint cut (c : N) (s : bytes) : option (bytes * bytes) :=
  match s with
  | [] => None
  | x :: s' => if (x =? c)%N then Some ([], s') else (fun p => (x :: fst p, snd p)) <$> cut c s'
  end.

(** ** [git diff --numstat -z] *)

Record totals : Type := Totals { t_additions : Z; t_deletions : Z; t_binary : list pystr }.

(** The totals after a record for [path]. *)
Definition count_entry (t : totals) (added_raw deleted_raw : bytes) (path : pystr) : result exn totals :=
  let dash raw := str_eqb raw [45%N] in
  if bool_decide (path = []) then governance "git numstat path must not be empty"
  else if xorb (dash added_raw) (dash deleted_raw) then
    governance "git numstat contains a partial binary marker"
  else if dash added_raw then Ok (Totals (t_additions t) (t_deletions t) (t_binary t ++ [path]))
  else
    match int_of_bytes added_raw, int_of_bytes deleted_raw with
    | Some added, Some deleted =>
        if (added <? 0) || (deleted <? 0) then governance "git numstat contains negative totals"
        else Ok (Totals (t_additions t + added) (t_deletions t + deleted) (t_binary t))
    | _, _ => governance "git numstat contains non-numeric totals"
    end.

Fixpoint numstat_records (t : totals) (records : list bytes) : result exn totals :=
  match records with
  | [] => Ok t
  | entry :: records' =>
      match entry with
      | [] => governance "git numstat produced an empty record"
      | _ =>
          match cut 9 entry with
          | Some (added_raw, rest) =>
              match cut 9 rest with
              | Some (deleted_raw, path_raw) =>
                  match path_raw with
                  | _ :: _ =>
                      t' ← count_entry t added_raw deleted_raw (decode_git_path path_raw);
                      numstat_records t' records'
                  | [] =>
                      match records' with
                      | old_path_raw :: new_path_raw :: records'' =>
                          if bool_decide (old_path_raw = []) || bool_decide (new_path_raw = []) then
                            governance "git numstat rename paths must not be empty"
                          else
                            t' ← count_entry t added_raw deleted_raw (decode_git_path new_path_raw);
                            numstat_records t' records''
                      | _ => governance "git numstat rename record is incomplete"
                      end
                  end
              | None => governance "git numstat produced a malformed record"
              end
          | None => governance "git numstat produced a malformed record"
          end
      end
  end.

Definition parse_numstat_z (raw : bytes) : result exn totals :=
  match raw with
  | [] => Ok (Totals 0 0 [])
  | _ =>
      let fields := split_on 0 raw in
      if bool_decide (List.last fields [] = []) then numstat_records (Totals 0 0 []) (removelast fields)
      else governance "git numstat stream is not NUL terminated"
  end.

Record diff_stats : Type := DiffStats {
  changed_files : list pystr; additions : Z; deletions : Z; binary_files : list pystr;
  opaque_files : list pystr; attention_changed_files : list pystr; verified_font_files : list pystr }.
Definition changed_lines (s : diff_stats) : Z := additions s + deletions s.
Definition attention_files (s : diff_stats) : list pystr :=
  match attention_changed_files s with [] => changed_files s | l => l end.

(** The outputs of the three [git diff] calls. *)
Definition nonempty_paths (raw : bytes) : list pystr :=
  decode_git_path <$> List.filter (fun p => negb (bool_decide (p = []))) (split_on 0 raw).
(** [tuple(dict.fromkeys(l))]: the first of each *)
Definition keep_first (l : list pystr) : list pystr :=
  foldl (fun acc p => if str_in p acc then acc else acc ++ [p]) [] l.
Definition diff_stats_of (names_raw attention_names_raw numstat_raw : bytes) : result exn diff_stats :=
  t ← parse_numstat_z numstat_raw;
  Ok (DiffStats (nonempty_paths names_raw) (t_additions t) (t_deletions t) (t_binary t) (t_binary t)
        (keep_first (nonempty_paths attention_names_raw)) []).

(** ** Paths *)

Definition SAFE_OPAQUE_SUFFIXES : list pystr :=
  [lit ".png"; lit ".jpg"; lit ".jpeg"; lit ".gif"; lit ".webp"; lit ".avif"; lit ".ico"].
Definition SAFE_OPAQUE_PREFIXES : list pystr :=
  [lit "docs/"; lit "apps/web/static/"; lit "apps/web/src/lib/assets/"; lit "static/"].

(** [Path(p).suffix]: the last part of the name from its last dot, which neither begins nor ends it. *)
Definition path_name (p : pystr) : pystr :=
  List.last (List.filter (fun part => negb (str_in part [[]; lit "."])) (split_on 47 p)) [].
Fixpoint rfind_dot (s : pystr) : option nat :=
  match s with
  | [] => None
  | c :: s' => match rfind_dot s' with Some i => Some (S i) | None => if (c =? 46)%N then Some O else None end
  end.
Definition suffix (p : pystr) : pystr :=
  let name := path_name p in
  match rfind_dot name with
  | Some i => if ((0 <? i) && (i <? length name - 1))%nat then drop i name else []
  | None => []
  end.

Section paths.
Context `{PyHost}.

Definition is_safe_opaque_asset (path : pystr) : bool :=
  let lowered := lower path in
  existsb (fun p => startswith p lowered) SAFE_OPAQUE_PREFIXES && str_in (suffix lowered) SAFE_OPAQUE_SUFFIXES.

(** What touches the gate itself, deployment, operations or secrets. *)
Definition GATE_PATHS : list pystr :=
  [lit ".github/grabowski-required-checks.json"; lit ".github/review-evidence-authorities.json";
   lit ".github/pull_request_template.md"; lit "scripts/quality/review_governance.py";
   lit "docs/process/merge-quality-gate.md"].
Definition high_risk_path (path : pystr) : bool :=
  startswith ".github/workflows/" path || str_in path GATE_PATHS || startswith "infra/" path
  || startswith "scripts/ops/" path || contains "/migrations/" ([47%N] ++ path)
  || existsb (fun token => contains token path)
       [lit "auth"; lit "security"; lit "privacy"; lit "session"; lit "passkey"]
  || startswith "docs/deploy/" path || startswith "docs/runbooks/" path.
Definition code_path (path : pystr) : bool :=
  existsb (fun p => startswith p path) [lit "apps/api/"; lit "apps/web/"; lit "src/"; lit "scripts/"; lit "tests/"]
  || existsb (fun e => endswith e path) [lit "cargo.lock"; lit "pnpm-lock.yaml"; lit "package-lock.json"]
  || existsb (fun e => endswith e path)
       [lit ".rs"; lit ".py"; lit ".ts"; lit ".tsx"; lit ".js"; lit ".mjs"; lit ".svelte"; lit ".sql"; lit ".sh"].

(** [max((a, b), key=RISK_ORDER.__getitem__)]: the first of the greatest. *)
Definition max_risk (a b : risk) : risk := if (RISK_ORDER a <? RISK_ORDER b)%nat then b else a.

Fixpoint minimum_from (minimum : risk) (paths : list pystr) : risk :=
  match paths with
  | [] => minimum
  | raw_path :: paths' =>
      let path := lower raw_path in
      if high_risk_path path then R3
      else if endswith ".md" path then minimum_from minimum paths'
      else if is_safe_opaque_asset path then minimum_from (max_risk minimum R1) paths'
      else if code_path path then minimum_from R2 paths'
      else minimum_from (max_risk minimum R1) paths'
  end.
Definition minimum_risk_for_paths : list pystr -> risk := minimum_from R0.
End paths.

(** [None], or why R0 does not cover the diff. *)
Definition r0_scope_valid (s : diff_stats) : option pystr :=
  if 50 <? changed_lines s then
    Some (lit "R0 permits at most 50 changed lines, found " ++ show_Z (changed_lines s))
  else
    match List.filter (fun path => negb (endswith ".md" path)) (changed_files s) with
    | [] => None
    | unsafe => Some (lit "R0 permits Markdown-only changes, found: " ++ join ", " unsafe)
    end.

(** ** Fonts pinned by hash *)

Definition GARN_FONT_PATH : pystr := lit "apps/web/static/fonts/atkinson-hyperlegible-next-latin-wght-normal.woff2".
Definition GARN_FONT_SHA256 : pystr := lit "18b2a1a39a2fa298b0ba5390aca68462669826c90925656f1c1f6796e0e1bbaf".
Definition GARN_FONT_GIT_BLOB : pystr := lit "a9ca4bd6ffda7092b397871cd3b5ad38a372046d".
Definition GARN_FONT_BYTES : Z := 33996.
Definition GARN_FONT_PROVENANCE_BLOBS : dict json :=
  [(lit "apps/web/static/fonts/OFL-Atkinson-Hyperlegible-Next.txt", JStr (lit "9459440df26a30cfb6ed5542485d281bae449e5f"));
   (lit "apps/web/static/fonts/README.md", JStr (lit "ed4fb686e498eeffa98f9a6cb7d9a103bf083802"))].

Record font : Type := Font { f_blob_sha : pystr; f_sha256 : pystr; f_size : Z }.
Definition WOOL_FONT_SOURCE_BLOB : pystr := lit "3ada289072a765db9787208f6b95c6f73c3c7cce".
Definition WOOL_FONT_SPECS : dict font :=
  [(lit "apps/web/static/fonts/garnschrift-c-dark.woff",
    Font (lit "c6c0d2c661226c89b85d7431cc27801a77e4b956")
      (lit "fe8979fe9f6cd5cd1cccbcc8d5a7ccf2cbe79e79ed575d82ec6c87bcfd5dff63") 362748);
   (lit "apps/web/static/fonts/garnschrift-c-light.woff",
    Font (lit "135f95506f756786ba6ae657971ed685b3eb80ab")
      (lit "e16c9e1baae88bd56f46fbe97337991311e0a1cdcb7002a229deeb6613532f9e") 399024)].
Definition WOOL_TEXT_FONT_SPECS : dict font :=
  [(lit "apps/web/static/fonts/garnschrift-c-text-dark.woff",
    Font (lit "ea1f56c6b804fb140d6637248ea1df15608b4723")
      (lit "65b87161ff41cb584e26859715cf294bf59787054d0d973926ec3532429f9f36") 389736);
   (lit "apps/web/static/fonts/garnschrift-c-text-light.woff",
    Font (lit "e21aeda4bc5726ead4f0e7a5cf35a31e998ecad5")
      (lit "a1a5854b9712d23a762a31cad0b3ed030b8e4a96f68c8c02cc123cc4be7031e7") 424128)].
Definition WOOL_TEXT_FINER_FONT_SPECS : dict font :=
  [(lit "apps/web/static/fonts/garnschrift-c-text-dark.woff",
    Font (lit "6cc666cb36548d5585b3f3c7c9239fb37894f569")
      (lit "c7f209f4e254c93fe642f6c2785c9f349cd42d8c68809c733fa8836db3ea2adf") 412276);
   (lit "apps/web/static/fonts/garnschrift-c-text-light.woff",
    Font (lit "939286440c31bab17b46c206ea6a733d07951b90")
      (lit "6ecb836bb20a49f0b1ace328941c57d87bf475ad966b3068ef271362040202b7") 448932)].

(** Files without a text diff: those a reviewer can inspect, and those that block. *)
Definition pinned_font (path : pystr) : bool :=
  str_eqb path GARN_FONT_PATH || dmem WOOL_FONT_SPECS path || dmem WOOL_TEXT_FONT_SPECS path.
Definition reviewable_opaque `{PyHost} (verified : list pystr) (path : pystr) : bool :=
  is_safe_opaque_asset path || (str_in path verified && pinned_font path).
Definition partition_opaque_files `{PyHost} (paths verified : list pystr) : list pystr * list pystr :=
  (List.filter (reviewable_opaque verified) paths,
   List.filter (fun p => negb (reviewable_opaque verified p)) paths).

(** ** The checks of a bundle *)

Definition require (b : bool) (m : pystr) : result exn unit := if b then Ok tt else governance m.

Definition validate_binding (pr_number : Z) (base_sha head_sha merge_base_sha : pystr) : result exn unit :=
  require (1 <=? pr_number) "PR number must be a positive integer" ;;
  forM_ (fun nv => require (all_hex_of_length 40 (snd nv))
                     (fst nv ++ lit " must be a lowercase 40-character Git SHA"))
    [(lit "base_sha", base_sha); (lit "head_sha", head_sha); (lit "merge_base_sha", merge_base_sha)].

Definition no_duplicates (l : list pystr) : bool := bool_decide (NoDup l).
Definition subset_of (l m : list pystr) : bool := forallb (fun p => str_in p m) l.
Definition path_ok `{PyHost} (p : pystr) : bool :=
  negb (bool_decide (p = [])) && str_eqb p (strip p) && negb (startswith "/" p)
  && negb (existsb (fun part => str_in part [[]; lit "."; lit ".."]) (split_on 47 p))
  && negb (existsb is_control p).

Definition validate_stats `{PyHost} (s : diff_stats) : result exn unit :=
  require ((0 <=? additions s) && (0 <=? deletions s)) "diff totals must be non-negative" ;;
  require (no_duplicates (changed_files s)) "changed_files must not contain duplicates" ;;
  require (no_duplicates (binary_files s)) "binary_files must not contain duplicates" ;;
  require (no_duplicates (opaque_files s)) "opaque_files must not contain duplicates" ;;
  require (no_duplicates (attention_files s)) "attention_changed_files must not contain duplicates" ;;
  require (subset_of (binary_files s) (changed_files s)) "binary_files must be a subset of changed_files" ;;
  require (subset_of (opaque_files s) (changed_files s)) "opaque_files must be a subset of changed_files" ;;
  forM_ (fun np => require (forallb path_ok (snd np)) (fst np ++ lit " contains an invalid path"))
    [(lit "changed_files", changed_files s); (lit "attention_changed_files", attention_files s)].

Definition diff_git : bytes := lit "diff --git ".
Definition bundle_checks `{PyHost} (pr_number : Z) (base_sha head_sha merge_base_sha : pystr)
    (diff_bytes patch_bytes : bytes) (s : diff_stats) : result exn unit :=
  validate_binding pr_number base_sha head_sha merge_base_sha ;;
  validate_stats s ;;
  require (negb (bool_decide (diff_bytes = []))) "review diff is empty" ;;
  require (negb (bool_decide (patch_bytes = []))) "review patch is empty" ;;
  require ((Z.of_nat (length diff_bytes) <=? MAX_ARTIFACT_BYTES)
           && (Z.of_nat (length patch_bytes) <=? MAX_ARTIFACT_BYTES))
    "review artifacts exceed the 104857600-byte safety limit" ;;
  let diff_file_count := length (List.filter (startswith diff_git) (split_on 10 diff_bytes)) in
  require (diff_file_count =? length (changed_files s))%nat
    (lit "review diff file count does not match materialized changed-file list: diff="
     ++ show_nat diff_file_count ++ lit ", metadata=" ++ show_nat (length (changed_files s))).

Record bundle : Type := Bundle {
  pr_number : Z; base_sha : pystr; head_sha : pystr; merge_base_sha : pystr;
  diff_sha256 : pystr; patch_sha256 : pystr; stats : diff_stats }.

Definition build_bundle `{PyHost} (pr_number : Z) (base_sha head_sha merge_base_sha : pystr)
    (diff_bytes patch_bytes : bytes) (s : diff_stats) : result exn bundle :=
  bundle_checks pr_number base_sha head_sha merge_base_sha diff_bytes patch_bytes s ;;
  Ok (Bundle pr_number base_sha head_sha merge_base_sha (sha256_hex diff_bytes) (sha256_hex patch_bytes) s).

(** ** Text hunks of a materialised diff *)

(** The text from the first occurrence of [p] on, with what stands before it. *)
Fixpoint find_sub (p s : bytes) : option (bytes * bytes) :=
  if startswith p s then Some ([], s)
  else match s with [] => None | c :: s' => (fun r => (c :: fst r, snd r)) <$> find_sub p s' end.

Definition diff_header (encoded : bytes) : bytes :=
  diff_git ++ lit "a/" ++ encoded ++ lit " b/" ++ encoded ++ [10%N].
(** The section of the diff under the header, up to the next file. *)
Definition diff_section (diff header : bytes) : option bytes :=
  let from := if startswith header diff then Some diff
              else (fun r => drop 1 (snd r)) <$> find_sub ([10%N] ++ header) diff in
  (fun rest => let body := drop (length header) rest in
     header ++ match find_sub ([10%N] ++ diff_git) body with Some r => fst r | None => body end) <$> from.

Definition materialized_diff_has_text_hunk (diff_bytes : bytes) (path : pystr) : bool :=
  match utf8_encode path with
  | Err _ => false
  | Ok encoded =>
      if existsb (fun b => existsb (N.eqb b) [0; 10; 13]%N) encoded then false
      else
        match diff_section diff_bytes (diff_header encoded) with
        | None => false
        | Some section =>
            if contains ([10%N] ++ lit "GIT binary patch" ++ [10%N]) section
               || contains ([10%N] ++ lit "Binary files ") section then false
            else contains ([10%N] ++ lit "@@ ") section
        end
  end.
Definition resolve_materialized_opaque_files (s : diff_stats) (diff_bytes : bytes) : diff_stats :=
  DiffStats (changed_files s) (additions s) (deletions s) (binary_files s)
    (List.filter (fun p => negb (materialized_diff_has_text_hunk diff_bytes p)) (opaque_files s))
    (attention_changed_files s) (verified_font_files s).

(** ** The materialised metadata *)

Section metadata.
Context `{PyHost}.

Definition same_keys (d : dict json) (ks : list pystr) : bool :=
  subset_of (dkeys d) ks && subset_of ks (dkeys d).
Definition keys_text (l : list pystr) : pystr := repr (JList (JStr <$> sort_str l)).

Definition REQUIRED_METADATA : list pystr :=
  [lit "schema_version"; lit "pr_number"; lit "base_sha"; lit "head_sha"; lit "merge_base_sha";
   lit "changed_file_count"; lit "changed_files"; lit "additions"; lit "deletions"; lit "opaque_files"].
Definition OPTIONAL_METADATA : list pystr :=
  [lit "attention_changed_files"; lit "font_asset_proof"; lit "wool_font_proofs"].

Definition strict_int (v : json) : option Z := match v with JInt z => Some z | _ => None end.
Definition nonnegative (v : json) : option Z :=
  match v with JInt z => if 0 <=? z then Some z else None | _ => None end.
Definition str_list (v : json) : option (list pystr) :=
  match v with JList l => mapM (fun i => match i with JStr s => Some s | _ => None end) l | _ => None end.
Definition or_fail {A} (o : option A) (m : pystr) : result exn A :=
  match o with Some a => Ok a | None => governance m end.

(** The fields before the fonts. *)
Definition metadata_fields (raw : dict json) : result exn (Z * pystr * pystr * pystr * diff_stats) :=
  let field k := get (JObj raw) k in
  let missing := List.filter (fun k => negb (dmem raw k)) REQUIRED_METADATA in
  let extra := List.filter (fun k => negb (str_in k (REQUIRED_METADATA ++ OPTIONAL_METADATA))) (dkeys raw) in
  require (bool_decide (missing = []) && bool_decide (extra = []))
    (lit "materialized metadata keys mismatch; missing=" ++ keys_text missing
     ++ lit ", extra=" ++ keys_text extra) ;;
  require (bool_decide (strict_int (field (lit "schema_version")) = Some SCHEMA_VERSION))
    "unsupported materialized metadata schema" ;;
  pr ← or_fail (strict_int (field (lit "pr_number"))) "materialized pr_number must be an integer";
  count ← or_fail (nonnegative (field (lit "changed_file_count")))
            "materialized changed_file_count must be a non-negative integer";
  added ← or_fail (nonnegative (field (lit "additions"))) "materialized additions must be a non-negative integer";
  deleted ← or_fail (nonnegative (field (lit "deletions"))) "materialized deletions must be a non-negative integer";
  changed ← or_fail (str_list (field (lit "changed_files"))) "materialized changed_files must be a string list";
  attention ← or_fail (str_list (if dmem raw "attention_changed_files" then field (lit "attention_changed_files")
                                 else field (lit "changed_files")))
                "materialized attention_changed_files must be a string list";
  opaque ← or_fail (str_list (field (lit "opaque_files"))) "materialized opaque_files must be a string list";
  require (count =? Z.of_nat (length changed)) "materialized changed_file_count does not match file list" ;;
  match field (lit "base_sha"), field (lit "head_sha"), field (lit "merge_base_sha") with
  | JStr base, JStr head, JStr merge_base =>
      let s := DiffStats changed added deleted [] opaque attention [] in
      validate_binding pr base head merge_base ;;
      validate_stats s ;;
      Ok (pr, base, head, merge_base, s)
  | _, _, _ => governance "materialized Git SHAs must be strings"
  end.

Definition verify_font (s : diff_stats) (paths : list pystr) : diff_stats :=
  DiffStats (changed_files s) (additions s) (deletions s) (binary_files s) (opaque_files s)
    (attention_changed_files s) (verified_font_files s ++ paths).

Definition GARN_PROOF_KEYS : list pystr :=
  [lit "path"; lit "blob_sha"; lit "sha256"; lit "size"; lit "magic"; lit "provenance_blobs"].
(** The fields of the Garn font's proof are those of the constants. *)
Definition garn_bound (proof : json) (s : diff_stats) : bool :=
  py_eq (get proof "path") (JStr GARN_FONT_PATH) && py_eq (get proof "blob_sha") (JStr GARN_FONT_GIT_BLOB)
  && py_eq (get proof "sha256") (JStr GARN_FONT_SHA256)
  && bool_decide (strict_int (get proof "size") = Some GARN_FONT_BYTES)
  && py_eq (get proof "magic") (JStr (lit "wOF2"))
  && py_eq (get proof "provenance_blobs") (JObj GARN_FONT_PROVENANCE_BLOBS)
  && str_in GARN_FONT_PATH (opaque_files s) && subset_of (dkeys GARN_FONT_PROVENANCE_BLOBS) (changed_files s).

Definition garn_font (proof : json) (s : diff_stats) : result exn diff_stats :=
  match proof with
  | JNull => Ok s
  | JObj d =>
      let keys := if py_eq (get proof "operation") (JStr (lit "removed"))
                  then GARN_PROOF_KEYS ++ [lit "operation"] else GARN_PROOF_KEYS in
      require (same_keys d keys) "font asset proof fields are invalid" ;;
      require (garn_bound proof s) "font asset proof failed exact font/provenance binding" ;;
      Ok (DiffStats (changed_files s) (additions s) (deletions s) (binary_files s) (opaque_files s)
            (attention_changed_files s) [GARN_FONT_PATH])
  | _ => governance "font asset proof fields are invalid"
  end.

Definition WOOL_PROOF_KEYS : list pystr :=
  [lit "path"; lit "blob_sha"; lit "sha256"; lit "size"; lit "magic"; lit "source_blob"].
Definition blob_known (specs : dict font) (entry : json) (path : pystr) : bool :=
  match dget specs path with Some f => py_eq (get entry "blob_sha") (JStr (f_blob_sha f)) | None => false end.
Definition exact_pair (specs : dict font) (paths : list pystr) : bool :=
  (length paths =? length specs)%nat && subset_of paths (dkeys specs) && subset_of (dkeys specs) paths.
(** The specification a complete pair of proofs belongs to. *)
Definition wool_specs (proofs : list json) (paths : list pystr) : result exn (dict font) :=
  if exact_pair WOOL_FONT_SPECS paths then Ok WOOL_FONT_SPECS
  else if exact_pair WOOL_TEXT_FONT_SPECS paths then
    or_fail (List.find (fun specs => forallb (fun ep => blob_known specs (fst ep) (snd ep)) (zip proofs paths))
               [WOOL_TEXT_FONT_SPECS; WOOL_TEXT_FINER_FONT_SPECS])
      "mixed or unknown wool text font blobs"
  else governance "exact approved wool font pair required".
Definition wool_bound (specs : dict font) (s : diff_stats) (ep : json * pystr) : bool :=
  let '(entry, path) := ep in
  match dget specs path with
  | None => false
  | Some known =>
      py_eq (get entry "blob_sha") (JStr (f_blob_sha known)) && py_eq (get entry "sha256") (JStr (f_sha256 known))
      && bool_decide (strict_int (get entry "size") = Some (f_size known))
      && py_eq (get entry "magic") (JStr (lit "wOFF"))
      && py_eq (get entry "source_blob") (JStr WOOL_FONT_SOURCE_BLOB)
      && str_in path (opaque_files s) && str_in path (changed_files s)
  end.

Definition wool_fonts (proofs : json) (s : diff_stats) : result exn diff_stats :=
  match proofs with
  | JNull | JList [] => Ok s
  | JList entries =>
      require (forallb (fun e => match e with JObj d => same_keys d WOOL_PROOF_KEYS | _ => false end) entries)
        "invalid wool font proof fields" ;;
      paths ← or_fail (str_list (JList ((fun e => get e "path") <$> entries))) "wool font paths must be strings";
      specs ← wool_specs entries paths;
      require (forallb (wool_bound specs s) (zip entries paths)) "unverified wool font bytes or provenance" ;;
      Ok (verify_font s (sort_str paths))
  | _ => governance "wool_font_proofs must be an array"
  end.

Definition materialized_metadata (raw : json) : result exn (Z * pystr * pystr * pystr * diff_stats) :=
  match raw with
  | JObj d =>
      '(pr, base, head, merge_base, s) ← metadata_fields d;
      s ← garn_font (get raw "font_asset_proof") s;
      s ← wool_fonts (get raw "wool_font_proofs") s;
      Ok (pr, base, head, merge_base, s)
  | _ => governance "materialized metadata must be a JSON object"
  end.

Definition generate_materialized_bundle (metadata : json) (diff_bytes patch_bytes : bytes) : result exn bundle :=
  '(pr, base, head, merge_base, s) ← materialized_metadata metadata;
  build_bundle pr base head merge_base diff_bytes patch_bytes (resolve_materialized_opaque_files s diff_bytes).
End metadata.

(** ** Who may attest *)

(** [GITHUB_LOGIN_RE.fullmatch] *)
Definition ascii_alnum (c : N) : bool := ascii_upper c || ascii_lower_p c || ascii_digit c.
Definition is_github_login (s : pystr) : bool :=
  match s with
  | c :: s' =>
      ascii_alnum c && (length s <=? 39)%nat &&
      match rev s' with [] => true | z :: middle => ascii_alnum z && forallb (fun c => ascii_alnum c || (c =? 45)%N) middle end
  | [] => false
  end.

Definition load_allowed_attesters `{PyHost} (raw : json) : result exn (list pystr) :=
  match raw with
  | JObj d =>
      require (same_keys d [lit "schema_version"; lit "allowed_attesters"])
        "attester authority file must contain exactly schema_version and allowed_attesters" ;;
      require (py_eq (get raw "schema_version") (JInt SCHEMA_VERSION)) "unsupported attester authority schema" ;;
      match get raw "allowed_attesters" with
      | JList (v :: vs) =>
          normalized ← foldM (fun acc value =>
            match value with
            | JStr s =>
                require (str_eqb s (strip s)) "allowed_attesters contains an invalid login" ;;
                require (is_github_login s) "allowed_attesters contains an invalid GitHub login" ;;
                Ok (acc ++ [casefold s])
            | _ => governance "allowed_attesters contains an invalid login"
            end) [] (v :: vs);
          require (no_duplicates normalized) "allowed_attesters must not contain duplicates" ;;
          Ok normalized
      | _ => governance "allowed_attesters must be a non-empty list"
      end
  | _ => governance "attester authority file must contain exactly schema_version and allowed_attesters"
  end.
