(* ===== verification/ReviewDiffProofs.v ===== *)
(** * Correctness of the diff statistics and the risk class

    The definitions of [ReviewDiff]: what the numstat parser reads back, the risk class as a least
    upper bound, the fonts that count as verified and the text hunks that clear a file. *)

From S2P Require Import Prelude PyStr Json Sha256 ReviewMarkers Utf8 ReviewDiff.
Open Scope Z_scope.

(** ** The numstat stream *)

(** A record git writes: the two counts or dashes, and the path, with the old one of a rename. *)
Record stat : Type := Stat { st_added : bytes; st_deleted : bytes; st_old : option bytes; st_path : bytes }.

Definition stat_fields (r : stat) : list bytes :=
  let counts := st_added r ++ [9%N] ++ st_deleted r ++ [9%N] in
  match st_old r with
  | None => [counts ++ st_path r]
  | Some old => [counts; old; st_path r]
  end.
Definition terminated (fields : list bytes) : bytes := flat_map (fun f => f ++ [0%N]) fields.
Definition print_stats (rs : list stat) : bytes := terminated (flat_map stat_fields rs).

Definition is_binary (r : stat) : bool := str_eqb (st_added r) [45%N].
(** What git guarantees of its records. *)
Record stat_ok (r : stat) : Prop := StatOk {
  so_added : (9%N ∉ st_added r) /\ (0%N ∉ st_added r);
  so_deleted : (9%N ∉ st_deleted r) /\ (0%N ∉ st_deleted r);
  so_path : st_path r <> [] /\ (0%N ∉ st_path r);
  so_old : forall old, st_old r = Some old -> old <> [] /\ (0%N ∉ old);
  so_counts : if is_binary r then st_deleted r = [45%N]
              else st_deleted r <> [45%N] /\
                   (exists a d, int_of_bytes (st_added r) = Some a /\ int_of_bytes (st_deleted r) = Some d /\
                                0 <= a /\ 0 <= d);
}.
Definition counted_in (raw : bytes) : Z := default 0 (int_of_bytes raw).
Definition add_stat (t : totals) (r : stat) : totals :=
  if is_binary r then Totals (t_additions t) (t_deletions t) (t_binary t ++ [decode_git_path (st_path r)])
  else Totals (t_additions t + counted_in (st_added r)) (t_deletions t + counted_in (st_deleted r)) (t_binary t).

Lemma cut_at c a r : c ∉ a -> cut c (a ++ c :: r) = Some (a, r).
Proof.
  induction a as [|x a IH]; intros Ha; cbn [app cut].
  - by rewrite N.eqb_refl.
  - rewrite (proj2 (N.eqb_neq x c)) by (intros ->; apply Ha; by left).
    rewrite IH; [done|]. intros Hin. apply Ha. by right.
Qed.


Lemma split_terminated fields :
  Forall (fun f => 0%N ∉ f) fields -> split_on 0 (terminated fields) = fields ++ [[]].
Proof.
  induction 1 as [|f fields Hf Hfs IH]; [done|]. cbn [terminated flat_map].
  rewrite <-(assoc_L (++)). cbn [app]. rewrite split_on_field by done. unfold terminated in IH. by rewrite IH.
Qed.

Lemma decode_nonempty p : p <> [] -> decode_git_path p <> [].
Proof. destruct p as [|b p]; [done|]. intros _. unfold decode_git_path. cbn [decode_escaped]. repeat case_match; done. Qed.

Lemma count_stat t r :
  stat_ok r -> count_entry t (st_added r) (st_deleted r) (decode_git_path (st_path r)) = Ok (add_stat t r).
Proof.
  intros [_ _ [Hp _] _ Hc]. unfold count_entry, add_stat, is_binary in *.
  rewrite bool_decide_false by (by apply decode_nonempty).
  destruct (str_eqb (st_added r) [45%N]) eqn:Ea.
  - rewrite Hc. done.
  - destruct Hc as (Hd & a & d & Ha & Hd' & H1 & H2).
    assert (str_eqb (st_deleted r) [45%N] = false) as -> by (by apply str_eqb_neq).
    cbn [xorb]. rewrite Ha, Hd'. unfold counted_in. rewrite Ha, Hd'. cbn [default].
    rewrite (proj2 (Z.ltb_ge a 0)), (proj2 (Z.ltb_ge d 0)) by done. done.
Qed.

Lemma records_step t r rest :
  stat_ok r -> numstat_records t (stat_fields r ++ rest) = numstat_records (add_stat t r) rest.
Proof.
  intros Hr. pose proof (count_stat t r Hr) as Hcount. destruct Hr as [[Ha _] [Hd _] [Hp _] Ho _].
  assert (forall tail, exists c l, st_added r ++ 9%N :: tail = c :: l) as Hne
    by (intros tail; destruct (st_added r); by eexists _, _).
  unfold stat_fields. destruct (st_old r) as [old|] eqn:Eo; cbn [app].
  - destruct (Ho old eq_refl) as [Hold _]. destruct (Hne (st_deleted r ++ [9%N])) as (c & l & E).
    cbn [numstat_records]. rewrite E, <-E. rewrite cut_at, (cut_at 9 (st_deleted r) []) by done.
    rewrite !bool_decide_false by done. cbn [orb]. by rewrite Hcount.
  - destruct (Hne (st_deleted r ++ 9%N :: st_path r)) as (c & l & E).
    rewrite <-(assoc_L (++)). cbn [app]. rewrite <-(assoc_L (++)). cbn [app].
    cbn [numstat_records]. rewrite E, <-E. rewrite cut_at, (cut_at 9 (st_deleted r)) by done.
    destruct (st_path r) as [|x p] eqn:Ep; [done|]. by rewrite Hcount.
Qed.

Lemma records_all t rs :
  Forall stat_ok rs -> numstat_records t (flat_map stat_fields rs) = Ok (foldl add_stat t rs).
Proof.
  intros Hrs. revert t. induction Hrs as [|r rs Hr Hrs IH]; intros t; [done|].
  cbn [flat_map foldl]. by rewrite records_step.
Qed.

(** The numstat parser reads back what git wrote: for any records without NUL bytes in their
    fields, renames and binary files included and tabs in paths allowed, the additions and deletions
    are the sums of the counts and the binary files are the new paths of the dashed records, in
    order. *)
Theorem numstat_roundtrip rs :
  Forall stat_ok rs -> parse_numstat_z (print_stats rs) = Ok (foldl add_stat (Totals 0 0 []) rs).
Proof.
  intros Hrs. unfold print_stats. destruct rs as [|r0 rs0] eqn:Er; [done|]. rewrite <-Er in *.
  assert (Forall (fun f => 0%N ∉ f) (flat_map stat_fields rs)) as Hnul.
  { clear Er. induction Hrs as [|r rs Hr Hrs IH]; [constructor|]. cbn [flat_map].
    apply Forall_app. split; [|done]. destruct Hr as [[_ Ha] [_ Hd] [_ Hp] Ho _]. unfold stat_fields.
    assert (0%N ∉ st_added r ++ [9%N] ++ st_deleted r ++ [9%N]) as Hcounts
      by (rewrite !elem_of_app, !elem_of_cons, elem_of_nil; intuition done).
    destruct (st_old r) as [old|]; repeat constructor; try done; [by apply Ho|].
    rewrite elem_of_app. intuition done. }
  unfold parse_numstat_z. rewrite split_terminated by done.
  destruct (terminated (flat_map stat_fields rs)) as [|x l] eqn:Et.
  { rewrite Er in Et. cbn [flat_map] in Et. unfold stat_fields in Et. destruct (st_old r0);
      cbn [app terminated flat_map] in Et; by apply app_nil in Et as [[_ [=]]%app_nil _]. }
  rewrite List.last_last, bool_decide_true, removelast_last by done. by apply records_all.
Qed.

(** ** The risk class of the paths *)

Section risk.
Context `{PyHost}.

(** The class one path calls for. *)
Definition path_risk (raw_path : pystr) : risk :=
  let path := lower raw_path in
  if high_risk_path path then R3
  else if endswith ".md" path then R0
  else if is_safe_opaque_asset path then R1
  else if code_path path then R2 else R1.

Lemma minimum_from_spec minimum paths :
  minimum <> R3 ->
  let r := minimum_from minimum paths in
  (RISK_ORDER minimum <= RISK_ORDER r)%nat /\
  (forall p, p ∈ paths -> (RISK_ORDER (path_risk p) <= RISK_ORDER r)%nat) /\
  (r = minimum \/ exists p, p ∈ paths /\ path_risk p = r).
Proof.
  cbn zeta. revert minimum. induction paths as [|raw paths IH]; intros minimum Hm; cbn [minimum_from].
  { split_and!; [done|by intros p ?%elem_of_nil|by left]. }
  assert (forall m, m <> R3 -> (RISK_ORDER minimum <= RISK_ORDER m)%nat -> 
    (RISK_ORDER (path_risk raw) <= RISK_ORDER m)%nat -> (m = minimum \/ m = path_risk raw) ->
    (RISK_ORDER minimum <= RISK_ORDER (minimum_from m paths))%nat /\
    (forall p, p ∈ raw :: paths -> (RISK_ORDER (path_risk p) <= RISK_ORDER (minimum_from m paths))%nat) /\
    (minimum_from m paths = minimum \/
     exists p, p ∈ raw :: paths /\ path_risk p = minimum_from m paths)) as Hstep.
  { intros m H3 H1 H2 Hor. destruct (IH m H3) as (Hi1 & Hi2 & Hi3). split_and!; [lia| |].
    - intros p [->|Hp]%elem_of_cons; [lia|by apply Hi2].
    - destruct Hi3 as [->|(p & Hp & Hq)]; [|right; exists p; split; [by right|done]].
      destruct Hor as [-> | ->]; [by left|right; exists raw; split; [by left|done]]. }
  assert (path_risk raw = if high_risk_path (lower raw) then R3 else if endswith ".md" (lower raw) then R0
    else if is_safe_opaque_asset (lower raw) then R1 else if code_path (lower raw) then R2 else R1) as Er by done.
  destruct (high_risk_path (lower raw)) eqn:Eh.
  - split_and!; [destruct minimum; cbn; lia|intros p _; destruct (path_risk p); cbn; lia|].
    right. exists raw. split; [by left|done].
  - rewrite Er in Hstep.
    destruct (endswith ".md" (lower raw)) eqn:Em; [apply Hstep; auto; cbn; lia|].
    destruct (is_safe_opaque_asset (lower raw)) eqn:Es; [destruct minimum; try done; apply Hstep; cbn; auto; lia|].
    destruct (code_path (lower raw)) eqn:Ec; destruct minimum; try done; apply Hstep; cbn; auto; lia.
Qed.

(** C14: The minimum risk class of a diff is the least upper bound of the classes of its paths: no
    path calls for more, and unless it is R0 some path calls for exactly that much.  It depends
    neither on the order of the paths nor on repetitions, and one more path never lowers it. *)
Theorem minimum_risk_exact paths :
  let r := minimum_risk_for_paths paths in
  (forall p, p ∈ paths -> (RISK_ORDER (path_risk p) <= RISK_ORDER r)%nat) /\
  (r = R0 \/ exists p, p ∈ paths /\ path_risk p = r) /\
  (forall paths', (forall p, p ∈ paths -> p ∈ paths') ->
     (RISK_ORDER r <= RISK_ORDER (minimum_risk_for_paths paths'))%nat).
Proof.
  cbn zeta. unfold minimum_risk_for_paths.
  destruct (minimum_from_spec R0 paths ltac:(done)) as (_ & Hle & Hex). split_and!; [done|done|].
  intros paths' Hsub. destruct (minimum_from_spec R0 paths' ltac:(done)) as (_ & Hle' & _).
  destruct Hex as [->|(p & Hp & <-)]; [cbn; lia|]. by apply Hle', Hsub.
Qed.
End risk.

(** ** Text hunks *)

Lemma find_sub_spec p s :
  match find_sub p s with
  | Some (a, b) => s = a ++ b /\ startswith p b = true /\ (p <> [] -> contains p a = false)
  | None => contains p s = false
  end.
Proof.
  induction s as [|c s IH]; cbn [find_sub contains].
  - destruct (startswith p []) eqn:E; [|done]. split_and!; [done|done|]. intros Hp. destruct p; done.
  - destruct (startswith p (c :: s)) eqn:E.
    + split_and!; [done|done|]. intros Hp. destruct p; done.
    + destruct (find_sub p s) as [[a b]|]; cbn [fmap option_fmap option_map fst snd]; [|done].
      destruct IH as (-> & Hb & Ha). split_and!; [done|done|]. intros Hp. cbn [contains].
      rewrite Ha by done. rewrite orb_false_r. apply not_true_iff_false. intros [t Ht]%startswith_spec.
      apply not_true_iff_false in E. apply E. apply startswith_spec. exists (t ++ b).
      by rewrite (assoc_L (++)), <-Ht.
Qed.

(** A file is cleared as text only on positive evidence: the diff holds, at the start of a line, the
    header of exactly this path, and the section behind it, up to the next file, holds a text hunk and
    neither a binary patch nor the notice of a binary file. *)
Theorem text_hunk_sound diff path :
  materialized_diff_has_text_hunk diff path = true ->
  exists encoded before body after,
    utf8_encode path = Ok encoded /\ diff = before ++ (diff_header encoded ++ body) ++ after /\
    (before = [] \/ exists b, before = b ++ [10%N]) /\
    contains ([10%N] ++ lit "@@ ") (diff_header encoded ++ body) = true /\
    contains ([10%N] ++ lit "Binary files ") (diff_header encoded ++ body) = false /\
    contains ([10%N] ++ lit "GIT binary patch" ++ [10%N]) (diff_header encoded ++ body) = false /\
    contains ([10%N] ++ diff_git) body = false /\
    (after = [] \/ exists r, after = [10%N] ++ diff_git ++ r).
Proof.
  unfold materialized_diff_has_text_hunk. destruct (utf8_encode path) as [encoded|] eqn:Ee; [|done].
  destruct (existsb _ encoded); [done|].
  destruct (diff_section diff (diff_header encoded)) as [section|] eqn:Es; [|done].
  destruct (contains _ section || _) eqn:Eb; [done|]. intros Hh. apply orb_false_iff in Eb as [Eg Eb].
  unfold diff_section in Es.
  assert (exists before rest, diff = before ++ diff_header encoded ++ rest /\
    (before = [] \/ exists b, before = b ++ [10%N]) /\
    section = diff_header encoded ++
      match find_sub ([10%N] ++ diff_git) rest with Some r => fst r | None => rest end)
    as (before & rest & -> & Hbefore & ->).
  { destruct (startswith (diff_header encoded) diff) eqn:Eh.
    - apply startswith_spec in Eh as [t ->]. exists [], t. split_and!; [done|by left|].
      cbn [fmap option_fmap option_map] in Es. rewrite drop_app_length in Es. by injection Es as <-.
    - pose proof (find_sub_spec ([10%N] ++ diff_header encoded) diff) as Hf.
      destruct (find_sub ([10%N] ++ diff_header encoded) diff) as [[a b]|]; [|done].
      destruct Hf as (-> & [t ->]%startswith_spec & _). exists (a ++ [10%N]), t.
      split_and!; [by rewrite <-!(assoc_L (++))|right; by exists a|].
      cbn [fmap option_fmap option_map snd] in Es.
      change (drop 1 (([10%N] ++ diff_header encoded) ++ t)) with (diff_header encoded ++ t) in Es.
      rewrite drop_app_length in Es.
      by injection Es as <-. }
  pose proof (find_sub_spec ([10%N] ++ diff_git) rest) as Hf.
  destruct (find_sub ([10%N] ++ diff_git) rest) as [[body after]|]; cbn [fst] in *.
  - destruct Hf as (-> & [r ->]%startswith_spec & Hc). exists encoded, before, body, ([10%N] ++ diff_git ++ r).
    split_and!; try done; [by rewrite <-!(assoc_L (++))|by apply Hc|right; by exists r].
  - exists encoded, before, rest, []. rewrite app_nil_r. split_and!; try done. by left.
Qed.

(** ** Verified fonts *)

Section fonts.
Context `{PyHost}.

Lemma require_ok b m : require b m = Ok tt <-> b = true.
Proof. by destruct b. Qed.
Lemma or_fail_ok {A} (o : option A) m a : or_fail o m = Ok a <-> o = Some a.
Proof. destruct o; cbn; [split; [by intros [= ->]|by intros [= ->]]|done]. Qed.
Lemma subset_of_in l m p : subset_of l m = true -> p ∈ l -> p ∈ m.
Proof.
  unfold subset_of. rewrite forallb_forall. intros Hs Hp. apply str_in_elem, Hs. by apply list_elem_of_In.
Qed.

(** The hashes of the font at a path are among the pinned ones. *)
Definition garn_pinned (proof : json) : Prop :=
  get proof "path" = JStr GARN_FONT_PATH /\ get proof "blob_sha" = JStr GARN_FONT_GIT_BLOB /\
  get proof "sha256" = JStr GARN_FONT_SHA256 /\ get proof "size" = JInt GARN_FONT_BYTES.
Definition wool_pinned (entry : json) (path : pystr) : Prop :=
  exists f, (path, f) ∈ WOOL_FONT_SPECS ++ WOOL_TEXT_FONT_SPECS ++ WOOL_TEXT_FINER_FONT_SPECS /\
    get entry "path" = JStr path /\ get entry "blob_sha" = JStr (f_blob_sha f) /\
    get entry "sha256" = JStr (f_sha256 f) /\ get entry "size" = JInt (f_size f) /\
    get entry "source_blob" = JStr WOOL_FONT_SOURCE_BLOB.

Lemma strict_int_some v z : bool_decide (strict_int v = Some z) = true -> v = JInt z.
Proof. rewrite bool_decide_eq_true. destruct v; cbn; congruence. Qed.

Lemma dget_specs (specs : dict font) path f : dget specs path = Some f -> (path, f) ∈ specs.
Proof. apply dget_in. Qed.

Lemma wool_bound_pinned specs s entry path :
  (forall f, (path, f) ∈ specs -> (path, f) ∈ WOOL_FONT_SPECS ++ WOOL_TEXT_FONT_SPECS ++ WOOL_TEXT_FINER_FONT_SPECS) ->
  get entry "path" = JStr path -> wool_bound specs s (entry, path) = true ->
  wool_pinned entry path /\ path ∈ opaque_files s /\ path ∈ changed_files s.
Proof.
  intros Hspecs Hpath. cbn [wool_bound]. destruct (dget specs path) as [f|] eqn:Ef; [|done].
  rewrite !andb_true_iff. intros [[[[[[H1 H2] H3] H4] H5] H6] H7].
  apply str_in_elem in H6, H7. apply py_eq_str in H1, H2, H5. apply strict_int_some in H3.
  split; [|exact (conj H6 H7)]. exists f.
  exact (conj (Hspecs f (dget_specs _ _ _ Ef)) (conj Hpath (conj H1 (conj H2 (conj H3 H5))))).
Qed.

Lemma wool_specs_known entries paths specs :
  wool_specs entries paths = Ok specs ->
  forall p f, (p, f) ∈ specs -> (p, f) ∈ WOOL_FONT_SPECS ++ WOOL_TEXT_FONT_SPECS ++ WOOL_TEXT_FINER_FONT_SPECS.
Proof.
  unfold wool_specs. intros Hs p f Hin. rewrite !elem_of_app.
  destruct (exact_pair WOOL_FONT_SPECS paths); [injection Hs as <-; by left|].
  destruct (exact_pair WOOL_TEXT_FONT_SPECS paths); [|discriminate Hs].
  apply or_fail_ok, List.find_some in Hs as [Hs _]. cbn [List.In] in Hs. destruct Hs as [<-|[<-|[]]]; auto.
Qed.

Lemma str_list_paths entries paths :
  str_list (JList ((fun e => get e "path") <$> entries)) = Some paths ->
  Forall2 (fun e p => get e "path" = JStr p) entries paths.
Proof.
  cbn [str_list]. intros Hm. apply mapM_Some in Hm. apply Forall2_fmap_l in Hm.
  eapply Forall2_impl; [exact Hm|]. intros e p. cbn. destruct (get e "path"); congruence.
Qed.

(** The proofs of a metadata file, as a list. *)
Definition wool_proofs_of (raw : json) : list json :=
  match get raw "wool_font_proofs" with JList l => l | _ => [] end.

Lemma wool_fonts_verified raw s s' :
  wool_fonts (get raw "wool_font_proofs") s = Ok s' ->
  opaque_files s' = opaque_files s /\ changed_files s' = changed_files s /\
  forall p, p ∈ verified_font_files s' -> p ∈ verified_font_files s \/
    (p ∈ opaque_files s /\ p ∈ changed_files s /\ exists entry, entry ∈ wool_proofs_of raw /\ wool_pinned entry p).
Proof.
  unfold wool_proofs_of. destruct (get raw "wool_font_proofs") as [| | | | |entries|]; cbn [wool_fonts]; try done.
  { intros [= <-]. split_and!; auto. }
  destruct entries as [|e es] eqn:Ees; [intros [= <-]; split_and!; auto|]. rewrite <-Ees. clear Ees e es.
  intros ([] & _ & Hw)%bind_ok. apply bind_ok in Hw as (paths & Hp & Hw).
  apply bind_ok in Hw as (specs & Hspecs & Hw). apply bind_ok in Hw as ([] & Hb%require_ok & [= <-]).
  apply or_fail_ok, str_list_paths in Hp. split_and!; [done..|].
  intros p. cbn [verify_font verified_font_files]. intros [Hv|Hv]%elem_of_app; [by left|right].
  unfold sort_str in Hv. apply elem_of_sort_by, list_elem_of_lookup in Hv as [k Hk].
  destruct (Forall2_lookup_r _ _ _ _ _ Hp Hk) as (entry & He & Hpath).
  rewrite forallb_forall in Hb.
  assert (wool_bound specs s (entry, p) = true) as Hbound.
  { apply Hb, list_elem_of_In, list_elem_of_lookup. exists k. apply lookup_zip_with_Some. by exists entry, p. }
  destruct (wool_bound_pinned specs s entry p) as (Hpin & Ho & Hc); [by eapply wool_specs_known|done|done|].
  split_and!; [done..|]. exists entry. split; [|done]. by apply list_elem_of_lookup_2 in He.
Qed.

Lemma garn_font_verified proof s s' :
  verified_font_files s = [] -> garn_font proof s = Ok s' ->
  opaque_files s' = opaque_files s /\ changed_files s' = changed_files s /\
  forall p, p ∈ verified_font_files s' -> p = GARN_FONT_PATH /\ p ∈ opaque_files s /\ garn_pinned proof.
Proof.
  intros Hn. destruct proof as [| | | | | |d]; cbn [garn_font]; try done.
  { intros [= <-]. split_and!; [done..|]. rewrite Hn. by intros p ?%elem_of_nil. }
  intros ([] & _ & Hg)%bind_ok. apply bind_ok in Hg as ([] & Hb%require_ok & [= <-]).
  split_and!; [done..|]. intros p ->%list_elem_of_singleton. split; [done|].
  unfold garn_bound in Hb. rewrite !andb_true_iff in Hb. destruct Hb as [[[[[[[H1 H2] H3] H4] H5] H6] H7] H8].
  split; [exact (proj1 (str_in_elem _ _) H7)|].
  apply py_eq_str in H1, H2, H3. apply strict_int_some in H4. exact (conj H1 (conj H2 (conj H3 H4))).
Qed.

Lemma metadata_fields_bound d pr base head merge_base s :
  metadata_fields d = Ok (pr, base, head, merge_base, s) ->
  1 <= pr /\ Forall (fun sha => all_hex_of_length 40 sha = true) [base; head; merge_base] /\
  validate_stats s = Ok tt /\ verified_font_files s = [].
Proof.
  unfold metadata_fields. cbn zeta.
  do 10 (let x := fresh "x" in let Hm := fresh in intros (x & _ & Hm)%bind_ok; revert Hm).
  destruct (get (JObj d) "base_sha") as [| | | |base'| |]; try discriminate.
  destruct (get (JObj d) "head_sha") as [| | | |head'| |]; try discriminate.
  destruct (get (JObj d) "merge_base_sha") as [| | | |merge_base'| |]; try discriminate.
  intros ([] & Hv & Hm)%bind_ok. apply bind_ok in Hm as ([] & Hs & [= <- <- <- <- <-]).
  unfold validate_binding in Hv. apply bind_ok in Hv as ([] & Hp%require_ok & Hv).
  apply forM_ok in Hv. split_and!; [by apply Z.leb_le| |done|done].
  inversion_clear Hv as [|? ? H1 Hv1]. inversion_clear Hv1 as [|? ? H2 Hv2]. inversion_clear Hv2 as [|? ? H3 _].
  repeat constructor; by eapply require_ok.
Qed.

(** C15: A font counts as verified only on a proof for its very bytes: the metadata are accepted only
    with a positive number, three commits in full and well-formed statistics, and each verified font
    is a file without text diff that a proof of the metadata names with a pinned path, Git blob,
    SHA-256 and size, so that apart from raster images in the asset folders no other file without a
    text diff is reviewable. *)
Theorem verified_fonts_pinned raw pr base head merge_base s :
  materialized_metadata raw = Ok (pr, base, head, merge_base, s) ->
  1 <= pr /\ Forall (fun sha => all_hex_of_length 40 sha = true) [base; head; merge_base] /\
  (forall p, p ∈ verified_font_files s -> p ∈ opaque_files s /\
     ((p = GARN_FONT_PATH /\ garn_pinned (get raw "font_asset_proof")) \/
      (p ∈ changed_files s /\ exists entry, entry ∈ wool_proofs_of raw /\ wool_pinned entry p))) /\
  (forall p, reviewable_opaque (verified_font_files s) p = true ->
     is_safe_opaque_asset p = true \/ p ∈ verified_font_files s).
Proof.
  destruct raw as [| | | | | |d]; cbn [materialized_metadata]; try done.
  intros ([[[[pr0 base0] head0] mb0] s0] & Hm & Hg)%bind_ok.
  apply bind_ok in Hg as (s1 & Hg & Hw). apply bind_ok in Hw as (s2 & Hw & [= <- <- <- <- <-]).
  apply metadata_fields_bound in Hm as (Hpr & Hsha & _ & Hn).
  apply garn_font_verified in Hg as (Ho1 & Hc1 & Hv1); [|done].
  apply wool_fonts_verified in Hw as (Ho2 & Hc2 & Hv2).
  split_and!; [done|done| |].
  - intros p Hp. rewrite Ho2, Ho1, Hc2, Hc1. apply Hv2 in Hp as [(-> & Ho & Hpin)%Hv1|(Ho & Hc & Hpin)].
    + split; [done|by left].
    + rewrite Ho1 in Ho. rewrite Hc1 in Hc. split; [done|by right].
  - intros p. unfold reviewable_opaque. rewrite orb_true_iff, andb_true_iff. intros [?|[Hin _]]; [by left|right].
    by apply str_in_elem.
Qed.
End fonts.

(** ** Witnesses *)

#[local] Existing Instance ascii_host.

Definition demo_stats : list stat :=
  [Stat (lit "12") (lit "3") None (lit "src/a	b.rs"); Stat (lit "-") (lit "-") (Some (lit "old.png")) (lit "new.png");
   Stat (lit "0") (lit "7") (Some (lit "x")) (lit "y")].

Lemma numstat_roundtrip_witness :
  Forall stat_ok demo_stats /\ parse_numstat_z (print_stats demo_stats) = Ok (Totals 12 10 [lit "new.png"]).
Proof.
  assert (Forall stat_ok demo_stats) as Hs.
  { unfold demo_stats. apply Forall_cons; split; [|apply Forall_cons; split; [|apply Forall_cons; split; [|constructor]]].
    all: constructor; cbn [st_added st_deleted st_old st_path];
      try (split; by_compute); try (intros old Hold; first [discriminate Hold|injection Hold as <-; split; by_compute]).
    - split; [by_compute|]. exists 12, 3. split_and!; [vm_compute; reflexivity..|lia|lia].
    - split; [by_compute|]. exists 0, 7. split_and!; [vm_compute; reflexivity..|lia|lia]. }
  split; [exact Hs|]. rewrite (numstat_roundtrip demo_stats Hs). reflexivity.
Defined.

Definition demo_diff : bytes := diff_header (lit "a.rs") ++ lit "index 1..2
@@ -1 +1 @@
+x
diff --git a/b.png b/b.png
Binary files a/b.png and b/b.png differ
".

Lemma text_hunk_sound_witness :
  materialized_diff_has_text_hunk demo_diff (lit "b.png") = false /\
  exists encoded before body after, utf8_encode (lit "a.rs") = Ok encoded /\
    demo_diff = before ++ (diff_header encoded ++ body) ++ after.
Proof.
  split; [vm_compute; reflexivity|].
  destruct (text_hunk_sound demo_diff (lit "a.rs") ltac:(vm_compute; reflexivity))
    as (encoded & before & body & after & He & Hd & _). by exists encoded, before, body, after.
Defined.

Definition demo_metadata : json :=
  JObj [(lit "schema_version", JInt 1); (lit "pr_number", JInt 9); (lit "base_sha", JStr (repeat 97%N 40));
    (lit "head_sha", JStr (repeat 98%N 40)); (lit "merge_base_sha", JStr (repeat 97%N 40));
    (lit "changed_file_count", JInt 3);
    (lit "changed_files", JList (JStr GARN_FONT_PATH :: (JStr <$> dkeys GARN_FONT_PROVENANCE_BLOBS)));
    (lit "additions", JInt 0); (lit "deletions", JInt 0); (lit "opaque_files", JList [JStr GARN_FONT_PATH]);
    (lit "font_asset_proof", JObj [(lit "path", JStr GARN_FONT_PATH); (lit "blob_sha", JStr GARN_FONT_GIT_BLOB);
       (lit "sha256", JStr GARN_FONT_SHA256); (lit "size", JInt GARN_FONT_BYTES); (lit "magic", JStr (lit "wOF2"));
       (lit "provenance_blobs", JObj GARN_FONT_PROVENANCE_BLOBS)])].

Lemma verified_fonts_pinned_witness :
  exists r, materialized_metadata demo_metadata = Ok r /\ verified_font_files (snd r) = [GARN_FONT_PATH] /\
    garn_pinned (get demo_metadata "font_asset_proof").
Proof.
  destruct (materialized_metadata demo_metadata) as [[[[[pr base] head] mb] s]|e] eqn:E;
    [|vm_compute in E; discriminate].
  assert (verified_font_files s = [GARN_FONT_PATH] /\ changed_files s <> [])
    as [Hv _] by (vm_compute in E; injection E as <- <- <- <- <-; done).
  exists (pr, base, head, mb, s). split; [done|]. split; [exact Hv|].
  destruct (verified_fonts_pinned demo_metadata pr base head mb s E) as (_ & _ & Hf & _).
  destruct (Hf GARN_FONT_PATH ltac:(rewrite Hv; by left)) as (_ & [[_ Hpin]|(_ & entry & Hin & _)]); [done|].
  by apply elem_of_nil in Hin.
Defined.
