(* ===== verification/ReviewGate.v ===== *)
(** * The review evidence gate

    scripts/quality/review_governance.py: the evidence blocks of a pull request's comments, the
    native reviews, their evaluation against the bundle ([evaluate_evidence]) and the command that
    runs it and fails closed.  The JSON decoder is a parameter: [None] stands for its
    [JSONDecodeError], an error for any other exception it raises. *)

From S2P Require Import Prelude PyStr Json Sha256 ReviewMarkers ReviewDiff.
Open Scope Z_scope.

Definition MAX_EVIDENCE_PAYLOAD_BYTES : Z := 20 * 1024.
Definition MIN_REVIEW_REPORT_BYTES : Z := 120.
Definition MAX_FALLBACK_REASON_BYTES : Z := 512.
Definition AUTHORIZED_ASSOCIATIONS : list pystr := [lit "OWNER"; lit "MEMBER"; lit "COLLABORATOR"].
Definition HIGH_RISK_AXES : list pystr :=
  [lit "security"; lit "privacy"; lit "data-integrity"; lit "concurrency"; lit "migration"; lit "operations"].
Definition ALLOWED_AXES : list pystr := HIGH_RISK_AXES ++
  [lit "correctness"; lit "regression"; lit "architecture"; lit "maintainability"; lit "accessibility";
   lit "user-experience"; lit "testing"].

(** [str(v or "")] *)
Definition text_or_empty `{PyHost} (v : json) : pystr := if truthy v then to_str v else [].
(** [a or b] on values *)
Definition or_value (a b : json) : json := if truthy a then a else b.

(** [raw] is a list of objects, or of pages of objects. *)
Definition flatten (name : pystr) (raw : json) : result exn (list json) :=
  match raw with
  | JList items =>
      Ok (flat_map (fun item => match item with
            | JList entries => List.filter is_dict entries
            | JObj _ => [item]
            | _ => []
            end) items)
  | _ => governance (name ++ lit " JSON must be a list")
  end.
Definition flatten_comments : json -> result exn (list json) := flatten "comments".
Definition flatten_reviews : json -> result exn (list json) := flatten "reviews".

Definition normalized_report_text (s : pystr) : pystr :=
  strip (replace [13%N] [10%N] (replace [13%N; 10%N] [10%N] s)).

(** [datetime.min]; a text that is no date counts as it, an instant out of range raises. *)
Definition DATETIME_MIN : Z := -62135596800000000.
Definition DATETIME_END : Z := 253402300800000000.
Definition github_timestamp `{PyHost} (value : json) : result exn Z :=
  match value with
  | JStr (c :: s) =>
      match host_fromisoformat (replace "Z" "+00:00" (c :: s)) with
      | Some (t, aware) =>
          if negb aware || ((DATETIME_MIN <=? t) && (t <? DATETIME_END)) then Ok t
          else raise OverflowError "date value out of range"
      | None => Ok DATETIME_MIN
      end
  | _ => Ok DATETIME_MIN
  end.
Definition numeric_id (v : json) : Z := match v with JInt z => z | _ => 0 end.

Section evidence.
Context `{PyHost}.
(** [json.JSONDecoder().raw_decode(source)]: the value and the number of characters it took. *)
Context (raw_decode : pystr -> result exn (option (json * nat))).

(** ** Evidence blocks *)

Inductive payload : Type :=
  | Payload (record : dict json)
  | PayloadMalformed
  | PayloadOversized.

Definition decode_evidence_payload (behind : pystr) : result exn payload :=
  let source := skip_space behind in
  decoded ← raw_decode source;
  match decoded with
  | None => Ok PayloadMalformed
  | Some (record, consumed) =>
      text ← encode (take consumed source);
      if MAX_EVIDENCE_PAYLOAD_BYTES <? Z.of_nat (length text) then Ok PayloadOversized
      else
        let remainder := skip_space (drop consumed source) in
        if negb (startswith "-->" remainder || startswith "--!>" remainder) then Ok PayloadMalformed
        else match record with JObj d => Ok (Payload d) | _ => Ok PayloadMalformed end
  end.

(** A decoded block with what its comment says; the underscore keys the code adds to the record. *)
Record block : Type := Block {
  b_record : dict json; b_comment_index : nat; b_block_index : nat; b_block_count : nat;
  b_report_bytes : Z; b_report_sha256 : pystr; b_association : pystr; b_author : json;
  b_url : json; b_comment_id : Z; b_updated_at : json }.

Record gathered : Type := Gathered { g_evidence : list block; g_failures : Z; g_oversized : Z }.

Definition comment_body (comment : json) : json := or_value (get comment "body") (JStr []).
Definition comment_author (comment : json) : json :=
  match or_value (get comment "user") (JObj []) with JObj d => get (JObj d) "login" | _ => JNull end.

(** What one marker gives. *)
Inductive reading : Type := Unread (oversized : bool) | Found (b : block).

Definition read_block (comment_index : nat) (comment : json) (body : pystr) (block_count : nat)
    (im : nat * matched unit) : result exn reading :=
  let '(block_index, m) := im in
  decoded ← decode_evidence_payload (ma_rest m);
  match decoded with
  | PayloadMalformed => Ok (Unread false)
  | PayloadOversized => Ok (Unread true)
  | Payload d =>
      report ← encode (normalized_report_text (take (ma_start m) body));
      Ok (Found (Block d comment_index block_index block_count (Z.of_nat (length report)) (sha256_hex report)
               (upper (text_or_empty (get comment "author_association"))) (comment_author comment)
               (get comment "html_url") (numeric_id (get comment "id"))
               (or_value (get comment "updated_at") (or_value (get comment "created_at") (JStr [])))))
  end.
Definition gather (g : gathered) (r : reading) : gathered :=
  match r with
  | Unread oversized =>
      Gathered (g_evidence g) (g_failures g + 1) (if oversized then g_oversized g + 1 else g_oversized g)
  | Found b => Gathered (g_evidence g ++ [b]) (g_failures g) (g_oversized g)
  end.

Definition comment_blocks (start : pystr -> option (unit * pystr)) (g : gathered) (ic : nat * json)
    : result exn gathered :=
  let '(comment_index, comment) := ic in
  match comment_body comment with
  | JStr body =>
      let starts := finditer start body in
      foldM (fun g im => r ← read_block comment_index comment body (length starts) im; Ok (gather g r))
        g (enumerate starts)
  | _ => Ok g
  end.
Definition blocks_from (start : pystr -> option (unit * pystr)) (comments : list json) : result exn gathered :=
  foldM (comment_blocks start) (Gathered [] 0 0) (enumerate comments).
Definition evidence_blocks : list json -> result exn gathered := blocks_from EVIDENCE_START_RE.
Definition forwarded_evidence_blocks : list json -> result exn gathered := blocks_from FORWARDED_EVIDENCE_START_RE.

(** The number of blocks of either kind in the comment at an index. *)
Definition total_blocks (comment : json) : nat :=
  let body := text_or_empty (get comment "body") in
  length (findall EVIDENCE_START_RE body) + length (findall FORWARDED_EVIDENCE_START_RE body).
Definition with_total (comments : list json) (b : block) : block :=
  Block (b_record b) (b_comment_index b) (b_block_index b)
    (match comments !! b_comment_index b with Some c => total_blocks c | None => O end)
    (b_report_bytes b) (b_report_sha256 b) (b_association b) (b_author b) (b_url b) (b_comment_id b)
    (b_updated_at b).
End evidence.

(** ** Evidence that is bound to the diff *)

Record exact : Type := Exact {
  ex_forwarded : bool; ex_reviewer : pystr; ex_report_sha256 : pystr; ex_axis : pystr; ex_verdict : pystr;
  ex_resolved : bool; ex_mode : pystr; ex_session : option pystr; ex_fallback : option pystr;
  ex_block : block }.

Inductive outcome : Type := Unauthorized | Malformed | Stale | Accepted (e : exact).

Section judge.
Context `{PyHost}.

(** [unicodedata.normalize("NFC", raw.strip())] of a string that is given stripped *)
Definition str_value (v : json) : pystr := match v with JStr s => s | _ => [] end.
Definition reviewer_ok (raw : pystr) : bool :=
  let reviewer := nfc (strip raw) in
  negb (bool_decide (reviewer = [])) && str_eqb raw (strip raw) && (length reviewer <=? 120)%nat
  && negb (existsb is_control reviewer).

Definition authorized (attesters : list pystr) (b : block) : bool :=
  str_in (b_association b) AUTHORIZED_ASSOCIATIONS
  && str_in (casefold (strip (text_or_empty (b_author b)))) attesters.

Definition OWN_FIELDS : list pystr :=
  [lit "schema_version"; lit "pr_number"; lit "base_sha"; lit "head_sha"; lit "diff_sha256"; lit "risk_class";
   lit "reviewer"; lit "report_sha256"; lit "review_axis"; lit "verdict"; lit "findings_resolved"].
Definition OPTIONAL_FIELDS : list pystr := [lit "review_mode"; lit "review_session"; lit "fallback_reason"].
Definition FORWARDED_FIELDS : list pystr :=
  [lit "schema_version"; lit "base_sha"; lit "head_sha"; lit "diff_sha256"; lit "reviewer"; lit "review_axis";
   lit "verdict"; lit "findings_resolved"].
Definition underscored (d : dict json) : bool := existsb (startswith "_") (dkeys d).

Definition field (b : block) (k : string) : json := get (JObj (b_record b)) k.
Definition given (b : block) (k : string) : bool := dmem (b_record b) k.
Definition stripped (v : json) : bool := match v with JStr s => str_eqb s (strip s) | _ => false end.

(** [REVIEW_SESSION_RE.fullmatch] *)
Definition is_review_session (s : pystr) : bool :=
  match s with
  | c :: s' => ascii_alnum c && (length s' <=? 79)%nat
               && forallb (fun c => ascii_alnum c || existsb (N.eqb c) [46; 95; 58; 45]%N) s'
  | [] => false
  end.

Definition review_mode (b : block) : pystr :=
  if given b "review_mode" then match field b "review_mode" with JStr s => lower (strip s) | _ => [] end
  else lit "external".
Definition review_session (b : block) : pystr := strip (str_value (field b "review_session")).
Definition fallback_reason (b : block) : pystr := nfc (strip (str_value (field b "fallback_reason"))).

Definition self_session_valid (b : block) : bool :=
  given b "review_mode" && stripped (field b "review_mode") && given b "review_session"
  && stripped (field b "review_session") && is_review_session (review_session b).
Definition self_review_fields_valid (b : block) : result exn bool :=
  let mode := review_mode b in
  if str_eqb mode "external" then
    Ok ((negb (given b "review_mode") || stripped (field b "review_mode"))
        && negb (given b "review_session") && negb (given b "fallback_reason"))
  else if str_in mode [lit "self-primary"; lit "self-secondary"] then
    Ok (self_session_valid b && negb (given b "fallback_reason"))
  else if str_eqb mode "self-fallback" then
    text ← encode (fallback_reason b);
    let n := Z.of_nat (length text) in
    Ok (self_session_valid b && given b "fallback_reason" && stripped (field b "fallback_reason")
        && (20 <=? n) && (n <=? MAX_FALLBACK_REASON_BYTES) && negb (existsb is_control (fallback_reason b)))
  else Ok false.

Definition axis_of (b : block) : pystr := lower (strip (text_or_empty (field b "review_axis"))).
Definition verdict_of (b : block) : pystr := upper (strip (text_or_empty (field b "verdict"))).
Definition report_sha256_of (b : block) : pystr := strip (text_or_empty (field b "report_sha256")).
Definition VERDICTS : list pystr := [lit "PASS"; lit "BLOCKED"; lit "FAIL"].

(** What both kinds of evidence must show about the review itself. *)
Definition review_ok (b : block) : bool :=
  reviewer_ok (str_value (field b "reviewer")) && (MIN_REVIEW_REPORT_BYTES <=? b_report_bytes b)
  && (b_block_count b =? 1)%nat && str_in (axis_of b) ALLOWED_AXES && str_in (verdict_of b) VERDICTS
  && is_bool (field b "findings_resolved").
(** The commits and the diff are those of the bundle. *)
Definition bound_to (bu : bundle) (b : block) : bool :=
  py_eq (field b "base_sha") (JStr (base_sha bu)) && py_eq (field b "head_sha") (JStr (head_sha bu))
  && py_eq (field b "diff_sha256") (JStr (diff_sha256 bu)).

Definition or_none (s : pystr) : option pystr := match s with [] => None | _ => Some s end.
Definition reviewer_of (b : block) : pystr := nfc (strip (str_value (field b "reviewer"))).
Definition resolved (b : block) : bool := match field b "findings_resolved" with JBool x => x | _ => false end.

Definition judge_own (bu : bundle) (risk_class : risk) (attesters : list pystr) (b : block) : result exn outcome :=
  if negb (authorized attesters b) then Ok Unauthorized
  else if underscored (b_record b) || negb (subset_of OWN_FIELDS (dkeys (b_record b)))
          || negb (subset_of (dkeys (b_record b)) (OWN_FIELDS ++ OPTIONAL_FIELDS)) then Ok Malformed
  else
    match strict_int (field b "schema_version"), strict_int (field b "pr_number") with
    | Some schema_version, Some pr =>
        if negb (schema_version =? SCHEMA_VERSION) || negb (pr =? pr_number bu) || negb (bound_to bu b)
           || negb (str_eqb (upper (to_str (field b "risk_class"))) (risk_text risk_class)) then Ok Stale
        else
          fields_valid ← self_review_fields_valid b;
          if all_hex_of_length 64 (report_sha256_of b) && str_eqb (report_sha256_of b) (b_report_sha256 b)
             && review_ok b && fields_valid
          then Ok (Accepted (Exact false (reviewer_of b) (report_sha256_of b) (axis_of b) (verdict_of b)
                               (resolved b) (review_mode b) (or_none (review_session b))
                               (or_none (fallback_reason b)) b))
          else Ok Malformed
    | _, _ => Ok Malformed
    end.

Definition judge_forwarded (bu : bundle) (attesters : list pystr) (b : block) : outcome :=
  if negb (authorized attesters b) then Unauthorized
  else if underscored (b_record b) || negb (same_keys (b_record b) FORWARDED_FIELDS) then Malformed
  else
    match strict_int (field b "schema_version") with
    | Some schema_version =>
        if negb (schema_version =? SCHEMA_VERSION) || negb (bound_to bu b) then Stale
        else if review_ok b then
          Accepted (Exact true (reviewer_of b) (b_report_sha256 b) (axis_of b) (verdict_of b) (resolved b)
                      (lit "external") None None b)
        else Malformed
    | None => Malformed
    end.
End judge.

Record tally : Type := Tally { ta_exact : list exact; ta_stale : Z; ta_unauthorized : Z; ta_malformed : Z }.
Definition count (t : tally) (o : outcome) : tally :=
  match o with
  | Unauthorized => Tally (ta_exact t) (ta_stale t) (ta_unauthorized t + 1) (ta_malformed t)
  | Malformed => Tally (ta_exact t) (ta_stale t) (ta_unauthorized t) (ta_malformed t + 1)
  | Stale => Tally (ta_exact t) (ta_stale t + 1) (ta_unauthorized t) (ta_malformed t)
  | Accepted e => Tally (ta_exact t ++ [e]) (ta_stale t) (ta_unauthorized t) (ta_malformed t)
  end.

(** ** The newest evidence of each reviewer and axis *)

Section newest.
Context `{PyHost}.

Definition ordering : Type := Z * Z * nat * nat.
(** [a <= b] on the ordering tuples *)
Definition ordering_leb (a b : ordering) : bool :=
  let '(t, i, c, k) := a in let '(t', i', c', k') := b in
  (t <? t') || ((t =? t') && ((i <? i') || ((i =? i') && ((c <? c')%nat || ((c =? c')%nat && (k <=? k')%nat))))).
Definition ordering_of (e : exact) : result exn ordering :=
  t ← github_timestamp (b_updated_at (ex_block e));
  Ok (t, b_comment_id (ex_block e), b_comment_index (ex_block e), b_block_index (ex_block e)).

Definition review_key : Type := pystr * pystr.
Definition key_of (e : exact) : review_key := (casefold (ex_reviewer e), ex_axis e).
(** A dict from review keys, in insertion order. *)
Definition latest_map : Type := list (review_key * exact).
Fixpoint latest_get (m : latest_map) (k : review_key) : option exact :=
  match m with [] => None | (k', e) :: m' => if decide (k = k') then Some e else latest_get m' k end.
Fixpoint latest_set (m : latest_map) (k : review_key) (e : exact) : latest_map :=
  match m with
  | [] => [(k, e)]
  | (k', e') :: m' => if decide (k = k') then (k', e) :: m' else (k', e') :: latest_set m' k e
  end.

Definition keep_newest (m : latest_map) (e : exact) : result exn latest_map :=
  o ← ordering_of e;
  match latest_get m (key_of e) with
  | None => Ok (latest_set m (key_of e) e)
  | Some previous =>
      p ← ordering_of previous;
      Ok (if ordering_leb p o then latest_set m (key_of e) e else m)
  end.
Definition latest_of (es : list exact) : result exn latest_map := foldM keep_newest [] es.
Definition latest_evidence (es : list exact) : result exn (list exact) :=
  m ← latest_of es; Ok (m.*2).

(** ** Native reviews *)

Record native : Type := Native {
  n_reviewer : pystr; n_state : pystr; n_commit_id : pystr; n_url : json; n_ordering : Z * Z * nat }.
Record native_tally : Type := NativeTally {
  nt_latest : list (pystr * native); nt_unauthorized : Z; nt_malformed : Z }.

Definition native_leb (a b : Z * Z * nat) : bool :=
  let '(t, i, k) := a in let '(t', i', k') := b in
  (t <? t') || ((t =? t') && ((i <? i') || ((i =? i') && (k <=? k')%nat))).

Definition add_review (t : native_tally) (ir : nat * json) : result exn native_tally :=
  let '(index, review) := ir in
  let state := upper (text_or_empty (get review "state")) in
  let malformed := NativeTally (nt_latest t) (nt_unauthorized t) (nt_malformed t + 1) in
  if negb (str_in state [lit "APPROVED"; lit "CHANGES_REQUESTED"; lit "DISMISSED"]) then Ok t
  else
    match comment_author review with
    | JStr login =>
        if negb (is_github_login login) then Ok malformed
        else if negb (str_in (upper (text_or_empty (get review "author_association"))) AUTHORIZED_ASSOCIATIONS) then
          Ok (NativeTally (nt_latest t) (nt_unauthorized t + 1) (nt_malformed t))
        else
          match get review "commit_id" with
          | JStr commit_id =>
              if negb (all_hex_of_length 40 commit_id) then Ok malformed
              else
                submitted ← github_timestamp (get review "submitted_at");
                let o := (submitted, numeric_id (get review "id"), index) in
                let key := casefold login in
                if match dget (nt_latest t) key with None => true | Some p => native_leb (n_ordering p) o end then
                  Ok (NativeTally (dset (nt_latest t) key (Native login state commit_id (get review "html_url") o))
                        (nt_unauthorized t) (nt_malformed t))
                else Ok t
          | _ => Ok malformed
          end
    | _ => Ok malformed
    end.

Record native_result : Type := NativeResult {
  nr_accepted : list native; nr_blocking : list native; nr_stale : Z; nr_unauthorized : Z; nr_malformed : Z }.
Definition native_review_evidence (reviews : list json) (head_sha : pystr) : result exn native_result :=
  t ← foldM add_review (NativeTally [] 0 0) (enumerate reviews);
  let latest := snd <$> nt_latest t in
  let current := List.filter (fun n => str_eqb (n_commit_id n) head_sha) latest in
  Ok (NativeResult (List.filter (fun n => str_eqb (n_state n) "APPROVED") current)
        (List.filter (fun n => str_eqb (n_state n) "CHANGES_REQUESTED") current)
        (Z.of_nat (length latest) - Z.of_nat (length current)) (nt_unauthorized t) (nt_malformed t)).
End newest.

(** ** The evaluation *)

Record evaluation : Type := Evaluation {
  ev_reasons : list pystr; ev_risk_class : risk; ev_minimum : risk;
  ev_attention_required : bool; ev_attention_decision : option pystr;
  ev_reviewable_opaque : list pystr; ev_blocking_opaque : list pystr;
  ev_required : nat; ev_accepted : list exact; ev_quick : list native;
  ev_stale : Z; ev_unauthorized : Z; ev_malformed : Z; ev_oversized : Z;
  ev_native : native_result }.
Definition passes (e : evaluation) : bool := match ev_reasons e with [] => true | _ => false end.

Section evaluate.
Context `{PyHost}.
Context (raw_decode : pystr -> result exn (option (json * nat))).

(** The attention contract, when the text of the pull request is given. *)
Definition attention_reasons (files : list pystr) (pr_body : option pystr) (docs : option (list pystr))
    : result exn (list pystr) :=
  match pr_body with
  | None => Ok []
  | Some body =>
      match product_logic_changes files, docs with
      | _ :: _, None => Ok [lit "Attention impact: trusted canonical product docs are unavailable"]
      | _, _ =>
          reasons ← validate_attention_impact_contract_binding body files (default [] docs);
          Ok (map (fun r => lit "Attention impact: " ++ r) reasons)
      end
  end.

Definition reason_if (b : bool) (m : pystr) : list pystr := if b then [m] else [].

(** What the paths of the diff say, for the declared risk class. *)
Definition risk_reasons (s : diff_stats) (declared : option risk) (blocking : list pystr) : list pystr :=
  let risk_class := default R3 declared in
  let minimum := minimum_risk_for_paths (changed_files s) in
  reason_if (bool_decide (declared = None))
    "PR body must contain exactly one risk marker: <!-- weltgewebe-risk: R0|R1|R2|R3 -->"
  ++ reason_if (negb (bool_decide (blocking = [])))
       (lit "opaque files outside the reviewable image/verified-font policy block the review evidence gate: "
        ++ join ", " blocking)
  ++ reason_if (RISK_ORDER risk_class <? RISK_ORDER minimum)%nat
       (lit "declared risk " ++ risk_text risk_class ++ lit " is below path-derived minimum " ++ risk_text minimum)
  ++ match risk_class with
     | R0 => match r0_scope_valid s with Some detail => [detail] | None => [] end
     | _ => []
     end.

Definition is_pass (e : exact) : bool := str_eqb (ex_verdict e) "PASS".
Definition reviewer_names (accepted : list exact) : list pystr :=
  remove_dups ((fun e => casefold (ex_reviewer e)) <$> accepted).
Definition axes (accepted : list exact) : list pystr := remove_dups (ex_axis <$> accepted).
Definition report_hashes (accepted : list exact) : list pystr := remove_dups (ex_report_sha256 <$> accepted).

(** The sessions of the self reviews of a mode, and the pairs of them one person may give. *)
Definition of_mode (mode : string) (accepted : list exact) : list exact :=
  List.filter (fun e => str_eqb (ex_mode e) mode) accepted.
Definition sessions (es : list exact) : list pystr := omap ex_session es.
Definition session_pair (primary other : list pystr) : bool :=
  negb (bool_decide (primary = [])) && negb (bool_decide (other = []))
  && forallb (fun s => negb (str_in s other)) primary.
Definition one_reviewer (accepted : list exact) : bool := (length (reviewer_names accepted) =? 1)%nat.
Definition regular_self_pair (accepted : list exact) : bool :=
  one_reviewer accepted
  && session_pair (sessions (of_mode "self-primary" accepted)) (sessions (of_mode "self-secondary" accepted)).
Definition explicit_self_fallback (accepted : list exact) : bool :=
  one_reviewer accepted
  && session_pair (sessions (of_mode "self-primary" accepted)) (sessions (of_mode "self-fallback" accepted))
  && forallb (fun e => match ex_fallback e with Some _ => true | None => false end) (of_mode "self-fallback" accepted).

Definition diversity_reasons (risk_class : risk) (accepted : list exact) : list pystr :=
  (if (2 <=? REQUIRED_REVIEWS risk_class)%nat then
     reason_if ((length (reviewer_names accepted) <? 2)%nat
                && negb (regular_self_pair accepted || explicit_self_fallback accepted))
       "R2/R3 require two distinct reviewer identities or a self-primary/self-secondary pair with distinct review sessions (legacy self-fallback with a documented reason remains valid)"
     ++ reason_if (length (report_hashes accepted) <? 2)%nat "R2/R3 require at least two distinct review reports"
     ++ reason_if (length (axes accepted) <? 2)%nat "R2/R3 require at least two distinct review axes"
   else [])
  ++ reason_if (bool_decide (risk_class = R3) && negb (existsb (fun a => str_in a HIGH_RISK_AXES) (axes accepted)))
       "R3 requires at least one security, privacy, data-integrity, concurrency, migration or operations review".

Definition identity (name : pystr) : pystr := casefold (nfc name).
Definition quick_approvals (risk_class : risk) (accepted : list exact) (natives : list native) : list native :=
  match risk_class with
  | R1 => List.filter (fun n => negb (str_in (identity (n_reviewer n))
                                       ((fun e => identity (ex_reviewer e)) <$> accepted))) natives
  | _ => []
  end.

(** What the reviews say. *)
Definition review_reasons (risk_class : risk) (latest accepted : list exact) (nr : native_result)
    (accepted_count : nat) : list pystr :=
  let blocking := List.filter (fun e => negb (is_pass e)) latest in
  let required := REQUIRED_REVIEWS risk_class in
  reason_if (negb (bool_decide (blocking = [])))
    (lit "current exact review evidence contains blocking verdicts: "
     ++ join ", " ((fun e => ex_reviewer e ++ lit "/" ++ ex_axis e ++ lit "=" ++ ex_verdict e) <$> blocking))
  ++ reason_if (negb (bool_decide (nr_blocking nr = [])))
       (lit "current-head GitHub reviews request changes: " ++ join ", " (n_reviewer <$> nr_blocking nr))
  ++ reason_if (accepted_count <? required)%nat
       (lit "risk " ++ risk_text risk_class ++ lit " requires " ++ show_nat required
        ++ lit " exact PASS reviews, found " ++ show_nat accepted_count
        ++ match risk_class with R1 => lit " (native current-head APPROVED reviews count for R1)" | _ => [] end)
  ++ diversity_reasons risk_class accepted.

(** Both kinds of evidence, judged in the order of the code. *)
Definition judged (bu : bundle) (risk_class : risk) (attesters : list pystr) (comments : list json)
    : result exn (tally * Z) :=
  own ← evidence_blocks raw_decode comments;
  forwarded ← forwarded_evidence_blocks raw_decode comments;
  let start := Tally [] 0 0 (g_failures own + g_failures forwarded) in
  t ← foldM (fun t b => o ← judge_own bu risk_class attesters (with_total comments b); Ok (count t o))
        start (g_evidence own);
  Ok (foldl (fun t b => count t (judge_forwarded bu attesters (with_total comments b))) t (g_evidence forwarded),
      g_oversized own + g_oversized forwarded).

Definition evaluate_evidence (bu : bundle) (declared : option risk) (comments : list json)
    (allowed_attesters : list pystr) (reviews : list json) (pr_body : option pystr)
    (docs : option (list pystr)) : result exn evaluation :=
  require (negb (bool_decide (allowed_attesters = [])) && forallb is_github_login allowed_attesters)
    "allowed_attesters must be a non-empty set of GitHub logins" ;;
  let attesters := casefold <$> allowed_attesters in
  let files := attention_files (stats bu) in
  attention ← attention_reasons files pr_body docs;
  let risk_class := default R3 declared in
  let '(reviewable, blocking_opaque) :=
    partition_opaque_files (opaque_files (stats bu)) (verified_font_files (stats bu)) in
  '(t, oversized) ← judged bu risk_class attesters comments;
  latest ← latest_evidence (ta_exact t);
  let accepted := List.filter (fun e => is_pass e && ex_resolved e) latest in
  nr ← native_review_evidence reviews (head_sha bu);
  let quick := quick_approvals risk_class accepted (nr_accepted nr) in
  let accepted_count := (length accepted + length quick)%nat in
  Ok (Evaluation
        (attention ++ risk_reasons (stats bu) declared blocking_opaque
         ++ review_reasons risk_class latest accepted nr accepted_count)
        risk_class (minimum_risk_for_paths (changed_files (stats bu)))
        (match pr_body with Some _ => negb (bool_decide (product_logic_changes files = [])) | None => false end)
        (pr_body ≫= attention_impact_decision)
        reviewable blocking_opaque (REQUIRED_REVIEWS risk_class) accepted quick
        (ta_stale t) (ta_unauthorized t) (ta_malformed t) oversized nr).
End evaluate.

(** ** The receipt and the command *)

Section command.
Context `{PyHost}.
Context (raw_decode : pystr -> result exn (option (json * nat))).

Definition opt_text (o : option pystr) : json := match o with Some s => JStr s | None => JNull end.
Definition accepted_json (e : exact) : json :=
  JObj [(lit "kind", JStr (if ex_forwarded e then lit "forwarded-external-review" else lit "attested-report"));
        (lit "reviewer", JStr (ex_reviewer e)); (lit "report_sha256", JStr (ex_report_sha256 e));
        (lit "review_axis", JStr (ex_axis e)); (lit "review_mode", JStr (ex_mode e));
        (lit "review_session", opt_text (ex_session e)); (lit "attester", b_author (ex_block e));
        (lit "comment_url", b_url (ex_block e))].
Definition quick_json (n : native) : json :=
  JObj [(lit "kind", JStr (lit "github-approval")); (lit "reviewer", JStr (n_reviewer n));
        (lit "report_sha256", JNull); (lit "review_axis", JStr (lit "github-approval"));
        (lit "attester", JStr (n_reviewer n)); (lit "comment_url", n_url n)].

Definition by_axis (a b : exact) : bool :=
  str_ltb (ex_axis a) (ex_axis b)
  || (str_eqb (ex_axis a) (ex_axis b) && str_leb (casefold (ex_reviewer a)) (casefold (ex_reviewer b))).
Definition by_reviewer (a b : native) : bool := str_leb (casefold (n_reviewer a)) (casefold (n_reviewer b)).

Definition evaluation_json (bu : bundle) (e : evaluation) : json :=
  JObj [(lit "schema_version", JInt SCHEMA_VERSION); (lit "kind", JStr (lit "weltgewebe-review-evaluation"));
        (lit "pass", JBool (passes e)); (lit "risk_class", JStr (risk_text (ev_risk_class e)));
        (lit "minimum_risk_class", JStr (risk_text (ev_minimum e)));
        (lit "attention_impact_required", JBool (ev_attention_required e));
        (lit "attention_impact_decision", opt_text (ev_attention_decision e));
        (lit "binding", JObj [(lit "pr_number", JInt (pr_number bu)); (lit "base_sha", JStr (base_sha bu));
           (lit "head_sha", JStr (head_sha bu)); (lit "merge_base_sha", JStr (merge_base_sha bu));
           (lit "diff_sha256", JStr (diff_sha256 bu))]);
        (lit "reviewable_opaque_files", JList (JStr <$> ev_reviewable_opaque e));
        (lit "blocking_opaque_files", JList (JStr <$> ev_blocking_opaque e));
        (lit "required_review_count", JInt (Z.of_nat (ev_required e)));
        (lit "accepted_review_count", JInt (Z.of_nat (length (ev_accepted e) + length (ev_quick e))));
        (lit "accepted_reviews", JList ((accepted_json <$> sort_by by_axis (ev_accepted e))
           ++ (quick_json <$> sort_by by_reviewer (ev_quick e))));
        (lit "stale_evidence_count", JInt (ev_stale e));
        (lit "unauthorized_evidence_count", JInt (ev_unauthorized e));
        (lit "malformed_evidence_count", JInt (ev_malformed e));
        (lit "oversized_evidence_count", JInt (ev_oversized e));
        (lit "stale_native_review_count", JInt (nr_stale (ev_native e)));
        (lit "unauthorized_native_review_count", JInt (nr_unauthorized (ev_native e)));
        (lit "malformed_native_review_count", JInt (nr_malformed (ev_native e)));
        (lit "reasons", JList (JStr <$> ev_reasons e))].

Definition failure_json (message : pystr) : json :=
  JObj [(lit "schema_version", JInt SCHEMA_VERSION); (lit "kind", JStr (lit "weltgewebe-review-evaluation"));
        (lit "pass", JBool false); (lit "reasons", JList [JStr message])].

Definition canonical_bytes (data : json) : result exn bytes := encode (indented_json 0 data ++ [10%N]).

(** The files the command reads: each is a value, or the exception its reading raises. *)
Record inputs : Type := Inputs {
  in_body : result exn pystr; in_metadata : result exn json; in_diff : result exn bytes;
  in_patch : result exn bytes; in_comments : result exn json; in_reviews : option (result exn json);
  in_manifest : result exn pystr; in_authorities : result exn json }.

Definition evaluated (files : inputs) : result exn (evaluation * bytes) :=
  body ← in_body files;
  metadata ← in_metadata files;
  '(pr, base, head, merge_base, s) ← materialized_metadata metadata;
  diff ← in_diff files;
  patch ← in_patch files;
  bu ← build_bundle pr base head merge_base diff patch (resolve_materialized_opaque_files s diff);
  raw_comments ← in_comments files;
  comments ← flatten_comments raw_comments;
  reviews ← match in_reviews files with
            | Some file => raw ← file; flatten_reviews raw
            | None => Ok []
            end;
  manifest ← in_manifest files;
  docs ← canonical_product_docs_from_manifest_text manifest;
  authorities ← in_authorities files;
  attesters ← load_allowed_attesters authorities;
  e ← evaluate_evidence raw_decode bu (parse_risk_class body) comments attesters reviews (Some body) (Some docs);
  written ← canonical_bytes (evaluation_json bu e);
  Ok (e, written).

(** Exit code and [evaluation.json]; an exception outside [Exception] leaves the command. *)
Definition command_evaluate_materialized (files : inputs) : result exn (Z * bytes) :=
  match evaluated files with
  | Ok (e, written) => Ok ((if passes e then 0 else 1), written)
  | Err e =>
      if issubclass (exn_class e) Exception then
        written ← canonical_bytes (failure_json (lit "internal governance failure: " ++ exn_msg e));
        Ok (2, written)
      else Err e
  end.
End command.
