(* ===== verification/ReviewProofs.v ===== *)
(** * Correctness of the review evidence gate

    What an evaluation that passes guarantees, who can influence it, and which evidence counts, for
    the definitions of [ReviewGate]. *)

From Stdlib Require Import ZifyBool.
From S2P Require Import Prelude PyStr Json Sha256 ReviewMarkers ReviewDiff ReviewGate.
Open Scope Z_scope.

(** ** Evidence blocks *)

Section blocks.
Context `{PyHost}.
Context (raw_decode : pystr -> result exn (option (json * nat))).

Definition found (rs : list reading) : list block :=
  omap (fun r => match r with Found b => Some b | Unread _ => None end) rs.

Lemma gather_evidence rs g : g_evidence (foldl gather g rs) = g_evidence g ++ found rs.
Proof.
  revert g; induction rs as [|r rs IH]; intros g; cbn [foldl]; [by rewrite app_nil_r|].
  rewrite IH. destruct r; cbn [gather g_evidence found omap list_omap]; [done|].
  by rewrite <-(assoc_L (++)).
Qed.

(** The readings of one comment. *)
Definition reads (start : pystr -> option (unit * pystr)) (ic : nat * json) (rs : list reading) : Prop :=
  match comment_body (snd ic) with
  | JStr body =>
      Forall2 (fun im r => read_block raw_decode (fst ic) (snd ic) body (length (finditer start body)) im = Ok r)
        (enumerate (finditer start body)) rs
  | _ => rs = []
  end.

Lemma comment_blocks_reads start g ic g' :
  comment_blocks raw_decode start g ic = Ok g' <-> exists rs, reads start ic rs /\ g' = foldl gather g rs.
Proof.
  destruct ic as [i comment]. unfold comment_blocks, reads. cbn [fst snd].
  destruct (comment_body comment); try apply foldM_collect;
    (split; [intros [= <-]; by exists []|by intros (rs & -> & ->)]).
Qed.

Lemma blocks_from_reads start comments g :
  blocks_from raw_decode start comments = Ok g <->
  exists rss, Forall2 (reads start) (enumerate comments) rss /\
              g = foldl gather (Gathered [] 0 0) (concat rss).
Proof.
  unfold blocks_from. generalize (enumerate comments) (Gathered [] 0 0). intros l.
  induction l as [|ic l IH]; intros g0; cbn [foldM].
  { split; [intros [= <-]; by exists []|]. by intros (rs & ->%Forall2_nil_inv_l & ->). }
  rewrite bind_ok. split.
  - intros (g1 & (rs & Hrs & ->)%comment_blocks_reads & (rss & Hrss & ->)%IH).
    exists (rs :: rss). split; [by constructor|]. cbn [concat]. by rewrite foldl_app.
  - intros (rss & (rs & rss' & Hrs & Hrss & ->)%Forall2_cons_inv_l & ->).
    exists (foldl gather g0 rs). split; [apply comment_blocks_reads; by exists rs|].
    apply IH. exists rss'. split; [done|]. cbn [concat]. by rewrite foldl_app.
Qed.

Lemma blocks_from_evidence start comments g :
  blocks_from raw_decode start comments = Ok g ->
  exists rss, Forall2 (reads start) (enumerate comments) rss /\ g_evidence g = found (concat rss).
Proof.
  intros (rss & Hr & ->)%blocks_from_reads. exists rss. split; [done|]. by rewrite gather_evidence.
Qed.

(** A block and the comment it was read from. *)
Record from_comment (start : pystr -> option (unit * pystr)) (i : nat) (comment : json) (b : block) : Prop :=
  FromComment {
  fc_index : b_comment_index b = i;
  fc_author : b_author b = comment_author comment;
  fc_association : b_association b = upper (text_or_empty (get comment "author_association"));
  fc_report : exists body m report, comment_body comment = JStr body /\ m ∈ finditer start body /\
    encode (normalized_report_text (take (ma_start m) body)) = Ok report /\
    b_report_bytes b = Z.of_nat (length report) /\ b_report_sha256 b = sha256_hex report;
}.

Lemma enumerate_elem {A} (l : list A) i x : (i, x) ∈ enumerate l -> l !! i = Some x.
Proof.
  unfold enumerate. intros (k & Hk)%list_elem_of_lookup. rewrite lookup_number_from in Hk.
  destruct (l !! k) as [y|] eqn:E; [|done]. cbn in Hk. by injection Hk as <- <-.
Qed.

Lemma reads_found start i comment rs b :
  reads start (i, comment) rs -> b ∈ found rs -> from_comment start i comment b.
Proof.
  unfold reads. cbn [fst snd]. destruct (comment_body comment) as [| | | |body| |] eqn:Eb;
    try by intros -> ?%elem_of_nil.
  intros Hr (r & Hin & Hb)%list_elem_of_omap. destruct r as [|b']; [done|]. injection Hb as ->.
  apply list_elem_of_lookup in Hin as [k Hk].
  destruct (Forall2_lookup_r _ _ _ _ _ Hr Hk) as ([n m] & Hm & Hread).
  apply list_elem_of_lookup_2, enumerate_elem, list_elem_of_lookup_2 in Hm.
  unfold read_block in Hread. apply bind_ok in Hread as (p & _ & Hread).
  destruct p as [d| |]; try done. apply bind_ok in Hread as (report & He & [= <-]).
  constructor; try done. by exists body, m, report.
Qed.

Lemma evidence_from start comments g b :
  blocks_from raw_decode start comments = Ok g -> b ∈ g_evidence g ->
  exists comment, comments !! b_comment_index b = Some comment /\
                  from_comment start (b_comment_index b) comment b.
Proof.
  intros (rss & Hr & ->)%blocks_from_evidence Hb.
  unfold found in Hb. apply list_elem_of_omap in Hb as (r & Hin & Hrb).
  apply list_elem_of_In, in_concat in Hin as (rs & Hrs & Hin).
  apply list_elem_of_In in Hrs, Hin. apply list_elem_of_lookup in Hrs as [k Hk].
  destruct (Forall2_lookup_r _ _ _ _ _ Hr Hk) as ([i comment] & Hm & Hread).
  apply list_elem_of_lookup_2, enumerate_elem in Hm.
  assert (from_comment start i comment b) as Hf.
  { eapply reads_found; [done|]. apply list_elem_of_omap. by exists r. }
  exists comment. by rewrite (fc_index _ _ _ _ Hf).
Qed.
End blocks.

(** ** Judged evidence *)

Section judged.
Context `{PyHost}.

(** What a block shows that counts as evidence [e] for the bundle. *)
Record counted (bu : bundle) (attesters : list pystr) (b : block) (e : exact) : Prop := Counted {
  co_block : ex_block e = b;
  co_authorized : authorized attesters b = true;
  co_bound : bound_to bu b = true;
  co_review : review_ok b = true;
  co_reviewer : ex_reviewer e = reviewer_of b;
  co_axis : ex_axis e = axis_of b;
  co_verdict : ex_verdict e = verdict_of b;
  co_resolved : ex_resolved e = resolved b;
  co_report : ex_report_sha256 e = b_report_sha256 b;
}.

Ltac no_accept := let Hx := fresh in intros Hx; cbv iota in Hx; discriminate Hx.

Lemma judge_own_counted bu rc attesters b e :
  judge_own bu rc attesters b = Ok (Accepted e) -> counted bu attesters b e.
Proof.
  unfold judge_own. destruct (authorized attesters b) eqn:Ea; [|no_accept]. cbn [negb].
  destruct (underscored _ || _ || _); [no_accept|].
  destruct (strict_int (field b "schema_version")) as [v|]; [|no_accept].
  destruct (strict_int (field b "pr_number")) as [pr|]; [|no_accept].
  destruct (negb (v =? SCHEMA_VERSION)); [no_accept|]. destruct (negb (pr =? pr_number bu)); [no_accept|].
  destruct (bound_to bu b) eqn:Eb; [|no_accept]. cbn [negb orb]. destruct (negb (str_eqb _ _)); [no_accept|].
  destruct (self_review_fields_valid b) as [valid|]; [|no_accept]. cbn [mbind result_bind].
  destruct (all_hex_of_length 64 _); [|no_accept]. cbn [andb].
  destruct (str_eqb_spec (report_sha256_of b) (b_report_sha256 b)) as [Es|]; [|no_accept]. cbn [andb].
  destruct (review_ok b) eqn:Er; [|no_accept]. destruct valid; [|no_accept]. intros [= <-]. by constructor.
Qed.

Lemma judge_forwarded_counted bu attesters b e :
  judge_forwarded bu attesters b = Accepted e -> counted bu attesters b e.
Proof.
  unfold judge_forwarded. destruct (authorized attesters b) eqn:Ea; [|no_accept]. cbn [negb].
  destruct (underscored _ || _); [no_accept|].
  destruct (strict_int (field b "schema_version")) as [v|]; [|no_accept].
  destruct (negb (v =? SCHEMA_VERSION)); [no_accept|]. destruct (bound_to bu b) eqn:Eb; [|no_accept]. cbn [negb orb].
  destruct (review_ok b) eqn:Er; [|no_accept]. intros [= <-]. by constructor.
Qed.

Definition accepted_of (os : list outcome) : list exact :=
  omap (fun o => match o with Accepted e => Some e | _ => None end) os.

Lemma count_exact os t : ta_exact (foldl count t os) = ta_exact t ++ accepted_of os.
Proof.
  revert t; induction os as [|o os IH]; intros t; cbn [foldl]; [by rewrite app_nil_r|].
  rewrite IH. destruct o; cbn [count ta_exact accepted_of omap list_omap]; try done.
  by rewrite <-(assoc_L (++)).
Qed.

Lemma foldl_map {A B C} (f : A -> B) (g : C -> B -> C) l c :
  foldl (fun c a => g c (f a)) c l = foldl g c (f <$> l).
Proof. revert c; induction l; intros; cbn; auto. Qed.

Context (raw_decode : pystr -> result exn (option (json * nat))).

Lemma judged_exact bu rc attesters comments t z :
  judged raw_decode bu rc attesters comments = Ok (t, z) ->
  exists own fw os,
    evidence_blocks raw_decode comments = Ok own /\ forwarded_evidence_blocks raw_decode comments = Ok fw /\
    Forall2 (fun b o => judge_own bu rc attesters (with_total comments b) = Ok o) (g_evidence own) os /\
    ta_exact t = accepted_of os ++
      accepted_of ((fun b => judge_forwarded bu attesters (with_total comments b)) <$> g_evidence fw).
Proof.
  unfold judged. intros (own & Ho & Hj)%bind_ok. apply bind_ok in Hj as (fw & Hf & Hj).
  apply bind_ok in Hj as (t0 & Ht & [= <- <-]). apply foldM_collect in Ht as (os & Hos & ->).
  exists own, fw, os. split_and!; try done.
  by rewrite (foldl_map (fun b => judge_forwarded bu attesters (with_total comments b)) count), count_exact, count_exact.
Qed.

(** Where a piece of exact evidence comes from. *)
Lemma judged_from bu rc attesters comments t z e :
  judged raw_decode bu rc attesters comments = Ok (t, z) -> e ∈ ta_exact t ->
  exists start b comment,
    (start = EVIDENCE_START_RE \/ start = FORWARDED_EVIDENCE_START_RE) /\
    comments !! b_comment_index b = Some comment /\
    from_comment start (b_comment_index b) comment b /\
    counted bu attesters (with_total comments b) e.
Proof.
  intros (own & fw & os & Ho & Hf & Hos & ->)%judged_exact [He|He]%elem_of_app;
    apply list_elem_of_omap in He as (o & Hin & Hoe); destruct o as [| | |e']; try done; injection Hoe as ->.
  - apply list_elem_of_lookup in Hin as [k Hk].
    destruct (Forall2_lookup_r _ _ _ _ _ Hos Hk) as (b & Hb & Hj).
    apply list_elem_of_lookup_2 in Hb.
    destruct (evidence_from _ _ _ _ _ Ho Hb) as (comment & Hc & Hfc).
    exists EVIDENCE_START_RE, b, comment. split; [by left|]. split; [done|]. split; [done|]. by eapply judge_own_counted.
  - apply list_elem_of_fmap in Hin as (b & Hj & Hb).
    destruct (evidence_from _ _ _ _ _ Hf Hb) as (comment & Hc & Hfc).
    exists FORWARDED_EVIDENCE_START_RE, b, comment. split; [by right|]. split; [done|]. split; [done|]. by apply judge_forwarded_counted.
Qed.
End judged.

(** ** The newest evidence *)

Section newest.
Context `{PyHost}.

Lemma ordering_leb_total a b : ordering_leb a b = true \/ ordering_leb b a = true.
Proof. destruct a as [[[t i] c] k], b as [[[t' i'] c'] k']. unfold ordering_leb. lia. Qed.
Lemma ordering_leb_refl a : ordering_leb a a = true.
Proof. by destruct (ordering_leb_total a a). Qed.
Lemma ordering_leb_trans a b c : ordering_leb a b = true -> ordering_leb b c = true -> ordering_leb a c = true.
Proof. destruct a as [[[t i] n] k], b as [[[t' i'] n'] k'], c as [[[t'' i''] n''] k'']. unfold ordering_leb. lia. Qed.

Lemma latest_get_set m k e k' :
  latest_get (latest_set m k e) k' = if decide (k' = k) then Some e else latest_get m k'.
Proof.
  induction m as [|[k0 e0] m IH]; cbn [latest_set latest_get].
  - by destruct (decide (k' = k)).
  - destruct (decide (k = k0)) as [->|Hk]; cbn [latest_get].
    + by destruct (decide (k' = k0)).
    + destruct (decide (k' = k0)) as [->|]; [by rewrite decide_False by congruence|apply IH].
Qed.

(** The order of two pieces of evidence whose dates can be read. *)
Definition not_newer (e l : exact) : Prop :=
  exists o o', ordering_of e = Ok o /\ ordering_of l = Ok o' /\ ordering_leb o o' = true.

Record newest_in (es : list exact) (m : latest_map) : Prop := NewestIn {
  ne_from : forall k l, latest_get m k = Some l -> l ∈ es /\ key_of l = k;
  ne_newest : forall e, e ∈ es -> exists l, latest_get m (key_of e) = Some l /\ not_newer e l;
  ne_keys : NoDup (m.*1);
}.

Lemma latest_set_keys m k e : (latest_set m k e).*1 = if decide (k ∈ m.*1) then m.*1 else m.*1 ++ [k].
Proof.
  induction m as [|[k0 e0] m IH]; cbn [latest_set].
  - rewrite decide_False by (cbn; by intros ?%elem_of_nil). done.
  - rewrite fmap_cons. cbn [fst]. destruct (decide (k = k0)) as [->|Hk].
    + by rewrite decide_True by (by left).
    + rewrite fmap_cons, IH. cbn [fst]. destruct (decide (k ∈ m.*1)) as [Hin|Hin].
      * by rewrite decide_True by (by right).
      * rewrite decide_False; [done|]. by intros [|]%elem_of_cons.
Qed.

Lemma latest_set_nodup m k e : NoDup (m.*1) -> NoDup ((latest_set m k e).*1).
Proof.
  intros Hm. rewrite latest_set_keys. destruct (decide _); [done|].
  apply NoDup_app. split_and!; [done| |apply NoDup_singleton].
  by intros x Hx ->%list_elem_of_singleton.
Qed.

Lemma not_newer_trans e l r : not_newer e l -> not_newer l r -> not_newer e r.
Proof.
  intros (o & o1 & H1 & H2 & H3) (o1' & o2 & H4 & H5 & H6). exists o, o2. split_and!; [done..|].
  assert (o1' = o1) as -> by congruence. by eapply ordering_leb_trans.
Qed.

Lemma set_newest es m e :
  newest_in es m -> not_newer e e -> (forall l, latest_get m (key_of e) = Some l -> not_newer l e) ->
  newest_in (es ++ [e]) (latest_set m (key_of e) e).
Proof.
  intros [Hf Hn Hk] He Hl. constructor; [| |by apply latest_set_nodup].
  - intros k l. rewrite latest_get_set. destruct (decide (k = key_of e)) as [->|Hne].
    + intros [= <-]. split; [|done]. apply elem_of_app. right. by left.
    + intros (? & ?)%Hf. split; [apply elem_of_app; by left|done].
  - intros x [Hx| ->%list_elem_of_singleton]%elem_of_app; rewrite latest_get_set.
    + destruct (Hn x Hx) as (l & Hg & Hxl). destruct (decide (key_of x = key_of e)) as [Ek|Hne].
      * exists e. split; [done|]. eapply not_newer_trans; [done|]. apply Hl. by rewrite <-Ek.
      * by exists l.
    + rewrite decide_True by done. by exists e.
Qed.

Lemma keep_newest_in es m e m' :
  newest_in es m -> keep_newest m e = Ok m' -> newest_in (es ++ [e]) m'.
Proof.
  intros Hm (o & Ho & Hs)%bind_ok.
  assert (not_newer e e) as He by (exists o, o; auto using ordering_leb_refl).
  destruct (latest_get m (key_of e)) as [previous|] eqn:Ep.
  - apply bind_ok in Hs as (p & Hp & Hs). destruct (ordering_leb p o) eqn:El; injection Hs as <-.
    + apply set_newest; [done..|]. intros l Hl. rewrite Ep in Hl. injection Hl as <-. by exists p, o.
    + destruct Hm as [Hf Hn Hk]. constructor; [| |done].
      * intros k l (? & ?)%Hf. split; [apply elem_of_app; by left|done].
      * intros x [Hx| ->%list_elem_of_singleton]%elem_of_app; [by apply Hn|].
        exists previous. split; [done|]. exists o, p. split_and!; [done..|].
        destruct (ordering_leb_total o p); congruence.
  - injection Hs as <-. apply set_newest; [done..|]. intros l Hl. by rewrite Ep in Hl.
Qed.

Lemma latest_of_newest es m : latest_of es = Ok m -> newest_in es m.
Proof.
  unfold latest_of.
  assert (forall es es0 m0, newest_in es0 m0 -> foldM keep_newest m0 es = Ok m -> newest_in (es0 ++ es) m) as Hgen.
  { clear es. induction es as [|e es IH]; intros es0 m0 H0; cbn [foldM]; [intros [= <-]; by rewrite app_nil_r|].
    intros (m1 & H1 & H2)%bind_ok. change (e :: es) with ([e] ++ es). rewrite (assoc_L (++)).
    eapply IH; [by eapply keep_newest_in|done]. }
  intros Hf. apply (Hgen es [] []); [|done]. constructor; [done|by intros e ?%elem_of_nil|constructor].
Qed.

Lemma latest_get_in m k l : latest_get m k = Some l -> (k, l) ∈ m.
Proof.
  induction m as [|[k0 e0] m IH]; cbn [latest_get]; [done|].
  destruct (decide (k = k0)) as [->|]; [intros [= ->]; by left|right; auto].
Qed.
Lemma in_latest_get m k l : NoDup (m.*1) -> (k, l) ∈ m -> latest_get m k = Some l.
Proof.
  induction m as [|[k0 e0] m IH]; cbn [latest_get]; intros Hn Hin; [by apply elem_of_nil in Hin|].
  rewrite fmap_cons in Hn. apply NoDup_cons in Hn as [Hk Hn]. cbn [fst] in Hk.
  apply elem_of_cons in Hin as [E|Hin]; [injection E as -> ->; by rewrite decide_True|].
  rewrite decide_False; [by apply IH|]. intros ->. apply Hk. apply list_elem_of_fmap. by exists (k0, l).
Qed.
End newest.

(** ** Native reviews *)

Section native.
Context `{PyHost}.

(** [review], at [index] among the reviews, is a decision of an authorised reviewer. *)
Record decisive (ir : nat * json) (n : native) : Prop := Decisive {
  de_state : n_state n = upper (text_or_empty (get (snd ir) "state"));
  de_kind : n_state n ∈ [lit "APPROVED"; lit "CHANGES_REQUESTED"; lit "DISMISSED"];
  de_author : comment_author (snd ir) = JStr (n_reviewer n) /\ is_github_login (n_reviewer n) = true;
  de_association : upper (text_or_empty (get (snd ir) "author_association")) ∈ AUTHORIZED_ASSOCIATIONS;
  de_commit : get (snd ir) "commit_id" = JStr (n_commit_id n) /\ all_hex_of_length 40 (n_commit_id n) = true;
  de_url : n_url n = get (snd ir) "html_url";
  de_ordering : exists submitted, github_timestamp (get (snd ir) "submitted_at") = Ok submitted /\
    n_ordering n = (submitted, numeric_id (get (snd ir) "id"), fst ir);
}.
Definition reviewer_key (n : native) : pystr := casefold (n_reviewer n).
Definition not_later (n n' : native) : Prop := native_leb (n_ordering n) (n_ordering n') = true.

Lemma native_leb_total a b : native_leb a b = true \/ native_leb b a = true.
Proof. destruct a as [[t i] k], b as [[t' i'] k']. unfold native_leb. lia. Qed.
Lemma native_leb_trans a b c : native_leb a b = true -> native_leb b c = true -> native_leb a c = true.
Proof. destruct a as [[t i] k], b as [[t' i'] k'], c as [[t'' i''] k'']. unfold native_leb. lia. Qed.

Lemma decisive_unique ir n n' : decisive ir n -> decisive ir n' -> n = n'.
Proof.
  intros [S1 _ [A1 _] _ [C1 _] U1 (t1 & T1 & O1)] [S2 _ [A2 _] _ [C2 _] U2 (t2 & T2 & O2)].
  destruct n, n'; cbn in *. congruence.
Qed.

Definition kept (t : native_tally) (n : native) : dict native :=
  if match dget (nt_latest t) (reviewer_key n) with None => true | Some p => native_leb (n_ordering p) (n_ordering n) end
  then dset (nt_latest t) (reviewer_key n) n else nt_latest t.
Lemma add_review_decides t ir t' : add_review t ir = Ok t' ->
  (exists n, decisive ir n /\ nt_latest t' = kept t n) \/ ((forall n, ~ decisive ir n) /\ nt_latest t' = nt_latest t).
Proof.
  destruct ir as [index review]. unfold add_review. set (state := upper _).
  destruct (str_in state _) eqn:Es; cbn [negb].
  2:{ intros [= <-]. right. split; [|done]. intros n [S1 K _ _ _ _ _]. cbn [snd] in S1. fold state in S1. apply str_in_elem in K. congruence. }
  destruct (comment_author review) as [| | | |login| |] eqn:Ea;
    try (intros [= <-]; right; split; [|done]; intros n [_ _ [A _] _ _ _ _]; cbn [snd] in A; congruence).
  destruct (is_github_login login) eqn:El; cbn [negb].
  2:{ intros [= <-]. right. split; [|done]. intros n [_ _ [A L] _ _ _ _]. cbn [snd] in A. congruence. }
  destruct (str_in (upper _) AUTHORIZED_ASSOCIATIONS) eqn:Eu; cbn [negb].
  2:{ intros [= <-]. right. split; [|done]. intros n [_ _ _ K _ _ _]. cbn [snd] in K. apply str_in_elem in K. congruence. }
  destruct (get review "commit_id") as [| | | |commit_id| |] eqn:Ec;
    try (intros [= <-]; right; split; [|done]; intros n [_ _ _ _ [C _] _ _]; cbn [snd] in C; congruence).
  destruct (all_hex_of_length 40 commit_id) eqn:Eh; cbn [negb].
  2:{ intros [= <-]. right. split; [|done]. intros n [_ _ _ _ [C K] _ _]. cbn [snd] in C. congruence. }
  intros (submitted & Et & E)%bind_ok. cbn zeta in E. left.
  exists (Native login state commit_id (get review "html_url") (submitted, numeric_id (get review "id"), index)). split.
  - constructor; try done; [by apply str_in_elem|by apply str_in_elem|by exists submitted].
  - unfold kept, reviewer_key. cbn [n_reviewer n_ordering].
    destruct (match dget (nt_latest t) (casefold login) with None => true | Some p => _ end); by injection E as <-.
Qed.

(** The decisions of the reviews seen, with the newest of every reviewer in the dict. *)
Record newest_of (seen : list (nat * json)) (m : dict native) : Prop := NewestOf {
  no_from : forall k n, dget m k = Some n -> k = reviewer_key n /\ exists ir, ir ∈ seen /\ decisive ir n;
  no_newest : forall ir n, ir ∈ seen -> decisive ir n -> exists n', dget m (reviewer_key n) = Some n' /\ not_later n n';
  no_keys : NoDup (dkeys m);
}.
Lemma add_review_newest seen t ir t' : newest_of seen (nt_latest t) -> add_review t ir = Ok t' ->
  newest_of (seen ++ [ir]) (nt_latest t').
Proof.
  intros [Hf Hn Hk] [(n & Dn & ->)|[Hno ->]]%add_review_decides.
  2:{ constructor; [|intros ir' n' [Hin| ->%list_elem_of_singleton]%elem_of_app Dn; [by eapply Hn|by destruct (Hno n')]|done].
      intros k n (-> & ir' & ? & ?)%Hf. split; [done|]. exists ir'. split; [apply elem_of_app; by left|done]. }
  assert (forall k n', dget (nt_latest t) k = Some n' -> k = reviewer_key n' /\ exists ir', ir' ∈ seen ++ [ir] /\ decisive ir' n') as Hf'.
  { intros k n' (-> & ir' & ? & ?)%Hf. split; [done|]. exists ir'. split; [apply elem_of_app; by left|done]. }
  unfold kept. destruct (match dget (nt_latest t) (reviewer_key n) with None => true | Some p => _ end) eqn:Ek; constructor; [| | |done| |done].
  - intros k n'. rewrite dget_dset. destruct (str_eqb_spec k (reviewer_key n)) as [->|]; [|apply Hf'].
    intros [= <-]. split; [done|]. exists ir. split; [apply elem_of_app; right; by left|done].
  - intros ir' n' [Hin| ->%list_elem_of_singleton]%elem_of_app Dn'; rewrite dget_dset.
    + destruct (Hn _ _ Hin Dn') as (n2 & Hg & Hl). destruct (str_eqb_spec (reviewer_key n') (reviewer_key n)) as [E|]; [|by exists n2].
      exists n. split; [done|]. rewrite E in Hg. rewrite Hg in Ek. by eapply native_leb_trans.
    + rewrite (decisive_unique _ _ _ Dn' Dn), str_eqb_refl. exists n. split; [done|].
      by destruct (native_leb_total (n_ordering n) (n_ordering n)).
  - by apply NoDup_dset.
  - intros ir' n' [Hin| ->%list_elem_of_singleton]%elem_of_app Dn'; [by eapply Hn|].
    rewrite (decisive_unique _ _ _ Dn' Dn). destruct (dget (nt_latest t) (reviewer_key n)) as [p|]; [|done].
    exists p. split; [done|]. destruct (native_leb_total (n_ordering n) (n_ordering p)); [done|congruence].
Qed.
Lemma reviews_newest l t t' seen : newest_of seen (nt_latest t) -> foldM add_review t l = Ok t' -> newest_of (seen ++ l) (nt_latest t').
Proof.
  revert t seen. induction l as [|ir l IH]; intros t seen Ht; cbn [foldM]; [intros [= <-]; by rewrite app_nil_r|].
  intros (t1 & E1 & E)%bind_ok. change (ir :: l) with ([ir] ++ l). rewrite (assoc_L (++)).
  eapply IH; [|done]. by eapply add_review_newest.
Qed.

(** [n] is the decision that stands for its reviewer: none of theirs is newer. *)
Definition standing (reviews : list json) (n : native) : Prop :=
  (exists ir, ir ∈ enumerate reviews /\ decisive ir n) /\
  forall ir' n', ir' ∈ enumerate reviews -> decisive ir' n' -> reviewer_key n' = reviewer_key n -> not_later n' n.

Lemma same_place (reviews : list json) i r r' : (i, r) ∈ enumerate reviews -> (i, r') ∈ enumerate reviews -> r = r'.
Proof.
  unfold enumerate. intros [k Hk]%list_elem_of_lookup [k' Hk']%list_elem_of_lookup. rewrite lookup_number_from in Hk, Hk'.
  destruct (reviews !! k) eqn:E, (reviews !! k') eqn:E'; cbn in Hk, Hk'; try done.
  injection Hk as -> ->. injection Hk' as -> ->. congruence.
Qed.
Lemma standing_unique reviews n n' : standing reviews n -> standing reviews n' -> reviewer_key n = reviewer_key n' -> n = n'.
Proof.
  intros [([i r] & Hi & D) Hs] [([i' r'] & Hi' & D') Hs'] E.
  assert (not_later n n') as L1 by exact (Hs' _ _ Hi D E). assert (not_later n' n) as L2 by exact (Hs _ _ Hi' D' (eq_sym E)).
  unfold not_later in L1, L2. pose proof (de_ordering _ _ D) as (t & _ & O). pose proof (de_ordering _ _ D') as (t' & _ & O').
  rewrite O, O' in L1, L2. cbn [fst] in L1, L2. assert (i = i') as <- by (unfold native_leb in L1, L2; lia).
  rewrite (same_place _ _ _ _ Hi Hi') in D. by eapply decisive_unique.
Qed.

Lemma native_decisions reviews head nr : native_review_evidence reviews head = Ok nr ->
  (forall n, n ∈ nr_accepted nr -> standing reviews n /\ n_commit_id n = head /\ n_state n = lit "APPROVED") /\
  (nr_blocking nr = [] -> forall n, standing reviews n -> n_commit_id n = head -> n_state n <> lit "CHANGES_REQUESTED").
Proof.
  unfold native_review_evidence. intros (t & Et & [= <-])%bind_ok. cbn [nr_accepted nr_blocking].
  apply (reviews_newest _ _ _ []) in Et; [|by constructor; [|intros ? ? ?%elem_of_nil|constructor]].
  destruct Et as [Hf Hn Hk]. cbn [app] in Hf, Hn.
  assert (forall k n, dget (nt_latest t) k = Some n -> standing reviews n) as Hst.
  { intros k n Hg. destruct (Hf _ _ Hg) as [-> Hir]. split; [done|]. intros ir' n' Hin D E.
    destruct (Hn _ _ Hin D) as (n2 & Hg2 & Hl). rewrite E, Hg in Hg2. by injection Hg2 as <-. }
  split.
  - intros n Hn'. apply list_elem_of_In, filter_In in Hn' as [Hn' Ea%str_eqb_eq].
    apply filter_In in Hn' as [Hn' Ec%str_eqb_eq]. apply list_elem_of_In, list_elem_of_fmap in Hn' as ([k n1] & -> & Hin).
    split; [|done]. eapply Hst. by apply dget_nodup.
  - intros Hb n Hs Hc Hcr. destruct Hs as [(ir & Hin & D) Hnew] eqn:Es. destruct (Hn _ _ Hin D) as (n' & Hg & _).
    assert (n' = n) as ->. { apply (standing_unique reviews); [by eapply Hst|done|]. by destruct (Hf _ _ Hg) as [<- _]. }
    apply (elem_of_nil n). rewrite <- Hb. apply list_elem_of_In, filter_In. rewrite Hcr, str_eqb_refl. split; [|done].
    apply filter_In. rewrite Hc, str_eqb_refl. split; [|done]. apply list_elem_of_In, list_elem_of_fmap.
    exists (reviewer_key n, n). split; [done|]. by apply dget_in.
Qed.
End native.

(** ** What a passing evaluation guarantees *)

Section passing.
Context `{PyHost}.

(** An attested review in the comments of the pull request. *)
Record attested (bu : bundle) (attesters : list pystr) (comments : list json) (e : exact) : Prop := Attested {
  at_comment : exists comment body report start m,
    comments !! b_comment_index (ex_block e) = Some comment /\ comment_body comment = JStr body /\
    (start = EVIDENCE_START_RE \/ start = FORWARDED_EVIDENCE_START_RE) /\ m ∈ finditer start body /\
    (* by an authorised attester, in a comment with no other block *)
    upper (text_or_empty (get comment "author_association")) ∈ AUTHORIZED_ASSOCIATIONS /\
    casefold (strip (text_or_empty (comment_author comment))) ∈ attesters /\
    total_blocks comment = 1%nat /\
    (* the report is the text before the marker *)
    encode (normalized_report_text (take (ma_start m) body)) = Ok report /\
    MIN_REVIEW_REPORT_BYTES <= Z.of_nat (length report) /\ ex_report_sha256 e = sha256_hex report;
  at_base : field (ex_block e) "base_sha" = JStr (base_sha bu);
  at_head : field (ex_block e) "head_sha" = JStr (head_sha bu);
  at_diff : field (ex_block e) "diff_sha256" = JStr (diff_sha256 bu);
  at_reviewer : ex_reviewer e <> [];
  at_axis : ex_axis e ∈ ALLOWED_AXES;
}.

Lemma counted_attested bu attesters comments start b comment e :
  (start = EVIDENCE_START_RE \/ start = FORWARDED_EVIDENCE_START_RE) ->
  comments !! b_comment_index b = Some comment ->
  from_comment start (b_comment_index b) comment b ->
  counted bu attesters (with_total comments b) e -> attested bu attesters comments e.
Proof.
  intros Hs Hc [Hi Ha Has (body & m & report & Hb & Hm & He & Hn & Hh)]
    [Hbl Hau Hbo Hre Hrv Hax _ _ Hrep].
  unfold authorized in Hau. apply andb_true_iff in Hau as [Hau1 Hau2].
  apply str_in_elem in Hau1, Hau2. cbn [with_total b_association b_author] in Hau1, Hau2.
  rewrite Has in Hau1. rewrite Ha in Hau2.
  unfold bound_to in Hbo. rewrite !andb_true_iff in Hbo. destruct Hbo as [[H1 H2] H3].
  unfold review_ok in Hre. rewrite !andb_true_iff in Hre. destruct Hre as [[[[[Hr1 Hr2] Hr3] Hr4] _] _].
  apply Z.leb_le in Hr2. apply Nat.eqb_eq in Hr3. apply str_in_elem in Hr4.
  cbn [with_total b_report_bytes b_block_count] in Hr2, Hr3. rewrite Hc in Hr3.
  constructor; rewrite ?Hbl; try by apply py_eq_str.
  - exists comment, body, report, start, m. cbn [with_total b_comment_index]. split_and!; try done; [lia|].
    by rewrite Hrep.
  - rewrite Hrv. unfold reviewer_ok in Hr1. rewrite !andb_true_iff, negb_true_iff in Hr1.
    destruct Hr1 as [[[Hne _] _] _]. by apply bool_decide_eq_false in Hne.
  - by rewrite Hax.
Qed.

Lemma judged_attested raw_decode bu rc attesters comments t z e :
  judged raw_decode bu rc attesters comments = Ok (t, z) -> e ∈ ta_exact t -> attested bu attesters comments e.
Proof.
  intros Hj He. destruct (judged_from raw_decode bu rc attesters comments t z e Hj He)
    as (start & b & comment & Hs & Hc & Hf & Hco). by eapply counted_attested.
Qed.

(** The parts of an evaluation that returns. *)
Record parts (raw_decode : pystr -> result exn (option (json * nat))) (bu : bundle) (declared : option risk)
    (comments : list json) (allowed : list pystr) (reviews : list json) (pr_body : option pystr)
    (docs : option (list pystr)) (ev : evaluation) (t : tally) (m : latest_map) : Prop := Parts {
  pa_logins : Forall (fun l => is_github_login l = true) allowed;
  pa_judged : exists z, judged raw_decode bu (default R3 declared) (casefold <$> allowed) comments = Ok (t, z);
  pa_latest : latest_of (ta_exact t) = Ok m;
  pa_accepted : ev_accepted ev = List.filter (fun e => is_pass e && ex_resolved e) (m.*2);
  pa_native : native_review_evidence reviews (head_sha bu) = Ok (ev_native ev);
  pa_quick : ev_quick ev = quick_approvals (default R3 declared) (ev_accepted ev) (nr_accepted (ev_native ev));
  pa_class : ev_risk_class ev = default R3 declared;
  pa_reasons : exists attention,
    attention_reasons (attention_files (stats bu)) pr_body docs = Ok attention /\
    ev_reasons ev = attention
      ++ risk_reasons (stats bu) declared
           (snd (partition_opaque_files (opaque_files (stats bu)) (verified_font_files (stats bu))))
      ++ review_reasons (default R3 declared) (m.*2) (ev_accepted ev) (ev_native ev)
           (length (ev_accepted ev) + length (ev_quick ev));
}.

Lemma evaluate_parts raw_decode bu declared comments allowed reviews pr_body docs ev :
  evaluate_evidence raw_decode bu declared comments allowed reviews pr_body docs = Ok ev ->
  exists t m, parts raw_decode bu declared comments allowed reviews pr_body docs ev t m.
Proof.
  unfold evaluate_evidence. intros ([] & Hr & He)%bind_ok. cbn zeta in He.
  apply bind_ok in He as (attention & Ha & He).
  destruct (partition_opaque_files _ _) as [reviewable blocking] eqn:Ep.
  apply bind_ok in He as ([t z] & Hj & He). apply bind_ok in He as (latest & Hl & He).
  apply bind_ok in He as (nr & Hn & He). injection He as <-.
  unfold latest_evidence in Hl. apply bind_ok in Hl as (m & Hm & [= <-]).
  unfold require in Hr. destruct (negb _ && _) eqn:Eg; [|done].
  apply andb_true_iff in Eg as [_ Eg]. rewrite forallb_forall in Eg.
  exists t, m. constructor; try done.
  - apply Forall_forall. intros l Hin. apply Eg. by apply list_elem_of_In.
  - by exists z.
  - exists attention. split; [done|]. by rewrite Ep.
Qed.
End passing.

(** ** The gate *)

Section gate.
Context `{PyHost}.

Lemma reason_if_nil b m : reason_if b m = [] <-> b = false.
Proof. by destruct b. Qed.

Lemma two_of_dups {A} `{EqDecision A} (l : list A) :
  (length (remove_dups l) <? 2)%nat = false -> exists x y, x ∈ l /\ y ∈ l /\ x <> y.
Proof.
  intros Hl%Nat.ltb_ge. pose proof (NoDup_remove_dups l) as Hn.
  assert (forall x, x ∈ remove_dups l -> x ∈ l) as Hin by (intros x; apply elem_of_remove_dups).
  destruct (remove_dups l) as [|x [|y r]]; cbn in Hl; try lia.
  exists x, y. split_and!; [apply Hin; by left|apply Hin; right; by left|].
  intros ->. apply NoDup_cons in Hn as [Hn _]. apply Hn. by left.
Qed.

(** Two accepted reviews that differ in [f]. *)
Definition differ {A} (f : exact -> A) (accepted : list exact) : Prop :=
  exists e e', e ∈ accepted /\ e' ∈ accepted /\ f e <> f e'.

Lemma differ_of_dups {A} `{EqDecision A} (f : exact -> A) accepted :
  (length (remove_dups (f <$> accepted)) <? 2)%nat = false -> differ f accepted.
Proof.
  intros (x & y & Hx & Hy & Hne)%two_of_dups.
  apply list_elem_of_fmap in Hx as (e & -> & He), Hy as (e' & -> & He'). by exists e, e'.
Qed.

(** Two passes of one person: a primary self review and a second one, in sessions of their own. *)
Definition two_passes (accepted : list exact) : Prop :=
  exists e e' s s', e ∈ accepted /\ e' ∈ accepted /\ ex_mode e = lit "self-primary" /\
    (ex_mode e' = lit "self-secondary" \/ ex_mode e' = lit "self-fallback" /\ is_Some (ex_fallback e')) /\
    ex_session e = Some s /\ ex_session e' = Some s' /\ s <> s'.

Lemma of_mode_elem mode accepted e : e ∈ of_mode mode accepted <-> e ∈ accepted /\ ex_mode e = lit mode.
Proof.
  unfold of_mode. rewrite list_elem_of_In, filter_In, <-list_elem_of_In, str_eqb_eq. done.
Qed.

Lemma session_pair_spec accepted mode mode' :
  session_pair (sessions (of_mode mode accepted)) (sessions (of_mode mode' accepted)) = true ->
  exists e e' s s', e ∈ accepted /\ e' ∈ accepted /\ ex_mode e = lit mode /\ ex_mode e' = lit mode' /\
    ex_session e = Some s /\ ex_session e' = Some s' /\ s <> s'.
Proof.
  unfold session_pair. rewrite !andb_true_iff, !negb_true_iff, !bool_decide_eq_false.
  intros [[H1 H2] H3].
  destruct (sessions (of_mode mode accepted)) as [|s l] eqn:E1; [done|].
  destruct (sessions (of_mode mode' accepted)) as [|s' l'] eqn:E2; [done|].
  assert (s ∈ sessions (of_mode mode accepted)) as Hs by (rewrite E1; by left).
  assert (s' ∈ sessions (of_mode mode' accepted)) as Hs' by (rewrite E2; by left).
  apply list_elem_of_omap in Hs as (e & [He Hm]%of_mode_elem & Hes), Hs' as (e' & [He' Hm']%of_mode_elem & Hes').
  exists e, e', s, s'. split_and!; try done. intros ->.
  cbn [forallb] in H3. apply andb_true_iff in H3 as [H3 _]. apply negb_true_iff in H3.
  assert (str_in s' (s' :: l') = true) by (apply str_in_elem; by left). congruence.
Qed.

Lemma self_pair_passes accepted :
  regular_self_pair accepted || explicit_self_fallback accepted = true -> two_passes accepted.
Proof.
  rewrite orb_true_iff. unfold regular_self_pair, explicit_self_fallback. rewrite !andb_true_iff.
  intros [[_ Hp]|[[_ Hp] Hf]];
    apply session_pair_spec in Hp as (e & e' & s & s' & H1 & H2 & H3 & H4 & H5 & H6 & H7);
    exists e, e', s, s'; split_and!; auto.
  right. split; [done|]. rewrite forallb_forall in Hf.
  specialize (Hf e' ltac:(apply list_elem_of_In, of_mode_elem; done)). by destruct (ex_fallback e').
Qed.

Lemma nil_app3 {A} (a b c : list A) : a ++ b ++ c = [] -> a = [] /\ b = [] /\ c = [].
Proof. intros [-> [-> ->]%app_nil]%app_nil. done. Qed.

(** The newest of the evidence judged with the same reviewer and axis is a PASS, for every piece of it. *)
Definition nothing_blocks (es : list exact) : Prop :=
  forall e, e ∈ es -> exists l, l ∈ es /\ key_of l = key_of e /\ not_newer e l /\ ex_verdict l = lit "PASS".

Lemma latest_passes es m : latest_of es = Ok m -> List.filter (fun e => negb (is_pass e)) (m.*2) = [] -> nothing_blocks es.
Proof.
  intros [Hf Hn Hk]%latest_of_newest Hb e (l & Hg & Hel)%Hn. exists l. destruct (Hf _ _ Hg) as [Hin E].
  split_and!; try done. destruct (is_pass l) eqn:Ep; [by apply str_eqb_eq|]. exfalso.
  apply (not_elem_of_nil l). rewrite <-Hb. apply list_elem_of_In, filter_In. rewrite Ep. split; [|done].
  apply list_elem_of_In, list_elem_of_fmap. exists (key_of e, l). split; [done|]. by apply latest_get_in.
Qed.

(** An approval on GitHub that counts as a review of the head: the standing decision of a member, who
    wrote none of the accepted reports. *)
Definition approves (reviews : list json) (head : pystr) (accepted : list exact) (n : native) : Prop :=
  standing reviews n /\ n_commit_id n = head /\ n_state n = lit "APPROVED" /\
  forall e, e ∈ accepted -> identity (n_reviewer n) <> identity (ex_reviewer e).

Lemma quick_approves rc reviews head accepted nr n :
  native_review_evidence reviews head = Ok nr -> n ∈ quick_approvals rc accepted (nr_accepted nr) ->
  rc = R1 /\ approves reviews head accepted n.
Proof.
  intros [Ha _]%native_decisions Hn. destruct rc; try by apply elem_of_nil in Hn. split; [done|].
  apply list_elem_of_In, filter_In in Hn as [Hn%list_elem_of_In Hi]. destruct (Ha _ Hn) as (? & ? & ?).
  split_and!; try done. intros e He E. apply negb_true_iff in Hi.
  assert (str_in (identity (n_reviewer n)) ((fun e => identity (ex_reviewer e)) <$> accepted) = true) as Ht; [|congruence].
  apply str_in_elem, list_elem_of_fmap. by exists e.
Qed.

(** C11: A pull request passes the gate only with a declared risk class that is at least the class its
    paths call for, no file that cannot be reviewed, no decision on GitHub that stands and requests
    changes to the current head, no judged evidence whose newest verdict for its reviewer and axis is
    other than PASS, and for the class enough reviews.  These are blocks of evidence and, for R1 only,
    approvals on GitHub: the standing decision of a member on the current head, by none of the
    reviewers of the accepted blocks.  Every accepted block is attested: it stands in a comment of
    an authorised attester that holds no other block, it names this base, head and diff, its report
    is the text before the marker, with at least 120 bytes and the hash it counts under.  R2 and R3
    have two reports and two axes, by two reviewers or by one in two separate passes; R3 has a
    high-risk axis; R0 is Markdown of at most fifty lines. *)
Theorem pass_sound raw_decode bu declared comments allowed reviews pr_body docs ev :
  evaluate_evidence raw_decode bu declared comments allowed reviews pr_body docs = Ok ev ->
  passes ev = true ->
  exists r, declared = Some r /\
    (RISK_ORDER (minimum_risk_for_paths (changed_files (stats bu))) <= RISK_ORDER r)%nat /\
    Forall (fun p => reviewable_opaque (verified_font_files (stats bu)) p = true) (opaque_files (stats bu)) /\
    (r = R0 -> changed_lines (stats bu) <= 50 /\
               Forall (fun p => endswith ".md" p = true) (changed_files (stats bu))) /\
    (forall n, standing reviews n -> n_commit_id n = head_sha bu -> n_state n <> lit "CHANGES_REQUESTED") /\
    (exists t z, judged raw_decode bu r (casefold <$> allowed) comments = Ok (t, z) /\ nothing_blocks (ta_exact t)) /\
    Forall (fun e => attested bu (casefold <$> allowed) comments e /\ ex_verdict e = lit "PASS" /\
                     ex_resolved e = true) (ev_accepted ev) /\
    (REQUIRED_REVIEWS r <= length (ev_accepted ev) + length (ev_quick ev))%nat /\
    Forall (fun n => r = R1 /\ approves reviews (head_sha bu) (ev_accepted ev) n) (ev_quick ev) /\
    (r = R2 \/ r = R3 ->
       differ ex_report_sha256 (ev_accepted ev) /\ differ ex_axis (ev_accepted ev) /\
       (differ (fun e => casefold (ex_reviewer e)) (ev_accepted ev) \/ two_passes (ev_accepted ev))) /\
    (r = R3 -> exists e, e ∈ ev_accepted ev /\ ex_axis e ∈ HIGH_RISK_AXES).
Proof.
  intros (t & m & [_ [z Hj] Hl Hac Hna Hqu _ (attention & _ & Hre)])%evaluate_parts Hp.
  unfold passes in Hp. rewrite Hre in Hp.
  destruct (attention ++ _) as [|? ?] eqn:E; [|done]. apply nil_app3 in E as (_ & Hrisk & Hrev).
  unfold risk_reasons in Hrisk. rewrite !app_nil, !reason_if_nil in Hrisk.
  destruct Hrisk as (Hd & Hb & Hmin & H0).
  destruct declared as [r|]; [|by apply bool_decide_eq_false in Hd]. cbn [default id] in *.
  unfold review_reasons in Hrev. rewrite !app_nil, !reason_if_nil in Hrev.
  destruct Hrev as (Hbv & Hnb & Hcount & Hdiv).
  apply negb_false_iff, bool_decide_eq_true in Hb, Hnb, Hbv. apply Nat.ltb_ge in Hcount, Hmin.
  exists r. split; [done|]. split; [done|]. split; [|split; [|split; [|split; [|split; [|split; [done|split; [|split]]]]]]].
  - apply Forall_forall. intros p Hin. destruct (reviewable_opaque _ p) eqn:Er; [done|]. exfalso.
    cbn [partition_opaque_files snd] in Hb.
    assert (p ∈ List.filter (fun p => negb (reviewable_opaque (verified_font_files (stats bu)) p))
              (opaque_files (stats bu))) as Hx.
    { apply list_elem_of_In, filter_In. rewrite Er. split; [by apply list_elem_of_In|done]. }
    rewrite Hb in Hx. by apply elem_of_nil in Hx.
  - intros ->. unfold r0_scope_valid in H0. destruct (Z.ltb_spec 50 (changed_lines (stats bu))); [done|].
    split; [done|]. apply Forall_forall. intros p Hin. destruct (endswith ".md" p) eqn:Ee; [done|]. exfalso.
    destruct (List.filter (fun path => negb (endswith ".md" path)) (changed_files (stats bu)))
      as [|q l] eqn:Ef; [|discriminate H0].
    assert (p ∈ List.filter (fun path => negb (endswith ".md" path)) (changed_files (stats bu))) as Hx.
    { apply list_elem_of_In, filter_In. rewrite Ee. split; [by apply list_elem_of_In|done]. }
    rewrite Ef in Hx. by apply elem_of_nil in Hx.
  - by apply (native_decisions _ _ _ Hna).
  - exists t, z. split; [done|]. by apply (latest_passes _ m).
  - apply Forall_forall. intros e He. rewrite Hac in He.
    apply list_elem_of_In, filter_In in He as [He Hv]. apply andb_true_iff in Hv as [Hv1 Hv2].
    apply list_elem_of_In, list_elem_of_fmap in He as ([k e'] & -> & He). cbn [snd] in *.
    destruct (latest_of_newest _ _ Hl) as [Hfrom _ Hkeys].
    apply in_latest_get in He; [|done]. apply Hfrom in He as [He _].
    split; [by eapply judged_attested|]. split; [by apply str_eqb_eq|done].
  - apply Forall_forall. intros n Hn. rewrite Hqu in Hn. by apply (quick_approves _ _ _ _ _ _ Hna).
  - intros Hr. unfold diversity_reasons in Hdiv. apply app_nil in Hdiv as [Hdiv _].
    rewrite (proj2 (Nat.leb_le 2 (REQUIRED_REVIEWS r))) in Hdiv by (by destruct Hr as [-> | ->]).
    rewrite !app_nil, !reason_if_nil in Hdiv. destruct Hdiv as (H1 & H2 & H3).
    split; [by apply differ_of_dups|]. split; [by apply differ_of_dups|].
    apply andb_false_iff in H1 as [H1|H1].
    + left. apply (differ_of_dups (fun e => casefold (ex_reviewer e))). exact H1.
    + right. apply self_pair_passes. by apply negb_false_iff.
  - intros ->. unfold diversity_reasons in Hdiv. apply app_nil in Hdiv as [_ Hdiv].
    apply reason_if_nil in Hdiv. rewrite bool_decide_true in Hdiv by done.
    apply negb_false_iff, existsb_exists in Hdiv as (a & Ha & Hh).
    apply list_elem_of_In, elem_of_remove_dups, list_elem_of_fmap in Ha as (e & -> & He).
    exists e. split; [done|]. by apply str_in_elem.
Qed.
End gate.

(** ** Comments of outsiders *)

Section outsiders.
Context `{PyHost}.
Context (raw_decode : pystr -> result exn (option (json * nat))).
Context (attesters : list pystr).

(** The author of a comment may not attest. *)
Definition outsider (comment : json) : Prop :=
  str_in (upper (text_or_empty (get comment "author_association"))) AUTHORIZED_ASSOCIATIONS
  && str_in (casefold (strip (text_or_empty (comment_author comment)))) attesters = false.
(** The same comments but for what outsiders wrote in theirs. *)
Definition same_insiders : list json -> list json -> Prop :=
  Forall2 (fun c c' => c = c' \/ outsider c /\ outsider c').

Lemma reads_functional start ic rs rs' :
  reads raw_decode start ic rs -> reads raw_decode start ic rs' -> rs = rs'.
Proof.
  unfold reads. destruct (comment_body (snd ic)); try congruence.
  intros H1. revert rs'. induction H1 as [|im r l rs Hr H1 IH]; intros rs' H2.
  - by apply Forall2_nil_inv_l in H2 as ->.
  - apply Forall2_cons_inv_l in H2 as (r' & rs'' & Hr' & H2 & ->). f_equal; [congruence|by apply IH].
Qed.

Lemma outsider_block start i comment rs b :
  outsider comment -> reads raw_decode start (i, comment) rs -> b ∈ found rs -> authorized attesters b = false.
Proof.
  intros Ho Hr Hb. destruct (reads_found raw_decode _ _ _ _ _ Hr Hb) as [_ Ha Has _].
  unfold authorized. by rewrite Has, Ha.
Qed.

(** A way of judging blocks that looks at the author and at the comment of a block only. *)
Record judges (J : list json -> block -> option exact) : Prop := Judges {
  ju_author : forall cs b, authorized attesters b = false -> J cs b = None;
  ju_comment : forall cs cs' b, cs !! b_comment_index b = cs' !! b_comment_index b -> J cs b = J cs' b;
}.

Lemma omap_none {A B} (f : A -> option B) (l : list A) : (forall x, x ∈ l -> f x = None) -> omap f l = [].
Proof.
  induction l as [|x l IH]; intros Hf; [done|]. cbn [omap list_omap].
  rewrite Hf by (by left). apply IH. intros y Hy. apply Hf. by right.
Qed.
Lemma omap_same {A B} (f g : A -> option B) (l : list A) : (forall x, x ∈ l -> f x = g x) -> omap f l = omap g l.
Proof.
  induction l as [|x l IH]; intros Hf; [done|]. cbn [omap list_omap].
  rewrite <-(Hf x) by (by left). rewrite IH; [done|]. intros y Hy. apply Hf. by right.
Qed.
Lemma found_app rs rs' : found (rs ++ rs') = found rs ++ found rs'.
Proof. apply omap_app. Qed.

Lemma number_related {A} (R : A -> A -> Prop) (l l' all all' : list A) k :
  Forall2 R l l' -> (forall j, all !! (k + j)%nat = l !! j) -> (forall j, all' !! (k + j)%nat = l' !! j) ->
  Forall2 (fun ic ic' => fst ic = fst ic' /\ all !! fst ic = Some (snd ic) /\ all' !! fst ic = Some (snd ic') /\
             R (snd ic) (snd ic')) (number_from k l) (number_from k l').
Proof.
  intros Hl. revert k. induction Hl as [|x y l l' Hxy Hl IH]; intros k Ha Ha'; cbn [number_from]; constructor.
  - cbn [fst snd]. split_and!; [done|by rewrite <-(Nat.add_0_r k), Ha|by rewrite <-(Nat.add_0_r k), Ha'|done].
  - apply IH; intros j; rewrite Nat.add_succ_comm; [apply (Ha (S j))|apply (Ha' (S j))].
Qed.
Lemma enumerate_related {A} (R : A -> A -> Prop) (l l' : list A) :
  Forall2 R l l' ->
  Forall2 (fun ic ic' => fst ic = fst ic' /\ l !! fst ic = Some (snd ic) /\ l' !! fst ic = Some (snd ic') /\
             R (snd ic) (snd ic')) (enumerate l) (enumerate l').
Proof. intros Hl. by apply number_related. Qed.

Lemma judged_insiders J start cs cs' g g' :
  judges J -> same_insiders cs cs' ->
  blocks_from raw_decode start cs = Ok g -> blocks_from raw_decode start cs' = Ok g' ->
  omap (J cs) (g_evidence g) = omap (J cs') (g_evidence g').
Proof.
  intros [Ja Jc] Hcs (rss & Hr & ->)%blocks_from_evidence (rss' & Hr' & ->)%blocks_from_evidence.
  pose proof (enumerate_related _ _ _ Hcs) as Hl.
  revert rss rss' Hr Hr'. induction Hl as [|[i c] [i' c'] l l' (Hi & Hc & Hc' & Hcc) Hl IH]; intros rss rss' Hr Hr'.
  { by apply Forall2_nil_inv_l in Hr as ->, Hr' as ->. }
  apply Forall2_cons_inv_l in Hr as (rs & rss1 & Hrs & Hr & ->), Hr' as (rs' & rss1' & Hrs' & Hr' & ->).
  cbn [fst snd] in *. subst i'. cbn [concat]. rewrite !found_app, !omap_app, (IH rss1 rss1') by done. f_equal.
  destruct Hcc as [->|[Ho Ho']].
  - rewrite (reads_functional _ _ _ _ Hrs Hrs'). apply omap_same. intros b Hb.
    apply Jc. destruct (reads_found raw_decode _ _ _ _ _ Hrs' Hb) as [-> _ _ _]. congruence.
  - rewrite !omap_none; [done|intros b Hb; apply Ja..].
    + exact (outsider_block _ _ _ _ _ Ho' Hrs' Hb).
    + exact (outsider_block _ _ _ _ _ Ho Hrs Hb).
Qed.

Definition own_of (bu : bundle) (rc : risk) (cs : list json) (b : block) : option exact :=
  match judge_own bu rc attesters (with_total cs b) with Ok (Accepted e) => Some e | _ => None end.
Definition forwarded_of (bu : bundle) (cs : list json) (b : block) : option exact :=
  match judge_forwarded bu attesters (with_total cs b) with Accepted e => Some e | _ => None end.

Lemma with_total_same cs cs' b :
  cs !! b_comment_index b = cs' !! b_comment_index b -> with_total cs b = with_total cs' b.
Proof. intros E. unfold with_total. by rewrite E. Qed.

Lemma own_judges bu rc : judges (own_of bu rc).
Proof.
  constructor.
  - intros cs b Ha. unfold own_of, judge_own.
    change (authorized attesters (with_total cs b)) with (authorized attesters b). by rewrite Ha.
  - intros cs cs' b E. unfold own_of. by rewrite (with_total_same cs cs' b E).
Qed.
Lemma forwarded_judges bu : judges (forwarded_of bu).
Proof.
  constructor.
  - intros cs b Ha. unfold forwarded_of, judge_forwarded.
    change (authorized attesters (with_total cs b)) with (authorized attesters b). by rewrite Ha.
  - intros cs cs' b E. unfold forwarded_of. by rewrite (with_total_same cs cs' b E).
Qed.

Lemma accepted_own bu rc cs bs os :
  Forall2 (fun b o => judge_own bu rc attesters (with_total cs b) = Ok o) bs os ->
  accepted_of os = omap (own_of bu rc cs) bs.
Proof.
  induction 1 as [|b o bs os Hj Hos IH]; [done|]. cbn [accepted_of omap list_omap].
  unfold own_of at 1. rewrite Hj. unfold accepted_of in IH. cbn [omap] in IH. rewrite IH. by destruct o.
Qed.
Lemma accepted_forwarded bu cs bs :
  accepted_of ((fun b => judge_forwarded bu attesters (with_total cs b)) <$> bs) = omap (forwarded_of bu cs) bs.
Proof.
  unfold accepted_of. induction bs as [|b bs IH]; [done|].
  rewrite fmap_cons. cbn [omap list_omap]. cbn [omap] in IH. rewrite IH. clear IH. unfold forwarded_of.
  by destruct (judge_forwarded bu attesters (with_total cs b)).
Qed.

Lemma judged_same bu rc cs cs' t z t' z' :
  same_insiders cs cs' ->
  judged raw_decode bu rc attesters cs = Ok (t, z) -> judged raw_decode bu rc attesters cs' = Ok (t', z') ->
  ta_exact t = ta_exact t'.
Proof.
  intros Hcs (own & fw & os & Ho & Hf & Hos & ->)%judged_exact (own' & fw' & os' & Ho' & Hf' & Hos' & ->)%judged_exact.
  rewrite (accepted_own _ _ _ _ _ Hos), (accepted_own _ _ _ _ _ Hos'), !accepted_forwarded.
  by rewrite (judged_insiders _ _ _ _ _ _ (own_judges bu rc) Hcs Ho Ho'),
    (judged_insiders _ _ _ _ _ _ (forwarded_judges bu) Hcs Hf Hf').
Qed.
End outsiders.

Section influence.
Context `{PyHost}.

(** C12: Whatever authors without the right to attest write in their comments, the reasons and the
    accepted reviews of an evaluation that returns are the same: outsiders move nothing but the
    counters of malformed, oversized and unauthorised evidence. *)
Theorem outsiders_change_nothing raw_decode bu declared cs cs' allowed reviews pr_body docs ev ev' :
  same_insiders (casefold <$> allowed) cs cs' ->
  evaluate_evidence raw_decode bu declared cs allowed reviews pr_body docs = Ok ev ->
  evaluate_evidence raw_decode bu declared cs' allowed reviews pr_body docs = Ok ev' ->
  passes ev' = passes ev /\ ev_reasons ev' = ev_reasons ev /\ ev_accepted ev' = ev_accepted ev /\
  ev_quick ev' = ev_quick ev.
Proof.
  intros Hcs (t & m & [_ [z Hj] Hl Hac Hna Hqu _ (att & Ha & Hre)])%evaluate_parts
    (t' & m' & [_ [z' Hj'] Hl' Hac' Hna' Hqu' _ (att' & Ha' & Hre')])%evaluate_parts.
  rewrite <-(judged_same _ _ _ _ _ _ _ _ _ _ Hcs Hj Hj'), Hl in Hl'. injection Hl' as <-.
  rewrite Hna in Hna'. injection Hna' as Hn. rewrite Ha in Ha'. injection Ha' as <-.
  rewrite <-Hn in Hre', Hqu'. rewrite <-Hac in Hac'. rewrite Hac' in Hre', Hqu'. rewrite <-Hqu in Hqu'.
  rewrite Hqu', <-Hre in Hre'. unfold passes. by rewrite Hre'.
Qed.

(** A decoder exception other than JSONDecodeError, such as that for an integer of more than 4300
    digits or for nesting beyond the recursion limit, is not caught: one marker with such a payload
    in a comment of anybody makes every evaluation raise, so that nothing passes. *)
Theorem decoder_exception_blocks raw_decode bu declared comments allowed reviews pr_body docs comment body m e :
  comment ∈ comments -> comment_body comment = JStr body -> m ∈ finditer EVIDENCE_START_RE body ->
  raw_decode (skip_space (ma_rest m)) = Err e ->
  is_ok (evaluate_evidence raw_decode bu declared comments allowed reviews pr_body docs) = false.
Proof.
  intros Hc Hb Hm Hd. destruct (evaluate_evidence _ _ _ _ _ _ _ _) as [ev|] eqn:E; [|done]. exfalso.
  apply evaluate_parts in E as (t & mm & [_ [z Hj] _ _ _ _ _ _]).
  apply judged_exact in Hj as (own & fw & os & Ho & _).
  apply blocks_from_reads in Ho as (rss & Hr & _).
  apply list_elem_of_lookup in Hc as [i Hi], Hm as [k Hk].
  assert (enumerate comments !! i = Some (i, comment)) as Hi'
    by (unfold enumerate; rewrite lookup_number_from, Hi; done).
  destruct (Forall2_lookup_l _ _ _ _ _ Hr Hi') as (rs & _ & Hrs).
  unfold reads in Hrs. cbn [fst snd] in Hrs. rewrite Hb in Hrs.
  assert (enumerate (finditer EVIDENCE_START_RE body) !! k = Some (k, m)) as Hk'
    by (unfold enumerate; rewrite lookup_number_from, Hk; done).
  destruct (Forall2_lookup_l _ _ _ _ _ Hrs Hk') as (r & _ & Hread).
  unfold read_block in Hread. apply bind_ok in Hread as (p & Hp & _).
  unfold decode_evidence_payload in Hp. apply bind_ok in Hp as (d & Hdec & _). congruence.
Qed.

(** Of the exact evidence the newest piece of every reviewer and axis counts, and no other: the
    kept pieces are among the evidence, at most one for each pair, and every piece is answered by
    the kept one of its pair, which is not older. *)
Theorem newest_counts es ls :
  latest_evidence es = Ok ls ->
  NoDup (key_of <$> ls) /\ (forall l, l ∈ ls -> l ∈ es) /\
  forall e, e ∈ es -> exists l, l ∈ ls /\ key_of l = key_of e /\ not_newer e l.
Proof.
  unfold latest_evidence. intros (m & Hm & [= <-])%bind_ok.
  destruct (latest_of_newest _ _ Hm) as [Hf Hn Hk].
  assert (forall k l, (k, l) ∈ m -> l ∈ es /\ key_of l = k) as Hin
    by (intros k l Hkl; by apply Hf, in_latest_get).
  split_and!.
  - rewrite <-list_fmap_compose.
    replace ((key_of ∘ snd) <$> m) with m.*1; [done|].
    apply list_fmap_ext. intros i [k l] Hi%list_elem_of_lookup_2. by destruct (Hin k l Hi) as [_ <-].
  - intros l ([k l'] & -> & Hkl)%list_elem_of_fmap. by apply (Hin k l').
  - intros e He. destruct (Hn e He) as (l & Hg & Hel). exists l.
    split_and!; [|by apply Hf in Hg as [_ ?]|done].
    apply list_elem_of_fmap. exists (key_of e, l). split; [done|by apply latest_get_in].
Qed.

(** C13: An attestation belongs to one diff: evidence that counts for one bundle counts for no other
    that differs in its base, its head or its diff, so a push, a change of base or of the diff voids
    every earlier review. *)
Theorem evidence_bound raw_decode bu bu' declared declared' comments allowed reviews reviews' pr_body docs ev ev' :
  evaluate_evidence raw_decode bu declared comments allowed reviews pr_body docs = Ok ev ->
  evaluate_evidence raw_decode bu' declared' comments allowed reviews' pr_body docs = Ok ev' ->
  base_sha bu <> base_sha bu' \/ head_sha bu <> head_sha bu' \/ diff_sha256 bu <> diff_sha256 bu' ->
  forall e e', e ∈ ev_accepted ev -> e' ∈ ev_accepted ev' -> ex_block e <> ex_block e'.
Proof.
  intros He He' Hne e e' Hin Hin' Eb.
  assert (forall raw bu declared reviews ev e, 
    evaluate_evidence raw bu declared comments allowed reviews pr_body docs = Ok ev -> e ∈ ev_accepted ev ->
    attested bu (casefold <$> allowed) comments e) as Hat.
  { clear. intros raw bu declared reviews ev e (t & m & [_ [z Hj] Hl Hac _ _ _ _])%evaluate_parts Hin.
    rewrite Hac in Hin. apply list_elem_of_In, filter_In in Hin as [Hin _].
    apply list_elem_of_In, list_elem_of_fmap in Hin as ([k l] & -> & Hin).
    destruct (latest_of_newest _ _ Hl) as [Hf _ Hk]. apply in_latest_get in Hin; [|done].
    apply Hf in Hin as [Hin _]. by eapply judged_attested. }
  pose proof (Hat _ _ _ _ _ _ He Hin) as [_ Hb Hh Hd _ _].
  pose proof (Hat _ _ _ _ _ _ He' Hin') as [_ Hb' Hh' Hd' _ _].
  rewrite Eb in Hb, Hh, Hd. destruct Hne as [Hn|[Hn|Hn]]; congruence.
Qed.
End influence.

(** ** Witnesses *)

#[local] Existing Instance ascii_host.

Definition demo_base : pystr := repeat 97%N 40.
Definition demo_head : pystr := repeat 98%N 40.
Definition demo_hash : pystr := repeat 99%N 64.
Definition demo_bundle (head : pystr) : bundle :=
  Bundle 7 demo_base head demo_base demo_hash demo_hash
    (DiffStats [lit "scripts/tool.py"] 3 1 [] [] [lit "scripts/tool.py"] []).

Definition demo_report (c : N) : pystr := repeat c 130.
Definition demo_record (c : N) (reviewer axis : string) : dict json :=
  [(lit "schema_version", JInt 1); (lit "pr_number", JInt 7); (lit "base_sha", JStr demo_base);
   (lit "head_sha", JStr demo_head); (lit "diff_sha256", JStr demo_hash); (lit "risk_class", JStr (lit "R2"));
   (lit "reviewer", JStr (lit reviewer)); (lit "report_sha256", JStr (sha256_hex (demo_report c)));
   (lit "review_axis", JStr (lit axis)); (lit "verdict", JStr (lit "PASS"));
   (lit "findings_resolved", JBool true)].
(** Payloads are a digit: one record each, a malformed one, and one on which the decoder raises. *)
Definition demo_decode (s : pystr) : result exn (option (json * nat)) :=
  match s with
  | 49%N :: _ => Ok (Some (JObj (demo_record 120 "alice" "correctness"), 1%nat))
  | 50%N :: _ => Ok (Some (JObj (demo_record 121 "bob" "testing"), 1%nat))
  | 51%N :: _ => raise ValueError "Exceeds the limit (4300 digits) for integer string conversion"
  | _ => Ok None
  end.
Definition demo_body (c : N) (payload : string) : pystr :=
  demo_report c ++ lit "<!-- weltgewebe-review-evidence " ++ lit payload ++ lit " -->".
Definition demo_comment (login association : string) (body : pystr) : json :=
  JObj [(lit "body", JStr body); (lit "user", JObj [(lit "login", JStr (lit login))]);
        (lit "author_association", JStr (lit association)); (lit "id", JInt 5);
        (lit "updated_at", JStr (lit "2026-01-01T00:00:00Z"))].
Definition demo_comments (outsider_body : pystr) : list json :=
  [demo_comment "Carol" "OWNER" (demo_body 120 "1"); demo_comment "Carol" "MEMBER" (demo_body 121 "2");
   demo_comment "mallory" "NONE" outsider_body].
#[local] Abbreviation demo_evaluate head outsider_body :=
  (evaluate_evidence demo_decode (demo_bundle head) (Some R2) (demo_comments outsider_body) [lit "carol"] [] None None).

Lemma pass_sound_witness :
  exists ev, demo_evaluate demo_head (lit "hello") = Ok ev /\ differ ex_axis (ev_accepted ev).
Proof.
  destruct (demo_evaluate demo_head (lit "hello")) as [ev|e] eqn:E; [|vm_compute in E; discriminate].
  exists ev. split; [done|].
  assert (passes ev = true) as Hp by (vm_compute in E; injection E as <-; reflexivity).
  destruct (pass_sound demo_decode (demo_bundle demo_head) (Some R2) (demo_comments (lit "hello")) [lit "carol"]
    [] None None ev E Hp) as (r & Hr & _ & _ & _ & _ & _ & _ & _ & _ & Hd & _).
  injection Hr as <-. by destruct (Hd (or_introl eq_refl)) as (_ & Hax & _).
Defined.

Lemma outsiders_change_nothing_witness :
  exists ev ev', demo_evaluate demo_head (lit "hello") = Ok ev /\
    demo_evaluate demo_head (demo_body 122 "9") = Ok ev' /\ ev_malformed ev <> ev_malformed ev' /\
    passes ev' = passes ev.
Proof.
  destruct (demo_evaluate demo_head (lit "hello")) as [ev|e] eqn:E; [|vm_compute in E; discriminate].
  destruct (demo_evaluate demo_head (demo_body 122 "9")) as [ev'|e'] eqn:E'; [|vm_compute in E'; discriminate].
  exists ev, ev'. split_and!; [done|done| |].
  - vm_compute in E, E'. injection E as <-. injection E' as <-. vm_compute. done.
  - apply (outsiders_change_nothing demo_decode (demo_bundle demo_head) (Some R2) (demo_comments (lit "hello"))
      (demo_comments (demo_body 122 "9")) [lit "carol"] [] None None); [|exact E|exact E'].
    constructor; [by left|]. constructor; [by left|]. constructor; [|constructor].
    right. by split; vm_compute.
Defined.

Lemma decoder_exception_blocks_witness :
  is_ok (demo_evaluate demo_head (demo_body 122 "3")) = false.
Proof.
  eapply (decoder_exception_blocks demo_decode (demo_bundle demo_head) (Some R2) (demo_comments (demo_body 122 "3"))
    [lit "carol"] [] None None (demo_comment "mallory" "NONE" (demo_body 122 "3")) (demo_body 122 "3")
    (Matched 130 tt (lit " 3 -->")) (Exn ValueError (lit "Exceeds the limit (4300 digits) for integer string conversion"))).
  - right. right. by left.
  - reflexivity.
  - vm_compute. by left.
  - vm_compute. reflexivity.
Defined.

Lemma evidence_bound_witness :
  exists ev ev', demo_evaluate demo_head (lit "hello") = Ok ev /\ demo_evaluate demo_base (lit "hello") = Ok ev' /\
    length (ev_accepted ev) = 2%nat /\
    forall e e', e ∈ ev_accepted ev -> e' ∈ ev_accepted ev' -> ex_block e <> ex_block e'.
Proof.
  destruct (demo_evaluate demo_head (lit "hello")) as [ev|e] eqn:E; [|vm_compute in E; discriminate].
  destruct (demo_evaluate demo_base (lit "hello")) as [ev'|e'] eqn:E'; [|vm_compute in E'; discriminate].
  exists ev, ev'. split_and!; [done|done|vm_compute in E; injection E as <-; reflexivity|].
  apply (evidence_bound demo_decode (demo_bundle demo_head) (demo_bundle demo_base) (Some R2) (Some R2)
    (demo_comments (lit "hello")) [lit "carol"] [] [] None None); [exact E|exact E'|right; left; by vm_compute].
Defined.

Definition demo_exact (reviewer : string) (date : string) (verdict : string) : exact :=
  Exact false (lit reviewer) demo_hash (lit "testing") (lit verdict) true (lit "external") None None
    (Block [] 0 0 1 130 demo_hash (lit "OWNER") JNull JNull 1 (JStr (lit date))).

Lemma newest_counts_witness :
  exists ls, latest_evidence [demo_exact "Bob" "d1" "PASS"; demo_exact "bob" "d2" "FAIL"] = Ok ls /\
    NoDup (key_of <$> ls) /\ (forall l, l ∈ ls -> ex_verdict l = lit "FAIL").
Proof.
  destruct (latest_evidence [demo_exact "Bob" "d1" "PASS"; demo_exact "bob" "d2" "FAIL"]) as [ls|] eqn:E;
    [|vm_compute in E; discriminate].
  exists ls. split; [done|]. split; [exact (proj1 (newest_counts _ _ E))|].
  vm_compute in E. injection E as <-. intros l ->%list_elem_of_singleton. reflexivity.
Defined.
